(* ===== verification/_CoqProject ===== *)
-Q . S2P
Prelude.v
Distance.v
StateDistance.v
Merkle.v
Header.v
Hex.v
Accumulator.v
SafeArith.v
ContentKey.v
BTree.v
Query.v
FindNodes.v
FindContent.v
QueryPool.v
Wire.v
QueryTrace.v
QueryInfo.v
ContentStore.v
HistoryStorage.v
HistoryPaging.v
Payload.v
Overlay.v
OverlayQuery.v
Gossip.v
OverlayContent.v
OverlayProtocol.v
Events.v
Discovery.v
OverlayChannels.v
OverlayLoop.v
OverlayRequests.v
OverlayAnswers.v
SszList.v
WireSsz.v
ContentKeySsz.v
OverlayGenuine.v
LightClientTypes.v
ConsensusClient.v
ChainOfTrust.v
BeaconValue.v
BeaconStorage.v
LightClient.v
PortalRpc.v
Transaction.v
BlockBody.v
ExecutionTyping.v
ExecutionJson.v
BridgeGossip.v
ConsensusJson.v
TableInfo.v
Metrics.v
HistoryValidation.v
ConsensusSsz.v
HistoryBridge.v
BeaconBridge.v
Config.v
DataDir.v
Networks.v
HistoryNetwork.v
NetworkRpc.v
EthRpc.v
NetworkApi.v
RpcServer.v
