(* ===== verification/Prelude.v ===== *)
(** * Trin: a verification of its core

    Trin is a client of the Portal Network, in which nodes keep pieces of Ethereum
    history and find them by Kademlia-style lookups.  This library models the parts of
    its Rust sources that carry the protocol, as executable definitions with the names of
    the sources, and proves what makes them correct.

    ** The program and its files

    Nodes and content have 256-bit ids, compared by the XOR metric
    ([ethportal-api/src/types/distance.rs]).  Each network (history, beacon, state) has
    an overlay service ([portalnet/src/overlay_service.rs]) that keeps a routing table,
    answers requests of peers from a content store, runs lookups for nodes and content
    ([portalnet/src/find]), takes in content that is offered or found, after validation,
    and passes it on ([portalnet/src/gossip.rs]).  Applications use it through a front
    end ([portalnet/src/overlay.rs]) and the request handlers of the networks
    ([trin-history/src/jsonrpc.rs]).  History content is validated against headers, and
    headers against an accumulator by Merkle proofs ([trin-history], [trin-validation]).
    The beacon network feeds a light client of the consensus layer ([trin-beacon],
    [light-client]).  All networks of a node share discv5 ([portalnet/src/discovery.rs]),
    whose requests are dispatched to them ([portalnet/src/events.rs]); users reach them over
    JSON-RPC ([rpc]).  A bridge ([portal-bridge]) fetches data from providers and gossips it
    into the networks through nodes that it launches.

    - [Prelude]: results with panics, byte strings, encodings of integers, sorting.

    Data and its validation:
    - [Distance], [StateDistance] (Module [StateUtils]): [distance.rs], [node_id.rs], [trin-state/src/utils.rs]:
      distances and random node ids.
    - [Merkle] (Module [MerkleTree]): [merkle/proof.rs]: trees, proofs, snapshots.
    - [Header] (Module [Header]): [execution/header.rs]: headers and their RLP form.
    - [Hex]: [utils/bytes.rs].
    - [Accumulator] (Module [MasterAccumulator]): [accumulator.rs]: header proofs.
    - [SafeArith] (Module [SafeArith]): [merkle/safe_arith.rs].
    - [ContentKey] (Modules [IdentityContentKey], [HistoryContentKey],
      [BeaconContentKey], [StateContentKey]), [ContentKeySsz] (Module [StateKeySsz]):
      [content_key/]: keys, and their derived codecs.
    - [Transaction] (Modules [Transaction], [Receipt], [Withdrawal] and the kinds of
      transactions): [execution/transaction.rs], [execution/receipts.rs].
    - [BlockBody] (Modules [BlockBody], [Receipts]): [execution/block_body.rs]: bodies,
      their SSZ forms, roots and validation against a header.
    - [ExecutionTyping]: typing rules for the decoders of these files.
    - [ExecutionJson]: the JSON forms of headers, transactions, receipts and withdrawals.
    - [HistoryValidation] (Modules [HistoryContentValue], [HeaderOracle],
      [ChainHistoryValidator]): [content_value/history.rs], [trin-validation/src/oracle.rs],
      [trin-history/src/validation.rs].

    Lookups:
    - [BTree]: the [BTreeMap] operations of lookups, as sorted association lists.
    - [Query]: [find/iterators/query.rs], the loops that both kinds of lookups share, the
      trait [Query] and the laws [QueryOk] and [QueryReports] of its implementations.
    - [FindNodes], [FindContent] (Modules [FindNodeQuery], [FindContentQuery]): the two
      lookups, [findnodes.rs] and [findcontent.rs].
    - [QueryPool], [QueryInfo], [QueryTrace]: [find/query_pool.rs], proved against
      [QueryOk] only, [find/query_info.rs], [query_trace.rs].

    The overlay service and its storage:
    - [Wire]: [types/portal_wire.rs]: messages, limits, custom payloads.  [WireSsz] (Module
      [WireSsz]) has the codecs of messages and records down to bytes, and puts them under
      the exchange of requests between two nodes.
    - [ContentStore] (Module [MemoryContentStore]), [HistoryStorage] (Module
      [HistoryStorage]), [HistoryPaging]: the trait of stores with its laws
      [ContentStoreOk], the in-memory store, the SQLite store and paging through it
      ([trin-storage], [trin-history/src/storage.rs]).
    - [Payload]: [portalnet/src/utils/portal_wire.rs]: payloads of several contents.
    - [Overlay] (Module [OverlayService]): the service: routing table and requests.
    - [OverlayQuery] (Module [OverlayQuery]): the service: lookups.
    - [Gossip] (Module [Gossip]): [gossip.rs].
    - [OverlayContent] (Module [OverlayContent]): the service: offers, transfers, content
      that was received, responses.
    - [OverlayProtocol] (Module [OverlayProtocol]): [overlay.rs], against the interface
      [OverlayWorld] of service, discovery and uTP, which [PeerNetwork] connects to the
      service of a peer.
    - [Events] (Module [PortalnetEvents]): [portalnet/src/events.rs] and the [events.rs] of the
      networks: the dispatch of requests and events, and how requests are answered.
    - [Discovery] (Module [Discovery]): [portalnet/src/discovery.rs]: the record of the node,
      its sequence number, bootnodes, the address cache, the socket of uTP.
    - [OverlayLoop] (Module [OverlayLoop]): the service as a process: the channels of
      [overlay_service.rs], its active requests and tasks, one function per branch of the
      [select!] of [start], and the step relation [step] of the loop.  [OverlayChannels],
      [OverlayRequests] and [OverlayAnswers] follow channels, request ids and lookups through
      its steps, [OverlayGenuine] the content that it stores and gives out.  The front end
      takes part in the steps: it opens channels, stores content without validation
      ([portal_historyStore]) and edits the routing table; a task may panic, which drops the
      channel that it holds.
    - [TableInfo] (Modules [TableInfo], [WireJson]): [types/discv5.rs], [bucket_entries] of
      [overlay.rs], [trin-history/src/utils.rs]: the routing table and messages as JSON.
    - [Metrics] (Modules [Labels], [OverlayMetrics], [StorageMetrics], [Reports]):
      [trin-metrics/src/]: counters, summaries, and what transfers and the storage report.
    - [Networks] (Modules [PortalnetConfig], [OverlayConfig], [StateStorage], [Networks]):
      [portalnet/src/config.rs], [network.rs] and [lib.rs] of the networks: building and
      starting them.
    - [HistoryNetwork]: a history node: the running service that [Networks] builds from the
      storage of [HistoryStorage] and the validator of [HistoryValidation].
    - [NetworkRpc] (Modules [NetworkRpc], [BeaconRpc]): the request handlers
      ([jsonrpc.rs] of the two networks), and the oracle of [HistoryValidation] on top of
      them.

    The servers of a node:
    - [EthRpc] (Module [EthApi]): [rpc/src/eth_rpc.rs], [fetch.rs]: blocks by their hash.
    - [NetworkApi] (Modules [NetworkApi], [BeaconNetworkApi]): [history_rpc.rs],
      [beacon_rpc.rs]: the methods of the networks.
    - [RpcServer] (Modules [PortalRpcModule], [RpcModuleBuilder], [RpcServerConfig], [Cors] and
      others): [builder.rs], [rpc_server.rs], [cors.rs], [rpc/src/lib.rs] and the part of
      [src/lib.rs] that starts networks and servers.
    - [Config] (Module [TrinConfig] and those of the bridge): [types/cli.rs],
      [bootnodes.rs], [portal-bridge/src/cli.rs], [client_handles.rs], [utils.rs].
    - [DataDir] (Module [DataDir]): [portalnet/src/utils/db.rs]: directories and the key.

    The light client and the beacon network:
    - [LightClientTypes] (Modules [ForkName], [GenericUpdate], [Config] and the types of
      updates): [types/consensus/], [light-client/src/config/].
    - [ConsensusClient] (Module [ConsensusLightClient]):
      [light-client/src/consensus/consensus_client.rs]: verification and application of
      updates, bootstrap, [sync] and [advance].
    - [ChainOfTrust]: what the client may trust, and that it never leaves it.
    - [LightClient] (Modules [Node], [Client], [ClientBuilder], [CheckpointFallback],
      [FileDB], [ConfigDB]): [node.rs], [client.rs], [config/checkpoints.rs],
      [database.rs].
    - [SszList], [BeaconValue] (Module [BeaconContentValue]): lists of SSZ parts,
      [content_value/beacon.rs].
    - [ConsensusSsz] (Module [ConsensusSsz]): [pubkey.rs], [signature.rs], [proof.rs],
      [header_proof.rs], [body.rs] of [types/consensus/]: codecs of fixed size, and of
      historical summaries.
    - [BeaconStorage] (Modules [BeaconStorageCache], [BeaconStorage]):
      [trin-beacon/src/storage.rs].
    - [PortalRpc] (Modules [PortalRpc], [BeaconSync]): the light client over the beacon
      network ([consensus/rpc/portal_rpc.rs], [trin-beacon/src/sync.rs]).
    - [ConsensusJson] (Module [NimbusRpc]): the JSON forms of updates, and the client over
      HTTP ([consensus/rpc/nimbus_rpc.rs]).

    The bridge:
    - [BridgeGossip]: [portal-bridge/src/gossip.rs], [stats.rs], [types/mode.rs]: gossip with
      retries, its statistics, and what a program of the bridge may gossip.
    - [HistoryBridge], [BeaconBridge] (Modules of these names, [ExecutionApi],
      [ConsensusApi]): [bridge/history.rs], [bridge/beacon.rs] and [api/].

    ** How the code is modelled

    A function that may fail or panic returns [res E A] ([Ok], [Err], [Panic]);
    arithmetic is that of a release build (wrapping at the width of the type), so
    [debug_assert] is left out, and [assert], [expect], slicing and indexing panic.  A
    [&mut self] method takes the state and returns the new one; code that also reads the
    clock, files or the network runs in a state and error monad over a world ([SM]).  Hash
    maps are [gmap]s whose order of traversal is an argument; the time is an argument;
    random choices are parameters (connection ids of uTP are a stream of draws).  What a
    lookup of the validator's own is answered is an argument of each validation: [Outside]
    of the class [Validator], [HeaderNetwork] for the history network, so that it may change
    from call to call.  What a service sends and spawns is a list of effects
    in its state; spawned tasks are functions of their own; the loop of a service takes one
    of them, or a message of a channel, in each step.  Logging is left out, apart from
    computations in it that can fail; metrics are modelled on their own ([Metrics]).

    Code outside of the repository is a type class of operations with a second class of
    the documented laws that theorems need: hashing ([Eth2Hashing], [HashLib]), RLP
    ([RlpLib], [RlpTree], [RlpTyped]), SSZ ([SszLib], [WireLib], [EpochLib],
    [EpochEncoding], [VarSsz], [BeaconSsz]), base64 ([Base64Lib]), tries ([TrieLib]),
    blooms ([BloomLib]), BLS signatures and tree hashes ([ConsensusLib]), hex ([HexLib]),
    LEB128 ([Leb128]), node records ([EnrLib], [EnrText]), the keys and the routing table
    of discv5 ([KeyLib], [Log2Lib], [KBucketsTable], [KBucketsNew], [KBucketsIter]), the
    entries of records and building them ([EnrInfo], [EnrBuild]), floating-point numbers
    ([F64]), the
    address cache ([LruCache]), SQLite ([SqlLib]), random numbers ([Rng], [RandomLib]), keys
    ([KeyGen]), JSON of basic types ([SerdeTypes], [ConsensusSerde], [WireText]), text ([UrlLib],
    [HashText], [AddressText]), files, clock and HTTP ([HostLib], [FileHost], [BridgeHost],
    [HttpGet]),
    methods and servers of [jsonrpsee] ([RpcMethods], [ServerHost]).  Interfaces between
    components are classes as well: [Query], [OverlayContentKey], [ContentStore],
    [Validator], [ConsensusRpc], [Database], [BeaconOverlay], [HeaderNetwork],
    [OverlayWorld], [NetworkContent], [ContentJson], [PortalClient], the channel
    [epoch_channel] of the accumulator, which [NetworkRpc] connects to the request handler,
    and the codecs
    [MessageSsz], [HistoryKeySsz] and [U64Ssz], which [WireSsz] and [ContentKeySsz] discharge.  Small instances of all
    of them make the theorems run on examples, at the end of each file.  Ids of requests are
    drawn by an injective function, as random 128-bit numbers practically are.

    Hash functions are not assumed to be injective, which no function to 32 bytes is.  The
    theorems that rest on them conclude that two things are equal or that one of a list of
    named pairs of strings is a collision ([collides hash pairs] in [Prelude]).  The pairs
    are computed from what the theorem is about: what the verifier and the tree hash on the
    levels of a proof ([proof_pairs], [header_pairs]), two headers, the nodes of two tries
    ([body_pairs], [receipts_pairs], [content_pairs]).  For content ids the alternative is
    that the content was validated for another key with the same id ([ids_collide]).

    ** What is proved

    - The light client (C1, C12, C29, C30, C40): verification accepts exactly the valid
      updates; whatever the replies, the client stays on the chain of trust of its
      checkpoint and only moves forward; the client of the beacon network trusts the user's
      root only; which of its requests are never served.
    - Validation (C7-C9, C11, C21, C22, C28, C33, C34): Merkle proofs and header proofs are
      sound (up to the named collisions) and complete, appending refines a list of leaves,
      accepted content is canonical and unique for its key, a header commits to one body and
      one list of receipts; the headers that bodies are checked against, and the blocks that
      users get, come from validated content.
    - Lookups (C2, C3, C10, C32): any sequence of calls is safe, contacts nobody twice and
      respects the permitted parallelism; a lookup that is driven terminates, with the
      closest of the peers that answered; a content lookup without content behaves like a
      node lookup.
    - The service as a process (C4, C5, C14, C17): no channel for an answer is used twice, or
      lost unless the task that holds it panics; a response goes to the request it answers; the lookups inside of the running
      service are those of the state machines above; a request that one node sends is
      answered within the size of a packet by bytes that it reads as the response (C17).
    - The service (C6, C13, C15, C16, C18, C31, C39): a history node that runs stores, serves
      and hands out only content that was validated or that its own user has stored; peers to contact have known records; responses name the right nodes in the
      right order and fit into a packet; content that a peer holds is retrieved from it;
      transfers of offered content; who is offered what by gossip.
    - Storage (C19, C20, C38): what is stored, served and evicted.
    - The node (C23, C36): sequence numbers of its record over restarts; the methods that it
      serves.
    - The bridge (C25-C27): what is gossiped is accepted by history nodes; every block is
      tried once, in its turn, and given up if the provider fails then; the beacon bridge never
      falls back.
    - Encodings (C24, C35, C37): whatever is decoded is well typed; which headers survive
      their encoding (all of the chain but that of the first Shanghai block), and that
      content values do.

    Further theorems, without a number, are about the same parts: the metric and random
    ids ([Distance]), checked arithmetic, keys, traces, radii, snapshots, paging, JSON forms,
    the query pool, fallbacks of the light client, dispatch of events, configuration,
    origins, the types of answers, metrics, the JSON of the routing table, the codecs of keys
    and consensus types, the distance of the state network.  Theorems that show behaviour the code does not intend
    (C15 in its second half, parts of C4, C26 and C35, C40 and several unnumbered ones, such
    as [own_epochs_unreadable] of [NetworkRpc]) are about the code as it is.

    ** Bounds

    Loops that are not structural run on fuel: [decode_loop] on the length of the payload
    (every round reads a byte), [log2_loop] on 256 (distances are at most 256),
    [pop_loop] on the length of the list, [prune_loop] on the number of rows, [drive]
    (the environment of a lookup) on the number of peers and their states, [draw] (the search
    for a key with a prefix) on a number of draws in which every prefix comes up.  Each is
    shown to be enough: running out of fuel is a value of its own ([None] or [Panic]) that the
    theorems exclude.  [start_loop] retries for ever in the sources; its theorem holds for
    every number of attempts, and the theorems about the loops of the service and of the
    bridges hold for any number of steps (for request ids and channels, of less than 2^64).

    ** What is not modelled

    Network and file I/O (discv5, uTP, SQLite itself, HTTP, the transport of JSON-RPC),
    command line parsing, texts for logs, the derived SSZ codecs of the parts of beacon
    blocks of variable size, which the node does not use, and of the updates of light
    clients (class [BeaconSsz]), JSON that is only written for display and traces, the
    exporter of metrics, dashboards and test tools.  What is left of the sources is
    declarations, imports and glue of these kinds.  The storage of the state network is not
    implemented in the sources: its operations panic.  A panic of the loop of a service ends
    the runs that are modelled.  Tasks that take in the items of one
    payload run in order.  Events between networks are dispatched, but no network of the
    sources acts on one. *)

From Stdlib Require Export ZArith Lia.
From Stdlib Require Import Strings.Byte.
From Corelib Require Export Init.Byte.
From stdpp Require Export countable base tactics option list list_numbers numbers sorting.

#[global] Set Default Goal Selector "!".

Declare Scope trin_scope.
Delimit Scope trin_scope with trin.

(** ** Outcomes of Rust code *)

(** A Rust computation either returns a value, returns an [Err], or panics. *)
Inductive res (E A : Type) : Type :=
| Ok (a : A)
| Err (e : E)
| Panic.
Arguments Ok {E A} a.
Arguments Err {E A} e.
Arguments Panic {E A}.

(** [let? x := c in k] is Rust's [let x = c?; k]. *)
Notation "'let?' x ':=' c 'in' k" :=
  (match c with
   | Ok x => k
   | Err e => Err e
   | Panic => Panic
   end)
  (at level 10, x pattern, c at level 100, k at level 200,
   format "'[v' 'let?'  x  ':='  c  'in' '/' k ']'") : trin_scope.

Open Scope trin_scope.

(** [Result::map_err]. *)
Definition map_err {E F A} (f : E -> F) (r : res E A) : res F A :=
  match r with
  | Ok a => Ok a
  | Err e => Err (f e)
  | Panic => Panic
  end.

(** [Option::ok_or]. *)
Definition ok_or {E A} (o : option A) (e : E) : res E A :=
  match o with
  | Some a => Ok a
  | None => Err e
  end.

(** Slice indexing [v[i]]: a panic out of range. *)
Definition index {E A} (v : list A) (i : Z) : res E A :=
  if (i <? 0)%Z then Panic else
  match v !! Z.to_nat i with
  | Some a => Ok a
  | None => Panic
  end.

(** Collecting an iterator of results into a result of a vector stops at the
    first error. *)
Fixpoint res_all {E A B} (f : A -> res E B) (l : list A) : res E (list B) :=
  match l with
  | [] => Ok []
  | x :: t =>
      let? y := f x in
      let? ys := res_all f t in
      Ok (y :: ys)
  end.

(** [if let Ok(value) = r { return Ok(value) }]. *)
Definition or_else {E F A} (r : res E A) (k : res F A) : res F A :=
  match r with
  | Ok a => Ok a
  | Err _ => k
  | Panic => Panic
  end.

(** [Result::map]. *)
Definition res_map {E A B} (f : A -> B) (r : res E A) : res E B :=
  match r with
  | Ok a => Ok (f a)
  | Err e => Err e
  | Panic => Panic
  end.

Definition is_ok {E A} (r : res E A) : bool :=
  match r with Ok _ => true | _ => false end.

(** Success of a guarded computation, and of a sequence. *)
Lemma guard_ok {E A} (b : bool) (e : E) (k : res E A) a :
  (if b then Err e else k) = Ok a <-> b = false /\ k = Ok a.
Proof. destruct b; naive_solver. Qed.

Lemma bind_ok {E A B} (r : res E A) (k : A -> res E B) b :
  (match r with Ok x => k x | Err e => Err e | Panic => Panic end) = Ok b
  <-> exists x, r = Ok x /\ k x = Ok b.
Proof. destruct r; naive_solver. Qed.

(** ** Computations with state *)

Definition SM (S E A : Type) : Type := S -> res E A * S.

Definition ret {S E A} (a : A) : SM S E A := fun s => (Ok a, s).
Definition lift {S E A} (r : res E A) : SM S E A := fun s => (r, s).
Definition bind {S E A B} (m : SM S E A) (k : A -> SM S E B) : SM S E B := fun s =>
  match m s with
  | (Ok a, s) => k a s
  | (Err e, s) => (Err e, s)
  | (Panic, s) => (Panic, s)
  end.
Notation "'do' x <- m ; k" := (bind m (fun x => k))
  (at level 100, x pattern, m at level 99, k at level 200, right associativity) : trin_scope.

(** The result of a call, errors included; a panic goes on. *)
Definition attempt {S E A} (m : SM S E A) : SM S E (res E A) := fun s =>
  match m s with
  | (Ok a, s) => (Ok (Ok a), s)
  | (Err e, s) => (Ok (Err e), s)
  | (Panic, s) => (Panic, s)
  end.

(** The state is often an object and the world around it: a call on the world, a function
    of the object, a method that changes the object. *)
Definition call {T W E A} (f : W -> res E A * W) : SM (T * W) E A := fun '(self, w) =>
  let '(r, w) := f w in (r, (self, w)).
Definition gets {T W E A} (f : T -> A) : SM (T * W) E A := fun '(self, w) => (Ok (f self), (self, w)).
Definition update_self {T W E A} (f : T -> res E A * T) : SM (T * W) E A := fun '(self, w) =>
  let '(r, self) := f self in (r, (self, w)).

Section Keeps.
Context {T W E : Type}.

(** [m] keeps [P] of the object, and its results satisfy [Q]. *)
Definition keeps {A} (P : T -> Prop) (m : SM (T * W) E A) (Q : A -> Prop) : Prop :=
  forall self w r self' w', P self -> m (self, w) = (r, (self', w')) ->
    P self' /\ forall a, r = Ok a -> Q a.

Lemma keeps_bind {A B} P (m : SM (T * W) E A) Q (k : A -> SM (T * W) E B) S :
  keeps P m Q -> (forall a, Q a -> keeps P (k a) S) -> keeps P (bind m k) S.
Proof.
  intros Hm Hk self w r self' w' HP H. unfold bind in H.
  destruct (m (self, w)) as [r1 [self1 w1]] eqn:E1. destruct (Hm _ _ _ _ _ HP E1) as [HP1 HQ].
  destruct r1 as [a| |]; [by eapply (Hk a (HQ a eq_refl))|by injection H as <- <- <-..].
Qed.

Lemma keeps_ret {A} P (a : A) (Q : A -> Prop) : Q a -> keeps P (ret a) Q.
Proof. intros H self w r self' w' HP [= <- <- <-]. split; [done|]. by intros a' [= <-]. Qed.

Lemma keeps_lift {A} P (x : res E A) (Q : A -> Prop) : (forall a, x = Ok a -> Q a) -> keeps P (lift x) Q.
Proof. intros H self w r self' w' HP [= <- <- <-]. auto. Qed.

Lemma keeps_gets {A} P (f : T -> A) : keeps P (gets f) (fun _ => True).
Proof. intros self w r self' w' HP [= <- <- <-]. auto. Qed.

Lemma keeps_call {A} P (f : W -> res E A * W) (Q : A -> Prop) :
  (forall w a w', f w = (Ok a, w') -> Q a) -> keeps P (call f) Q.
Proof.
  intros H self w r self' w' HP. unfold call. destruct (f w) as [r1 w1] eqn:Ef. intros [= <- <- <-].
  split; [done|]. intros a ->. eauto.
Qed.

Lemma keeps_attempt {A} P (m : SM (T * W) E A) (Q : A -> Prop) :
  keeps P m Q -> keeps P (attempt m) (fun r => forall a, r = Ok a -> Q a).
Proof.
  intros Hm self w r self' w' HP H. unfold attempt in H.
  destruct (m (self, w)) as [r1 [self1 w1]] eqn:E1. destruct (Hm _ _ _ _ _ HP E1) as [HP1 HQ].
  destruct r1; injection H as <- <- <-; split; try done; intros a' [= <-]; naive_solver.
Qed.
End Keeps.

(** ** Tactics *)

(** Case analysis on the innermost scrutinee of the goal or of a hypothesis. *)
Ltac inner_match t k :=
  lazymatch t with
  | context [match ?x with _ => _ end] => inner_match x k
  | _ => k t
  end.

Ltac case_goal :=
  match goal with
  | |- context [match ?x with _ => _ end] =>
      inner_match x ltac:(fun y => destruct y eqn:?)
  end.

Ltac case_hyp H :=
  match type of H with
  | context [match ?x with _ => _ end] =>
      inner_match x ltac:(fun y => destruct y eqn:?)
  end.

(** Boolean comparisons of integers in hypotheses and goal, as propositions. *)
Ltac b2p :=
  repeat match goal with
  | H : (_ && _)%bool = true |- _ => apply andb_true_iff in H; destruct H
  | H : (_ || _)%bool = false |- _ => apply orb_false_iff in H; destruct H
  | H : negb _ = true |- _ => apply negb_true_iff in H
  | H : negb _ = false |- _ => apply negb_false_iff in H
  | H : (_ <? _)%Z = true |- _ => apply Z.ltb_lt in H
  | H : (_ <? _)%Z = false |- _ => apply Z.ltb_ge in H
  | H : (_ <=? _)%Z = true |- _ => apply Z.leb_le in H
  | H : (_ <=? _)%Z = false |- _ => apply Z.leb_gt in H
  | H : (_ =? _)%Z = true |- _ => apply Z.eqb_eq in H
  | H : (_ =? _)%Z = false |- _ => apply Z.eqb_neq in H
  | H : (_ <? _)%nat = true |- _ => apply Nat.ltb_lt in H
  | H : (_ <? _)%nat = false |- _ => apply Nat.ltb_ge in H
  | H : (_ <=? _)%nat = true |- _ => apply Nat.leb_le in H
  | H : (_ <=? _)%nat = false |- _ => apply Nat.leb_gt in H
  | H : (_ =? _)%nat = true |- _ => apply Nat.eqb_eq in H
  | H : (_ =? _)%nat = false |- _ => apply Nat.eqb_neq in H
  end.

Create HintDb trin discriminated.

(** ** Machine integers *)

Open Scope Z_scope.

Definition U64_MOD : Z := 2 ^ 64.
Definition U32_MOD : Z := 2 ^ 32.
Definition U256_MOD : Z := 2 ^ 256.

(** Release arithmetic wraps around at the width of the type. *)
Definition wrap64 (z : Z) : Z := z mod U64_MOD.

Definition is_u64 (z : Z) : Prop := 0 <= z < U64_MOD.
Definition is_u256 (z : Z) : Prop := 0 <= z < U256_MOD.

Lemma wrap64_range z : is_u64 (wrap64 z).
Proof. unfold is_u64, wrap64. apply Z.mod_pos_bound. reflexivity. Qed.

Lemma wrap64_small z : is_u64 z -> wrap64 z = z.
Proof. apply Z.mod_small. Qed.

#[export] Hint Resolve wrap64_range : trin.

(** ** Bytes *)

Abbreviation bytes := (list byte).

#[export] Instance byte_inhabited : Inhabited byte := populate x00.
Definition byte_to_Z (b : byte) : Z := Z.of_N (Byte.to_N b).

Definition byte_of_Z (z : Z) : byte :=
  match Byte.of_N (Z.to_N (z mod 256)) with
  | Some b => b
  | None => x00
  end.

Lemma byte_to_N_inj a b : Byte.to_N a = Byte.to_N b -> a = b.
Proof. intros H. apply (f_equal Byte.of_N) in H. rewrite !Byte.of_to_N in H. congruence. Qed.

#[export] Instance byte_eq_decision : EqDecision byte := fun a b =>
  match N.eq_dec (Byte.to_N a) (Byte.to_N b) with
  | left E => left (byte_to_N_inj a b E)
  | right NE => right (fun E => NE (f_equal Byte.to_N E))
  end.

#[export] Instance byte_countable : Countable byte :=
  inj_countable Byte.to_N Byte.of_N Byte.of_to_N.

(** The bitwise exclusive or of two [u8]s. *)
Definition byte_xor (a b : byte) : byte :=
  byte_of_Z (Z.lxor (byte_to_Z a) (byte_to_Z b)).

Lemma byte_to_Z_range b : 0 <= byte_to_Z b < 256.
Proof.
  unfold byte_to_Z. pose proof (Byte.to_N_bounded b). lia.
Qed.

Lemma byte_of_to_Z b : byte_of_Z (byte_to_Z b) = b.
Proof.
  unfold byte_of_Z. pose proof (byte_to_Z_range b) as Hr.
  rewrite Z.mod_small by done. unfold byte_to_Z.
  by rewrite N2Z.id, Byte.of_to_N.
Qed.

Lemma byte_to_of_Z z : byte_to_Z (byte_of_Z z) = z mod 256.
Proof.
  unfold byte_of_Z. pose proof (Z.mod_pos_bound z 256 eq_refl) as Hr.
  destruct (Byte.of_N _) as [b|] eqn:E.
  - apply Byte.to_of_N in E. unfold byte_to_Z. rewrite E. lia.
  - apply Byte.of_N_None_iff in E. lia.
Qed.

Lemma byte_to_Z_inj a b : byte_to_Z a = byte_to_Z b -> a = b.
Proof.
  intros H. by rewrite <- (byte_of_to_Z a), <- (byte_of_to_Z b), H.
Qed.

Lemma lxor_range k a b :
  0 <= k -> 0 <= a < 2 ^ k -> 0 <= b < 2 ^ k -> 0 <= Z.lxor a b < 2 ^ k.
Proof.
  intros Hk Ha Hb.
  assert (Z.lxor a b = Z.lxor a b mod 2 ^ k) as ->.
  { apply Z.bits_inj'. intros i Hi.
    destruct (Z.lt_ge_cases i k).
    - by rewrite Z.mod_pow2_bits_low.
    - rewrite Z.mod_pow2_bits_high by lia.
      rewrite Z.lxor_spec.
      rewrite <- (Z.mod_small a (2 ^ k)), <- (Z.mod_small b (2 ^ k)) by done.
      by rewrite !Z.mod_pow2_bits_high by lia. }
  apply Z.mod_pos_bound. lia.
Qed.

Lemma byte_to_Z_xor a b :
  byte_to_Z (byte_xor a b) = Z.lxor (byte_to_Z a) (byte_to_Z b).
Proof.
  unfold byte_xor. rewrite byte_to_of_Z. apply Z.mod_small.
  apply (lxor_range 8); [lia | apply byte_to_Z_range..].
Qed.

(** ** Endianness *)

(** ** Collisions of a hash function *)

(** One of the pairs [ps] is a collision of [hash].  The soundness theorems name the
    pairs: they are computed from the data at hand (the two strings hashed at each
    step of a verification), so that the disjunct is a fact about these few strings,
    decidable by computing their digests. *)
Definition collides (hash : bytes -> bytes) (ps : list (bytes * bytes)) : Prop :=
  Exists (fun p => p.1 <> p.2 /\ hash p.1 = hash p.2) ps.

#[export] Instance collides_dec hash ps : Decision (collides hash ps).
Proof. unfold collides. apply _. Defined.

Lemma collides_pair hash a b : hash a = hash b -> a = b \/ collides hash [(a, b)].
Proof. intros E. destruct (decide (a = b)); [by left|]. right. by constructor. Qed.

Lemma collides_app hash ps qs : collides hash (ps ++ qs) <-> collides hash ps \/ collides hash qs.
Proof. apply Exists_app. Qed.

Lemma collides_app_l hash ps qs : collides hash ps -> collides hash (ps ++ qs).
Proof. rewrite collides_app. auto. Qed.

Lemma collides_app_r hash ps qs : collides hash qs -> collides hash (ps ++ qs).
Proof. rewrite collides_app. auto. Qed.

Lemma collides_elem hash ps a b : (a, b) ∈ ps -> a <> b -> hash a = hash b -> collides hash ps.
Proof. intros Hin Hne E. apply Exists_exists. by exists (a, b). Qed.

Lemma collides_subset hash ps qs : ps ⊆ qs -> collides hash ps -> collides hash qs.
Proof.
  intros Hs (p & Hp & Hne & E)%Exists_exists. apply Exists_exists. exists p. split; [by apply Hs | done].
Qed.

Lemma collides_nil hash : ~ collides hash [].
Proof. intros H. by apply Exists_nil in H. Qed.

Lemma not_collides hash ps : bool_decide (collides hash ps) = false -> ~ collides hash ps.
Proof. apply bool_decide_eq_false_1. Qed.

Create HintDb collide.
#[export] Hint Resolve collides_app_l collides_app_r : collide.

(** [from_le_bytes]. *)
Fixpoint le_to_Z (l : bytes) : Z :=
  match l with
  | [] => 0
  | b :: t => byte_to_Z b + 256 * le_to_Z t
  end.

(** The [n] little-endian bytes of [z]. *)
Fixpoint Z_to_le (n : nat) (z : Z) : bytes :=
  match n with
  | O => []
  | S m => byte_of_Z z :: Z_to_le m (z / 256)
  end.

(** [from_be_bytes] and the [n] big-endian bytes of [z]. *)
Definition be_to_Z (l : bytes) : Z := le_to_Z (reverse l).
Definition Z_to_be (n : nat) (z : Z) : bytes := reverse (Z_to_le n z).

Lemma length_Z_to_le n z : length (Z_to_le n z) = n.
Proof. revert z. induction n; intros z; simpl; [done | by rewrite IHn]. Qed.

Lemma length_Z_to_be n z : length (Z_to_be n z) = n.
Proof. unfold Z_to_be. by rewrite length_reverse, length_Z_to_le. Qed.

Lemma pow256_succ n : 256 ^ Z.of_nat (S n) = 256 * 256 ^ Z.of_nat n.
Proof. rewrite Nat2Z.inj_succ, Z.pow_succ_r; lia. Qed.

Lemma le_to_Z_range l : 0 <= le_to_Z l < 256 ^ Z.of_nat (length l).
Proof.
  induction l as [|b t IH]; [done|].
  simpl length. rewrite pow256_succ. simpl.
  pose proof (byte_to_Z_range b). lia.
Qed.

Lemma be_to_Z_range l : 0 <= be_to_Z l < 256 ^ Z.of_nat (length l).
Proof. unfold be_to_Z. rewrite <- length_reverse. apply le_to_Z_range. Qed.

Lemma le_to_Z_to_le n z : 0 <= z -> le_to_Z (Z_to_le n z) = z mod 256 ^ Z.of_nat n.
Proof.
  revert z. induction n as [|n IH]; intros z Hz; [by rewrite Z.mod_1_r|].
  rewrite pow256_succ. simpl. rewrite byte_to_of_Z, IH by (apply Z.div_pos; lia).
  rewrite Z.rem_mul_r; lia.
Qed.

Lemma Z_to_le_to_Z l : Z_to_le (length l) (le_to_Z l) = l.
Proof.
  induction l as [|b t IH]; [done|]. simpl.
  pose proof (byte_to_Z_range b) as Hb.
  assert ((byte_to_Z b + 256 * le_to_Z t) / 256 = le_to_Z t) as ->.
  { rewrite Z.mul_comm, Z.div_add, Z.div_small; lia. }
  rewrite IH. f_equal. apply byte_to_Z_inj.
  rewrite byte_to_of_Z, Z.mul_comm, Z.mod_add, Z.mod_small; lia.
Qed.

Lemma le_to_Z_app a b : le_to_Z (a ++ b) = le_to_Z a + 256 ^ Z.of_nat (length a) * le_to_Z b.
Proof.
  induction a as [|x a IH]; [simpl; lia|].
  simpl length. rewrite pow256_succ. simpl. rewrite IH. lia.
Qed.

Lemma be_to_Z_app a b : be_to_Z (a ++ b) = be_to_Z a * 256 ^ Z.of_nat (length b) + be_to_Z b.
Proof. unfold be_to_Z. rewrite reverse_app, le_to_Z_app, length_reverse. lia. Qed.

(** The bytes of a number split at a byte boundary. *)
Lemma Z_to_le_app m n z : Z_to_le (m + n) z = Z_to_le m z ++ Z_to_le n (z / 256 ^ Z.of_nat m).
Proof.
  revert z. induction m as [|m IH]; intros z; [by rewrite Z.div_1_r|].
  rewrite pow256_succ. simpl. by rewrite IH, Z.div_div by lia.
Qed.

Lemma Z_to_be_app m n z : Z_to_be (m + n) z = Z_to_be n (z / 256 ^ Z.of_nat m) ++ Z_to_be m z.
Proof. unfold Z_to_be. by rewrite Z_to_le_app, reverse_app. Qed.

Lemma le_to_Z_inj a b : length a = length b -> le_to_Z a = le_to_Z b -> a = b.
Proof.
  intros Hl H. by rewrite <- (Z_to_le_to_Z a), <- (Z_to_le_to_Z b), H, Hl.
Qed.

Lemma be_to_Z_inj a b : length a = length b -> be_to_Z a = be_to_Z b -> a = b.
Proof.
  intros Hl H. apply (inj reverse), le_to_Z_inj; [|done].
  by rewrite !length_reverse.
Qed.

Lemma be_to_Z_to_be n z :
  0 <= z < 256 ^ Z.of_nat n -> be_to_Z (Z_to_be n z) = z.
Proof.
  intros H. unfold be_to_Z, Z_to_be.
  rewrite reverse_involutive, le_to_Z_to_le by lia. by apply Z.mod_small.
Qed.

Lemma Z_to_be_to_Z l : Z_to_be (length l) (be_to_Z l) = l.
Proof.
  unfold be_to_Z, Z_to_be. rewrite <- length_reverse, Z_to_le_to_Z.
  apply reverse_involutive.
Qed.

(** Xor acts bytewise. *)
Lemma mul256_lxor a b : 256 * Z.lxor a b = Z.lxor (256 * a) (256 * b).
Proof.
  change 256 with (2 ^ 8).
  rewrite !(Z.mul_comm (2 ^ 8)), <- !Z.shiftl_mul_pow2 by lia.
  by rewrite Z.shiftl_lxor.
Qed.

Lemma byte_add_lxor b z : 0 <= b < 256 -> b + 256 * z = Z.lxor b (256 * z).
Proof.
  intros Hb. apply Z.add_nocarry_lxor. apply Z.bits_inj'. intros i Hi.
  rewrite Z.land_spec, Z.bits_0. change 256 with (2 ^ 8) in *.
  rewrite Z.mul_comm, <- Z.shiftl_mul_pow2, Z.shiftl_spec by lia.
  destruct (Z.lt_ge_cases i 8).
  - by rewrite (Z.testbit_neg_r z), andb_false_r by lia.
  - rewrite <- (Z.mod_small b (2 ^ 8)) by done.
    by rewrite Z.mod_pow2_bits_high by lia.
Qed.

Lemma le_to_Z_xor a b :
  length a = length b ->
  le_to_Z (zip_with byte_xor a b) = Z.lxor (le_to_Z a) (le_to_Z b).
Proof.
  revert b. induction a as [|x a IH]; intros [|y b] Hl; try done. simpl.
  injection Hl as Hl. rewrite IH, byte_to_Z_xor, mul256_lxor by done.
  pose proof (byte_to_Z_range x) as Hx. pose proof (byte_to_Z_range y) as Hy.
  rewrite !byte_add_lxor by done.
  rewrite <- mul256_lxor, byte_add_lxor, mul256_lxor by (by apply (lxor_range 8)).
  rewrite !Z.lxor_assoc. f_equal. rewrite <- !Z.lxor_assoc. f_equal.
  apply Z.lxor_comm.
Qed.

Lemma reverse_zip_with {A B C} (f : A -> B -> C) a b :
  length a = length b ->
  reverse (zip_with f a b) = zip_with f (reverse a) (reverse b).
Proof.
  revert b. induction a as [|x a IH]; intros [|y b] Hl; try done. simpl.
  injection Hl as Hl. rewrite !reverse_cons, IH by done.
  rewrite zip_with_app; [done | by rewrite !length_reverse].
Qed.

Lemma be_to_Z_xor a b :
  length a = length b ->
  be_to_Z (zip_with byte_xor a b) = Z.lxor (be_to_Z a) (be_to_Z b).
Proof.
  intros Hl. unfold be_to_Z. rewrite reverse_zip_with by done.
  apply le_to_Z_xor. by rewrite !length_reverse.
Qed.

(** ** Filters *)

Lemma filter_all {A} (P : A -> Prop) `{!forall x, Decision (P x)} (l : list A) :
  (forall x, x ∈ l -> P x) -> filter P l = l.
Proof.
  induction l as [|x l IH]; intros Hp; [done|].
  rewrite filter_cons_True by (apply Hp; left). f_equal. apply IH. intros y Hy. apply Hp. by right.
Qed.

Lemma filter_ext_in {A} (P Q : A -> Prop) `{!forall x, Decision (P x)} `{!forall x, Decision (Q x)} (l : list A) :
  (forall x, x ∈ l -> P x <-> Q x) -> filter P l = filter Q l.
Proof.
  induction l as [|x l IH]; intros Heq; [done|]. rewrite !filter_cons.
  rewrite IH by (intros y Hy; apply Heq; by right). pose proof (Heq x ltac:(left)).
  repeat case_decide; tauto.
Qed.

Lemma filter_none {A} (P : A -> Prop) `{!forall x, Decision (P x)} (l : list A) :
  (forall x, x ∈ l -> ~ P x) -> filter P l = [].
Proof.
  induction l as [|x l IH]; intros Hp; [done|].
  rewrite filter_cons_False by (apply Hp; left). apply IH. intros y Hy. apply Hp. by right.
Qed.

(** ** The largest element *)

(** [max_by_key]: the last of the largest. *)
Fixpoint max_by_key {A} (f : A -> Z) (l : list A) : option A :=
  match l with
  | [] => None
  | x :: l =>
      match max_by_key f l with
      | None => Some x
      | Some y => if f x <=? f y then Some y else Some x
      end
  end.

Lemma max_by_key_spec {A} (f : A -> Z) l :
  match max_by_key f l with
  | None => l = []
  | Some x => x ∈ l /\ forall y, y ∈ l -> f y <= f x
  end.
Proof.
  induction l as [|x l IH]; [done|]. cbn [max_by_key]. destruct (max_by_key f l) as [y|].
  - destruct IH as [Hy Hmax]. destruct (Z.leb_spec (f x) (f y)) as [Hle|Hlt].
    + split; [by right|]. intros z [->|Hz]%elem_of_cons; auto.
    + split; [by left|]. intros z [->|Hz]%elem_of_cons; [done|]. specialize (Hmax z Hz). lia.
  - subst. split; [by left|]. intros z ->%list_elem_of_singleton. done.
Qed.

(** ** Sorting *)

(** [sort_by] on a key: the sort is stable. *)
Fixpoint insert_by {A} (f : A -> Z) (x : A) (l : list A) : list A :=
  match l with
  | [] => [x]
  | y :: t => if f x <=? f y then x :: l else y :: insert_by f x t
  end.

Definition sort_by {A} (f : A -> Z) (l : list A) : list A := foldr (insert_by f) [] l.

(** [Vec::dedup]: consecutive repetitions are removed. *)
Fixpoint dedup (l : list Z) : list Z :=
  match l with
  | x :: (y :: _) as t => if x =? y then dedup t else x :: dedup t
  | _ => l
  end.

Section Sort.
Context {A : Type} (f : A -> Z).
#[local] Abbreviation sorted := (StronglySorted (fun x y => f x <= f y)).

Lemma insert_by_perm x l : insert_by f x l ≡ₚ x :: l.
Proof.
  induction l as [|y l IH]; simpl; [done|]. case_match; [done|]. rewrite IH. constructor.
Qed.

Lemma sort_by_perm l : sort_by f l ≡ₚ l.
Proof. induction l as [|x l IH]; simpl; [done|]. by rewrite insert_by_perm, IH. Qed.

Lemma insert_by_sorted x l : sorted l -> sorted (insert_by f x l).
Proof.
  induction 1 as [|y l Hs IH Hy]; simpl; [repeat constructor|].
  destruct (Z.leb_spec (f x) (f y)).
  - constructor; [by constructor|]. constructor; [done|].
    eapply Forall_impl; [exact Hy|]. simpl. lia.
  - constructor; [done|]. rewrite insert_by_perm. constructor; [lia | done].
Qed.

Lemma sort_by_sorted l : sorted (sort_by f l).
Proof. induction l as [|x l IH]; simpl; [constructor | by apply insert_by_sorted]. Qed.

(** Elements with the same key keep their order. *)
Lemma sort_by_stable k l :
  List.filter (fun x => f x =? k) (sort_by f l) = List.filter (fun x => f x =? k) l.
Proof.
  assert (Hi : forall x l, List.filter (fun y => f y =? k) (insert_by f x l)
                         = List.filter (fun y => f y =? k) (x :: l)).
  { intros x. clear l. induction l as [|y l IH]; [done|]. simpl in *.
    destruct (Z.leb_spec (f x) (f y)); [done|]. simpl. rewrite IH.
    destruct (Z.eqb_spec (f x) k), (Z.eqb_spec (f y) k); done || lia. }
  induction l as [|x l IH]; [done|]. change (sort_by f (x :: l)) with (insert_by f x (sort_by f l)).
  rewrite Hi. simpl. by rewrite IH.
Qed.

Lemma sorted_app_le l1 l2 x y : sorted (l1 ++ l2) -> x ∈ l1 -> y ∈ l2 -> f x <= f y.
Proof.
  induction l1 as [|z l1 IH]; simpl; intros Hs Hx Hy; [by apply elem_of_nil in Hx|].
  apply StronglySorted_inv in Hs as [Hs Hz]. apply elem_of_cons in Hx as [->|Hx]; [|by apply IH].
  rewrite Forall_forall in Hz. apply Hz, elem_of_app. by right.
Qed.

Lemma sorted_prefix l1 l2 : sorted (l1 ++ l2) -> sorted l1.
Proof.
  induction l1 as [|z l1 IH]; simpl; intros Hs; [constructor|].
  apply StronglySorted_inv in Hs as [Hs Hz]. constructor; [by apply IH|].
  by apply Forall_app in Hz as [? _].
Qed.

Lemma sorted_filter (P : A -> Prop) `{!forall x, Decision (P x)} l : sorted l -> sorted (filter P l).
Proof.
  induction 1 as [|y l Hs IH Hy]; [constructor|]. rewrite filter_cons. case_decide; [|done].
  constructor; [done|]. rewrite Forall_forall in *. intros z [_ Hz]%list_elem_of_filter. auto.
Qed.
End Sort.

Lemma dedup_elem l x : x ∈ dedup l <-> x ∈ l.
Proof.
  induction l as [|y l IH]; [done|]. destruct l as [|z l]; [done|].
  change (dedup (y :: z :: l)) with (if y =? z then dedup (z :: l) else y :: dedup (z :: l)).
  destruct (Z.eqb_spec y z) as [->|]; rewrite ?elem_of_cons, IH, ?elem_of_cons; tauto.
Qed.

(** Sorting and then removing repetitions yields the set of the elements in order. *)
Lemma dedup_sorted l :
  StronglySorted Z.le l -> StronglySorted Z.lt (dedup l).
Proof.
  induction 1 as [|y l Hs IH Hy]; [constructor|]. destruct l as [|z l]; [repeat constructor|].
  change (dedup (y :: z :: l)) with (if y =? z then dedup (z :: l) else y :: dedup (z :: l)).
  destruct (Z.eqb_spec y z) as [->|Hne]; [done|]. constructor; [done|].
  apply Forall_forall. intros w [->|Hw]%dedup_elem%elem_of_cons.
  - apply Forall_cons in Hy as [? _]. lia.
  - apply Forall_cons in Hy as [? _]. apply StronglySorted_inv in Hs as [_ Hz].
    rewrite Forall_forall in Hz. specialize (Hz w Hw). lia.
Qed.
