(* ===== verification/Distance.v ===== *)
(** * The key space: distances, the xor metric and random node ids.

    Models [ethportal-api/src/types/distance.rs], [types/node_id.rs] and the
    generator of [utils/bytes.rs].  A [U256] is an integer of [0, 2^256); a
    [[u8; 32]] is a list of 32 bytes.  The random number generator is a
    parameter: its raw output and its ranged output. *)

From S2P Require Import Prelude.

(** ** Definitions *)

(** A point of the key space. *)
Definition is_b32 (l : bytes) : Prop := length l = 32%nat.

(** [Distance::MAX] and [Distance::ZERO]. *)
Definition Distance_MAX : Z := U256_MOD - 1.
Definition Distance_ZERO : Z := 0.

(** [U256::leading_zeros]. *)
Definition leading_zeros (z : Z) : Z :=
  if z =? 0 then 256 else 255 - Z.log2 z.

Definition log2 (self : Z) : option Z :=
  if self =? 0 then None else Some (256 - leading_zeros self).

Definition big_endian (self : Z) : bytes := Z_to_be 32 self.

(** [XorMetric::distance]: the loop over the 32 indices. *)
Definition distance (x y : bytes) : Z :=
  be_to_Z (map (fun i => byte_xor (x !!! i) (y !!! i)) (seq 0 32)).

(** The two uses of the thread's random generator: [fill_bytes] on a slice of
    the given length, and [gen_range] over a half-open interval. *)
Record Rng := {
  fill_bytes : nat -> bytes;
  gen_range : Z -> Z -> Z
}.

(** What the generator documents: it fills the slice, and stays in range. *)
Record RngOk (rng : Rng) : Prop := {
  fill_length : forall n, length (fill_bytes rng n) = n;
  gen_bounds : forall lo hi, lo < hi -> lo <= gen_range rng lo hi < hi
}.

Definition random_32byte_array (rng : Rng) (leading_bit_zeros : Z) : bytes :=
  let first_zero_bytes := Z.to_nat (leading_bit_zeros / 8) in
  let first_nonzero_byte_leading_zeros := leading_bit_zeros mod 8 in
  let arr := replicate first_zero_bytes x00 ++ fill_bytes rng (32 - first_zero_bytes) in
  if (first_zero_bytes =? 32)%nat then arr
  else
    let b :=
      if first_nonzero_byte_leading_zeros =? 0 then gen_range rng 128 256
      else
        (* [128_f32 * 0.5_f32.powi(k)] is exact for [k] in 1..=7 *)
        let min_nonzero_byte_value := Z.shiftr 128 first_nonzero_byte_leading_zeros in
        gen_range rng min_nonzero_byte_value (Z.min 255 (min_nonzero_byte_value * 2)) in
    <[first_zero_bytes := byte_of_Z b]> arr.

Definition generate_random_node_id (rng : Rng) (target_bucket_idx : Z)
    (local_node_id : bytes) : bytes :=
  let distance_leading_zeroes := 255 - target_bucket_idx in
  let random_distance := random_32byte_array rng distance_leading_zeroes in
  let raw_node_id := distance local_node_id random_distance in
  big_endian raw_node_id.

(** ** Lemmas *)

Lemma distance_zip x y :
  is_b32 x -> is_b32 y ->
  map (fun i => byte_xor (x !!! i) (y !!! i)) (seq 0 32) = zip_with byte_xor x y.
Proof.
  intros Hx Hy. apply list_eq. intros i. rewrite lookup_zip_with.
  change (map ?f ?l) with (f <$> l). rewrite list_lookup_fmap.
  destruct (decide (i < 32)%nat) as [Hi|Hi].
  - rewrite lookup_seq_lt by done. simpl.
    destruct (lookup_lt_is_Some_2 x i) as [a Ha]; [unfold is_b32 in *; lia|].
    destruct (lookup_lt_is_Some_2 y i) as [b Hb]; [unfold is_b32 in *; lia|].
    by rewrite (list_lookup_total_correct _ _ _ Ha), (list_lookup_total_correct _ _ _ Hb), Ha, Hb.
  - rewrite lookup_seq_ge by lia.
    rewrite (lookup_ge_None_2 x) by (unfold is_b32 in *; lia). done.
Qed.

Lemma distance_lxor x y :
  is_b32 x -> is_b32 y -> distance x y = Z.lxor (be_to_Z x) (be_to_Z y).
Proof.
  intros Hx Hy. unfold distance. rewrite distance_zip by done.
  apply be_to_Z_xor. unfold is_b32 in *. congruence.
Qed.

Lemma be_to_Z_u256 x : is_b32 x -> is_u256 (be_to_Z x).
Proof.
  intros Hx. pose proof (be_to_Z_range x) as H. rewrite Hx in H. exact H.
Qed.

Lemma distance_u256 x y : is_b32 x -> is_b32 y -> is_u256 (distance x y).
Proof.
  intros Hx Hy. rewrite distance_lxor by done.
  apply (lxor_range 256); [lia | by apply be_to_Z_u256..].
Qed.

Lemma big_endian_b32 d : is_b32 (big_endian d).
Proof. apply length_Z_to_be. Qed.

Lemma big_endian_to_Z d : is_u256 d -> be_to_Z (big_endian d) = d.
Proof. apply (be_to_Z_to_be 32). Qed.

Lemma distance_sym x y : is_b32 x -> is_b32 y -> distance x y = distance y x.
Proof. intros Hx Hy. rewrite !distance_lxor by done. apply Z.lxor_comm. Qed.

Lemma distance_zero_iff x y :
  is_b32 x -> is_b32 y -> distance x y = 0 <-> x = y.
Proof.
  intros Hx Hy. rewrite distance_lxor, Z.lxor_eq_0_iff by done. split.
  - apply be_to_Z_inj. unfold is_b32 in *. congruence.
  - congruence.
Qed.

Lemma lor_lxor_land a b : Z.lor a b = Z.lxor a b + Z.land a b.
Proof.
  rewrite Z.add_nocarry_lxor.
  - apply Z.bits_inj'. intros i _. rewrite Z.lor_spec, !Z.lxor_spec, Z.land_spec.
    by destruct (Z.testbit a i), (Z.testbit b i).
  - apply Z.bits_inj'. intros i _. rewrite Z.land_spec, Z.lxor_spec, Z.land_spec, Z.bits_0.
    by destruct (Z.testbit a i), (Z.testbit b i).
Qed.

Lemma lxor_add_le a b : 0 <= a -> 0 <= b -> Z.lxor a b <= a + b.
Proof.
  intros Ha Hb. pose proof (Z.add_lor_land a b). pose proof (lor_lxor_land a b).
  assert (0 <= Z.land a b) by (apply Z.land_nonneg; lia). lia.
Qed.

Lemma log2_Some d k :
  is_u256 d -> log2 d = Some k -> 1 <= k <= 256 /\ 2 ^ (k - 1) <= d < 2 ^ k.
Proof.
  unfold is_u256, log2, leading_zeros. intros Hd H.
  destruct (d =? 0) eqn:E; [done|]. b2p. injection H as <-.
  assert (Hp : 0 < d) by lia.
  pose proof (Z.log2_spec d Hp) as Hl.
  pose proof (Z.log2_nonneg d).
  assert (Z.log2 d < 256) by (apply Z.log2_lt_pow2; [lia | apply Hd]).
  split; [lia|].
  replace (256 - (255 - Z.log2 d) - 1) with (Z.log2 d) by lia.
  by replace (256 - (255 - Z.log2 d)) with (Z.succ (Z.log2 d)) by lia.
Qed.

Lemma log2_unique_Some d k :
  0 <= k -> 2 ^ k <= d < 2 ^ (k + 1) -> log2 d = Some (k + 1).
Proof.
  intros Hk Hd. unfold log2, leading_zeros.
  assert (Hp : 0 < d) by (pose proof (Z.pow_pos_nonneg 2 k); lia).
  destruct (d =? 0) eqn:E; b2p; [lia|].
  rewrite (Z.log2_unique d k) by lia. f_equal. lia.
Qed.

Lemma le_to_Z_zeros n : le_to_Z (replicate n x00) = 0.
Proof. induction n as [|n IH]; simpl; [done|]. by rewrite IH. Qed.

Lemma be_to_Z_zeros_cons n b t :
  be_to_Z (replicate n x00 ++ b :: t)
  = byte_to_Z b * 256 ^ Z.of_nat (length t) + be_to_Z t.
Proof.
  unfold be_to_Z. rewrite reverse_app, reverse_cons, reverse_replicate.
  rewrite !le_to_Z_app, le_to_Z_zeros, length_reverse. simpl. lia.
Qed.

(** A byte in [2^j, 2^(j+1)) after [n] zero bytes fixes the bit length. *)
Lemma leading_byte_log2 n b t j :
  0 <= j -> 2 ^ j <= byte_to_Z b < 2 ^ (j + 1) ->
  log2 (be_to_Z (replicate n x00 ++ b :: t))
  = Some (8 * Z.of_nat (length t) + j + 1).
Proof.
  intros Hj Hb. rewrite be_to_Z_zeros_cons. apply log2_unique_Some; [lia|].
  pose proof (be_to_Z_range t) as Ht.
  change 256 with (2 ^ 8) in Ht |- *. rewrite <- Z.pow_mul_r in Ht |- * by lia.
  set (m := 8 * Z.of_nat (length t)) in *.
  replace (m + j + 1) with ((j + 1) + m) by lia. replace (m + j) with (j + m) by lia.
  rewrite !(Z.pow_add_r 2 _ m) by lia. nia.
Qed.

Lemma insert_after_zeros (n : nat) (b : byte) (l : bytes) :
  (0 < length l)%nat ->
  <[n := b]> (replicate n x00 ++ l) = replicate n x00 ++ b :: tail l.
Proof.
  intros Hl. destruct l as [|c l]; [simpl in Hl; lia|].
  rewrite insert_app_r_alt by (rewrite length_replicate; lia).
  by rewrite length_replicate, Nat.sub_diag.
Qed.

Section RandomNodeId.
Context (rng : Rng) (Hrng : RngOk rng).

(** The generator's byte after the zero bytes has exactly the wanted number of
    leading zero bits. *)
Lemma random_32byte_array_log2 z :
  0 <= z <= 255 ->
  is_b32 (random_32byte_array rng z)
  /\ log2 (be_to_Z (random_32byte_array rng z)) = Some (256 - z).
Proof.
  intros Hz. unfold random_32byte_array.
  assert (Hq : 0 <= z / 8 < 32) by (split; [apply Z.div_pos | apply Z.div_lt_upper_bound]; lia).
  set (n := Z.to_nat (z / 8)). assert (Hn : (n <= 31)%nat) by (unfold n; lia).
  destruct (n =? 32)%nat eqn:E; b2p; [lia|].
  pose proof (fill_length rng Hrng (32 - n)) as Hf.
  rewrite insert_after_zeros by lia.
  match goal with |- context [byte_of_Z ?v] => set (b := v) end.
  assert (Hb : 2 ^ (7 - z mod 8) <= b < 2 ^ (7 - z mod 8 + 1)).
  { pose proof (Z.mod_pos_bound z 8 eq_refl) as Hm. unfold b.
    destruct (z mod 8 =? 0) eqn:Ez; b2p.
    - rewrite Ez. apply (gen_bounds rng Hrng). lia.
    - assert (Hc : z mod 8 = 1 \/ z mod 8 = 2 \/ z mod 8 = 3 \/ z mod 8 = 4
        \/ z mod 8 = 5 \/ z mod 8 = 6 \/ z mod 8 = 7) by lia.
      destruct Hc as [H|[H|[H|[H|[H|[H|H]]]]]]; rewrite H;
        apply (gen_bounds rng Hrng); reflexivity. }
  assert (Hlt : length (tail (fill_bytes rng (32 - n))) = (31 - n)%nat).
  { destruct (fill_bytes rng (32 - n)); simpl in *; lia. }
  split.
  { unfold is_b32. rewrite length_app, length_replicate. simpl. lia. }
  pose proof (Z.mod_pos_bound z 8 eq_refl) as Hm.
  rewrite leading_byte_log2 with (j := 7 - z mod 8); [|lia|].
  - rewrite Hlt. f_equal. pose proof (Z.div_mod z 8). unfold n. lia.
  - rewrite byte_to_of_Z, (Z.mod_small b); [done|].
    assert (2 ^ (7 - z mod 8 + 1) <= 2 ^ 8) by (apply Z.pow_le_mono_r; lia).
    pose proof (Z.pow_pos_nonneg 2 (7 - z mod 8)). lia.
Qed.
End RandomNodeId.

(** ** Properties *)

(** [XorMetric::distance] is a metric on the key space, and distances never
    leave [U256]. *)
Theorem xor_metric_laws x y z :
  is_b32 x -> is_b32 y -> is_b32 z ->
  is_u256 (distance x y)
  /\ (distance x y = 0 <-> x = y)
  /\ distance x y = distance y x
  /\ distance x z <= distance x y + distance y z
  /\ (distance x y = distance x z -> y = z).
Proof.
  intros Hx Hy Hz. split_and!.
  - by apply distance_u256.
  - by apply distance_zero_iff.
  - by apply distance_sym.
  - assert (distance x z = Z.lxor (distance x y) (distance y z)) as ->.
    { rewrite !distance_lxor by done.
      by rewrite Z.lxor_assoc, <- (Z.lxor_assoc (be_to_Z y)), Z.lxor_nilpotent, Z.lxor_0_l. }
    apply lxor_add_le; by apply distance_u256.
  - rewrite !distance_lxor by done. intros H.
    apply be_to_Z_inj; [unfold is_b32 in *; congruence|].
    by rewrite <- (Z.lxor_0_l (be_to_Z y)), <- (Z.lxor_nilpotent (be_to_Z x)),
      Z.lxor_assoc, H, <- Z.lxor_assoc, Z.lxor_nilpotent, Z.lxor_0_l.
Qed.

(** [log2] is the bit length: [None] exactly on zero, otherwise [k] in
    [1, 256] with [2^(k-1) <= d < 2^k]; and [big_endian] is a right inverse of
    reading the distance back from its 32 bytes. *)
Theorem distance_log2_spec d :
  is_u256 d ->
  be_to_Z (big_endian d) = d /\
  match log2 d with
  | None => d = 0
  | Some k => 1 <= k <= 256 /\ 2 ^ (k - 1) <= d < 2 ^ k
  end.
Proof.
  intros Hd. split; [by apply big_endian_to_Z|].
  destruct (log2 d) as [k|] eqn:E.
  - by apply log2_Some.
  - unfold log2 in E. destruct (d =? 0) eqn:E0; b2p; [done | discriminate].
Qed.

(** whatever the random generator returns, [generate_random_node_id] yields a
    node id that falls in the requested bucket: its distance to the local node
    has bit length [target_bucket_idx + 1]. *)
Theorem random_node_id_in_bucket rng idx local_node_id :
  RngOk rng -> 0 <= idx <= 255 -> is_b32 local_node_id ->
  is_b32 (generate_random_node_id rng idx local_node_id) /\
  log2 (distance local_node_id (generate_random_node_id rng idx local_node_id))
  = Some (idx + 1).
Proof.
  intros Hrng Hidx Hl. unfold generate_random_node_id.
  destruct (random_32byte_array_log2 rng Hrng (255 - idx)) as [Hb Hlog]; [lia|].
  split; [apply big_endian_b32|].
  rewrite distance_lxor, big_endian_to_Z, distance_lxor
    by auto using big_endian_b32, distance_u256.
  rewrite <- Z.lxor_assoc, Z.lxor_nilpotent, Z.lxor_0_l, Hlog. f_equal. lia.
Qed.

(** ** Witnesses *)

Definition zero_rng : Rng := {|
  fill_bytes n := replicate n x00;
  gen_range lo hi := lo
|}.

Lemma zero_rng_ok : RngOk zero_rng.
Proof.
  constructor; simpl.
  - intros n. apply length_replicate.
  - intros lo hi H. lia.
Qed.

Lemma xor_metric_laws_witness :
  distance (replicate 32 x0f) (replicate 32 x35)
  <= distance (replicate 32 x0f) (replicate 32 xa0)
     + distance (replicate 32 xa0) (replicate 32 x35).
Proof.
  apply (xor_metric_laws (replicate 32 x0f) (replicate 32 xa0) (replicate 32 x35));
    reflexivity.
Defined.

Lemma distance_log2_spec_witness : log2 256 = Some 9 /\ 2 ^ 8 <= 256 < 2 ^ 9.
Proof.
  split; [reflexivity|].
  apply (distance_log2_spec 256). split; [discriminate | reflexivity].
Defined.

Lemma random_node_id_in_bucket_witness :
  log2 (distance (replicate 32 x7e)
          (generate_random_node_id zero_rng 250 (replicate 32 x7e))) = Some 251.
Proof.
  apply (random_node_id_in_bucket zero_rng 250 (replicate 32 x7e) zero_rng_ok);
    [lia | reflexivity].
Defined.
