(* ===== verification/StateDistance.v ===== *)
(** * Distances of the state network.

    [trin-state/src/utils.rs]: the distance between a node and a content item is the way
    around the ring of 256-bit integers.  The arithmetic saturates at the ends of the
    range, which no intermediate value reaches. *)

From S2P Require Import Prelude.
From S2P Require Import Distance.

Module StateUtils.

Definition saturating_sub (a b : Z) : Z := Z.max 0 (a - b).
Definition saturating_add (a b : Z) : Z := Z.min (U256_MOD - 1) (a + b).

Definition distance (node_id content_id : Z) : Z :=
  let diff :=
    if node_id >? content_id then saturating_sub node_id content_id else saturating_sub content_id node_id in
  let mid := 2 ^ 255 in
  if diff >? mid then saturating_add (saturating_sub (U256_MOD - 1) diff) 1 else diff.

(** The shorter way around. *)
Definition arc (a b : Z) : Z := Z.min (Z.abs (a - b)) (U256_MOD - Z.abs (a - b)).

Lemma mid_pos : 0 < 2 ^ 255. Proof. done. Qed.
Lemma two_mids : U256_MOD = 2 * 2 ^ 255. Proof. done. Qed.

Lemma distance_arc a b : is_u256 a -> is_u256 b -> distance a b = arc a b.
Proof.
  unfold is_u256, distance, arc, saturating_add, saturating_sub. rewrite two_mids. generalize mid_pos, (2 ^ 255).
  intros _ m Ha Hb. destruct (Z.gtb_spec a b); case (Z.gtb_spec (Z.max 0 _) m); lia.
Qed.

(** The distance of the state network is a metric on the ring of 256-bit integers: the
    length of the shorter way around, at most half of it, zero only between equal values,
    the same in both directions, and a detour is never shorter. *)
Theorem ring_metric a b c : is_u256 a -> is_u256 b -> is_u256 c ->
  distance a b = arc a b
  /\ 0 <= distance a b <= 2 ^ 255
  /\ (distance a b = 0 <-> a = b)
  /\ distance a b = distance b a
  /\ distance a c <= distance a b + distance b c.
Proof.
  intros Ha Hb Hc. rewrite !distance_arc by done. unfold is_u256, arc in *. rewrite two_mids in *.
  revert Ha Hb Hc. generalize (2 ^ 255). intros m Ha Hb Hc. repeat split; lia.
Qed.

(** The distances that the specification of the network gives as examples. *)
Example distance_examples :
  distance 10 10 = 0 /\ distance 5 (U256_MOD - 1) = 6 /\ distance (U256_MOD - 1) 6 = 7 /\ distance 5 1 = 4
  /\ distance 1 5 = 4 /\ distance 0 (2 ^ 255) = 2 ^ 255 /\ distance 0 (2 ^ 255 + 1) = 2 ^ 255 - 1.
Proof. repeat split; reflexivity. Qed.
End StateUtils.
