(* ===== verification/Merkle.v ===== *)
(** * Right-sparse Merkle trees.

    Models [trin-validation/src/merkle/proof.rs].  The hash functions and the
    table of zero hashes belong to the [eth2_hashing] crate: they are the class
    [Eth2Hashing], with what the crate documents in [Eth2HashingOk].  An [H256]
    is a list of 32 bytes; [from_slice] panics on any other length.  A method
    taking [&mut self] returns the new value of [self] beside its result, so
    what an error leaves behind is visible. *)

From S2P Require Import Prelude.
From S2P Require Import Distance.

(** ** The hashing crate *)

Class Eth2Hashing := {
  eth2_hash : bytes -> bytes;
  eth2_hash32_concat : bytes -> bytes -> bytes;
  ZERO_HASHES : list bytes
}.

(** Roots of the trees of [2^n] zero leaves. *)
Fixpoint zero_root `{Eth2Hashing} (n : nat) : bytes :=
  match n with
  | O => replicate 32 x00
  | S m => let z := zero_root m in eth2_hash32_concat z z
  end.

(** The digest has 32 bytes; hashing two slices is hashing their concatenation;
    the table caches the zero roots of the 49 first layers. *)
Class Eth2HashingOk (H : Eth2Hashing) : Prop := {
  eth2_hash_length : forall x, length (eth2_hash x) = 32%nat;
  eth2_concat : forall a b, eth2_hash32_concat a b = eth2_hash (a ++ b);
  eth2_zeros : ZERO_HASHES = zero_root <$> seq 0 49
}.

Abbreviation H256 := bytes (only parsing).

(** [H256::from_slice]. *)
Definition from_slice {E} (l : bytes) : res E H256 :=
  if (length l =? 32)%nat then Ok l else Panic.

Definition MAX_TREE_DEPTH : nat := 32.

Module MerkleTree.

Inductive InvalidSnapshot :=
| EmptyBranchWithNonZeroDeposits (n : Z)
| EndOfTree.

Inductive MerkleTreeError :=
| LeafReached
| MerkleTreeFull
| Invalid
| DepthTooSmall
| ArithError
| ZeroNodeFinalized
| FinalizedNodePushed
| InvalidSnapshotErr (e : InvalidSnapshot)
| ProofEncounteredFinalizedNode
| PleaseNotifyTheDevs.

Inductive t :=
| Finalized (h : H256)
| Leaf (h : H256)
| Node (h : H256) (left right : t)
| Zero (depth : nat).

(** The static [ZERO_NODES]. *)
Definition ZERO_NODES : list t := Zero <$> seq 0 (S MAX_TREE_DEPTH).

Section Operations.
Context `{Eth2Hashing}.

Definition hash {E} (self : t) : res E H256 :=
  match self with
  | Finalized h => Ok h
  | Leaf h => Ok h
  | Node h _ _ => Ok h
  | Zero depth =>
      let? z := index ZERO_HASHES (Z.of_nat depth) in
      from_slice z
  end.

(** The hash of a node from its two subtrees. *)
Definition hash_children {E} (lhs rhs : t) : res E H256 :=
  let? l := hash lhs in
  let? r := hash rhs in
  from_slice (eth2_hash32_concat l r).

Fixpoint create {E} (leaves : list H256) (depth : nat) : res E t :=
  match leaves with
  | [] => Ok (Zero depth)
  | leaf :: _ =>
      match depth with
      | O => Ok (Leaf leaf)
      | S d =>
          let subtree_capacity := wrap64 (2 ^ Z.of_nat d) in
          let '(left_leaves, right_leaves) :=
            if Z.of_nat (length leaves) <=? subtree_capacity then (leaves, [])
            else (take (Z.to_nat subtree_capacity) leaves,
                  drop (Z.to_nat subtree_capacity) leaves) in
          let? left_subtree := create left_leaves d in
          let? right_subtree := create right_leaves d in
          let? h := hash_children left_subtree right_subtree in
          Ok (Node h left_subtree right_subtree)
      end
  end.

(** [*place = MerkleTree::create(&[elem], depth)]. *)
Definition assign_new (place : t) (elem : H256) (depth : nat)
    : t * res MerkleTreeError unit :=
  match create [elem] depth with
  | Ok tr => (tr, Ok tt)
  | Err e => (place, Err e)
  | Panic => (place, Panic)
  end.

Fixpoint push_leaf (self : t) (elem : H256) (depth : nat) {struct depth}
    : t * res MerkleTreeError unit :=
  match depth with
  | O => (self, Err DepthTooSmall)
  | S d =>
      match self with
      | Leaf _ => (self, Err LeafReached)
      | Zero _ => assign_new self elem depth
      | Node h lhs rhs =>
          let '(lhs2, rhs2, r) :=
            match lhs, rhs with
            | Leaf _, Leaf _ | Finalized _, Leaf _ => (lhs, rhs, Err MerkleTreeFull)
            | Node _ _ _, Node _ _ _ | Finalized _, Node _ _ _ =>
                let '(rhs', r) := push_leaf rhs elem d in (lhs, rhs', r)
            | Zero _, Zero _ =>
                let '(lhs', r) := assign_new lhs elem d in (lhs', rhs, r)
            | Leaf _, Zero _ | Finalized _, Zero _ =>
                let '(rhs', r) := assign_new rhs elem d in (lhs, rhs', r)
            | Node _ _ _, Zero _ =>
                let '(lhs', r) := push_leaf lhs elem d in
                match r with
                | Err MerkleTreeFull =>
                    let '(rhs', r') := assign_new rhs elem d in (lhs', rhs', r')
                | _ => (lhs', rhs, r)
                end
            | _, _ => (lhs, rhs, Err Invalid)
            end in
          match r with
          | Ok _ =>
              match hash_children lhs2 rhs2 with
              | Ok h' => (Node h' lhs2 rhs2, Ok tt)
              | Err e => (Node h lhs2 rhs2, Err e)
              | Panic => (Node h lhs2 rhs2, Panic)
              end
          | Err e => (Node h lhs2 rhs2, Err e)
          | Panic => (Node h lhs2 rhs2, Panic)
          end
      | Finalized _ => (self, Err FinalizedNodePushed)
      end
  end.

Definition left_and_right_branches {E} (self : t) : res E (option (t * t)) :=
  match self with
  | Finalized _ | Leaf _ | Zero O => Ok None
  | Node _ l r => Ok (Some (l, r))
  | Zero (S d) =>
      let? z := index ZERO_NODES (Z.of_nat d) in
      Ok (Some (z, z))
  end.

Definition is_leaf (self : t) : bool :=
  match self with Leaf _ => true | _ => false end.

(** [0x1 << level] on a [usize]: the shift amount is taken modulo 64. *)
Definition one_shl (level : nat) : Z := 2 ^ (Z.of_nat level mod 64).

Fixpoint finalize_deposits (self : t) (deposits_to_finalize : Z) (level : nat)
    : t * res MerkleTreeError unit :=
  match self with
  | Finalized _ => (self, Ok tt)
  | Zero _ => (self, Err ZeroNodeFinalized)
  | Leaf h =>
      match level with
      | S _ => (self, Err PleaseNotifyTheDevs)
      | O => (Finalized h, Ok tt)
      end
  | Node h lhs rhs =>
      match level with
      | O => (self, Err PleaseNotifyTheDevs)
      | S l =>
          let deposits := one_shl level in
          if deposits <=? deposits_to_finalize then (Finalized h, Ok tt)
          else
            let '(lhs2, r) := finalize_deposits lhs deposits_to_finalize l in
            match r with
            | Ok _ =>
                if deposits / 2 <? deposits_to_finalize then
                  let remaining := deposits_to_finalize - deposits / 2 in
                  let '(rhs2, r') := finalize_deposits rhs remaining l in
                  (Node h lhs2 rhs2, r')
                else (Node h lhs2 rhs, Ok tt)
            | _ => (Node h lhs2 rhs, r)
            end
      end
  end.

Fixpoint append_finalized_hashes (self : t) (result : list H256) : list H256 :=
  match self with
  | Zero _ | Leaf _ => result
  | Finalized h => result ++ [h]
  | Node _ lhs rhs =>
      append_finalized_hashes rhs (append_finalized_hashes lhs result)
  end.

Definition get_finalized_hashes (self : t) : list H256 :=
  append_finalized_hashes self [].

Fixpoint from_finalized_snapshot (finalized_branch : list H256)
    (deposit_count : Z) (level : nat) {struct level} : res MerkleTreeError t :=
  match finalized_branch with
  | [] =>
      if deposit_count =? 0 then Ok (Zero level)
      else Err (InvalidSnapshotErr (EmptyBranchWithNonZeroDeposits deposit_count))
  | first :: rest =>
      if deposit_count =? one_shl level then Ok (Finalized first)
      else
        match level with
        | O => Err (InvalidSnapshotErr EndOfTree)
        | S l =>
            let? (lhs2, rhs2) :=
              (if one_shl l <=? deposit_count then
                 let? r := from_finalized_snapshot rest (deposit_count - one_shl l) l in
                 Ok (Finalized first, r)
               else
                 let? l' := from_finalized_snapshot finalized_branch deposit_count l in
                 Ok (l', Zero l)) in
            let? h := hash_children lhs2 rhs2 in
            Ok (Node h lhs2 rhs2)
        end
  end.

(** The [while current_depth > 0] loop of [generate_proof]. *)
Fixpoint proof_loop (current_node : t) (idx : Z) (current_depth : nat)
    (proof : list H256) : res MerkleTreeError (t * list H256) :=
  match current_depth with
  | O => Ok (current_node, proof)
  | S d =>
      let ith_bit := Z.land (Z.shiftr idx (Z.of_nat d)) 1 in
      match current_node with
      | Finalized _ => Err ProofEncounteredFinalizedNode
      | _ =>
          let? branches := left_and_right_branches current_node in
          match branches with
          | None => Panic
          | Some (lhs, rhs) =>
              if ith_bit =? 1 then
                let? h := hash lhs in
                proof_loop rhs idx d (proof ++ [h])
              else
                let? h := hash rhs in
                proof_loop lhs idx d (proof ++ [h])
          end
      end
  end.

Definition generate_proof (self : t) (idx : Z) (depth : nat)
    : res MerkleTreeError (H256 * list H256) :=
  let? (current_node, proof) := proof_loop self idx depth [] in
  let? leaf := hash current_node in
  Ok (leaf, reverse proof).

(** The loop of [merkle_root_from_branch], from position [i] on. *)
Fixpoint branch_loop (merkle_root : bytes) (branch : list H256) (i : nat) (idx : Z)
    : bytes :=
  match branch with
  | [] => merkle_root
  | leaf :: rest =>
      let ith_bit := Z.land (Z.shiftr idx (Z.of_nat i)) 1 in
      let merkle_root :=
        if ith_bit =? 1 then eth2_hash32_concat leaf merkle_root
        else eth2_hash (merkle_root ++ leaf) in
      branch_loop merkle_root rest (S i) idx
  end.

Definition merkle_root_from_branch {E} (leaf : H256) (branch : list H256)
    (depth : nat) (idx : Z) : res E H256 :=
  if negb (length branch =? depth)%nat then Panic
  else from_slice (branch_loop leaf (take depth branch) 0 idx).

Definition verify_merkle_proof {E} (leaf : H256) (branch : list H256)
    (depth : nat) (idx : Z) (root : H256) : res E bool :=
  if (length branch =? depth)%nat then
    let? r := merkle_root_from_branch leaf branch depth idx in
    Ok (bool_decide (r = root))
  else Ok false.

End Operations.

(** ** Reference definitions *)

(** The tree of depth [d] whose first leaves are [ls] and whose other leaves are
    zero, as plain recursion: its root, the leaf at an index, the siblings on
    the path to it (top down), and the sparse tree itself. *)
Section Reference.
Context `{Eth2Hashing}.

Fixpoint spec_root (d : nat) (ls : list H256) : H256 :=
  match d with
  | O => match ls with [] => zero_root 0 | x :: _ => x end
  | S d' =>
      eth2_hash32_concat (spec_root d' (take (2 ^ d') ls)) (spec_root d' (drop (2 ^ d') ls))
  end.

Fixpoint spec_leaf (d : nat) (ls : list H256) (i : Z) : H256 :=
  match d with
  | O => match ls with [] => zero_root 0 | x :: _ => x end
  | S d' =>
      if Z.testbit i (Z.of_nat d') then spec_leaf d' (drop (2 ^ d') ls) i
      else spec_leaf d' (take (2 ^ d') ls) i
  end.

Fixpoint spec_path (d : nat) (ls : list H256) (i : Z) : list H256 :=
  match d with
  | O => []
  | S d' =>
      if Z.testbit i (Z.of_nat d')
      then spec_root d' (take (2 ^ d') ls) :: spec_path d' (drop (2 ^ d') ls) i
      else spec_root d' (drop (2 ^ d') ls) :: spec_path d' (take (2 ^ d') ls) i
  end.

Fixpoint build (d : nat) (ls : list H256) : t :=
  match ls with
  | [] => Zero d
  | x :: _ =>
      match d with
      | O => Leaf x
      | S d' =>
          Node (spec_root d ls) (build d' (take (2 ^ d') ls)) (build d' (drop (2 ^ d') ls))
      end
  end.

(** What is hashed at each node on the path to the leaf (top down): its two children. *)
Fixpoint path_inputs (d : nat) (ls : list H256) (i : Z) : list bytes :=
  match d with
  | O => []
  | S d' =>
      (spec_root d' (take (2 ^ d') ls) ++ spec_root d' (drop (2 ^ d') ls))
      :: (if Z.testbit i (Z.of_nat d') then path_inputs d' (drop (2 ^ d') ls) i
          else path_inputs d' (take (2 ^ d') ls) i)
  end.

(** What the verifier hashes at each step of [branch_loop] (bottom up). *)
Fixpoint branch_inputs (merkle_root : bytes) (branch : list H256) (i : nat) (idx : Z) : list bytes :=
  match branch with
  | [] => []
  | leaf :: rest =>
      (if Z.testbit idx (Z.of_nat i) then leaf ++ merkle_root else merkle_root ++ leaf)
      :: branch_inputs (branch_loop merkle_root [leaf] i idx) rest (S i) idx
  end.

(** Level by level, the string the verifier hashes and the string hashed by the tree:
    the [d] pairs among which a forged proof is a collision. *)
Definition proof_pairs (d : nat) (ls : list H256) (leaf : H256) (branch : list H256) (i : Z)
    : list (bytes * bytes) :=
  zip (branch_inputs leaf branch 0 i) (reverse (path_inputs d ls i)).

End Reference.

(** ** Lemmas *)

Section Lemmas.
Context `{HOk : Eth2HashingOk}.
Implicit Types (ls : list H256) (d : nat).

Lemma concat_b32 a b : is_b32 (eth2_hash32_concat a b).
Proof. unfold is_b32. rewrite eth2_concat. apply eth2_hash_length. Qed.

Lemma from_slice_b32 {E} l : is_b32 l -> @from_slice E l = Ok l.
Proof. unfold from_slice, is_b32. by intros ->. Qed.

Lemma zero_root_b32 n : is_b32 (zero_root n).
Proof. destruct n; [done | apply concat_b32]. Qed.

Lemma spec_root_nil d : spec_root d [] = zero_root d.
Proof. induction d as [|d IH]; [done|]. simpl. rewrite take_nil, drop_nil. by rewrite IH. Qed.

Lemma spec_root_b32 d ls : Forall is_b32 ls -> is_b32 (spec_root d ls).
Proof.
  destruct d; [|intros _; apply concat_b32].
  intros Hl. destruct Hl; [apply (zero_root_b32 0) | done].
Qed.

Lemma spec_leaf_b32 d ls i : Forall is_b32 ls -> is_b32 (spec_leaf d ls i).
Proof.
  revert ls. induction d as [|d IH]; intros ls Hl; simpl.
  - destruct Hl; [apply (zero_root_b32 0) | done].
  - destruct (Z.testbit _ _); apply IH; [by apply Forall_drop | by apply Forall_take].
Qed.

Lemma hash_Zero {E} d : (d <= 48)%nat -> @hash _ E (Zero d) = Ok (zero_root d).
Proof.
  intros Hd. unfold hash, index. destruct (Z.ltb_spec (Z.of_nat d) 0); [lia|].
  rewrite Nat2Z.id, eth2_zeros, list_lookup_fmap, lookup_seq_lt by lia. simpl.
  apply from_slice_b32, zero_root_b32.
Qed.

Lemma hash_build {E} d ls :
  (d <= 48)%nat -> Forall is_b32 ls -> @hash _ E (build d ls) = Ok (spec_root d ls).
Proof.
  intros Hd Hl. destruct ls as [|x ls].
  - destruct d; simpl build; rewrite hash_Zero, spec_root_nil by done; done.
  - by destruct d.
Qed.

Lemma hash_children_build {E} d a b :
  (d <= 48)%nat -> Forall is_b32 a -> Forall is_b32 b ->
  @hash_children _ E (build d a) (build d b)
  = Ok (eth2_hash32_concat (spec_root d a) (spec_root d b)).
Proof.
  intros Hd Ha Hb. unfold hash_children.
  rewrite !hash_build by done. apply from_slice_b32, concat_b32.
Qed.

Lemma pow2_nat d : Z.of_nat (2 ^ d) = 2 ^ Z.of_nat d.
Proof. by rewrite Nat2Z.inj_pow. Qed.

Lemma capacity_nat d : (d < 64)%nat -> Z.to_nat (wrap64 (2 ^ Z.of_nat d)) = (2 ^ d)%nat.
Proof.
  intros Hd. rewrite wrap64_small; [rewrite <- pow2_nat; apply Nat2Z.id|].
  split; [lia|]. apply Z.pow_lt_mono_r; lia.
Qed.

(** [create] builds the reference tree: it never panics up to depth 48. *)
Lemma create_build {E} d ls :
  (d <= 48)%nat -> Forall is_b32 ls -> @create _ E ls d = Ok (build d ls).
Proof.
  revert ls. induction d as [|d IH]; intros ls Hd Hl; [by destruct Hl|].
  destruct ls as [|x ls]; [done|]. cbn [create build].
  assert (Hsplit : forall c : bool, c = (Z.of_nat (length (x :: ls)) <=? wrap64 (2 ^ Z.of_nat d)) ->
    (if c then (x :: ls, [])
     else (take (Z.to_nat (wrap64 (2 ^ Z.of_nat d))) (x :: ls),
           drop (Z.to_nat (wrap64 (2 ^ Z.of_nat d))) (x :: ls)))
    = (take (2 ^ d) (x :: ls), drop (2 ^ d) (x :: ls))).
  { intros c Hc. rewrite capacity_nat by lia. destruct c; [|done].
    symmetry in Hc. b2p. rewrite <- (Z2Nat.id (wrap64 _)), capacity_nat in Hc
      by (try apply wrap64_range; lia).
    rewrite take_ge, drop_ge by lia. done. }
  rewrite (Hsplit _ eq_refl). clear Hsplit.
  rewrite !IH by (auto using Forall_take, Forall_drop with lia).
  rewrite hash_children_build by (auto using Forall_take, Forall_drop with lia). done.
Qed.

Lemma land_1_testbit i n : 0 <= n -> (Z.land (Z.shiftr i n) 1 =? 1) = Z.testbit i n.
Proof.
  intros Hn. rewrite (Z.land_ones _ 1) by lia.
  rewrite <- (Z.add_0_l n) at 2. rewrite <- Z.shiftr_spec, Z.bit0_odd by lia.
  rewrite Zmod_odd. by destruct (Z.odd _).
Qed.

Lemma zero_nodes_lookup {E} d : (d <= 32)%nat -> @index E t ZERO_NODES (Z.of_nat d) = Ok (Zero d).
Proof.
  intros Hd. unfold index. destruct (Z.ltb_spec (Z.of_nat d) 0); [lia|].
  unfold ZERO_NODES. rewrite Nat2Z.id, list_lookup_fmap, lookup_seq_lt by (unfold MAX_TREE_DEPTH; lia).
  done.
Qed.

Lemma branches_build {E} d ls :
  (d <= 32)%nat ->
  @left_and_right_branches E (build (S d) ls)
  = Ok (Some (build d (take (2 ^ d) ls), build d (drop (2 ^ d) ls))).
Proof.
  intros Hd. destruct ls as [|x ls]; [|done].
  cbn [build left_and_right_branches]. rewrite zero_nodes_lookup by done.
  rewrite take_nil, drop_nil. by destruct d.
Qed.

Lemma build_not_finalized d ls h : build d ls <> Finalized h.
Proof. by destruct d, ls. Qed.

Lemma proof_loop_build d ls i acc :
  (d <= 33)%nat -> Forall is_b32 ls ->
  exists node, proof_loop (build d ls) i d acc = Ok (node, acc ++ spec_path d ls i)
    /\ hash node = (Ok (spec_leaf d ls i) : res MerkleTreeError _).
Proof.
  revert ls acc. induction d as [|d IH]; intros ls acc Hd Hl.
  - exists (build 0 ls). split; [cbn; by rewrite app_nil_r|].
    by rewrite hash_build by (done || lia).
  - cbn [proof_loop spec_path spec_leaf].
    pose proof (build_not_finalized (S d) ls) as Hnf.
    destruct (build (S d) ls) eqn:Eb; [by destruct (Hnf h)|..];
      (rewrite <- Eb, branches_build by lia; clear Eb Hnf;
       rewrite land_1_testbit by lia; destruct (Z.testbit i (Z.of_nat d));
       rewrite hash_build by (auto using Forall_take, Forall_drop with lia);
       (edestruct IH as (node & -> & ?);
        [lia | by auto using Forall_take, Forall_drop
        | exists node; by rewrite <- app_assoc])).
Qed.

Lemma length_spec_path d ls i : length (spec_path d ls i) = d.
Proof. revert ls. induction d; intros ls; simpl; [done|]. by case_goal; simpl; rewrite IHd. Qed.

Lemma spec_path_b32 d ls i : Forall is_b32 ls -> Forall is_b32 (spec_path d ls i).
Proof.
  revert ls. induction d as [|d IH]; intros ls Hl; simpl; [constructor|].
  case_goal; constructor; auto using spec_root_b32, Forall_take, Forall_drop.
Qed.

Lemma branch_loop_app r a x i k :
  branch_loop r (a ++ [x]) k i
  = (if Z.testbit i (Z.of_nat (k + length a))
     then eth2_hash32_concat x (branch_loop r a k i)
     else eth2_hash32_concat (branch_loop r a k i) x).
Proof.
  revert r k. induction a as [|y a IH]; intros r k; simpl.
  - rewrite land_1_testbit, Nat.add_0_r by lia. by rewrite !eth2_concat.
  - rewrite IH. by rewrite Nat.add_succ_r.
Qed.

Lemma branch_loop_path d ls i :
  branch_loop (spec_leaf d ls i) (reverse (spec_path d ls i)) 0 i = spec_root d ls.
Proof.
  revert ls. induction d as [|d IH]; intros ls; [done|].
  cbn [spec_leaf spec_path spec_root].
  destruct (Z.testbit i (Z.of_nat d)) eqn:E; rewrite reverse_cons, branch_loop_app,
    length_reverse, length_spec_path, Nat.add_0_l, E, IH; done.
Qed.

Lemma branch_loop_b32 leaf branch k i : is_b32 leaf -> is_b32 (branch_loop leaf branch k i).
Proof.
  revert leaf k. induction branch as [|x br IH]; intros leaf k Hl; simpl; [done|].
  apply IH. case_goal; [apply concat_b32|]. apply eth2_hash_length.
Qed.

Lemma verify_unfold {E} leaf branch d i root :
  is_b32 leaf ->
  @verify_merkle_proof _ E leaf branch d i root
  = Ok ((length branch =? d)%nat && bool_decide (branch_loop leaf branch 0 i = root)).
Proof.
  intros Hl. unfold verify_merkle_proof, merkle_root_from_branch.
  destruct (length branch =? d)%nat eqn:E'; [|done]. simpl. b2p. subst d.
  by rewrite firstn_all, from_slice_b32 by (by apply branch_loop_b32).
Qed.

(** The leaf at an in-range index is the list's element. *)
Lemma spec_leaf_lookup d ls i :
  0 <= i < 2 ^ Z.of_nat d ->
  spec_leaf d ls i = default (zero_root 0) (ls !! Z.to_nat i).
Proof.
  assert (Hgen : forall j, 0 <= j -> spec_leaf d ls j
    = default (zero_root 0) (ls !! Z.to_nat (j mod 2 ^ Z.of_nat d))).
  { revert ls. clear i. induction d as [|d IH]; intros ls j Hj.
    - simpl. rewrite Z.mod_1_r. by destruct ls.
    - cbn [spec_leaf].
      assert (Hm : j mod 2 ^ Z.of_nat (S d)
        = j mod 2 ^ Z.of_nat d + 2 ^ Z.of_nat d * Z.b2z (Z.testbit j (Z.of_nat d))).
      { rewrite Nat2Z.inj_succ, Z.pow_succ_r, Z.mul_comm, Z.rem_mul_r by lia.
        rewrite Z.testbit_spec' by lia. done. }
      pose proof (Z.mod_pos_bound j (2 ^ Z.of_nat d) ltac:(lia)) as Hb.
      rewrite Hm. rewrite <- pow2_nat in *. destruct (Z.testbit j (Z.of_nat d)); simpl Z.b2z.
      + rewrite IH, lookup_drop by done. do 2 f_equal. lia.
      + rewrite IH by done. rewrite lookup_take_lt by lia. do 2 f_equal. lia. }
  intros Hi. by rewrite Hgen, Z.mod_small by lia.
Qed.

(** The constructor of a reference tree tells its depth and its leaves. *)
Lemma build_shape d ls :
  match build d ls with
  | Finalized _ => False
  | Leaf h => d = O /\ exists tl, ls = h :: tl
  | Node _ _ _ => (0 < d)%nat /\ (0 < length ls)%nat
  | Zero k => k = d /\ ls = []
  end.
Proof. destruct d, ls; simpl; eauto with lia. Qed.

#[local] Ltac shape_contra Hs :=
  exfalso; first
    [ exact Hs
    | destruct Hs as [? Hs]; try apply length_zero_iff_nil in Hs; lia ].

Lemma assign_new_build place x d :
  (d <= 48)%nat -> is_b32 x -> assign_new place x d = (build d [x], Ok tt).
Proof. intros Hd Hx. unfold assign_new. by rewrite create_build by auto. Qed.

Lemma build_snoc d ls x :
  (0 < length ls)%nat ->
  build (S d) (ls ++ [x])
  = Node (eth2_hash32_concat (spec_root d (take (2 ^ d) (ls ++ [x])))
            (spec_root d (drop (2 ^ d) (ls ++ [x]))))
      (build d (take (2 ^ d) (ls ++ [x]))) (build d (drop (2 ^ d) (ls ++ [x]))).
Proof. destruct ls; simpl; [lia|done]. Qed.

(** Where the pushed leaf goes, in terms of the two halves. *)
Lemma take_drop_snoc_left (n : nat) ls x :
  (length ls < n)%nat -> take n (ls ++ [x]) = ls ++ [x] /\ drop n (ls ++ [x]) = [].
Proof. intros Hn. rewrite take_ge, drop_ge; rewrite ?length_app; simpl; auto with lia. Qed.

Lemma take_drop_snoc_right (n : nat) ls x :
  (n <= length ls)%nat ->
  take n (ls ++ [x]) = take n ls /\ drop n (ls ++ [x]) = drop n ls ++ [x].
Proof. intros Hn. by rewrite take_app_le, drop_app_le by done. Qed.

(** Pushing [x] on the tree of [ls] appends it, or reports a full tree. *)
Definition pushes (d : nat) (x : bytes) (ls : list bytes) : Prop :=
  ((length ls < 2 ^ d)%nat -> push_leaf (build d ls) x d = (build d (ls ++ [x]), Ok tt)) /\
  (length ls = 2 ^ d -> push_leaf (build d ls) x d = (build d ls, Err MerkleTreeFull))%nat.

(** A populated tree is a node over the two halves of its leaves. *)
Lemma build_node d ls :
  (0 < length ls)%nat ->
  build (S d) ls
  = Node (spec_root (S d) ls) (build d (take (2 ^ d) ls)) (build d (drop (2 ^ d) ls)).
Proof. destruct ls; simpl; [lia | done]. Qed.

(** The facts about the two halves that the cases below use. *)
Ltac push_setup d ls Hl :=
  unfold pushes; rewrite build_snoc, build_node by lia;
  change (2 ^ S d)%nat with (2 * 2 ^ d)%nat; cbn [push_leaf];
  pose proof (build_shape d (take (2 ^ d) ls)) as HsL;
  pose proof (build_shape d (drop (2 ^ d) ls)) as HsR;
  pose proof (Forall_take _ (2 ^ d) _ Hl) as HlL;
  pose proof (Forall_drop _ (2 ^ d) _ Hl) as HlR;
  pose proof (length_drop ls (2 ^ d)) as HdR; pose proof (length_take ls (2 ^ d)) as HdL.

(** The left half still has room. *)
Lemma push_left_room d ls x :
  (S d <= 48)%nat -> Forall is_b32 ls -> is_b32 x ->
  (0 < length ls < 2 ^ d)%nat -> pushes d x ls -> pushes (S d) x ls.
Proof.
  intros Hd Hl Hx Hlen [IHok _]. specialize (IHok ltac:(lia)). push_setup d ls Hl.
  destruct (take_drop_snoc_left (2 ^ d) ls x ltac:(lia)) as [-> ->].
  rewrite (drop_ge ls), (take_ge ls) in * by lia.
  split; [intros _|intros; lia].
  destruct d as [|d']; [simpl in *; lia|]. change (build (S d') []) with (Zero (S d')).
  destruct (build (S d') ls) eqn:El; try shape_contra HsL.
  cbv iota beta. cbn [push_leaf] in IHok |- *. rewrite IHok. cbv iota beta.
  change (Zero (S d')) with (build (S d') []).
  rewrite hash_children_build by (auto with lia; apply Forall_app; auto). done.
Qed.

(** The left half is full and the right one empty. *)
Lemma push_left_full d ls x :
  (S d <= 48)%nat -> Forall is_b32 ls -> is_b32 x ->
  length ls = (2 ^ d)%nat -> ((0 < d)%nat -> pushes d x ls) -> pushes (S d) x ls.
Proof.
  intros Hd Hl Hx Heq IH.
  assert (Hpow : (0 < 2 ^ d)%nat) by (apply Nat.neq_0_lt_0, Nat.pow_nonzero; lia).
  push_setup d ls Hl. destruct (take_drop_snoc_right (2 ^ d) ls x ltac:(lia)) as [-> ->].
  rewrite (drop_ge ls), (take_ge ls) in * by lia.
  split; [intros _|intros; lia].
  destruct d as [|d'].
  - destruct ls as [|y [|z ls]]; simpl in Heq; try lia.
    cbn [build]. rewrite assign_new_build by auto with lia.
    change (Leaf y) with (build 0 [y]).
    rewrite hash_children_build by (auto with lia). done.
  - destruct (IH ltac:(lia)) as [_ IHfull]. specialize (IHfull Heq).
    change (build (S d') []) with (Zero (S d')).
    destruct (build (S d') ls) eqn:El; try shape_contra HsL.
    rewrite IHfull, assign_new_build by auto with lia. cbv iota beta. rewrite <- El.
    rewrite hash_children_build by (auto with lia). done.
Qed.

(** The left half is full and the right one populated. *)
Lemma push_right d ls x :
  (S d <= 48)%nat -> Forall is_b32 ls -> is_b32 x ->
  (2 ^ d < length ls)%nat -> ((0 < d)%nat -> pushes d x (drop (2 ^ d) ls)) -> pushes (S d) x ls.
Proof.
  intros Hd Hl Hx Hgt IH.
  assert (Hpow : (0 < 2 ^ d)%nat) by (apply Nat.neq_0_lt_0, Nat.pow_nonzero; lia).
  push_setup d ls Hl. destruct (take_drop_snoc_right (2 ^ d) ls x ltac:(lia)) as [-> ->].
  destruct d as [|d'].
  - destruct ls as [|y [|z ls]]; simpl in Hgt; try lia.
    split; [simpl; intros; lia|done].
  - destruct (IH ltac:(lia)) as [IHok IHfull].
    destruct (build (S d') (take _ ls)) eqn:El; try shape_contra HsL.
    destruct (build (S d') (drop _ ls)) eqn:Er; try shape_contra HsR.
    split; intros Hlen'.
    + rewrite IHok by lia. cbv iota beta. rewrite <- El.
      rewrite hash_children_build by (auto with lia; apply Forall_app; auto). done.
    + by rewrite IHfull by lia.
Qed.

Lemma push_leaf_build d ls x :
  (S d <= 48)%nat -> Forall is_b32 ls -> is_b32 x -> pushes (S d) x ls.
Proof.
  revert ls. induction d as [|d IH]; intros ls Hd Hl Hx;
    (destruct ls as [|y ls'];
     [split; [intros _; cbn [build push_leaf]; by rewrite assign_new_build by auto
             |intros E; symmetry in E; by apply Nat.pow_nonzero in E]|]);
    set (ls := y :: ls') in *; assert (Hlen : (0 < length ls)%nat) by (simpl; lia).
  - destruct (decide (length ls = 1)%nat) as [Heq|Hne].
    + apply push_left_full; auto. lia.
    + apply push_right; auto; [simpl in *; lia | lia].
  - assert (Hsub : forall l, Forall is_b32 l -> pushes (S d) x l) by (intros; apply IH; auto with lia).
    destruct (decide (length ls < 2 ^ S d)%nat); [|destruct (decide (length ls = 2 ^ S d)%nat)].
    + apply push_left_room; auto.
    + apply push_left_full; auto.
    + apply push_right; auto using Forall_drop with lia.
Qed.

(** Equal node hashes have equal children, or their concatenations collide. *)
Lemma concat_inj a b a' b' :
  length a = length a' ->
  eth2_hash32_concat a b = eth2_hash32_concat a' b' ->
  (a = a' /\ b = b') \/ collides eth2_hash [(a ++ b, a' ++ b')].
Proof.
  intros Hl He. rewrite !eth2_concat in He.
  apply collides_pair in He as [Heq|?]; [left; by apply app_inj_1 | by right].
Qed.

Lemma branch_inputs_app r a x k i :
  branch_inputs r (a ++ [x]) k i
  = branch_inputs r a k i
    ++ [if Z.testbit i (Z.of_nat (k + length a)) then x ++ branch_loop r a k i
        else branch_loop r a k i ++ x].
Proof.
  revert r k. induction a as [|y a IH]; intros r k.
  - cbn. by rewrite Nat.add_0_r.
  - change ((y :: a) ++ [x]) with (y :: (a ++ [x])). cbn [branch_inputs]. rewrite IH.
    cbn [app length]. by rewrite Nat.add_succ_r.
Qed.

Lemma length_branch_inputs r a k i : length (branch_inputs r a k i) = length a.
Proof. revert r k. induction a as [|y a IH]; intros r k; cbn; [done | by rewrite IH]. Qed.

Lemma length_path_inputs d ls i : length (path_inputs d ls i) = d.
Proof. revert ls. induction d as [|d IH]; intros ls; cbn; [done|]. by case_goal; rewrite IH. Qed.

(** The pairs of a tree of one more level: those of the half below, then the root's. *)
Lemma proof_pairs_step d ls leaf br x i :
  length br = d ->
  proof_pairs (S d) ls leaf (br ++ [x]) i
  = proof_pairs d (if Z.testbit i (Z.of_nat d) then drop (2 ^ d) ls else take (2 ^ d) ls) leaf br i
    ++ [(if Z.testbit i (Z.of_nat d) then x ++ branch_loop leaf br 0 i else branch_loop leaf br 0 i ++ x,
         spec_root d (take (2 ^ d) ls) ++ spec_root d (drop (2 ^ d) ls))].
Proof.
  intros Hl. unfold proof_pairs. rewrite branch_inputs_app. cbn [path_inputs].
  rewrite reverse_cons, Nat.add_0_l, Hl.
  rewrite zip_with_app; [by destruct (Z.testbit i _)|].
  by rewrite length_branch_inputs, length_reverse; case_goal; rewrite length_path_inputs.
Qed.

(** The path of the tree itself is checked against itself: it is never a collision. *)
Lemma honest_pairs d ls i :
  ~ collides eth2_hash (proof_pairs d ls (spec_leaf d ls i) (reverse (spec_path d ls i)) i).
Proof.
  revert ls. induction d as [|d IH]; intros ls; [apply collides_nil|]. cbn [spec_path spec_leaf].
  destruct (Z.testbit i (Z.of_nat d)) eqn:E; rewrite reverse_cons, proof_pairs_step, E, collides_app, branch_loop_path
    by (by rewrite length_reverse, length_spec_path);
    (intros [Hc|Hc]; [by apply IH in Hc|]); apply Exists_cons in Hc as [[Hc _]|Hc%Exists_nil]; done.
Qed.

Lemma branch_sound d ls leaf branch i :
  Forall is_b32 ls -> is_b32 leaf -> Forall is_b32 branch -> length branch = d ->
  branch_loop leaf branch 0 i = spec_root d ls ->
  leaf = spec_leaf d ls i \/ collides eth2_hash (proof_pairs d ls leaf branch i).
Proof.
  revert ls branch. induction d as [|d IH]; intros ls branch Hls Hleaf Hbr Hlen Heq.
  { destruct branch; [|done]. simpl in Heq. left. by destruct ls. }
  destruct (@exists_last _ branch) as (br & x & ->); [by destruct branch|].
  rewrite length_app in Hlen. simpl in Hlen.
  apply Forall_app in Hbr as [Hbr Hx]. apply Forall_cons in Hx as [Hx _].
  rewrite proof_pairs_step by lia. rewrite collides_app.
  rewrite branch_loop_app in Heq. cbn [spec_root spec_leaf] in *.
  replace (0 + length br)%nat with d in Heq by lia.
  destruct (Z.testbit i (Z.of_nat d)); apply concat_inj in Heq as [[H1 H2]|?]; auto.
  - destruct (IH (drop (2 ^ d) ls) br); auto using Forall_drop with lia.
  - rewrite (spec_root_b32 d) by auto using Forall_take. exact Hx.
  - destruct (IH (take (2 ^ d) ls) br); auto using Forall_take with lia.
  - rewrite (spec_root_b32 d) by auto using Forall_take. by apply branch_loop_b32.
Qed.

Lemma one_shl_pow d : (d < 64)%nat -> one_shl d = 2 ^ Z.of_nat d.
Proof. intros Hd. unfold one_shl. rewrite Z.mod_small by lia. done. Qed.

Lemma pow2_S d : 2 ^ Z.of_nat (S d) = 2 * 2 ^ Z.of_nat d.
Proof. rewrite Nat2Z.inj_succ, Z.pow_succ_r; lia. Qed.

Lemma build_cons d ls :
  (0 < length ls)%nat ->
  build (S d) ls = Node (spec_root (S d) ls)
    (build d (take (2 ^ d) ls)) (build d (drop (2 ^ d) ls)).
Proof. destruct ls; simpl; [lia|done]. Qed.

(** Enough deposits for the whole subtree finalize it at its root. *)
Lemma finalize_all d ls n :
  (d < 64)%nat -> (0 < length ls)%nat -> 2 ^ Z.of_nat d <= n ->
  finalize_deposits (build d ls) n d = (Finalized (spec_root d ls), Ok tt).
Proof.
  intros Hd Hl Hn. destruct d as [|d].
  - by destruct ls; [simpl in Hl; lia|].
  - rewrite build_cons by done. cbn [finalize_deposits].
    rewrite one_shl_pow by done. by rewrite (proj2 (Z.leb_le _ _) Hn).
Qed.

(** One level of [finalize_deposits] below the root. *)
Lemma finalize_step d ls n :
  (S d < 64)%nat -> (0 < length ls)%nat -> n < 2 * 2 ^ Z.of_nat d ->
  finalize_deposits (build (S d) ls) n (S d)
  = let '(l, r) := finalize_deposits (build d (take (2 ^ d) ls)) n d in
    match r with
    | Ok _ =>
        if 2 ^ Z.of_nat d <? n then
          let '(r2, o) := finalize_deposits (build d (drop (2 ^ d) ls)) (n - 2 ^ Z.of_nat d) d in
          (Node (spec_root (S d) ls) l r2, o)
        else (Node (spec_root (S d) ls) l (build d (drop (2 ^ d) ls)), Ok tt)
    | _ => (Node (spec_root (S d) ls) l (build d (drop (2 ^ d) ls)), r)
    end.
Proof.
  intros Hd Hl Hn. rewrite build_cons by done. cbn [finalize_deposits].
  rewrite one_shl_pow, pow2_S by done.
  rewrite (proj2 (Z.leb_gt _ _)) by lia.
  by rewrite (Z.mul_comm 2), Z.div_mul by lia.
Qed.

Lemma finalize_root {E} d ls n :
  (d <= 48)%nat -> Forall is_b32 ls -> 1 <= n ->
  Z.min n (2 ^ Z.of_nat d) <= Z.of_nat (length ls) ->
  exists tr, finalize_deposits (build d ls) n d = (tr, Ok tt)
    /\ @hash _ E tr = Ok (spec_root d ls).
Proof.
  revert ls n. induction d as [|d IH]; intros ls n Hd Hl Hn Hmin.
  { exists (Finalized (spec_root 0 ls)). rewrite finalize_all by (simpl in *; lia). done. }
  pose proof (Z.pow_pos_nonneg 2 (Z.of_nat d)) as Hp.
  destruct (Z.le_gt_cases (2 ^ Z.of_nat (S d)) n) as [Hbig|Hsmall].
  { exists (Finalized (spec_root (S d) ls)). rewrite finalize_all by lia. done. }
  rewrite pow2_S in *. rewrite finalize_step by lia.
  edestruct (IH (take (2 ^ d) ls) n) as (l & -> & _);
    [lia | by apply Forall_take | lia | rewrite length_take, Nat2Z.inj_min, pow2_nat; lia |].
  destruct (2 ^ Z.of_nat d <? n) eqn:E'; b2p; [|by eexists].
  edestruct (IH (drop (2 ^ d) ls) (n - 2 ^ Z.of_nat d)) as (r & -> & _);
    [lia | by apply Forall_drop | lia | rewrite length_drop; pose proof (pow2_nat d); lia |].
  by eexists.
Qed.

Lemma append_finalized_app tr acc :
  append_finalized_hashes tr acc = acc ++ get_finalized_hashes tr.
Proof.
  unfold get_finalized_hashes. revert acc.
  induction tr as [h|h|h l IHl r IHr|k]; intros acc; simpl; rewrite ?app_nil_r; try done.
  rewrite IHl, IHr, (IHr (append_finalized_hashes l [])), <- app_assoc. done.
Qed.

Lemma get_finalized_Node h l r :
  get_finalized_hashes (Node h l r) = get_finalized_hashes l ++ get_finalized_hashes r.
Proof. unfold get_finalized_hashes at 1. simpl. apply append_finalized_app. Qed.

Lemma get_finalized_Zero d : get_finalized_hashes (build d []) = [].
Proof. by destruct d. Qed.

Lemma hash_children_root d ls l r :
  hash l = (Ok (spec_root d (take (2 ^ d) ls)) : res MerkleTreeError _) ->
  hash r = (Ok (spec_root d (drop (2 ^ d) ls)) : res MerkleTreeError _) ->
  hash_children l r = (Ok (spec_root (S d) ls) : res MerkleTreeError _).
Proof.
  intros E1 E2. unfold hash_children. rewrite E1, E2. apply from_slice_b32, concat_b32.
Qed.

(** A tree that its own finalized hashes restore. *)
Definition restorable (n : Z) (d : nat) (tr : t) : Prop :=
  from_finalized_snapshot (get_finalized_hashes tr) n d = Ok tr.

Lemma restorable_left_full d ls n r :
  (S d <= 48)%nat -> 2 ^ Z.of_nat d <= n < 2 * 2 ^ Z.of_nat d ->
  hash r = (Ok (spec_root d (drop (2 ^ d) ls)) : res MerkleTreeError _) ->
  restorable (n - 2 ^ Z.of_nat d) d r ->
  restorable n (S d)
    (Node (spec_root (S d) ls) (Finalized (spec_root d (take (2 ^ d) ls))) r).
Proof.
  unfold restorable. intros Hd Hn Hr Hsnap. rewrite get_finalized_Node.
  cbn [get_finalized_hashes append_finalized_hashes app from_finalized_snapshot].
  rewrite !one_shl_pow, pow2_S by lia.
  rewrite (proj2 (Z.eqb_neq _ _)), (proj2 (Z.leb_le _ _)), Hsnap by lia.
  cbv iota beta. by rewrite (hash_children_root d ls).
Qed.

Lemma restorable_left_partial d ls n l :
  (S d <= 48)%nat -> 1 <= n < 2 ^ Z.of_nat d -> (length ls <= 2 ^ d)%nat ->
  hash l = (Ok (spec_root d ls) : res MerkleTreeError _) ->
  get_finalized_hashes l <> [] -> restorable n d l ->
  restorable n (S d) (Node (spec_root (S d) ls) l (Zero d)).
Proof.
  unfold restorable. intros Hd Hn Hlen Hl Hne Hsnap.
  rewrite get_finalized_Node, app_nil_r.
  destruct (get_finalized_hashes l) as [|f rest] eqn:Ef; [done|].
  cbn [from_finalized_snapshot]. rewrite !one_shl_pow, pow2_S by lia.
  rewrite (proj2 (Z.eqb_neq _ _)), (proj2 (Z.leb_gt _ _)), Hsnap by lia.
  rewrite (hash_children_root d ls); [done| |].
  - by rewrite take_ge.
  - by rewrite drop_ge, hash_Zero, spec_root_nil by (done || lia).
Qed.

(** Restoring a snapshot of a fully finalized tree gives back that very tree. *)
Lemma snapshot_build d ls tr :
  (d <= 48)%nat -> Forall is_b32 ls -> 1 <= Z.of_nat (length ls) <= 2 ^ Z.of_nat d ->
  finalize_deposits (build d ls) (Z.of_nat (length ls)) d = (tr, Ok tt) ->
  get_finalized_hashes tr <> [] /\ restorable (Z.of_nat (length ls)) d tr.
Proof.
  revert ls tr. induction d as [|d IH]; intros ls tr Hd Hl Hn Hf;
    remember (Z.of_nat (length ls)) as n eqn:En.
  { rewrite finalize_all in Hf by (simpl in *; lia). injection Hf as <-.
    by replace n with 1 by (simpl in *; lia). }
  pose proof (Z.pow_pos_nonneg 2 (Z.of_nat d)) as Hp. pose proof (pow2_nat d) as Hpn.
  destruct (Z.eq_dec n (2 ^ Z.of_nat (S d))) as [Heq|Hne].
  { rewrite finalize_all in Hf by lia. injection Hf as <-. split; [done|].
    unfold restorable. cbn [get_finalized_hashes append_finalized_hashes app from_finalized_snapshot].
    by rewrite one_shl_pow, (proj2 (Z.eqb_eq _ _) Heq) by lia. }
  rewrite pow2_S in *. rewrite finalize_step in Hf by lia.
  destruct (Z.le_gt_cases (2 ^ Z.of_nat d) n) as [Hge|Hlt].
  - rewrite finalize_all in Hf by (rewrite ?length_take; lia).
    destruct (2 ^ Z.of_nat d <? n) eqn:E'; b2p.
    + edestruct (finalize_root (E:=MerkleTreeError) d (drop (2 ^ d) ls) (n - 2 ^ Z.of_nat d))
        as (r & Er & Hr); [lia | by apply Forall_drop | lia | rewrite length_drop; lia |].
      rewrite Er in Hf. injection Hf as <-. split; [by rewrite get_finalized_Node|].
      apply restorable_left_full; [lia..|done|].
      replace (n - 2 ^ Z.of_nat d) with (Z.of_nat (length (drop (2 ^ d) ls))) in *
        by (rewrite length_drop; lia).
      apply (IH (drop (2 ^ d) ls)); auto using Forall_drop with lia.
      rewrite length_drop; lia.
    + injection Hf as <-. split; [by rewrite get_finalized_Node|].
      apply restorable_left_full; [lia..| |].
      * by rewrite hash_build by auto using Forall_drop with lia.
      * unfold restorable. rewrite (drop_ge ls), get_finalized_Zero by lia.
        replace (n - 2 ^ Z.of_nat d) with 0 by lia. by destruct d.
  - rewrite (take_ge ls), (drop_ge ls) in * by lia.
    edestruct (finalize_root (E:=MerkleTreeError) d ls n) as (l & El & Hl'); [lia|done|lia|lia|].
    rewrite El, (proj2 (Z.ltb_ge _ _)) in Hf by lia. injection Hf as <-.
    destruct (IH ls l) as [Hne' Hsnap]; [lia|done|lia|by rewrite <- En|].
    assert (build d [] = Zero d) as -> by (by destruct d).
    split; [by rewrite get_finalized_Node, app_nil_r|].
    rewrite <- En in Hsnap. apply restorable_left_partial; try done; lia.
Qed.

End Lemmas.
End MerkleTree.
Import MerkleTree.

(** ** Properties *)

Section Properties.
Context `{HOk : Eth2HashingOk}.
Implicit Types (ls : list H256) (d : nat).

(** completeness.  For every list of leaves and every in-range index, the tree
    that [create] builds yields a proof of length [depth] for the leaf at the
    index, and [verify_merkle_proof] accepts it against the tree's own root; no
    step panics or fails. *)
Theorem merkle_proof_complete ls d i leaf :
  (d <= MAX_TREE_DEPTH)%nat -> Forall is_b32 ls -> 0 <= i < 2 ^ Z.of_nat d ->
  ls !! Z.to_nat i = Some leaf ->
  exists tree root branch,
    create ls d = (Ok tree : res MerkleTreeError _) /\
    hash tree = (Ok root : res MerkleTreeError _) /\
    generate_proof tree i d = Ok (leaf, branch) /\
    length branch = d /\
    verify_merkle_proof leaf branch d i root = (Ok true : res MerkleTreeError _).
Proof.
  unfold MAX_TREE_DEPTH. intros Hd Hl Hi Hleaf.
  assert (Hsl : spec_leaf d ls i = leaf) by (rewrite spec_leaf_lookup, Hleaf; done).
  exists (build d ls), (spec_root d ls), (reverse (spec_path d ls i)). split_and!.
  - by apply create_build; [lia|].
  - by apply hash_build; [lia|].
  - unfold generate_proof.
    destruct (proof_loop_build d ls i []) as (node & -> & Hn); [lia|done|].
    cbv iota beta. rewrite Hn, Hsl. done.
  - by rewrite length_reverse, length_spec_path.
  - rewrite verify_unfold by (rewrite <- Hsl; by apply spec_leaf_b32).
    rewrite length_reverse, length_spec_path, Nat.eqb_refl. simpl.
    rewrite <- Hsl, branch_loop_path, bool_decide_eq_true_2; done.
Qed.

(** C11: soundness.  A proof accepted against the root of the tree of [ls] is a
    proof of the leaf that [ls] has at the index (zero past the end of [ls]),
    unless at one of the [d] levels the two children hashed by the verifier and the
    two children hashed by the tree are a collision ([proof_pairs]). *)
Theorem merkle_proof_sound ls d i leaf branch tree root :
  (d <= MAX_TREE_DEPTH)%nat -> Forall is_b32 ls -> 0 <= i < 2 ^ Z.of_nat d ->
  is_b32 leaf -> Forall is_b32 branch ->
  create ls d = (Ok tree : res MerkleTreeError _) ->
  hash tree = (Ok root : res MerkleTreeError _) ->
  verify_merkle_proof leaf branch d i root = (Ok true : res MerkleTreeError _) ->
  leaf = default (replicate 32 x00) (ls !! Z.to_nat i)
  \/ collides eth2_hash (proof_pairs d ls leaf branch i).
Proof.
  unfold MAX_TREE_DEPTH. intros Hd Hl Hi Hleaf Hbr Hc Hh Hv.
  rewrite create_build in Hc by (done || lia). injection Hc as <-.
  rewrite hash_build in Hh by (done || lia). injection Hh as <-.
  rewrite verify_unfold in Hv by done. injection Hv as Hv.
  apply andb_true_iff in Hv as [Hlen Hroot%bool_decide_eq_true_1]. b2p.
  rewrite <- (spec_leaf_lookup d ls i) by done.
  by apply (branch_sound d ls leaf branch i).
Qed.

(** C33: [push_leaf] refines appending to the list of leaves: pushing into the tree
    of [ls] gives the tree of [ls ++ [x]] while there is room, and fails with
    [MerkleTreeFull] leaving the tree as it was once all [2^depth] leaves are
    taken. *)
Theorem push_leaf_refines_append ls x d tree :
  (1 <= d <= MAX_TREE_DEPTH)%nat -> Forall is_b32 ls -> is_b32 x ->
  (length ls <= 2 ^ d)%nat ->
  create ls d = (Ok tree : res MerkleTreeError _) ->
  if (length ls <? 2 ^ d)%nat
  then exists tree', create (ls ++ [x]) d = (Ok tree' : res MerkleTreeError _)
         /\ push_leaf tree x d = (tree', Ok tt)
  else push_leaf tree x d = (tree, Err MerkleTreeFull).
Proof.
  unfold MAX_TREE_DEPTH. intros Hd Hl Hx Hlen Hc.
  rewrite create_build in Hc by (done || lia). injection Hc as <-.
  destruct d as [|d]; [lia|].
  destruct (push_leaf_build d ls x) as [Hok Hfull]; [lia|done..|].
  case_goal; b2p.
  - exists (build (S d) (ls ++ [x])). split; [|by apply Hok].
    apply create_build; [lia|]. apply Forall_app; auto.
  - apply Hfull. lia.
Qed.

(** finalizing [n >= 1] of the deposits of a tree never fails and keeps its
    root; when all of them are finalized, the finalized hashes and the deposit
    count restore exactly that tree with [from_finalized_snapshot]. *)
Theorem finalized_snapshot_roundtrip ls d n tree root :
  (d <= MAX_TREE_DEPTH)%nat -> Forall is_b32 ls ->
  1 <= n <= Z.of_nat (length ls) -> Z.of_nat (length ls) <= 2 ^ Z.of_nat d ->
  create ls d = (Ok tree : res MerkleTreeError _) ->
  hash tree = (Ok root : res MerkleTreeError _) ->
  exists tree', finalize_deposits tree n d = (tree', Ok tt) /\
    hash tree' = (Ok root : res MerkleTreeError _) /\
    (n = Z.of_nat (length ls) ->
     from_finalized_snapshot (get_finalized_hashes tree') n d = Ok tree').
Proof.
  unfold MAX_TREE_DEPTH. intros Hd Hl Hn Hlen Hc Hh.
  rewrite create_build in Hc by (done || lia). injection Hc as <-.
  rewrite hash_build in Hh by (done || lia). injection Hh as <-.
  destruct (finalize_root (E:=MerkleTreeError) d ls n) as (tr & Hf & Hr); [lia|done|lia|lia|].
  exists tr. split_and!; [done..|]. intros ->.
  destruct (snapshot_build d ls tr) as [_ Hres]; [lia|done|lia|done|exact Hres].
Qed.

End Properties.

(** ** A concrete hash function, for the witnesses *)

Definition toy_digest (x : bytes) : bytes :=
  Z_to_be 32 (foldl (fun a b => Z.land (a * 257 + byte_to_Z b + 1) 65535) 5 x).

Definition toy_table_hashing : Eth2Hashing := {|
  eth2_hash := toy_digest;
  eth2_hash32_concat a b := toy_digest (a ++ b);
  ZERO_HASHES := []
|}.

Definition toy_hashing : Eth2Hashing := {|
  eth2_hash := toy_digest;
  eth2_hash32_concat a b := toy_digest (a ++ b);
  ZERO_HASHES := @zero_root toy_table_hashing <$> seq 0 49
|}.

Lemma toy_hashing_ok : Eth2HashingOk toy_hashing.
Proof.
  constructor.
  - intros x. apply length_Z_to_be.
  - done.
  - cbn [ZERO_HASHES toy_hashing]. apply list_fmap_ext. intros i n _.
    induction n as [|n IH]; [done|].
    change (toy_digest (@zero_root toy_table_hashing n ++ @zero_root toy_table_hashing n)
      = toy_digest (@zero_root toy_hashing n ++ @zero_root toy_hashing n)).
    by rewrite IH.
Qed.

Definition three_leaves : list H256 := [replicate 32 x01; replicate 32 x02; replicate 32 x03].

Lemma three_leaves_b32 : Forall is_b32 three_leaves.
Proof. repeat constructor. Qed.

Lemma merkle_proof_complete_witness :
  exists tree root branch,
    @create toy_hashing MerkleTreeError three_leaves 2 = Ok tree /\
    @hash toy_hashing MerkleTreeError tree = Ok root /\
    @generate_proof toy_hashing tree 2 2 = Ok (replicate 32 x03, branch) /\
    length branch = 2%nat /\
    @verify_merkle_proof toy_hashing MerkleTreeError (replicate 32 x03) branch 2 2 root = Ok true.
Proof.
  apply (merkle_proof_complete (HOk := toy_hashing_ok) three_leaves 2 2);
    [unfold MAX_TREE_DEPTH; lia | apply three_leaves_b32 | lia | reflexivity].
Defined.

Lemma push_leaf_refines_append_witness :
  exists tree tree',
    @create toy_hashing MerkleTreeError three_leaves 2 = Ok tree /\
    @create toy_hashing MerkleTreeError (three_leaves ++ [replicate 32 x04]) 2 = Ok tree' /\
    @push_leaf toy_hashing tree (replicate 32 x04) 2 = (tree', Ok tt).
Proof.
  pose proof (push_leaf_refines_append (HOk := toy_hashing_ok) three_leaves
    (replicate 32 x04) 2 _ ltac:(unfold MAX_TREE_DEPTH; lia) three_leaves_b32 eq_refl
    ltac:(simpl; lia) (create_build (HOk := toy_hashing_ok) 2 three_leaves
      ltac:(lia) three_leaves_b32)) as (tree' & H1 & H2).
  exists (@build toy_hashing 2 three_leaves), tree'.
  split; [apply (create_build (HOk := toy_hashing_ok)); [lia | apply three_leaves_b32] | auto].
Defined.

Lemma merkle_proof_sound_witness :
  let tree := @build toy_hashing 2 three_leaves in
  let root := @spec_root toy_hashing 2 three_leaves in
  let branch := reverse (@spec_path toy_hashing 2 three_leaves 1) in
  @verify_merkle_proof toy_hashing MerkleTreeError (replicate 32 x02) branch 2 1 root = Ok true /\
  ~ collides toy_digest (@proof_pairs toy_hashing 2 three_leaves (replicate 32 x02) branch 1) /\
  replicate 32 x02 = default (replicate 32 x00) (three_leaves !! Z.to_nat 1).
Proof.
  intros tree root branch.
  assert (Hv : @verify_merkle_proof toy_hashing MerkleTreeError (replicate 32 x02) branch 2 1 root
    = Ok true) by (vm_compute; reflexivity).
  assert (Hc : ~ collides toy_digest (@proof_pairs toy_hashing 2 three_leaves (replicate 32 x02) branch 1))
    by (apply not_collides; vm_compute; reflexivity).
  split_and!; [exact Hv | exact Hc |].
  destruct (merkle_proof_sound (HOk := toy_hashing_ok) three_leaves 2 1 (replicate 32 x02) branch tree root)
    as [E|E];
    [unfold MAX_TREE_DEPTH; lia | apply three_leaves_b32 | lia | reflexivity
    | repeat constructor; vm_compute; reflexivity
    | apply (create_build (HOk := toy_hashing_ok)); [lia | apply three_leaves_b32]
    | apply (hash_build (HOk := toy_hashing_ok)); [lia | apply three_leaves_b32]
    | exact Hv | exact E | destruct (Hc E) ].
Defined.

Lemma finalized_snapshot_roundtrip_witness :
  let tree := @build toy_hashing 2 three_leaves in
  exists tree', finalize_deposits tree 3 2 = (tree', Ok tt) /\
    @from_finalized_snapshot toy_hashing (get_finalized_hashes tree') 3 2 = Ok tree'.
Proof.
  intros tree.
  destruct (finalized_snapshot_roundtrip (HOk := toy_hashing_ok) three_leaves 2 3 tree
    (@spec_root toy_hashing 2 three_leaves)) as (tree' & H1 & _ & H3);
    [unfold MAX_TREE_DEPTH; lia | apply three_leaves_b32 | simpl; lia | simpl; lia
    | apply (create_build (HOk := toy_hashing_ok)); [lia | apply three_leaves_b32]
    | apply (hash_build (HOk := toy_hashing_ok)); [lia | apply three_leaves_b32] |].
  exists tree'. split; [exact H1 | apply H3; reflexivity].
Defined.
