(* ===== verification/Header.v ===== *)
(** * Execution headers and their RLP form.

    Models the [Header] part of [ethportal-api/src/types/execution/header.rs].
    The [rlp] and [keccak_hash] crates are the class [RlpLib]: an RLP stream is
    the list of items appended to it under the length announced with
    [begin_list], and an item is encoded and decoded by the crate. *)

From S2P Require Import Prelude.
From S2P Require Import Distance.

(** ** The RLP and Keccak crates *)

Inductive DecoderError :=
| RlpIsTooShort
| RlpIncorrectListLen
| UnknownTransactionId
| RlpOther (code : Z).

Class RlpLib := {
  rlp_item : Type;
  (** [append] of a byte string or a fixed hash, and of an unsigned integer *)
  enc_bytes : bytes -> rlp_item;
  enc_uint : Z -> rlp_item;
  (** decoding as a byte string, a hash of [n] bytes, an integer of [w] bits *)
  dec_bytes : rlp_item -> res DecoderError bytes;
  dec_fixed : nat -> rlp_item -> res DecoderError bytes;
  dec_uint : Z -> rlp_item -> res DecoderError Z;
  (** the bytes of a list, and the items of a list *)
  enc_list : list rlp_item -> bytes;
  dec_list : bytes -> res DecoderError (list rlp_item);
  keccak : bytes -> bytes
}.

Class RlpLibOk (R : RlpLib) : Prop := {
  dec_enc_bytes : forall b, dec_bytes (enc_bytes b) = Ok b;
  dec_enc_fixed : forall n b, length b = n -> dec_fixed n (enc_bytes b) = Ok b;
  dec_enc_uint : forall w z, 0 <= z < 2 ^ w -> dec_uint w (enc_uint z) = Ok z;
  dec_enc_list : forall l, dec_list (enc_list l) = Ok l;
  keccak_length : forall b, length (keccak b) = 32%nat
}.

(** The result types of the decoders: a hash has its number of bytes, an integer fits. *)
Class RlpTyped (R : RlpLib) : Prop := {
  dec_fixed_length : forall n it b, dec_fixed n it = Ok b -> length b = n;
  dec_uint_range : forall w it z, dec_uint w it = Ok z -> 0 <= z < 2 ^ w
}.

Module Header.

Definition LONDON_BLOCK_NUMBER : Z := 12965000.
Definition SHANGHAI_BLOCK_NUMBER : Z := 17034871.

(** ** Data *)

Record t := {
  parent_hash : bytes;
  uncles_hash : bytes;
  author : bytes;
  state_root : bytes;
  transactions_root : bytes;
  receipts_root : bytes;
  logs_bloom : bytes;
  difficulty : Z;
  number : Z;
  gas_limit : Z;
  gas_used : Z;
  timestamp : Z;
  extra_data : bytes;
  mix_hash : option bytes;
  nonce : option bytes;
  base_fee_per_gas : option Z;
  withdrawals_root : option bytes
}.

(** The Rust types of the fields. *)
Record wf (h : t) : Prop := {
  wf_parent : length (parent_hash h) = 32%nat;
  wf_uncles : length (uncles_hash h) = 32%nat;
  wf_author : length (author h) = 20%nat;
  wf_state : length (state_root h) = 32%nat;
  wf_txs : length (transactions_root h) = 32%nat;
  wf_receipts : length (receipts_root h) = 32%nat;
  wf_bloom : length (logs_bloom h) = 256%nat;
  wf_difficulty : 0 <= difficulty h < 2 ^ 256;
  wf_number : 0 <= number h < 2 ^ 64;
  wf_gas_limit : 0 <= gas_limit h < 2 ^ 256;
  wf_gas_used : 0 <= gas_used h < 2 ^ 256;
  wf_timestamp : 0 <= timestamp h < 2 ^ 64;
  wf_mix : forall b, mix_hash h = Some b -> length b = 32%nat;
  wf_nonce : forall b, nonce h = Some b -> length b = 8%nat;
  wf_base_fee : forall z, base_fee_per_gas h = Some z -> 0 <= z < 2 ^ 256;
  wf_withdrawals : forall b, withdrawals_root h = Some b -> length b = 32%nat
}.

(** ** Operations *)

Section Operations.
Context `{RlpLib}.

(** An RLP stream under construction: the announced list length and the items
    appended so far. *)
Record RlpStream := { announced : nat; items : list rlp_item }.

Definition append (s : RlpStream) (i : rlp_item) : RlpStream :=
  {| announced := announced s; items := items s ++ [i] |}.

Definition is_some {A} (o : option A) : bool :=
  match o with Some _ => true | None => false end.

Definition stream_rlp (self : t) (with_seal : bool) : RlpStream :=
  let stream_length_without_seal :=
    if is_some (withdrawals_root self) then 15%nat
    else if is_some (base_fee_per_gas self) then 14%nat
    else 13%nat in
  let sealed := with_seal && is_some (mix_hash self) && is_some (nonce self) in
  let s := {| announced :=
                if sealed then (stream_length_without_seal + 2)%nat
                else stream_length_without_seal;
              items := [] |} in
  let s := append s (enc_bytes (parent_hash self)) in
  let s := append s (enc_bytes (uncles_hash self)) in
  let s := append s (enc_bytes (author self)) in
  let s := append s (enc_bytes (state_root self)) in
  let s := append s (enc_bytes (transactions_root self)) in
  let s := append s (enc_bytes (receipts_root self)) in
  let s := append s (enc_bytes (logs_bloom self)) in
  let s := append s (enc_uint (difficulty self)) in
  let s := append s (enc_uint (number self)) in
  let s := append s (enc_uint (gas_limit self)) in
  let s := append s (enc_uint (gas_used self)) in
  let s := append s (enc_uint (timestamp self)) in
  let s := append s (enc_bytes (extra_data self)) in
  let s :=
    match with_seal, mix_hash self, nonce self with
    | true, Some m, Some n => append (append s (enc_bytes m)) (enc_bytes n)
    | _, _, _ => s
    end in
  let s :=
    match base_fee_per_gas self with
    | Some val => append s (enc_uint val)
    | None => s
    end in
  match withdrawals_root self with
  | Some val => append s (enc_bytes val)
  | None => s
  end.

(** [rlp_append], and the bytes [rlp::encode] makes of it. *)
Definition rlp_append (self : t) : RlpStream := stream_rlp self true.
Definition encode (self : t) : bytes := enc_list (items (rlp_append self)).

Definition hash (self : t) : bytes := keccak (encode self).

(** [rlp.val_at(i)]. *)
Definition val_at {A} (dec : rlp_item -> res DecoderError A) (rlp : list rlp_item)
    (i : nat) : res DecoderError A :=
  match rlp !! i with
  | Some it => dec it
  | None => Err RlpIsTooShort
  end.

Definition decode (rlp : list rlp_item) : res DecoderError t :=
  let? parent := val_at (dec_fixed 32) rlp 0 in
  let? uncles := val_at (dec_fixed 32) rlp 1 in
  let? auth := val_at (dec_fixed 20) rlp 2 in
  let? state := val_at (dec_fixed 32) rlp 3 in
  let? txs := val_at (dec_fixed 32) rlp 4 in
  let? receipts := val_at (dec_fixed 32) rlp 5 in
  let? bloom := val_at (dec_fixed 256) rlp 6 in
  let? diff := val_at (dec_uint 256) rlp 7 in
  let? num := val_at (dec_uint 64) rlp 8 in
  let? limit := val_at (dec_uint 256) rlp 9 in
  let? used := val_at (dec_uint 256) rlp 10 in
  let? time := val_at (dec_uint 64) rlp 11 in
  let? extra := val_at dec_bytes rlp 12 in
  let? mix := val_at (dec_fixed 32) rlp 13 in
  let? non := val_at (dec_fixed 8) rlp 14 in
  let? base_fee :=
    (if LONDON_BLOCK_NUMBER <=? num then
       let? v := val_at (dec_uint 256) rlp 15 in Ok (Some v)
     else Ok None) in
  let? withdrawals :=
    (if SHANGHAI_BLOCK_NUMBER <=? num then
       let? v := val_at (dec_fixed 32) rlp 16 in Ok (Some v)
     else Ok None) in
  Ok {| parent_hash := parent; uncles_hash := uncles; author := auth;
        state_root := state; transactions_root := txs; receipts_root := receipts;
        logs_bloom := bloom; difficulty := diff; number := num; gas_limit := limit;
        gas_used := used; timestamp := time; extra_data := extra;
        mix_hash := Some mix; nonce := Some non;
        base_fee_per_gas := base_fee; withdrawals_root := withdrawals |}.

(** [rlp::decode]. *)
Definition rlp_decode (b : bytes) : res DecoderError t :=
  let? rlp := dec_list b in
  decode rlp.

End Operations.

(** The derived-by-hand [PartialEq]. *)
Definition eq (self other : t) : bool :=
  bool_decide (parent_hash self = parent_hash other)
  && bool_decide (uncles_hash self = uncles_hash other)
  && bool_decide (author self = author other)
  && bool_decide (state_root self = state_root other)
  && bool_decide (transactions_root self = transactions_root other)
  && bool_decide (receipts_root self = receipts_root other)
  && bool_decide (logs_bloom self = logs_bloom other)
  && (difficulty self =? difficulty other)
  && (number self =? number other)
  && (gas_limit self =? gas_limit other)
  && (gas_used self =? gas_used other)
  && (timestamp self =? timestamp other)
  && bool_decide (extra_data self = extra_data other)
  && bool_decide (mix_hash self = mix_hash other)
  && bool_decide (nonce self = nonce other)
  && bool_decide (base_fee_per_gas self = base_fee_per_gas other)
  && bool_decide (withdrawals_root self = withdrawals_root other).

(** Headers as the decoder has them: sealed, with a base fee and a withdrawals root from
    its two block numbers on. *)
Definition decoder_shape (h : t) : Prop :=
  is_some (mix_hash h) = true /\ is_some (nonce h) = true /\
  is_some (base_fee_per_gas h) = (LONDON_BLOCK_NUMBER <=? number h) /\
  is_some (withdrawals_root h) = (SHANGHAI_BLOCK_NUMBER <=? number h).

(** ** Properties *)

(** the list length [stream_rlp] announces is the number of items it appends,
    for every header whose withdrawals root comes with a base fee, sealed or
    not. *)
Theorem stream_rlp_announced `{RlpLib} h with_seal :
  (is_some (withdrawals_root h) = true -> is_some (base_fee_per_gas h) = true) ->
  announced (stream_rlp h with_seal) = length (items (stream_rlp h with_seal)).
Proof.
  intros Hw. unfold stream_rlp.
  destruct with_seal, (mix_hash h), (nonce h), (base_fee_per_gas h), (withdrawals_root h);
    simpl in *; try done; by specialize (Hw eq_refl).
Qed.

(** Headers as the chain has them: the first block of Shanghai, whose header has a
    withdrawals root, is the one before [SHANGHAI_BLOCK_NUMBER]. *)
Definition FIRST_SHANGHAI_BLOCK : Z := 17034870.

Definition chain_shape (h : t) : Prop :=
  is_some (mix_hash h) = true /\ is_some (nonce h) = true /\
  is_some (base_fee_per_gas h) = (LONDON_BLOCK_NUMBER <=? number h) /\
  is_some (withdrawals_root h) = (FIRST_SHANGHAI_BLOCK <=? number h).

Definition with_withdrawals_root (h : t) (r : option bytes) : t :=
  {| parent_hash := parent_hash h; uncles_hash := uncles_hash h; author := author h;
     state_root := state_root h; transactions_root := transactions_root h; receipts_root := receipts_root h;
     logs_bloom := logs_bloom h; difficulty := difficulty h; number := number h; gas_limit := gas_limit h;
     gas_used := gas_used h; timestamp := timestamp h; extra_data := extra_data h;
     mix_hash := mix_hash h; nonce := nonce h; base_fee_per_gas := base_fee_per_gas h; withdrawals_root := r |}.

(** Decoding the items of a sealed header gives the header back, up to a withdrawals root
    that the decoder does not look for. *)
Lemma decode_items_upto `{RlpLibOk} h :
  wf h -> is_some (mix_hash h) = true -> is_some (nonce h) = true ->
  is_some (base_fee_per_gas h) = (LONDON_BLOCK_NUMBER <=? number h) ->
  ((SHANGHAI_BLOCK_NUMBER <=? number h) = true -> is_some (withdrawals_root h) = true) ->
  (is_some (withdrawals_root h) = true -> is_some (base_fee_per_gas h) = true) ->
  decode (items (rlp_append h))
  = Ok (with_withdrawals_root h (if SHANGHAI_BLOCK_NUMBER <=? number h then withdrawals_root h else None)).
Proof.
  intros Hwf Hm Hn Hb Hs Hwb. unfold rlp_append, stream_rlp.
  pose proof (wf_mix h Hwf) as Wm. pose proof (wf_nonce h Hwf) as Wn.
  pose proof (wf_base_fee h Hwf) as Wb. pose proof (wf_withdrawals h Hwf) as Ww.
  destruct (mix_hash h) as [mix|] eqn:Em; [|done].
  destruct (nonce h) as [non|] eqn:En; [|done].
  destruct (SHANGHAI_BLOCK_NUMBER <=? number h) eqn:El;
    destruct (base_fee_per_gas h) as [fee|] eqn:Eb, (withdrawals_root h) as [wr|] eqn:Ew;
    simpl in Hb, Hs, Hwb; try (by specialize (Hwb eq_refl)); try (by specialize (Hs eq_refl));
    unfold decode, val_at; cbn -[LONDON_BLOCK_NUMBER SHANGHAI_BLOCK_NUMBER Z.leb Z.pow];
    rewrite ?dec_enc_fixed by (destruct Hwf; eauto);
    rewrite ?(dec_enc_uint 256 (difficulty h)), ?(dec_enc_uint 64 (number h)),
      ?(dec_enc_uint 256 (gas_limit h)), ?(dec_enc_uint 256 (gas_used h)),
      ?(dec_enc_uint 64 (timestamp h)), ?dec_enc_bytes by (destruct Hwf; eauto);
    rewrite <- Hb, El; rewrite ?(dec_enc_uint 256 fee), ?(dec_enc_fixed 32 wr) by eauto;
    unfold with_withdrawals_root; by rewrite Em, En, Eb.
Qed.

Lemma header_decode_items `{RlpLibOk} h :
  wf h -> decoder_shape h -> decode (items (rlp_append h)) = Ok h.
Proof.
  intros Hwf (Hm & Hn & Hb & Hs). rewrite decode_items_upto; try done.
  - rewrite <- Hs. f_equal. destruct h as [? ? ? ? ? ? ? ? ? ? ? ? ? ? ? ? [wr|]]; done.
  - by rewrite Hs.
  - rewrite Hs, Hb. unfold SHANGHAI_BLOCK_NUMBER, LONDON_BLOCK_NUMBER. intros ?; b2p. apply Z.leb_le. lia.
Qed.

(** What is decoded has the shape of the decoder. *)
Lemma decode_shape `{RlpLib} rlp h : decode rlp = Ok h -> decoder_shape h.
Proof.
  unfold decode. intros E.
  repeat match type of E with
  | match ?c with Ok _ => _ | Err _ => _ | Panic => _ end = Ok _ => destruct c eqn:?; [|done..]
  end.
  injection E as <-. unfold decoder_shape. cbn. split_and!; try done.
  - destruct (LONDON_BLOCK_NUMBER <=? _); [|by simplify_eq/=]. destruct (val_at (dec_uint 256) rlp 15); by simplify_eq/=.
  - destruct (SHANGHAI_BLOCK_NUMBER <=? _); [|by simplify_eq/=]. destruct (val_at (dec_fixed 32) rlp 16); by simplify_eq/=.
Qed.

(** C35: the RLP bytes of a well-typed header are decoded to this header exactly when its
    optional fields follow the two block numbers of the decoder.  So every header of the
    chain is read back, except that of the first Shanghai block, 17034870, which loses its
    withdrawals root. *)
Theorem header_rlp_roundtrip `{RlpLibOk} h :
  wf h ->
  (rlp_decode (encode h) = Ok h <-> decoder_shape h) /\
  (chain_shape h ->
   rlp_decode (encode h)
   = Ok (if number h =? FIRST_SHANGHAI_BLOCK then with_withdrawals_root h None else h)).
Proof.
  intros Hw. unfold rlp_decode, encode. rewrite dec_enc_list.
  split; [split; [apply decode_shape | by apply header_decode_items]|].
  intros (Hm & Hn & Hb & Hs). destruct (Z.eqb_spec (number h) FIRST_SHANGHAI_BLOCK) as [E|Hne].
  - rewrite decode_items_upto; try done; rewrite ?Hb, ?E; done.
  - apply header_decode_items; [done|]. split_and!; [done..|]. rewrite Hs.
    unfold FIRST_SHANGHAI_BLOCK, SHANGHAI_BLOCK_NUMBER in *.
    destruct (Z.leb_spec 17034870 (number h)), (Z.leb_spec 17034871 (number h)); done || lia.
Qed.

(** the hand-written [PartialEq] decides equality of headers. *)
Theorem header_eq_spec h h' : eq h h' = true <-> h = h'.
Proof.
  unfold eq. rewrite !andb_true_iff, !bool_decide_eq_true, !Z.eqb_eq. split.
  - destruct h, h'; simpl. intros H. destruct_and!. by subst.
  - intros ->. by repeat split.
Qed.

End Header.

(** ** A concrete RLP library, for the witnesses *)

(** Each byte is escaped by [x01]; [x00] ends an item. *)
Fixpoint toy_escape (b : bytes) : bytes :=
  match b with
  | [] => [x00]
  | c :: t => x01 :: c :: toy_escape t
  end.

Fixpoint toy_unescape (b : bytes) (cur : bytes) (acc : list bytes) : list bytes :=
  match b with
  | x01 :: c :: t => toy_unescape t (cur ++ [c]) acc
  | x00 :: t => toy_unescape t [] (acc ++ [cur])
  | _ => acc
  end.

Lemma toy_unescape_item b rest cur acc :
  toy_unescape (toy_escape b ++ rest) cur acc = toy_unescape rest [] (acc ++ [cur ++ b]).
Proof.
  revert cur. induction b as [|c b IH]; intros cur; simpl; [by rewrite app_nil_r|].
  by rewrite IH, <- app_assoc.
Qed.

Lemma toy_unescape_items l acc :
  toy_unescape (concat (map toy_escape l)) [] acc = acc ++ l.
Proof.
  revert acc. induction l as [|b l IH]; intros acc; simpl; [by rewrite app_nil_r|].
  by rewrite toy_unescape_item, IH, <- app_assoc.
Qed.

Definition toy_rlp : RlpLib := {|
  rlp_item := bytes;
  enc_bytes b := b;
  enc_uint z := Z_to_le (Z.to_nat (Z.log2 z + 1)) z;
  dec_bytes it := Ok it;
  dec_fixed n it := if (length it =? n)%nat then Ok it else Err (RlpOther 0);
  dec_uint w it := Ok (le_to_Z it);
  enc_list l := concat (map toy_escape l);
  dec_list b := Ok (toy_unescape b [] []);
  keccak b := Z_to_be 32 (le_to_Z b)
|}.

Lemma toy_rlp_ok : RlpLibOk toy_rlp.
Proof.
  constructor; cbn -[Z.pow]; try done.
  - intros n b <-. by rewrite Nat.eqb_refl.
  - intros w z Hz. f_equal. rewrite le_to_Z_to_le by lia. apply Z.mod_small.
    split; [lia|]. pose proof (Z.log2_nonneg z).
    rewrite Z2Nat.id by lia. change 256 with (2 ^ 8). rewrite <- Z.pow_mul_r by lia.
    destruct (decide (z = 0)) as [->|]; [done|].
    apply Z.log2_lt_pow2; lia.
  - intros l. by rewrite toy_unescape_items.
Qed.

(** A header in the first London block. *)
Definition sample_header : Header.t := {|
  Header.parent_hash := replicate 32 x01;
  Header.uncles_hash := replicate 32 x02;
  Header.author := replicate 20 x03;
  Header.state_root := replicate 32 x04;
  Header.transactions_root := replicate 32 x05;
  Header.receipts_root := replicate 32 x06;
  Header.logs_bloom := replicate 256 x00;
  Header.difficulty := 7742494561645080;
  Header.number := 12965000;
  Header.gas_limit := 30029122;
  Header.gas_used := 30025257;
  Header.timestamp := 1628166822;
  Header.extra_data := [x68; x65; x79];
  Header.mix_hash := Some (replicate 32 x07);
  Header.nonce := Some (replicate 8 x08);
  Header.base_fee_per_gas := Some 1000000000;
  Header.withdrawals_root := None
|}.

Lemma sample_header_wf : Header.wf sample_header.
Proof. constructor; try (simpl; lia); try done; intros v [= <-]; simpl; done || lia. Qed.

Lemma stream_rlp_announced_witness :
  @Header.announced toy_rlp (Header.stream_rlp sample_header true) = 16%nat /\
  length (@Header.items toy_rlp (Header.stream_rlp sample_header true)) = 16%nat.
Proof.
  split; [reflexivity|].
  rewrite <- (@Header.stream_rlp_announced toy_rlp sample_header true);
    [reflexivity | discriminate].
Defined.

(** The same header in the first Shanghai block. *)
Definition first_shanghai_header : Header.t := {|
  Header.parent_hash := replicate 32 x01;
  Header.uncles_hash := replicate 32 x02;
  Header.author := replicate 20 x03;
  Header.state_root := replicate 32 x04;
  Header.transactions_root := replicate 32 x05;
  Header.receipts_root := replicate 32 x06;
  Header.logs_bloom := replicate 256 x00;
  Header.difficulty := 0;
  Header.number := 17034870;
  Header.gas_limit := 30029122;
  Header.gas_used := 30025257;
  Header.timestamp := 1681338479;
  Header.extra_data := [x68; x65; x79];
  Header.mix_hash := Some (replicate 32 x07);
  Header.nonce := Some (replicate 8 x08);
  Header.base_fee_per_gas := Some 1000000000;
  Header.withdrawals_root := Some (replicate 32 x09)
|}.

Lemma first_shanghai_header_wf : Header.wf first_shanghai_header.
Proof. constructor; try (simpl; lia); try done; intros v [= <-]; simpl; done || lia. Qed.

Lemma header_rlp_roundtrip_witness :
  @Header.rlp_decode toy_rlp (@Header.encode toy_rlp sample_header) = Ok sample_header
  /\ @Header.rlp_decode toy_rlp (@Header.encode toy_rlp first_shanghai_header)
     = Ok (Header.with_withdrawals_root first_shanghai_header None).
Proof.
  split.
  - apply (proj2 (@Header.header_rlp_roundtrip toy_rlp toy_rlp_ok sample_header sample_header_wf)). repeat split.
  - apply (proj2 (@Header.header_rlp_roundtrip toy_rlp toy_rlp_ok first_shanghai_header first_shanghai_header_wf)).
    repeat split.
Defined.
