(* ===== verification/Hex.v ===== *)
(** * Hex strings with the 0x prefix.

    Models the string functions of [ethportal-api/src/utils/bytes.rs].  A [&str]
    is the list of its UTF-8 bytes; the [hex] crate, which turns bytes into hex
    digits and back, is the class [HexLib]. *)

From S2P Require Import Prelude.

(** ** The hex crate *)

Class HexLib := {
  hex_digits : bytes -> bytes;
  hex_digits_upper : bytes -> bytes;
  hex_parse : bytes -> option bytes
}.

(** Two lower-case digits per byte, which parse back. *)
Definition is_hex_digit (c : byte) : Prop :=
  0x30 <= byte_to_Z c <= 0x39 \/ 0x61 <= byte_to_Z c <= 0x66.

Class HexLibOk (L : HexLib) : Prop := {
  hex_digits_length : forall b, length (hex_digits b) = (2 * length b)%nat;
  hex_digits_range : forall b, Forall is_hex_digit (hex_digits b);
  hex_parse_digits : forall b, hex_parse (hex_digits b) = Some b
}.

Inductive ByteUtilsError :=
| WrongPrefix (first_two : bytes)
| HexDecode (data : bytes)
| NoPrefix (data : bytes).

(** The string literals the code uses. *)
Definition str_0x : bytes := [x30; x78].
Definition str_dots : bytes := [x2e; x2e].

(** ** Standard library: string slices *)

(** [i] is on a character boundary: at an end, or not at a UTF-8 continuation byte. *)
Definition is_char_boundary (s : bytes) (i : nat) : bool :=
  match s !! i with
  | Some c => negb ((0x80 <=? byte_to_Z c) && (byte_to_Z c <=? 0xbf))
  | None => (i =? length s)%nat
  end.

(** [s.get(..i)] and [s.get(i..)]. *)
Definition get_to (s : bytes) (i : nat) : option bytes :=
  if is_char_boundary s i then Some (take i s) else None.
Definition get_from (s : bytes) (i : nat) : option bytes :=
  if is_char_boundary s i then Some (drop i s) else None.

(** [s.starts_with(p)]. *)
Definition starts_with (p s : bytes) : bool := bool_decide (take (length p) s = p).

(** [s.trim_start_matches("0x")]: the prefix is removed repeatedly. *)
Fixpoint trim_0x (s : bytes) : bytes :=
  match s with
  | x30 :: x78 :: t => trim_0x t
  | _ => s
  end.

Section Operations.
Context `{HexLib}.

Definition hex_encode (data : bytes) : bytes := str_0x ++ hex_digits data.

Definition hex_decode (data : bytes) : res ByteUtilsError bytes :=
  let? first_two := ok_or (get_to data 2) (NoPrefix data) in
  if negb (bool_decide (first_two = str_0x)) then Err (WrongPrefix first_two)
  else
    let post_prefix := default [] (get_from data 2) in
    match hex_parse post_prefix with
    | Some b => Ok b
    | None => Err (HexDecode data)
    end.

Definition hex_encode_compact (data : bytes) : bytes :=
  if (length data <=? 8)%nat then hex_encode data
  else
    let hex := hex_digits data in
    str_0x ++ take 4 hex ++ str_dots ++ drop (length hex - 4) hex.

Definition hex_encode_upper (data : bytes) : bytes := str_0x ++ hex_digits_upper data.

End Operations.

(** ** Lemmas *)

Section Lemmas.
Context `{HexLibOk}.

Lemma hex_digit_boundary c :
  is_hex_digit c -> negb ((0x80 <=? byte_to_Z c) && (byte_to_Z c <=? 0xbf)) = true.
Proof.
  unfold is_hex_digit. intros Hc. apply negb_true_iff, andb_false_iff. left.
  apply Z.leb_gt. lia.
Qed.

Lemma hex_encode_boundary b : is_char_boundary (hex_encode b) 2 = true.
Proof.
  unfold is_char_boundary, hex_encode, str_0x. simpl.
  pose proof (hex_digits_range b) as Hr.
  destruct Hr as [|c l Hc Hl]; [done|]. by apply hex_digit_boundary.
Qed.

Lemma hex_decode_encode b : hex_decode (hex_encode b) = Ok b.
Proof.
  unfold hex_decode, get_to, get_from. rewrite hex_encode_boundary.
  change (take 2 (hex_encode b)) with str_0x. cbv [ok_or].
  rewrite bool_decide_eq_true_2 by done.
  change (default [] (Some (drop 2 (hex_encode b)))) with (hex_digits b).
  simpl. by rewrite hex_parse_digits.
Qed.

Lemma x78_not_hex : ~ is_hex_digit x78.
Proof. unfold is_hex_digit. change (byte_to_Z x78) with 120. lia. Qed.

(** Hex digits never look like another prefix. *)
Lemma trim_0x_digits l : Forall is_hex_digit l -> trim_0x l = l.
Proof.
  intros Hl. destruct Hl as [|a l Ha Hl]; [done|].
  destruct Hl as [|c l Hc Hl]; [by destruct a|].
  destruct a; try reflexivity. destruct c; try reflexivity.
  by destruct x78_not_hex.
Qed.

Lemma trim_0x_hex_encode b : trim_0x (hex_encode b) = hex_digits b.
Proof. unfold hex_encode, str_0x. simpl. apply trim_0x_digits, hex_digits_range. Qed.

Lemma digits_no_prefix b : starts_with str_0x (hex_digits b) = false.
Proof.
  apply bool_decide_eq_false_2. intros Heq.
  destruct (hex_digits_range b) as [|x l Hx [|y l' Hy _]]; simpl in Heq; try done.
  injection Heq as -> ->. by destruct x78_not_hex.
Qed.

End Lemmas.

(** ** Properties *)

(** [hex_decode] inverts [hex_encode]; it rejects with [NoPrefix] every string
    too short for the prefix (or cut inside a character) and with [WrongPrefix]
    every string that starts otherwise, and a stored key, which is
    [hex_encode] with its prefix trimmed, decodes once the prefix is put back. *)
Theorem hex_roundtrip `{HexLibOk} b s :
  hex_decode (hex_encode b) = Ok b /\
  hex_decode (str_0x ++ trim_0x (hex_encode b)) = Ok b /\
  ((length s < 2)%nat -> hex_decode s = Err (NoPrefix s)) /\
  (is_char_boundary s 2 = true -> take 2 s <> str_0x -> hex_decode s = Err (WrongPrefix (take 2 s))).
Proof.
  split_and!.
  - apply hex_decode_encode.
  - rewrite trim_0x_hex_encode. apply hex_decode_encode.
  - intros Hs. unfold hex_decode, get_to, is_char_boundary.
    rewrite lookup_ge_None_2 by lia.
    by destruct (Nat.eqb_spec 2 (length s)); [lia|].
  - intros Hb Hp. unfold hex_decode, get_to. rewrite Hb. cbv [ok_or].
    by rewrite bool_decide_eq_false_2.
Qed.

(** ** A concrete hex crate, for the witnesses *)

Definition toy_nibble (z : Z) : byte :=
  byte_of_Z (if z <? 10 then 0x30 + z else 0x57 + z).
Definition toy_unnibble (c : byte) : Z :=
  let z := byte_to_Z c in if z <? 0x40 then z - 0x30 else z - 0x57.

Fixpoint toy_parse (s : bytes) : bytes :=
  match s with
  | a :: b :: t => byte_of_Z (16 * toy_unnibble a + toy_unnibble b) :: toy_parse t
  | _ => []
  end.

Fixpoint toy_hex_digits (b : bytes) : bytes :=
  match b with
  | [] => []
  | c :: t => toy_nibble (byte_to_Z c / 16) :: toy_nibble (byte_to_Z c mod 16) :: toy_hex_digits t
  end.

Definition toy_hex : HexLib := {|
  hex_digits := toy_hex_digits;
  hex_digits_upper := toy_hex_digits;
  hex_parse s := Some (toy_parse s)
|}.

Lemma byte_to_nibble z :
  0 <= z < 16 -> byte_to_Z (toy_nibble z) = if z <? 10 then 0x30 + z else 0x57 + z.
Proof.
  intros Hz. unfold toy_nibble. rewrite byte_to_of_Z. apply Z.mod_small.
  destruct (z <? 10); lia.
Qed.

Lemma toy_unnibble_nibble z : 0 <= z < 16 -> toy_unnibble (toy_nibble z) = z.
Proof.
  intros Hz. unfold toy_unnibble. rewrite byte_to_nibble by done.
  destruct (z <? 10) eqn:E; b2p; case_goal; b2p; lia.
Qed.

Lemma toy_hex_ok : HexLibOk toy_hex.
Proof.
  assert (Hn : forall c, 0 <= byte_to_Z c / 16 < 16 /\ 0 <= byte_to_Z c mod 16 < 16).
  { intros c. pose proof (byte_to_Z_range c). split; [|apply Z.mod_pos_bound; lia].
    split; [apply Z.div_pos | apply Z.div_lt_upper_bound]; lia. }
  assert (Hd : forall z, 0 <= z < 16 -> is_hex_digit (toy_nibble z)).
  { intros z Hz. unfold is_hex_digit. rewrite byte_to_nibble by done.
    destruct (z <? 10) eqn:E; b2p; lia. }
  constructor; cbn [hex_digits hex_parse toy_hex].
  - intros b. induction b as [|c b IH]; [done|].
    simpl in *. lia.
  - intros b. induction b as [|c b IH]; [constructor|].
    destruct (Hn c). simpl. auto.
  - intros b. f_equal. induction b as [|c b IH]; [done|].
    destruct (Hn c). simpl. rewrite IH.
    rewrite !toy_unnibble_nibble by done. f_equal.
    rewrite <- Z.div_mod by lia. apply byte_of_to_Z.
Qed.

Lemma hex_roundtrip_witness :
  @hex_decode toy_hex (@hex_encode toy_hex [xb0; x0f]) = Ok [xb0; x0f] /\
  @hex_decode toy_hex [x62; x30] = Err (WrongPrefix [x62; x30]).
Proof.
  split.
  - apply (hex_roundtrip (H := toy_hex_ok) [xb0; x0f] []).
  - apply (hex_roundtrip (H := toy_hex_ok) [] [x62; x30]); [reflexivity | discriminate].
Defined.
