(* ===== verification/Accumulator.v ===== *)
(** * The master accumulator.

    Models [trin-validation/src/accumulator.rs] (with the types of
    [ethportal-api/src/types/execution/accumulator.rs] and the proof types of
    [execution/header.rs]).  The channel to the history network is an argument of the
    lookups, as in the code; the handler at its other end is that of [NetworkRpc].  The
    SSZ decoder of epoch accumulators and their tree hash are the class [EpochLib]. *)

From S2P Require Import Prelude.
From S2P Require Import Distance.
From S2P Require Import Merkle.
From S2P Require Import Header.
From S2P Require Import Hex.
Import MerkleTree.

Definition MERGE_BLOCK_NUMBER : Z := 15537393.
Definition EPOCH_SIZE : Z := 8192.

Record HeaderRecord := { block_hash : H256; total_difficulty : Z }.

(** [VariableList<HeaderRecord, U8192>]. *)
Abbreviation EpochAccumulator := (list HeaderRecord).

(** The [u256] as 32 little-endian bytes: [to_little_endian]. *)
Definition u256_le (z : Z) : bytes := Z_to_le 32 z.

Definition record_wf (r : HeaderRecord) : Prop :=
  is_b32 (block_hash r) /\ is_u256 (total_difficulty r).

(** What the channel to the history network delivers for a request: no receiver, a
    sender dropped without a response, an error message, or a JSON value, of which
    [as_str] is the string if it is one. *)
Inductive rpc_reply :=
| SendFailed
| NoResponse
| RpcError
| RpcValue (as_str : option bytes).

(** The sender [history_jsonrpc_tx], by what comes back for [RecursiveFindContent] of
    the epoch accumulator with this hash. *)
Abbreviation epoch_channel := (H256 -> rpc_reply).

Class EpochLib := {
  epoch_acc_from_ssz : bytes -> option EpochAccumulator;
  tree_hash_root : EpochAccumulator -> H256
}.

(** The SSZ hash tree root of a record, and of a list of records: the Merkle
    root of the record roots padded to 2^13, mixed with the length. *)
Definition record_root `{Eth2Hashing} (r : HeaderRecord) : H256 :=
  eth2_hash32_concat (block_hash r) (u256_le (total_difficulty r)).

Class EpochLibOk `{Eth2Hashing} (L : EpochLib) : Prop := {
  tree_hash_root_spec : forall acc, Z.of_nat (length acc) <= EPOCH_SIZE ->
    tree_hash_root acc
    = eth2_hash32_concat (spec_root 13 (record_root <$> acc)) (u256_le (Z.of_nat (length acc)))
}.

Inductive BlockHeaderProof :=
| ProofNone
| AccumulatorProof (proof : list H256).

(** The array type [[H256; 15]]. *)
Definition proof_wf (p : BlockHeaderProof) : Prop :=
  match p with
  | ProofNone => True
  | AccumulatorProof proof => length proof = 15%nat /\ Forall is_b32 proof
  end.

Record HeaderWithProof := { hwp_header : Header.t; hwp_proof : BlockHeaderProof }.

(** The [anyhow] messages of the file. *)
Inductive AccError :=
| PostMergeBlocksNotSupported
| InvalidProofTypePostMerge
| MissingProofPreMerge
| ProofValidationFailed
| ChannelSendError
| NoResponseFromNetwork
| NetworkRequestError
| InvalidEpochAccReceived
| EpochAccHexError (e : ByteUtilsError)
| UnableToProvePostMerge
| EpochAccHashMismatch
| BlockHashMismatch
| UnableToGenerateProof (e : MerkleTreeError)
| InvalidProofLength.

Module MasterAccumulator.

Record t := { historical_epochs : list H256 }.

Section Operations.
Context `{Eth2Hashing} `{RlpLib} `{HexLib} `{EpochLib}.

Definition height (self : t) : Z := MERGE_BLOCK_NUMBER.

Definition get_epoch_index_of_header (self : t) (header : Header.t) : Z :=
  Header.number header / EPOCH_SIZE.

Definition calculate_generalized_index (header : Header.t) : Z :=
  let hr_index := Header.number header mod EPOCH_SIZE in
  (EPOCH_SIZE * 2 * 2) + (hr_index * 2).

Definition lookup_epoch_acc (self : t) (epoch_hash : H256) (history_jsonrpc_tx : epoch_channel)
    : res AccError EpochAccumulator :=
  let? epoch_acc_ssz :=
    match history_jsonrpc_tx epoch_hash with
    | SendFailed => Err ChannelSendError
    | NoResponse => Err NoResponseFromNetwork
    | RpcError => Err NetworkRequestError
    | RpcValue v => Ok v
    end in
  let? epoch_acc_ssz := ok_or epoch_acc_ssz InvalidEpochAccReceived in
  let? epoch_acc_ssz := map_err EpochAccHexError (hex_decode epoch_acc_ssz) in
  ok_or (epoch_acc_from_ssz epoch_acc_ssz) InvalidEpochAccReceived.

Definition lookup_premerge_hash_by_number (self : t) (block_number : Z) (history_jsonrpc_tx : epoch_channel)
    : res AccError H256 :=
  if MERGE_BLOCK_NUMBER <? block_number then Err PostMergeBlocksNotSupported
  else
    let rel_index := block_number mod EPOCH_SIZE in
    let epoch_index := block_number / EPOCH_SIZE in
    let? epoch_hash := index (historical_epochs self) epoch_index in
    let? epoch_acc := lookup_epoch_acc self epoch_hash history_jsonrpc_tx in
    let? record := index epoch_acc rel_index in
    Ok (block_hash record).

Definition validate_header_with_proof (self : t) (hwp : HeaderWithProof) : res AccError unit :=
  match hwp_proof hwp with
  | AccumulatorProof val =>
      if MERGE_BLOCK_NUMBER <? Header.number (hwp_header hwp) then Err InvalidProofTypePostMerge
      else
        let gen_index := calculate_generalized_index (hwp_header hwp) in
        let epoch_index := get_epoch_index_of_header self (hwp_header hwp) in
        let? epoch_hash := index (historical_epochs self) epoch_index in
        let? ok := verify_merkle_proof (Header.hash (hwp_header hwp)) val 15 gen_index epoch_hash in
        if ok : bool then Ok tt else Err ProofValidationFailed
  | ProofNone =>
      if Header.number (hwp_header hwp) <=? MERGE_BLOCK_NUMBER then Err MissingProofPreMerge
      else Ok tt
  end.

(** The loop that flattens the records into leaves. *)
Fixpoint record_leaves (epoch_acc : EpochAccumulator) : list H256 :=
  match epoch_acc with
  | [] => []
  | record :: rest =>
      block_hash record :: u256_le (total_difficulty record) :: record_leaves rest
  end.

(** The literal pushed at the end of the proof: [0x0020] and 30 zero bytes. *)
Definition epoch_size_leaf : H256 := x00 :: x20 :: replicate 30 x00.

Definition construct_proof (header : Header.t) (epoch_acc : EpochAccumulator)
    : res AccError (list H256) :=
  let hr_index := Header.number header mod EPOCH_SIZE in
  let? header_record := index epoch_acc hr_index in
  if negb (bool_decide (block_hash header_record = Header.hash header)) then Err BlockHashMismatch
  else
    let leaves := record_leaves epoch_acc in
    let? merkle_tree := create leaves 14 in
    let hr_index := hr_index * 2 in
    let? (leaf, proof) :=
      map_err UnableToGenerateProof (generate_proof merkle_tree hr_index 14) in
    if negb (bool_decide (leaf = Header.hash header)) then Panic
    else
      let proof := proof ++ [epoch_size_leaf] in
      if (length proof =? 15)%nat then Ok proof else Err InvalidProofLength.

Definition generate_proof (self : t) (header : Header.t) (history_jsonrpc_tx : epoch_channel)
    : res AccError (list H256) :=
  if MERGE_BLOCK_NUMBER <? Header.number header then Err UnableToProvePostMerge
  else
    let epoch_index := get_epoch_index_of_header self header in
    let? epoch_hash := index (historical_epochs self) epoch_index in
    let? epoch_acc := lookup_epoch_acc self epoch_hash history_jsonrpc_tx in
    let epoch_index := get_epoch_index_of_header self header in
    let? epoch_hash := index (historical_epochs self) epoch_index in
    if negb (bool_decide (tree_hash_root epoch_acc = epoch_hash)) then Err EpochAccHashMismatch
    else construct_proof header epoch_acc.

(** The pairs of strings hashed when a proof of [header] is checked and when the epoch's
    tree is hashed: the 14 levels of the records, and the length at the top. *)
Definition header_pairs (header : Header.t) (proof : list H256) (acc : EpochAccumulator)
    : list (bytes * bytes) :=
  let i := Header.number header mod EPOCH_SIZE * 2 in
  let p := take 14 proof in
  proof_pairs 14 (record_leaves acc) (Header.hash header) p i
  ++ [(branch_loop (Header.hash header) p 0 i ++ concat (drop 14 proof),
       spec_root 14 (record_leaves acc) ++ u256_le EPOCH_SIZE)].

End Operations.

(** ** Lemmas *)

Section Lemmas.
Context `{HOk : Eth2HashingOk} `{ROk : RlpLibOk} `{HexLib} {L : EpochLib} {LOk : EpochLibOk L}.

Lemma length_record_leaves acc : length (record_leaves acc) = (2 * length acc)%nat.
Proof. induction acc; simpl; lia. Qed.

Lemma record_leaves_b32 acc : Forall record_wf acc -> Forall is_b32 (record_leaves acc).
Proof.
  induction 1 as [|r acc [Hr _] _ IH]; simpl; [constructor|].
  constructor; [done|]. constructor; [apply length_Z_to_le | done].
Qed.

Lemma record_roots_b32 acc : Forall is_b32 (record_root <$> acc).
Proof. induction acc; constructor; [apply concat_b32 | done]. Qed.

Lemma record_leaves_lookup acc i r :
  acc !! i = Some r -> record_leaves acc !! (2 * i)%nat = Some (block_hash r).
Proof.
  revert i. induction acc as [|r' acc IH]; intros i; [done|].
  destruct i as [|i]; [by intros [= ->]|].
  replace (2 * S i)%nat with (S (S (2 * i))) by lia. apply IH.
Qed.

Lemma take_record_leaves n acc : take (2 * n) (record_leaves acc) = record_leaves (take n acc).
Proof.
  revert n. induction acc as [|r acc IH]; intros n; [cbn [record_leaves]; by rewrite !take_nil|].
  destruct n as [|n]; [done|].
  replace (2 * S n)%nat with (S (S (2 * n))) by lia.
  cbn [record_leaves firstn]. by rewrite IH.
Qed.

Lemma drop_record_leaves n acc : drop (2 * n) (record_leaves acc) = record_leaves (drop n acc).
Proof.
  revert n. induction acc as [|r acc IH]; intros n; [cbn [record_leaves]; by rewrite !drop_nil|].
  destruct n as [|n]; [done|].
  replace (2 * S n)%nat with (S (S (2 * n))) by lia.
  cbn [record_leaves skipn]. by rewrite IH.
Qed.

(** For a full epoch, the leaves one level down have the same root. *)
Lemma spec_root_record_leaves d acc :
  length acc = (2 ^ d)%nat ->
  spec_root (S d) (record_leaves acc) = spec_root d (record_root <$> acc).
Proof.
  revert acc. induction d as [|d IH]; intros acc Hlen.
  - destruct acc as [|r [|]]; done.
  - change (spec_root (S (S d)) (record_leaves acc))
      with (eth2_hash32_concat (spec_root (S d) (take (2 ^ S d) (record_leaves acc)))
              (spec_root (S d) (drop (2 ^ S d) (record_leaves acc)))).
    change (2 ^ S d)%nat with (2 * 2 ^ d)%nat in *.
    rewrite take_record_leaves, drop_record_leaves, !IH
      by (rewrite ?length_take, ?length_drop; lia).
    cbn [spec_root]. by rewrite fmap_take, fmap_drop.
Qed.

Lemma epoch_size_leaf_le : epoch_size_leaf = u256_le EPOCH_SIZE.
Proof. vm_compute. reflexivity. Qed.

Lemma u256_le_inj a b : is_u256 a -> is_u256 b -> u256_le a = u256_le b -> a = b.
Proof.
  unfold is_u256. intros Ha Hb E. apply (f_equal le_to_Z) in E. unfold u256_le in E.
  rewrite !le_to_Z_to_le in E by lia.
  change (256 ^ Z.of_nat 32) with U256_MOD in E. by rewrite !Z.mod_small in E by done.
Qed.

Lemma header_hash_b32 h : is_b32 (Header.hash h).
Proof. apply keccak_length. Qed.

Lemma index_lookup {E A} (l : list A) i x :
  0 <= i -> l !! Z.to_nat i = Some x -> @index E A l i = Ok x.
Proof. intros Hi Hx. unfold index. rewrite Hx. by destruct (Z.ltb_spec i 0); [lia|]. Qed.

Lemma index_ok_inv {E A} (l : list A) i x :
  @index E A l i = Ok x -> 0 <= i /\ l !! Z.to_nat i = Some x.
Proof.
  unfold index. destruct (Z.ltb_spec i 0); [done|].
  destruct (l !! Z.to_nat i) eqn:El; [|done]. intros [= <-]. auto.
Qed.

(** The low 14 bits of the generalized index are twice the record index, bit 14
    is clear: the record tree is on the left of the length. *)
Lemma gen_index_bits h :
  0 <= Header.number h ->
  Z.testbit (calculate_generalized_index h) 14 = false /\
  (forall k, 0 <= k < 14 -> Z.testbit (calculate_generalized_index h) k
     = Z.testbit (Header.number h mod EPOCH_SIZE * 2) k).
Proof.
  intros Hn. unfold calculate_generalized_index.
  change (EPOCH_SIZE * 2 * 2) with (1 * 2 ^ 15).
  pose proof (Z.mod_pos_bound (Header.number h) EPOCH_SIZE eq_refl) as Hm.
  unfold EPOCH_SIZE in *. set (x := Header.number h mod 8192 * 2) in *.
  assert (Hlow : forall k, 0 <= k < 15 -> Z.testbit (1 * 2 ^ 15 + x) k = Z.testbit x k).
  { intros k Hk. rewrite <- (Z.mod_pow2_bits_low _ 15) by lia.
    rewrite Z.add_comm, Z.mod_add, Z.mod_pow2_bits_low by lia. done. }
  split; [|intros k Hk; apply Hlow; lia].
  rewrite Hlow by lia. rewrite <- (Z.mod_small x (2 ^ 14)) by (unfold x; lia).
  by apply Z.mod_pow2_bits_high.
Qed.

(** The verification loop only reads the bits below the branch length. *)
Lemma branch_loop_ext leaf branch k i j :
  (forall b, Z.of_nat k <= b < Z.of_nat (k + length branch) -> Z.testbit i b = Z.testbit j b) ->
  branch_loop leaf branch k i = branch_loop leaf branch k j.
Proof.
  revert leaf k. induction branch as [|x br IH]; intros leaf k Hb; [done|]. simpl in *.
  rewrite !land_1_testbit, (Hb (Z.of_nat k)) by lia.
  apply IH. intros b Hb'. apply Hb. lia.
Qed.

(** Verification over 15 levels is verification over 14, then the length. *)
Lemma branch_loop_epoch h leaf p x :
  0 <= Header.number h -> length p = 14%nat ->
  branch_loop leaf (p ++ [x]) 0 (calculate_generalized_index h)
  = eth2_hash32_concat (branch_loop leaf p 0 (Header.number h mod EPOCH_SIZE * 2)) x.
Proof.
  intros Hn Hp. destruct (gen_index_bits h Hn) as [H14 Hlow].
  rewrite branch_loop_app, Hp. change (Z.of_nat (0 + 14)) with 14. rewrite H14.
  f_equal. apply branch_loop_ext. rewrite Hp. intros b Hb. apply Hlow. lia.
Qed.

(** Validation of a pre-merge header, unfolded. *)
Lemma validate_pre_merge self h proof epoch_hash :
  Header.number h <= MERGE_BLOCK_NUMBER -> 0 <= Header.number h ->
  historical_epochs self !! Z.to_nat (Header.number h / EPOCH_SIZE) = Some epoch_hash ->
  validate_header_with_proof self {| hwp_header := h; hwp_proof := AccumulatorProof proof |}
  = if (length proof =? 15)%nat
       && bool_decide (branch_loop (Header.hash h) proof 0 (calculate_generalized_index h) = epoch_hash)
    then Ok tt else Err ProofValidationFailed.
Proof.
  intros Hm Hn He. unfold validate_header_with_proof, get_epoch_index_of_header. simpl.
  rewrite (proj2 (Z.ltb_ge _ _)) by lia.
  erewrite index_lookup; [|apply Z.div_pos; [done|reflexivity]|exact He].
  rewrite verify_unfold by apply header_hash_b32. done.
Qed.

(** What [construct_proof] returns: the path in the 14-level tree, then the
    epoch size. *)
Lemma construct_proof_ok h acc r :
  0 <= Header.number h -> Forall record_wf acc ->
  acc !! Z.to_nat (Header.number h mod EPOCH_SIZE) = Some r ->
  block_hash r = Header.hash h ->
  let i := Header.number h mod EPOCH_SIZE * 2 in
  construct_proof h acc
    = Ok (reverse (spec_path 14 (record_leaves acc) i) ++ [epoch_size_leaf])
  /\ spec_leaf 14 (record_leaves acc) i = Header.hash h.
Proof.
  intros Hn Hwf Hr Hh i.
  pose proof (Z.mod_pos_bound (Header.number h) EPOCH_SIZE eq_refl) as Hm.
  assert (Hleaf : spec_leaf 14 (record_leaves acc) i = Header.hash h).
  { rewrite spec_leaf_lookup by (unfold i, EPOCH_SIZE in *; lia).
    replace (Z.to_nat i) with (2 * Z.to_nat (Header.number h mod EPOCH_SIZE))%nat by (unfold i; lia).
    by rewrite (record_leaves_lookup _ _ _ Hr), Hh. }
  split; [|done]. unfold construct_proof.
  erewrite index_lookup; [|lia|exact Hr].
  rewrite (bool_decide_eq_true_2 _ Hh). cbn [negb].
  pose proof (record_leaves_b32 _ Hwf) as Hb.
  rewrite create_build by (done || lia). unfold MerkleTree.generate_proof.
  destruct (proof_loop_build 14 (record_leaves acc) i []) as (node & Hl & Hnode); [lia|done|].
  fold i. rewrite Hl. cbv iota beta. rewrite Hnode, Hleaf. cbn [map_err].
  rewrite bool_decide_eq_true_2 by done. cbn [negb].
  by rewrite app_nil_l, length_app, length_reverse, length_spec_path.
Qed.

(** Where the constructed proof leads the verifier. *)
Lemma construct_proof_root h acc :
  0 <= Header.number h ->
  let i := Header.number h mod EPOCH_SIZE * 2 in
  branch_loop (spec_leaf 14 (record_leaves acc) i)
    (reverse (spec_path 14 (record_leaves acc) i) ++ [epoch_size_leaf]) 0
    (calculate_generalized_index h)
  = eth2_hash32_concat (spec_root 14 (record_leaves acc)) (u256_le EPOCH_SIZE).
Proof.
  intros Hn i. rewrite branch_loop_epoch; [|done|by rewrite length_reverse, length_spec_path].
  fold i. by rewrite branch_loop_path, epoch_size_leaf_le.
Qed.

(** The constructed proof of a complete epoch validates. *)
Lemma constructed_proof_accepted self h acc r :
  0 <= Header.number h <= MERGE_BLOCK_NUMBER ->
  Z.of_nat (length acc) = EPOCH_SIZE -> Forall record_wf acc ->
  historical_epochs self !! Z.to_nat (Header.number h / EPOCH_SIZE) = Some (tree_hash_root acc) ->
  acc !! Z.to_nat (Header.number h mod EPOCH_SIZE) = Some r ->
  block_hash r = Header.hash h ->
  validate_header_with_proof self
    {| hwp_header := h;
       hwp_proof := AccumulatorProof
         (reverse (spec_path 14 (record_leaves acc) (Header.number h mod EPOCH_SIZE * 2))
          ++ [epoch_size_leaf]) |} = Ok tt.
Proof.
  intros Hn Hlen Hwf He Hr Hh.
  assert (Hlen' : length acc = (2 ^ 13)%nat) by (change (2 ^ 13)%nat with (Z.to_nat EPOCH_SIZE); lia).
  destruct (construct_proof_ok h acc r) as [_ Hleaf]; [lia|done..|].
  rewrite (validate_pre_merge self h _ _) with (1 := proj2 Hn) (2 := proj1 Hn) (3 := He).
  rewrite length_app, length_reverse, length_spec_path, <- Hleaf, construct_proof_root by lia.
  rewrite tree_hash_root_spec, spec_root_record_leaves, Hlen by (done || lia).
  by rewrite bool_decide_eq_true_2.
Qed.

(** The proof that is constructed has the type of the array. *)
Lemma constructed_proof_wf acc i :
  Forall record_wf acc ->
  proof_wf (AccumulatorProof (reverse (spec_path 14 (record_leaves acc) i) ++ [epoch_size_leaf])).
Proof.
  intros Hwf. split; [by rewrite length_app, length_reverse, length_spec_path|].
  apply Forall_app. split; [|repeat constructor]. apply Forall_reverse, spec_path_b32. by apply record_leaves_b32.
Qed.

(** Accepted headers are canonical. *)
Lemma accepted_header_canonical self header proof acc record :
  0 <= Header.number header <= MERGE_BLOCK_NUMBER ->
  Z.of_nat (length acc) = EPOCH_SIZE -> Forall record_wf acc ->
  proof_wf (AccumulatorProof proof) ->
  historical_epochs self !! Z.to_nat (Header.number header / EPOCH_SIZE)
    = Some (tree_hash_root acc) ->
  acc !! Z.to_nat (Header.number header mod EPOCH_SIZE) = Some record ->
  validate_header_with_proof self
    {| hwp_header := header; hwp_proof := AccumulatorProof proof |} = Ok tt ->
  Header.hash header = block_hash record \/ collides eth2_hash (header_pairs header proof acc).
Proof.
  intros Hn Hlen Hwf [Hp15 Hpwf] He Hr Hv.
  assert (Hlen' : length acc = (2 ^ 13)%nat) by (change (2 ^ 13)%nat with (Z.to_nat EPOCH_SIZE); lia).
  pose proof (Z.mod_pos_bound (Header.number header) EPOCH_SIZE eq_refl) as Hm.
  rewrite (validate_pre_merge self header _ _) with (1 := proj2 Hn) (2 := proj1 Hn) (3 := He) in Hv.
  destruct (_ && _) eqn:E; [|done]. apply andb_true_iff in E as [_ E%bool_decide_eq_true_1].
  destruct (exists_last (l := proof)) as (p & x & ->); [by destruct proof|].
  rewrite length_app in Hp15. simpl in Hp15. assert (Hp : length p = 14%nat) by lia.
  apply Forall_app in Hpwf as [Hpwf _].
  unfold header_pairs. rewrite take_app_length', drop_app_length', collides_app by done. cbn [concat].
  rewrite branch_loop_epoch in E by lia.
  rewrite tree_hash_root_spec, <- spec_root_record_leaves, Hlen in E by (done || lia).
  pose proof (record_leaves_b32 _ Hwf) as Hb.
  apply concat_inj in E as [[E _]|?];
    [|by rewrite app_nil_r; auto|by rewrite (branch_loop_b32 _ p 0 _ (header_hash_b32 header)), (spec_root_b32 14 _ Hb)].
  apply branch_sound in E as [E|?]; [|by auto|done|apply header_hash_b32|done|done].
  left. rewrite E, spec_leaf_lookup by (unfold EPOCH_SIZE in *; lia).
  replace (Z.to_nat (Header.number header mod EPOCH_SIZE * 2))
    with (2 * Z.to_nat (Header.number header mod EPOCH_SIZE))%nat by lia.
  by rewrite (record_leaves_lookup _ _ _ Hr).
Qed.

(** A proof constructed from the epoch itself is not a collision. *)
Lemma constructed_pairs_ok header acc :
  let i := Header.number header mod EPOCH_SIZE * 2 in
  spec_leaf 14 (record_leaves acc) i = Header.hash header ->
  ~ collides eth2_hash
      (header_pairs header (reverse (spec_path 14 (record_leaves acc) i) ++ [epoch_size_leaf]) acc).
Proof.
  intros i Hl. unfold header_pairs. fold i.
  rewrite take_app_length', drop_app_length', <- Hl, branch_loop_path, collides_app
    by (by rewrite length_reverse, length_spec_path).
  intros [Hc|Hc]; [by apply honest_pairs in Hc|].
  apply Exists_cons in Hc as [[Hc _]|Hc%Exists_nil]; [|done]. apply Hc. cbn [fst snd concat].
  by rewrite app_nil_r, epoch_size_leaf_le.
Qed.

(** The string the code expects is read as the accumulator. *)
Lemma lookup_epoch_acc_ok self epoch_hash tx ssz acc `{!HexLibOk H1} :
  tx epoch_hash = RpcValue (Some (hex_encode ssz)) ->
  epoch_acc_from_ssz ssz = Some acc ->
  lookup_epoch_acc self epoch_hash tx = Ok acc.
Proof.
  intros Hr Hs. unfold lookup_epoch_acc. rewrite Hr. cbn [ok_or].
  rewrite hex_decode_encode. cbn [map_err]. by rewrite Hs.
Qed.

End Lemmas.

(** ** Properties *)

Section Properties.
Context `{HOk : Eth2HashingOk} `{ROk : RlpLibOk} {HX : HexLib} {XOk : HexLibOk HX} {L : EpochLib} {LOk : EpochLibOk L}.

(** C34: [construct_proof] and [validate_header_with_proof] agree.  For a header up to
    the merge that the complete epoch accumulator lists at its number, where the master
    accumulator records the tree hash of this epoch, [construct_proof] succeeds with 15
    hashes that [validate_header_with_proof] accepts with the header.  It accepts them
    with no other header of the same number either, unless one of the pairs of strings
    that the verification and the epoch's tree hash is a collision. *)
Theorem accumulator_proof_roundtrip self header acc record :
  0 <= Header.number header <= MERGE_BLOCK_NUMBER ->
  Z.of_nat (length acc) = EPOCH_SIZE -> Forall record_wf acc ->
  historical_epochs self !! Z.to_nat (Header.number header / EPOCH_SIZE)
    = Some (tree_hash_root acc) ->
  acc !! Z.to_nat (Header.number header mod EPOCH_SIZE) = Some record ->
  block_hash record = Header.hash header ->
  exists proof,
    construct_proof header acc = Ok proof /\
    length proof = 15%nat /\
    validate_header_with_proof self
      {| hwp_header := header; hwp_proof := AccumulatorProof proof |} = Ok tt /\
    forall header', Header.number header' = Header.number header ->
      validate_header_with_proof self
        {| hwp_header := header'; hwp_proof := AccumulatorProof proof |} = Ok tt ->
      Header.hash header' = Header.hash header \/ collides eth2_hash (header_pairs header' proof acc).
Proof.
  intros Hn Hlen Hwf He Hr Hh.
  destruct (construct_proof_ok header acc record) as [Hc _]; [lia|done..|].
  eexists. split_and!; [exact Hc| |by apply (constructed_proof_accepted self header acc record)|].
  - by rewrite length_app, length_reverse, length_spec_path.
  - intros header' Hn' Hv. rewrite <- Hh. rewrite <- Hn' in *.
    apply (accepted_header_canonical self); try done. by apply constructed_proof_wf.
Qed.

(** Over a channel that answers with a JSON string, [generate_proof] constructs that
    proof (the handler of the history network answers otherwise: [NetworkRpc]). *)
Theorem generate_proof_string_reply self header tx ssz acc record :
  0 <= Header.number header <= MERGE_BLOCK_NUMBER ->
  historical_epochs self !! Z.to_nat (Header.number header / EPOCH_SIZE)
    = Some (tree_hash_root acc) ->
  tx (tree_hash_root acc) = RpcValue (Some (hex_encode ssz)) ->
  epoch_acc_from_ssz ssz = Some acc ->
  acc !! Z.to_nat (Header.number header mod EPOCH_SIZE) = Some record ->
  generate_proof self header tx = construct_proof header acc.
Proof.
  intros Hn He Hnet Hssz Hr. unfold generate_proof, get_epoch_index_of_header.
  rewrite (proj2 (Z.ltb_ge _ _)) by lia.
  erewrite index_lookup; [|apply Z.div_pos; [lia|reflexivity]|exact He].
  rewrite (lookup_epoch_acc_ok self _ tx ssz acc) by done.
  by rewrite bool_decide_eq_true_2 by done.
Qed.

(** Over a channel that never answers with a JSON string, nothing is found: up to the
    merge [generate_proof] and [lookup_premerge_hash_by_number] return no value. *)
Lemma no_string_no_epoch self epoch_hash tx :
  (forall h s, tx h <> RpcValue (Some s)) ->
  lookup_epoch_acc self epoch_hash tx ∈ [Err ChannelSendError; Err NoResponseFromNetwork; Err NetworkRequestError;
    Err InvalidEpochAccReceived].
Proof.
  intros Htx. unfold lookup_epoch_acc. specialize (Htx epoch_hash).
  destruct (tx epoch_hash) as [| | |[s|]]; [..|by destruct (Htx s)|]; rewrite !elem_of_cons; auto.
Qed.

Lemma no_string_no_proof self header tx :
  (forall h s, tx h <> RpcValue (Some s)) -> forall proof, generate_proof self header tx <> Ok proof.
Proof.
  intros Htx proof. unfold generate_proof. case_goal; [done|].
  destruct (index (historical_epochs self) _) as [eh| |]; [|done..].
  pose proof (no_string_no_epoch self eh tx Htx) as Hl.
  repeat (apply elem_of_cons in Hl as [->|Hl]; [done|]). by apply elem_of_nil in Hl.
Qed.

Lemma no_string_no_hash self n tx :
  (forall h s, tx h <> RpcValue (Some s)) -> forall h, lookup_premerge_hash_by_number self n tx <> Ok h.
Proof.
  intros Htx h. unfold lookup_premerge_hash_by_number. case_goal; [done|].
  destruct (index (historical_epochs self) _) as [eh| |]; [|done..].
  pose proof (no_string_no_epoch self eh tx Htx) as Hl.
  repeat (apply elem_of_cons in Hl as [->|Hl]; [done|]). by apply elem_of_nil in Hl.
Qed.

(** C8: canonicality.  A pre-merge header accepted by [validate_header_with_proof]
    is the block that the (complete) epoch accumulator recorded in the master
    accumulator lists at the header's number, unless one of the 15 pairs of strings
    hashed by the verification of the proof and by the epoch's tree along the path of
    the header is a collision ([header_pairs]). *)
Theorem accumulator_proof_sound self header proof acc record :
  0 <= Header.number header <= MERGE_BLOCK_NUMBER ->
  Z.of_nat (length acc) = EPOCH_SIZE -> Forall record_wf acc ->
  proof_wf (AccumulatorProof proof) ->
  historical_epochs self !! Z.to_nat (Header.number header / EPOCH_SIZE)
    = Some (tree_hash_root acc) ->
  acc !! Z.to_nat (Header.number header mod EPOCH_SIZE) = Some record ->
  validate_header_with_proof self
    {| hwp_header := header; hwp_proof := AccumulatorProof proof |} = Ok tt ->
  Header.hash header = block_hash record \/ collides eth2_hash (header_pairs header proof acc).
Proof. apply accepted_header_canonical. Qed.

(** for an epoch accumulator that is not complete, as the last pre-merge one
    is, the proof that [construct_proof] builds is rejected by
    [validate_header_with_proof] against that accumulator's own tree hash
    (unless the two strings at the root collide): the proof ends in the constant 8192
    where the tree hash mixes in the actual length. *)
Theorem partial_epoch_proof_rejected self header acc record :
  0 <= Header.number header <= MERGE_BLOCK_NUMBER ->
  Z.of_nat (length acc) < EPOCH_SIZE -> Forall record_wf acc ->
  historical_epochs self !! Z.to_nat (Header.number header / EPOCH_SIZE)
    = Some (tree_hash_root acc) ->
  acc !! Z.to_nat (Header.number header mod EPOCH_SIZE) = Some record ->
  block_hash record = Header.hash header ->
  exists proof,
    construct_proof header acc = Ok proof /\
    (validate_header_with_proof self
       {| hwp_header := header; hwp_proof := AccumulatorProof proof |}
       = Err ProofValidationFailed
     \/ collides eth2_hash [(spec_root 14 (record_leaves acc) ++ u256_le EPOCH_SIZE,
                            spec_root 13 (record_root <$> acc) ++ u256_le (Z.of_nat (length acc)))]).
Proof.
  intros Hn Hlen Hwf He Hr Hh.
  destruct (construct_proof_ok header acc record) as [Hc Hleaf]; [lia|done..|].
  eexists. split; [exact Hc|].
  rewrite (validate_pre_merge self header _ _) with (1 := proj2 Hn) (2 := proj1 Hn) (3 := He).
  rewrite <- Hleaf, construct_proof_root, tree_hash_root_spec by lia.
  destruct (_ && _) eqn:E; [right | by left].
  apply andb_true_iff in E as [_ E%bool_decide_eq_true_1].
  pose proof (record_leaves_b32 _ Hwf) as Hb.
  apply concat_inj in E as [[_ E]|?]; [|done|].
  - exfalso. apply u256_le_inj in E; [lia|done|]. unfold is_u256, U256_MOD, EPOCH_SIZE in *. lia.
  - rewrite (spec_root_b32 14 _ Hb). symmetry. apply (spec_root_b32 13). apply record_roots_b32.
Qed.

(** the verdict of [validate_header_with_proof] on every branch: a header after
    the merge is accepted exactly without a proof, a header up to the merge is
    never accepted without one, and with a proof the check never panics when
    the master accumulator has all its epochs. *)
Theorem validate_header_cases self hwp :
  0 <= Header.number (hwp_header hwp) ->
  MERGE_BLOCK_NUMBER / EPOCH_SIZE < Z.of_nat (length (historical_epochs self)) ->
  match MERGE_BLOCK_NUMBER <? Header.number (hwp_header hwp), hwp_proof hwp with
  | true, ProofNone => validate_header_with_proof self hwp = Ok tt
  | true, AccumulatorProof _ => validate_header_with_proof self hwp = Err InvalidProofTypePostMerge
  | false, ProofNone => validate_header_with_proof self hwp = Err MissingProofPreMerge
  | false, AccumulatorProof _ =>
      validate_header_with_proof self hwp = Ok tt
      \/ validate_header_with_proof self hwp = Err ProofValidationFailed
  end.
Proof.
  destruct hwp as [h [|proof]]; simpl; intros Hn Hlen;
    destruct (MERGE_BLOCK_NUMBER <? Header.number h) eqn:E; b2p.
  - unfold validate_header_with_proof. simpl. by rewrite (proj2 (Z.leb_gt _ _)).
  - unfold validate_header_with_proof. simpl. by rewrite (proj2 (Z.leb_le _ _)).
  - unfold validate_header_with_proof. simpl. by rewrite (proj2 (Z.ltb_lt _ _)).
  - destruct (lookup_lt_is_Some_2 (historical_epochs self) (Z.to_nat (Header.number h / EPOCH_SIZE)))
      as [root Hroot].
    { assert (Header.number h / EPOCH_SIZE <= MERGE_BLOCK_NUMBER / EPOCH_SIZE)
        by (apply Z.div_le_mono; [reflexivity | lia]).
      assert (0 <= Header.number h / EPOCH_SIZE) by (apply Z.div_pos; [lia|reflexivity]). lia. }
    rewrite (validate_pre_merge self h proof root) by (done || lia).
    destruct (_ && _); auto.
Qed.

End Properties.
End MasterAccumulator.

(** ** Concrete parameters, for the witnesses *)

Import MasterAccumulator.

(** Block 5 of the chain. *)
Definition early_header : Header.t := {|
  Header.parent_hash := replicate 32 x01;
  Header.uncles_hash := replicate 32 x02;
  Header.author := replicate 20 x03;
  Header.state_root := replicate 32 x04;
  Header.transactions_root := replicate 32 x05;
  Header.receipts_root := replicate 32 x06;
  Header.logs_bloom := replicate 256 x00;
  Header.difficulty := 17171480576;
  Header.number := 5;
  Header.gas_limit := 5000;
  Header.gas_used := 0;
  Header.timestamp := 1438269988;
  Header.extra_data := [];
  Header.mix_hash := Some (replicate 32 x07);
  Header.nonce := Some (replicate 8 x08);
  Header.base_fee_per_gas := None;
  Header.withdrawals_root := None
|}.

Definition toy_record : HeaderRecord :=
  {| block_hash := @Header.hash toy_rlp early_header; total_difficulty := 85857402880 |}.

Lemma toy_record_wf : record_wf toy_record.
Proof.
  split; [apply (header_hash_b32 (ROk := toy_rlp_ok))|].
  split; [discriminate | reflexivity].
Qed.

(** An epoch of [n] copies of the record, and the libraries that serve it. *)
Definition toy_epoch (n : nat) : EpochAccumulator := replicate n toy_record.

Definition toy_epoch_lib (n : nat) : EpochLib := {|
  epoch_acc_from_ssz _ := Some (toy_epoch n);
  tree_hash_root acc :=
    @eth2_hash32_concat toy_hashing (@spec_root toy_hashing 13 (@record_root toy_hashing <$> acc))
      (u256_le (Z.of_nat (length acc)))
|}.

Lemma toy_epoch_lib_ok n : @EpochLibOk toy_hashing (toy_epoch_lib n).
Proof. constructor. done. Qed.

Lemma toy_epoch_wf n : Forall record_wf (toy_epoch n).
Proof. apply Forall_replicate, toy_record_wf. Qed.

Definition toy_master (n : nat) : MasterAccumulator.t :=
  {| historical_epochs := [@tree_hash_root (toy_epoch_lib n) (toy_epoch n)] |}.

Definition full_epoch : nat := Z.to_nat 8192.
Definition last_epoch : nat := Z.to_nat 5362.

Lemma toy_epoch_lookup n :
  (5 < n)%nat -> toy_epoch n !! Z.to_nat (Header.number early_header mod EPOCH_SIZE) = Some toy_record.
Proof. intros Hn. apply lookup_replicate. auto. Qed.

Lemma full_epoch_length : Z.of_nat (length (toy_epoch full_epoch)) = EPOCH_SIZE.
Proof. unfold toy_epoch. rewrite length_replicate. unfold full_epoch. rewrite Z2Nat.id; [reflexivity | lia]. Qed.

Lemma full_epoch_lookup :
  toy_epoch full_epoch !! Z.to_nat (Header.number early_header mod EPOCH_SIZE) = Some toy_record.
Proof. apply toy_epoch_lookup. unfold full_epoch. lia. Qed.

Lemma accumulator_proof_roundtrip_witness :
  exists proof,
    @construct_proof toy_hashing toy_rlp early_header (toy_epoch full_epoch) = Ok proof /\
    length proof = 15%nat /\
    @validate_header_with_proof toy_hashing toy_rlp (toy_master full_epoch)
      {| hwp_header := early_header; hwp_proof := AccumulatorProof proof |} = Ok tt.
Proof.
  destruct (accumulator_proof_roundtrip (HOk := toy_hashing_ok) (ROk := toy_rlp_ok)
    (LOk := toy_epoch_lib_ok full_epoch)
    (toy_master full_epoch) early_header (toy_epoch full_epoch) toy_record) as (proof & H1 & H2 & H3 & _).
  - split; [discriminate | discriminate].
  - exact full_epoch_length.
  - apply toy_epoch_wf.
  - reflexivity.
  - exact full_epoch_lookup.
  - reflexivity.
  - exists proof. split; [exact H1|]. split; [exact H2|exact H3].
Defined.

Lemma accumulator_proof_sound_witness :
  exists proof,
    @validate_header_with_proof toy_hashing toy_rlp (toy_master full_epoch)
      {| hwp_header := early_header; hwp_proof := AccumulatorProof proof |} = Ok tt /\
    ~ collides toy_digest (@header_pairs toy_hashing toy_rlp early_header proof (toy_epoch full_epoch)) /\
    @Header.hash toy_rlp early_header = block_hash toy_record.
Proof.
  destruct (construct_proof_ok (HOk := toy_hashing_ok) (R := toy_rlp) early_header (toy_epoch full_epoch) toy_record)
    as [_ Hleaf]; [discriminate | apply toy_epoch_wf | exact full_epoch_lookup | reflexivity |].
  set (proof := reverse (@spec_path toy_hashing 14 (record_leaves (toy_epoch full_epoch))
                           (Header.number early_header mod EPOCH_SIZE * 2)) ++ [epoch_size_leaf]).
  assert (Hc : ~ collides toy_digest (@header_pairs toy_hashing toy_rlp early_header proof (toy_epoch full_epoch)))
    by exact (constructed_pairs_ok (HOk := toy_hashing_ok) early_header (toy_epoch full_epoch) Hleaf).
  assert (Hp : proof_wf (AccumulatorProof proof))
    by exact (constructed_proof_wf (HOk := toy_hashing_ok) _ _ (toy_epoch_wf full_epoch)).
  assert (Hv : @validate_header_with_proof toy_hashing toy_rlp (toy_master full_epoch)
      {| hwp_header := early_header; hwp_proof := AccumulatorProof proof |} = Ok tt).
  { apply (constructed_proof_accepted (HOk := toy_hashing_ok) (ROk := toy_rlp_ok)
      (LOk := toy_epoch_lib_ok full_epoch) _ _ _ toy_record);
      [split; discriminate | exact full_epoch_length | apply toy_epoch_wf | reflexivity | exact full_epoch_lookup
      | reflexivity]. }
  exists proof. split; [exact Hv|]. split; [exact Hc|].
  destruct (accumulator_proof_sound (HOk := toy_hashing_ok) (ROk := toy_rlp_ok)
    (LOk := toy_epoch_lib_ok full_epoch)
    (toy_master full_epoch) early_header proof (toy_epoch full_epoch) toy_record) as [E|E];
    [split; discriminate | exact full_epoch_length | apply toy_epoch_wf | exact Hp | reflexivity
    | exact full_epoch_lookup | exact Hv | exact E | destruct (Hc E)].
Defined.

Lemma partial_epoch_proof_rejected_witness :
  exists proof,
    @construct_proof toy_hashing toy_rlp early_header (toy_epoch last_epoch) = Ok proof /\
    (@validate_header_with_proof toy_hashing toy_rlp (toy_master last_epoch)
       {| hwp_header := early_header; hwp_proof := AccumulatorProof proof |}
       = Err ProofValidationFailed
     \/ collides toy_digest
          [(@spec_root toy_hashing 14 (record_leaves (toy_epoch last_epoch)) ++ u256_le EPOCH_SIZE,
            @spec_root toy_hashing 13 (@record_root toy_hashing <$> toy_epoch last_epoch)
              ++ u256_le (Z.of_nat (length (toy_epoch last_epoch))))]).
Proof.
  apply (partial_epoch_proof_rejected (HOk := toy_hashing_ok) (ROk := toy_rlp_ok)
    (LOk := toy_epoch_lib_ok last_epoch)
    (toy_master last_epoch) early_header (toy_epoch last_epoch) toy_record).
  - split; discriminate.
  - unfold toy_epoch. rewrite length_replicate. unfold last_epoch. rewrite Z2Nat.id; [reflexivity | lia].
  - apply toy_epoch_wf.
  - reflexivity.
  - apply toy_epoch_lookup. unfold last_epoch. lia.
  - reflexivity.
Defined.

Lemma validate_header_cases_witness :
  @validate_header_with_proof toy_hashing toy_rlp
    {| historical_epochs := replicate (Z.to_nat 1897) (replicate 32 x00) |}
    {| hwp_header := early_header; hwp_proof := ProofNone |} = Err MissingProofPreMerge.
Proof.
  apply (validate_header_cases (HOk := toy_hashing_ok) (ROk := toy_rlp_ok)
    {| historical_epochs := replicate (Z.to_nat 1897) (replicate 32 x00) |}
    {| hwp_header := early_header; hwp_proof := ProofNone |}).
  - discriminate.
  - cbn [historical_epochs]. rewrite length_replicate, Z2Nat.id; [reflexivity | lia].
Defined.
