(* ===== verification/SafeArith.v ===== *)
(** * Checked arithmetic.

    Models [trin-validation/src/merkle/safe_arith.rs], generically over the ten
    built-in integer types it is instantiated at. *)

From S2P Require Import Prelude.

(** ** Built-in integers *)

Record IntTy := { bits : Z; signed : bool }.

(** The types of the [impl_safe_arith!] lines ([usize] and [isize] on a 64-bit
    target). *)
Definition int_types : list IntTy :=
  [ {| bits := 8; signed := false |}; {| bits := 16; signed := false |};
    {| bits := 32; signed := false |}; {| bits := 64; signed := false |};
    {| bits := 64; signed := false |};
    {| bits := 8; signed := true |}; {| bits := 16; signed := true |};
    {| bits := 32; signed := true |}; {| bits := 64; signed := true |};
    {| bits := 64; signed := true |} ].

Definition int_min (t : IntTy) : Z := if signed t then - 2 ^ (bits t - 1) else 0.
Definition int_max (t : IntTy) : Z := if signed t then 2 ^ (bits t - 1) - 1 else 2 ^ bits t - 1.
Definition in_range (t : IntTy) (z : Z) : bool := (int_min t <=? z) && (z <=? int_max t).

(** The value of the low bits, read at the type's signedness. *)
Definition wrap (t : IntTy) (z : Z) : Z := (z - int_min t) mod 2 ^ bits t + int_min t.

(** The standard library's [checked_*]. *)
Definition checked (t : IntTy) (z : Z) : option Z := if in_range t z then Some z else None.
Definition checked_add (t : IntTy) (a b : Z) : option Z := checked t (a + b).
Definition checked_sub (t : IntTy) (a b : Z) : option Z := checked t (a - b).
Definition checked_mul (t : IntTy) (a b : Z) : option Z := checked t (a * b).
Definition checked_div (t : IntTy) (a b : Z) : option Z :=
  if b =? 0 then None else checked t (Z.quot a b).
Definition checked_rem (t : IntTy) (a b : Z) : option Z :=
  if b =? 0 then None
  else if in_range t (Z.quot a b) then Some (Z.rem a b) else None.
Definition checked_shl (t : IntTy) (a n : Z) : option Z :=
  if n <? bits t then Some (wrap t (Z.shiftl a n)) else None.
Definition checked_shr (t : IntTy) (a n : Z) : option Z :=
  if n <? bits t then Some (Z.shiftr a n) else None.

(** ** The trait and its implementation *)

Module SafeArith.

Inductive ArithError := Overflow | DivisionByZero.

Definition safe_add (t : IntTy) (self other : Z) : res ArithError Z :=
  ok_or (checked_add t self other) Overflow.
Definition safe_sub (t : IntTy) (self other : Z) : res ArithError Z :=
  ok_or (checked_sub t self other) Overflow.
Definition safe_mul (t : IntTy) (self other : Z) : res ArithError Z :=
  ok_or (checked_mul t self other) Overflow.
Definition safe_div (t : IntTy) (self other : Z) : res ArithError Z :=
  ok_or (checked_div t self other) DivisionByZero.
Definition safe_rem (t : IntTy) (self other : Z) : res ArithError Z :=
  ok_or (checked_rem t self other) DivisionByZero.
Definition safe_shl (t : IntTy) (self other : Z) : res ArithError Z :=
  ok_or (checked_shl t self other) Overflow.
Definition safe_shr (t : IntTy) (self other : Z) : res ArithError Z :=
  ok_or (checked_shr t self other) Overflow.

(** [assign_method!]: [*self = self.op(other)?; Ok(())]. *)
Definition assign (op : Z -> Z -> res ArithError Z) (self other : Z)
    : Z * res ArithError unit :=
  match op self other with
  | Ok v => (v, Ok tt)
  | Err e => (self, Err e)
  | Panic => (self, Panic)
  end.

Definition safe_add_assign (t : IntTy) := assign (safe_add t).
Definition safe_sub_assign (t : IntTy) := assign (safe_sub t).
Definition safe_mul_assign (t : IntTy) := assign (safe_mul t).
Definition safe_div_assign (t : IntTy) := assign (safe_div t).
Definition safe_rem_assign (t : IntTy) := assign (safe_rem t).
Definition safe_shl_assign (t : IntTy) := assign (safe_shl t).
Definition safe_shr_assign (t : IntTy) := assign (safe_shr t).

(** [self.try_fold(T::ZERO, |acc, x| acc.safe_add(x))]. *)
Fixpoint safe_sum_from (t : IntTy) (acc : Z) (l : list Z) : res ArithError Z :=
  match l with
  | [] => Ok acc
  | x :: rest =>
      let? acc := safe_add t acc x in
      safe_sum_from t acc rest
  end.

Definition safe_sum (t : IntTy) (l : list Z) : res ArithError Z := safe_sum_from t 0 l.

(** ** Lemmas *)

Lemma in_range_spec t z : in_range t z = true <-> int_min t <= z <= int_max t.
Proof. unfold in_range. rewrite andb_true_iff, !Z.leb_le. lia. Qed.

Lemma checked_spec t z e :
  ok_or (checked t z) e = if in_range t z then Ok z else (Err e : res ArithError Z).
Proof. unfold checked. by destruct (in_range t z). Qed.

Lemma safe_sum_from_unsigned t acc l :
  signed t = false -> in_range t acc = true -> Forall (fun x => 0 <= x) l ->
  safe_sum_from t acc l
  = if in_range t (foldr Z.add acc l) then Ok (foldr Z.add acc l) else Err Overflow.
Proof.
  intros Hs. revert acc. induction l as [|x l IH]; intros acc Ha Hl; simpl.
  { by rewrite Ha. }
  apply Forall_cons in Hl as [Hx Hl]. unfold safe_add, checked_add. rewrite checked_spec.
  assert (Hfold : forall a b, foldr Z.add (a + b) l = b + foldr Z.add a l).
  { intros a b. clear -l. induction l; simpl; lia. }
  assert (Hge : acc <= foldr Z.add acc l).
  { clear -Hl. induction Hl; simpl; lia. }
  rewrite in_range_spec in Ha. unfold int_min in Ha. rewrite Hs in Ha.
  destruct (in_range t (acc + x)) eqn:E.
  - rewrite IH, Hfold by done. done.
  - destruct (in_range t (x + foldr Z.add acc l)) eqn:E'; [|done].
    exfalso. apply not_true_iff_false in E. rewrite in_range_spec in *.
    unfold int_min in *. rewrite Hs in *. lia.
Qed.

(** ** Properties *)

(** on every built-in type, [safe_add], [safe_sub] and [safe_mul] return the
    exact result when it is representable and [Overflow] otherwise; [safe_div]
    and [safe_rem] return the truncated quotient and remainder, which satisfy
    the division equation, whenever the divisor is not zero and the quotient is
    representable; and an assigning method that fails leaves its operand. *)
Theorem safe_arith_exact t a b :
  t ∈ int_types -> in_range t a = true -> in_range t b = true ->
  safe_add t a b = (if in_range t (a + b) then Ok (a + b) else Err Overflow) /\
  safe_sub t a b = (if in_range t (a - b) then Ok (a - b) else Err Overflow) /\
  safe_mul t a b = (if in_range t (a * b) then Ok (a * b) else Err Overflow) /\
  (safe_div t a 0 = Err DivisionByZero /\ safe_rem t a 0 = Err DivisionByZero) /\
  (b <> 0 -> (b <> -1 \/ a <> int_min t) ->
     exists q r, safe_div t a b = Ok q /\ safe_rem t a b = Ok r /\
       a = b * q + r /\ Z.abs r < Z.abs b /\ in_range t q = true) /\
  (safe_add_assign t a b = (a, Err Overflow) <-> in_range t (a + b) = false).
Proof.
  intros Ht Ha Hb. unfold safe_add, safe_sub, safe_mul, checked_add, checked_sub, checked_mul.
  rewrite !checked_spec. split_and!; try done.
  - intros Hb0 Hcase. rewrite in_range_spec in Ha, Hb.
    assert (Hq : in_range t (Z.quot a b) = true).
    { rewrite in_range_spec.
      pose proof (Z.quot_rem' a b). pose proof (Z.rem_bound_abs a b Hb0).
      assert (Habs : Z.abs (Z.quot a b) <= Z.abs a) by nia.
      unfold int_min, int_max in *. destruct (signed t); [|split; [|nia]].
      - destruct (decide (b = -1)) as [->|]; nia.
      - apply Z.quot_pos; lia. }
    exists (Z.quot a b), (Z.rem a b). unfold safe_div, safe_rem, checked_div, checked_rem, checked.
    rewrite (proj2 (Z.eqb_neq _ _) Hb0), Hq. split_and!; try done.
    + apply Z.quot_rem'.
    + by apply Z.rem_bound_abs.
  - unfold safe_add_assign, assign, safe_add, checked_add. rewrite checked_spec.
    by destruct (in_range t (a + b)).
Qed.

(** [safe_sum] over an unsigned type is the exact sum, or [Overflow] exactly
    when the sum is not representable: no partial sum fails early. *)
Theorem safe_sum_unsigned t l :
  t ∈ int_types -> signed t = false -> Forall (fun x => in_range t x = true) l ->
  safe_sum t l
  = if in_range t (foldr Z.add 0 l) then Ok (foldr Z.add 0 l) else Err Overflow.
Proof.
  intros Ht Hs Hl. apply safe_sum_from_unsigned; [done| |].
  - apply in_range_spec. unfold int_min, int_max. rewrite Hs.
    assert (0 <= bits t) by (repeat (apply elem_of_cons in Ht as [->|Ht]; [done|]); by apply elem_of_nil in Ht).
    pose proof (Z.pow_pos_nonneg 2 (bits t)). lia.
  - eapply Forall_impl; [exact Hl|]. simpl. intros x Hx. apply in_range_spec in Hx.
    unfold int_min in Hx. rewrite Hs in Hx. lia.
Qed.

(** despite its description, [safe_shl] does not guard against overflow of the
    value: it fails only on a shift amount of at least the width, and otherwise
    silently drops the bits shifted out. *)
Theorem safe_shl_drops_bits t a n :
  t ∈ int_types -> 0 <= n ->
  (safe_shl t a n = Err Overflow <-> bits t <= n) /\
  (n < bits t -> safe_shl t a n = Ok (wrap t (a * 2 ^ n))) /\
  safe_shl {| bits := 8; signed := false |} 200 1 = Ok 144.
Proof.
  intros _ Hn. unfold safe_shl, checked_shl. rewrite <- Z.shiftl_mul_pow2 by done. split_and!.
  - destruct (Z.ltb_spec n (bits t)); split; try done; lia.
  - intros Hlt. by rewrite (proj2 (Z.ltb_lt _ _) Hlt).
  - reflexivity.
Qed.

End SafeArith.

(** ** Witnesses *)

Definition u8 : IntTy := {| bits := 8; signed := false |}.
Definition i8 : IntTy := {| bits := 8; signed := true |}.

Lemma safe_arith_exact_witness :
  exists q r, SafeArith.safe_div i8 (-7) 2 = Ok q /\ SafeArith.safe_rem i8 (-7) 2 = Ok r /\
    -7 = 2 * q + r /\ Z.abs r < Z.abs 2 /\ in_range i8 q = true.
Proof.
  apply (SafeArith.safe_arith_exact i8 (-7) 2);
    [ unfold int_types, i8; repeat (apply list_elem_of_here || apply list_elem_of_further)
    | reflexivity | reflexivity | discriminate | left; discriminate ].
Defined.

Lemma safe_sum_unsigned_witness :
  SafeArith.safe_sum u8 [100; 100; 50] = Ok 250.
Proof.
  rewrite (SafeArith.safe_sum_unsigned u8 [100; 100; 50]);
    [ reflexivity | apply list_elem_of_here | reflexivity | repeat constructor ].
Defined.

Lemma safe_shl_drops_bits_witness : SafeArith.safe_shl u8 129 1 = Ok 2.
Proof.
  apply (SafeArith.safe_shl_drops_bits u8 129 1); [apply list_elem_of_here | lia | reflexivity].
Defined.
