(* ===== verification/ContentKey.v ===== *)
(** * Content keys.

    [ethportal-api/src/types/content_key/]: the keys of the history, beacon and state
    networks and the identity key, with their encodings and content ids.  The hash
    functions, the SSZ codec derived for the history key and the SSZ encoding of a
    [u64] are the classes [HashLib], [HistoryKeySsz] and [U64Ssz]. *)

From S2P Require Import Prelude.
From S2P Require Import Distance.
From S2P Require Import Hex.

Inductive ContentKeyError :=
| DecodeSsz (input : bytes)
| InvalidLength (received expected : Z).

(** The [OverlayContentKey] trait. *)
Class OverlayContentKey := {
  ContentKey : Type;
  content_id : ContentKey -> bytes;
  key_to_bytes : ContentKey -> bytes;
  key_try_from : bytes -> res ContentKeyError ContentKey;
}.

(** [to_hex], the default method. *)
Definition to_hex `{OverlayContentKey} `{HexLib} (k : ContentKey) : bytes := hex_encode (key_to_bytes k).

Inductive SszDecodeError := BytesInvalid.

(** SHA-256 and Keccak-256. *)
Class HashLib := { sha256 : bytes -> bytes; keccak256 : bytes -> bytes }.

Class HashLibOk (H : HashLib) : Prop := {
  sha256_b32 b : is_b32 (sha256 b);
  keccak256_b32 b : is_b32 (keccak256 b);
}.

(** ** The identity key *)

Module IdentityContentKey.
Record t := mk { value : bytes }.

Definition new (value : bytes) : t := mk value.

Definition try_from (value : bytes) : res ContentKeyError t :=
  if negb (length value =? 32)%nat then Err (InvalidLength (Z.of_nat (length value)) 32)
  else Ok (mk (take 32 value)).

Definition into (self : t) : bytes := value self.
Definition content_id (self : t) : bytes := value self.
Definition to_bytes (self : t) : bytes := value self.

#[global] Instance overlay_key : OverlayContentKey := {|
  ContentKey := t;
  ContentKey.content_id := content_id;
  key_to_bytes := to_bytes;
  key_try_from := try_from;
|}.
End IdentityContentKey.

(** ** History keys *)

Module HistoryContentKey.
Inductive t :=
| BlockHeaderWithProof (block_hash : bytes)
| BlockBody (block_hash : bytes)
| BlockReceipts (block_hash : bytes)
| EpochAccumulator (epoch_hash : bytes).

#[global] Instance eq_dec : EqDecision t.
Proof. solve_decision. Defined.

(** The hash of a key is an array of 32 bytes. *)
Definition hash (k : t) : bytes :=
  match k with BlockHeaderWithProof h | BlockBody h | BlockReceipts h | EpochAccumulator h => h end.
Definition wf (k : t) : Prop := is_b32 (hash k).

(** The derived codec: an SSZ union. *)
Class HistoryKeySsz := {
  as_ssz_bytes : t -> bytes;
  from_ssz_bytes : bytes -> res SszDecodeError t;
}.

(** The position of the variant. *)
Definition selector (k : t) : byte :=
  match k with
  | BlockHeaderWithProof _ => x00
  | BlockBody _ => x01
  | BlockReceipts _ => x02
  | EpochAccumulator _ => x03
  end.

(** An SSZ union is its selector followed by the value; decoding accepts nothing else. *)
Class HistoryKeySszOk (S : HistoryKeySsz) : Prop := {
  as_ssz_spec k : wf k -> as_ssz_bytes k = selector k :: hash k;
  from_ssz_complete k : wf k -> from_ssz_bytes (as_ssz_bytes k) = Ok k;
  from_ssz_sound b k : from_ssz_bytes b = Ok k -> wf k /\ b = as_ssz_bytes k;
  from_ssz_total b : from_ssz_bytes b <> Panic;
}.

Section Ops.
Context `{S : HistoryKeySsz} `{H : HashLib} `{X : HexLib}.

(** [From<HistoryContentKey> for Vec<u8>]. *)
Definition into (val : t) : bytes := as_ssz_bytes val.

Definition try_from (value : bytes) : res ContentKeyError t :=
  map_err (fun _ => DecodeSsz (hex_encode value)) (from_ssz_bytes value).

Definition content_id (self : t) : bytes := sha256 (as_ssz_bytes self).

Definition to_bytes (self : t) : bytes :=
  match self with
  | BlockHeaderWithProof h => [x00] ++ h
  | BlockBody h => [x01] ++ h
  | BlockReceipts h => [x02] ++ h
  | EpochAccumulator h => [x03] ++ h
  end.

(** [Serialize]: the string. *)
Definition serialize (self : t) : bytes := hex_encode (to_bytes self).

Inductive de_error := MustStartWith0x (found : bytes) | HexError (e : ByteUtilsError) | KeyError (e : ContentKeyError).

(** [Deserialize], from the string in lower case: [&data[..2]] panics when 2 is not a
    character boundary of the string. *)
Definition deserialize (data : bytes) : res de_error t :=
  if negb (starts_with str_0x data) then
    match get_to data 2 with
    | Some found => Err (MustStartWith0x found)
    | None => Panic
    end
  else
    let? ssz_bytes := map_err HexError (hex_decode data) in
    map_err KeyError (map_err (fun _ => DecodeSsz (hex_encode ssz_bytes)) (from_ssz_bytes ssz_bytes)).

#[global] Instance overlay_key : OverlayContentKey := {|
  ContentKey := t;
  ContentKey.content_id := content_id;
  key_to_bytes := into;
  key_try_from := try_from;
|}.
End Ops.
End HistoryContentKey.

(** ** Beacon keys *)

(** The SSZ encoding of a [u64]: eight bytes, the least significant first. *)
Class U64Ssz := { u64_as_ssz : Z -> bytes; u64_from_ssz : bytes -> res SszDecodeError Z }.

Class U64SszOk (U : U64Ssz) : Prop := {
  u64_as_ssz_spec z : is_u64 z -> u64_as_ssz z = Z_to_le 8 z;
  u64_from_ssz_spec b : length b = 8%nat -> u64_from_ssz b = Ok (le_to_Z b);
}.

(** The slice [&bytes[lo..hi]]: a panic when the end is out of range. *)
Definition slice {E} (b : bytes) (lo hi : nat) : res E bytes :=
  if (hi <=? length b)%nat then Ok (take (hi - lo) (drop lo b)) else Panic.

Module BeaconContentKey.
Definition LIGHT_CLIENT_BOOTSTRAP_KEY_PREFIX : byte := x10.
Definition LIGHT_CLIENT_UPDATES_BY_RANGE_KEY_PREFIX : byte := x11.
Definition LIGHT_CLIENT_FINALITY_UPDATE_KEY_PREFIX : byte := x12.
Definition LIGHT_CLIENT_OPTIMISTIC_UPDATE_KEY_PREFIX : byte := x13.

Inductive t :=
| LightClientBootstrap (block_hash : bytes)
| LightClientUpdatesByRange (start_period count : Z)
| LightClientFinalityUpdate (finalized_slot : Z)
| LightClientOptimisticUpdate (signature_slot : Z).

Definition wf (k : t) : Prop :=
  match k with
  | LightClientBootstrap h => is_b32 h
  | LightClientUpdatesByRange s c => is_u64 s /\ is_u64 c
  | LightClientFinalityUpdate s | LightClientOptimisticUpdate s => is_u64 s
  end.

Section Ops.
Context `{U : U64Ssz} `{H : HashLib} `{X : HexLib}.

Definition to_bytes (self : t) : bytes :=
  match self with
  | LightClientBootstrap h => [LIGHT_CLIENT_BOOTSTRAP_KEY_PREFIX] ++ h
  | LightClientUpdatesByRange start_period count =>
      [LIGHT_CLIENT_UPDATES_BY_RANGE_KEY_PREFIX] ++ u64_as_ssz start_period ++ u64_as_ssz count
  | LightClientFinalityUpdate slot => [LIGHT_CLIENT_FINALITY_UPDATE_KEY_PREFIX] ++ u64_as_ssz slot
  | LightClientOptimisticUpdate slot => [LIGHT_CLIENT_OPTIMISTIC_UPDATE_KEY_PREFIX] ++ u64_as_ssz slot
  end.

(** [ssz_append]. *)
Definition ssz_append (self : t) (buf : bytes) : bytes := buf ++ to_bytes self.
Definition as_ssz_bytes (self : t) : bytes := ssz_append self [].

Definition from_ssz_bytes (b : bytes) : res SszDecodeError t :=
  let? selector := index b 0 in
  if decide (selector = LIGHT_CLIENT_BOOTSTRAP_KEY_PREFIX) then
    let? block_hash := slice b 1 33 in
    Ok (LightClientBootstrap block_hash)
  else if decide (selector = LIGHT_CLIENT_UPDATES_BY_RANGE_KEY_PREFIX) then
    let? s1 := slice b 1 9 in
    let? start_period := u64_from_ssz s1 in
    let? s2 := slice b 9 17 in
    let? count := u64_from_ssz s2 in
    Ok (LightClientUpdatesByRange start_period count)
  else if decide (selector = LIGHT_CLIENT_FINALITY_UPDATE_KEY_PREFIX) then
    let? s1 := slice b 1 9 in
    let? finalized_slot := u64_from_ssz s1 in
    Ok (LightClientFinalityUpdate finalized_slot)
  else if decide (selector = LIGHT_CLIENT_OPTIMISTIC_UPDATE_KEY_PREFIX) then
    let? s1 := slice b 1 9 in
    let? signature_slot := u64_from_ssz s1 in
    Ok (LightClientOptimisticUpdate signature_slot)
  else Err BytesInvalid.

Definition into (val : t) : bytes := as_ssz_bytes val.

Definition try_from (value : bytes) : res ContentKeyError t :=
  map_err (fun _ => DecodeSsz (hex_encode value)) (from_ssz_bytes value).

Definition content_id (self : t) : bytes := sha256 (as_ssz_bytes self).

(** [Serialize] and [Deserialize], as for history keys. *)
Definition serialize (self : t) : bytes := hex_encode (to_bytes self).

Definition deserialize (data : bytes) : res HistoryContentKey.de_error t :=
  if negb (starts_with str_0x data) then
    match get_to data 2 with
    | Some found => Err (HistoryContentKey.MustStartWith0x found)
    | None => Panic
    end
  else
    let? ssz_bytes := map_err HistoryContentKey.HexError (hex_decode data) in
    map_err HistoryContentKey.KeyError (map_err (fun _ => DecodeSsz (hex_encode ssz_bytes)) (from_ssz_bytes ssz_bytes)).

#[global] Instance overlay_key : OverlayContentKey := {|
  ContentKey := t;
  ContentKey.content_id := content_id;
  key_to_bytes := into;
  key_try_from := try_from;
|}.
End Ops.
End BeaconContentKey.

(** ** State keys *)

Module StateContentKey.
Inductive t :=
| AccountTrieNode (path node_hash state_root : bytes)
| ContractStorageTrieNode (address path node_hash state_root : bytes)
| AccountTrieProof (address state_root : bytes)
| ContractStorageTrieProof (address : bytes) (slot : Z) (state_root : bytes)
| ContractBytecode (address code_hash : bytes).

Section Ops.
Context `{H : HashLib}.

(** [U512] arithmetic wraps at 512 bits (the sum of two [U256]s does not). *)
Definition content_id (self : t) : bytes :=
  match self with
  | AccountTrieNode path node_hash _ => sha256 (path ++ node_hash)
  | ContractStorageTrieNode address path node_hash _ => sha256 (address ++ path ++ node_hash)
  | AccountTrieProof address _ => keccak256 address
  | ContractStorageTrieProof address slot _ =>
      let address := be_to_Z (keccak256 address) in
      let slot := be_to_Z (keccak256 (Z_to_be 32 slot)) in
      let content_id := address + slot in
      let content_id_be := Z_to_be 64 (Z.shiftl content_id 256 mod 2 ^ 512) in
      take 32 content_id_be
  | ContractBytecode address code_hash => sha256 (address ++ code_hash)
  end.

(** Not implemented in the source. *)
Definition to_bytes (self : t) : res Empty_set bytes := Panic.
End Ops.
End StateContentKey.

(** ** Theorems *)

Section Correct.
Context `{H : HashLib} `{X : HexLib} `{!HexLibOk X}.

(** History keys survive every encoding: the hand-written [to_bytes] is the SSZ
    encoding, bytes decode back to the key and to no other, the JSON string decodes
    back to the key; and different keys have different content ids unless their encodings
    are a collision of SHA-256. *)
Theorem history_key_roundtrip `{S : HistoryContentKey.HistoryKeySsz}
    `{!HistoryContentKey.HistoryKeySszOk S} k :
  HistoryContentKey.wf k ->
  HistoryContentKey.to_bytes k = HistoryContentKey.into k
  /\ HistoryContentKey.try_from (HistoryContentKey.into k) = Ok k
  /\ HistoryContentKey.deserialize (HistoryContentKey.serialize k) = Ok k
  /\ (forall b, HistoryContentKey.try_from b = Ok k -> b = HistoryContentKey.into k)
  /\ (forall k', HistoryContentKey.wf k' ->
        HistoryContentKey.content_id k = HistoryContentKey.content_id k' ->
        k = k' \/ collides sha256 [(HistoryContentKey.as_ssz_bytes k, HistoryContentKey.as_ssz_bytes k')]).
Proof.
  intros Hk. assert (E : HistoryContentKey.to_bytes k = HistoryContentKey.into k).
  { unfold HistoryContentKey.into. rewrite HistoryContentKey.as_ssz_spec by done. by destruct k. }
  split_and!; [done | | | |].
  - unfold HistoryContentKey.try_from, HistoryContentKey.into.
    by rewrite HistoryContentKey.from_ssz_complete.
  - unfold HistoryContentKey.deserialize, HistoryContentKey.serialize.
    rewrite E. change (starts_with str_0x (hex_encode (HistoryContentKey.into k))) with true. simpl negb.
    cbv iota. rewrite hex_decode_encode. simpl. unfold HistoryContentKey.into.
    by rewrite HistoryContentKey.from_ssz_complete.
  - intros b. unfold HistoryContentKey.try_from.
    destruct (HistoryContentKey.from_ssz_bytes b) eqn:Eb; intros [= ->].
    by apply HistoryContentKey.from_ssz_sound in Eb as [_ ->].
  - intros k' Hk' Heq. unfold HistoryContentKey.content_id in Heq.
    apply collides_pair in Heq as [Hs|]; [left|by right]. pose proof (HistoryContentKey.from_ssz_complete k Hk) as H1.
    rewrite Hs, HistoryContentKey.from_ssz_complete in H1 by done. by injection H1.
Qed.

Lemma slice_app {E} (a b c : bytes) lo hi :
  length a = lo -> length b = (hi - lo)%nat -> (lo <= hi)%nat ->
  slice (E := E) (a ++ b ++ c) lo hi = Ok b.
Proof.
  intros Ha Hb Hle. unfold slice. rewrite !length_app, Ha, Hb.
  rewrite (proj2 (Nat.leb_le _ _)) by lia. f_equal.
  rewrite drop_app_length' by done. by rewrite take_app_length' by done.
Qed.

Lemma u64_ssz_length `{U : U64Ssz} `{!U64SszOk U} z : is_u64 z -> length (u64_as_ssz z) = 8%nat.
Proof. intros Hz. rewrite u64_as_ssz_spec by done. apply length_Z_to_le. Qed.

Lemma u64_ssz_roundtrip `{U : U64Ssz} `{!U64SszOk U} z :
  is_u64 z -> u64_from_ssz (u64_as_ssz z) = Ok z.
Proof.
  intros Hz. rewrite u64_from_ssz_spec by (by apply u64_ssz_length).
  rewrite u64_as_ssz_spec by done. unfold is_u64, U64_MOD in Hz. f_equal.
  rewrite le_to_Z_to_le by lia. apply Z.mod_small. exact Hz.
Qed.

Lemma slice_short {E} (b : bytes) lo hi : (length b < hi)%nat -> slice (E := E) b lo hi = Panic.
Proof. intros Hb. unfold slice. by rewrite (proj2 (Nat.leb_gt _ _)) by lia. Qed.

Lemma beacon_key_decodes `{U : U64Ssz} `{!U64SszOk U} k junk :
  BeaconContentKey.wf k ->
  BeaconContentKey.try_from (BeaconContentKey.into k ++ junk) = Ok k.
Proof.
  intros Hk. unfold BeaconContentKey.try_from, BeaconContentKey.from_ssz_bytes, BeaconContentKey.into,
    BeaconContentKey.as_ssz_bytes, BeaconContentKey.ssz_append. rewrite app_nil_l.
  destruct k as [h|s c|s|s]; unfold BeaconContentKey.wf in Hk; cbn [BeaconContentKey.to_bytes];
    rewrite <- !app_assoc.
  - rewrite (slice_app _ h _ 1 33) by (done || lia || by rewrite Hk). done.
  - destruct Hk as [Hs Hc]. pose proof (u64_ssz_length s Hs). pose proof (u64_ssz_length c Hc).
    rewrite (slice_app _ (u64_as_ssz s) _ 1 9) by (simpl; lia).
    rewrite (app_assoc _ (u64_as_ssz s)), (slice_app _ (u64_as_ssz c) _ 9 17) by (rewrite ?length_app; simpl; lia).
    simpl. by rewrite !u64_ssz_roundtrip by done.
  - pose proof (u64_ssz_length s Hk). rewrite (slice_app _ (u64_as_ssz s) _ 1 9) by (simpl; lia). simpl.
    by rewrite u64_ssz_roundtrip by done.
  - pose proof (u64_ssz_length s Hk). rewrite (slice_app _ (u64_as_ssz s) _ 1 9) by (simpl; lia). simpl.
    by rewrite u64_ssz_roundtrip by done.
Qed.

(** Beacon keys decode from their encoding, also with bytes left over, which are
    ignored: several byte strings denote one key.  The JSON string of a key reads as the key. *)
Theorem beacon_key_roundtrip `{U : U64Ssz} `{!U64SszOk U} k junk :
  BeaconContentKey.wf k ->
  BeaconContentKey.try_from (BeaconContentKey.into k ++ junk) = Ok k
  /\ BeaconContentKey.deserialize (BeaconContentKey.serialize k) = Ok k.
Proof.
  intros Hk. split; [by apply beacon_key_decodes|]. pose proof (beacon_key_decodes k [] Hk) as Hd.
  rewrite app_nil_r in Hd. unfold BeaconContentKey.into, BeaconContentKey.as_ssz_bytes, BeaconContentKey.ssz_append in Hd.
  rewrite app_nil_l in Hd. unfold BeaconContentKey.deserialize, BeaconContentKey.serialize.
  change (starts_with str_0x (hex_encode (BeaconContentKey.to_bytes k))) with true. simpl negb.
  cbv iota. rewrite hex_decode_encode. simpl. unfold BeaconContentKey.try_from in Hd.
  destruct (BeaconContentKey.from_ssz_bytes _); simpl in *; congruence.
Qed.

(** Malformed keys from a peer or a client panic instead of being refused: an
    empty beacon key, a beacon key shorter than its selector announces, and a JSON
    string of fewer than two bytes, or of one that a beacon key does not fit into. *)
Theorem malformed_keys_panic `{U : U64Ssz} `{S : HistoryContentKey.HistoryKeySsz} :
  BeaconContentKey.try_from [] = Panic
  /\ (forall b, (length b < 32)%nat ->
       BeaconContentKey.try_from (BeaconContentKey.LIGHT_CLIENT_BOOTSTRAP_KEY_PREFIX :: b) = Panic)
  /\ (forall b, (length b < 8)%nat ->
       BeaconContentKey.try_from (BeaconContentKey.LIGHT_CLIENT_FINALITY_UPDATE_KEY_PREFIX :: b) = Panic)
  /\ (forall s, (length s < 2)%nat -> HistoryContentKey.deserialize s = Panic /\ BeaconContentKey.deserialize s = Panic)
  /\ BeaconContentKey.deserialize (hex_encode []) = Panic.
Proof.
  split_and!; [done | | | |].
  - intros b Hb. unfold BeaconContentKey.try_from, BeaconContentKey.from_ssz_bytes.
    change (index (?x :: b) 0) with (Ok (E := SszDecodeError) x). cbv beta iota.
    rewrite decide_True by done. by rewrite slice_short by (simpl; lia).
  - intros b Hb. unfold BeaconContentKey.try_from, BeaconContentKey.from_ssz_bytes.
    change (index (?x :: b) 0) with (Ok (E := SszDecodeError) x). cbv beta iota.
    rewrite 2!decide_False, decide_True by done. by rewrite slice_short by (simpl; lia).
  - intros s Hs. unfold HistoryContentKey.deserialize, BeaconContentKey.deserialize, starts_with.
    rewrite bool_decide_eq_false_2; [by destruct s as [|a [|b s]]; [| |simpl in Hs; lia]|].
    intros E. apply (f_equal length) in E. rewrite length_take in E. change (length str_0x) with 2%nat in E. lia.
  - unfold BeaconContentKey.deserialize. change (starts_with str_0x (hex_encode [])) with true. simpl negb.
    cbv iota. by rewrite hex_decode_encode.
Qed.

(** The content id of a contract storage proof is the sum of the hashes of its
    address and its slot modulo 2^256: the detour over 512-bit integers keeps the low
    half of the sum. *)
Theorem storage_proof_content_id `{!HashLibOk H} address slot state_root :
  StateContentKey.content_id (StateContentKey.ContractStorageTrieProof address slot state_root)
  = Z_to_be 32 ((be_to_Z (keccak256 address) + be_to_Z (keccak256 (Z_to_be 32 slot))) mod 2 ^ 256)
  /\ is_b32 (StateContentKey.content_id
               (StateContentKey.ContractStorageTrieProof address slot state_root)).
Proof.
  cbn [StateContentKey.content_id]. set (a := be_to_Z _). set (s := be_to_Z _).
  assert (Ha : 0 <= a) by apply be_to_Z_range. assert (Hs : 0 <= s) by apply be_to_Z_range.
  assert (E : take 32 (Z_to_be 64 (Z.shiftl (a + s) 256 mod 2 ^ 512)) = Z_to_be 32 ((a + s) mod 2 ^ 256)).
  { rewrite Z.shiftl_mul_pow2 by lia. change (2 ^ 512) with (2 ^ 256 * 2 ^ 256).
    rewrite Z.mul_mod_distr_r by lia. set (r := (a + s) mod 2 ^ 256).
    assert (Hr : 0 <= r < 2 ^ 256) by (apply Z.mod_pos_bound; lia).
    rewrite (Z_to_be_app 32 32). change (256 ^ Z.of_nat 32) with (2 ^ 256).
    rewrite Z.div_mul by lia. by rewrite take_app_length' by (by rewrite length_Z_to_be). }
  rewrite E. split; [done | apply length_Z_to_be].
Qed.
End Correct.

(** ** The theorems at work *)

(** A stand-in for the hash functions: the last 32 bytes of the padded input. *)
#[global] Instance toy_hashes : HashLib := {|
  sha256 b := take 32 (reverse b ++ replicate 32 x00);
  keccak256 b := take 32 (reverse b ++ replicate 32 x00) |}.

#[global] Instance toy_hashes_ok : HashLibOk toy_hashes.
Proof.
  split; intros b; unfold is_b32; cbn [sha256 keccak256 toy_hashes];
    rewrite length_take, length_app, length_replicate; lia.
Qed.

#[global] Instance toy_history_ssz : HistoryContentKey.HistoryKeySsz := {|
  HistoryContentKey.as_ssz_bytes k := HistoryContentKey.selector k :: HistoryContentKey.hash k;
  HistoryContentKey.from_ssz_bytes b :=
    match b with
    | s :: h =>
        if (length h =? 32)%nat then
          match s with
          | x00 => Ok (HistoryContentKey.BlockHeaderWithProof h)
          | x01 => Ok (HistoryContentKey.BlockBody h)
          | x02 => Ok (HistoryContentKey.BlockReceipts h)
          | x03 => Ok (HistoryContentKey.EpochAccumulator h)
          | _ => Err BytesInvalid
          end
        else Err BytesInvalid
    | [] => Err BytesInvalid
    end |}.

#[global] Instance toy_history_ssz_ok : HistoryContentKey.HistoryKeySszOk toy_history_ssz.
Proof.
  split.
  - done.
  - intros k Hk. unfold HistoryContentKey.wf, is_b32 in Hk. cbn.
    by rewrite (proj2 (Nat.eqb_eq _ _) Hk); destruct k.
  - intros [|s h] k; cbn; [done|]. destruct (Nat.eqb_spec (length h) 32); [|done].
    by destruct s; intros [= <-].
  - intros [|s h]; cbn; [done|]. destruct (length h =? 32)%nat; [|done]. by destruct s.
Qed.

#[global] Instance toy_u64_ssz : U64Ssz := {|
  u64_as_ssz z := Z_to_le 8 z; u64_from_ssz b := Ok (le_to_Z b) |}.

#[global] Instance toy_u64_ssz_ok : U64SszOk toy_u64_ssz.
Proof. split; by intros. Qed.

#[local] Existing Instances toy_hex toy_hex_ok.

Definition sample_key : HistoryContentKey.t := HistoryContentKey.BlockBody (replicate 32 x07).

Lemma history_key_roundtrip_witness :
  HistoryContentKey.to_bytes sample_key = x01 :: replicate 32 x07
  /\ HistoryContentKey.deserialize (HistoryContentKey.serialize sample_key) = Ok sample_key.
Proof.
  split; [reflexivity|]. apply (history_key_roundtrip sample_key). reflexivity.
Defined.

Lemma beacon_key_roundtrip_witness :
  BeaconContentKey.try_from
    (BeaconContentKey.into (BeaconContentKey.LightClientUpdatesByRange 816 4) ++ [x09])
  = Ok (BeaconContentKey.LightClientUpdatesByRange 816 4).
Proof.
  apply beacon_key_roundtrip. split; (split; [discriminate | reflexivity]).
Defined.

Lemma storage_proof_content_id_witness :
  is_b32 (StateContentKey.content_id
            (StateContentKey.ContractStorageTrieProof (replicate 20 xff) 3 (replicate 32 x01))).
Proof. apply storage_proof_content_id. Defined.
