(* ===== verification/BTree.v ===== *)
(** * Ordered maps.

    The part of [std::collections::BTreeMap] that the lookup queries use, keyed
    by distances: the entries in increasing order of their keys.  Iteration
    ([values_mut], [into_iter], [keys().next()]) is the list order. *)

From S2P Require Import Prelude.

Section BTree.
Context {A : Type}.
Implicit Types (m : list (Z * A)) (k : Z) (v : A).

(** The representation invariant: keys strictly increase. *)
Definition bt_ok m : Prop := StronglySorted Z.lt m.*1.

Fixpoint bt_get k m : option A :=
  match m with
  | [] => None
  | (k', v) :: t => if k =? k' then Some v else bt_get k t
  end.

(** [insert]: replaces the value of a present key. *)
Fixpoint bt_insert k v m : list (Z * A) :=
  match m with
  | [] => [(k, v)]
  | (k', v') :: t =>
      if k <? k' then (k, v) :: m
      else if k =? k' then (k, v) :: t
      else (k', v') :: bt_insert k v t
  end.

(** [entry(k).or_insert(v)]. *)
Definition bt_or_insert k v m : list (Z * A) :=
  match bt_get k m with
  | Some _ => m
  | None => bt_insert k v m
  end.

(** Writing through an occupied entry. *)
Fixpoint bt_update k (f : A -> A) m : list (Z * A) :=
  match m with
  | [] => []
  | (k', v) :: t => if k =? k' then (k', f v) :: t else (k', v) :: bt_update k f t
  end.

(** [collect()] from pairs. *)
Definition bt_collect (l : list (Z * A)) : list (Z * A) :=
  foldl (fun m '(k, v) => bt_insert k v m) [] l.

(** [keys().next()]. *)
Definition bt_first m : option Z :=
  match m with
  | [] => None
  | (k, _) :: _ => Some k
  end.

(** ** Lemmas *)

Lemma bt_ok_nil : bt_ok [].
Proof. constructor. Qed.

Lemma bt_ok_cons k v m :
  bt_ok ((k, v) :: m) <-> bt_ok m /\ Forall (fun e => k < e.1) m.
Proof.
  unfold bt_ok. simpl. split.
  - intros Hs. apply StronglySorted_inv in Hs as [Hs Hf]. split; [done|].
    by rewrite Forall_fmap in Hf.
  - intros [Hs Hf]. constructor; [done|]. by rewrite Forall_fmap.
Qed.

Lemma bt_insert_keys k v m x : x ∈ (bt_insert k v m).*1 <-> x = k \/ x ∈ m.*1.
Proof.
  induction m as [|[k' v'] m IH]; simpl.
  - rewrite list_elem_of_singleton, elem_of_nil. naive_solver.
  - destruct (Z.ltb_spec k k'); simpl; [by rewrite !elem_of_cons|].
    destruct (Z.eqb_spec k k') as [->|]; simpl; rewrite !elem_of_cons, ?IH; naive_solver.
Qed.

Lemma bt_insert_ok k v m : bt_ok m -> bt_ok (bt_insert k v m).
Proof.
  induction m as [|[k' v'] m IH]; intros Hm; simpl.
  - apply bt_ok_cons. split; [done | constructor].
  - apply bt_ok_cons in Hm as [Hm Hf].
    destruct (Z.ltb_spec k k').
    { apply bt_ok_cons. split; [by apply bt_ok_cons|]. constructor; [done|].
      eapply Forall_impl; [exact Hf|]. simpl. lia. }
    destruct (Z.eqb_spec k k') as [->|]; apply bt_ok_cons; [done|]. split; [auto|].
    apply Forall_forall. intros e He. apply (list_elem_of_fmap_2 fst) in He.
    apply bt_insert_keys in He as [He|He]; simpl in *; [lia|].
    apply list_elem_of_fmap in He as (e' & -> & He').
    rewrite Forall_forall in Hf. by apply Hf.
Qed.

Lemma bt_get_not_in k m : bt_get k m = None <-> k ∉ m.*1.
Proof.
  induction m as [|[k' v'] m IH]; simpl.
  - split; [intros _; apply not_elem_of_nil | done].
  - rewrite not_elem_of_cons. destruct (Z.eqb_spec k k'); naive_solver.
Qed.

Lemma bt_get_elem k v m : bt_get k m = Some v -> (k, v) ∈ m.
Proof.
  induction m as [|[k' v'] m IH]; simpl; [done|].
  destruct (Z.eqb_spec k k') as [->|]; [intros [= ->]; left | intros H; right; auto].
Qed.

Lemma bt_elem_get k v m : bt_ok m -> (k, v) ∈ m -> bt_get k m = Some v.
Proof.
  induction m as [|[k' v'] m IH]; intros Hm He; [by apply elem_of_nil in He|].
  apply bt_ok_cons in Hm as [Hm Hf]. simpl.
  apply elem_of_cons in He as [[= -> ->]|He]; [by rewrite Z.eqb_refl|].
  destruct (Z.eqb_spec k k') as [->|]; [|auto].
  rewrite Forall_forall in Hf. specialize (Hf _ He). simpl in Hf. lia.
Qed.

(** Inserting a new key splits the map around it. *)
Lemma bt_insert_split k v m :
  bt_ok m -> bt_get k m = None ->
  exists m1 m2, m = m1 ++ m2 /\ bt_insert k v m = m1 ++ (k, v) :: m2
    /\ Forall (fun e => e.1 < k) m1 /\ Forall (fun e => k < e.1) m2.
Proof.
  induction m as [|[k' v'] m IH]; intros Hm Hg; simpl in *.
  - exists [], []. split_and!; auto.
  - apply bt_ok_cons in Hm as [Hm Hf]. destruct (Z.eqb_spec k k'); [done|].
    destruct (Z.ltb_spec k k').
    + exists [], ((k', v') :: m). split_and!; auto. constructor; [done|].
      eapply Forall_impl; [exact Hf|]. simpl. lia.
    + destruct (IH Hm Hg) as (m1 & m2 & -> & -> & H1 & H2).
      exists ((k', v') :: m1), m2. split_and!; auto. constructor; [simpl; lia | done].
Qed.

(** Updating an occupied entry changes that entry in place. *)
Lemma bt_update_split k f v m :
  bt_get k m = Some v ->
  exists m1 m2, m = m1 ++ (k, v) :: m2 /\ bt_update k f m = m1 ++ (k, f v) :: m2.
Proof.
  induction m as [|[k' v'] m IH]; intros Hg; simpl in *; [done|].
  destruct (Z.eqb_spec k k') as [->|].
  - injection Hg as ->. by exists [], m.
  - destruct (IH Hg) as (m1 & m2 & -> & ->). by exists ((k', v') :: m1), m2.
Qed.

Lemma bt_update_keys k f m : (bt_update k f m).*1 = m.*1.
Proof.
  induction m as [|[k' v'] m IH]; simpl; [done|].
  destruct (k =? k'); simpl; [done|]. f_equal. exact IH.
Qed.

Lemma bt_update_ok k f m : bt_ok m -> bt_ok (bt_update k f m).
Proof. unfold bt_ok. by rewrite bt_update_keys. Qed.

Lemma bt_or_insert_ok k v m : bt_ok m -> bt_ok (bt_or_insert k v m).
Proof. unfold bt_or_insert. destruct (bt_get k m); auto using bt_insert_ok. Qed.

(** The entries of a map after [or_insert]: the old ones, and possibly the new. *)
Lemma bt_or_insert_elem k v m e :
  bt_ok m -> e ∈ bt_or_insert k v m <-> e ∈ m \/ (bt_get k m = None /\ e = (k, v)).
Proof.
  intros Hm. unfold bt_or_insert. destruct (bt_get k m) eqn:E; [naive_solver|].
  destruct (bt_insert_split k v m Hm E) as (m1 & m2 & -> & -> & _ & _).
  rewrite !elem_of_app, elem_of_cons. naive_solver.
Qed.

Lemma bt_collect_ok_from (l : list (Z * A)) m :
  bt_ok m -> bt_ok (foldl (fun m '(k, v) => bt_insert k v m) m l).
Proof.
  revert m. induction l as [|[k v] l IH]; intros m Hm; simpl; [done|].
  apply IH. by apply bt_insert_ok.
Qed.

Lemma bt_insert_elem k v m e : e ∈ bt_insert k v m -> e = (k, v) \/ e ∈ m.
Proof.
  induction m as [|[k' v'] m IH]; simpl.
  - rewrite list_elem_of_singleton. auto.
  - destruct (k <? k'); [rewrite elem_of_cons; auto|].
    destruct (k =? k'); rewrite !elem_of_cons; naive_solver.
Qed.

Lemma bt_collect_elem (l : list (Z * A)) m e :
  e ∈ foldl (fun m '(k, v) => bt_insert k v m) m l -> e ∈ l \/ e ∈ m.
Proof.
  revert m. induction l as [|[k v] l IH]; intros m He; simpl in *; [auto|].
  apply IH in He as [He|He]; [left; by right|].
  apply bt_insert_elem in He as [->|He]; [left; by left | by right].
Qed.

Lemma bt_collect_ok l : bt_ok (bt_collect l).
Proof. apply bt_collect_ok_from, bt_ok_nil. Qed.

(** Entries in iteration order are ordered by key. *)
Lemma bt_ok_app_lt m1 e m2 :
  bt_ok (m1 ++ e :: m2) -> Forall (fun e' => e'.1 < e.1) m1.
Proof.
  induction m1 as [|[k v] m1 IH]; intros Hm; [constructor|].
  simpl in Hm. apply bt_ok_cons in Hm as [Hm Hf]. constructor; [|auto].
  rewrite Forall_forall in Hf. apply Hf. apply elem_of_app. right. left.
Qed.

End BTree.

#[export] Hint Resolve bt_ok_nil bt_insert_ok bt_or_insert_ok bt_update_ok bt_collect_ok : trin.
