(* ===== verification/Query.v ===== *)
(** * Lookup queries: the shared vocabulary.

    [portalnet/src/find/iterators/query.rs] and the types of
    [portalnet/src/find/query_pool.rs] that queries return: the configuration,
    the progress of a query, the peers it knows with their states; and the parts
    the two query types have in common word for word: the loop of [poll] over
    the known peers, the incorporation of reported peers, the update of the
    progress, the collection of the successful peers.

    [usize] is a 64-bit unsigned integer; [Instant] and [Duration] are integers. *)

From S2P Require Import Prelude.
From S2P Require Import BTree.

(** [discv5::kbucket::Key]: a node id with its place in the XOR metric. *)
Class KeyLib (N : Type) := {
  Key : Type;
  into_key : N -> Key;
  preimage : Key -> N;
  key_distance : Key -> Key -> Z;
  node_eq :: EqDecision N;
}.

(** What the queries rely on: [From<TNodeId>] keeps the preimage, the distance
    is symmetric. *)
Class KeyLibOk (N : Type) {K : KeyLib N} := {
  preimage_into n : preimage (into_key n) = n;
  key_distance_sym a b : key_distance a b = key_distance b a;
}.

(** Nodes as numbers, at their XOR distance. *)
#[global] Instance xor_keys : KeyLib Z := {|
  Key := Z; into_key n := n; preimage k := k; key_distance := Z.lxor |}.

#[global] Instance xor_keys_ok : KeyLibOk Z.
Proof. split; [done | intros; apply Z.lxor_comm]. Qed.

Record QueryConfig := {
  parallelism : Z;
  num_results : Z;
  peer_timeout : Z;
}.

Definition SECOND : Z := 1000000000.

Definition QueryConfig_default : QueryConfig :=
  {| parallelism := 3; num_results := 20; peer_timeout := 2 * SECOND |}.

Module QueryProgress.
Inductive t := Iterating (no_progress : Z) | Stalled | Finished.
End QueryProgress.

Module QueryPeerState.
Inductive t := NotContacted | Waiting (timeout : Z) | Unresponsive | Failed | Succeeded.

Definition is_waiting (s : t) : bool := match s with Waiting _ => true | _ => false end.
Definition is_succeeded (s : t) : bool := match s with Succeeded => true | _ => false end.

(** A peer the query will not hear of any more, as far as [poll] knows. *)
Definition settled (s : t) : bool :=
  match s with Unresponsive | Failed | Succeeded => true | _ => false end.

(** The peer was handed out by [poll]. *)
Definition contacted (s : t) : bool :=
  match s with NotContacted => false | _ => true end.
End QueryPeerState.

(** [query_pool::QueryState]. *)
Module QueryState.
Inductive t (N : Type) := Waiting (p : option N) | WaitingAtCapacity | Finished.
Arguments Waiting {N} p.
Arguments WaitingAtCapacity {N}.
Arguments Finished {N}.
End QueryState.

Module QueryPeer.
Record t (N : Type) `{K : KeyLib N} := mk {
  key : Key;
  peers_returned : Z;
  state : QueryPeerState.t;
}.
Arguments mk {N K}.
Arguments key {N K}.
Arguments peers_returned {N K}.
Arguments state {N K}.

Definition new {N} `{K : KeyLib N} (key : Key) (state : QueryPeerState.t) : t N :=
  mk key 0 state.

Definition increment_peers_returned {N} `{K : KeyLib N} (p : t N) (num_peers : Z) : t N :=
  mk (key p) (wrap64 (peers_returned p + num_peers)) (state p).

Definition set_state {N} `{K : KeyLib N} (s : QueryPeerState.t) (p : t N) : t N :=
  mk (key p) (peers_returned p) s.
End QueryPeer.

Section Shared.
Context {N : Type} `{K : KeyLib N}.
Implicit Types (m : list (Z * QueryPeer.t N)) (cfg : QueryConfig).

(** The [for] loop of [poll] over [closest_peers.values_mut()]: the peers and
    [num_waiting] it leaves, and the state it returned early, if any. *)
Fixpoint poll_loop cfg (now : Z) (at_capacity : bool) (result_counter : option Z)
    (num_waiting : Z) m : res Empty_set (list (Z * QueryPeer.t N) * Z * option (QueryState.t N)) :=
  match m with
  | [] => Ok ([], num_waiting, None)
  | (d, peer) :: rest =>
      let continue rc nw peer' :=
        let? r := poll_loop cfg now at_capacity rc nw rest in
        Ok ((d, peer') :: r.1.1, r.1.2, r.2) in
      match QueryPeer.state peer with
      | QueryPeerState.NotContacted =>
          if negb at_capacity then
            let timeout := now + peer_timeout cfg in
            Ok ((d, QueryPeer.set_state (QueryPeerState.Waiting timeout) peer) :: rest,
                wrap64 (num_waiting + 1),
                Some (QueryState.Waiting (Some (preimage (QueryPeer.key peer)))))
          else Ok (m, num_waiting, Some QueryState.WaitingAtCapacity)
      | QueryPeerState.Waiting timeout =>
          if timeout <=? now then
            if 0 <? num_waiting then
              continue result_counter (num_waiting - 1)
                (QueryPeer.set_state QueryPeerState.Unresponsive peer)
            else Panic
          else if at_capacity then Ok (m, num_waiting, Some QueryState.WaitingAtCapacity)
          else continue None num_waiting peer
      | QueryPeerState.Succeeded =>
          match result_counter with
          | Some count =>
              let count := wrap64 (count + 1) in
              if num_results cfg <=? count then Ok (m, num_waiting, Some QueryState.Finished)
              else continue (Some count) num_waiting peer
          | None => continue None num_waiting peer
          end
      | QueryPeerState.Failed | QueryPeerState.Unresponsive =>
          continue result_counter num_waiting peer
      end
  end.

(** Incorporating the reported peers: the peers known afterwards, and whether the
    query made progress. *)
Fixpoint incorporate cfg (target_key : Key) (num_closest : Z) m (progress : bool)
    (reported : list N) : list (Z * QueryPeer.t N) * bool :=
  match reported with
  | [] => (m, progress)
  | p :: rest =>
      let key := into_key p in
      let distance := key_distance target_key key in
      let peer := QueryPeer.new key QueryPeerState.NotContacted in
      let m' := bt_or_insert distance peer m in
      let progress' :=
        bool_decide (bt_first m' = Some distance) || (num_closest <? num_results cfg) in
      incorporate cfg target_key num_closest m' progress' rest
  end.

(** The update of the progress of the query. *)
Definition update_progress cfg (progress : bool) (p : QueryProgress.t) : QueryProgress.t :=
  match p with
  | QueryProgress.Iterating no_progress =>
      let no_progress := if progress then 0 else wrap64 (no_progress + 1) in
      if parallelism cfg <=? no_progress then QueryProgress.Stalled
      else QueryProgress.Iterating no_progress
  | QueryProgress.Stalled =>
      if progress then QueryProgress.Iterating 0 else QueryProgress.Stalled
  | QueryProgress.Finished => QueryProgress.Finished
  end.

(** [at_capacity], the permitted parallelism. *)
Definition capacity_reached cfg (progress : QueryProgress.t) (num_waiting : Z) : bool :=
  match progress with
  | QueryProgress.Stalled => num_results cfg <=? num_waiting
  | QueryProgress.Iterating _ => parallelism cfg <=? num_waiting
  | QueryProgress.Finished => true
  end.

(** The peers a query starts with. *)
Definition initial_peers cfg (target_key : Key) (known : list Key) : list (Z * QueryPeer.t N) :=
  bt_collect (take (Z.to_nat (num_results cfg))
    (map (fun key =>
       (key_distance key target_key, QueryPeer.new key QueryPeerState.NotContacted)) known)).

(** The preimages of the peers that succeeded, in the order of their distance. *)
Fixpoint succeeded m : list N :=
  match m with
  | [] => []
  | (_, peer) :: rest =>
      match QueryPeer.state peer with
      | QueryPeerState.Succeeded => preimage (QueryPeer.key peer) :: succeeded rest
      | _ => succeeded rest
      end
  end.
End Shared.

(** ** What the loop of [poll] does *)

Section PollLoop.
Context {N : Type} `{K : KeyLib N}.
Implicit Types (m : list (Z * QueryPeer.t N)) (cfg : QueryConfig).
#[local] Abbreviation st := QueryPeer.state.

Fixpoint count_waiting m : Z :=
  match m with
  | [] => 0
  | (_, p) :: t => (if QueryPeerState.is_waiting (st p) then 1 else 0) + count_waiting t
  end.

(** A waiting peer whose deadline has passed becomes unresponsive. *)
Definition expire (now : Z) (p : QueryPeer.t N) : QueryPeer.t N :=
  match st p with
  | QueryPeerState.Waiting timeout =>
      if timeout <=? now then QueryPeer.set_state QueryPeerState.Unresponsive p else p
  | _ => p
  end.

Definition expire_all (now : Z) m := map (fun e => (e.1, expire now e.2)) m.

(** The request to this peer is still running at [now]. *)
Definition live (now : Z) (p : QueryPeer.t N) : bool :=
  match st p with
  | QueryPeerState.Waiting timeout => negb (timeout <=? now)
  | _ => false
  end.

(** The result counter after the loop passed over a peer. *)
Definition tick (now : Z) (rc : option Z) (p : QueryPeer.t N) : option Z :=
  if live now p then None
  else if QueryPeerState.is_succeeded (st p) then (fun c => c + 1) <$> rc else rc.

(** The loop as a relation: it passes over peers (expiring them) until one makes
    it return. *)
Inductive poll_outcome cfg (now : Z) (cap : bool)
    : option Z -> list (Z * QueryPeer.t N) -> list (Z * QueryPeer.t N)
      -> option (QueryState.t N) -> Prop :=
| po_end rc : poll_outcome cfg now cap rc [] [] None
| po_contact rc d p rest :
    cap = false -> st p = QueryPeerState.NotContacted ->
    poll_outcome cfg now cap rc ((d, p) :: rest)
      ((d, QueryPeer.set_state (QueryPeerState.Waiting (now + peer_timeout cfg)) p) :: rest)
      (Some (QueryState.Waiting (Some (preimage (QueryPeer.key p)))))
| po_full rc d p rest :
    cap = true -> st p = QueryPeerState.NotContacted \/ live now p = true ->
    poll_outcome cfg now cap rc ((d, p) :: rest) ((d, p) :: rest)
      (Some QueryState.WaitingAtCapacity)
| po_finish c d p rest :
    st p = QueryPeerState.Succeeded -> num_results cfg <= c + 1 ->
    poll_outcome cfg now cap (Some c) ((d, p) :: rest) ((d, p) :: rest)
      (Some QueryState.Finished)
| po_pass rc d p rest rest' out :
    QueryPeerState.contacted (st p) = true ->
    (live now p = true -> cap = false) ->
    poll_outcome cfg now cap (tick now rc p) rest rest' out ->
    poll_outcome cfg now cap rc ((d, p) :: rest) ((d, expire now p) :: rest') out.

Definition config_ok cfg : Prop :=
  is_u64 (parallelism cfg) /\ is_u64 (num_results cfg) /\ 0 <= peer_timeout cfg.

Lemma count_waiting_nonneg m : 0 <= count_waiting m.
Proof. induction m as [|[d p] m IH]; simpl; [lia|]. destruct (QueryPeerState.is_waiting _); lia. Qed.

Lemma count_waiting_app m1 m2 : count_waiting (m1 ++ m2) = count_waiting m1 + count_waiting m2.
Proof. induction m1 as [|[d p] m IH]; simpl; [lia|]. rewrite IH. lia. Qed.

(** The counter of the loop stays in range. *)
Definition counter_ok cfg (rc : option Z) : Prop :=
  forall c, rc = Some c -> 0 <= c /\ (c = 0 \/ c < num_results cfg).

(** What the loop owes: no assertion trips, [num_waiting] stays exact, and the
    outcome follows [poll_outcome]. *)
Definition loop_ok cfg now cap rc nw m
    (r : res Empty_set (list (Z * QueryPeer.t N) * Z * option (QueryState.t N))) : Prop :=
  exists m' out,
    r = Ok (m', nw - count_waiting m + count_waiting m', out)
    /\ poll_outcome cfg now cap rc m m' out.

(** The loop goes on over a peer. *)
Lemma loop_ok_pass cfg now cap rc nw d p m nw' r :
  QueryPeerState.contacted (st p) = true -> (live now p = true -> cap = false) ->
  nw' - count_waiting m
    = nw - count_waiting ((d, p) :: m) + count_waiting [(d, expire now p)] ->
  loop_ok cfg now cap (tick now rc p) nw' m r ->
  loop_ok cfg now cap rc nw ((d, p) :: m)
    (let? r := r in Ok ((d, expire now p) :: r.1.1, r.1.2, r.2)).
Proof.
  intros Hc Hl Hn (m' & out & -> & Ho).
  exists ((d, expire now p) :: m'), out. split; [|by apply po_pass].
  cbn -[count_waiting]. do 3 f_equal.
  change ((d, expire now p) :: m') with ([(d, expire now p)] ++ m').
  rewrite count_waiting_app. lia.
Qed.

(** The loop stops at a peer that it leaves as it is. *)
Lemma loop_ok_stop cfg now cap rc nw m out :
  poll_outcome cfg now cap rc m m (Some out) ->
  loop_ok cfg now cap rc nw m (Ok (m, nw, Some out)).
Proof. intros Ho. exists m, (Some out). split; [do 3 f_equal; lia | done]. Qed.

(** The loop never trips its assertion as long as [num_waiting] counts at least the
    waiting peers. *)
Lemma poll_loop_spec cfg now cap rc nw m :
  config_ok cfg -> counter_ok cfg rc ->
  count_waiting m <= nw < U64_MOD -> (cap = false -> nw + 1 < U64_MOD) ->
  loop_ok cfg now cap rc nw m (poll_loop cfg now cap rc nw m).
Proof.
  intros (Hpar & Hres & _).
  revert rc nw. induction m as [|[d p] m IH]; intros rc nw Hrc Hnw Hcap.
  { exists [], None. split; [simpl; do 3 f_equal; lia | constructor]. }
  pose proof (count_waiting_nonneg m) as Hm.
  pose proof (loop_ok_pass cfg now cap rc nw d p m) as Hgo.
  unfold tick, expire, live in Hgo.
  simpl poll_loop. simpl in Hnw. revert Hgo Hnw.
  destruct (st p) eqn:Es; simpl; intros Hgo Hnw; rewrite ?Es in Hgo; simpl in Hgo.
  - destruct cap; simpl; [by apply loop_ok_stop, po_full; auto|].
    eexists _, _. split; [|by apply po_contact].
    do 3 f_equal. simpl. rewrite Es. simpl. specialize (Hcap eq_refl).
    unfold wrap64. rewrite Z.mod_small by lia. lia.
  - destruct (Z.leb_spec timeout now) as [Ht|Ht]; simpl in Hgo.
    + destruct (Z.ltb_spec 0 nw); [|lia]. apply (Hgo (nw - 1)); [done | done | lia |]. apply IH; try done; lia.
    + rewrite Es in Hgo. destruct cap; simpl in Hgo |- *.
      * apply loop_ok_stop, po_full; auto. right. unfold live. rewrite Es.
        by destruct (Z.leb_spec timeout now); [lia|].
      * apply (Hgo nw); [done | done | lia |]. apply IH; auto; [done | lia].
  - apply (Hgo nw); [done | done | lia |]. apply IH; auto; lia.
  - apply (Hgo nw); [done | done | lia |]. apply IH; auto; lia.
  - destruct rc as [c|]; simpl in Hgo; [|apply (Hgo nw); [done | done | lia |]; apply IH; auto; lia].
    destruct (Hrc c eq_refl) as [Hc0 Hc1]. unfold wrap64, is_u64, U64_MOD in *.
    rewrite Z.mod_small by lia.
    destruct (Z.leb_spec (num_results cfg) (c + 1)); [by apply loop_ok_stop, po_finish|].
    apply (Hgo nw); [done | done | lia |]. apply IH; [| lia | done]. intros c' [= <-]. lia.
Qed.

(** ** Reading an outcome *)

(** The loop handed out a peer: the closest one not contacted yet. *)
Lemma po_contact_inv cfg now cap rc m m' n :
  poll_outcome cfg now cap rc m m' (Some (QueryState.Waiting (Some n))) ->
  cap = false /\ exists m1 d p m2,
    m = m1 ++ (d, p) :: m2
    /\ m' = expire_all now m1
             ++ (d, QueryPeer.set_state (QueryPeerState.Waiting (now + peer_timeout cfg)) p) :: m2
    /\ n = preimage (QueryPeer.key p) /\ st p = QueryPeerState.NotContacted
    /\ Forall (fun e => QueryPeerState.contacted (st e.2) = true) m1.
Proof.
  intros Ho. remember (Some (QueryState.Waiting (Some n))) as out eqn:Eo.
  induction Ho as [| rc d p rest -> Hs | | | rc d p rest rest' out Hc Hl _ IH]; try done.
  - injection Eo as <-. split; [done|]. by exists [], d, p, rest.
  - destruct (IH Eo) as (Hcap & m1 & d' & p' & m2 & -> & -> & Hn & Hs & Hf).
    split; [done|]. exists ((d, p) :: m1), d', p', m2. split_and!; auto.
Qed.

(** The loop reached the end: every peer was contacted. *)
Lemma po_end_inv cfg now cap rc m m' :
  poll_outcome cfg now cap rc m m' None ->
  m' = expire_all now m /\ Forall (fun e => QueryPeerState.contacted (st e.2) = true) m.
Proof.
  intros Ho. remember None as out eqn:Eo.
  induction Ho as [| | | | rc d p rest rest' out Hc Hl _ IH]; try done.
  destruct (IH Eo) as [-> Hf]. split; [done | by constructor].
Qed.

Lemma po_full_inv cfg now cap rc m m' :
  poll_outcome cfg now cap rc m m' (Some QueryState.WaitingAtCapacity) -> cap = true.
Proof.
  intros Ho. remember (Some QueryState.WaitingAtCapacity) as out eqn:Eo.
  induction Ho; try done; auto.
Qed.

Lemma po_waiting_none_inv cfg now cap rc m m' :
  ~ poll_outcome cfg now cap rc m m' (Some (QueryState.Waiting None)).
Proof.
  intros Ho. remember (Some (QueryState.Waiting None)) as out eqn:Eo.
  induction Ho; try done; auto.
Qed.

(** With a request still running closer to the target, the loop cannot finish. *)
Lemma po_running_not_finished cfg now cap m m' :
  ~ poll_outcome cfg now cap None m m' (Some QueryState.Finished).
Proof.
  intros Ho. remember (Some QueryState.Finished) as out eqn:Eo.
  remember None as rc eqn:Er.
  induction Ho as [| | | | rc d p rest rest' out Hc Hl Ho IH]; try done.
  subst rc. apply IH; [done|]. unfold tick. by repeat case_match.
Qed.

(** A contacted peer that is not running has settled, and counts if it succeeded. *)
Lemma expire_settled now p :
  QueryPeerState.contacted (st p) = true -> live now p = false ->
  QueryPeerState.settled (st (expire now p)) = true
  /\ (st (expire now p) = QueryPeerState.Succeeded <-> st p = QueryPeerState.Succeeded).
Proof.
  unfold live, expire. destruct (st p) eqn:Es; simpl; rewrite ?Es; try done.
  by destruct (timeout <=? now).
Qed.

(** The loop finished the query: up to some peer, everyone has settled, and enough
    of them succeeded. *)
Lemma po_finish_inv cfg now cap c m m' :
  poll_outcome cfg now cap (Some c) m m' (Some QueryState.Finished) ->
  exists m1 m2, m' = m1 ++ m2
    /\ Forall (fun e => QueryPeerState.settled (st e.2) = true) m1
    /\ num_results cfg <= c + Z.of_nat (length (succeeded m1)).
Proof.
  intros Ho. remember (Some QueryState.Finished) as out eqn:Eo.
  remember (Some c) as rc eqn:Er. revert c Er.
  induction Ho as [| | | c' d p rest Hs Hn | rc d p rest rest' out Hc Hl Ho IH]; try done; intros c Er.
  - injection Er as ->. exists [(d, p)], rest. split_and!; [done| |simpl; rewrite Hs; simpl; lia].
    repeat constructor. simpl. by rewrite Hs.
  - subst rc out. unfold tick in *.
    destruct (live now p) eqn:El; [by apply po_running_not_finished in Ho|].
    destruct (IH eq_refl (if QueryPeerState.is_succeeded (st p) then c + 1 else c))
      as (m1 & m2 & -> & Hf & Hn); [by destruct (QueryPeerState.is_succeeded (st p))|].
    destruct (expire_settled now p Hc El) as [Hset Hsucc].
    exists ((d, expire now p) :: m1), m2. split_and!; [done | by constructor |]. simpl.
    destruct (st (expire now p)) eqn:E1, (st p) eqn:E2; simpl in *; (lia || naive_solver).
Qed.

End PollLoop.

(** ** Invariants of the known peers *)

Section Peers.
Context {N : Type} `{K : KeyLib N} `{!KeyLibOk N}.
Implicit Types (m : list (Z * QueryPeer.t N)) (cfg : QueryConfig) (t : Key).
#[local] Abbreviation st := QueryPeer.state.

(** An entry is filed under the distance of its peer to the target. *)
Definition peer_ok t (e : Z * QueryPeer.t N) : Prop :=
  into_key (preimage (QueryPeer.key e.2)) = QueryPeer.key e.2
  /\ e.1 = key_distance (QueryPeer.key e.2) t.

Definition peers_ok t m : Prop := bt_ok m /\ Forall (peer_ok t) m.

(** The peer filed under [d] has been contacted. *)
Definition Contacted m (d : Z) : Prop :=
  exists p, (d, p) ∈ m /\ QueryPeerState.contacted (st p) = true.

(** An operation moves the peers on: same keys, and no peer is forgotten to have
    been contacted. *)
Definition advances (e e' : Z * QueryPeer.t N) : Prop :=
  e'.1 = e.1 /\ QueryPeer.key e'.2 = QueryPeer.key e.2
  /\ (QueryPeerState.contacted (st e.2) = true -> QueryPeerState.contacted (st e'.2) = true).

#[global] Instance advances_refl : Reflexive advances.
Proof. intros e. by split_and!. Qed.

Lemma advances_all_refl m : Forall2 advances m m.
Proof. apply Forall_Forall2_diag, Forall_forall. reflexivity. Qed.

Lemma advances_keys m m' : Forall2 advances m m' -> m'.*1 = m.*1.
Proof. induction 1 as [|e e' m m' (H & _) _ IH]; simpl; [done|]. f_equal; [exact H | exact IH]. Qed.

Lemma advances_peers_ok t m m' : Forall2 advances m m' -> peers_ok t m -> peers_ok t m'.
Proof.
  intros Ha [Hb Hf]. split.
  - unfold bt_ok. by rewrite (advances_keys _ _ Ha).
  - induction Ha as [|e e' m m' (H1 & H2 & _) _ IH]; [constructor|].
    apply Forall_cons in Hf as [[Hk Hd] Hf]. constructor.
    + unfold peer_ok. by rewrite H1, H2.
    + apply IH; [|done]. destruct e. by apply bt_ok_cons in Hb as [? _].
Qed.

Lemma advances_contacted m m' d : Forall2 advances m m' -> Contacted m d -> Contacted m' d.
Proof.
  intros Ha (p & Hin & Hc). apply list_elem_of_lookup in Hin as [i Hi].
  destruct (Forall2_lookup_l _ _ _ _ _ Ha Hi) as ([d' p'] & Hi' & Hd & _ & Hm).
  simpl in *. subst d'. exists p'. split; [by eapply list_elem_of_lookup_2 | auto].
Qed.

Lemma po_advances cfg now cap rc m m' out :
  poll_outcome cfg now cap rc m m' out -> Forall2 advances m m'.
Proof.
  induction 1; eauto using advances_all_refl; constructor; eauto using advances_all_refl.
  - by split_and!.
  - unfold advances, expire. simpl. split_and!; [done | by repeat case_match |].
    destruct (st p) eqn:E; simpl; rewrite ?E; try done.
    by destruct (timeout <=? now); simpl; rewrite ?E.
Qed.

Lemma update_advances d f m :
  (forall p, QueryPeer.key (f p) = QueryPeer.key p) ->
  (forall p, QueryPeerState.contacted (st (f p)) = true) ->
  Forall2 advances m (bt_update d f m).
Proof.
  intros Hk Hc. induction m as [|[d' p] m IH]; simpl; [constructor|].
  destruct (d =? d'); constructor; auto using advances_all_refl; [|reflexivity].
  split_and!; simpl; auto.
Qed.

Lemma count_waiting_update d f p m :
  bt_get d m = Some p ->
  count_waiting (bt_update d f m)
  = count_waiting m - count_waiting [(d, p)] + count_waiting [(d, f p)].
Proof.
  intros Hg. destruct (bt_update_split d f p m Hg) as (m1 & m2 & E1 & E2).
  rewrite E2. rewrite E1 at 1. rewrite !count_waiting_app. simpl. lia.
Qed.

Lemma count_waiting_or_insert d k m :
  bt_ok m -> count_waiting (bt_or_insert d (QueryPeer.new k QueryPeerState.NotContacted) m)
             = count_waiting m.
Proof.
  intros Hm. unfold bt_or_insert. destruct (bt_get d m) eqn:E; [done|].
  destruct (bt_insert_split d (QueryPeer.new k QueryPeerState.NotContacted) m Hm E)
    as (m1 & m2 & -> & -> & _ & _).
  rewrite !count_waiting_app. simpl. lia.
Qed.

(** ** Incorporating reported peers *)

Lemma peers_ok_report t m n :
  peers_ok t m ->
  peers_ok t (bt_or_insert (key_distance t (into_key n))
                (QueryPeer.new (into_key n) QueryPeerState.NotContacted) m).
Proof.
  intros [Hb Hf]. split; [auto with trin|].
  apply Forall_forall. intros e He. apply bt_or_insert_elem in He as [He|[_ ->]]; [|..|done].
  - rewrite Forall_forall in Hf. auto.
  - split; simpl; [by rewrite preimage_into | apply key_distance_sym].
Qed.

(** The entry of a reported peer. *)
Definition fresh t (n : N) : Z * QueryPeer.t N :=
  (key_distance t (into_key n), QueryPeer.new (into_key n) QueryPeerState.NotContacted).

(** Reported peers are added as not contacted; nothing else changes. *)
Lemma incorporate_spec cfg t nc m b l :
  peers_ok t m ->
  let m' := (incorporate cfg t nc m b l).1 in
  peers_ok t m' /\ count_waiting m' = count_waiting m
  /\ (forall e, e ∈ m -> e ∈ m')
  /\ (forall e, e ∈ m' -> e ∈ m \/ exists n, n ∈ l /\ e = fresh t n)
  /\ (forall n, n ∈ l -> key_distance t (into_key n) ∈ m'.*1).
Proof.
  revert m b. induction l as [|n l IH]; intros m b Hm; simpl.
  { split_and!; auto. intros n Hn. by apply elem_of_nil in Hn. }
  set (m1 := bt_or_insert _ _ m).
  pose proof (peers_ok_report t m n Hm) as Hm1. fold m1 in Hm1.
  destruct (IH m1 (bool_decide (bt_first m1 = Some (key_distance t (into_key n)))
                   || (nc <? num_results cfg)) Hm1) as (Hok & Hc & Hold & Hnew & Hkey).
  destruct Hm as [Hb Hf].
  assert (Hel : forall e, e ∈ m1 <-> e ∈ m \/ bt_get (fresh t n).1 m = None /\ e = fresh t n)
    by (intros e; by apply bt_or_insert_elem).
  split_and!; [done | | | |].
  - rewrite Hc. by apply count_waiting_or_insert.
  - intros e He. apply Hold, Hel. by left.
  - intros e He. apply Hnew in He as [He|(n' & Hn' & ->)]; [|right; exists n'; split; [by right | done]].
    apply Hel in He as [He|[_ ->]]; [by left | right; exists n; split; [by left | done]].
  - intros n' Hn'. apply elem_of_cons in Hn' as [->|Hn']; [|by apply Hkey].
    change (key_distance t (into_key n)) with (fresh t n).1.
    destruct (bt_get (fresh t n).1 m) as [p|] eqn:Eg.
    + apply (list_elem_of_fmap_2 fst _ ((fresh t n).1, p)). apply Hold, Hel. left. by apply bt_get_elem.
    + apply list_elem_of_fmap_2, Hold, Hel. by right.
Qed.

Lemma incorporate_contacted cfg t nc m b l d :
  peers_ok t m -> Contacted (incorporate cfg t nc m b l).1 d <-> Contacted m d.
Proof.
  intros Hm. destruct (incorporate_spec cfg t nc m b l Hm) as (_ & _ & Hold & Hnew & _).
  split; intros (p & Hp & Hc); [|by exists p; auto].
  apply Hnew in Hp as [Hp|(n & _ & [= -> ->])]; [by exists p | done].
Qed.

(** ** The peers a query starts with *)

Lemma initial_peers_elem cfg t known e :
  e ∈ initial_peers cfg t known ->
  exists k, k ∈ known /\ e = (key_distance k t, QueryPeer.new k QueryPeerState.NotContacted).
Proof.
  intros He. apply bt_collect_elem in He as [He|He]; [|by apply elem_of_nil in He].
  apply elem_of_take in He as (i & Hi & _). apply list_elem_of_lookup_2 in Hi.
  apply list_elem_of_fmap in Hi as (k & -> & Hk). by exists k.
Qed.

Lemma no_waiting m :
  (forall e, e ∈ m -> QueryPeerState.is_waiting (st e.2) = false) -> count_waiting m = 0.
Proof.
  induction m as [|[d p] m IH]; intros Hf; simpl; [done|].
  rewrite IH by (intros e He; apply Hf; by right).
  pose proof (Hf (d, p) (list_elem_of_here _ _)) as E. simpl in E. by rewrite E.
Qed.

Lemma initial_peers_ok cfg t known :
  Forall (fun k => into_key (preimage k) = k) known ->
  peers_ok t (initial_peers cfg t known) /\ count_waiting (initial_peers cfg t known) = 0
  /\ (forall d, ~ Contacted (initial_peers cfg t known) d).
Proof.
  intros Hk. split_and!.
  - split; [apply bt_collect_ok|]. apply Forall_forall. intros e He.
    apply initial_peers_elem in He as (k & Hin & ->). rewrite Forall_forall in Hk. by split; auto.
  - apply no_waiting. intros e He. by apply initial_peers_elem in He as (k & _ & ->).
  - intros d (p & Hp & Hc). by apply initial_peers_elem in Hp as (k & _ & [= -> ->]).
Qed.

(** When nobody is waited for, contacted peers have settled. *)
Lemma all_settled now m :
  Forall (fun e => QueryPeerState.contacted (st e.2) = true) m ->
  count_waiting (expire_all now m) <= 0 ->
  Forall (fun e => QueryPeerState.settled (st e.2) = true) (expire_all now m).
Proof.
  induction 1 as [|[d p] m Hc Hf IH]; simpl; intros Hw; [constructor|].
  pose proof (count_waiting_nonneg (expire_all now m)) as Hn. simpl in Hc.
  destruct (QueryPeerState.is_waiting (st (expire now p))) eqn:Ew; [lia|].
  constructor; [|auto with lia]. simpl.
  apply expire_settled; [done|]. unfold expire, live in *.
  destruct (st p) eqn:E; try done. destruct (timeout <=? now); [done|].
  by rewrite E in Ew.
Qed.

Lemma count_waiting_expire now m : count_waiting (expire_all now m) <= count_waiting m.
Proof.
  induction m as [|[d p] m IH]; simpl; [lia|]. unfold expire.
  destruct (st p) eqn:E; simpl; rewrite ?E; simpl; try lia.
  destruct (timeout <=? now); simpl; rewrite ?E; simpl; lia.
Qed.

(** Advancing keeps the set of known nodes. *)
Lemma advances_within (U : list N) m m' :
  Forall2 advances m m' -> Forall (fun e => preimage (QueryPeer.key e.2) ∈ U) m ->
  Forall (fun e => preimage (QueryPeer.key e.2) ∈ U) m'.
Proof.
  induction 1 as [|e e' m m' (_ & Hk & _) _ IH]; intros Hf; [constructor|].
  apply Forall_cons in Hf as [He Hf]. constructor; [by rewrite Hk | auto].
Qed.

(** [poll] adds at most one running request, and none at capacity. *)
Lemma po_count_waiting cfg now cap rc m m' out :
  poll_outcome cfg now cap rc m m' out ->
  count_waiting m' <= count_waiting m + if cap then 0 else 1.
Proof.
  induction 1 as [| rc d p rest -> Hs | | | rc d p rest rest' out Hc Hl _ IH]; simpl.
  - destruct cap; lia.
  - rewrite Hs. simpl. lia.
  - destruct cap; lia.
  - destruct cap; lia.
  - unfold expire. destruct (st p) eqn:E; simpl in *; rewrite ?E; simpl; try lia.
    destruct (timeout <=? now); simpl; rewrite ?E; simpl; lia.
Qed.

(** An entry is unique for its distance. *)
Lemma peers_unique m d p p' : bt_ok m -> (d, p) ∈ m -> (d, p') ∈ m -> p = p'.
Proof.
  intros Hb H1 H2. apply bt_elem_get in H1, H2; try done. congruence.
Qed.

(** The closest peer not contacted yet is handed out and only then contacted. *)
Lemma po_contact_fresh cfg now cap rc t m m' n :
  peers_ok t m ->
  poll_outcome cfg now cap rc m m' (Some (QueryState.Waiting (Some n))) ->
  ~ Contacted m (key_distance (into_key n) t) /\ Contacted m' (key_distance (into_key n) t).
Proof.
  intros [Hb Hf] Ho.
  destruct (po_contact_inv _ _ _ _ _ _ _ Ho) as (_ & m1 & d & p & m2 & -> & -> & -> & Hs & _).
  rewrite Forall_forall in Hf. destruct (Hf (d, p)) as [Hk Hd];
    [apply elem_of_app; right; left | simpl in *].
  rewrite Hk, <- Hd. split.
  - intros (p' & Hp' & Hc). assert (p' = p) as ->;
      [eapply peers_unique; [exact Hb | exact Hp' | apply elem_of_app; right; left]|].
    by rewrite Hs in Hc.
  - eexists. split; [apply elem_of_app; right; left | done].
Qed.
End Peers.

(** ** The peers that succeeded *)

Section Succeeded.
Context {N : Type} `{K : KeyLib N} `{!KeyLibOk N}.
Implicit Types (m : list (Z * QueryPeer.t N)) (t : Key).
#[local] Abbreviation st := QueryPeer.state.

Lemma succeeded_app m1 m2 : succeeded (m1 ++ m2) = succeeded m1 ++ succeeded m2.
Proof.
  induction m1 as [|[d p] m1 IH]; simpl; [done|]. rewrite IH. by destruct (st p).
Qed.

Lemma succeeded_elem m n :
  n ∈ succeeded m <->
  exists e, e ∈ m /\ st e.2 = QueryPeerState.Succeeded /\ n = preimage (QueryPeer.key e.2).
Proof.
  induction m as [|[d p] m IH]; simpl.
  { split; [intros Hn; by apply elem_of_nil in Hn | intros (e & He & _); by apply elem_of_nil in He]. }
  transitivity ((st p = QueryPeerState.Succeeded /\ n = preimage (QueryPeer.key p)) \/ n ∈ succeeded m).
  - destruct (st p); rewrite ?elem_of_cons; naive_solver.
  - rewrite IH. split.
    + intros [[Hs ->]|(e & He & Hr)]; [exists (d, p) | exists e]; (split; [|done]);
        [by left | by right].
    + intros (e & [->|He]%elem_of_cons & Hr); [by left | right; eauto].
Qed.

(** The distance of a node to the target. *)
Definition dist t (n : N) : Z := key_distance (into_key n) t.

Lemma peer_ok_dist t d p : peer_ok t (d, p) -> dist t (preimage (QueryPeer.key p)) = d.
Proof. intros [Hk Hd]. unfold dist. simpl in *. by rewrite Hk. Qed.

Lemma succeeded_dist t m :
  Forall (peer_ok t) m -> forall x, x ∈ map (dist t) (succeeded m) -> x ∈ m.*1.
Proof.
  intros Hf x Hx. apply list_elem_of_fmap in Hx as (n & -> & Hn).
  apply succeeded_elem in Hn as ([d p] & He & _ & ->). rewrite Forall_forall in Hf.
  simpl. rewrite (peer_ok_dist t d p) by auto. by apply (list_elem_of_fmap_2 fst) in He.
Qed.

(** They come in strictly increasing order of their distance. *)
Lemma succeeded_sorted t m :
  peers_ok t m -> StronglySorted Z.lt (map (dist t) (succeeded m)).
Proof.
  induction m as [|[d p] m IH]; intros [Hb Hf]; [constructor|].
  apply bt_ok_cons in Hb as [Hb Hlt]. apply Forall_cons in Hf as [Hp Hf].
  assert (IH' : StronglySorted Z.lt (map (dist t) (succeeded m))) by (by apply IH).
  simpl. destruct (st p); try done. simpl. constructor; [done|].
  apply Forall_forall. intros x Hx. apply (succeeded_dist t m Hf) in Hx.
  rewrite (peer_ok_dist t d p Hp). apply list_elem_of_fmap in Hx as (e & -> & He).
  rewrite Forall_forall in Hlt. by apply Hlt.
Qed.

Lemma sorted_take {A} (R : A -> A -> Prop) l k : StronglySorted R l -> StronglySorted R (take k l).
Proof.
  revert k. induction l as [|a l IH]; intros [|k] Hs; try constructor; simpl.
  - apply StronglySorted_inv in Hs as [Hs _]. auto.
  - apply StronglySorted_inv in Hs as [_ Hf]. by apply Forall_take.
Qed.

Lemma sorted_map_filter {A} (f : A -> Z) (P : A -> Prop) `{!forall x, Decision (P x)} l :
  StronglySorted Z.lt (map f l) -> StronglySorted Z.lt (map f (filter P l)).
Proof.
  induction l as [|a l IH]; intros Hs; [constructor|]. simpl in Hs.
  apply StronglySorted_inv in Hs as [Hs Hf]. rewrite filter_cons.
  destruct (decide (P a)); [|auto]. simpl. constructor; [auto|].
  rewrite Forall_forall in Hf |- *. intros x Hx. apply Hf.
  apply list_elem_of_fmap in Hx as (y & -> & Hy). apply list_elem_of_filter in Hy as [_ Hy].
  by apply (list_elem_of_fmap_2 f).
Qed.

(** Cutting a strictly increasing list keeps everything below what it keeps. *)
Lemma sorted_take_closed {A} (f : A -> Z) l k x y :
  StronglySorted Z.lt (map f l) -> x ∈ l -> y ∈ take k l -> f x < f y -> x ∈ take k l.
Proof.
  revert k. induction l as [|a l IH]; intros k Hs Hx Hy Hlt; [by apply elem_of_nil in Hx|].
  destruct k as [|k]; [by apply elem_of_nil in Hy|]. simpl in *.
  apply StronglySorted_inv in Hs as [Hs Hf].
  apply elem_of_cons in Hx as [->|Hx]; [left|].
  apply elem_of_cons in Hy as [->|Hy]; [|right; eauto].
  rewrite Forall_forall in Hf. specialize (Hf (f x) (list_elem_of_fmap_2 f _ _ Hx)). lia.
Qed.

(** What [take] returns of the settled part is what a lookup owes. *)
Lemma closest_result t m1 m2 k :
  peers_ok t (m1 ++ m2) ->
  Forall (fun e => QueryPeerState.settled (st e.2) = true) m1 ->
  (k <= length (succeeded m1))%nat \/ m2 = [] ->
  let r := take k (succeeded (m1 ++ m2)) in
  forall e, e ∈ m1 ++ m2 ->
    (length r < k)%nat \/ (exists n, n ∈ r /\ e.1 < dist t n) ->
    QueryPeerState.settled (st e.2) = true
    /\ (st e.2 = QueryPeerState.Succeeded -> preimage (QueryPeer.key e.2) ∈ r).
Proof.
  intros Hok Hset Henough r [d p] He Hclose.
  assert (Hin1 : (d, p) ∈ m1).
  { apply elem_of_app in He as [He|He]; [done|]. exfalso.
    destruct Henough as [Hk | ->]; [|by apply elem_of_nil in He].
    assert (Hr : r = take k (succeeded m1)) by (unfold r; by rewrite succeeded_app, take_app_le).
    destruct Hclose as [Hlen|(n & Hn & Hlt)].
    - rewrite Hr, length_take in Hlen. lia.
    - rewrite Hr in Hn. apply elem_of_take in Hn as (i & Hi & _).
      apply list_elem_of_lookup_2, (list_elem_of_fmap_2 (dist t)) in Hi.
      destruct Hok as [Hb Hf]. apply Forall_app in Hf as [Hf _].
      apply (succeeded_dist t m1 Hf), list_elem_of_fmap in Hi as (e' & Ee' & He').
      apply list_elem_of_split in He as (l1 & l2 & ->).
      rewrite app_assoc in Hb. pose proof (bt_ok_app_lt _ _ _ Hb) as Hlt'.
      rewrite Forall_forall in Hlt'. specialize (Hlt' e').
      rewrite <- Ee' in Hlt'. simpl in *.
      specialize (Hlt' ltac:(apply elem_of_app; by left)). lia. }
  rewrite Forall_forall in Hset. split; [by apply (Hset (d, p))|]. simpl. intros Hs.
  assert (Hn : preimage (QueryPeer.key p) ∈ succeeded (m1 ++ m2))
    by (apply succeeded_elem; exists (d, p); split; [done | by split]).
  destruct Hclose as [Hlen|(n & Hn' & Hlt)].
  - unfold r in *. rewrite length_take in Hlen. by rewrite take_ge by lia.
  - eapply (sorted_take_closed (dist t)); [by apply succeeded_sorted | done | exact Hn' |].
    destruct Hok as [_ Hf]. rewrite Forall_forall in Hf.
    by rewrite (peer_ok_dist t d p) by auto.
Qed.
End Succeeded.

(** ** The invariant of a lookup *)

Section Lookup.
Context {N : Type} `{K : KeyLib N} `{!KeyLibOk N}.
Implicit Types (m : list (Z * QueryPeer.t N)) (cfg : QueryConfig) (t : Key) (nw : Z).
#[local] Abbreviation st := QueryPeer.state.

(** Peers are filed under their distance, [num_waiting] counts the waiting ones,
    and never more requests run than the configuration permits. *)
Record lookup_inv cfg t m nw : Prop := {
  li_config : config_ok cfg;
  li_peers : peers_ok t m;
  li_waiting : nw = count_waiting m;
  li_capacity : nw <= Z.max (parallelism cfg) (num_results cfg);
}.

Lemma lookup_inv_initial cfg t known :
  config_ok cfg -> Forall (fun k => into_key (preimage k) = k) known ->
  lookup_inv cfg t (initial_peers cfg t known) 0.
Proof.
  intros Hc Hk. destruct (initial_peers_ok cfg t known Hk) as (Hp & Hw & _).
  destruct Hc as (H1 & H2 & H3). unfold is_u64 in *.
  split; [by split_and! | done | by rewrite Hw | lia].
Qed.

(** How [on_success] and [on_failure] write to an entry. *)
Definition marks (f : QueryPeer.t N -> QueryPeer.t N) : Prop :=
  forall p, QueryPeer.key (f p) = QueryPeer.key p
    /\ QueryPeerState.contacted (st (f p)) = true
    /\ QueryPeerState.is_waiting (st (f p)) = false.

(** Marking a peer that was waited for, or that was given up. *)
Lemma lookup_inv_mark cfg t m nw d f p :
  lookup_inv cfg t m nw -> marks f -> bt_get d m = Some p ->
  Forall2 advances m (bt_update d f m)
  /\ if QueryPeerState.is_waiting (st p)
     then (0 < nw < U64_MOD) /\ lookup_inv cfg t (bt_update d f m) (nw - 1)
     else lookup_inv cfg t (bt_update d f m) nw.
Proof.
  intros [Hc Hp Hw Hcap] Hf Hg.
  assert (Ha : Forall2 advances m (bt_update d f m))
    by (apply update_advances; intros p'; apply (Hf p')).
  split; [done|]. pose proof (count_waiting_update d f p m Hg) as Hu.
  destruct (bt_update_split d f p m Hg) as (m1 & m2 & E1 & _).
  destruct (Hf p) as (_ & _ & Hwf). simpl in Hu. rewrite Hwf in Hu.
  assert (Hpos : count_waiting [(d, p)] <= nw).
  { rewrite Hw, E1, count_waiting_app. simpl.
    pose proof (count_waiting_nonneg m1). pose proof (count_waiting_nonneg m2). lia. }
  simpl in Hpos. pose proof (advances_peers_ok t _ _ Ha Hp).
  destruct Hc as (H1 & H2 & H3). unfold is_u64 in *.
  destruct (QueryPeerState.is_waiting (st p)).
  - split; [lia|]. split; [by split_and! | done | lia | lia].
  - split; [by split_and! | done | lia | lia].
Qed.

Lemma lookup_inv_incorporate cfg t m nw nc b l :
  lookup_inv cfg t m nw -> lookup_inv cfg t (incorporate cfg t nc m b l).1 nw.
Proof.
  intros [Hc Hp Hw Hcap]. destruct (incorporate_spec cfg t nc m b l Hp) as (Hp' & Hw' & _).
  split; [done | done | by rewrite Hw' | done].
Qed.

(** The loop of [poll], run from a state that satisfies the invariant. *)
Lemma lookup_inv_poll cfg t m nw now p :
  lookup_inv cfg t m nw -> p <> QueryProgress.Finished ->
  exists m' nw' out,
    poll_loop cfg now (capacity_reached cfg p nw) (Some 0) nw m = Ok (m', nw', out)
    /\ lookup_inv cfg t m' nw'
    /\ poll_outcome cfg now (capacity_reached cfg p nw) (Some 0) m m' out.
Proof.
  intros [Hc Hp Hw Hcap] Hnf. pose proof Hc as (H1 & H2 & H3). unfold is_u64 in *.
  set (cap := capacity_reached cfg p nw).
  assert (Hfree : cap = false -> nw < Z.max (parallelism cfg) (num_results cfg))
    by (unfold cap, capacity_reached; destruct p; [lia | lia | done]).
  destruct (poll_loop_spec cfg now cap (Some 0) nw m Hc) as (m' & out & -> & Ho).
  { intros c [= <-]. lia. }
  { lia. }
  { intros E. specialize (Hfree E). lia. }
  eexists _, _, _. split_and!; [done | | done].
  split; [done | eauto using advances_peers_ok, po_advances | lia |].
  assert (count_waiting m' <= count_waiting m + if cap then 0 else 1) as Hb
    by exact (po_count_waiting _ _ _ _ _ _ _ Ho).
  destruct cap; [lia | specialize (Hfree eq_refl); lia].
Qed.
End Lookup.

(** ** The [Query] trait *)

Class Query (N Q : Type) `{K : KeyLib N} := {
  Response : Type;
  Result : Type;
  target : Q -> Key;
  started : Q -> option Z;
  start : Q -> Z -> Q;
  on_failure : Q -> N -> res Empty_set Q;
  on_success : Q -> N -> Response -> res Empty_set Q;
  poll : Q -> Z -> res Empty_set (Q * QueryState.t N);
  into_result : Q -> Result;
}.

Section Runs.
Context {N Q : Type} `{QI : Query N Q}.

(** The calls that reach a query. *)
Inductive event :=
| EStart (now : Z)
| EFailure (peer : N)
| ESuccess (peer : N) (response : Response)
| EPoll (now : Z).

(** One call, with what [poll] returned. *)
Definition step (q : Q) (e : event) : res Empty_set (Q * option (QueryState.t N)) :=
  match e with
  | EStart now => Ok (start q now, None)
  | EFailure peer => let? q' := on_failure q peer in Ok (q', None)
  | ESuccess peer response => let? q' := on_success q peer response in Ok (q', None)
  | EPoll now => let? r := poll q now in Ok (r.1, Some r.2)
  end.

(** A sequence of calls, with the states [poll] returned in order. *)
Fixpoint run (q : Q) (es : list event) : res Empty_set (Q * list (QueryState.t N)) :=
  match es with
  | [] => Ok (q, [])
  | e :: es =>
      let? r := step q e in
      let? r' := run r.1 es in
      Ok (r'.1, option_list r.2 ++ r'.2)
  end.

(** The peers that [poll] handed out to be contacted. *)
Definition contact (s : QueryState.t N) : option N :=
  match s with QueryState.Waiting (Some n) => Some n | _ => None end.

Definition contacts (l : list (QueryState.t N)) : list N := omap contact l.
End Runs.
Arguments event N Q {K QI}.

(** What a query promises to the code that drives it: every call returns, keeps the
    invariant, never forgets a contacted peer, [poll] only hands out peers that were
    not contacted before, and only [start] sets the time the query started. *)
Class QueryOk (N Q : Type) `{QI : Query N Q} := {
  q_inv : Q -> Prop;
  q_peers : Q -> list (Z * QueryPeer.t N);
  q_step q e : q_inv q ->
    exists q' out, step q e = Ok (q', out) /\ q_inv q' /\ target q' = target q
      /\ (forall d, Contacted (q_peers q) d -> Contacted (q_peers q') d)
      /\ (forall n, (out ≫= contact) = Some n ->
           ~ Contacted (q_peers q) (key_distance (into_key n) (target q))
           /\ Contacted (q_peers q') (key_distance (into_key n) (target q)));
  q_start_started (q : Q) now : started (start q now) = Some now;
  q_poll_started (q : Q) now q' s : poll q now = Ok (q', s) -> started q' = started q;
}.

Section RunsOk.
Context {N Q : Type} `{QO : QueryOk N Q}.

(** Every run returns, keeps the invariant and contacts no peer twice. *)
Lemma run_ok (q : Q) es :
  q_inv q ->
  exists q' outs, run q es = Ok (q', outs) /\ q_inv q' /\ target q' = target q
    /\ (forall d, Contacted (q_peers q) d -> Contacted (q_peers q') d)
    /\ NoDup (contacts outs)
    /\ (forall n, n ∈ contacts outs ->
         ~ Contacted (q_peers q) (key_distance (into_key n) (target q))).
Proof.
  revert q. induction es as [|e es IH]; intros q Hq; simpl.
  { exists q, []. split_and!; auto; [constructor | intros n Hn; by apply elem_of_nil in Hn]. }
  destruct (q_step q e Hq) as (q1 & out & -> & Hq1 & Ht & Hm & Hc). simpl.
  destruct (IH q1 Hq1) as (q' & outs & -> & Hq' & Ht' & Hm' & Hn' & Hc'). simpl.
  rewrite Ht in *.
  exists q', (option_list out ++ outs). split_and!; [done | done | done | auto | |].
  - destruct out as [s|]; simpl; [|done]. destruct (contact s) as [n|] eqn:Es; [|done].
    constructor; [|done]. intros Hin. apply (Hc' n Hin), Hc. by simpl.
  - assert (Hlater : forall n, n ∈ contacts outs ->
      ~ Contacted (q_peers q) (key_distance (into_key n) (target q)))
      by (intros n Hin Hd; by apply (Hc' n Hin), Hm).
    intros n. destruct out as [s|]; simpl; [|apply Hlater].
    destruct (contact s) as [n'|] eqn:Es; [|apply Hlater].
    intros [->|Hin]%elem_of_cons; [by apply Hc | by apply Hlater].
Qed.
End RunsOk.

(** ** Where the peers of a query come from *)

Section Names.
Context {N : Type} `{K : KeyLib N} `{!KeyLibOk N}.
Implicit Types (m : list (Z * QueryPeer.t N)) (cfg : QueryConfig).

Definition peer_names m : list N := map (fun e => preimage (QueryPeer.key e.2)) m.

Lemma advances_names m m' : Forall2 advances m m' -> peer_names m' = peer_names m.
Proof.
  induction 1 as [|e e' m m' (_ & Hk & _) _ IH]; [done|]. simpl. by rewrite Hk, IH.
Qed.

Lemma initial_peers_names cfg t (known : list N) n :
  n ∈ peer_names (initial_peers cfg t (map into_key known)) -> n ∈ known.
Proof.
  intros (e & -> & (k & (n' & -> & Hn)%list_elem_of_fmap & ->)%initial_peers_elem)%list_elem_of_fmap.
  simpl. by rewrite preimage_into.
Qed.

Lemma incorporate_names cfg t nc m b l n :
  peers_ok t m -> n ∈ peer_names (incorporate cfg t nc m b l).1 -> n ∈ peer_names m \/ n ∈ l.
Proof.
  intros Hm (e & -> & He)%list_elem_of_fmap.
  destruct (incorporate_spec cfg t nc m b l Hm) as (_ & _ & _ & Hnew & _).
  apply Hnew in He as [He|(n' & Hn & ->)]; [left; by apply (list_elem_of_fmap_2 (fun e => preimage (QueryPeer.key e.2)))|].
  right. simpl. by rewrite preimage_into.
Qed.

Lemma po_contact_names cfg now cap rc m m' n :
  poll_outcome cfg now cap rc m m' (Some (QueryState.Waiting (Some n))) -> n ∈ peer_names m.
Proof.
  remember (Some (QueryState.Waiting (Some n))) as out eqn:Eo. intros H. revert Eo.
  induction H; intros Eo; simplify_eq/=; [by left | right; auto].
Qed.
End Names.

(** A query only knows the peers it started with and those that responses reported, and
    contacts only these. *)
Class QueryReports (N Q : Type) `{QO : QueryOk N Q} := {
  reported : Response -> list N;
  q_reports q e q' out : q_inv q -> step q e = Ok (q', out) ->
    (forall n, n ∈ peer_names (q_peers q') -> n ∈ peer_names (q_peers q)
       \/ exists peer r, e = ESuccess peer r /\ n ∈ reported r)
    /\ (forall n, (out ≫= contact) = Some n -> n ∈ peer_names (q_peers q));
}.
