(* ===== verification/FindNodes.v ===== *)
(** * The iterative node lookup.

    [portalnet/src/find/iterators/findnodes.rs]: the state machine behind a
    FINDNODES lookup.  Its invariant, that no call panics, that every peer is
    contacted at most once, what each answer of [poll] means, that a finished
    query returns the closest peers that answered, and that a lookup terminates. *)

From S2P Require Import Prelude.
From S2P Require Import BTree.
From S2P Require Import Query.

Module FindNodeQuery.

Record t (N : Type) `{K : KeyLib N} := mk {
  target_key : Key;
  started : option Z;
  progress : QueryProgress.t;
  closest_peers : list (Z * QueryPeer.t N);
  num_waiting : Z;
  config : QueryConfig;
}.
Arguments mk {N K}.
Arguments target_key {N K}.
Arguments started {N K}.
Arguments progress {N K}.
Arguments closest_peers {N K}.
Arguments num_waiting {N K}.
Arguments config {N K}.

Section Ops.
Context {N : Type} `{K : KeyLib N}.
Implicit Types (q : t N).

Definition with_config (config : QueryConfig) (target_key : Key) (known_closest_peers : list Key)
    : t N :=
  {| target_key := target_key;
     started := None;
     progress := QueryProgress.Iterating 0;
     closest_peers := initial_peers config target_key known_closest_peers;
     num_waiting := 0;
     config := config |}.

Definition start q (now : Z) : t N :=
  mk (target_key q) (Some now) (progress q) (closest_peers q) (num_waiting q) (config q).

(** The fields an operation writes. *)
Definition with_peers q m nw : t N :=
  mk (target_key q) (started q) (progress q) m nw (config q).
Definition with_progress q p : t N :=
  mk (target_key q) (started q) p (closest_peers q) (num_waiting q) (config q).

Definition at_capacity q : bool := capacity_reached (config q) (progress q) (num_waiting q).

(** In a release build the subtraction of [num_waiting] wraps. *)
Definition on_failure q (peer : N) : res Empty_set (t N) :=
  match progress q with
  | QueryProgress.Finished => Ok q
  | _ =>
      let distance := key_distance (into_key peer) (target_key q) in
      let failed := bt_update distance (QueryPeer.set_state QueryPeerState.Failed) (closest_peers q) in
      match bt_get distance (closest_peers q) with
      | None => Ok q
      | Some p =>
          match QueryPeer.state p with
          | QueryPeerState.Waiting _ => Ok (with_peers q failed (wrap64 (num_waiting q - 1)))
          | QueryPeerState.Unresponsive => Ok (with_peers q failed (num_waiting q))
          | _ => Ok q
          end
      end
  end.

(** Incorporating the response of a peer that succeeded. *)
Definition incorporate_response q (peer_response : list N) : t N :=
  let r := incorporate (config q) (target_key q) (Z.of_nat (length (closest_peers q)))
             (closest_peers q) false peer_response in
  mk (target_key q) (started q) (update_progress (config q) r.2 (progress q))
     r.1 (num_waiting q) (config q).

Definition on_success q (peer : N) (peer_response : list N) : res Empty_set (t N) :=
  match progress q with
  | QueryProgress.Finished => Ok q
  | _ =>
      let distance := key_distance (into_key peer) (target_key q) in
      let marked :=
        bt_update distance
          (fun p => QueryPeer.set_state QueryPeerState.Succeeded
                      (QueryPeer.increment_peers_returned p (Z.of_nat (length peer_response))))
          (closest_peers q) in
      match bt_get distance (closest_peers q) with
      | None => Ok q
      | Some p =>
          match QueryPeer.state p with
          | QueryPeerState.Waiting _ =>
              if 0 <? num_waiting q then
                Ok (incorporate_response (with_peers q marked (num_waiting q - 1)) peer_response)
              else Panic
          | QueryPeerState.Unresponsive =>
              Ok (incorporate_response (with_peers q marked (num_waiting q)) peer_response)
          | QueryPeerState.NotContacted | QueryPeerState.Failed | QueryPeerState.Succeeded => Ok q
          end
      end
  end.

Definition poll q (now : Z) : res Empty_set (t N * QueryState.t N) :=
  match progress q with
  | QueryProgress.Finished => Ok (q, QueryState.Finished)
  | _ =>
      let? r := poll_loop (config q) now (at_capacity q) (Some 0) (num_waiting q) (closest_peers q) in
      let q' := with_peers q r.1.1 r.1.2 in
      match r.2 with
      | Some QueryState.Finished =>
          Ok (with_progress q' QueryProgress.Finished, QueryState.Finished)
      | Some s => Ok (q', s)
      | None =>
          if 0 <? num_waiting q' then Ok (q', QueryState.Waiting None)
          else Ok (with_progress q' QueryProgress.Finished, QueryState.Finished)
      end
  end.

Definition into_result q : list N :=
  take (Z.to_nat (num_results (config q))) (succeeded (closest_peers q)).

#[global] Instance query : Query N (t N) := {|
  Query.Response := list N;
  Query.Result := list N;
  Query.target := target_key;
  Query.started := started;
  Query.start := start;
  Query.on_failure := on_failure;
  Query.on_success := on_success;
  Query.poll := poll;
  Query.into_result := into_result;
|}.
End Ops.

(** ** The invariant *)

Section Invariant.
Context {N : Type} `{K : KeyLib N} `{!KeyLibOk N}.
Implicit Types (q : t N).
#[local] Abbreviation st := QueryPeer.state.

Definition inv q : Prop :=
  lookup_inv (config q) (target_key q) (closest_peers q) (num_waiting q).

Lemma with_config_inv cfg target known :
  config_ok cfg -> Forall (fun k => into_key (preimage k) = k) known ->
  inv (with_config cfg target known).
Proof. apply lookup_inv_initial. Qed.

(** Each operation keeps the target and the configuration, the invariant, and the
    memory of whom it contacted. *)
Definition moves q q' : Prop :=
  inv q' /\ config q' = config q /\ target_key q' = target_key q
  /\ (forall d, Contacted (closest_peers q) d -> Contacted (closest_peers q') d).

Lemma moves_refl q : inv q -> moves q q.
Proof. intros Hq. by split_and!. Qed.

(** A call that returns. *)
Lemma moves_ret q q' : moves q q' -> exists q'', Ok q' = Ok (E := Empty_set) q'' /\ moves q q''.
Proof. eauto. Qed.

Lemma mark_failed : marks (N := N) (QueryPeer.set_state QueryPeerState.Failed).
Proof. by intros p. Qed.

Lemma mark_succeeded k :
  marks (N := N) (fun p => QueryPeer.set_state QueryPeerState.Succeeded
                             (QueryPeer.increment_peers_returned p k)).
Proof. by intros p. Qed.

(** A query whose peers were marked, and its lookup state with them. *)
Lemma moves_with_peers q m nw :
  lookup_inv (config q) (target_key q) m nw -> Forall2 advances (closest_peers q) m ->
  moves q (with_peers q m nw).
Proof.
  intros Hi Ha. split_and!; [done | done | done |].
  intros d. by apply advances_contacted.
Qed.

Lemma moves_incorporate q q1 l : moves q q1 -> moves q (incorporate_response q1 l).
Proof.
  intros (Hi & Hc & Ht & Hm). split_and!; simpl; [|done | done |].
  - unfold inv. simpl. by apply lookup_inv_incorporate.
  - intros d Hd. apply incorporate_contacted; [apply Hi | auto].
Qed.

Lemma on_failure_ok q peer : inv q -> exists q', on_failure q peer = Ok q' /\ moves q q'.
Proof.
  intros Hq. unfold on_failure. set (d := key_distance _ _). set (f := QueryPeer.set_state _).
  destruct (bt_get d (closest_peers q)) as [p|] eqn:Eg;
    [|destruct (progress q); eauto using moves_refl].
  destruct (lookup_inv_mark _ _ _ _ d f p Hq mark_failed Eg) as [Ha Hm].
  destruct (progress q), (QueryPeer.state p); simpl in Hm; apply moves_ret;
    auto using moves_refl, moves_with_peers;
    (rewrite wrap64_small; [apply moves_with_peers; [apply Hm | done]|]; unfold is_u64; lia).
Qed.

Lemma on_success_ok q peer l : inv q -> exists q', on_success q peer l = Ok q' /\ moves q q'.
Proof.
  intros Hq. unfold on_success. set (d := key_distance _ _).
  set (f := fun p => QueryPeer.set_state _ _).
  destruct (bt_get d (closest_peers q)) as [p|] eqn:Eg;
    [|destruct (progress q); eauto using moves_refl].
  pose proof (lookup_inv_mark _ _ _ _ d f p Hq (mark_succeeded _) Eg) as [Ha Hm].
  destruct (Z.ltb_spec 0 (num_waiting q));
    destruct (progress q), (QueryPeer.state p); simpl in Hm; (lia || apply moves_ret);
    auto using moves_refl;
    apply moves_incorporate, moves_with_peers; by try apply Hm.
Qed.

(** [poll] as the outcome of its loop. *)
Lemma poll_inv q now :
  inv q -> progress q <> QueryProgress.Finished ->
  exists m' nw' out,
    moves q (with_peers q m' nw')
    /\ poll_outcome (config q) now (at_capacity q) (Some 0) (closest_peers q) m' out
    /\ poll q now = Ok (match out with
         | Some QueryState.Finished =>
             (with_progress (with_peers q m' nw') QueryProgress.Finished, QueryState.Finished)
         | Some s => (with_peers q m' nw', s)
         | None =>
             if 0 <? count_waiting m' then (with_peers q m' nw', QueryState.Waiting None)
             else (with_progress (with_peers q m' nw') QueryProgress.Finished, QueryState.Finished)
         end).
Proof.
  intros Hq Hp. destruct (lookup_inv_poll _ _ _ _ now _ Hq Hp) as (m' & nw' & out & El & Hi & Ho).
  exists m', nw', out. split_and!; [by eapply moves_with_peers, po_advances| done |].
  unfold poll. change (at_capacity q) with (capacity_reached (config q) (progress q) (num_waiting q)).
  rewrite El. simpl. rewrite <- (li_waiting _ _ _ _ Hi).
  destruct (progress q), out as [[| |]|]; try done; by destruct (0 <? nw').
Qed.

Lemma poll_ok q now :
  inv q -> exists q' s, poll q now = Ok (q', s) /\ moves q q'
    /\ (forall n, contact s = Some n ->
         ~ Contacted (closest_peers q) (key_distance (into_key n) (target_key q))
         /\ Contacted (closest_peers q') (key_distance (into_key n) (target_key q))).
Proof.
  intros Hq. destruct (progress q) eqn:Ep.
  3: { unfold poll. rewrite Ep. exists q, QueryState.Finished. by split_and!; [|apply moves_refl|]. }
  all: destruct (poll_inv q now Hq) as (m' & nw' & out & Hm & Ho & ->); [by rewrite Ep|].
  all: destruct out as [[[n|]| |]|]; [| | | |destruct (0 <? count_waiting m')];
    eexists _, _; (split_and!; [done | done | simpl; try done]).
  all: intros ? [= <-]; eapply po_contact_fresh; [apply Hq | exact Ho].
Qed.

(** The query keeps the promises of a [Query]. *)
Lemma query_step q (e : event N (t N)) :
  inv q ->
  exists q' out, step q e = Ok (q', out) /\ inv q' /\ target q' = target q
    /\ (forall d, Contacted (closest_peers q) d -> Contacted (closest_peers q') d)
    /\ (forall n, (out ≫= contact) = Some n ->
         ~ Contacted (closest_peers q) (key_distance (into_key n) (target q))
         /\ Contacted (closest_peers q') (key_distance (into_key n) (target q))).
Proof.
  destruct e as [now|peer|peer l|now]; intros Hq; simpl.
  - eexists _, None. by split_and!.
  - destruct (on_failure_ok q peer Hq) as (q' & -> & Hi & _ & Ht & Hm).
    exists q', None. by split_and!.
  - destruct (on_success_ok q peer l Hq) as (q' & -> & Hi & _ & Ht & Hm).
    exists q', None. by split_and!.
  - destruct (poll_ok q now Hq) as (q' & s & -> & (Hi & _ & Ht & Hm) & Hc).
    exists q', (Some s). by split_and!.
Qed.

Lemma poll_started q now q' s : poll q now = Ok (q', s) -> started q' = started q.
Proof. unfold poll. intros H. by repeat (case_hyp H; simplify_eq/=). Qed.

#[global] Instance query_ok : QueryOk N (t N) :=
  {| q_inv := inv; q_peers := closest_peers; q_step := query_step;
     q_start_started _ _ := eq_refl; q_poll_started := poll_started |}.

Lemma on_success_names q peer l q' n :
  inv q -> on_success q peer l = Ok q' -> n ∈ peer_names (closest_peers q') ->
  n ∈ peer_names (closest_peers q) \/ n ∈ l.
Proof.
  intros Hq. unfold on_success. set (d := key_distance _ _). set (f := fun p => QueryPeer.set_state _ _).
  assert (Ha : Forall2 advances (closest_peers q) (bt_update d f (closest_peers q)))
    by (apply update_advances; done).
  assert (Hinc : forall nw, n ∈ peer_names (closest_peers (incorporate_response
    (with_peers q (bt_update d f (closest_peers q)) nw) l)) -> n ∈ peer_names (closest_peers q) \/ n ∈ l).
  { intros nw Hn. apply (incorporate_names _ (target_key q)) in Hn; simpl in Hn; [by rewrite (advances_names _ _ Ha) in Hn|].
    eapply advances_peers_ok; [exact Ha | apply Hq]. }
  intros H. repeat (case_hyp H; simplify_eq/=); eauto.
Qed.

Lemma on_failure_names q peer q' :
  on_failure q peer = Ok q' -> peer_names (closest_peers q') = peer_names (closest_peers q).
Proof.
  unfold on_failure. set (d := key_distance _ _). set (f := QueryPeer.set_state _).
  assert (Ha : Forall2 advances (closest_peers q) (bt_update d f (closest_peers q)))
    by (apply update_advances; done).
  intros H. repeat (case_hyp H; simplify_eq/=); auto using advances_names.
Qed.

Lemma poll_names q now q' s :
  inv q -> poll q now = Ok (q', s) ->
  peer_names (closest_peers q') = peer_names (closest_peers q)
  /\ forall n, contact s = Some n -> n ∈ peer_names (closest_peers q).
Proof.
  intros Hq. destruct (progress q) eqn:Ep.
  3: { unfold poll. rewrite Ep. by intros [= <- <-]. }
  all: destruct (poll_inv q now Hq) as (m' & nw' & out & _ & Ho & ->); [by rewrite Ep|].
  all: intros [= E]; pose proof (advances_names _ _ (po_advances _ _ _ _ _ _ _ Ho)) as Hn.
  all: destruct out as [[[n|]| |]|]; [| | | |destruct (0 <? count_waiting m')]; simplify_eq/=.
  all: split; [done|]; intros ? [= <-]; by eapply po_contact_names.
Qed.

Lemma query_reports q (e : event N (t N)) q' out :
  inv q -> step q e = Ok (q', out) ->
  (forall n, n ∈ peer_names (closest_peers q') -> n ∈ peer_names (closest_peers q)
     \/ exists peer r, e = ESuccess peer r /\ n ∈ r)
  /\ (forall n, (out ≫= contact) = Some n -> n ∈ peer_names (closest_peers q)).
Proof.
  intros Hq. destruct e as [now|peer|peer l|now]; simpl; intros H.
  - simplify_eq/=. split; [auto | done].
  - destruct (on_failure q peer) eqn:Ef; simplify_eq/=. split; [|done]. intros n.
    rewrite (on_failure_names q peer) by done. auto.
  - destruct (on_success q peer l) eqn:Es; simplify_eq/=. split; [|done]. intros n Hn.
    destruct (on_success_names q peer l q' n Hq Es Hn) as [?|?]; eauto.
  - destruct (poll q now) as [[q1 s]| |] eqn:Ep; simplify_eq/=.
    destruct (poll_names q now q' s Hq Ep) as [-> Hc]. split; [auto | exact Hc].
Qed.

#[global] Instance find_nodes_reports : QueryReports N (t N) :=
  {| reported l := l; q_reports := query_reports |}.

(** ** What a run of calls guarantees *)

(** C2: A lookup created by [with_config] survives every sequence of calls: none of
    its assertions ever fails and [num_waiting] never wraps, [num_waiting] is the
    number of peers in state [Waiting], never more requests run than the larger of
    [parallelism] and [num_results], and no peer is handed out to be contacted
    twice. *)
Theorem find_nodes_run_safe cfg target known (es : list (event N (t N))) :
  config_ok cfg -> Forall (fun k => into_key (preimage k) = k) known ->
  exists q outs, run (with_config cfg target known) es = Ok (q, outs)
    /\ num_waiting q = count_waiting (closest_peers q)
    /\ num_waiting q <= Z.max (parallelism (config q)) (num_results (config q))
    /\ bt_ok (closest_peers q)
    /\ NoDup (contacts outs).
Proof.
  intros Hc Hk.
  destruct (run_ok (with_config cfg target known) es) as (q & outs & -> & Hi & _ & _ & Hn & _);
    [by apply with_config_inv|].
  exists q, outs. destruct Hi as [_ [Hb _] Hw Hcap]. by split_and!.
Qed.

(** What each answer of [poll] on a query that is not finished means.
    [Waiting(Some(n))]: the query was below capacity and [n] is the closest known
    peer that was not contacted; it is now waited for until [now + peer_timeout].
    [Waiting(None)]: every known peer was contacted and some request still runs.
    [WaitingAtCapacity]: the permitted number of requests was running.
    [Finished]: the query is finished. On the way the requests that were passed
    over and whose time is up have been given up. *)
Theorem poll_answer_spec q now :
  inv q -> progress q <> QueryProgress.Finished ->
  exists q' s, poll q now = Ok (q', s) /\ inv q' /\
  match s with
  | QueryState.Waiting (Some n) =>
      at_capacity q = false /\ progress q' = progress q
      /\ exists m1 d p m2, closest_peers q = m1 ++ (d, p) :: m2
        /\ n = preimage (QueryPeer.key p) /\ st p = QueryPeerState.NotContacted
        /\ Forall (fun e => QueryPeerState.contacted (st e.2) = true) m1
        /\ closest_peers q' = expire_all now m1
             ++ (d, QueryPeer.set_state
                      (QueryPeerState.Waiting (now + peer_timeout (config q))) p) :: m2
  | QueryState.Waiting None =>
      progress q' = progress q /\ 0 < num_waiting q'
      /\ Forall (fun e => QueryPeerState.contacted (st e.2) = true) (closest_peers q)
      /\ closest_peers q' = expire_all now (closest_peers q)
  | QueryState.WaitingAtCapacity => at_capacity q = true /\ progress q' = progress q
  | QueryState.Finished => progress q' = QueryProgress.Finished
  end.
Proof.
  intros Hq Hp. destruct (poll_inv q now Hq Hp) as (m' & nw' & out & (Hm & _) & Ho & ->).
  pose proof (li_waiting _ _ _ _ Hm) as Hw. simpl in Hw.
  destruct out as [[[n|]| |]|]; [| | | |destruct (Z.ltb_spec 0 (count_waiting m'))];
    (eexists _, _; split; [done|]; split; [done|]); simpl.
  - destruct (po_contact_inv _ _ _ _ _ _ _ Ho) as (Hcap & m1 & d & p & m2 & H1 & H2 & H3 & H4 & H5).
    split_and!; [done | done | by exists m1, d, p, m2].
  - by apply po_waiting_none_inv in Ho.
  - apply po_full_inv in Ho. by split.
  - done.
  - apply po_end_inv in Ho as [-> Hf]. split_and!; [done | lia | done | done].
  - done.
Qed.

(** A query finishes with a prefix of settled peers that has enough successes, or
    with all peers settled. *)
Lemma poll_finished q q' now :
  inv q -> progress q <> QueryProgress.Finished ->
  poll q now = Ok (q', QueryState.Finished) ->
  inv q' /\ config q' = config q /\ target_key q' = target_key q
  /\ exists m1 m2, closest_peers q' = m1 ++ m2
    /\ Forall (fun e => QueryPeerState.settled (st e.2) = true) m1
    /\ ((Z.to_nat (num_results (config q)) <= length (succeeded m1))%nat \/ m2 = []).
Proof.
  intros Hq Hp Hpoll. destruct (poll_inv q now Hq Hp) as (m' & nw' & out & (Hm & Hc & Ht & _) & Ho & E).
  rewrite E in Hpoll. clear E.
  destruct out as [[[n|]| |]|]; [done | done | done | |]; simpl in Hpoll.
  - injection Hpoll as <-. apply po_finish_inv in Ho as (m1 & m2 & -> & Hf & Hn).
    split_and!; [done | done | done |]. exists m1, m2. split_and!; [done | done | left; lia].
  - destruct (Z.ltb_spec 0 (count_waiting m')) as [|Hz]; [done|]. injection Hpoll as <-.
    apply po_end_inv in Ho as [-> Hf]. split_and!; [done | done | done |].
    eexists _, []. split_and!; [by rewrite app_nil_r | | by right].
    apply all_settled; [done|]. lia.
Qed.

(** C10: A lookup that finishes returns the closest peers that answered: at most
    [num_results] of them, by strictly increasing distance to the target; and every
    known peer closer to the target than a returned one (every known peer, when
    fewer than [num_results] are returned) has either answered, and then it is
    returned, or failed, or let its time run out. *)
Theorem find_nodes_result_closest q q' now :
  inv q -> progress q <> QueryProgress.Finished ->
  poll q now = Ok (q', QueryState.Finished) ->
  let r := into_result q' in
  let k := Z.to_nat (num_results (config q)) in
  (length r <= k)%nat
  /\ StronglySorted Z.lt (map (dist (target_key q)) r)
  /\ forall e, e ∈ closest_peers q' ->
       (length r < k)%nat \/ (exists n, n ∈ r /\ e.1 < dist (target_key q) n) ->
       QueryPeerState.settled (st e.2) = true
       /\ (st e.2 = QueryPeerState.Succeeded -> preimage (QueryPeer.key e.2) ∈ r).
Proof.
  intros Hq Hp Hpoll r k.
  destruct (poll_finished q q' now Hq Hp Hpoll) as (Hi & Hc & Ht & m1 & m2 & Em & Hf & He).
  unfold r, into_result. rewrite Hc. fold k. pose proof (li_peers _ _ _ _ Hi) as Hok.
  rewrite Em, Ht in *. split_and!.
  - rewrite length_take. lia.
  - rewrite <- firstn_map. by apply sorted_take, succeeded_sorted.
  - by apply closest_result.
Qed.

(** ** Termination *)

(** A lookup driven one request at a time: [answer n] is what contacting [n] yields,
    [None] for a failure; [clock] gives the time of each poll. *)
Fixpoint drive (answer : N -> option (list N)) (clock : nat -> Z) (fuel : nat) q
    : option (list N) :=
  match fuel with
  | O => None
  | S fuel =>
      match poll q (clock fuel) with
      | Ok (q', QueryState.Finished) => Some (into_result q')
      | Ok (q', QueryState.Waiting (Some n)) =>
          match match answer n with
                | Some l => on_success q' n l
                | None => on_failure q' n
                end with
          | Ok q'' => drive answer clock fuel q''
          | _ => None
          end
      | _ => None
      end
  end.

(** Every known peer is one of [U]. *)
Definition within (U : list N) q : Prop :=
  Forall (fun e => preimage (QueryPeer.key e.2) ∈ U) (closest_peers q).

(** With nothing running, [poll] finishes or hands out a peer. *)
Lemma poll_idle q now :
  inv q -> 0 < parallelism (config q) -> 0 < num_results (config q) -> num_waiting q = 0 ->
  exists q' s, poll q now = Ok (q', s) /\
    (s = QueryState.Finished \/ exists n, s = QueryState.Waiting (Some n)).
Proof.
  intros Hq Hpar Hres Hw. destruct (progress q) eqn:Ep.
  3: { unfold poll. rewrite Ep. eexists _, _. by split; [|left]. }
  all: destruct (poll_inv q now Hq) as (m' & nw' & out & Hm & Ho & ->); [by rewrite Ep|].
  all: assert (Hcap : at_capacity q = false) by
      (unfold at_capacity; rewrite Ep; simpl; rewrite Hw; lia).
  all: destruct out as [[[n|]| |]|]; [eauto 10 | by apply po_waiting_none_inv in Ho
    | apply po_full_inv in Ho; congruence | eauto 10 |].
  all: apply po_end_inv in Ho as [-> _]; pose proof (count_waiting_expire now (closest_peers q)) as He.
  all: rewrite <- (li_waiting _ _ _ _ Hq), Hw in He.
  all: destruct (Z.ltb_spec 0 (count_waiting (expire_all now (closest_peers q)))); [lia | eauto 10].
Qed.

(** The peer [poll] handed out is filed as waiting, and is one that was known. *)
Lemma poll_contact q q' now n :
  inv q -> poll q now = Ok (q', QueryState.Waiting (Some n)) ->
  moves q q' /\ num_waiting q' <= num_waiting q + 1 /\ 1 <= num_waiting q'
  /\ progress q' <> QueryProgress.Finished
  /\ ~ Contacted (closest_peers q) (dist (target_key q) n)
  /\ Contacted (closest_peers q') (dist (target_key q) n)
  /\ (exists p timeout, bt_get (dist (target_key q) n) (closest_peers q') = Some p
        /\ st p = QueryPeerState.Waiting timeout)
  /\ (forall U, within U q -> within U q' /\ n ∈ U).
Proof.
  intros Hq Hpoll. assert (Hp : progress q <> QueryProgress.Finished)
    by (intros Hp; unfold poll in Hpoll; by rewrite Hp in Hpoll).
  destruct (poll_inv q now Hq Hp) as (m' & nw' & out & Hm & Ho & E).
  rewrite E in Hpoll. clear E.
  destruct out as [[[n'|]| |]|]; [|done | done | done | by destruct (0 <? count_waiting m')].
  injection Hpoll as <- ->. pose proof Hm as [Hi _].
  pose proof (po_contact_fresh _ _ _ _ _ _ _ _ (li_peers _ _ _ _ Hq) Ho) as [Hc1 Hc2].
  pose proof (po_count_waiting _ _ _ _ _ _ _ Ho) as Hcw.
  pose proof (li_waiting _ _ _ _ Hq). pose proof (li_waiting _ _ _ _ Hi) as Hw'. simpl in Hw'.
  destruct (po_contact_inv _ _ _ _ _ _ _ Ho) as (Hcap & m1 & d & p & m2 & E1 & E2 & -> & Hs & _).
  assert (Hd : dist (target_key q) (preimage (QueryPeer.key p)) = d).
  { apply peer_ok_dist. destruct (li_peers _ _ _ _ Hq) as [_ Hf]. rewrite E1 in Hf.
    rewrite Forall_forall in Hf. apply Hf, elem_of_app. right. left. }
  rewrite Hcap in Hcw. split_and!; [done | simpl; lia | | done | done | done | |].
  - simpl. rewrite Hw', E2, count_waiting_app. simpl.
    pose proof (count_waiting_nonneg (expire_all now m1)). pose proof (count_waiting_nonneg m2). lia.
  - eexists _, _. split; [|by instantiate (2 := QueryPeer.set_state _ p)].
    apply bt_elem_get; [by apply (li_peers _ _ _ _ Hi)|]. simpl. rewrite Hd, E2.
    apply elem_of_app. right. left.
  - intros U HU. unfold within in *. rewrite E1 in HU.
    split; [|by apply Forall_app in HU as [_ HU]; apply Forall_cons in HU as [? _]].
    eapply advances_within; [by eapply po_advances | by rewrite E1].
Qed.

(** Answering the peer that is waited for. *)
Lemma on_failure_waiting q n p timeout :
  inv q -> progress q <> QueryProgress.Finished ->
  bt_get (dist (target_key q) n) (closest_peers q) = Some p -> st p = QueryPeerState.Waiting timeout ->
  exists q', on_failure q n = Ok q' /\ moves q q' /\ num_waiting q' = num_waiting q - 1
    /\ forall U, within U q -> within U q'.
Proof.
  intros Hq Hp Hg Hs. destruct (lookup_inv_mark _ _ _ _ _ _ _ Hq mark_failed Hg) as [Ha Hm].
  rewrite Hs in Hm. destruct Hm as [Hb Hm].
  eexists. split; [unfold on_failure; fold (dist (target_key q) n); rewrite Hg, Hs;
    by destruct (progress q)|].
  simpl. rewrite wrap64_small by (unfold is_u64; lia). split_and!; [by apply moves_with_peers | done |].
  intros U. by apply advances_within.
Qed.

Lemma on_success_waiting q n p timeout l :
  inv q -> progress q <> QueryProgress.Finished ->
  bt_get (dist (target_key q) n) (closest_peers q) = Some p -> st p = QueryPeerState.Waiting timeout ->
  exists q', on_success q n l = Ok q' /\ moves q q' /\ num_waiting q' = num_waiting q - 1
    /\ forall U, within U q -> Forall (fun x => x ∈ U) l -> within U q'.
Proof.
  intros Hq Hp Hg Hs.
  destruct (lookup_inv_mark _ _ _ _ _ _ _ Hq (mark_succeeded (Z.of_nat (length l))) Hg) as [Ha Hm].
  rewrite Hs in Hm. destruct Hm as [Hb Hm].
  eexists. split.
  { unfold on_success. fold (dist (target_key q) n). rewrite Hg, Hs.
    destruct (Z.ltb_spec 0 (num_waiting q)); [by destruct (progress q) | lia]. }
  split_and!; [by apply moves_incorporate, moves_with_peers | done |].
  intros U HU Hl. unfold within. simpl.
  apply Forall_forall. intros e He.
  apply incorporate_spec in He as [He|(x & Hx & ->)]; [| |apply Hm].
  - eapply advances_within in Ha; [|exact HU]. rewrite Forall_forall in Ha. by apply Ha.
  - simpl. rewrite preimage_into. rewrite Forall_forall in Hl. by apply Hl.
Qed.

(** Peers already contacted bound the number of further requests. *)
Lemma drive_terminates answer clock (U : list N) fuel q c :
  inv q -> 0 < parallelism (config q) -> 0 < num_results (config q) -> num_waiting q = 0 ->
  within U q -> (forall n l, answer n = Some l -> Forall (fun x => x ∈ U) l) ->
  NoDup c -> c ⊆ U -> (forall n, n ∈ c -> Contacted (closest_peers q) (dist (target_key q) n)) ->
  (length U < length c + fuel)%nat ->
  exists r, drive answer clock fuel q = Some r.
Proof.
  revert q c. induction fuel as [|fuel IH]; intros q c Hq Hpar Hres Hw HU Hans Hnd Hsub Hc Hlen.
  { apply NoDup_submseteq, submseteq_length in Hsub; [lia | done]. }
  simpl. destruct (poll_idle q (clock fuel) Hq Hpar Hres Hw) as (q1 & s & Hpoll & [->|(n & ->)]);
    rewrite Hpoll; [by eauto|].
  destruct (poll_contact _ _ _ _ Hq Hpoll)
    as ((Hq1 & Hc1 & Ht1 & Hm1) & Hn1 & Hn2 & Hp1 & Hfresh & Hnow & (p & timeout & Hg & Hs) & HU1).
  destruct (HU1 U HU) as [HUq1 HnU]. rewrite <- Ht1 in Hg.
  assert (Hstep : exists q2, match answer n with
                  | Some l => on_success q1 n l | None => on_failure q1 n end = Ok q2
                /\ moves q1 q2 /\ num_waiting q2 = num_waiting q1 - 1 /\ within U q2).
  { destruct (answer n) as [l|] eqn:Ea.
    - destruct (on_success_waiting q1 n p timeout l Hq1 Hp1 Hg Hs) as (q2 & ? & ? & ? & Hw2). eauto 10.
    - destruct (on_failure_waiting q1 n p timeout Hq1 Hp1 Hg Hs) as (q2 & ? & ? & ? & Hw2). eauto 10. }
  destruct Hstep as (q2 & -> & (Hq2 & Hc2 & Ht2 & Hm2) & Hw2 & HU2).
  apply (IH q2 (n :: c)); rewrite ?Hc2, ?Hc1; try done; try lia.
  - constructor; [|done]. intros Hin. by apply Hfresh, Hc.
  - intros x [->|Hx]%elem_of_cons; [done | by apply Hsub].
  - rewrite Ht2, Ht1. intros x [->|Hx]%elem_of_cons; auto.
  - simpl. lia.
Qed.

(** C3: A lookup terminates: when the peers reported in the answers all come from a
    finite network [U], contacting one peer at a time the query finishes after at
    most [length U + 1] polls, whatever the peers answer, in whatever order they are
    reported and whatever the clock shows. *)
Theorem find_nodes_terminates cfg target known answer clock (U : list N) :
  config_ok cfg -> 0 < parallelism cfg -> 0 < num_results cfg ->
  Forall (fun k => into_key (preimage k) = k /\ preimage k ∈ U) known ->
  (forall n l, answer n = Some l -> Forall (fun x => x ∈ U) l) ->
  exists r, drive answer clock (S (length U)) (with_config cfg target known) = Some r.
Proof.
  intros Hc Hpar Hres Hk Hans.
  assert (Hk' : Forall (fun k => into_key (preimage k) = k) known)
    by (eapply Forall_impl; [exact Hk | naive_solver]).
  eapply (drive_terminates _ _ U _ _ []); simpl; auto.
  - by apply with_config_inv.
  - apply Forall_forall. intros e He. apply initial_peers_elem in He as (k & Hin & ->).
    rewrite Forall_forall in Hk. by apply Hk.
  - constructor.
  - intros x Hx. by apply elem_of_nil in Hx.
  - intros x Hx. by apply elem_of_nil in Hx.
Qed.
End Invariant.


(** ** Corner cases *)

(** The timeout of a peer depends on [poll] reaching it: at capacity, [poll]
    returns at the first peer that was not contacted, so requests to peers farther
    away are never given up by [poll] alone, however late it is called. Here peer 8
    answers after its time ran out and reports the closer peer 1, while the one
    permitted request waits for peer 9: from then on no [poll] changes anything. *)
Theorem poll_starvation :
  let cfg := {| parallelism := 1; num_results := 2; peer_timeout := 10 |} in
  let es : list (event Z (t Z)) :=
    [EPoll 0; EPoll 10; EPoll 10; @ESuccess Z (t Z) _ _ 8 [1]] in
  exists q outs, run (with_config cfg 0 [8; 9]) es = Ok (q, outs)
    /\ (QueryPeer.state <$> bt_get 9 (closest_peers q)) = Some (QueryPeerState.Waiting 20)
    /\ (QueryPeer.state <$> bt_get 1 (closest_peers q)) = Some QueryPeerState.NotContacted
    /\ forall now, poll q now = Ok (q, QueryState.WaitingAtCapacity).
Proof.
  eexists _, _. split; [vm_compute; reflexivity|]. split_and!; [reflexivity | reflexivity |].
  intros now. reflexivity.
Qed.

(** Only the last reported peer decides whether a response counts as progress:
    with [num_results] peers known, a response that reports a peer closer than all
    known ones followed by a farther one counts as no progress, while the same
    response in the other order does. *)
Theorem progress_last_peer_only :
  let cfg := {| parallelism := 3; num_results := 2; peer_timeout := 10 |} in
  let es l : list (event Z (t Z)) := [EPoll 0; @ESuccess Z (t Z) _ _ 8 l] in
  (exists q outs, run (with_config cfg 0 [8; 9]) (es [1; 10]) = Ok (q, outs)
     /\ progress q = QueryProgress.Iterating 1 /\ bt_first (closest_peers q) = Some 1)
  /\ (exists q outs, run (with_config cfg 0 [8; 9]) (es [10; 1]) = Ok (q, outs)
     /\ progress q = QueryProgress.Iterating 0 /\ bt_first (closest_peers q) = Some 1).
Proof.
  split; eexists _, _; (split; [vm_compute; reflexivity|]); split; reflexivity.
Qed.

End FindNodeQuery.

(** ** The theorems at work *)

Definition small_config : QueryConfig := {| parallelism := 2; num_results := 2; peer_timeout := 10 |}.

Lemma small_config_ok : config_ok small_config.
Proof. unfold config_ok, is_u64, U64_MOD; simpl; lia. Qed.

(** A lookup for 0 that starts from 12 and 13; 12 reports 4, 5 and 9, 13 fails. *)
Definition small_query : FindNodeQuery.t Z := FindNodeQuery.with_config small_config 0 [12; 13].

Definition small_events : list (event Z (FindNodeQuery.t Z)) :=
  [EPoll 0; EPoll 1; EPoll 2; @ESuccess Z (FindNodeQuery.t Z) _ _ 12 [4; 5; 9]; EFailure 13;
   EPoll 3; EPoll 4; @ESuccess Z (FindNodeQuery.t Z) _ _ 4 [];
   @ESuccess Z (FindNodeQuery.t Z) _ _ 5 [12]; EPoll 5].

Example small_run :
  (fun r => (FindNodeQuery.into_result r.1, r.2)) <$>
    match run small_query small_events with Ok r => Some r | _ => None end
  = Some ([4; 5], [QueryState.Waiting (Some 12); QueryState.Waiting (Some 13);
                   QueryState.WaitingAtCapacity; QueryState.Waiting (Some 4);
                   QueryState.Waiting (Some 5); QueryState.Finished]).
Proof. vm_compute. reflexivity. Qed.

Lemma small_query_inv : FindNodeQuery.inv small_query.
Proof. apply FindNodeQuery.with_config_inv; [apply small_config_ok | repeat constructor]. Qed.

(** The state before the last poll of [small_events]. *)
Definition small_last : FindNodeQuery.t Z :=
  Eval vm_compute in
    match run small_query (take 9 small_events) with Ok r => r.1 | _ => small_query end.

Lemma small_last_inv : FindNodeQuery.inv small_last.
Proof.
  destruct (run_ok (QO := FindNodeQuery.query_ok) small_query (take 9 small_events) small_query_inv) as (q & outs & Hr & Hi & _).
  assert (run small_query (take 9 small_events) = Ok (small_last, outs)) as E.
  { rewrite Hr. f_equal. f_equal. enough (Some q = Some small_last) by congruence.
    transitivity (match run small_query (take 9 small_events) with Ok r => Some r.1 | _ => None end);
      [by rewrite Hr | vm_compute; reflexivity]. }
  rewrite Hr in E. injection E as ->. exact Hi.
Qed.

Lemma find_nodes_run_safe_witness :
  exists q outs, run small_query small_events = Ok (q, outs)
    /\ FindNodeQuery.num_waiting q = count_waiting (FindNodeQuery.closest_peers q)
    /\ FindNodeQuery.num_waiting q <= Z.max (parallelism (FindNodeQuery.config q))
                                         (num_results (FindNodeQuery.config q))
    /\ bt_ok (FindNodeQuery.closest_peers q)
    /\ NoDup (contacts outs).
Proof.
  apply (FindNodeQuery.find_nodes_run_safe (K := xor_keys) small_config 0 [12; 13] small_events).
  - apply small_config_ok.
  - repeat constructor.
Defined.

Lemma poll_answer_spec_witness :
  exists q' s, FindNodeQuery.poll small_query 7 = Ok (q', s) /\ s = QueryState.Waiting (Some 12)
    /\ FindNodeQuery.inv q'.
Proof.
  destruct (FindNodeQuery.poll_answer_spec small_query 7 small_query_inv ltac:(discriminate))
    as (q' & s & Hp & Hi & _).
  exists q', s. split; [exact Hp|]. split; [|exact Hi].
  vm_compute in Hp. injection Hp as <- <-. reflexivity.
Defined.

Lemma find_nodes_result_closest_witness :
  exists q', FindNodeQuery.poll small_last 5 = Ok (q', QueryState.Finished)
    /\ FindNodeQuery.into_result q' = [4; 5]
    /\ StronglySorted Z.lt (map (dist (K := xor_keys) 0) (FindNodeQuery.into_result q')).
Proof.
  eexists. split; [vm_compute; reflexivity|]. split; [reflexivity|].
  eapply (FindNodeQuery.find_nodes_result_closest small_last _ 5).
  - exact small_last_inv.
  - discriminate.
  - vm_compute. reflexivity.
Defined.

Lemma find_nodes_terminates_witness :
  exists r, FindNodeQuery.drive (fun n => if n =? 12 then Some [4; 5; 9] else None)
              (fun i => Z.of_nat i) 6 small_query = Some r.
Proof.
  apply (FindNodeQuery.find_nodes_terminates (K := xor_keys) small_config 0 [12; 13]
           (fun n => if n =? 12 then Some [4; 5; 9] else None) (fun i => Z.of_nat i)
           [12; 13; 4; 5; 9]).
  - apply small_config_ok.
  - reflexivity.
  - reflexivity.
  - repeat constructor; by apply (bool_decide_unpack _).
  - intros n l. destruct (n =? 12); [|discriminate]. intros [= <-].
    repeat constructor; by apply (bool_decide_unpack _).
Defined.
