(* ===== verification/FindContent.v ===== *)
(** * The iterative content lookup.

    [portalnet/src/find/iterators/findcontent.rs]: the state machine behind a
    FINDCONTENT lookup.  It shares its invariant with the node lookup, and as long
    as no peer delivers content it is in lock step with one; once a peer delivers
    content the lookup finishes with it. *)

From S2P Require Import Prelude.
From S2P Require Import BTree.
From S2P Require Import Query.
From S2P Require Import FindNodes.

(** [u16::from_be] on a little-endian target swaps the two bytes. *)
Definition u16_from_be (x : Z) : Z := Z.lor (Z.shiftl (Z.land x 255) 8) (Z.shiftr x 8).

Module FindContentQueryResponse.
Inductive t (N : Type) :=
| ClosestNodes (nodes : list N)
| Content (content : bytes)
| ConnectionId (connection_id : Z).
Arguments ClosestNodes {N}.
Arguments Content {N}.
Arguments ConnectionId {N}.
End FindContentQueryResponse.

Module FindContentQueryResult.
Inductive t (N : Type) :=
| ClosestNodes (nodes : list N)
| Content (content : bytes) (nodes_to_poke : list N)
| Utp (connection_id : Z) (nodes_to_poke : list N) (peer : N).
Arguments ClosestNodes {N}.
Arguments Content {N}.
Arguments Utp {N}.
End FindContentQueryResult.

Module ContentAndPeer.
Inductive t (N : Type) :=
| Content (content : bytes) (peer : N)
| Utp (connection_id : Z) (peer : N).
Arguments Content {N}.
Arguments Utp {N}.
End ContentAndPeer.

Module FindContentQuery.

Record t (N : Type) `{K : KeyLib N} := mk {
  target_key : Key;
  started : option Z;
  progress : QueryProgress.t;
  closest_peers : list (Z * QueryPeer.t N);
  content : option (ContentAndPeer.t N);
  num_waiting : Z;
  config : QueryConfig;
}.
Arguments mk {N K}.
Arguments target_key {N K}.
Arguments started {N K}.
Arguments progress {N K}.
Arguments closest_peers {N K}.
Arguments content {N K}.
Arguments num_waiting {N K}.
Arguments config {N K}.

Section Ops.
Context {N : Type} `{K : KeyLib N}.
Implicit Types (q : t N).

Definition with_config (config : QueryConfig) (target_key : Key) (known_closest_peers : list Key)
    : t N :=
  {| target_key := target_key;
     started := None;
     progress := QueryProgress.Iterating 0;
     closest_peers := initial_peers config target_key known_closest_peers;
     content := None;
     num_waiting := 0;
     config := config |}.

Definition start q (now : Z) : t N :=
  mk (target_key q) (Some now) (progress q) (closest_peers q) (content q) (num_waiting q) (config q).

(** The fields an operation writes. *)
Definition with_peers q m nw : t N :=
  mk (target_key q) (started q) (progress q) m (content q) nw (config q).
Definition with_progress q p : t N :=
  mk (target_key q) (started q) p (closest_peers q) (content q) (num_waiting q) (config q).
Definition with_content q c : t N :=
  mk (target_key q) (started q) (progress q) (closest_peers q) (Some c) (num_waiting q) (config q).

Definition at_capacity q : bool := capacity_reached (config q) (progress q) (num_waiting q).

(** Incorporating the response of a peer that succeeded. *)
Definition incorporate_response q (peer : N) (r : FindContentQueryResponse.t N) : t N :=
  match r with
  | FindContentQueryResponse.ClosestNodes closer_peers =>
      let r := incorporate (config q) (target_key q) (Z.of_nat (length (closest_peers q)))
                 (closest_peers q) false closer_peers in
      mk (target_key q) (started q) (update_progress (config q) r.2 (progress q))
         r.1 (content q) (num_waiting q) (config q)
  | FindContentQueryResponse.Content content =>
      with_content q (ContentAndPeer.Content content peer)
  | FindContentQueryResponse.ConnectionId connection_id =>
      with_content q (ContentAndPeer.Utp (u16_from_be connection_id) peer)
  end.

Definition on_success q (peer : N) (peer_response : FindContentQueryResponse.t N)
    : res Empty_set (t N) :=
  match progress q with
  | QueryProgress.Finished => Ok q
  | _ =>
      let distance := key_distance (into_key peer) (target_key q) in
      let marked := bt_update distance (QueryPeer.set_state QueryPeerState.Succeeded) (closest_peers q) in
      match bt_get distance (closest_peers q) with
      | None => Ok q
      | Some p =>
          match QueryPeer.state p with
          | QueryPeerState.Waiting _ =>
              if 0 <? num_waiting q then
                Ok (incorporate_response (with_peers q marked (num_waiting q - 1)) peer peer_response)
              else Panic
          | QueryPeerState.Unresponsive =>
              Ok (incorporate_response (with_peers q marked (num_waiting q)) peer peer_response)
          | QueryPeerState.NotContacted | QueryPeerState.Failed | QueryPeerState.Succeeded => Ok q
          end
      end
  end.

Definition on_failure q (peer : N) : res Empty_set (t N) :=
  match progress q with
  | QueryProgress.Finished => Ok q
  | _ =>
      let distance := key_distance (into_key peer) (target_key q) in
      let failed := bt_update distance (QueryPeer.set_state QueryPeerState.Failed) (closest_peers q) in
      match bt_get distance (closest_peers q) with
      | None => Ok q
      | Some p =>
          match QueryPeer.state p with
          | QueryPeerState.Waiting _ =>
              if 0 <? num_waiting q then Ok (with_peers q failed (num_waiting q - 1)) else Panic
          | QueryPeerState.Unresponsive => Ok (with_peers q failed (num_waiting q))
          | _ => Ok q
          end
      end
  end.

Definition poll q (now : Z) : res Empty_set (t N * QueryState.t N) :=
  match progress q with
  | QueryProgress.Finished => Ok (q, QueryState.Finished)
  | _ =>
      match content q with
      | Some _ => Ok (with_progress q QueryProgress.Finished, QueryState.Finished)
      | None =>
          let? r := poll_loop (config q) now (at_capacity q) (Some 0) (num_waiting q)
                      (closest_peers q) in
          let q' := with_peers q r.1.1 r.1.2 in
          match r.2 with
          | Some QueryState.Finished =>
              Ok (with_progress q' QueryProgress.Finished, QueryState.Finished)
          | Some s => Ok (q', s)
          | None =>
              if 0 <? num_waiting q' then Ok (q', QueryState.Waiting None)
              else Ok (with_progress q' QueryProgress.Finished, QueryState.Finished)
          end
      end
  end.

Definition get_nodes_to_poke q (source_peer : N) : list N :=
  take (Z.to_nat (num_results (config q)))
    (omap (fun e => match QueryPeer.state e.2 with
                    | QueryPeerState.Succeeded =>
                        if decide (preimage (QueryPeer.key e.2) = source_peer) then None
                        else Some (preimage (QueryPeer.key e.2))
                    | _ => None
                    end) (closest_peers q)).

Definition into_result q : FindContentQueryResult.t N :=
  match content q with
  | Some (ContentAndPeer.Content c peer) =>
      FindContentQueryResult.Content c (get_nodes_to_poke q peer)
  | Some (ContentAndPeer.Utp connection_id peer) =>
      FindContentQueryResult.Utp connection_id (get_nodes_to_poke q peer) peer
  | None =>
      FindContentQueryResult.ClosestNodes
        (take (Z.to_nat (num_results (config q))) (succeeded (closest_peers q)))
  end.

(** The peers still waited for, other than the source of the content. *)
Definition pending_peers q (source : N) : list N :=
  omap (fun e => match QueryPeer.state e.2 with
                 | QueryPeerState.Waiting _ => Some (preimage (QueryPeer.key e.2))
                 | _ => None
                 end)
    (filter (fun e => preimage (QueryPeer.key e.2) <> source) (closest_peers q)).

#[global] Instance query : Query N (t N) := {|
  Query.Response := FindContentQueryResponse.t N;
  Query.Result := FindContentQueryResult.t N;
  Query.target := target_key;
  Query.started := started;
  Query.start := start;
  Query.on_failure := on_failure;
  Query.on_success := on_success;
  Query.poll := poll;
  Query.into_result := into_result;
|}.
End Ops.

(** ** The invariant *)

Section Invariant.
Context {N : Type} `{K : KeyLib N} `{!KeyLibOk N}.
Implicit Types (q : t N).
#[local] Abbreviation st := QueryPeer.state.

Definition inv q : Prop :=
  lookup_inv (config q) (target_key q) (closest_peers q) (num_waiting q).

Definition moves q q' : Prop :=
  inv q' /\ config q' = config q /\ target_key q' = target_key q
  /\ (forall d, Contacted (closest_peers q) d -> Contacted (closest_peers q') d).

Lemma content_moves_refl q : inv q -> moves q q.
Proof. intros Hq. by split_and!. Qed.

Lemma content_moves_ret q q' : moves q q' -> exists q'', Ok q' = Ok (E := Empty_set) q'' /\ moves q q''.
Proof. eauto. Qed.

Lemma content_mark_succeeded : marks (N := N) (QueryPeer.set_state QueryPeerState.Succeeded).
Proof. by intros p. Qed.

Lemma content_moves_with_peers q m nw :
  lookup_inv (config q) (target_key q) m nw -> Forall2 advances (closest_peers q) m ->
  moves q (with_peers q m nw).
Proof.
  intros Hi Ha. split_and!; [done | done | done |].
  intros d. by apply advances_contacted.
Qed.

Lemma content_moves_incorporate q q1 peer r : moves q q1 -> moves q (incorporate_response q1 peer r).
Proof.
  intros (Hi & Hc & Ht & Hm). destruct r as [l|c|c]; split_and!; simpl; try done.
  - unfold inv. simpl. by apply lookup_inv_incorporate.
  - intros d Hd. apply incorporate_contacted; [apply Hi | auto].
Qed.

Lemma content_on_failure_ok q peer : inv q -> exists q', on_failure q peer = Ok q' /\ moves q q'.
Proof.
  intros Hq. unfold on_failure. set (d := key_distance _ _). set (f := QueryPeer.set_state _).
  destruct (bt_get d (closest_peers q)) as [p|] eqn:Eg;
    [|destruct (progress q); eauto using content_moves_refl].
  pose proof (lookup_inv_mark _ _ _ _ d f p Hq FindNodeQuery.mark_failed Eg) as [Ha Hm].
  destruct (Z.ltb_spec 0 (num_waiting q));
    destruct (progress q), (QueryPeer.state p); simpl in Hm; (lia || apply content_moves_ret);
    auto using content_moves_refl;
    apply content_moves_with_peers; by try apply Hm.
Qed.

Lemma content_on_success_ok q peer r : inv q -> exists q', on_success q peer r = Ok q' /\ moves q q'.
Proof.
  intros Hq. unfold on_success. set (d := key_distance _ _). set (f := QueryPeer.set_state _).
  destruct (bt_get d (closest_peers q)) as [p|] eqn:Eg;
    [|destruct (progress q); eauto using content_moves_refl].
  pose proof (lookup_inv_mark _ _ _ _ d f p Hq content_mark_succeeded Eg) as [Ha Hm].
  destruct (Z.ltb_spec 0 (num_waiting q));
    destruct (progress q), (QueryPeer.state p); simpl in Hm; (lia || apply content_moves_ret);
    auto using content_moves_refl;
    apply content_moves_incorporate, content_moves_with_peers; by try apply Hm.
Qed.

Lemma content_poll_ok q now :
  inv q -> exists q' s, poll q now = Ok (q', s) /\ moves q q'
    /\ (forall n, contact s = Some n ->
         ~ Contacted (closest_peers q) (key_distance (into_key n) (target_key q))
         /\ Contacted (closest_peers q') (key_distance (into_key n) (target_key q))).
Proof.
  intros Hq. unfold poll, at_capacity. destruct (content q).
  { destruct (progress q); (eexists _, _; split; [done|]; split; [|done]; by split_and!). }
  destruct (progress q) eqn:Ep.
  3: { exists q, QueryState.Finished. by split_and!; [|apply content_moves_refl|]. }
  all: destruct (lookup_inv_poll _ _ _ _ now (progress q) Hq)
         as (m' & nw' & out & El & Hi & Ho); [by rewrite Ep|].
  all: rewrite <- Ep, El; simpl.
  all: pose proof (content_moves_with_peers _ _ _ Hi (po_advances _ _ _ _ _ _ _ Ho)) as Hm.
  all: destruct out as [[[n|]| |]|]; [| | | |destruct (0 <? nw')];
    eexists _, _; (split_and!; [done | done | simpl; try done]).
  all: intros ? [= <-]; eapply po_contact_fresh; [apply Hq | exact Ho].
Qed.

(** The query keeps the promises of a [Query]. *)
Lemma query_content_step q (e : event N (t N)) :
  inv q ->
  exists q' out, step q e = Ok (q', out) /\ inv q' /\ target q' = target q
    /\ (forall d, Contacted (closest_peers q) d -> Contacted (closest_peers q') d)
    /\ (forall n, (out ≫= contact) = Some n ->
         ~ Contacted (closest_peers q) (key_distance (into_key n) (target q))
         /\ Contacted (closest_peers q') (key_distance (into_key n) (target q))).
Proof.
  destruct e as [now|peer|peer r|now]; intros Hq; simpl.
  - eexists _, None. by split_and!.
  - destruct (content_on_failure_ok q peer Hq) as (q' & -> & Hi & _ & Ht & Hm).
    exists q', None. by split_and!.
  - destruct (content_on_success_ok q peer r Hq) as (q' & -> & Hi & _ & Ht & Hm).
    exists q', None. by split_and!.
  - destruct (content_poll_ok q now Hq) as (q' & s & -> & (Hi & _ & Ht & Hm) & Hc).
    exists q', (Some s). by split_and!.
Qed.

Lemma poll_content_started q now q' s : poll q now = Ok (q', s) -> started q' = started q.
Proof. unfold poll. intros H. by repeat (case_hyp H; simplify_eq/=). Qed.

#[global] Instance query_ok : QueryOk N (t N) :=
  {| q_inv := inv; q_peers := closest_peers; q_step := query_content_step;
     q_start_started _ _ := eq_refl; q_poll_started := poll_content_started |}.

(** The nodes that a response reports. *)
Definition closer_peers (r : FindContentQueryResponse.t N) : list N :=
  match r with FindContentQueryResponse.ClosestNodes l => l | _ => [] end.

Lemma content_on_success_names q peer r q' n :
  inv q -> on_success q peer r = Ok q' -> n ∈ peer_names (closest_peers q') ->
  n ∈ peer_names (closest_peers q) \/ n ∈ closer_peers r.
Proof.
  intros Hq. unfold on_success. set (d := key_distance _ _). set (f := QueryPeer.set_state _).
  assert (Ha : Forall2 advances (closest_peers q) (bt_update d f (closest_peers q)))
    by (apply update_advances; done).
  assert (Hinc : forall nw, n ∈ peer_names (closest_peers (incorporate_response
    (with_peers q (bt_update d f (closest_peers q)) nw) peer r)) ->
    n ∈ peer_names (closest_peers q) \/ n ∈ closer_peers r).
  { intros nw Hn. destruct r; simpl in Hn; try (by rewrite (advances_names _ _ Ha) in Hn; auto).
    apply (incorporate_names _ (target_key q)) in Hn; simpl in Hn; [by rewrite (advances_names _ _ Ha) in Hn|].
    eapply advances_peers_ok; [exact Ha | apply Hq]. }
  intros H. repeat (case_hyp H; simplify_eq/=); eauto.
Qed.

Lemma content_on_failure_names q peer q' :
  on_failure q peer = Ok q' -> peer_names (closest_peers q') = peer_names (closest_peers q).
Proof.
  unfold on_failure. set (d := key_distance _ _). set (f := QueryPeer.set_state _).
  assert (Ha : Forall2 advances (closest_peers q) (bt_update d f (closest_peers q)))
    by (apply update_advances; done).
  intros H. repeat (case_hyp H; simplify_eq/=); auto using advances_names.
Qed.

Lemma content_poll_names q now q' s :
  inv q -> poll q now = Ok (q', s) ->
  peer_names (closest_peers q') = peer_names (closest_peers q)
  /\ forall n, contact s = Some n -> n ∈ peer_names (closest_peers q).
Proof.
  intros Hq. unfold poll, at_capacity. destruct (progress q) eqn:Ep.
  3: { by intros [= <- <-]. }
  all: destruct (content q); [by intros [= <- <-]|].
  all: destruct (lookup_inv_poll _ _ _ _ now (progress q) Hq)
         as (m' & nw' & out & El & Hi & Ho); [by rewrite Ep|].
  all: rewrite <- Ep, El; simpl; pose proof (advances_names _ _ (po_advances _ _ _ _ _ _ _ Ho)) as Hn.
  all: destruct out as [[[n|]| |]|]; [| | | |destruct (0 <? nw')]; intros [= <- <-]; simpl.
  all: split; [done|]; intros ? [= <-]; by eapply po_contact_names.
Qed.

Lemma content_query_reports q (e : event N (t N)) q' out :
  inv q -> step q e = Ok (q', out) ->
  (forall n, n ∈ peer_names (closest_peers q') -> n ∈ peer_names (closest_peers q)
     \/ exists peer r, e = ESuccess peer r /\ n ∈ closer_peers r)
  /\ (forall n, (out ≫= contact) = Some n -> n ∈ peer_names (closest_peers q)).
Proof.
  intros Hq. destruct e as [now|peer|peer r|now]; simpl; intros H.
  - simplify_eq/=. split; [auto | done].
  - destruct (on_failure q peer) eqn:Ef; simplify_eq/=. split; [|done]. intros n.
    rewrite (content_on_failure_names q peer) by done. auto.
  - destruct (on_success q peer r) eqn:Es; simplify_eq/=. split; [|done]. intros n Hn.
    destruct (content_on_success_names q peer r q' n Hq Es Hn) as [?|?]; eauto.
  - destruct (poll q now) as [[q1 s]| |] eqn:Ep; simplify_eq/=.
    destruct (content_poll_names q now q' s Hq Ep) as [-> Hc]. split; [auto | exact Hc].
Qed.

#[global] Instance find_content_reports : QueryReports N (t N) :=
  {| reported := closer_peers; q_reports := content_query_reports |}.

(** A content lookup survives every sequence of calls, content deliveries
    included: none of its assertions fails, [num_waiting] is the number of waiting
    peers and within the permitted parallelism, and no peer is contacted twice. *)
Theorem find_content_run_safe cfg target known (es : list (event N (t N))) :
  config_ok cfg -> Forall (fun k => into_key (preimage k) = k) known ->
  exists q outs, run (with_config cfg target known) es = Ok (q, outs)
    /\ num_waiting q = count_waiting (closest_peers q)
    /\ num_waiting q <= Z.max (parallelism (config q)) (num_results (config q))
    /\ bt_ok (closest_peers q)
    /\ NoDup (contacts outs).
Proof.
  intros Hc Hk.
  destruct (run_ok (with_config cfg target known) es) as (q & outs & -> & Hi & _ & _ & Hn & _);
    [by apply lookup_inv_initial|].
  exists q, outs. destruct Hi as [_ [Hb _] Hw Hcap]. by split_and!.
Qed.

(** ** Delivered content *)

(** A peer that may deliver: the query waits for it, or gave it up. *)
Definition awaited q (peer : N) : Prop :=
  exists p, bt_get (dist (target_key q) peer) (closest_peers q) = Some p
    /\ (QueryPeerState.is_waiting (st p) = true \/ st p = QueryPeerState.Unresponsive).

(** What the query remembers of a response that delivers content. *)
Definition delivery (peer : N) (r : FindContentQueryResponse.t N) : option (ContentAndPeer.t N) :=
  match r with
  | FindContentQueryResponse.ClosestNodes _ => None
  | FindContentQueryResponse.Content c => Some (ContentAndPeer.Content c peer)
  | FindContentQueryResponse.ConnectionId id => Some (ContentAndPeer.Utp (u16_from_be id) peer)
  end.

(** The nodes to poke: of the successful peers, in the order of their distance, those
    other than the source. *)
Lemma nodes_to_poke_spec q source :
  inv q ->
  let l := get_nodes_to_poke q source in
  StronglySorted Z.lt (map (dist (target_key q)) l)
  /\ (length l <= Z.to_nat (num_results (config q)))%nat
  /\ (forall n, n ∈ l -> n <> source /\ n ∈ succeeded (closest_peers q)).
Proof.
  intros Hq l.
  assert (E : l = take (Z.to_nat (num_results (config q)))
                    (filter (fun n => n <> source) (succeeded (closest_peers q)))).
  { unfold l, get_nodes_to_poke. f_equal. clear. induction (closest_peers q) as [|[d p] m IH]; [done|].
    simpl. destruct (st p); simpl; try done.
    rewrite filter_cons. destruct (decide (preimage (QueryPeer.key p) = source)) as [->|Hne].
    - by rewrite decide_False by auto.
    - rewrite decide_True by done. by f_equal. }
  rewrite E. split_and!.
  - rewrite <- firstn_map. apply sorted_take. apply sorted_map_filter.
    apply succeeded_sorted, (li_peers _ _ _ _ Hq).
  - rewrite length_take. lia.
  - intros n Hn. apply elem_of_take in Hn as (i & Hi & _). apply list_elem_of_lookup_2 in Hi.
    by apply list_elem_of_filter in Hi.
Qed.

(** Content ends the lookup: when an awaited peer delivers content or a uTP
    connection id, the next [poll] finishes whatever else is running, and the result
    is that content (the id with its bytes swapped into host order) together with the
    nodes to poke: at most [num_results] successful peers other than the source, by
    increasing distance. *)
Theorem content_finishes q peer r c now :
  inv q -> progress q <> QueryProgress.Finished -> awaited q peer -> delivery peer r = Some c ->
  exists q' q'', on_success q peer r = Ok q' /\ poll q' now = Ok (q'', QueryState.Finished)
    /\ progress q'' = QueryProgress.Finished
    /\ exists poke, into_result q''
         = match c with
           | ContentAndPeer.Content bs _ => FindContentQueryResult.Content bs poke
           | ContentAndPeer.Utp id _ => FindContentQueryResult.Utp id poke peer
           end
       /\ StronglySorted Z.lt (map (dist (target_key q)) poke)
       /\ (length poke <= Z.to_nat (num_results (config q)))%nat
       /\ (forall n, n ∈ poke -> n <> peer /\ n ∈ succeeded (closest_peers q'')).
Proof.
  intros Hq Hp (p & Hg & Hs) Hd.
  destruct (content_on_success_ok q peer r Hq) as (q' & Hok & Hi & Hc & Ht & _).
  assert (Hshape : content q' = Some c /\ progress q' = progress q).
  { clear Hi Hc Ht. unfold on_success in Hok. fold (dist (target_key q) peer) in Hok.
    rewrite Hg in Hok.
    destruct (progress q) eqn:Ep; try done; (destruct (st p); simpl in Hs; try naive_solver);
      try (destruct (0 <? num_waiting q); [|done]);
      injection Hok as <-; (destruct r; simpl in Hd; [done | injection Hd as <- ..]); by split. }
  destruct Hshape as [Hcont Hprog].
  exists q', (with_progress q' QueryProgress.Finished). split_and!; [done | | done |].
  { unfold poll. rewrite Hprog, Hcont. by destruct (progress q). }
  exists (get_nodes_to_poke q' peer). rewrite <- Hc, <- Ht. split; [|exact (nodes_to_poke_spec q' peer Hi)].
  unfold into_result. simpl. rewrite Hcont. destruct r; simpl in Hd; by simplify_eq.
Qed.
End Invariant.

(** ** Lock step with the node lookup *)

Section Simulation.
Context {N : Type} `{K : KeyLib N} `{!KeyLibOk N}.
Implicit Types (q : t N) (n : FindNodeQuery.t N) (m : list (Z * QueryPeer.t N)).
#[local] Abbreviation st := QueryPeer.state.

(** The content lookup does not count the peers a peer returned. *)
Definition erase_peer (p : QueryPeer.t N) : QueryPeer.t N := QueryPeer.mk (QueryPeer.key p) 0 (st p).
Definition erase m : list (Z * QueryPeer.t N) := map (fun e => (e.1, erase_peer e.2)) m.

Lemma erase_get d m : bt_get d (erase m) = erase_peer <$> bt_get d m.
Proof. induction m as [|[d' p] m IH]; simpl; [done|]. by destruct (d =? d'). Qed.

Lemma erase_length m : length (erase m) = length m.
Proof. apply length_map. Qed.

Lemma erase_succeeded m : succeeded (erase m) = succeeded m.
Proof. induction m as [|[d p] m IH]; simpl; [done|]. by rewrite IH. Qed.

Lemma erase_update d f f' m :
  (forall p, erase_peer (f p) = f' (erase_peer p)) ->
  erase (bt_update d f m) = bt_update d f' (erase m).
Proof.
  intros Hf. induction m as [|[d' p] m IH]; simpl; [done|].
  destruct (d =? d'); simpl; [by rewrite Hf | by rewrite IH].
Qed.

Lemma erase_or_insert d k m :
  erase (bt_or_insert d (QueryPeer.new k QueryPeerState.NotContacted) m)
  = bt_or_insert d (QueryPeer.new k QueryPeerState.NotContacted) (erase m).
Proof.
  unfold bt_or_insert. rewrite erase_get. destruct (bt_get d m); simpl; [done|].
  induction m as [|[d' p] m IH]; simpl; [done|].
  destruct (d <? d'); [done|]. destruct (d =? d'); simpl; [done | by rewrite IH].
Qed.

Lemma erase_first m : bt_first (erase m) = bt_first m.
Proof. by destruct m as [|[d p] m]. Qed.

Lemma erase_incorporate cfg k nc m b l :
  incorporate cfg k nc (erase m) b l
  = (erase (incorporate cfg k nc m b l).1, (incorporate cfg k nc m b l).2).
Proof.
  revert m b. induction l as [|x l IH]; intros m b; simpl; [done|].
  by rewrite <- erase_or_insert, erase_first, IH.
Qed.

Lemma erase_poll_loop cfg now cap rc nw m :
  poll_loop cfg now cap rc nw (erase m)
  = let? r := poll_loop cfg now cap rc nw m in Ok (erase r.1.1, r.1.2, r.2).
Proof.
  revert rc nw. induction m as [|[d p] m IH]; intros rc nw; simpl; [done|].
  destruct (st p); simpl; try destruct rc; rewrite ?IH; by repeat case_goal.
Qed.

(** Equal up to what is not counted, no content found. *)
Record sim q n : Prop := {
  sim_target : target_key q = FindNodeQuery.target_key n;
  sim_started : started q = FindNodeQuery.started n;
  sim_progress : progress q = FindNodeQuery.progress n;
  sim_waiting : num_waiting q = FindNodeQuery.num_waiting n;
  sim_config : config q = FindNodeQuery.config n;
  sim_content : content q = None;
  sim_peers : erase (closest_peers q) = erase (FindNodeQuery.closest_peers n);
}.

Lemma sim_get q n d : sim q n ->
  erase_peer <$> bt_get d (closest_peers q) = erase_peer <$> bt_get d (FindNodeQuery.closest_peers n).
Proof. intros H. by rewrite <- !erase_get, (sim_peers _ _ H). Qed.

(** A response that reports nodes, for both lookups. *)
Lemma sim_incorporate q n peer l :
  sim q n ->
  sim (incorporate_response q peer (FindContentQueryResponse.ClosestNodes l))
      (FindNodeQuery.incorporate_response n l).
Proof.
  intros [H1 H2 H3 H4 H5 H6 H7]. unfold FindNodeQuery.incorporate_response. simpl.
  pose proof (erase_incorporate (config q) (target_key q) (Z.of_nat (length (closest_peers q)))
                (closest_peers q) false l) as E1.
  pose proof (erase_incorporate (config q) (target_key q) (Z.of_nat (length (closest_peers q)))
                (FindNodeQuery.closest_peers n) false l) as E2.
  rewrite <- H7, E1 in E2. injection E2 as E2 E3.
  assert (El : length (FindNodeQuery.closest_peers n) = length (closest_peers q))
    by (by rewrite <- (erase_length (closest_peers q)), H7, erase_length).
  rewrite <- H5, <- H1, El. split; simpl; try done. by rewrite E3, H3, H5.
Qed.

(** Both lookups mark the peer. *)
Lemma sim_with_peers q n d f f' nw nw' :
  sim q n -> nw = nw' -> (forall p, erase_peer (f p) = f (erase_peer p)) ->
  (forall p, erase_peer (f' p) = f (erase_peer p)) ->
  sim (with_peers q (bt_update d f (closest_peers q)) nw)
      (FindNodeQuery.with_peers n (bt_update d f' (FindNodeQuery.closest_peers n)) nw').
Proof.
  intros [H1 H2 H3 H4 H5 H6 H7] -> Hf Hf'. split; simpl; try done.
  by rewrite (erase_update d f f), (erase_update d f' f), H7.
Qed.

(** The calls of the content lookup that report nodes, as calls of the node lookup. *)
Definition nodes_event (e : event N (t N)) : option (event N (FindNodeQuery.t N)) :=
  match e with
  | EStart now => Some (EStart now)
  | EFailure peer => Some (EFailure peer)
  | ESuccess peer (FindContentQueryResponse.ClosestNodes l) =>
      Some (@ESuccess N (FindNodeQuery.t N) _ _ peer l)
  | ESuccess _ _ => None
  | EPoll now => Some (EPoll now)
  end.

(** Two results of a step in lock step. *)
Definition sim_res {O} (r : res Empty_set (t N * O)) (r' : res Empty_set (FindNodeQuery.t N * O)) : Prop :=
  match r, r' with
  | Ok (q, o), Ok (n, o') => sim q n /\ o = o'
  | _, _ => False
  end.

Lemma sim_on_success q n peer l :
  inv q -> sim q n ->
  sim_res (step q (@ESuccess N (t N) _ _ peer (FindContentQueryResponse.ClosestNodes l)))
          (step n (@ESuccess N (FindNodeQuery.t N) _ _ peer l)).
Proof.
  intros Hq H. simpl. unfold on_success, FindNodeQuery.on_success.
  rewrite <- (sim_progress _ _ H), <- (sim_target _ _ H), <- (sim_waiting _ _ H).
  set (d := key_distance _ _). pose proof (sim_get q n d H) as Hg.
  assert (Hpos : forall p, bt_get d (closest_peers q) = Some p ->
                   QueryPeerState.is_waiting (st p) = true -> (0 <? num_waiting q) = true).
  { intros p Ep Hw. destruct (lookup_inv_mark _ _ _ _ d _ p Hq FindNodeQuery.mark_failed Ep) as [_ Hm].
    rewrite Hw in Hm. lia. }
  destruct (bt_get d (closest_peers q)) as [p|], (bt_get d (FindNodeQuery.closest_peers n)) as [p'|];
    simpl in Hg; try done; [|by destruct (progress q)].
  injection Hg as Hk Hs. rewrite <- Hs. specialize (Hpos p eq_refl).
  destruct (progress q); [| |done]; destruct (st p); try done;
    rewrite ?Hpos by done; (split; [|done]); by apply sim_incorporate, sim_with_peers.
Qed.

Lemma sim_on_failure q n peer :
  inv q -> sim q n -> sim_res (step q (EFailure peer)) (step n (EFailure peer)).
Proof.
  intros Hq H. simpl. unfold on_failure, FindNodeQuery.on_failure.
  rewrite <- (sim_progress _ _ H), <- (sim_target _ _ H), <- (sim_waiting _ _ H).
  set (d := key_distance _ _). pose proof (sim_get q n d H) as Hg.
  assert (Hpos : forall p, bt_get d (closest_peers q) = Some p ->
                   QueryPeerState.is_waiting (st p) = true -> 0 < num_waiting q < U64_MOD).
  { intros p Ep Hw. destruct (lookup_inv_mark _ _ _ _ d _ p Hq FindNodeQuery.mark_failed Ep) as [_ Hm].
    rewrite Hw in Hm. lia. }
  destruct (bt_get d (closest_peers q)) as [p|], (bt_get d (FindNodeQuery.closest_peers n)) as [p'|];
    simpl in Hg; try done; [|by destruct (progress q)].
  injection Hg as Hk Hs. rewrite <- Hs. specialize (Hpos p eq_refl).
  revert Hpos. destruct (progress q); [| |done]; destruct (st p); intros Hpos; try done;
    try (specialize (Hpos eq_refl); destruct (Z.ltb_spec 0 (num_waiting q)); [|lia]);
    (split; [|done]); apply sim_with_peers; auto; rewrite wrap64_small; unfold is_u64; lia.
Qed.

Lemma sim_poll q n now :
  inv q -> sim q n -> sim_res (step q (EPoll now)) (step n (EPoll now)).
Proof.
  intros Hq H. destruct (content_poll_ok q now Hq) as (q' & s & Ep & _). simpl. rewrite Ep.
  unfold poll in Ep. rewrite (sim_content _ _ H) in Ep. unfold FindNodeQuery.poll.
  rewrite <- (sim_progress _ _ H), <- (sim_config _ _ H), <- (sim_waiting _ _ H).
  unfold FindNodeQuery.at_capacity, at_capacity in *.
  rewrite <- (sim_progress _ _ H), <- (sim_config _ _ H), <- (sim_waiting _ _ H).
  pose proof (erase_poll_loop (config q) now
    (capacity_reached (config q) (progress q) (num_waiting q)) (Some 0) (num_waiting q)) as He.
  pose proof (He (closest_peers q)) as E1. specialize (He (FindNodeQuery.closest_peers n)).
  rewrite <- (sim_peers _ _ H), E1 in He. clear E1.
  destruct (poll_loop _ _ _ _ _ (closest_peers q)) as [[[m1 w1] o1]| |],
    (poll_loop _ _ _ _ _ (FindNodeQuery.closest_peers n)) as [[[m2 w2] o2]| |];
    simpl in *; try done; [|by destruct (progress q); simplify_eq].
  injection He as Hm <- <-. destruct H as [H1 H2 H3 H4 H5 H6 H7].
  destruct (progress q) eqn:Eq; [| |injection Ep as <- <-; split; [split; simpl; congruence | done]].
  all: destruct o1 as [[[x|]| |]|]; simpl in *; [..|destruct (0 <? w1)]; simplify_eq; simpl;
    (split; [|done]); split; simpl; congruence.
Qed.

Lemma sim_step q n e e' :
  inv q -> sim q n -> nodes_event e = Some e' -> sim_res (step q e) (step n e').
Proof.
  intros Hq H He. destruct e as [now|peer|peer [l|c|c]|now]; simpl in He; try done;
    injection He as <-; auto using sim_on_success, sim_on_failure, sim_poll.
  destruct H as [H1 H2 H3 H4 H5 H6 H7]. by split; [split|].
Qed.

Lemma sim_run q n es es' :
  inv q -> sim q n -> Forall2 (fun e e' => nodes_event e = Some e') es es' ->
  sim_res (run q es) (run n es').
Proof.
  intros Hq H Hes. revert q n Hq H. induction Hes as [|e e' es es' He _ IH]; intros q n Hq H; simpl.
  { done. }
  pose proof (sim_step q n e e' Hq H He) as Hs.
  destruct (query_content_step q e Hq) as (q1 & o1 & E1 & Hq1 & _). rewrite E1 in *. simpl in *.
  destruct (step n e') as [[n1 o2]| |]; try done. destruct Hs as [Hs <-]. simpl.
  specialize (IH q1 n1 Hq1 Hs).
  destruct (run q1 es) as [[q2 os]| |], (run n1 es') as [[n2 os']| |]; try done.
  destruct IH as [IH <-]. by split.
Qed.

(** C32: As long as every response reports nodes, a content lookup is a node lookup:
    driven by the same calls the two answer every [poll] alike, and the content
    lookup returns [ClosestNodes] of exactly what the node lookup returns. *)
Theorem find_content_simulates_find_nodes cfg target known es es' :
  config_ok cfg -> Forall (fun k => into_key (preimage k) = k) known ->
  Forall2 (fun e e' => nodes_event e = Some e') es es' ->
  exists q n outs,
    run (with_config cfg target known) es = Ok (q, outs)
    /\ run (FindNodeQuery.with_config cfg target known) es' = Ok (n, outs)
    /\ into_result q = FindContentQueryResult.ClosestNodes (FindNodeQuery.into_result n).
Proof.
  intros Hc Hk Hes.
  pose proof (sim_run (with_config cfg target known) (FindNodeQuery.with_config cfg target known)
    es es' (lookup_inv_initial cfg target known Hc Hk)) as Hr.
  specialize (Hr ltac:(by split) Hes).
  destruct (run _ es) as [[q os]| |], (run _ es') as [[n os']| |]; try done.
  destruct Hr as [H <-]. exists q, n, os. split_and!; [done | done |].
  unfold into_result, FindNodeQuery.into_result. rewrite (sim_content _ _ H), (sim_config _ _ H).
  by rewrite <- (erase_succeeded (closest_peers q)), (sim_peers _ _ H), erase_succeeded.
Qed.
End Simulation.

End FindContentQuery.

(** ** The theorems at work *)

Definition content_query : FindContentQuery.t Z :=
  FindContentQuery.with_config small_config 0 [12; 13].

(** 12 reports 4 and 5; 4 answers with content. *)
Definition content_events : list (event Z (FindContentQuery.t Z)) :=
  [EPoll 0; EPoll 1;
   @ESuccess Z (FindContentQuery.t Z) _ _ 12 (FindContentQueryResponse.ClosestNodes [4; 5]); EPoll 2].

Example content_run :
  (fun r => (FindContentQuery.into_result r.1, r.2)) <$>
    match run content_query (content_events ++
                [@ESuccess Z (FindContentQuery.t Z) _ _ 4 (FindContentQueryResponse.ConnectionId 258);
                 EPoll 3]) with Ok r => Some r | _ => None end
  = Some (FindContentQueryResult.Utp 513 [12] 4,
          [QueryState.Waiting (Some 12); QueryState.Waiting (Some 13);
           QueryState.Waiting (Some 4); QueryState.Finished]).
Proof. vm_compute. reflexivity. Qed.

Lemma find_content_run_safe_witness :
  exists q outs, run content_query content_events = Ok (q, outs)
    /\ FindContentQuery.num_waiting q = count_waiting (FindContentQuery.closest_peers q)
    /\ FindContentQuery.num_waiting q <= Z.max (parallelism (FindContentQuery.config q))
                                           (num_results (FindContentQuery.config q))
    /\ bt_ok (FindContentQuery.closest_peers q)
    /\ NoDup (contacts outs).
Proof.
  apply (FindContentQuery.find_content_run_safe (K := xor_keys) small_config 0 [12; 13] content_events).
  - apply small_config_ok.
  - repeat constructor.
Defined.

(** The first peer contacted, answering with content. *)
Definition content_waiting : FindContentQuery.t Z :=
  Eval vm_compute in
    match run content_query [EPoll 0] with Ok r => r.1 | _ => content_query end.

Lemma content_waiting_inv : FindContentQuery.inv content_waiting.
Proof.
  destruct (FindContentQuery.content_poll_ok content_query 0) as (q' & s & Hp & (Hi & _) & _).
  - apply lookup_inv_initial; [apply small_config_ok | repeat constructor].
  - vm_compute in Hp. injection Hp as <- _. exact Hi.
Qed.

Lemma content_finishes_witness :
  exists q' q'', FindContentQuery.on_success content_waiting 12 (FindContentQueryResponse.Content [x01; x02])
      = Ok q'
    /\ FindContentQuery.poll q' 5 = Ok (q'', QueryState.Finished)
    /\ FindContentQuery.into_result q'' = FindContentQueryResult.Content [x01; x02] [].
Proof.
  destruct (FindContentQuery.content_finishes content_waiting 12
              (FindContentQueryResponse.Content [x01; x02])
              (ContentAndPeer.Content [x01; x02] 12) 5)
    as (q' & q'' & H1 & H2 & _ & poke & H3 & _).
  - exact content_waiting_inv.
  - discriminate.
  - eexists. split; [vm_compute; reflexivity | left; reflexivity].
  - reflexivity.
  - exists q', q''. split; [exact H1|]. split; [exact H2|]. rewrite H3. f_equal.
    vm_compute in H1. injection H1 as <-. vm_compute in H2. injection H2 as <-.
    vm_compute in H3. injection H3 as <-. reflexivity.
Defined.

Definition node_events : list (event Z (FindNodeQuery.t Z)) :=
  take 2 small_events ++ [@ESuccess Z (FindNodeQuery.t Z) _ _ 12 [4; 5];
                          @EPoll Z (FindNodeQuery.t Z) _ _ 2].

Lemma find_content_simulates_find_nodes_witness :
  exists q n outs,
    run content_query content_events = Ok (q, outs)
    /\ run small_query node_events = Ok (n, outs)
    /\ FindContentQuery.into_result q
       = FindContentQueryResult.ClosestNodes (FindNodeQuery.into_result n).
Proof.
  apply (FindContentQuery.find_content_simulates_find_nodes (K := xor_keys) small_config 0 [12; 13]
           content_events).
  - apply small_config_ok.
  - repeat constructor.
  - repeat constructor.
Defined.
