(* ===== verification/QueryPool.v ===== *)
(** * The pool of active queries.

    [portalnet/src/find/query_pool.rs].  The pool is proved correct against the
    [Query] interface: it holds for node and content lookups alike.  The order in
    which the hash map is traversed is an argument of [poll]. *)

From stdpp Require Import gmap.
From S2P Require Import Prelude.
From S2P Require Import BTree.
From S2P Require Import Query.
From S2P Require Import FindNodes.

Module QueryPool.

Section Pool.
Context {N Q Info : Type} `{QI : Query N Q}.

Record t := mk {
  next_id : Z;
  query_timeout : Z;
  queries : gmap Z (Info * Q);
}.

(** [QueryPoolState]. *)
Inductive state :=
| Idle
| Waiting (request : option (Z * Info * Q * N))
| Finished (id : Z) (info : Info) (query : Q)
| Timeout (id : Z) (info : Info) (query : Q).

Definition new (query_timeout : Z) : t :=
  {| next_id := 0; query_timeout := query_timeout; queries := ∅ |}.

(** [iter]: the values, in the order the map is traversed. *)
Definition iter (p : t) (order : list Z) : list (Info * Q) := omap (fun id => queries p !! id) order.

Definition add_query (p : t) (query_info : Info) (query : Q) : t * Z :=
  let id := next_id p in
  (mk (wrap64 (next_id p + 1)) (query_timeout p) (<[id := (query_info, query)]> (queries p)), id).

(** [get_mut], with the update that is made through the reference. *)
Definition get_mut (p : t) (id : Z) : option (Info * Q) := queries p !! id.
Definition set_query (p : t) (id : Z) (v : Info * Q) : t :=
  mk (next_id p) (query_timeout p) (<[id := v]> (queries p)).

(** What made the loop of [poll] stop. *)
Inductive verdict :=
| VFinished (id : Z)
| VWaiting (id : Z) (peer : N)
| VTimeout (id : Z).

(** [now - query.started().unwrap_or(now)]: the difference of instants saturates. *)
Definition elapsed (q : Q) (now : Z) : Z := Z.max 0 (now - default now (started q)).

(** The loop of [poll]. *)
Fixpoint poll_queries (query_timeout now : Z) (order : list Z) (qs : gmap Z (Info * Q))
    : res Empty_set (gmap Z (Info * Q) * option verdict) :=
  match order with
  | [] => Ok (qs, None)
  | id :: order =>
      match qs !! id with
      | None => poll_queries query_timeout now order qs
      | Some (info, query) =>
          let query := match started query with None => start query now | Some _ => query end in
          let? r := poll query now in
          let qs' := <[id := (info, r.1)]> qs in
          match r.2 with
          | QueryState.Finished => Ok (qs', Some (VFinished id))
          | QueryState.Waiting (Some return_peer) => Ok (qs', Some (VWaiting id return_peer))
          | QueryState.Waiting None | QueryState.WaitingAtCapacity =>
              if query_timeout <=? elapsed r.1 now then Ok (qs', Some (VTimeout id))
              else poll_queries query_timeout now order qs'
          end
      end
  end.

Definition poll (p : t) (now : Z) (order : list Z) : res Empty_set (t * state) :=
  let? r := poll_queries (query_timeout p) now order (queries p) in
  let with_queries qs := mk (next_id p) (query_timeout p) qs in
  match r.2 with
  | Some (VWaiting id return_peer) =>
      match r.1 !! id with
      | Some (info, query) => Ok (with_queries r.1, Waiting (Some (id, info, query, return_peer)))
      | None => Panic
      end
  | Some (VFinished id) =>
      match r.1 !! id with
      | Some (info, query) => Ok (with_queries (delete id r.1), Finished id info query)
      | None => Panic
      end
  | Some (VTimeout id) =>
      match r.1 !! id with
      | Some (info, query) => Ok (with_queries (delete id r.1), Timeout id info query)
      | None => Panic
      end
  | None =>
      if decide (r.1 = ∅) then Ok (with_queries r.1, Idle) else Ok (with_queries r.1, Waiting None)
  end.
End Pool.
Arguments t : clear implicits.
Arguments state : clear implicits.

(** ** Correctness against the [Query] interface *)

Section Correct.
Context {N Q Info : Type} `{QO : QueryOk N Q}.
Implicit Types (p : t Q Info) (qs : gmap Z (Info * Q)).

Definition queries_ok qs : Prop := map_Forall (fun _ v => q_inv v.2) qs.

(** The query as the pool polls it: started at [now] if it was not before. *)
Definition begun (now : Z) (q : Q) : Q :=
  match started q with None => start q now | Some _ => q end.

Lemma begun_ok now q : q_inv q -> q_inv (begun now q).
Proof.
  intros Hq. unfold begun. destruct (started q); [done|].
  destruct (q_step q (EStart now) Hq) as (q' & out & [= <- <-] & Hq' & _). done.
Qed.

(** Polling a started query, with the time it started. *)
Lemma poll_begun now q :
  q_inv q -> exists q' s, Query.poll (begun now q) now = Ok (q', s) /\ q_inv q'
    /\ started q' = Some (default now (started q)).
Proof.
  intros Hq.
  destruct (q_step (begun now q) (EPoll now) (begun_ok now q Hq)) as (q' & out & E & Hq' & _).
  simpl in E. destruct (Query.poll (begun now q) now) as [[q1 s]| |] eqn:Ep; simplify_eq/=.
  exists q', s. split_and!; [done | done |]. rewrite (q_poll_started _ _ _ _ Ep).
  unfold begun. destruct (started q) eqn:Es; [by rewrite Es | by rewrite q_start_started].
Qed.

(** One query was polled: what the pool holds for it afterwards. *)
Definition polled (now : Z) (v v' : Info * Q) : Prop :=
  v'.1 = v.1 /\ exists s, Query.poll (begun now v.2) now = Ok (v'.2, s).

(** The loop: no query is lost, each is as it was or was polled once, and the verdict
    says what the poll of its query answered. *)
Definition loop_post (query_timeout now : Z) (order : list Z) qs qs' (v : option (verdict (N := N))) : Prop :=
  queries_ok qs' /\ dom qs' = dom qs
  /\ (forall id, id ∉ order -> qs' !! id = qs !! id)
  /\ (forall id x, qs !! id = Some x -> exists x', qs' !! id = Some x' /\ (x' = x \/ polled now x x'))
  /\ match v with
     | None => forall id x, id ∈ order -> qs !! id = Some x -> exists q' s,
         Query.poll (begun now x.2) now = Ok (q', s)
         /\ contact s = None /\ s <> QueryState.Finished /\ elapsed q' now < query_timeout
     | Some (VFinished id) => id ∈ order /\ exists x q', qs !! id = Some x /\ qs' !! id = Some (x.1, q')
         /\ Query.poll (begun now x.2) now = Ok (q', QueryState.Finished)
     | Some (VWaiting id peer) => id ∈ order /\ exists x q', qs !! id = Some x /\ qs' !! id = Some (x.1, q')
         /\ Query.poll (begun now x.2) now = Ok (q', QueryState.Waiting (Some peer))
     | Some (VTimeout id) => id ∈ order /\ exists x q' s, qs !! id = Some x /\ qs' !! id = Some (x.1, q')
         /\ Query.poll (begun now x.2) now = Ok (q', s) /\ contact s = None
         /\ s <> QueryState.Finished /\ query_timeout <= elapsed q' now
     end.

(** The loop stops at a query it polled. *)
Lemma loop_post_stop query_timeout now id order qs x q' s (v : verdict (N := N)) :
  queries_ok qs -> qs !! id = Some x -> q_inv q' -> Query.poll (begun now x.2) now = Ok (q', s) ->
  match v with
  | VFinished id' => id' = id /\ s = QueryState.Finished
  | VWaiting id' peer => id' = id /\ s = QueryState.Waiting (Some peer)
  | VTimeout id' => id' = id /\ contact s = None /\ s <> QueryState.Finished
      /\ query_timeout <= elapsed q' now
  end ->
  loop_post query_timeout now (id :: order) qs (<[id := (x.1, q')]> qs) (Some v).
Proof.
  intros Hqs Hx Hq' Hp Hv. split_and!.
  - by apply map_Forall_insert_2.
  - rewrite dom_insert_L. assert (id ∈ dom qs) by (by eapply elem_of_dom_2). set_solver.
  - intros id' Hid. rewrite lookup_insert_ne; [done|]. set_solver.
  - intros id' x' Hx'. destruct (decide (id = id')) as [<-|].
    + exists (x.1, q'). rewrite lookup_insert_eq. simplify_eq. split; [done|]. right. split; eauto.
    + exists x'. rewrite lookup_insert_ne by done. auto.
  - destruct v; destruct_and!; subst; (split; [left|]); eexists x, q'; rewrite lookup_insert_eq;
      eauto 10.
Qed.

(** The loop goes on after a query that is still waiting. *)
Lemma loop_post_next query_timeout now id order qs x q' s qs' v :
  qs !! id = Some x -> id ∉ order -> Query.poll (begun now x.2) now = Ok (q', s) ->
  contact s = None -> s <> QueryState.Finished -> elapsed q' now < query_timeout ->
  loop_post query_timeout now order (<[id := (x.1, q')]> qs) qs' v ->
  loop_post query_timeout now (id :: order) qs qs' v.
Proof.
  intros Hx Hid Hp Hc Hf Ht (H1 & H2 & H3 & H4 & H5).
  assert (Hdom : id ∈ dom qs) by (by eapply elem_of_dom_2).
  assert (Hself : qs' !! id = Some (x.1, q')) by (by rewrite (H3 id Hid), lookup_insert_eq).
  assert (Hback : forall id' y, id' <> id -> (<[id := (x.1, q')]> qs) !! id' = Some y -> qs !! id' = Some y)
    by (intros id' y Hne; by rewrite lookup_insert_ne by done).
  split_and!; [done | rewrite H2, dom_insert_L; set_solver | | |].
  - intros id' Hid'. rewrite (H3 id') by set_solver. apply lookup_insert_ne. set_solver.
  - intros id' y Hy. destruct (decide (id' = id)) as [->|Hne].
    + exists (x.1, q'). simplify_eq. split; [done|]. right. split; eauto.
    + apply H4. by rewrite lookup_insert_ne.
  - assert (Hne : forall id', id' ∈ order -> id' <> id) by (intros id' Hin ->; done).
    destruct v as [[id'|id' peer|id']|].
    1-3: destruct H5 as (Hin & y & z & Hr); (split; [by right|]); exists y, z.
    1-2: by destruct Hr as [Hy Hr]; split; [apply Hback; auto|].
    { destruct Hr as (s' & Hy & Hr). exists s'. by split; [apply Hback; auto|]. }
    intros id' y [->|Hin]%elem_of_cons Hy; [simplify_eq; eauto 10|].
    apply (H5 id' y Hin). rewrite lookup_insert_ne; [done | by apply not_eq_sym, Hne].
Qed.

Lemma poll_queries_ok query_timeout now order qs :
  queries_ok qs -> NoDup order ->
  exists qs' v, poll_queries query_timeout now order qs = Ok (qs', v)
    /\ loop_post query_timeout now order qs qs' v.
Proof.
  intros Hqs Hnd. revert qs Hqs. induction Hnd as [|id order Hid Hnd IH]; intros qs Hqs; simpl.
  { exists qs, None. split; [done|]. split_and!; eauto. intros id x Hin. by apply elem_of_nil in Hin. }
  destruct (qs !! id) as [[info q]|] eqn:Ex.
  - fold (begun now q). destruct (poll_begun now q) as (q' & s & Ep & Hq' & _);
      [by apply (Hqs id (info, q))|].
    rewrite Ep. simpl.
    pose proof (loop_post_stop query_timeout now id order qs (info, q) q' s) as Hstop.
    assert (Hgo : contact s = None -> s <> QueryState.Finished -> elapsed q' now < query_timeout ->
      exists qs' v, poll_queries query_timeout now order (<[id := (info, q')]> qs) = Ok (qs', v)
        /\ loop_post query_timeout now (id :: order) qs qs' v).
    { intros Hc Hf Ht. destruct (IH (<[id := (info, q')]> qs)) as (qs' & v & E & Hpost);
        [by apply map_Forall_insert_2|].
      exists qs', v. split; [done|]. by eapply (loop_post_next _ _ _ _ _ (info, q)). }
    destruct s as [[peer|]| |]; [eauto 10 | | |eauto 10].
    all: destruct (Z.leb_spec query_timeout (elapsed q' now)); [|by apply Hgo]; eauto 10.
  - destruct (IH qs Hqs) as (qs' & v & E & H1 & H2 & H3 & H4 & H5). exists qs', v. split; [done|].
    split_and!; [done | done | intros id' Hid'; apply H3; set_solver | done |].
    destruct v as [[id'|id' peer|id']|]; [set_solver.. |].
    intros id' y [->|Hin]%elem_of_cons Hy; [congruence | eauto].
Qed.

(** The map is traversed in some order of its keys. *)
Definition traversal (order : list Z) qs : Prop := NoDup order /\ forall id, id ∈ order <-> id ∈ dom qs.

(** [poll] of the pool, whatever the order the map is traversed in: none of its
    [expect]s fails and every query keeps its invariant. [Idle]: there are no
    queries. [Waiting(None)]: every query, started at the latest now, answered that it
    waits with nobody to contact, and none has used up its time. [Waiting(Some(..))],
    [Finished], [Timeout]: the query of that id answered so (or waits past the query
    timeout), and it stays in the pool, respectively is removed, together with the
    information filed with it; the pool loses no other query. *)
Theorem pool_poll_spec p now order :
  queries_ok (queries p) -> traversal order (queries p) ->
  exists p' st, poll p now order = Ok (p', st)
    /\ queries_ok (queries p') /\ next_id p' = next_id p /\ query_timeout p' = query_timeout p
    /\ match st with
       | Idle => queries p = ∅ /\ queries p' = ∅
       | Waiting None => dom (queries p') = dom (queries p)
           /\ forall id info q, queries p !! id = Some (info, q) -> exists q' s,
                Query.poll (begun now q) now = Ok (q', s) /\ contact s = None
                /\ s <> QueryState.Finished /\ elapsed q' now < query_timeout p
       | Waiting (Some (id, info, q', peer)) => dom (queries p') = dom (queries p)
           /\ queries p' !! id = Some (info, q')
           /\ exists q, queries p !! id = Some (info, q)
                /\ Query.poll (begun now q) now = Ok (q', QueryState.Waiting (Some peer))
       | Finished id info q' => dom (queries p') = dom (queries p) ∖ {[ id ]}
           /\ exists q, queries p !! id = Some (info, q)
                /\ Query.poll (begun now q) now = Ok (q', QueryState.Finished)
       | Timeout id info q' => dom (queries p') = dom (queries p) ∖ {[ id ]}
           /\ exists q s, queries p !! id = Some (info, q)
                /\ Query.poll (begun now q) now = Ok (q', s) /\ contact s = None
                /\ s <> QueryState.Finished /\ query_timeout p <= elapsed q' now
       end.
Proof.
  intros Hqs [Hnd Hord]. unfold poll.
  destruct (poll_queries_ok (query_timeout p) now order (queries p) Hqs Hnd)
    as (qs' & v & -> & Hqs' & Hdom & _ & _ & Hv). simpl.
  assert (Hdel : forall id, queries_ok (delete id qs')) by (intros id; by apply map_Forall_delete).
  destruct v as [[id|id peer|id]|].
  - destruct Hv as (_ & [info q] & q' & Hx & Hx' & Hp). rewrite Hx'. simpl in *.
    eexists _, _. split; [done|]. split_and!; simpl; eauto. by rewrite dom_delete_L, Hdom.
  - destruct Hv as (_ & [info q] & q' & Hx & Hx' & Hp). rewrite Hx'. simpl in *.
    eexists _, _. split; [done|]. split_and!; simpl; eauto.
  - destruct Hv as (_ & [info q] & q' & s & Hx & Hx' & Hp). rewrite Hx'. simpl in *.
    eexists _, _. split; [done|]. split_and!; simpl; eauto 10. by rewrite dom_delete_L, Hdom.
  - destruct (decide (qs' = ∅)) as [->|Hne]; eexists _, _; (split; [done|]); split_and!; simpl; auto.
    + apply dom_empty_iff_L. by rewrite <- Hdom, dom_empty_L.
    + intros id info q Hx. apply (Hv id (info, q)); [|done]. apply Hord. by eapply elem_of_dom_2.
Qed.

(** ** Identifiers *)

(** What is done to a pool. *)
Inductive op := Add (info : Info) (q : Q) | Poll (now : Z) (order : list Z).

(** The ids that [add_query] returned, each with whether it was free. *)
Fixpoint run_ops p (ops : list op) : res Empty_set (t Q Info * list (Z * bool)) :=
  match ops with
  | [] => Ok (p, [])
  | Add info q :: ops =>
      let free := bool_decide (queries p !! next_id p = None) in
      let a := add_query p info q in
      let? r := run_ops a.1 ops in
      Ok (r.1, (a.2, free) :: r.2)
  | Poll now order :: ops =>
      let? r := poll p now order in
      run_ops r.1 ops
  end.

Fixpoint adds (ops : list op) : Z :=
  match ops with
  | [] => 0
  | Add _ _ :: ops => 1 + adds ops
  | Poll _ _ :: ops => adds ops
  end.

Definition ids_below p : Prop := forall id, id ∈ dom (queries p) -> 0 <= id < next_id p.

Lemma adds_nonneg ops : 0 <= adds ops.
Proof. induction ops as [|[] ops IH]; simpl; lia. Qed.

Lemma poll_queries_dom query_timeout now order qs qs' v :
  poll_queries query_timeout now order qs = Ok (qs', v) -> dom qs' = dom qs.
Proof.
  revert qs. induction order as [|id order IH]; intros qs; simpl; [by intros [= -> _]|].
  destruct (qs !! id) as [[info q]|] eqn:Ex; [|apply IH].
  assert (Hd : forall x, dom (<[id := x]> qs) = dom qs).
  { intros x. rewrite dom_insert_L. apply elem_of_dom_2 in Ex. set_solver. }
  intros H. repeat case_hyp H; simplify_eq/=; auto; by rewrite (IH _ H).
Qed.

Lemma pool_poll_shape p now order p' st :
  poll p now order = Ok (p', st) -> next_id p' = next_id p /\ dom (queries p') ⊆ dom (queries p).
Proof.
  unfold poll. intros H. destruct (poll_queries _ _ _ _) as [[qs' v]| |] eqn:E; try done.
  apply poll_queries_dom in E. simpl in H. rewrite <- E.
  repeat case_hyp H; simplify_eq/=; (split; [done|]); rewrite ?dom_delete_L; set_solver.
Qed.

Lemma run_ops_ids p ops p' ids :
  0 <= next_id p -> next_id p + adds ops < U64_MOD -> ids_below p ->
  run_ops p ops = Ok (p', ids) ->
  Forall (fun x => x.2 = true) ids /\ ids.*1 = seqZ (next_id p) (adds ops).
Proof.
  revert p ids. induction ops as [|[info q|now order] ops IH]; intros p ids H0 Hn Hb H; simpl in *.
  - by injection H as <- <-.
  - pose proof (adds_nonneg ops) as Ha.
    destruct (run_ops _ ops) as [[p1 ids1]| |] eqn:E; try done. injection H as <- <-. simpl.
    assert (Hw : wrap64 (next_id p + 1) = next_id p + 1) by (apply wrap64_small; unfold is_u64; lia).
    rewrite Hw in E. apply IH in E as [H1 H2]; simpl; [| lia | lia |].
    2: { intros id. simpl. rewrite dom_insert_L. intros [->%elem_of_singleton|Hid]%elem_of_union; [lia|].
      specialize (Hb id Hid). lia. }
    simpl in H2. split.
    + constructor; [|done]. simpl. apply bool_decide_eq_true. apply not_elem_of_dom.
      intros Hid%Hb. lia.
    + rewrite (seqZ_cons (next_id p)) by lia. simpl. f_equal. transitivity (ids1.*1); [done|].
      rewrite H2. unfold Z.succ. f_equal. lia.
  - destruct (poll p now order) as [[p1 st]| |] eqn:E; try done. simpl in H.
    apply pool_poll_shape in E as [E1 E2]. rewrite <- E1 in *. eapply IH; [done | done | | done].
    intros id Hid. rewrite E1. apply Hb. by apply E2.
Qed.

(** Query ids are unique: in the life of a pool with fewer than 2^64 calls of
    [add_query], polls in between, the ids returned are 0, 1, 2, ... in order and
    each was free, so that adding a query never replaces another one. *)
Theorem pool_ids_unique timeout ops p ids :
  adds ops < U64_MOD -> run_ops (new timeout) ops = Ok (p, ids) ->
  Forall (fun x => x.2 = true) ids /\ ids.*1 = seqZ 0 (adds ops).
Proof.
  intros Ha H. apply (run_ops_ids (new timeout) ops p ids); [done | done | | done].
  intros id. simpl. rewrite dom_empty_L. set_solver.
Qed.
End Correct.

End QueryPool.

(** ** The theorems at work *)

Definition small_pool : QueryPool.t (FindNodeQuery.t Z) Z :=
  (QueryPool.add_query (QueryPool.add_query (QueryPool.new 60) 7 small_query).1 8 small_query).1.

Lemma small_pool_ok :
  QueryPool.queries_ok (QueryPool.queries small_pool)
  /\ QueryPool.traversal [1; 0] (QueryPool.queries small_pool).
Proof.
  split.
  - apply map_Forall_insert_2; [apply small_query_inv|].
    apply map_Forall_insert_2; [apply small_query_inv | apply map_Forall_empty].
  - split; [by apply (bool_decide_unpack _)|]. intros id. simpl.
    rewrite !dom_insert_L, dom_empty_L. set_solver.
Qed.

Lemma pool_poll_spec_witness :
  exists p' st, QueryPool.poll small_pool 3 [1; 0] = Ok (p', st)
    /\ QueryPool.queries_ok (QueryPool.queries p')
    /\ QueryPool.next_id p' = 2.
Proof.
  destruct small_pool_ok as [H1 H2].
  destruct (QueryPool.pool_poll_spec small_pool 3 [1; 0] H1 H2) as (p' & st & E & Hok & Hn & _).
  exists p', st. split; [exact E|]. split; [exact Hok | exact Hn].
Defined.

Lemma pool_ids_unique_witness :
  exists p ids,
    QueryPool.run_ops (QueryPool.new 60)
      [QueryPool.Add 7 small_query; QueryPool.Poll 3 [0]; QueryPool.Add 8 small_query] = Ok (p, ids)
    /\ ids.*1 = [0; 1].
Proof.
  eexists _, _. split; [vm_compute; reflexivity|].
  eapply (QueryPool.pool_ids_unique 60
            [QueryPool.Add 7 small_query; QueryPool.Poll 3 [0]; QueryPool.Add 8 small_query]).
  - reflexivity.
  - vm_compute. reflexivity.
Defined.
