(* ===== verification/Wire.v ===== *)
(** * The portal wire protocol.

    [ethportal-api/src/types/portal_wire.rs]: the size limits, the protocol
    identifiers, the messages with their conversions to requests and responses,
    and the custom payload of pings that carries a data radius.  Node records and
    the SSZ and integer libraries are the classes [EnrLib] and [WireLib]. *)

From Stdlib Require Import String.
From S2P Require Import Prelude.
From S2P Require Import Distance.
From S2P Require Import Hex.

(** [discv5::enr::Enr]: signed node records. *)
Class EnrLib := {
  Enr : Type;
  enr_eq :: EqDecision Enr;
  enr_node_id : Enr -> bytes;
  enr_seq : Enr -> Z;
  enr_rlp : Enr -> bytes;
  rlp_enr : bytes -> option Enr;
}.

Class EnrLibOk (L : EnrLib) : Prop := {
  enr_node_id_b32 e : is_b32 (enr_node_id e);
  rlp_enr_rlp e : rlp_enr (enr_rlp e) = Some e;
}.

(** [ssz], [ssz_types] and [ethereum_types]. *)
Class WireLib := {
  bytelist_from : bytes -> bytes;
  u256_from_little_endian : bytes -> res Empty_set Z;
  u256_as_ssz_bytes : Z -> bytes;
  ssz_vec_len : list Z -> Z;
}.

(** [ByteList] is a [VariableList] of at most 2048 bytes, whose [From] truncates;
    [U256::from_little_endian] asserts that it is given at most 32 bytes; a [U256]
    is encoded as 32 bytes; a vector of items of variable size takes an offset of
    four bytes per item. *)
Class WireLibOk (L : WireLib) : Prop := {
  bytelist_from_spec b : bytelist_from b = take 2048 b;
  u256_from_le_small b : (length b <= 32)%nat -> u256_from_little_endian b = Ok (le_to_Z b);
  u256_from_le_large b : (32 < length b)%nat -> u256_from_little_endian b = Panic;
  u256_as_ssz_spec z : is_u256 z -> u256_as_ssz_bytes z = Z_to_le 32 z;
  ssz_vec_len_spec ls : ssz_vec_len ls = foldr (fun n acc => n + 4 + acc) 0 ls;
}.

(** ** Size limits *)

Definition BYTES_PER_UNION_SELECTOR : Z := 1.
Definition BYTES_PER_LENGTH_OFFSET : Z := 4.
Definition MAX_DISCV5_PACKET_SIZE : Z := 1280.
Definition MAX_DISCV5_TALK_REQ_PAYLOAD_SIZE : Z :=
  MAX_DISCV5_PACKET_SIZE - 16 - 23 - 32 - 16 - 8 - 8 - 6.
Definition MAX_PORTAL_NODES_ENRS_SIZE : Z :=
  MAX_DISCV5_TALK_REQ_PAYLOAD_SIZE - BYTES_PER_UNION_SELECTOR - 1 - BYTES_PER_LENGTH_OFFSET.
Definition MAX_PORTAL_CONTENT_PAYLOAD_SIZE : Z :=
  MAX_DISCV5_TALK_REQ_PAYLOAD_SIZE - (BYTES_PER_UNION_SELECTOR * 2) - BYTES_PER_LENGTH_OFFSET.

(** ** Custom payloads *)

Module CustomPayload.
Record t := mk { payload : bytes }.

Section Ops.
Context `{W : WireLib}.

(** [From<Vec<u8>>]; also what [from_ssz_bytes] does. *)
Definition from (ssz_bytes : bytes) : t := mk (bytelist_from ssz_bytes).

(** [From<CustomPayload> for Distance]. *)
Definition to_distance (val : t) : res Empty_set Z := u256_from_little_endian (payload val).
End Ops.
End CustomPayload.

(** ** Protocol identifiers *)

Module ProtocolId.
Inductive t := State | History | TransactionGossip | CanonicalIndices | Beacon | Utp.

Inductive error := Decode (e : ByteUtilsError) | Invalid.

#[global] Instance eq_dec : EqDecision t.
Proof. solve_decision. Defined.

Definition str (s : string) : bytes := list_byte_of_string s.

(** The string literals. *)
Definition name (p : t) : bytes :=
  match p with
  | State => str "0x500A"
  | History => str "0x500B"
  | TransactionGossip => str "0x500C"
  | CanonicalIndices => str "0x500D"
  | Beacon => str "0x501A"
  | Utp => str "0x757470"
  end.

Definition from_str (input : bytes) : res error t :=
  if decide (input = str "0x500A") then Ok State
  else if decide (input = str "0x500B") then Ok History
  else if decide (input = str "0x500C") then Ok TransactionGossip
  else if decide (input = str "0x500D") then Ok CanonicalIndices
  else if decide (input = str "0x501A") then Ok Beacon
  else if decide (input = str "0x757470") then Ok Utp
  else Err Invalid.

(** [TryFrom<ProtocolId> for Vec<u8>]. *)
Definition to_bytes `{HexLib} (protocol_id : t) : res error bytes :=
  map_err Decode (hex_decode (name protocol_id)).

(** [From<ProtocolId> for u8]. *)
Definition to_u8 (protocol_id : t) : Z :=
  match protocol_id with
  | State => 2
  | History => 0
  | TransactionGossip => 3
  | CanonicalIndices => 4
  | Beacon => 1
  | Utp => 99
  end.
End ProtocolId.

(** ** Messages *)

Section Messages.
Context `{E : EnrLib}.

Record Ping := { ping_enr_seq : Z; ping_custom_payload : CustomPayload.t }.
Record Pong := { pong_enr_seq : Z; pong_custom_payload : CustomPayload.t }.
Record FindNodes := { distances : list Z }.
Record Nodes := { total : Z; enrs : list Enr }.
Record NodesHelper := { helper_total : Z; helper_enrs : list bytes }.
Record FindContent := { content_key : bytes }.
Inductive Content := ConnectionId (id : Z) | ContentBytes (content : bytes) | Enrs (enrs : list Enr).
Record Offer := { content_keys : list bytes }.
Record Accept := { accept_connection_id : Z; accept_content_keys : list bool }.
Record PopulatedOffer := { content_items : list (bytes * bytes) }.
Record PopulatedOfferWithResult := { content_item : bytes * bytes }.
End Messages.

(** [NodesHelper::from(&Nodes)] and [Nodes::try_from(NodesHelper)]. *)
Definition nodes_to_helper `{EnrLib} (nodes : Nodes) : NodesHelper :=
  {| helper_total := total nodes; helper_enrs := map enr_rlp (enrs nodes) |}.

Definition helper_to_nodes `{EnrLib} (helper : NodesHelper) : res unit Nodes :=
  let? es := res_all (fun b => ok_or (rlp_enr b) tt) (helper_enrs helper) in
  Ok {| total := helper_total helper; enrs := es |}.

Definition populated_to_offer (val : PopulatedOffer) : Offer :=
  {| content_keys := map fst (content_items val) |}.

Definition populated_result_to_offer (val : PopulatedOfferWithResult) : Offer :=
  {| content_keys := [fst (content_item val)] |}.

Module Message.
Inductive t `{E : EnrLib} :=
| Ping (m : Wire.Ping)
| Pong (m : Wire.Pong)
| FindNodes (m : Wire.FindNodes)
| Nodes (m : Wire.Nodes)
| FindContent (m : Wire.FindContent)
| Content (m : Wire.Content)
| Offer (m : Wire.Offer)
| Accept (m : Wire.Accept).
End Message.

Inductive TryFromMessageError := NonRequestMessage | NonResponseMessage.

Module Request.
Inductive t :=
| Ping (m : Wire.Ping)
| FindNodes (m : Wire.FindNodes)
| FindContent (m : Wire.FindContent)
| Offer (m : Wire.Offer)
| PopulatedOffer (m : Wire.PopulatedOffer)
| PopulatedOfferWithResult (m : Wire.PopulatedOfferWithResult).

(** [From<Request> for Message]. *)
Definition to_message `{EnrLib} (request : t) : Message.t :=
  match request with
  | Ping ping => Message.Ping ping
  | FindNodes find_nodes => Message.FindNodes find_nodes
  | FindContent find_content => Message.FindContent find_content
  | Offer offer => Message.Offer offer
  | PopulatedOffer offer => Message.Offer (populated_to_offer offer)
  | PopulatedOfferWithResult offer => Message.Offer (populated_result_to_offer offer)
  end.

Definition try_from `{EnrLib} (message : Message.t) : res TryFromMessageError t :=
  match message with
  | Message.Ping ping => Ok (Ping ping)
  | Message.Pong _ => Err NonRequestMessage
  | Message.FindNodes find_nodes => Ok (FindNodes find_nodes)
  | Message.Nodes _ => Err NonRequestMessage
  | Message.FindContent find_content => Ok (FindContent find_content)
  | Message.Content _ => Err NonRequestMessage
  | Message.Offer offer => Ok (Offer offer)
  | Message.Accept _ => Err NonRequestMessage
  end.

(** The request as the network sees it: offers are reduced to their keys. *)
Definition on_wire (request : t) : t :=
  match request with
  | PopulatedOffer offer => Offer (populated_to_offer offer)
  | PopulatedOfferWithResult offer => Offer (populated_result_to_offer offer)
  | _ => request
  end.
End Request.

Module Response.
Inductive t `{E : EnrLib} :=
| Pong (m : Wire.Pong)
| Nodes (m : Wire.Nodes)
| Content (m : Wire.Content)
| Accept (m : Wire.Accept).

(** [From<Response> for Message]. *)
Definition to_message `{EnrLib} (response : t) : Message.t :=
  match response with
  | Pong pong => Message.Pong pong
  | Nodes nodes => Message.Nodes nodes
  | Content content => Message.Content content
  | Accept accept => Message.Accept accept
  end.

Definition try_from `{EnrLib} (message : Message.t) : res TryFromMessageError t :=
  match message with
  | Message.Ping _ => Err NonResponseMessage
  | Message.Pong pong => Ok (Pong pong)
  | Message.FindNodes _ => Err NonResponseMessage
  | Message.Nodes nodes => Ok (Nodes nodes)
  | Message.FindContent _ => Err NonResponseMessage
  | Message.Content content => Ok (Content content)
  | Message.Offer _ => Err NonResponseMessage
  | Message.Accept accept => Ok (Accept accept)
  end.
End Response.

(** ** Limiting a list of node records *)

Section Limit.
Context `{E : EnrLib} `{W : WireLib}.

(** [Vec<SszEnr>::ssz_bytes_len]. *)
Definition ssz_bytes_len (l : list Enr) : Z :=
  ssz_vec_len (map (fun e => Z.of_nat (length (enr_rlp e))) l).

(** [pop_while_ssz_bytes_len_gt] of [overlay_service.rs]: [pop] removes the last record
    and does nothing on an empty vector; [None] when the fuel runs out. *)
Fixpoint pop_loop (fuel : nat) (l : list Enr) (max_size : Z) : option (list Enr) :=
  match fuel with
  | O => None
  | S fuel =>
      if max_size <? ssz_bytes_len l then pop_loop fuel (removelast l) max_size else Some l
  end.

Definition pop_while_ssz_bytes_len_gt (l : list Enr) (max_size : Z) : option (list Enr) :=
  pop_loop (S (length l)) l max_size.
End Limit.

(** ** Theorems *)

Section Correct.
Context `{E : EnrLib} `{W : WireLib}.

(** Messages are exactly the requests and the responses: a request sent as a
    message is read back as the same request, an offer with its contents as the offer
    of their keys; a response is read back unchanged; every message reads as a request
    or as a response and never as both; and what reads as one is sent as the message
    it came from. *)
Theorem message_partition :
  (forall r, Request.try_from (Request.to_message r) = Ok (Request.on_wire r)
     /\ Response.try_from (Request.to_message r) = Err NonResponseMessage)
  /\ (forall r, Response.try_from (Response.to_message r) = Ok r
       /\ Request.try_from (Response.to_message r) = Err NonRequestMessage)
  /\ (forall m, (exists r, Request.try_from m = Ok r /\ Request.to_message r = m)
       \/ (exists r, Response.try_from m = Ok r /\ Response.to_message r = m)).
Proof.
  split_and!.
  - by intros [].
  - by intros [].
  - intros []; ((left; eexists; split; reflexivity) || (right; eexists; split; reflexivity)).
Qed.

Lemma ssz_bytes_len_spec `{!WireLibOk W} l :
  ssz_bytes_len l = foldr (fun e acc => Z.of_nat (length (enr_rlp e)) + 4 + acc) 0 l.
Proof.
  unfold ssz_bytes_len. rewrite ssz_vec_len_spec. induction l as [|e l IH]; simpl; [done|].
  by rewrite IH.
Qed.

Lemma ssz_bytes_len_app `{!WireLibOk W} l1 l2 :
  ssz_bytes_len (l1 ++ l2) = ssz_bytes_len l1 + ssz_bytes_len l2.
Proof.
  rewrite !ssz_bytes_len_spec. induction l1 as [|e l1 IH]; simpl; [done|]. lia.
Qed.

Lemma ssz_bytes_len_nonneg `{!WireLibOk W} l : 0 <= ssz_bytes_len l.
Proof. rewrite ssz_bytes_len_spec. induction l as [|e l IH]; simpl; lia. Qed.

Lemma pop_loop_S fuel l max_size :
  pop_loop (S fuel) l max_size
  = if max_size <? ssz_bytes_len l then pop_loop fuel (removelast l) max_size else Some l.
Proof. reflexivity. Qed.

(** Limiting a list of node records terminates (for a limit that is not negative)
    and keeps the longest prefix that fits: the result is a prefix of the list, its
    encoding is within the limit, and any longer prefix is not. *)
Theorem pop_while_longest_prefix `{!WireLibOk W} l max_size :
  0 <= max_size ->
  exists l1 l2, pop_while_ssz_bytes_len_gt l max_size = Some l1 /\ l = l1 ++ l2
    /\ ssz_bytes_len l1 <= max_size
    /\ forall k, (length l1 < k <= length l)%nat -> max_size < ssz_bytes_len (take k l).
Proof.
  intros Hmax. unfold pop_while_ssz_bytes_len_gt.
  induction l as [|e l IH] using rev_ind.
  { exists [], []. rewrite pop_loop_S, ssz_bytes_len_spec. simpl.
    destruct (Z.ltb_spec max_size 0); [lia|]. split_and!; [done | done | lia | lia]. }
  rewrite length_app. simpl length. rewrite Nat.add_1_r, pop_loop_S.
  destruct (Z.ltb_spec max_size (ssz_bytes_len (l ++ [e]))) as [Hgt|Hle].
  - rewrite removelast_last. destruct IH as (l1 & l2 & -> & -> & Hl1 & Hk).
    exists l1, (l2 ++ [e]). split_and!; [done | by rewrite app_assoc | done |].
    intros k Hlen. destruct (decide (k <= length (l1 ++ l2))%nat) as [Hs|Hs].
    + rewrite take_app_le by done. apply Hk. lia.
    + by rewrite take_ge by (rewrite length_app; simpl in *; lia).
  - exists (l ++ [e]), []. split_and!; [done | by rewrite app_nil_r | done |].
    intros k. rewrite length_app. simpl. lia.
Qed.

(** The data radius carried by a ping: the radius a node sends is read back by
    the receiver, but reading a payload of more than 32 bytes, which a peer may send,
    fails the assertion of [U256::from_little_endian] and panics. *)
Theorem custom_payload_radius `{!WireLibOk W} :
  (forall d, is_u256 d -> CustomPayload.to_distance (CustomPayload.from (u256_as_ssz_bytes d)) = Ok d)
  /\ (forall b, (length b <= 32)%nat -> exists d,
        CustomPayload.to_distance (CustomPayload.from b) = Ok d /\ is_u256 d)
  /\ (forall b, (32 < length b)%nat -> CustomPayload.to_distance (CustomPayload.from b) = Panic).
Proof.
  unfold CustomPayload.to_distance, CustomPayload.from. split_and!; intros x Hx; simpl;
    rewrite bytelist_from_spec.
  - rewrite u256_as_ssz_spec by done.
    assert (length (Z_to_le 32 x) = 32%nat) as Hl by apply length_Z_to_le.
    rewrite take_ge by lia. rewrite u256_from_le_small by lia. f_equal.
    unfold is_u256, U256_MOD in Hx. rewrite le_to_Z_to_le by lia. apply Z.mod_small. exact Hx.
  - rewrite take_ge by lia. rewrite u256_from_le_small by lia.
    eexists. split; [done|]. destruct (le_to_Z_range x) as [H1 H2].
    split; [done|]. eapply Z.lt_le_trans; [exact H2|].
    change U256_MOD with (256 ^ 32). apply Z.pow_le_mono_r; lia.
  - apply u256_from_le_large. rewrite length_take. lia.
Qed.

(** A NODES message survives the detour over raw records: what [NodesHelper]
    encodes is decoded back, and a record that does not decode makes the whole
    message fail. *)
Theorem nodes_helper_roundtrip `{!EnrLibOk E} :
  (forall n, helper_to_nodes (nodes_to_helper n) = Ok n)
  /\ (forall h b, b ∈ helper_enrs h -> rlp_enr b = None -> helper_to_nodes h = Err tt).
Proof.
  unfold helper_to_nodes, nodes_to_helper. split.
  - intros [tot l]. simpl. induction l as [|e l IH]; simpl in *; [done|].
    rewrite rlp_enr_rlp. simpl. destruct (res_all _ (map enr_rlp l)); by simplify_eq.
  - intros [tot l] b Hb Hn. simpl in *. induction l as [|b' l IH]; [by apply elem_of_nil in Hb|].
    simpl. destruct (rlp_enr b') as [e|] eqn:E'; simpl; [|done].
    apply elem_of_cons in Hb as [->|Hb]; [congruence|]. specialize (IH Hb).
    destruct (res_all _ l); simpl in *; by simplify_eq.
Qed.
End Correct.

(** ** The theorems at work *)

(** Records that are a node id (their first 32 bytes, padded) and a sequence number
    (their length), marked with a byte when encoded. *)
#[global] Instance toy_enr : EnrLib := {|
  Enr := bytes;
  enr_node_id e := take 32 (e ++ replicate 32 x00);
  enr_seq e := Z.of_nat (length e);
  enr_rlp e := x01 :: e;
  rlp_enr b := match b with x01 :: e => Some e | _ => None end;
|}.

#[global] Instance toy_enr_ok : EnrLibOk toy_enr.
Proof.
  split; [|done]. intros e. unfold is_b32. cbn [enr_node_id toy_enr]. rewrite length_take, length_app, length_replicate. lia.
Qed.

#[global] Instance toy_wire : WireLib := {|
  bytelist_from b := take 2048 b;
  u256_from_little_endian b := if (length b <=? 32)%nat then Ok (le_to_Z b) else Panic;
  u256_as_ssz_bytes z := Z_to_le 32 z;
  ssz_vec_len ls := foldr (fun n acc => n + 4 + acc) 0 ls;
|}.

#[global] Instance toy_wire_ok : WireLibOk toy_wire.
Proof.
  split; try done; intros b Hb; simpl.
  - by rewrite (proj2 (Nat.leb_le _ _) Hb).
  - by rewrite (proj2 (Nat.leb_gt _ _) Hb).
Qed.

Definition sample_enrs : list Enr := [[x05]; [x06]; [x07; x08]].

Lemma pop_while_longest_prefix_witness :
  exists l1 l2, pop_while_ssz_bytes_len_gt sample_enrs 12 = Some l1
    /\ sample_enrs = l1 ++ l2 /\ l1 = take 2 sample_enrs.
Proof.
  destruct (pop_while_longest_prefix sample_enrs 12) as (l1 & l2 & H1 & H2 & _).
  - discriminate.
  - exists l1, l2. split; [exact H1|]. split; [exact H2|]. vm_compute in H1. by injection H1 as <-.
Defined.

Lemma custom_payload_radius_witness :
  CustomPayload.to_distance (CustomPayload.from (u256_as_ssz_bytes 77)) = Ok 77
  /\ CustomPayload.to_distance (CustomPayload.from (replicate 33 x00)) = Panic.
Proof.
  destruct custom_payload_radius as (H1 & _ & H3). split.
  - apply H1. split; [discriminate | reflexivity].
  - apply H3. rewrite length_replicate. lia.
Defined.

Lemma nodes_helper_roundtrip_witness :
  helper_to_nodes (nodes_to_helper {| total := 1; enrs := sample_enrs |})
  = Ok {| total := 1; enrs := sample_enrs |}
  /\ helper_to_nodes {| helper_total := 1; helper_enrs := [[x01]; [x02]] |} = Err tt.
Proof.
  destruct nodes_helper_roundtrip as [H1 H2]. split; [apply H1|].
  apply (H2 _ [x02]); [by apply (bool_decide_unpack _) | reflexivity].
Defined.
