(* ===== verification/QueryTrace.v ===== *)
(** * Traces of content lookups.

    [ethportal-api/src/types/query_trace.rs].  Node ids are their 32 bytes; the time
    of a call is an argument, in milliseconds. *)

From stdpp Require Import gmap.
From S2P Require Import Prelude.
From S2P Require Import Distance.
From S2P Require Import Wire.

Record QueryResponse := { duration_ms : Z; responded_with : list bytes }.
Record NodeInfo `{E : EnrLib} := { info_enr : Enr; info_distance : bytes }.

Module QueryTrace.
Section Trace.
Context `{E : EnrLib}.

Record t := mk {
  received_from : option bytes;
  origin : bytes;
  responses : gmap bytes QueryResponse;
  metadata : gmap bytes NodeInfo;
  started_at_ms : Z;
  target_id : bytes;
  cancelled : list bytes;
}.

Definition new (local_enr : Enr) (target : bytes) (now : Z) : t :=
  {| received_from := None;
     origin := enr_node_id local_enr;
     responses := ∅;
     metadata := ∅;
     started_at_ms := now;
     target_id := target;
     cancelled := [] |}.

(** [duration_since] fails for a time in the future; the cast saturates. *)
Definition timestamp_millis_u64 (since now : Z) : Z :=
  Z.min (if since <=? now then now - since else 0) (U64_MOD - 1).

Definition get_metadata (enr : Enr) (target : bytes) : NodeInfo :=
  {| info_enr := enr; info_distance := big_endian (distance (enr_node_id enr) target) |}.

Definition set_metadata (self : t) m : t :=
  mk (received_from self) (origin self) (responses self) m (started_at_ms self) (target_id self)
     (cancelled self).
Definition set_responses (self : t) r : t :=
  mk (received_from self) (origin self) r (metadata self) (started_at_ms self) (target_id self)
     (cancelled self).
Definition set_cancelled (self : t) c : t :=
  mk (received_from self) (origin self) (responses self) (metadata self) (started_at_ms self)
     (target_id self) c.

Definition add_metadata (self : t) (enr : Enr) (node_responded : bool) : t :=
  let node_info :=
    match metadata self !! enr_node_id enr with
    | Some node_info =>
        let different_enr := negb (bool_decide (enr = info_enr node_info)) in
        let higher_incoming_seq_number := enr_seq (info_enr node_info) <? enr_seq enr in
        let same_incoming_seq_number := enr_seq enr =? enr_seq (info_enr node_info) in
        if different_enr
           && ((same_incoming_seq_number && node_responded) || higher_incoming_seq_number)
        then get_metadata enr (target_id self)
        else node_info
    | None => get_metadata enr (target_id self)
    end in
  set_metadata self (<[enr_node_id enr := node_info]> (metadata self)).

Definition node_responded_with (self : t) (enr : Enr) (received : list Enr) (now : Z) : t :=
  let node_id := enr_node_id enr in
  let self := fold_left (fun s e => add_metadata s e false) received self in
  let ids := map enr_node_id received in
  let entry :=
    match responses self !! node_id with
    | Some r => r
    | None => {| duration_ms := timestamp_millis_u64 (started_at_ms self) now; responded_with := [] |}
    end in
  let entry := {| duration_ms := duration_ms entry; responded_with := responded_with entry ++ ids |} in
  add_metadata (set_responses self (<[node_id := entry]> (responses self))) enr true.

Definition node_responded_with_content (self : t) (enr : Enr) (now : Z) : t :=
  let node_id := enr_node_id enr in
  let entry :=
    {| duration_ms := timestamp_millis_u64 (started_at_ms self) now; responded_with := [] |} in
  add_metadata
    (mk (Some node_id) (origin self) (<[node_id := entry]> (responses self)) (metadata self)
        (started_at_ms self) (target_id self) (cancelled self)) enr true.

(** ** What the metadata says *)

(** The record kept for the node of [enr] is at least as new as [enr]. *)
Definition knows (self : t) (enr : Enr) : Prop :=
  exists i, metadata self !! enr_node_id enr = Some i /\ enr_seq enr <= enr_seq (info_enr i).

(** The metadata files each record under its node, with the node's distance. *)
Definition metadata_ok (self : t) : Prop :=
  map_Forall (fun id i => enr_node_id (info_enr i) = id
                /\ info_distance i = big_endian (distance id (target_id self))) (metadata self).

Lemma add_metadata_target self enr b : target_id (add_metadata self enr b) = target_id self.
Proof. done. Qed.

Lemma add_metadata_ok self enr b : metadata_ok self -> metadata_ok (add_metadata self enr b).
Proof.
  intros H. unfold metadata_ok, add_metadata. simpl. apply map_Forall_insert_2; [|exact H].
  destruct (metadata self !! enr_node_id enr) as [i|] eqn:Ei; [|done].
  case_match; [done|]. by apply (H _ _ Ei).
Qed.

Lemma add_metadata_knows_self self enr b : knows (add_metadata self enr b) enr.
Proof.
  unfold knows, add_metadata. simpl. rewrite lookup_insert_eq. eexists. split; [done|].
  destruct (metadata self !! enr_node_id enr) as [i|]; simpl; [|lia].
  destruct (bool_decide_reflect (enr = info_enr i)) as [->|]; simpl; [lia|].
  destruct (Z.eqb_spec (enr_seq enr) (enr_seq (info_enr i))); simpl; [case_match; simpl; lia|].
  destruct (Z.ltb_spec (enr_seq (info_enr i)) (enr_seq enr)); simpl; lia.
Qed.

Lemma add_metadata_knows self enr b e : knows self e -> knows (add_metadata self enr b) e.
Proof.
  intros (i & Hi & Hs). destruct (decide (enr_node_id enr = enr_node_id e)) as [He|He].
  - unfold knows, add_metadata. simpl. rewrite He, lookup_insert_eq, Hi. eexists. split; [done|].
    destruct (negb _ && _) eqn:Eb; [|done]. simpl. b2p.
    apply orb_true_iff in H0 as [H0|H0]; b2p; lia.
  - exists i. unfold add_metadata. simpl. by rewrite lookup_insert_ne.
Qed.

(** A step that keeps the metadata filed and forgets no record. *)
Definition extends (self self' : t) : Prop :=
  (metadata_ok self -> metadata_ok self') /\ target_id self' = target_id self
  /\ (forall e, knows self e -> knows self' e).

#[global] Instance extends_preorder : PreOrder extends.
Proof.
  split.
  - intros s. by split_and!.
  - intros s1 s2 s3 (A1 & B1 & C1) (A2 & B2 & C2). split_and!; [auto | congruence | auto].
Qed.

Lemma add_metadata_extends self enr b : extends self (add_metadata self enr b).
Proof. split_and!; [apply add_metadata_ok | done | intros e; apply add_metadata_knows]. Qed.

Lemma add_all_extends self l :
  let self' := fold_left (fun s e => add_metadata s e false) l self in
  extends self self' /\ forall e, e ∈ l -> knows self' e.
Proof.
  revert self. induction l as [|e l IH]; intros self; simpl.
  { split; [reflexivity|]. intros e He. by apply elem_of_nil in He. }
  destruct (IH (add_metadata self e false)) as [Hx Hk]. split.
  - etransitivity; [apply add_metadata_extends | exact Hx].
  - intros e' [->|He]%elem_of_cons; [|auto]. apply Hx, add_metadata_knows_self.
Qed.

(** The calls the overlay makes. *)
Inductive call := Responded (enr : Enr) (received : list Enr) (now : Z) | Delivered (enr : Enr) (now : Z).

Definition apply_call (self : t) (c : call) : t :=
  match c with
  | Responded enr received now => node_responded_with self enr received now
  | Delivered enr now => node_responded_with_content self enr now
  end.

Definition seen (c : call) : list Enr :=
  match c with Responded enr received _ => enr :: received | Delivered enr _ => [enr] end.

Definition source (c : call) : option bytes :=
  match c with Responded _ _ _ => None | Delivered enr _ => Some (enr_node_id enr) end.

Lemma add_all_received self l :
  received_from (fold_left (fun s e => add_metadata s e false) l self) = received_from self.
Proof. revert self. induction l as [|e l IH]; intros self; simpl; [done|]. by rewrite IH. Qed.

Lemma apply_call_extends self c :
  extends self (apply_call self c) /\ (forall e, e ∈ seen c -> knows (apply_call self c) e)
  /\ received_from (apply_call self c) = match source c with Some n => Some n | None => received_from self end.
Proof.
  destruct c as [enr received now|enr now]; simpl; unfold node_responded_with, node_responded_with_content.
  - destruct (add_all_extends self received) as [Hx Hk].
    pose proof (add_all_received self received) as Hr. cbv zeta in *.
    set (s1 := fold_left _ received self) in *. set (s2 := set_responses s1 _).
    split_and!; [| |exact Hr].
    + etransitivity; [exact Hx|]. exact (add_metadata_extends s2 enr true).
    + intros e [->|He]%elem_of_cons; [apply add_metadata_knows_self|].
      apply add_metadata_knows. exact (Hk e He).
  - set (s2 := mk _ _ _ _ _ _ _). split_and!; [| |done].
    + exact (add_metadata_extends s2 enr true).
    + intros e ->%list_elem_of_singleton. apply add_metadata_knows_self.
Qed.

(** A trace keeps the newest record of every node: after any sequence of
    responses, each record that appeared, as a responder or in a response, has
    metadata under its node id, of a record of that node that is at least as new,
    with the big-endian XOR distance of the node to the target; and the trace names as
    the source of the content the last node that delivered it. *)
Theorem trace_metadata_newest local target now0 calls :
  let self := fold_left apply_call calls (new local target now0) in
  metadata_ok self /\ target_id self = target
  /\ (forall c e, c ∈ calls -> e ∈ seen c -> knows self e)
  /\ received_from self = last (omap source calls).
Proof.
  cbv zeta. induction calls as [|c calls IH] using rev_ind.
  { simpl. split_and!; [apply map_Forall_empty | done | | done].
    intros c e Hc. by apply elem_of_nil in Hc. }
  rewrite fold_left_app. simpl. destruct IH as (H1 & H2 & H3 & H4).
  set (s := fold_left apply_call calls _) in *.
  destruct (apply_call_extends s c) as ((X1 & X2 & X3) & Hk & Hr). split_and!.
  - auto.
  - congruence.
  - intros c' e [Hc| ->%list_elem_of_singleton]%elem_of_app He; [|auto]. apply X3. eauto.
  - rewrite Hr, H4, omap_app. simpl. destruct (source c); simpl; [by rewrite last_snoc|].
    by rewrite app_nil_r.
Qed.
End Trace.
End QueryTrace.
