(* ===== verification/QueryInfo.v ===== *)
(** * What a query asks its peers.

    [portalnet/src/find/query_info.rs]: the description that is filed with a query
    and the request it sends to a peer, in particular the log2 distances of a
    FINDNODES request.  Callback channels are named by numbers. *)

From S2P Require Import Prelude.
From S2P Require Import Distance.
From S2P Require Import ContentKey.
From S2P Require Import Query.
From S2P Require Import Wire.
From S2P Require Import QueryTrace.

(** [Key::log2_distance] of discv5. *)
Class Log2Lib (N : Type) `{K : KeyLib N} := { log2_distance : Key -> Key -> option Z }.

Class Log2LibOk (N : Type) `{L : Log2Lib N} : Prop := {
  log2_distance_range a b d : log2_distance a b = Some d -> 1 <= d <= 256
}.

Inductive QueryType `{CK : OverlayContentKey} :=
| QFindNode (target : bytes) (callback : option Z) (distances_to_request : Z)
| QFindContent (target : ContentKey) (callback : option Z).

Module QueryInfo.
Section Info.
Context `{CK : OverlayContentKey} `{E : EnrLib} `{L : Log2Lib bytes}.

Record t := mk {
  query_type : QueryType;
  untrusted_enrs : list Enr;
  trace : option QueryTrace.t;
}.

(** The body of the [while] loop of [findnode_log2distance]; [difference] and the
    distances are [u16]. *)
Definition log2_step (distance size difference : Z) (l : list Z) : list Z :=
  let l := if (distance + difference) mod 2 ^ 16 <=? 256
           then l ++ [(distance + difference) mod 2 ^ 16] else l in
  if Z.of_nat (length l) <? size
  then if difference <=? distance then l ++ [distance - difference] else l
  else l.

(** The loop; [None] when the fuel runs out. *)
Fixpoint log2_loop (fuel : nat) (distance size difference : Z) (l : list Z) : option (list Z) :=
  if Z.of_nat (length l) <? size then
    match fuel with
    | O => None
    | S fuel =>
        log2_loop fuel distance size ((difference + 1) mod 2 ^ 16) (log2_step distance size difference l)
    end
  else Some l.

(** [findnode_log2distance]: [Panic] for more than 127 distances (and if the loop
    did not end), [Ok None] for a node that is asked for itself. *)
Definition findnode_log2distance (target peer : bytes) (size : Z) : res Empty_set (option (list Z)) :=
  if 127 <? size then Panic
  else
    match log2_distance (into_key peer) (into_key target) with
    | None => Ok None
    | Some distance_u64 =>
        let distance := distance_u64 mod 2 ^ 16 in
        match log2_loop 256 distance size 1 [distance] with
        | Some l => Ok (Some (take (Z.to_nat size) l))
        | None => Panic
        end
    end.

Inductive error := RequestedNodeFindItself.

Definition rpc_request (self : t) (peer : bytes) : res error Request.t :=
  match query_type self with
  | QFindNode target _ distances_to_request =>
      match findnode_log2distance target peer distances_to_request with
      | Ok (Some distances) => Ok (Request.FindNodes {| distances := distances |})
      | Ok None => Err RequestedNodeFindItself
      | _ => Panic
      end
  | QFindContent target _ =>
      Ok (Request.FindContent {| content_key := key_to_bytes target |})
  end.

(** [TargetKey::key]. *)
Definition key (self : t) : Key :=
  match query_type self with
  | QFindNode target _ _ => into_key target
  | QFindContent target _ => into_key (content_id target)
  end.
End Info.

(** ** The distances that are requested *)

(** The reference: the distance itself, then alternately one more and one less, as far
    as they are distances (0 to 256). *)
Definition around (d k : Z) : list Z :=
  (if d + k <=? 256 then [d + k] else []) ++ (if k <=? d then [d - k] else []).

Definition around_from (d k : Z) (n : nat) : list Z := flat_map (around d) (seqZ k (Z.of_nat n)).

Definition adjacent (d : Z) : list Z := d :: around_from d 1 256.

(** One round of the loop is a prefix of one round of the reference. *)
Lemma log2_step_around d size k l rest :
  0 <= d <= 256 -> 1 <= k <= 256 -> Z.of_nat (length l) < size ->
  take (Z.to_nat size) (log2_step d size k l ++ rest)
    = take (Z.to_nat size) (l ++ around d k ++ rest)
    \/ take (Z.to_nat size) (log2_step d size k l) = take (Z.to_nat size) (l ++ around d k ++ rest)
       /\ size <= Z.of_nat (length (log2_step d size k l)).
Proof.
  intros Hd Hk Hl. unfold log2_step, around. rewrite Z.mod_small by lia.
  destruct (d + k <=? 256); simpl.
  - destruct (Z.ltb_spec (Z.of_nat (length (l ++ [d + k]))) size) as [Hlt|Hge].
    + left. destruct (k <=? d); by rewrite <- !app_assoc.
    + right. split; [|done]. rewrite (cons_middle (d + k) l ((if k <=? d then [d - k] else []) ++ rest)), app_assoc.
      symmetry. apply take_app_le. lia.
  - destruct (Z.ltb_spec (Z.of_nat (length l)) size); [|lia]. left.
    destruct (k <=? d); simpl; by rewrite <- ?app_assoc.
Qed.

Lemma around_from_S d k n : around_from d k (S n) = around d k ++ around_from d (k + 1) n.
Proof.
  unfold around_from. rewrite (seqZ_cons k) by lia. simpl. do 3 f_equal. lia.
Qed.

(** The loop yields the reference as far as it is asked for, if the reference is long
    enough. *)
Lemma log2_loop_around d size n k l :
  0 <= d <= 256 -> 1 <= k -> k + Z.of_nat n <= 257 -> 0 <= size ->
  size <= Z.of_nat (length (l ++ around_from d k n)) ->
  exists l', log2_loop n d size k l = Some l' /\
    take (Z.to_nat size) l' = take (Z.to_nat size) (l ++ around_from d k n)
    /\ size <= Z.of_nat (length l').
Proof.
  intros Hd. revert k l. induction n as [|n IH]; intros k l Hk Hkn Hs Hlen; cbn [log2_loop].
  { unfold around_from in *. simpl in *. rewrite app_nil_r in *.
    destruct (Z.ltb_spec (Z.of_nat (length l)) size); [lia|]. eauto. }
  destruct (Z.ltb_spec (Z.of_nat (length l)) size) as [Hlt|Hge].
  2: { exists l. split_and!; [done | by rewrite take_app_le by lia | done]. }
  rewrite (Z.mod_small (k + 1)) by lia. rewrite around_from_S in Hlen |- *.
  destruct (log2_step_around d size k l (around_from d (k + 1) n) Hd ltac:(lia) Hlt)
    as [Heq|[Heq Hfull]].
  - assert (Hlen' : size <= Z.of_nat (length (log2_step d size k l ++ around_from d (k + 1) n))).
    { apply (f_equal length) in Heq. rewrite !length_take in Heq. lia. }
    destruct (IH (k + 1) (log2_step d size k l) ltac:(lia) ltac:(lia) Hs Hlen') as (l' & -> & H1 & H2).
    exists l'. split_and!; [done | by rewrite H1 | done].
  - exists (log2_step d size k l). split_and!; [|done | done].
    destruct n; cbn [log2_loop]; (destruct (Z.ltb_spec (Z.of_nat (length (log2_step d size k l))) size);
      [lia | done]).
Qed.

(** [x] is at least as near to [d] as [y]. *)
Definition nearer (d x y : Z) : Prop := Z.abs (x - d) <= Z.abs (y - d).

Fixpoint nearer_sorted (d : Z) (l : list Z) : bool :=
  match l with
  | x :: (y :: _) as t => (Z.abs (x - d) <=? Z.abs (y - d)) && nearer_sorted d t
  | _ => true
  end.

Lemma nearer_sorted_ok d l : nearer_sorted d l = true -> StronglySorted (nearer d) l.
Proof.
  intros H. apply Sorted_StronglySorted; [intros x y z; unfold nearer; lia|].
  induction l as [|x l IH]; [constructor|]. destruct l as [|y l]; [repeat constructor|].
  simpl in H. b2p. constructor; [by apply IH|]. constructor. unfold nearer. lia.
Qed.

(** What the reference is, checked for every distance: all the distances 0 to 256,
    the nearer ones first. *)
Definition adjacent_ok (d : Z) : bool :=
  bool_decide (merge_sort Z.le (adjacent d) = seqZ 0 257) && nearer_sorted d (adjacent d).

Lemma adjacent_all_ok : forallb adjacent_ok (seqZ 1 256) = true.
Proof. vm_compute. reflexivity. Qed.

Lemma adjacent_spec d :
  1 <= d <= 256 -> adjacent d ≡ₚ seqZ 0 257 /\ StronglySorted (nearer d) (adjacent d).
Proof.
  intros Hd. pose proof adjacent_all_ok as H. rewrite forallb_forall in H.
  specialize (H d). unfold adjacent_ok in H. rewrite andb_true_iff in H.
  destruct H as [H1 H2]; [apply list_elem_of_In, elem_of_seqZ; lia|].
  apply bool_decide_eq_true in H1. split; [|by apply nearer_sorted_ok].
  rewrite <- H1. symmetry. apply merge_sort_Permutation.
Qed.

(** The distances of a FINDNODES request: for at most 127 of them, and a peer that
    is not the target, [findnode_log2distance] ends and returns exactly that many
    different distances between 0 and 256, the exact distance of the peer to the
    target first, and no distance it leaves out is nearer to that one than a distance
    it returns. *)
Theorem findnode_distances_spec `{L : Log2Lib bytes} `{!Log2LibOk bytes} target peer size d :
  1 <= size <= 127 -> log2_distance (into_key peer) (into_key target) = Some d ->
  exists l, findnode_log2distance target peer size = Ok (Some l)
    /\ Z.of_nat (length l) = size /\ head l = Some d /\ NoDup l
    /\ (forall x, x ∈ l -> 0 <= x <= 256)
    /\ StronglySorted (nearer d) l
    /\ (forall x y, 0 <= x <= 256 -> x ∉ l -> y ∈ l -> nearer d y x).
Proof.
  intros Hsize Hd. pose proof (log2_distance_range _ _ _ Hd) as Hr.
  destruct (adjacent_spec d Hr) as [Hperm Hsort].
  assert (Hlen : length (adjacent d) = 257%nat) by (by rewrite Hperm, length_seqZ).
  destruct (log2_loop_around d size 256 1 [d]) as (l & Hl & Ht & Hfull); [lia..| |].
  { change ([d] ++ around_from d 1 256) with (adjacent d). lia. }
  change ([d] ++ around_from d 1 256) with (adjacent d) in Ht.
  unfold findnode_log2distance. rewrite Hd. destruct (Z.ltb_spec 127 size); [lia|].
  rewrite Z.mod_small by lia. rewrite Hl, Ht.
  assert (Hnd : NoDup (adjacent d)) by (rewrite Hperm; apply NoDup_seqZ).
  pose proof (take_drop (Z.to_nat size) (adjacent d)) as Hsplit.
  assert (Hin : forall x, x ∈ adjacent d <-> 0 <= x <= 256)
    by (intros x; rewrite Hperm, elem_of_seqZ; lia).
  rewrite <- Hsplit in Hnd, Hsort, Hin. apply NoDup_app in Hnd as (Hnd & _ & _).
  eexists. split_and!; [done | rewrite length_take; lia | | done | | |].
  - unfold adjacent. destruct (Z.to_nat size) eqn:E; [lia | done].
  - intros x Hx. apply Hin, elem_of_app. by left.
  - by apply StronglySorted_app in Hsort as (_ & ? & _).
  - intros x y Hx Hxn Hy. apply StronglySorted_app in Hsort as (Hall & _ & _).
    apply Hin, elem_of_app in Hx as [?|Hx]; [done|]. by apply Hall.
Qed.
End QueryInfo.

(** ** Node ids in the XOR metric *)

#[global] Instance node_keys : KeyLib bytes := {|
  Key := bytes; into_key n := n; preimage k := k; key_distance := distance |}.

Lemma byte_xor_comm a b : byte_xor a b = byte_xor b a.
Proof. unfold byte_xor. by rewrite Z.lxor_comm. Qed.

#[global] Instance node_keys_ok : KeyLibOk bytes.
Proof.
  split; [done|]. intros a b. unfold key_distance, node_keys, distance. f_equal.
  apply map_ext. intros i. apply byte_xor_comm.
Qed.

#[global] Instance node_log2 : Log2Lib bytes := {| log2_distance a b := log2 (distance a b) |}.

Lemma distance_is_u256 a b : is_u256 (distance a b).
Proof.
  unfold distance. split; [apply be_to_Z_range|]. change U256_MOD with (256 ^ 32).
  eapply Z.lt_le_trans; [apply be_to_Z_range|]. apply Z.pow_le_mono_r; [lia|].
  rewrite length_map, length_seq. lia.
Qed.

#[global] Instance node_log2_ok : Log2LibOk bytes.
Proof. split. intros a b d H. by apply log2_Some in H as [? _]; [|apply distance_is_u256]. Qed.

Lemma findnode_distances_spec_witness :
  exists l, QueryInfo.findnode_log2distance (replicate 32 x00) (replicate 31 x00 ++ [x08]) 11 = Ok (Some l)
    /\ l = [4; 5; 3; 6; 2; 7; 1; 8; 0; 9; 10] /\ NoDup l.
Proof.
  destruct (QueryInfo.findnode_distances_spec (replicate 32 x00) (replicate 31 x00 ++ [x08]) 11 4)
    as (l & H1 & _ & _ & H2 & _).
  - lia.
  - vm_compute. reflexivity.
  - exists l. split; [exact H1|]. split; [|exact H2].
    vm_compute in H1. by injection H1 as <-.
Defined.
