(* ===== verification/ContentStore.v ===== *)
(** * Content stores.

    The [ContentStore] trait of [trin-storage/src/lib.rs] as an interface, with what
    the overlay relies on, and its in-memory implementation. *)

From stdpp Require Import gmap.
From S2P Require Import Prelude.
From S2P Require Import Distance.
From S2P Require Import Hex.
From S2P Require Import ContentKey.

Inductive ShouldWeStoreContent := Store | NotWithinRadius | AlreadyStored.

Inductive ContentStoreError :=
| Database
| Io
| InsufficientRadius (radius distance : Z)
| InvalidData
| ByteUtils (e : ByteUtilsError)
| ContentKeyErr.

(** The trait. *)
Class ContentStore (St : Type) `{CK : OverlayContentKey} := {
  store_get : St -> ContentKey -> res ContentStoreError (option bytes);
  store_put : St -> ContentKey -> bytes -> St * res ContentStoreError unit;
  is_key_within_radius_and_unavailable : St -> ContentKey -> res ContentStoreError ShouldWeStoreContent;
  store_radius : St -> Z;
}.

(** What a store promises: content it asks for is content it does not have, and that
    lies within its radius. *)
Class ContentStoreOk (St : Type) `{CS : ContentStore St} := {
  store_node_id : St -> bytes;
  store_asks st k : is_key_within_radius_and_unavailable st k = Ok Store ->
    store_get st k = Ok None
    /\ distance (content_id k) (store_node_id st) <= store_radius st;
}.

Module MemoryContentStore.
Section Memory.
Context `{CK : OverlayContentKey}.

Record t := mk {
  store : gmap bytes bytes;
  node_id : bytes;
  radius : Z;
}.

Definition new (node_id : bytes) : t :=
  {| store := ∅; node_id := node_id; radius := Distance_MAX |}.

Definition set_radius (self : t) (radius : Z) : t := mk (store self) (node_id self) radius.

Definition distance_to_key (self : t) (key : ContentKey) : Z :=
  distance (content_id key) (node_id self).

Definition contains_key (self : t) (key : ContentKey) : bool :=
  bool_decide (is_Some (store self !! content_id key)).

Definition get (self : t) (key : ContentKey) : res ContentStoreError (option bytes) :=
  Ok (store self !! content_id key).

Definition put (self : t) (key : ContentKey) (value : bytes) : t * res ContentStoreError unit :=
  (mk (<[content_id key := value]> (store self)) (node_id self) (radius self), Ok tt).

Definition within_radius_and_unavailable (self : t) (key : ContentKey)
    : res ContentStoreError ShouldWeStoreContent :=
  if radius self <? distance_to_key self key then Ok NotWithinRadius
  else if contains_key self key then Ok AlreadyStored
  else Ok Store.

#[global] Instance content_store : ContentStore t := {|
  store_get := get;
  store_put := put;
  is_key_within_radius_and_unavailable := within_radius_and_unavailable;
  store_radius := radius;
|}.

Lemma memory_store_asks st k :
  within_radius_and_unavailable st k = Ok Store ->
  get st k = Ok None /\ distance (content_id k) (node_id st) <= radius st.
Proof.
  unfold within_radius_and_unavailable, contains_key, distance_to_key, get.
  destruct (Z.ltb_spec (radius st) (distance (content_id k) (node_id st))); [done|].
  destruct (bool_decide_reflect (is_Some (store st !! content_id k))) as [|Hn]; [done|].
  intros _. split; [|done]. f_equal. by apply eq_None_not_Some.
Qed.

#[global] Instance content_store_ok : ContentStoreOk t :=
  {| store_node_id := node_id; store_asks := memory_store_asks |}.

(** The in-memory store is a map that accepts everything: after any sequence of
    [put]s, [get] returns the last value put under a key with the same content id
    (nothing if there was none), the radius is the one that was set, and a key is asked
    for exactly when it lies within the radius and nothing was put under its id. *)
Theorem memory_store_map st0 kvs k :
  store st0 = ∅ ->
  let st := fold_left (fun s kv => (put s kv.1 kv.2).1) kvs st0 in
  let last_put := last (omap (fun kv => if decide (content_id kv.1 = content_id k)
                                        then Some kv.2 else None) kvs) in
  get st k = Ok last_put
  /\ radius st = radius st0
  /\ within_radius_and_unavailable st k
     = Ok (if radius st0 <? distance (content_id k) (node_id st0) then NotWithinRadius
           else match last_put with Some _ => AlreadyStored | None => Store end).
Proof.
  intros H0. cbv zeta. induction kvs as [|[k' v] kvs IH] using rev_ind.
  - unfold get, within_radius_and_unavailable, contains_key. simpl. rewrite H0, lookup_empty.
    split_and!; [done | done |]. unfold distance_to_key. by destruct (_ <? _).
  - rewrite fold_left_app, omap_app. simpl. set (st := fold_left _ kvs st0) in *.
    destruct IH as (H1 & H2 & H3). unfold get, within_radius_and_unavailable, contains_key in *.
    assert (Hn : node_id st = node_id st0).
    { unfold st. clear. revert st0. induction kvs as [|kv kvs IH]; intros st0; simpl; [done|]. by rewrite IH. }
    unfold distance_to_key in *. simpl. rewrite Hn, H2 in *.
    destruct (decide (content_id k' = content_id k)) as [->|Hne].
    + rewrite lookup_insert_eq, last_snoc. split_and!; [done | done |]. by destruct (_ <? _).
    + rewrite lookup_insert_ne by done. rewrite app_nil_r. split_and!; [done | done | exact H3].
Qed.
End Memory.
End MemoryContentStore.

(** ** The theorem at work *)

Definition key_a : IdentityContentKey.t := IdentityContentKey.new (replicate 32 x0a).
Definition key_b : IdentityContentKey.t := IdentityContentKey.new (replicate 32 x0b).

Lemma memory_store_map_witness :
  let st := fold_left (fun s kv => (MemoryContentStore.put s kv.1 kv.2).1)
              [(key_a, [x01]); (key_b, [x02]); (key_a, [x03])]
              (MemoryContentStore.new (replicate 32 x00)) in
  MemoryContentStore.get st key_a = Ok (Some [x03]).
Proof.
  apply (MemoryContentStore.memory_store_map (CK := IdentityContentKey.overlay_key)
           (MemoryContentStore.new (replicate 32 x00))
           [(key_a, [x01]); (key_b, [x02]); (key_a, [x03])] key_a).
  reflexivity.
Defined.
