(* ===== verification/HistoryStorage.v ===== *)
(** * The storage of the history network.

    [trin-history/src/storage.rs] with the helpers of [trin-storage/src/utils.rs] and
    the statements of [trin-storage/src/sql.rs].  The table [content_data] is the list
    of its rows; a statement is a function on it.  Which of several rows with the same
    sort key comes first is left open by SQL: [SqlLib].  The statements themselves do
    not fail; the size of the data directory is an argument. *)

From S2P Require Import Prelude.
From S2P Require Import Distance.
From S2P Require Import Hex.
From S2P Require Import ContentKey.
From S2P Require Import Wire.
From S2P Require Import ContentStore.

(** A row of [content_data]. *)
Record Row := {
  content_id_long : bytes;
  content_id_short : Z;
  row_content_key : bytes;
  content_value : bytes;
  row_network : Z;
  content_size : Z;
}.

(** [ORDER BY f DESC], the first row. *)
Class SqlLib := { first_desc : (Row -> Z) -> list Row -> option Row }.

Class SqlLibOk (S : SqlLib) : Prop := {
  first_desc_none f l : first_desc f l = None <-> l = [];
  first_desc_max f l r : first_desc f l = Some r -> r ∈ l /\ forall r', r' ∈ l -> f r' <= f r;
}.

(** ** [trin-storage/src/utils.rs] *)

Definition byte_vector_to_u32 (vec : bytes) : Z :=
  if (length vec <? 4)%nat then 0 else be_to_Z (take 4 vec).

(** [INSERT OR IGNORE]: a row with the same primary key stays. *)
Definition insert_or_ignore (row : Row) (db : list Row) : list Row :=
  if existsb (fun r => bool_decide (content_id_long r = content_id_long row)) db then db
  else db ++ [row].

Definition insert_value `{HexLib} (db : list Row) (content_id content_key value : bytes)
    (network_id : Z) : res ContentStoreError (list Row) :=
  if starts_with str_0x content_key then Err InvalidData
  else Ok (insert_or_ignore
        {| content_id_long := content_id;
           content_id_short := byte_vector_to_u32 content_id;
           row_content_key := content_key;
           content_value := hex_encode value;
           row_network := network_id;
           content_size := Z.of_nat (length value) |} db).

(** [WHERE content_id_long = ?1]. *)
Definition rows_by_id (db : list Row) (id : bytes) : list Row :=
  filter (fun r => content_id_long r = id) db.

Definition lookup_content_value `{HexLib} (db : list Row) (id : bytes)
    : res ContentStoreError (option bytes) :=
  let? vals := res_all (fun r => map_err ByteUtils (hex_decode (content_value r)))
                 (take 1 (rows_by_id db id)) in
  Ok (head vals).

Section Rows.
Context `{X : HexLib} `{!HexLibOk X}.

Lemma rows_by_id_app l1 l2 id : rows_by_id (l1 ++ l2) id = rows_by_id l1 id ++ rows_by_id l2 id.
Proof. apply filter_app. Qed.

Lemma lookup_none_rows db id : lookup_content_value db id = Ok None <-> rows_by_id db id = [].
Proof.
  unfold lookup_content_value. destruct (rows_by_id _ _) as [|r l]; simpl; [done|].
  destruct (hex_decode (content_value r)); simpl; done.
Qed.

(** A content that was not there is found after its insertion. *)
Lemma lookup_inserted db row value :
  content_value row = hex_encode value -> rows_by_id db (content_id_long row) = [] ->
  lookup_content_value (insert_or_ignore row db) (content_id_long row) = Ok (Some value).
Proof.
  intros Hv Hn. unfold insert_or_ignore. destruct (existsb _ db) eqn:E.
  - apply existsb_exists in E as (r & Hr%list_elem_of_In & Hid%bool_decide_eq_true).
    exfalso. assert (Hin : r ∈ rows_by_id db (content_id_long row)) by (by apply list_elem_of_filter).
    rewrite Hn in Hin. by apply elem_of_nil in Hin.
  - unfold lookup_content_value. rewrite rows_by_id_app, Hn.
    unfold rows_by_id. rewrite filter_cons_True by done. simpl. by rewrite Hv, hex_decode_encode.
Qed.
End Rows.

Module HistoryStorage.
Record t := mk {
  node_id : bytes;
  storage_capacity_in_bytes : Z;
  radius : Z;
  db : list Row;
  network : ProtocolId.t;
}.

Section Ops.
Context `{SQ : SqlLib} `{X : HexLib} `{KS : HistoryContentKey.HistoryKeySsz} `{HL : HashLib}.
Implicit Types (self : t).

Definition set_radius self (r : Z) : t :=
  mk (node_id self) (storage_capacity_in_bytes self) r (db self) (network self).
Definition set_db self (rows : list Row) : t :=
  mk (node_id self) (storage_capacity_in_bytes self) (radius self) rows (network self).

Definition distance_to_content_id self (content_id : bytes) : Z := distance content_id (node_id self).

Definition distance_to_key self (key : HistoryContentKey.t) : Z :=
  distance (HistoryContentKey.content_id key) (node_id self).

(** The rows of this network. *)
Definition own_rows self : list Row :=
  filter (fun r => row_network r = ProtocolId.to_u8 (network self)) (db self).

Definition total_entry_count self : Z := Z.of_nat (length (own_rows self)).

(** [SELECT TOTAL(content_size) FROM content_data]: the rows of every network. *)
Definition get_total_storage_usage_in_bytes_from_network self : Z :=
  foldr (fun r acc => content_size r + acc) 0 (db self).

Definition capacity_reached self : bool :=
  storage_capacity_in_bytes self <? get_total_storage_usage_in_bytes_from_network self.

(** The sort key of [XOR_FIND_FARTHEST_QUERY_NETWORK]. *)
Definition xor_key self (r : Row) : Z :=
  let node_id_u32 := byte_vector_to_u32 (node_id self) in
  Z.lor node_id_u32 (content_id_short r) - Z.land node_id_u32 (content_id_short r).

Definition find_farthest_content_id self : res ContentStoreError (option bytes) :=
  match first_desc (xor_key self) (own_rows self) with
  | None => Ok None
  | Some row =>
      if (length (content_id_long row) =? 32)%nat then Ok (Some (content_id_long row))
      else Err InvalidData
  end.

Definition get_content_size self (id : bytes) : res ContentStoreError Z :=
  match rows_by_id (db self) id with
  | row :: _ => Ok (content_size row)
  | [] => Err Database
  end.

Definition does_eviction_cause_under_capacity self (id : bytes) : res ContentStoreError bool :=
  let total_bytes_on_disk := get_total_storage_usage_in_bytes_from_network self in
  let? bytes_to_remove := get_content_size self id in
  Ok (wrap64 (total_bytes_on_disk - bytes_to_remove) <? storage_capacity_in_bytes self).

Definition db_remove self (content_id : bytes) : t :=
  set_db self (filter (fun r => content_id_long r <> content_id) (db self)).

Definition evict self (id : bytes) : t := db_remove self id.

(** The loop of [prune_db]; [None] when the fuel runs out. *)
Fixpoint prune_loop (fuel : nat) self (farthest_content_id : option bytes) (num_removed_items : Z)
    : option (t * res ContentStoreError Z) :=
  if negb (capacity_reached self) then Some (self, Ok num_removed_items)
  else
    match fuel with
    | O => None
    | S fuel =>
        match farthest_content_id with
        | None => Some (self, Panic)
        | Some id_to_remove =>
            match does_eviction_cause_under_capacity self id_to_remove with
            | Ok true =>
                Some (set_radius self (distance_to_content_id self id_to_remove), Ok num_removed_items)
            | Ok false =>
                let self := evict self id_to_remove in
                let num_removed_items := num_removed_items + 1 in
                match find_farthest_content_id self with
                | Ok None =>
                    prune_loop fuel (set_radius self Distance_ZERO) farthest_content_id num_removed_items
                | Ok (Some farthest) =>
                    prune_loop fuel (set_radius self (distance_to_content_id self farthest))
                      (Some farthest) num_removed_items
                | Err e => Some (self, Err e)
                | Panic => Some (self, Panic)
                end
            | Err e => Some (self, Err e)
            | Panic => Some (self, Panic)
            end
        end
    end.

Definition prune_db self : option (t * res ContentStoreError Z) :=
  match find_farthest_content_id self with
  | Ok farthest => prune_loop (S (length (db self))) self farthest 0
  | Err e => Some (self, Err e)
  | Panic => Some (self, Panic)
  end.

Definition db_insert self (content_id content_key value : bytes) : res ContentStoreError t :=
  let? rows := insert_value (db self) content_id content_key value (ProtocolId.to_u8 (network self)) in
  Ok (set_db self rows).

(** [store], with the size of the data directory. *)
Definition store self (disk : res ContentStoreError Z) (key : HistoryContentKey.t) (value : bytes)
    : option (t * res ContentStoreError unit) :=
  let content_id := HistoryContentKey.content_id key in
  let distance_to_content_id := distance_to_content_id self content_id in
  if radius self <? distance_to_content_id then
    Some (self, Err (InsufficientRadius (radius self) distance_to_content_id))
  else
    let content_key := trim_0x (hex_encode (HistoryContentKey.into key)) in
    match db_insert self content_id content_key value with
    | Err e => Some (self, Err e)
    | Panic => Some (self, Panic)
    | Ok self =>
        match prune_db self with
        | None => None
        | Some (self, Ok _) => Some (self, let? _ := disk in Ok tt)
        | Some (self, Err e) => Some (self, Err e)
        | Some (self, Panic) => Some (self, Panic)
        end
    end.

Definition lookup_content_key self (id : bytes) : res ContentStoreError (option bytes) :=
  let? keys := res_all (fun r =>
                 let? b := map_err ByteUtils (hex_decode (str_0x ++ row_content_key r)) in
                 map_err (fun _ => ContentKeyErr) (HistoryContentKey.try_from b))
               (take 1 (rows_by_id (db self) id)) in
  Ok (HistoryContentKey.into <$> head keys).

Definition get self (key : HistoryContentKey.t) : res ContentStoreError (option bytes) :=
  map_err (fun _ => Database) (lookup_content_value (db self) (HistoryContentKey.content_id key)).

Definition within_radius_and_unavailable self (key : HistoryContentKey.t)
    : res ContentStoreError ShouldWeStoreContent :=
  if radius self <? distance_to_key self key then Ok NotWithinRadius
  else
    let? found := map_err (fun _ => Database) (lookup_content_key self (HistoryContentKey.content_id key)) in
    match found with
    | Some _ => Ok AlreadyStored
    | None => Ok Store
    end.

(** [new], on the table found in the database.  [disk] is the size of the directory, which
    is reported at the end. *)
Definition new (node_id : bytes) (storage_capacity_mb : Z) (rows : list Row) (protocol : ProtocolId.t)
    (disk : res ContentStoreError Z) : option (t * res ContentStoreError unit) :=
  let storage := mk node_id (wrap64 (storage_capacity_mb * (1000 * 1000))) Distance_MAX rows protocol in
  if total_entry_count storage =? 0 then
    if storage_capacity_in_bytes storage =? 0 then Some (set_radius storage Distance_ZERO, let? _ := disk in Ok tt)
    else Some (storage, let? _ := disk in Ok tt)
  else
    match prune_db storage with
    | None => None
    | Some (storage, r) => Some (storage, let? _ := r in let? _ := disk in Ok tt)
    end.
End Ops.

(** ** The sort key is the leading part of the distance *)

Lemma lor_minus_land a b : Z.lor a b - Z.land a b = Z.lxor a b.
Proof.
  assert (H : Z.lxor a b + Z.land a b = Z.lor a b); [|lia].
  rewrite Z.add_nocarry_lxor.
  - apply Z.bits_inj'. intros n Hn. rewrite !Z.lxor_spec, Z.land_spec, Z.lor_spec.
    by destruct (Z.testbit a n), (Z.testbit b n).
  - apply Z.bits_inj'. intros n Hn. rewrite Z.land_spec, Z.lxor_spec, Z.land_spec, Z.bits_0.
    by destruct (Z.testbit a n), (Z.testbit b n).
Qed.

Lemma byte_vector_to_u32_spec x : is_b32 x -> byte_vector_to_u32 x = Z.shiftr (be_to_Z x) 224.
Proof.
  intros Hx. unfold is_b32 in Hx. unfold byte_vector_to_u32. rewrite Hx.
  change (if (32 <? 4)%nat then 0 else be_to_Z (take 4 x)) with (be_to_Z (take 4 x)).
  assert (E : be_to_Z x = be_to_Z (take 4 x) * 2 ^ 224 + be_to_Z (drop 4 x)).
  { rewrite <- (take_drop 4 x) at 1. rewrite be_to_Z_app, length_drop, Hx. done. }
  pose proof (be_to_Z_range (drop 4 x)) as Hr. rewrite length_drop, Hx in Hr.
  rewrite Z.shiftr_div_pow2 by lia. rewrite E, Z.div_add_l by lia. rewrite Z.div_small by exact Hr. lia.
Qed.

(** Rows as the storage writes them. *)
Definition row_ok (r : Row) : Prop :=
  is_b32 (content_id_long r) /\ content_id_short r = byte_vector_to_u32 (content_id_long r)
  /\ 0 <= content_size r.

Lemma xor_key_distance self r :
  is_b32 (node_id self) -> row_ok r ->
  xor_key self r = Z.shiftr (distance_to_content_id self (content_id_long r)) 224.
Proof.
  intros Hn (Hid & Hs & _). unfold xor_key, distance_to_content_id.
  rewrite lor_minus_land, Hs, distance_lxor by done.
  by rewrite !byte_vector_to_u32_spec, Z.shiftr_lxor, Z.lxor_comm by done.
Qed.

(** ** Pruning *)

Section Prune.
Context `{SQ : SqlLib} `{!SqlLibOk SQ}.
Implicit Types (self : t).

(** A table that only this network uses. *)
Record db_ok self : Prop := {
  ok_node : is_b32 (node_id self);
  ok_ids : NoDup (map content_id_long (db self));
  ok_rows : Forall row_ok (db self);
  ok_own : Forall (fun r => row_network r = ProtocolId.to_u8 (network self)) (db self);
  ok_total : get_total_storage_usage_in_bytes_from_network self < U64_MOD;
  ok_capacity : 0 <= storage_capacity_in_bytes self;
}.

Lemma own_rows_all self : db_ok self -> own_rows self = db self.
Proof.
  intros H. unfold own_rows. pose proof (ok_own _ H) as Ho.
  induction Ho as [|r l Hr _ IH]; [done|]. by rewrite filter_cons_True, IH.
Qed.

(** Removing a row by its id. *)
Lemma remove_row (l : list Row) r :
  NoDup (map content_id_long l) -> r ∈ l ->
  l ≡ₚ r :: filter (fun r' => content_id_long r' <> content_id_long r) l
  /\ rows_by_id l (content_id_long r) = [r].
Proof.
  unfold rows_by_id. induction l as [|a l IH]; intros Hnd Hr; [by apply elem_of_nil in Hr|].
  simpl in Hnd. apply NoDup_cons in Hnd as [Hna Hnd].
  assert (Hrest : forall x, x ∈ l -> content_id_long x <> content_id_long a)
    by (intros x Hx E; apply Hna; rewrite <- E; by apply list_elem_of_fmap_2).
  apply elem_of_cons in Hr as [->|Hr].
  - rewrite filter_cons_False, filter_cons_True by auto. split.
    + f_equiv. by rewrite filter_all.
    + f_equal. apply filter_none. intros x Hx E. by apply (Hrest x).
  - destruct (IH Hnd Hr) as [H1 H2]. pose proof (Hrest r Hr).
    rewrite filter_cons_True, filter_cons_False by auto. split; [|done].
    rewrite H1 at 1. apply perm_swap.
Qed.

Definition total_of (l : list Row) : Z := foldr (fun r acc => content_size r + acc) 0 l.

#[global] Instance total_of_proper : Proper ((≡ₚ) ==> (=)) total_of.
Proof. intros l l'. induction 1; simpl; lia. Qed.

Lemma total_of_nonneg l : Forall row_ok l -> 0 <= total_of l.
Proof. induction 1 as [|r l (_ & _ & H) _ IH]; simpl; lia. Qed.

Lemma total_usage self : get_total_storage_usage_in_bytes_from_network self = total_of (db self).
Proof. done. Qed.

(** What the query for the farthest content finds. *)
Definition farthest self (r : Row) : Prop :=
  r ∈ db self /\ forall r', r' ∈ db self -> xor_key self r' <= xor_key self r.

Lemma find_farthest_ok self :
  db_ok self ->
  (find_farthest_content_id self = Ok None /\ db self = [])
  \/ exists r, find_farthest_content_id self = Ok (Some (content_id_long r)) /\ farthest self r.
Proof.
  intros H. unfold find_farthest_content_id. rewrite own_rows_all by done.
  destruct (first_desc (xor_key self) (db self)) as [r|] eqn:E.
  - right. apply first_desc_max in E as [Hr Hmax]. exists r. split; [|by split].
    pose proof (ok_rows _ H) as Hrows. rewrite Forall_forall in Hrows.
    destruct (Hrows r Hr) as (Hid & _). by rewrite (proj2 (Nat.eqb_eq _ _) Hid).
  - left. split; [done|]. by apply first_desc_none in E.
Qed.

(** Evicting the row of an id. *)
Lemma evict_ok self r :
  db_ok self -> r ∈ db self ->
  db_ok (evict self (content_id_long r))
  /\ db self ≡ₚ r :: db (evict self (content_id_long r))
  /\ total_of (db (evict self (content_id_long r))) = total_of (db self) - content_size r
  /\ get_content_size self (content_id_long r) = Ok (content_size r).
Proof.
  intros H Hr. destruct (remove_row (db self) r (ok_ids _ H) Hr) as [Hp Hg].
  assert (Ht : total_of (db (evict self (content_id_long r))) = total_of (db self) - content_size r)
    by (rewrite Hp; simpl; unfold evict, db_remove; simpl; lia).
  split_and!; [|done | done | unfold get_content_size; by rewrite Hg].
  destruct H as [H1 H2 H3 H4 H5 H6]. rewrite Forall_forall in H3, H4.
  assert (Hsub : forall x, x ∈ db (evict self (content_id_long r)) -> x ∈ db self)
    by (intros x Hx; by apply list_elem_of_filter in Hx as [_ Hx]).
  split; simpl; try done.
  - rewrite Hp in H2. simpl in H2. by apply NoDup_cons in H2 as [_ H2].
  - apply Forall_forall. auto.
  - apply Forall_forall. auto.
  - rewrite total_usage in *. destruct (H3 r Hr) as (_ & _ & Hs). lia.
Qed.

(** How a pruned storage relates to the one before, when it was over capacity. *)
Definition pruned self self' (removed : list Row) : Prop :=
  db self ≡ₚ removed ++ db self'
  /\ (forall a b, a ∈ removed -> b ∈ db self' -> xor_key self b <= xor_key self a)
  /\ storage_capacity_in_bytes self <= total_of (db self')
  /\ ((db self' = [] /\ radius self' = Distance_ZERO)
      \/ exists r, farthest self' r
         /\ radius self' = distance_to_content_id self (content_id_long r)
         /\ (total_of (db self') = storage_capacity_in_bytes self
             \/ total_of (db self') - content_size r < storage_capacity_in_bytes self)).

Definition same_storage self self' : Prop :=
  node_id self' = node_id self /\ storage_capacity_in_bytes self' = storage_capacity_in_bytes self
  /\ network self' = network self.

(** The state of the loop after an eviction: the radius is that of the new farthest
    content. *)
Definition after_evict self r : t :=
  let self' := evict self (content_id_long r) in
  match find_farthest_content_id self' with
  | Ok (Some f) => set_radius self' (distance_to_content_id self' f)
  | _ => set_radius self' Distance_ZERO
  end.

Lemma after_evict_ok self r :
  db_ok self -> r ∈ db self ->
  let s := after_evict self r in
  db_ok s /\ same_storage self s /\ db s = db (evict self (content_id_long r))
  /\ (forall x, xor_key s x = xor_key self x)
  /\ find_farthest_content_id s = find_farthest_content_id (evict self (content_id_long r))
  /\ ((db s = [] /\ radius s = Distance_ZERO)
      \/ exists r', farthest s r' /\ radius s = distance_to_content_id self (content_id_long r')).
Proof.
  intros H Hr. destruct (evict_ok self r H Hr) as (H1 & _ & _ & _). unfold after_evict.
  assert (Hff : forall x, find_farthest_content_id (set_radius (evict self (content_id_long r)) x)
                   = find_farthest_content_id (evict self (content_id_long r))) by done.
  destruct (find_farthest_ok _ H1) as [[E Hdb]|(f & E & Hf)]; rewrite E in *.
  - split; [by destruct H1|]. do 3 (split; [done|]). split; [apply Hff|]. by left.
  - split; [by destruct H1|]. do 3 (split; [done|]). split; [apply Hff|]. right. by exists f.
Qed.

(** One round of the loop. *)
Lemma prune_round fuel self r k :
  db_ok self -> farthest self r -> capacity_reached self = true ->
  prune_loop (S fuel) self (Some (content_id_long r)) k
  = if total_of (db self) - content_size r <? storage_capacity_in_bytes self
    then Some (set_radius self (distance_to_content_id self (content_id_long r)), Ok k)
    else prune_loop fuel (after_evict self r)
           (match find_farthest_content_id (after_evict self r) with
            | Ok (Some f) => Some f | _ => Some (content_id_long r) end) (k + 1).
Proof.
  intros H [Hr _] Hc. destruct (evict_ok self r H Hr) as (H1 & Hp & Ht & Hg).
  destruct (after_evict_ok self r H Hr) as (_ & _ & _ & _ & Hff & _).
  cbn [prune_loop]. rewrite Hc. cbn [negb].
  unfold does_eviction_cause_under_capacity. rewrite Hg, total_usage.
  rewrite wrap64_small.
  2: { pose proof (ok_total _ H) as Hb. rewrite total_usage in Hb. unfold is_u64.
       pose proof (total_of_nonneg _ (ok_rows _ H1)). rewrite Ht in *.
       pose proof (ok_rows _ H) as Hrows. rewrite Forall_forall in Hrows.
       destruct (Hrows r Hr) as (_ & _ & ?). lia. }
  destruct (total_of (db self) - content_size r <? storage_capacity_in_bytes self); [done|].
  rewrite Hff. unfold after_evict.
  by destruct (find_farthest_ok _ H1) as [[-> _]|(f & -> & _)].
Qed.

(** The eviction of the farthest content, followed by more. *)
Lemma pruned_cons self r self' removed :
  db_ok self -> farthest self r ->
  storage_capacity_in_bytes self <= total_of (db self) - content_size r ->
  pruned (after_evict self r) self' removed -> pruned self self' (r :: removed).
Proof.
  intros H [Hin Hmax] Hge (P1 & P2 & P3 & P4).
  destruct (evict_ok self r H Hin) as (_ & Hp & Ht & _).
  destruct (after_evict_ok self r H Hin) as (_ & (Hn & Hcap & _) & Hdb & Hkey & _ & _).
  unfold distance_to_content_id in *. rewrite Hn, Hcap in *.
  assert (Hall : db self ≡ₚ r :: removed ++ db self') by (rewrite Hp, <- Hdb; by constructor).
  split_and!; [done | | done | done].
  intros a b [->|Ha]%elem_of_cons Hb.
  - apply Hmax. rewrite Hall. right. apply elem_of_app. by right.
  - rewrite <- !Hkey. by apply P2.
Qed.

(** The eviction that reaches the capacity exactly. *)
Lemma pruned_last self r :
  db_ok self -> farthest self r ->
  storage_capacity_in_bytes self <= total_of (db self) - content_size r ->
  capacity_reached (after_evict self r) = false -> pruned self (after_evict self r) [r].
Proof.
  intros H [Hin Hmax] Hge Hc. destruct (evict_ok self r H Hin) as (_ & Hp & Ht & _).
  destruct (after_evict_ok self r H Hin) as (_ & (Hn & Hcap & _) & Hdb & Hkey & _ & Hrad).
  unfold capacity_reached in Hc. rewrite total_usage, Hcap in Hc. b2p. rewrite <- Hdb in *.
  split_and!; [done | | lia |].
  - intros a b ->%list_elem_of_singleton Hb. apply Hmax. rewrite Hp. by right.
  - destruct Hrad as [Hrad|(f & Hf & Hrad)]; [by left | right; exists f].
    split_and!; [done | done | left; lia].
Qed.

Lemma prune_loop_ok fuel self r k :
  db_ok self -> farthest self r -> capacity_reached self = true -> (length (db self) <= fuel)%nat ->
  exists self' removed,
    prune_loop fuel self (Some (content_id_long r)) k = Some (self', Ok (k + Z.of_nat (length removed)))
    /\ db_ok self' /\ same_storage self self' /\ pruned self self' removed.
Proof.
  revert self r k. induction fuel as [|fuel IH]; intros self r k H Hr Hc Hlen.
  { destruct Hr as [Hr _]. destruct (db self); [by apply elem_of_nil in Hr | simpl in Hlen; lia]. }
  rewrite prune_round by done. unfold capacity_reached in Hc. rewrite total_usage in Hc. b2p.
  destruct (Z.ltb_spec (total_of (db self) - content_size r) (storage_capacity_in_bytes self)) as [Hlt|Hge].
  - eexists _, []. rewrite Z.add_0_r. split; [done|]. split; [by destruct H|]. split; [done|].
    split_and!; [done | intros a b Ha; by apply elem_of_nil in Ha | simpl; lia |].
    right. exists r. split_and!; [done | done | right; done].
  - pose proof Hr as [Hin Hmax]. destruct (evict_ok self r H Hin) as (_ & Hp & Ht & _).
    destruct (after_evict_ok self r H Hin) as (H1 & Hsame & Hdb & _).
    destruct (capacity_reached (after_evict self r)) eqn:Hcs.
    + destruct (find_farthest_ok _ H1) as [[_ Hnil]|(f & -> & Hf)].
      { unfold capacity_reached in Hcs. rewrite total_usage, Hnil in Hcs. simpl in Hcs.
        destruct H1 as [_ _ _ _ _ Hpos]. b2p. lia. }
      destruct (IH _ f (k + 1) H1 Hf Hcs) as (self' & removed & -> & H' & Hs' & Hpr).
      { rewrite Hdb. apply Permutation_length in Hp. rewrite length_cons in Hp. lia. }
      exists self', (r :: removed). split; [do 3 f_equal; simpl; lia|]. split; [done|].
      split; [|by apply pruned_cons].
      destruct Hs' as (A1 & A2 & A3), Hsame as (B1 & B2 & B3). split_and!; congruence.
    + exists (after_evict self r), [r]. split; [|split_and!; [done | by apply Hsame.. | by apply pruned_last]].
      destruct fuel; cbn [prune_loop]; by rewrite Hcs.
Qed.

(** The two cases of pruning. *)
Lemma prune_db_ok self :
  db_ok self ->
  exists self' removed, prune_db self = Some (self', Ok (Z.of_nat (length removed)))
    /\ db_ok self' /\ same_storage self self'
    /\ if capacity_reached self then pruned self self' removed
       else self' = self /\ removed = [].
Proof.
  intros H. unfold prune_db. destruct (capacity_reached self) eqn:Hc.
  - destruct (find_farthest_ok self H) as [[_ Hnil]|(r & -> & Hr)].
    + unfold capacity_reached in Hc. rewrite total_usage, Hnil in Hc. simpl in Hc. b2p.
      pose proof (ok_capacity _ H). lia.
    + destruct (prune_loop_ok (S (length (db self))) self r 0 H Hr Hc) as (self' & removed & E & Hrest);
        [lia|]. exists self', removed. by rewrite E.
  - exists self, []. destruct (find_farthest_ok self H) as [[-> _]|(r & -> & _)];
      cbn [prune_loop]; rewrite Hc; by split_and!.
Qed.

(** C20: Pruning ends, never fails, and does what it should, on a table that only the
    history network uses: a storage within its capacity is left alone; otherwise the
    contents removed are the farthest ones (by the leading 32 bits of their distance),
    as many as the returned count says, the total stays at least at the capacity and
    is either equal to it or would drop below it with the next removal, and the radius
    becomes the distance of the farthest content that is left (zero if none is). *)
Theorem prune_db_spec self :
  db_ok self ->
  exists self' removed, prune_db self = Some (self', Ok (Z.of_nat (length removed)))
    /\ db_ok self' /\ same_storage self self'
    /\ if capacity_reached self then pruned self self' removed
       else self' = self /\ removed = [].
Proof. exact (prune_db_ok self). Qed.

(** ** Storing *)

(** What is stored lies within the radius, as far as the leading 32 bits tell. *)
Definition radius_ok self : Prop :=
  forall r, r ∈ db self -> xor_key self r <= Z.shiftr (radius self) 224.

Definition storage_inv self : Prop := db_ok self /\ radius_ok self.

Lemma shiftr_mono a b : a <= b -> Z.shiftr a 224 <= Z.shiftr b 224.
Proof. intros H. rewrite !Z.shiftr_div_pow2 by lia. apply Z.div_le_mono; lia. Qed.

Lemma pruned_radius_ok self self' removed :
  same_storage self self' -> db_ok self' -> pruned self self' removed -> radius_ok self'.
Proof.
  intros (Hn & _ & _) H' (_ & _ & _ & Hr) x Hx.
  destruct Hr as [[Hnil _]|(r & [Hin Hmax] & Hrad & _)]; [by rewrite Hnil in Hx; apply elem_of_nil in Hx|].
  pose proof (ok_rows _ H') as Hrows. rewrite Forall_forall in Hrows.
  rewrite Hrad. unfold distance_to_content_id. rewrite <- Hn.
  change (distance (content_id_long r) (node_id self'))
    with (distance_to_content_id self' (content_id_long r)).
  rewrite <- (xor_key_distance self' r) by (auto; apply H'). by apply Hmax.
Qed.

Lemma insert_or_ignore_elem row l r :
  r ∈ insert_or_ignore row l -> r ∈ l \/ (r = row /\ rows_by_id l (content_id_long row) = []).
Proof.
  unfold insert_or_ignore. destruct (existsb _ l) eqn:E; [by left|].
  intros [Hr| ->%list_elem_of_singleton]%elem_of_app; [by left | right].
  split; [done|]. apply filter_none. intros x Hx Hid.
  assert (existsb (fun r => bool_decide (content_id_long r = content_id_long row)) l = true); [|congruence].
  apply existsb_exists. exists x. split; [by apply list_elem_of_In | by apply bool_decide_eq_true].
Qed.

(** Inserting a row keeps the table in order. *)
Lemma insert_ok self row :
  storage_inv self -> row_ok row -> row_network row = ProtocolId.to_u8 (network self) ->
  total_of (db self) + content_size row < U64_MOD ->
  distance_to_content_id self (content_id_long row) <= radius self ->
  storage_inv (set_db self (insert_or_ignore row (db self)))
  /\ total_of (insert_or_ignore row (db self)) <= total_of (db self) + content_size row.
Proof.
  intros [H Hrad] Hrow Hnet Htot Hdist.
  assert (Ht : total_of (insert_or_ignore row (db self)) <= total_of (db self) + content_size row).
  { unfold insert_or_ignore. destruct Hrow as (_ & _ & Hsz). destruct (existsb _ _); [lia|].
    rewrite (Permutation_app_comm (db self)). simpl. lia. }
  split; [|done]. destruct H as [H1 H2 H3 H4 H5 H6].
  split; [split; simpl; try done|].
  - unfold insert_or_ignore. destruct (existsb _ _) eqn:E; [done|].
    rewrite map_app. apply NoDup_app. split_and!; [done | | apply NoDup_singleton].
    intros x Hx ->%list_elem_of_singleton. apply list_elem_of_fmap in Hx as (y & Ey & Hy).
    assert (existsb (fun r => bool_decide (content_id_long r = content_id_long row)) (db self) = true);
      [|congruence].
    apply existsb_exists. exists y. split; [by apply list_elem_of_In | by apply bool_decide_eq_true].
  - rewrite Forall_forall in H3 |- *. intros r [Hr|[-> _]]%insert_or_ignore_elem; auto.
  - rewrite Forall_forall in H4 |- *. intros r [Hr|[-> _]]%insert_or_ignore_elem; auto.
  - rewrite total_usage in *. simpl. lia.
  - intros r [Hr|[-> _]]%insert_or_ignore_elem; [by apply Hrad|].
    change (xor_key (set_db self (insert_or_ignore row (db self))) row) with (xor_key self row).
    rewrite xor_key_distance by done. by apply shiftr_mono.
Qed.
End Prune.

Section Store.
Context `{SQ : SqlLib} `{!SqlLibOk SQ} `{X : HexLib} `{!HexLibOk X}
  `{KS : HistoryContentKey.HistoryKeySsz} `{HL : HashLib} `{!HashLibOk HL}.
Implicit Types (self : t).

(** The row of a new content. *)
Definition new_row self key value : Row :=
  {| content_id_long := HistoryContentKey.content_id key;
     content_id_short := byte_vector_to_u32 (HistoryContentKey.content_id key);
     row_content_key := hex_digits (HistoryContentKey.into key);
     content_value := hex_encode value;
     row_network := ProtocolId.to_u8 (network self);
     content_size := Z.of_nat (length value) |}.

Lemma db_insert_spec self key value :
  db_insert self (HistoryContentKey.content_id key) (trim_0x (hex_encode (HistoryContentKey.into key))) value
  = Ok (set_db self (insert_or_ignore (new_row self key value) (db self))).
Proof.
  unfold db_insert, insert_value. by rewrite trim_0x_hex_encode, digits_no_prefix.
Qed.

Lemma new_row_ok self key value : row_ok (new_row self key value).
Proof. split_and!; simpl; [apply sha256_b32 | done | lia]. Qed.

Lemma get_none self key :
  get self key = Ok None <-> rows_by_id (db self) (HistoryContentKey.content_id key) = [].
Proof.
  unfold get. rewrite <- lookup_none_rows. by destruct (lookup_content_value _ _).
Qed.

Lemma get_inserted self key value :
  get self key = Ok None ->
  get (set_db self (insert_or_ignore (new_row self key value) (db self))) key = Ok (Some value).
Proof.
  intros Hn%get_none. unfold get. cbn [db set_db].
  by rewrite (lookup_inserted (db self) (new_row self key value) value).
Qed.

(** Pruning only removes rows; storing adds one at most. *)
Lemma prune_loop_rows fuel : forall self far k self' r,
  prune_loop fuel self far k = Some (self', r) ->
  (forall x, x ∈ db self' -> x ∈ db self) /\ network self' = network self.
Proof.
  induction fuel as [|fuel IH]; intros self far k self' r; cbn [prune_loop].
  { destruct (negb (capacity_reached self)); [by intros [= <- <-]|done]. }
  destruct (negb (capacity_reached self)); [by intros [= <- <-]|].
  destruct far as [id|]; [|by intros [= <- <-]].
  destruct (does_eviction_cause_under_capacity self id) as [[]| |]; [by intros [= <- <-]| |by intros [= <- <-]..].
  assert (Hev : forall x, x ∈ db (evict self id) -> x ∈ db self).
  { intros x Hx. cbn in Hx. by apply list_elem_of_filter in Hx as [_ Hx]. }
  destruct (find_farthest_content_id (evict self id)) as [[far|]| |].
  - intros E. apply IH in E as [E1 E2]. split; [|exact E2]. intros x Hx. apply Hev. by apply E1.
  - intros E. apply IH in E as [E1 E2]. split; [|exact E2]. intros x Hx. apply Hev. by apply E1.
  - by intros [= <- <-].
  - by intros [= <- <-].
Qed.

Lemma prune_db_rows self self' r :
  prune_db self = Some (self', r) -> (forall x, x ∈ db self' -> x ∈ db self) /\ network self' = network self.
Proof.
  unfold prune_db. destruct (find_farthest_content_id self); [apply prune_loop_rows|by intros [= <- <-]..].
Qed.

Lemma store_rows self disk key value self' r :
  store self disk key value = Some (self', r) ->
  (forall x, x ∈ db self' -> x ∈ db self \/ x = new_row self key value) /\ network self' = network self.
Proof.
  unfold store. destruct (radius self <? _); [intros [= <- <-]; auto|]. rewrite db_insert_spec.
  set (s1 := set_db self _). intros E.
  assert (H : (forall x, x ∈ db self' -> x ∈ db s1) /\ network self' = network s1).
  { destruct (prune_db s1) as [[s2 r2]|] eqn:Ep; [|done]. assert (s2 = self') as <- by (by destruct r2; simplify_eq/=).
    by apply prune_db_rows in Ep. }
  destruct H as [H1 H2]. split; [|done]. intros x Hx%H1. apply insert_or_ignore_elem in Hx as [?|[-> _]]; auto.
Qed.

(** C19: Storing a content, on a table that only the history network uses: it ends and
    keeps the invariant (every stored content lies within the radius, as far as the
    leading 32 bits of the distance tell); a content outside the radius is refused and
    nothing changes; otherwise nothing but this content is added, and if it fits the
    capacity the radius stays and a content that was not there can be read back. *)
Theorem history_store_spec self disk key value :
  storage_inv self -> total_of (db self) + Z.of_nat (length value) < U64_MOD ->
  exists self' r, store self disk key value = Some (self', r)
    /\ storage_inv self' /\ same_storage self self'
    /\ let d := distance_to_content_id self (HistoryContentKey.content_id key) in
       if radius self <? d
       then self' = self /\ r = Err (InsufficientRadius (radius self) d)
       else r = (let? _ := disk in Ok tt)
         /\ (forall x, x ∈ db self' -> x ∈ db self \/ x = new_row self key value)
         /\ (total_of (db self) + Z.of_nat (length value) <= storage_capacity_in_bytes self ->
              radius self' = radius self
              /\ (get self key = Ok None -> get self' key = Ok (Some value))).
Proof.
  intros Hinv Htot. unfold store.
  destruct (Z.ltb_spec (radius self) (distance_to_content_id self (HistoryContentKey.content_id key)))
    as [Hout|Hin].
  { eexists _, _. by split_and!. }
  rewrite db_insert_spec. set (row := new_row self key value).
  destruct (insert_ok self row Hinv (new_row_ok self key value) eq_refl Htot Hin) as [[H1 H2] Ht].
  set (s1 := set_db self (insert_or_ignore row (db self))) in *.
  destruct (prune_db_ok s1 H1) as (self' & removed & -> & H' & Hsame & Hpr).
  exists self', (let? _ := disk in Ok tt). split; [done|].
  assert (Hsub : forall x, x ∈ db self' -> x ∈ db s1).
  { intros x Hx. destruct (capacity_reached s1); [|by destruct Hpr as [-> _]].
    destruct Hpr as (Hp & _). rewrite Hp. apply elem_of_app. by right. }
  split; [split; [done|]|].
  { destruct (capacity_reached s1); [by eapply pruned_radius_ok | by destruct Hpr as [-> _]]. }
  split; [exact Hsame|]. split; [done|]. split.
  - intros x Hx%Hsub. apply insert_or_ignore_elem in Hx as [?|[-> _]]; auto.
  - intros Hfit. assert (Hc : capacity_reached s1 = false).
    { unfold capacity_reached. rewrite total_usage. simpl in *. lia. }
    rewrite Hc in Hpr. destruct Hpr as [-> _]. split; [done | apply get_inserted].
Qed.

(** The storage as a [ContentStore]; [disk] is the size of the data directory. *)
Definition put (disk : res ContentStoreError Z) self (key : HistoryContentKey.t) (value : bytes)
    : t * res ContentStoreError unit :=
  match store self disk key value with
  | Some r => r
  | None => (self, Panic)
  end.

Definition history_content_store (disk : res ContentStoreError Z)
    : ContentStore t (CK := HistoryContentKey.overlay_key) :=
  @Build_ContentStore t HistoryContentKey.overlay_key get (put disk) within_radius_and_unavailable radius.

(** Content the storage asks for is content it does not have, within its radius. *)
Lemma history_store_asks self key :
  within_radius_and_unavailable self key = Ok Store ->
  get self key = Ok None /\ distance (HistoryContentKey.content_id key) (node_id self) <= radius self.
Proof.
  unfold within_radius_and_unavailable, lookup_content_key, distance_to_key. intros H.
  destruct (Z.ltb_spec (radius self) (distance (HistoryContentKey.content_id key) (node_id self))); [done|].
  split; [|done]. apply get_none.
  destruct (rows_by_id _ _) as [|r l]; [done|]. simpl in H. by repeat case_hyp H; simplify_eq/=.
Qed.

Definition history_content_store_ok (disk : res ContentStoreError Z)
    : ContentStoreOk t (CS := history_content_store disk) :=
  @Build_ContentStoreOk t HistoryContentKey.overlay_key (history_content_store disk) node_id
    history_store_asks.
End Store.
End HistoryStorage.

(** ** The theorems at work *)

(** The first of the rows with the largest key. *)
#[global] Instance toy_sql : SqlLib := {|
  first_desc f l :=
    foldr (fun r acc => match acc with
                        | Some r' => if f r <? f r' then Some r' else Some r
                        | None => Some r
                        end) None l |}.

#[global] Instance toy_sql_ok : SqlLibOk toy_sql.
Proof.
  split; intros f l; cbn [first_desc toy_sql].
  - destruct l as [|r l]; [done|]. simpl. destruct (foldr _ None l) as [r'|]; [|done].
    by destruct (f r <? f r').
  - induction l as [|a l IH]; intros r; simpl; [done|].
    destruct (foldr _ None l) as [r'|] eqn:E.
    + destruct (IH r' eq_refl) as [Hin Hmax].
      destruct (Z.ltb_spec (f a) (f r')); intros [= <-].
      * split; [by right|]. intros x [->|Hx]%elem_of_cons; [lia | auto].
      * split; [by left|]. intros x [->|Hx]%elem_of_cons; [lia|]. specialize (Hmax x Hx). lia.
    + intros [= <-]. assert (l = []) as ->.
      { destruct l as [|b l]; [done|]. simpl in E. destruct (foldr _ None l); [by destruct (_ <? _) | done]. }
      split; [by left|]. intros x ->%list_elem_of_singleton. lia.
Qed.

#[local] Existing Instances toy_hex toy_hex_ok.

(** When another network has filled the shared table, the history storage cannot
    store anything: the total counts the rows of every network, while only rows of the
    history network are evicted, so that [store] evicts the content it has just
    inserted, sets the radius to zero, and then fails on the size of the content that
    is gone; and [prune_db] itself panics when the network has no rows at all. *)
Theorem shared_table_store_fails :
  let beacon_row :=
    {| content_id_long := replicate 32 x01; content_id_short := 16843009; row_content_key := [];
       content_value := str_0x; row_network := ProtocolId.to_u8 ProtocolId.Beacon; content_size := 100 |} in
  let self := HistoryStorage.mk (replicate 32 x00) 10 Distance_MAX [beacon_row] ProtocolId.History in
  let self' := HistoryStorage.mk (replicate 32 x00) 10 Distance_ZERO [beacon_row] ProtocolId.History in
  HistoryStorage.store self (Ok 0) sample_key [x0a; x0b] = Some (self', Err Database)
  /\ HistoryStorage.prune_db self = Some (self, Panic).
Proof. vm_compute. split; reflexivity. Qed.

Definition sample_storage : HistoryStorage.t :=
  HistoryStorage.mk (replicate 32 x00) 1000 Distance_MAX [] ProtocolId.History.

Lemma sample_storage_inv : HistoryStorage.storage_inv sample_storage.
Proof.
  split; [split; simpl; try constructor; try done; try reflexivity|].
  intros r Hr. by apply elem_of_nil in Hr.
Qed.

Lemma history_store_spec_witness :
  exists self' r, HistoryStorage.store sample_storage (Ok 5) sample_key [x0a; x0b] = Some (self', r)
    /\ HistoryStorage.storage_inv self' /\ r = Ok tt.
Proof.
  destruct (HistoryStorage.history_store_spec sample_storage (Ok 5) sample_key [x0a; x0b])
    as (self' & r & E & Hi & _).
  - exact sample_storage_inv.
  - reflexivity.
  - exists self', r. split; [exact E|]. split; [exact Hi|].
    vm_compute in E. injection E as _ <-. reflexivity.
Defined.

Definition full_storage : HistoryStorage.t :=
  let row id size := {| content_id_long := id; content_id_short := byte_vector_to_u32 id;
                        row_content_key := []; content_value := str_0x;
                        row_network := ProtocolId.to_u8 ProtocolId.History; content_size := size |} in
  HistoryStorage.mk (replicate 32 x00) 100 Distance_MAX
    [row (replicate 32 x01) 60; row (replicate 32 x09) 50; row (replicate 32 x05) 50] ProtocolId.History.

Lemma prune_db_spec_witness :
  exists self' (removed : list Row),
    HistoryStorage.prune_db full_storage = Some (self', Ok (Z.of_nat (length removed)))
    /\ HistoryStorage.db_ok self'
    /\ HistoryStorage.radius self' = distance (replicate 32 x05) (replicate 32 x00).
Proof.
  destruct (HistoryStorage.prune_db_spec full_storage) as (self' & removed & E & Hok & _).
  - split; [reflexivity | | | | reflexivity | discriminate].
    + by apply (bool_decide_unpack _).
    + repeat constructor; simpl; lia.
    + repeat constructor.
  - exists self', removed. split; [exact E|]. split; [exact Hok|].
    vm_compute in E. injection E as <- _. vm_compute. reflexivity.
Defined.
