(* ===== verification/HistoryPaging.v ===== *)
(** * Paging through the keys of the history storage.

    [paginate] of [trin-history/src/storage.rs], with [PAGINATE_QUERY_DB]: the keys of all
    rows in the order of their text. *)

From stdpp Require Import relations.
From S2P Require Import Prelude.
From S2P Require Import Distance.
From S2P Require Import Hex.
From S2P Require Import ContentKey.
From S2P Require Import Wire.
From S2P Require Import ContentStore.
From S2P Require Import HistoryStorage.

(** ** The order of texts *)

Fixpoint text_leb (a b : bytes) : bool :=
  match a, b with
  | [], _ => true
  | _, [] => false
  | x :: a, y :: b =>
      if byte_to_Z x =? byte_to_Z y then text_leb a b else byte_to_Z x <? byte_to_Z y
  end.

Definition text_le (a b : bytes) : Prop := text_leb a b = true.

#[export] Instance text_le_dec : RelDecision text_le.
Proof. intros a b. unfold text_le. apply _. Defined.

#[export] Instance text_le_trans : Transitive text_le.
Proof.
  intros a. unfold text_le. induction a as [|x a IH]; intros [|y b] [|z c]; simpl; try done.
  repeat case_match; b2p; try lia; eauto.
Qed.

#[export] Instance text_le_total : Total text_le.
Proof.
  intros a. unfold text_le. induction a as [|x a IH]; intros [|y b]; simpl; auto.
  destruct (Z.eqb_spec (byte_to_Z x) (byte_to_Z y)) as [->|Hne]; [rewrite Z.eqb_refl; apply IH|].
  destruct (Z.eqb_spec (byte_to_Z y) (byte_to_Z x)); [lia|].
  destruct (Z.ltb_spec (byte_to_Z x) (byte_to_Z y)); [by left|]. right. apply Z.ltb_lt. lia.
Qed.

(** ** Pages *)

Record PaginateLocalContentInfo := {
  page_keys : list HistoryContentKey.t;
  total_entries : Z;
}.

Module HistoryPaging.
Section Ops.
Context `{SQ : SqlLib} `{X : HexLib} `{KS : HistoryContentKey.HistoryKeySsz} `{HL : HashLib}.

(** [SELECT content_key FROM content_data ORDER BY content_key LIMIT :limit OFFSET :offset];
    the two numbers must fit into an integer of SQLite. *)
Definition select_page (db : list Row) (offset limit : Z) : res ContentStoreError (list bytes) :=
  if (offset <? 2 ^ 63) && (limit <? 2 ^ 63)
  then Ok (take (Z.to_nat limit) (drop (Z.to_nat offset) (merge_sort text_le (map row_content_key db))))
  else Err Database.

(** The key of a row is stored without the prefix. *)
Definition parse_key (row : bytes) : res ContentStoreError HistoryContentKey.t :=
  let? b := map_err ByteUtils (hex_decode (str_0x ++ row)) in
  map_err (fun _ => ContentKeyErr) (HistoryContentKey.try_from b).

Definition paginate (self : HistoryStorage.t) (offset limit : Z) : res ContentStoreError PaginateLocalContentInfo :=
  let? rows := select_page (HistoryStorage.db self) offset limit in
  let? content_keys := res_all parse_key rows in
  Ok {| page_keys := content_keys; total_entries := HistoryStorage.total_entry_count self |}.

(** The text of a key in its row. *)
Definition key_text (k : HistoryContentKey.t) : bytes := trim_0x (hex_encode (HistoryContentKey.into k)).

Context `{!HexLibOk X} `{!HistoryContentKey.HistoryKeySszOk KS}.

Lemma parse_key_text k : HistoryContentKey.wf k -> parse_key (key_text k) = Ok k.
Proof.
  intros Hk. unfold parse_key, key_text. rewrite trim_0x_hex_encode.
  change (str_0x ++ hex_digits ?b) with (hex_encode b). rewrite hex_decode_encode. simpl.
  unfold HistoryContentKey.try_from, HistoryContentKey.into.
  by rewrite HistoryContentKey.from_ssz_complete.
Qed.

Lemma parse_keys ks : Forall HistoryContentKey.wf ks -> res_all parse_key (map key_text ks) = Ok ks.
Proof. induction 1 as [|k ks Hk _ IH]; [done|]. simpl. by rewrite parse_key_text, IH. Qed.

(** The pages of a storage whose table only the history network uses are the pages of
    one list: all its keys, in the order of their texts; and each page reports their
    number.  So consecutive pages list every key once. *)
Theorem paginate_pages self keys :
  Forall HistoryContentKey.wf keys ->
  map row_content_key (HistoryStorage.db self) = map key_text keys ->
  Forall (fun r => row_network r = ProtocolId.to_u8 (HistoryStorage.network self)) (HistoryStorage.db self) ->
  exists all, all ≡ₚ keys /\ StronglySorted text_le (map key_text all)
    /\ forall offset limit, offset < 2 ^ 63 -> limit < 2 ^ 63 ->
       paginate self offset limit
       = Ok {| page_keys := take (Z.to_nat limit) (drop (Z.to_nat offset) all);
               total_entries := Z.of_nat (length all) |}.
Proof.
  intros Hwf Hk Hn. pose proof (merge_sort_Permutation text_le (map key_text keys)) as Hp.
  apply Permutation_map_inv in Hp as (all & Hall & Hp). exists all. split_and!; [by symmetry| |].
  - rewrite <- Hall. apply (StronglySorted_merge_sort text_le).
  - intros offset limit Ho Hl. unfold paginate, select_page. rewrite Hk, Hall.
    destruct (Z.ltb_spec offset (2 ^ 63)); [|lia]. destruct (Z.ltb_spec limit (2 ^ 63)); [|lia]. simpl.
    rewrite skipn_map, firstn_map, parse_keys.
    + do 2 f_equal. unfold HistoryStorage.total_entry_count, HistoryStorage.own_rows.
      rewrite filter_all by (by apply Forall_forall). f_equal.
      rewrite <- (length_map row_content_key), Hk, length_map. by apply Permutation_length.
    + rewrite Hp in Hwf. by apply Forall_take, Forall_drop.
Qed.
End Ops.
End HistoryPaging.

(** ** The theorems at work *)

#[local] Existing Instances toy_hex toy_hex_ok toy_hashes toy_history_ssz toy_history_ssz_ok toy_sql.

Definition paged_row (network : ProtocolId.t) (text : bytes) (id : byte) : Row :=
  {| content_id_long := replicate 32 id; content_id_short := 0; row_content_key := text; content_value := str_0x;
     row_network := ProtocolId.to_u8 network; content_size := 0 |}.

Definition paged_key (b : byte) : HistoryContentKey.t := HistoryContentKey.BlockBody (replicate 32 b).

Definition paged_storage : HistoryStorage.t :=
  HistoryStorage.mk (replicate 32 x00) 1000 Distance_MAX
    [paged_row ProtocolId.History (HistoryPaging.key_text (paged_key x22)) x22;
     paged_row ProtocolId.History (HistoryPaging.key_text (paged_key x11)) x11] ProtocolId.History.

Lemma paginate_pages_witness :
  exists all, length all = 2%nat
    /\ HistoryPaging.paginate paged_storage 1 5 = Ok {| page_keys := drop 1 all; total_entries := 2 |}
    /\ HistoryPaging.paginate paged_storage 0 1 = Ok {| page_keys := take 1 all; total_entries := 2 |}.
Proof.
  destruct (HistoryPaging.paginate_pages paged_storage [paged_key x22; paged_key x11]) as (all & Hp & _ & H).
  - repeat constructor.
  - reflexivity.
  - repeat constructor.
  - exists all. apply Permutation_length in Hp. split; [exact Hp|]. rewrite !H by lia. rewrite Hp.
    split; [|reflexivity]. f_equal. f_equal. apply take_ge. rewrite length_drop, Hp. simpl. lia.
Defined.

(** Rows of another network in the shared table make paging fail: [PAGINATE_QUERY_DB] does
    not restrict the network, unlike the count. *)
Theorem shared_table_paging_fails :
  let bootstrap_row := paged_row ProtocolId.Beacon (hex_digits (x10 :: replicate 32 x00)) x10 in
  let self := HistoryStorage.set_db paged_storage (bootstrap_row :: HistoryStorage.db paged_storage) in
  HistoryPaging.paginate self 0 5 = Err ContentKeyErr
  /\ HistoryStorage.total_entry_count self = 2.
Proof. vm_compute. split; reflexivity. Qed.
