(* ===== verification/Payload.v ===== *)
(** * Content payloads over uTP.

    [portalnet/src/utils/portal_wire.rs]: several contents in one payload, each
    prefixed with its length as a LEB128 varint.  The leb128 crate is the class
    [Leb128]. *)

From S2P Require Import Prelude.

(** [leb128::write::unsigned] and [leb128::read::unsigned] on a slice. *)
Class Leb128 := { leb_write : Z -> bytes; leb_read : bytes -> option Z }.

(** A [u32] takes one to five bytes; reading finds the number at the start of the
    slice, and fails if the slice ends within it. *)
Class Leb128Ok (L : Leb128) : Prop := {
  leb_write_length n : 0 <= n < U32_MOD -> (1 <= length (leb_write n) <= 5)%nat;
  leb_read_write n rest : 0 <= n < U32_MOD -> leb_read (leb_write n ++ rest) = Some n;
  leb_read_prefix n k : 0 <= n < U32_MOD -> (k < length (leb_write n))%nat ->
    leb_read (take k (leb_write n)) = None;
}.

Inductive PayloadError :=
| ItemTooLarge
| VarintTooLarge
| UnableToReadVarint
| ReadVarint
| ReadItem.

Section Payload.
Context `{L : Leb128}.

Fixpoint encode_content_payload (content_items : list bytes) : res PayloadError bytes :=
  match content_items with
  | [] => Ok []
  | content_item :: rest =>
      if U32_MOD - 1 <? Z.of_nat (length content_item) then Err ItemTooLarge
      else
        let? payload := encode_content_payload rest in
        Ok (leb_write (Z.of_nat (length content_item)) ++ content_item ++ payload)
  end.

(** The iterations of [read_varint] for [i] in the given range. *)
Fixpoint read_varint_from (buf : bytes) (range : list nat) : res PayloadError (nat * Z) :=
  match range with
  | [] => Err UnableToReadVarint
  | i :: range =>
      if (length buf <? i)%nat then Panic
      else
        match leb_read (take i buf) with
        | Some varint => if varint <? U32_MOD then Ok (i, varint) else Err VarintTooLarge
        | None => read_varint_from buf range
        end
  end.

Definition read_varint (buf : bytes) : res PayloadError (nat * Z) := read_varint_from buf (seq 1 5).

(** [read_exact] of [n] bytes: what it read and what is left. *)
Definition read_exact (e : PayloadError) (buf : bytes) (n : nat) : res PayloadError (bytes * bytes) :=
  if (length buf <? n)%nat then Err e else Ok (take n buf, drop n buf).

(** The loop of [decode_content_payload]; [None] when the fuel runs out. *)
Fixpoint decode_loop (fuel : nat) (payload : bytes) (content_values : list bytes)
    : option (res PayloadError (list bytes)) :=
  match payload with
  | [] => Some (Ok content_values)
  | _ =>
      match fuel with
      | O => None
      | S fuel =>
          match (let? r := read_varint payload in
                 let? r1 := read_exact ReadVarint payload r.1 in
                 read_exact ReadItem r1.2 (Z.to_nat r.2)) with
          | Ok r => decode_loop fuel r.2 (content_values ++ [r.1])
          | Err e => Some (Err e)
          | Panic => Some Panic
          end
      end
  end.

Definition decode_content_payload (payload : bytes) : option (res PayloadError (list bytes)) :=
  decode_loop (length payload) payload [].

(** ** Theorems *)

(** A varint that was read takes at least a byte. *)
Lemma read_varint_pos buf range r :
  Forall (fun i => 1 <= i)%nat range -> read_varint_from buf range = Ok r -> (1 <= r.1 <= length buf)%nat.
Proof.
  induction 1 as [|i range Hi _ IH]; simpl; [done|].
  destruct (Nat.ltb_spec (length buf) i); [done|].
  destruct (leb_read (take i buf)); [|done].
  destruct (_ <? U32_MOD); [|done]. intros [= <-]. simpl. lia.
Qed.

(** Decoding a payload always ends, whatever the bytes: with as many rounds as
    there are bytes the loop is done. *)
Theorem decode_terminates payload : exists r, decode_content_payload payload = Some r.
Proof.
  unfold decode_content_payload. generalize (@nil bytes) as acc.
  remember (length payload) as n eqn:En. assert (Hn : (length payload <= n)%nat) by lia. clear En.
  revert payload Hn. induction n as [|n IH]; intros payload Hn acc.
  { destruct payload; [simpl; eauto | simpl in Hn; lia]. }
  destruct payload as [|b payload]; [simpl; eauto|]. set (p := b :: payload) in *.
  cbn [decode_loop]. change (match p with [] => Some (Ok acc) | _ :: _ => ?x end) with x.
  destruct (read_varint p) as [[i v]| |] eqn:Er; simpl; eauto.
  apply read_varint_pos in Er; [|by apply (bool_decide_unpack _)]. cbn [fst] in Er.
  unfold read_exact. rewrite (proj2 (Nat.ltb_ge _ _)) by lia. simpl.
  destruct (length (drop i p) <? Z.to_nat v)%nat eqn:El; simpl; eauto.
  apply IH. rewrite !length_drop. lia.
Qed.

(** Reading the varint of an encoded length, and what a cut in it does. *)
Lemma read_varint_write `{!Leb128Ok L} n rest :
  0 <= n < U32_MOD -> read_varint (leb_write n ++ rest) = Ok (length (leb_write n), n).
Proof.
  intros Hn. pose proof (leb_write_length n Hn) as Hl. unfold read_varint.
  replace (seq 1 5) with (seq 1 (length (leb_write n) - 1)
    ++ seq (length (leb_write n)) (6 - length (leb_write n))).
  2: { replace (length (leb_write n)) with (1 + (length (leb_write n) - 1))%nat at 2 by lia.
       rewrite <- seq_app. f_equal. lia. }
  assert (Hskip : forall range tl, Forall (fun i => 1 <= i < length (leb_write n))%nat range ->
    read_varint_from (leb_write n ++ rest) (range ++ tl) = read_varint_from (leb_write n ++ rest) tl).
  { intros range tl. induction 1 as [|i range Hi _ IH]; [done|]. cbn [read_varint_from app].
    rewrite (proj2 (Nat.ltb_ge _ _)) by (rewrite length_app; lia).
    rewrite take_app_le by lia. by rewrite leb_read_prefix by (done || lia). }
  rewrite Hskip; [|apply Forall_forall; intros i Hi; apply elem_of_seq in Hi; lia].
  destruct (6 - length (leb_write n))%nat eqn:E; [lia|]. cbn [read_varint_from seq].
  rewrite (proj2 (Nat.ltb_ge _ _)) by (rewrite length_app; lia).
  rewrite take_app_length. rewrite <- (app_nil_r (leb_write n)) at 1. rewrite leb_read_write by done.
  by destruct (Z.ltb_spec n U32_MOD); [|lia].
Qed.

Lemma read_varint_cut `{!Leb128Ok L} n k :
  0 <= n < U32_MOD -> (k < length (leb_write n))%nat -> read_varint (take k (leb_write n)) = Panic.
Proof.
  intros Hn Hk. pose proof (leb_write_length n Hn) as Hl. unfold read_varint.
  assert (Hlk : length (take k (leb_write n)) = k) by (rewrite length_take; lia).
  replace (seq 1 5) with (seq 1 k ++ seq (1 + k) (5 - k)) by (rewrite <- seq_app; f_equal; lia).
  assert (Hskip : forall range tl, Forall (fun i => 1 <= i <= k)%nat range ->
    read_varint_from (take k (leb_write n)) (range ++ tl) = read_varint_from (take k (leb_write n)) tl).
  { intros range tl. induction 1 as [|i range Hi _ IH]; [done|]. cbn [read_varint_from app].
    rewrite Hlk, (proj2 (Nat.ltb_ge _ _)) by lia.
    rewrite take_take, Nat.min_l by lia. by rewrite leb_read_prefix by (done || lia). }
  rewrite Hskip; [|apply Forall_forall; intros i Hi; apply elem_of_seq in Hi; lia].
  destruct (5 - k)%nat eqn:E; [lia|]. cbn [read_varint_from seq].
  by rewrite Hlk, (proj2 (Nat.ltb_lt _ _)) by lia.
Qed.

(** One round of the decoder takes one item off. *)
Lemma decode_item `{!Leb128Ok L} fuel item rest acc :
  Z.of_nat (length item) < U32_MOD ->
  decode_loop (S fuel) (leb_write (Z.of_nat (length item)) ++ item ++ rest) acc
  = decode_loop fuel rest (acc ++ [item]).
Proof.
  intros Hlen. set (n := Z.of_nat (length item)) in *.
  assert (Hn : 0 <= n < U32_MOD) by lia. pose proof (leb_write_length n Hn) as Hl.
  cbn [decode_loop].
  destruct (leb_write n ++ item ++ rest) as [|b p] eqn:E;
    [apply app_nil in E as [E _]; rewrite E in Hl; simpl in Hl; lia|].
  rewrite <- E. clear E b p. rewrite read_varint_write by done. cbn [fst snd].
  unfold read_exact. rewrite (proj2 (Nat.ltb_ge _ _)) by (rewrite length_app; lia).
  cbn [snd]. rewrite drop_app_length.
  rewrite (proj2 (Nat.ltb_ge _ _)) by (rewrite length_app; lia).
  cbn [fst snd]. unfold n. by rewrite Nat2Z.id, take_app_length, drop_app_length.
Qed.

Lemma decode_items `{!Leb128Ok L} items payload fuel acc :
  encode_content_payload items = Ok payload -> (length payload <= fuel)%nat ->
  decode_loop fuel payload acc = Some (Ok (acc ++ items)).
Proof.
  revert payload fuel acc. induction items as [|item items IH]; intros payload fuel acc; cbn [encode_content_payload].
  { intros [= <-] _. rewrite app_nil_r. by destruct fuel. }
  destruct (Z.ltb_spec (U32_MOD - 1) (Z.of_nat (length item))); [done|].
  destruct (encode_content_payload items) as [p| |] eqn:E; try done. intros [= <-] Hf.
  pose proof (leb_write_length (Z.of_nat (length item)) ltac:(lia)) as Hl.
  rewrite !length_app in Hf. destruct fuel as [|fuel]; [lia|].
  rewrite decode_item by lia. rewrite (IH p fuel) by (done || lia). by rewrite <- app_assoc.
Qed.

(** Payloads round trip: contents of less than 2^32 bytes each are encoded, and
    what is encoded is decoded to exactly those contents, in order; a longer content
    is refused. *)
Theorem payload_roundtrip `{!Leb128Ok L} items :
  (Forall (fun i => Z.of_nat (length i) < U32_MOD) items ->
   exists payload, encode_content_payload items = Ok payload
     /\ decode_content_payload payload = Some (Ok items))
  /\ (Exists (fun i => U32_MOD <= Z.of_nat (length i)) items ->
      encode_content_payload items = Err ItemTooLarge).
Proof.
  split.
  - intros Hall. assert (exists payload, encode_content_payload items = Ok payload) as [payload E].
    { induction Hall as [|i items Hi _ [p IH]]; simpl; [eauto|]. rewrite IH.
      destruct (Z.ltb_spec (U32_MOD - 1) (Z.of_nat (length i))); [lia | eauto]. }
    exists payload. split; [done|]. by apply (decode_items items payload _ []).
  - induction 1 as [i items Hi|i items _ IH]; simpl;
      (destruct (Z.ltb_spec (U32_MOD - 1) (Z.of_nat (length i))); [done|]); [lia | by rewrite IH].
Qed.

(** A payload that ends within a length prefix panics the decoder, since
    [read_varint] slices the buffer up to five bytes without looking at its length. *)
Theorem truncated_varint_panics `{!Leb128Ok L} items payload n k :
  encode_content_payload items = Ok payload -> 0 <= n < U32_MOD -> (0 < k < length (leb_write n))%nat ->
  decode_content_payload (payload ++ take k (leb_write n)) = Some Panic.
Proof.
  intros He Hn Hk. unfold decode_content_payload.
  assert (Hgen : forall fuel acc, (length payload + k <= fuel)%nat ->
    decode_loop fuel (payload ++ take k (leb_write n)) acc = Some Panic).
  2: { apply Hgen. rewrite length_app, length_take. lia. }
  revert payload He. induction items as [|item items IH]; intros payload He fuel acc Hf;
    cbn [encode_content_payload] in He.
  - injection He as <-. simpl. destruct fuel as [|fuel]; [simpl in Hf; lia|].
    pose proof (read_varint_cut n k Hn ltac:(lia)) as Hcut.
    destruct (take k (leb_write n)) as [|b p] eqn:E.
    { apply (f_equal length) in E. rewrite length_take in E. simpl in E. lia. }
    cbn [decode_loop]. by rewrite Hcut.
  - destruct (Z.ltb_spec (U32_MOD - 1) (Z.of_nat (length item))); [done|].
    destruct (encode_content_payload items) as [p| |] eqn:E; try done. injection He as <-.
    pose proof (leb_write_length (Z.of_nat (length item)) ltac:(lia)) as Hl.
    rewrite !length_app in Hf. destruct fuel as [|fuel]; [lia|].
    rewrite <- !app_assoc, decode_item by lia. apply IH; [done | lia].
Qed.
End Payload.

(** ** The theorems at work *)

(** LEB128: seven bits per byte, the high bit set on all bytes but the last. *)
Fixpoint leb_enc (fuel : nat) (n : Z) : bytes :=
  match fuel with
  | O => []
  | S fuel => if n <? 128 then [byte_of_Z n] else byte_of_Z (n mod 128 + 128) :: leb_enc fuel (n / 128)
  end.

Fixpoint leb_dec (b : bytes) : option Z :=
  match b with
  | [] => None
  | c :: t => if byte_to_Z c <? 128 then Some (byte_to_Z c)
              else (fun v => byte_to_Z c - 128 + 128 * v) <$> leb_dec t
  end.

#[global] Instance toy_leb : Leb128 := {| leb_write n := leb_enc 5 n; leb_read := leb_dec |}.

Lemma leb_enc_ok fuel n rest :
  0 <= n < 128 ^ Z.of_nat (S fuel) ->
  (1 <= length (leb_enc (S fuel) n) <= S fuel)%nat
  /\ leb_dec (leb_enc (S fuel) n ++ rest) = Some n
  /\ forall k, (k < length (leb_enc (S fuel) n))%nat -> leb_dec (take k (leb_enc (S fuel) n)) = None.
Proof.
  revert n. induction fuel as [|fuel IH]; intros n Hn; rewrite Nat2Z.inj_succ, Z.pow_succ_r in Hn by lia;
    remember (S fuel) as m eqn:Em || remember 0%nat as m eqn:Em; cbn [leb_enc];
    destruct (Z.ltb_spec n 128) as [Hlt|Hge].
  1,3: cbn [length leb_dec app]; rewrite byte_to_of_Z, Z.mod_small by lia; split_and!; [lia | lia | |];
    [by destruct (Z.ltb_spec n 128); [|lia] | intros k Hk; by destruct k; [|lia]].
  - subst m. simpl in Hn. lia.
  - destruct (IH (n / 128)) as (H1 & H2 & H3).
    { split; [apply Z.div_pos; lia | apply Z.div_lt_upper_bound; lia]. }
    pose proof (Z.mod_pos_bound n 128 ltac:(lia)) as Hm.
    cbn [length leb_dec app]. rewrite byte_to_of_Z, (Z.mod_small (n mod 128 + 128)) by lia.
    destruct (Z.ltb_spec (n mod 128 + 128) 128); [lia|]. split_and!; [lia | lia | |].
    + rewrite H2. simpl. f_equal. pose proof (Z.div_mod n 128 ltac:(lia)). lia.
    + intros [|k] Hk; [done|]. cbn [take leb_dec].
      rewrite byte_to_of_Z, (Z.mod_small (n mod 128 + 128)) by lia.
      destruct (Z.ltb_spec (n mod 128 + 128) 128); [lia|]. by rewrite H3 by lia.
Qed.

#[global] Instance toy_leb_ok : Leb128Ok toy_leb.
Proof.
  assert (Hb : forall n, 0 <= n < U32_MOD -> 0 <= n < 128 ^ Z.of_nat 5)
    by (intros n; change (128 ^ Z.of_nat 5) with 34359738368; unfold U32_MOD; simpl; lia).
  split; cbn [leb_write leb_read toy_leb].
  - intros n Hn. apply (leb_enc_ok 4 n [] (Hb n Hn)).
  - intros n rest Hn. apply (leb_enc_ok 4 n rest (Hb n Hn)).
  - intros n k Hn. apply (leb_enc_ok 4 n [] (Hb n Hn)).
Qed.

Lemma payload_roundtrip_witness :
  exists payload, encode_content_payload [[x01; x02]; []; [x03]] = Ok payload
    /\ payload = [x02; x01; x02; x00; x01; x03]
    /\ decode_content_payload payload = Some (Ok [[x01; x02]; []; [x03]]).
Proof.
  destruct (payload_roundtrip [[x01; x02]; []; [x03]]) as [H _].
  destruct H as (payload & H1 & H2).
  - repeat constructor; reflexivity.
  - exists payload. split; [exact H1|]. split; [|exact H2]. vm_compute in H1. by injection H1 as <-.
Defined.

Lemma truncated_varint_panics_witness : decode_content_payload [x01; x07; x80] = Some Panic.
Proof.
  replace [x01; x07; x80] with ([x01; x07] ++ take 1 (leb_write 128)) by (vm_compute; reflexivity).
  apply (truncated_varint_panics [[x07]] [x01; x07] 128 1).
  - reflexivity.
  - split; [discriminate | reflexivity].
  - vm_compute. lia.
Defined.
