(* ===== verification/Overlay.v ===== *)
(** * The overlay service: routing table and requests from peers.

    [portalnet/src/overlay_service.rs], the parts that maintain the routing table and
    that answer PING, FINDNODES, FINDCONTENT and OFFER requests.  The table of discv5
    is the class [KBucketsTable], the store is any [ContentStore]; commands, spawned
    tasks and messages over callback channels are recorded as effects in order.
    Logging and metrics are left out. *)

From stdpp Require Import gmap sets.
From S2P Require Import Prelude.
From S2P Require Import Distance.
From S2P Require Import Hex.
From S2P Require Import ContentKey.
From S2P Require Import Query.
From S2P Require Import FindNodes.
From S2P Require Import FindContent.
From S2P Require Import QueryPool.
From S2P Require Import Wire.
From S2P Require Import QueryTrace.
From S2P Require Import QueryInfo.
From S2P Require Import ContentStore.

Definition FIND_NODES_MAX_NODES : Z := 32.
Definition FIND_CONTENT_MAX_NODES : Z := 32.

(** ** The routing table of discv5 *)

Inductive ConnectionState := Connected | Disconnected.
Inductive ConnectionDirection := Incoming | Outgoing.
Record NodeStatus := { status_state : ConnectionState; status_direction : ConnectionDirection }.

Definition is_connected (s : NodeStatus) : bool :=
  match status_state s with Connected => true | Disconnected => false end.

(** [portalnet/src/types/node.rs]. *)
Record Node `{E : EnrLib} := { node_enr : Enr; node_data_radius : Z }.

(** [kbucket::Entry]; absent entries and the entry of the local node are not told apart. *)
Inductive Entry `{E : EnrLib} :=
| Present (node : Node) (status : NodeStatus)
| Pending (node : Node) (status : NodeStatus)
| NoEntry.

Inductive FailureReason := KeyNonExistent | OtherReason.

Inductive InsertResult :=
| Inserted
| InsertPending (disconnected : bytes)
| StatusUpdated (promoted_to_connected : bool)
| ValueUpdated
| Updated (promoted_to_connected : bool)
| UpdatedPending
| InsertFailed (reason : FailureReason).

Inductive UpdateResult := UpdateFailed (reason : FailureReason) | UpdateDone.

(** Every access through a write guard may apply pending entries. *)
Class KBucketsTable `{E : EnrLib} := {
  kb : Type;
  kb_entry : kb -> bytes -> kb * Entry;
  kb_insert_or_update : kb -> bytes -> Node -> NodeStatus -> kb * InsertResult;
  kb_update_node : kb -> bytes -> Node -> option ConnectionState -> kb * UpdateResult;
  kb_update_node_status : kb -> bytes -> ConnectionState -> option ConnectionDirection -> kb * UpdateResult;
  kb_remove : kb -> bytes -> kb * bool;
  kb_iter : kb -> kb * list (bytes * Node * NodeStatus);
  kb_nodes_by_distances : kb -> list Z -> Z -> kb * list (Node * NodeStatus);
  kb_buckets : kb -> list (bytes * Node * NodeStatus);
  kb_pending : kb -> list (bytes * Node * NodeStatus);
  kb_local : kb -> bytes;
}.

(** What the service relies on: the two ways to list the nodes yield the entries of the
    buckets (of those at the given log2 distances, in the second case), at most as many
    as asked for; an insertion changes the connection state of no other node. *)
Class KBucketsTableOk `{KB : KBucketsTable} `{L : Log2Lib bytes} : Prop := {
  kb_iter_spec k e :
    e ∈ (kb_iter k).2 <-> e ∈ kb_buckets (kb_iter k).1;
  kb_nodes_by_distances_spec k ds n e :
    e ∈ (kb_nodes_by_distances k ds n).2 ->
    exists id d, (id, e.1, e.2) ∈ kb_buckets (kb_nodes_by_distances k ds n).1
      /\ d ∈ ds /\ log2_distance (into_key (kb_local k)) (into_key id) = Some d;
  kb_nodes_by_distances_length k ds n :
    0 <= n -> Z.of_nat (length (kb_nodes_by_distances k ds n).2) <= n;
  kb_insert_states k id node status e :
    let k' := (kb_insert_or_update k id node status).1 in
    e ∈ kb_buckets k' ++ kb_pending k' -> status_state e.2 = status_state status
    \/ exists e0, e0 ∈ kb_buckets k ++ kb_pending k /\ status_state e.2 = status_state e0.2;
}.

Inductive OverlayRequestError :=
| ChannelFailure | InvalidRequest | InvalidResponse | FailedValidation | EmptyResponse | DecodeError
| Timeout | Failure | Discv5Error | AcceptError | OfferError | UtpError | InvalidRemoteDiscv5Packet.

(** [u16::to_be] on a little-endian target. *)
Definition u16_to_be (x : Z) : Z := Z.lor (Z.shiftl (Z.land x 255) 8) (Z.shiftr x 8).

Module OverlayService.
Section State.
Context `{E : EnrLib} `{W : WireLib} `{CK : OverlayContentKey} `{KB : !KBucketsTable}
  `{KL : KeyLib bytes} {St : Type}.

(** What the service sets in motion. *)
Inductive effect :=
| Command (request : Request.t) (destination : Enr) (query_id : option Z)
| SpawnSendContent (cid : Z) (content : bytes)
| SpawnReceiveOffer (cid : Z) (keys : list ContentKey)
| SpawnReceiveContent (peer : Enr) (recv send : Z) (key : ContentKey) (callback : option Z)
    (trace : option QueryTrace.t) (nodes_to_poke : list bytes)
| SpawnProcessContent (content : bytes) (key : ContentKey) (callback : option Z)
    (trace : option QueryTrace.t) (nodes_to_poke : list bytes)
| SpawnSendOffer (peer : Enr) (recv send : Z) (response : Accept) (offer : Request.t)
| SendGossipResult (transferred : bool)
| SendNodes (callback : Z) (enrs : list Enr)
| SendContent (callback : Z) (content : option bytes) (utp_transfer : bool) (trace : option QueryTrace.t).

Record t := mk {
  local_enr : Enr;
  cached_node_addr : bytes -> option Enr;
  utp_cids : nat -> Enr -> Z;
  kbuckets : kb;
  peers_to_ping : gset bytes;
  store : St;
  find_node_query_pool : QueryPool.t (FindNodeQuery.t bytes) QueryInfo.t;
  find_content_query_pool : QueryPool.t (FindContentQuery.t bytes) QueryInfo.t;
  query_parallelism : Z;
  query_num_results : Z;
  query_peer_timeout : Z;
  findnodes_query_distances_per_peer : Z;
  disable_poke : bool;
  effects : list effect;
}.

Definition set_kbuckets (self : t) (k : kb) : t :=
  mk (local_enr self) (cached_node_addr self) (utp_cids self) k (peers_to_ping self) (store self)
     (find_node_query_pool self) (find_content_query_pool self) (query_parallelism self)
     (query_num_results self) (query_peer_timeout self) (findnodes_query_distances_per_peer self)
     (disable_poke self) (effects self).
Definition set_peers_to_ping (self : t) (p : gset bytes) : t :=
  mk (local_enr self) (cached_node_addr self) (utp_cids self) (kbuckets self) p (store self)
     (find_node_query_pool self) (find_content_query_pool self) (query_parallelism self)
     (query_num_results self) (query_peer_timeout self) (findnodes_query_distances_per_peer self)
     (disable_poke self) (effects self).
Definition set_pools (self : t) pn pc : t :=
  mk (local_enr self) (cached_node_addr self) (utp_cids self) (kbuckets self) (peers_to_ping self)
     (store self) pn pc (query_parallelism self)
     (query_num_results self) (query_peer_timeout self) (findnodes_query_distances_per_peer self)
     (disable_poke self) (effects self).
Definition set_store (self : t) (st : St) : t :=
  mk (local_enr self) (cached_node_addr self) (utp_cids self) (kbuckets self) (peers_to_ping self)
     st (find_node_query_pool self) (find_content_query_pool self) (query_parallelism self)
     (query_num_results self) (query_peer_timeout self) (findnodes_query_distances_per_peer self)
     (disable_poke self) (effects self).
Definition emit (self : t) (e : effect) : t :=
  mk (local_enr self) (cached_node_addr self) (utp_cids self) (kbuckets self) (peers_to_ping self)
     (store self) (find_node_query_pool self) (find_content_query_pool self) (query_parallelism self)
     (query_num_results self) (query_peer_timeout self) (findnodes_query_distances_per_peer self)
     (disable_poke self) (effects self ++ [e]).

(** [utp_socket.cid(enr, false)] draws a new id for a connection with [enr] on each call:
    [utp_cids] are the draws to come. *)
Definition utp_cid (self : t) (enr : Enr) : Z := utp_cids self 0%nat enr.
Definition cid_drawn (self : t) : t :=
  mk (local_enr self) (cached_node_addr self) (fun n => utp_cids self (S n)) (kbuckets self) (peers_to_ping self)
     (store self) (find_node_query_pool self) (find_content_query_pool self) (query_parallelism self)
     (query_num_results self) (query_peer_timeout self) (findnodes_query_distances_per_peer self)
     (disable_poke self) (effects self).

Definition ping_queue_insert (self : t) (id : bytes) : t :=
  set_peers_to_ping self (peers_to_ping self ∪ {[ id ]}).
Definition ping_queue_remove (self : t) (id : bytes) : t :=
  set_peers_to_ping self (peers_to_ping self ∖ {[ id ]}).

(** [self.kbuckets.write().entry(&key)]. *)
Definition entry (self : t) (id : bytes) : t * Entry :=
  let r := kb_entry (kbuckets self) id in (set_kbuckets self r.1, r.2).

(** The node of a present or pending entry. *)
Definition entry_node (e : Entry) : option Node :=
  match e with Present n _ | Pending n _ => Some n | NoEntry => None end.
End State.
Arguments t {E CK KB KL} St.

(** ** The routing table *)

Section Table.
Context `{E : EnrLib} `{W : WireLib} `{CK : OverlayContentKey} `{KB : !KBucketsTable}
  `{KL : KeyLib bytes} {St : Type} `{CS : !ContentStore St}.
Implicit Types (self : t St).

Definition data_radius self : Z := store_radius (store self).

Definition ping_node self (destination : Enr) : t St :=
  emit self (Command
    (Request.Ping {| ping_enr_seq := enr_seq (local_enr self);
                     ping_custom_payload := CustomPayload.from (u256_as_ssz_bytes (data_radius self)) |})
    destination None).

Definition request_node self (destination : Enr) : t St :=
  emit self (Command (Request.FindNodes {| distances := [0] |}) destination None).

Definition update_node_connection_state self (node_id : bytes) (state : ConnectionState)
    : t St * res FailureReason unit :=
  let r := kb_update_node_status (kbuckets self) node_id state None in
  (set_kbuckets self r.1, match r.2 with UpdateFailed reason => Err reason | UpdateDone => Ok tt end).

Definition connect_node self (node : Node) (connection_direction : ConnectionDirection) : t St :=
  let node_id := enr_node_id (node_enr node) in
  let status := {| status_state := Connected; status_direction := connection_direction |} in
  let r := kb_insert_or_update (kbuckets self) node_id node status in
  let self := set_kbuckets self r.1 in
  match r.2 with
  | Inserted => ping_queue_insert self node_id
  | InsertPending disconnected =>
      let '(self, e) := entry self disconnected in
      match e with Present n _ => ping_node self (node_enr n) | _ => self end
  | StatusUpdated promoted | Updated promoted =>
      if promoted then ping_queue_insert self node_id else self
  | ValueUpdated | UpdatedPending => self
  | InsertFailed _ => ping_queue_remove self node_id
  end.

Definition register_node_activity self (source : bytes) : t St :=
  let '(self, e) := entry self source in
  match entry_node e with
  | Some _ =>
      let '(self, r) := update_node_connection_state self source Connected in
      match r with Ok _ => self | _ => ping_queue_remove self source end
  | None =>
      match cached_node_addr self source with
      | Some enr => connect_node self {| node_enr := enr; node_data_radius := Distance_MAX |} Incoming
      | None => self
      end
  end.

Definition update_node_radius self (enr : Enr) (radius : Z) : t St :=
  let node_id := enr_node_id enr in
  let updated_node := {| node_enr := enr; node_data_radius := radius |} in
  set_kbuckets self (kb_update_node (kbuckets self) node_id updated_node None).1.

Definition process_ping self (ping : Ping) (source : bytes) : res Empty_set (t St) :=
  let '(self, e) := entry self source in
  match entry_node e with
  | None => Ok self
  | Some node =>
      let self := if enr_seq (node_enr node) <? ping_enr_seq ping
                  then request_node self (node_enr node) else self in
      let? radius := CustomPayload.to_distance (ping_custom_payload ping) in
      if node_data_radius node =? radius then Ok self
      else Ok (update_node_radius self (node_enr node) radius)
  end.

Definition process_pong self (pong : Pong) (source : Enr) : res Empty_set (t St) :=
  let '(self, e) := entry self (enr_node_id source) in
  match entry_node e with
  | None => Ok self
  | Some node =>
      let self := if enr_seq (node_enr node) <? pong_enr_seq pong
                  then request_node self (node_enr node) else self in
      let? radius := CustomPayload.to_distance (pong_custom_payload pong) in
      if node_data_radius node =? radius then Ok self
      else Ok (update_node_radius self source radius)
  end.

Definition process_request_failure self (destination : Enr) : t St :=
  let node_id := enr_node_id destination in
  let self := (update_node_connection_state self node_id Disconnected).1 in
  ping_queue_remove self node_id.

(** One round of [process_discovered_enrs]. *)
Definition process_discovered_enr self (enr : Enr) : t St :=
  let node_id := enr_node_id enr in
  if decide (node_id = enr_node_id (local_enr self)) then self
  else
    let '(self, e) := entry self node_id in
    match entry_node e with
    | Some node =>
        if enr_seq (node_enr node) <? enr_seq enr then
          let r := kb_update_node (kbuckets self) node_id
                     {| node_enr := enr; node_data_radius := node_data_radius node |} None in
          let self := set_kbuckets self r.1 in
          match r.2 with
          | UpdateFailed _ => ping_queue_remove self node_id
          | UpdateDone => self
          end
        else self
    | None =>
        let node := {| node_enr := enr; node_data_radius := Distance_MAX |} in
        let status := {| status_state := Disconnected; status_direction := Outgoing |} in
        let r := kb_insert_or_update (kbuckets self) node_id node status in
        let self := set_kbuckets self r.1 in
        match r.2 with
        | Inserted => ping_queue_insert self node_id
        | InsertPending disconnected =>
            let '(self, e) := entry self disconnected in
            match e with Present n _ => ping_node self (node_enr n) | _ => self end
        | _ => self
        end
    end.

Definition process_discovered_enrs self (enrs : list Enr) : t St :=
  fold_left process_discovered_enr enrs self.
End Table.

(** ** Requests from peers *)

Section Requests.
Context `{E : EnrLib} `{W : WireLib} `{CK : OverlayContentKey} `{KB : !KBucketsTable}
  `{KL : KeyLib bytes} {St : Type} `{CS : !ContentStore St}.
Implicit Types (self : t St).

Definition handle_ping self : Pong :=
  {| pong_enr_seq := enr_seq (local_enr self);
     pong_custom_payload := CustomPayload.from (u256_as_ssz_bytes (data_radius self)) |}.

Definition nodes_by_distance self (log2_distances : list Z) : t St * list Enr :=
  let log2_distances := dedup (sort_by id log2_distances) in
  let '(nodes_to_send, log2_distances) :=
    match log2_distances with
    | 0 :: rest => ([local_enr self], rest)
    | _ => ([], log2_distances)
    end in
  match log2_distances with
  | [] => (self, nodes_to_send)
  | _ =>
      let r := kb_nodes_by_distances (kbuckets self) log2_distances FIND_NODES_MAX_NODES in
      (set_kbuckets self r.1,
       nodes_to_send ++ map (fun e => node_enr e.1) (filter (fun e => is_connected e.2 = true) r.2))
  end.

(** [Panic] if the loop that drops records did not end. *)
Definition handle_find_nodes self (request : FindNodes) (source : bytes)
    : t St * res OverlayRequestError Nodes :=
  let '(self, nodes) := nodes_by_distance self (distances request) in
  let nodes := filter (fun enr => enr_node_id enr <> source) nodes in
  (self,
   match pop_while_ssz_bytes_len_gt nodes MAX_PORTAL_NODES_ENRS_SIZE with
   | Some nodes => Ok {| total := 1; enrs := nodes |}
   | None => Panic
   end).

Definition table_entries_enr self : t St * list Enr :=
  let r := kb_iter (kbuckets self) in
  (set_kbuckets self r.1, map (fun e => node_enr e.1.2) (filter (fun e => is_connected e.2 = true) r.2)).

Definition find_nodes_close_to_content self (key : ContentKey) : t St * list Enr :=
  let content_id := content_id key in
  let '(self, enrs) := table_entries_enr self in
  let nodes_with_distance := map (fun enr => (distance content_id (enr_node_id enr), enr)) enrs in
  (self,
   map snd (take (Z.to_nat FIND_CONTENT_MAX_NODES) (sort_by fst nodes_with_distance))).

Definition handle_find_content self (request : FindContent) (source : bytes)
    : t St * res OverlayRequestError Content :=
  match key_try_from (content_key request) with
  | Err _ => (self, Err InvalidRequest)
  | Panic => (self, Panic)
  | Ok key =>
      match store_get (store self) key with
      | Ok (Some content) =>
          if Z.of_nat (length content) <=? MAX_PORTAL_CONTENT_PAYLOAD_SIZE
          then (self, Ok (ContentBytes content))
          else
            match cached_node_addr self source with
            | None => (self, Err AcceptError)
            | Some enr =>
                let cid_send := utp_cid self enr in
                (emit (cid_drawn self) (SpawnSendContent cid_send content), Ok (ConnectionId (u16_to_be cid_send)))
            end
      | Ok None =>
          let '(self, val) := find_nodes_close_to_content self key in
          let val := filter (fun enr => source <> enr_node_id enr) val in
          (self,
           match pop_while_ssz_bytes_len_gt val MAX_PORTAL_CONTENT_PAYLOAD_SIZE with
           | Some val => Ok (Enrs val)
           | None => Panic
           end)
      | Err _ => (self, Err Failure)
      | Panic => (self, Panic)
      end
  end.

(** The capacity of [BitList<typenum::U8>]. *)
Definition ACCEPT_BITS : nat := 8.

Definition accept_bit self (key : ContentKey) : res OverlayRequestError bool :=
  match is_key_within_radius_and_unavailable (store self) key with
  | Ok Store => Ok true
  | Ok _ => Ok false
  | Err _ => Err AcceptError
  | Panic => Panic
  end.

Definition handle_offer self (request : Offer) (source : bytes)
    : t St * res OverlayRequestError Accept :=
  if (ACCEPT_BITS <? length (content_keys request))%nat then (self, Err AcceptError)
  else
    match res_all (fun k => map_err (fun _ => AcceptError) (key_try_from k)) (content_keys request) with
    | Ok keys =>
        match res_all (accept_bit self) keys with
        | Ok requested_keys =>
            if negb (existsb id requested_keys)
            then (self, Ok {| accept_connection_id := 0; accept_content_keys := requested_keys |})
            else
              match cached_node_addr self source with
              | None => (self, Err AcceptError)
              | Some enr =>
                  let cid_send := utp_cid self enr in
                  (emit (cid_drawn self) (SpawnReceiveOffer cid_send keys),
                   Ok {| accept_connection_id := u16_to_be cid_send;
                         accept_content_keys := requested_keys |})
              end
        | Err e => (self, Err e)
        | Panic => (self, Panic)
        end
    | Err e => (self, Err e)
    | Panic => (self, Panic)
    end.

Definition map_response {A} (f : A -> Response.t) (r : t St * res OverlayRequestError A)
    : t St * res OverlayRequestError Response.t :=
  (r.1, let? x := r.2 in Ok (f x)).

Definition handle_request self (request : Request.t) (source : bytes)
    : t St * res OverlayRequestError Response.t :=
  match request with
  | Request.Ping _ => (self, Ok (Response.Pong (handle_ping self)))
  | Request.FindNodes find_nodes => map_response Response.Nodes (handle_find_nodes self find_nodes source)
  | Request.FindContent find_content =>
      map_response Response.Content (handle_find_content self find_content source)
  | Request.Offer offer => map_response Response.Accept (handle_offer self offer source)
  | Request.PopulatedOffer _ | Request.PopulatedOfferWithResult _ => (self, Err InvalidRequest)
  end.

Definition process_incoming_request self (request : Request.t) (source : bytes)
    : res Empty_set (t St) :=
  match request with
  | Request.Ping ping => process_ping self ping source
  | _ => Ok self
  end.

(** [process_request] on an incoming request: the response is sent before the request
    is processed. *)
Definition process_incoming self (request : Request.t) (source : bytes)
    : res Empty_set (t St) * res OverlayRequestError Response.t :=
  let self := register_node_activity self source in
  let '(self, response) := handle_request self request source in
  (match response with
   | Panic => Panic
   | _ => process_incoming_request self request source
   end, response).

(** ** What the responses say *)

(** [enr] is the record of a connected node of the table. *)
Definition table_record self (id : bytes) (enr : Enr) : Prop :=
  exists node status, (id, node, status) ∈ kb_buckets (kbuckets self)
    /\ is_connected status = true /\ node_enr node = enr.

Lemma nodes_by_distance_elem `{L : !Log2Lib bytes} `{!KBucketsTableOk} self ds enr :
  let r := nodes_by_distance self ds in
  enr ∈ r.2 ->
  (enr = local_enr self /\ 0 ∈ ds)
  \/ exists id d, table_record r.1 id enr /\ d ∈ ds
       /\ log2_distance (into_key (kb_local (kbuckets self))) (into_key id) = Some d.
Proof.
  assert (Hds : forall x, x ∈ dedup (sort_by id ds) <-> x ∈ ds).
  { intros x. by rewrite dedup_elem, sort_by_perm. }
  unfold nodes_by_distance. set (l := dedup (sort_by id ds)) in *.
  set (out := match l with 0 :: rest => ([local_enr self], rest) | _ => ([], l) end).
  assert (Hout : (enr ∈ out.1 -> enr = local_enr self /\ 0 ∈ ds) /\ forall x, x ∈ out.2 -> x ∈ ds).
  { subst out. destruct l as [|[|p|p] l']; simpl; split; intros; try set_solver. }
  destruct out as [pre ds'], Hout as [Hpre Hds']. simpl in Hpre, Hds'.
  destruct ds' as [|d0 ds'']; simpl; [auto|].
  intros [Hin|Hin]%elem_of_app; [auto|]. right.
  apply list_elem_of_fmap in Hin as (e & -> & [Hc He]%list_elem_of_filter).
  apply kb_nodes_by_distances_spec in He as (id & d & Hb & Hd & Hlog).
  exists id, d. split_and!; [|auto|done]. exists e.1, e.2. eauto.
Qed.

Lemma nodes_by_distance_head self ds :
  Forall (fun d => 0 <= d) ds -> 0 ∈ ds -> exists rest, (nodes_by_distance self ds).2 = local_enr self :: rest.
Proof.
  intros Hnn H0. unfold nodes_by_distance.
  assert (Hds : forall x, x ∈ dedup (sort_by id ds) <-> x ∈ ds).
  { intros x. by rewrite dedup_elem, sort_by_perm. }
  pose proof (dedup_sorted _ (sort_by_sorted id ds)) as Hs.
  destruct (dedup (sort_by id ds)) as [|d l]; [set_solver|].
  assert (d = 0) as ->.
  { apply StronglySorted_inv in Hs as [_ Hs]. rewrite Forall_forall in Hs, Hnn.
    assert (0 <= d) by (apply Hnn; set_solver).
    destruct (decide (d = 0)) as [|Hd]; [done|]. specialize (Hs 0). apply Hds in H0.
    assert (0 ∈ l) as Hl by set_solver. specialize (Hs Hl). lia. }
  destruct l; simpl; eauto.
Qed.

(** C39: A NODES response names only nodes that were asked for: it fits into a packet, it
    does not contain the node that asks, and each record is the local one (when distance
    0 was requested, and then it comes first, if it fits) or that of a connected node of
    the routing table at one of the requested log2 distances. *)
Theorem find_nodes_response `{L : !Log2Lib bytes} `{!KBucketsTableOk} `{!WireLibOk W}
    self request source :
  Forall (fun d => 0 <= d) (distances request) ->
  let r := handle_find_nodes self request source in
  exists nodes, r.2 = Ok nodes /\ total nodes = 1
    /\ ssz_bytes_len (enrs nodes) <= MAX_PORTAL_NODES_ENRS_SIZE
    /\ (forall enr, enr ∈ enrs nodes -> enr_node_id enr <> source
          /\ ((enr = local_enr self /\ 0 ∈ distances request)
              \/ exists id d, table_record r.1 id enr /\ d ∈ distances request
                   /\ log2_distance (into_key (kb_local (kbuckets self))) (into_key id) = Some d))
    /\ (0 ∈ distances request -> enr_node_id (local_enr self) <> source ->
        ssz_bytes_len [local_enr self] <= MAX_PORTAL_NODES_ENRS_SIZE ->
        head (enrs nodes) = Some (local_enr self)).
Proof.
  intros Hnn. pose proof (nodes_by_distance_elem self (distances request)) as Hel.
  pose proof (nodes_by_distance_head self (distances request) Hnn) as Hhd.
  unfold handle_find_nodes. destruct (nodes_by_distance self (distances request)) as [self' l].
  simpl in *.
  destruct (pop_while_longest_prefix (filter (fun enr => enr_node_id enr <> source) l)
              MAX_PORTAL_NODES_ENRS_SIZE) as (l1 & l2 & -> & Hl & Hlen & Hmax); [done|].
  eexists. split_and!; [done | done | done | |].
  - simpl. intros enr Hin.
    assert (enr ∈ filter (fun enr => enr_node_id enr <> source) l) as [H1 H2]%list_elem_of_filter
      by (rewrite Hl; set_solver). split; [done|]. by apply Hel.
  - intros H0 Hsrc Hfit. destruct (Hhd H0) as [rest ->]. simpl.
    rewrite filter_cons_True in Hl by done. destruct l1 as [|e l1]; simpl in *; [|by simplify_eq].
    exfalso. specialize (Hmax 1%nat). rewrite filter_cons_True in Hmax by done. simpl in Hmax.
    rewrite take_0 in Hmax. lia.
Qed.
Lemma map_snd_sort_by (g : Enr -> Z) (l : list Enr) :
  map snd (sort_by fst (map (fun e => (g e, e)) l)) = sort_by g l.
Proof.
  induction l as [|x l IH]; [done|]. simpl map. unfold sort_by in *. simpl. rewrite <- IH.
  assert (H : Forall (fun p => p.1 = g p.2) (foldr (insert_by fst) [] (map (fun e => (g e, e)) l))).
  { change (Forall (fun p => p.1 = g p.2) (sort_by fst (map (fun e => (g e, e)) l))).
    rewrite sort_by_perm. apply Forall_map, Forall_forall. done. }
  clear IH. induction H as [|[k y] l' Hk _ IH']; [done|]. simpl in *. subst k.
  destruct (g x <=? g y); [done|]. simpl. by rewrite IH'.
Qed.

Lemma close_to_content_spec `{L : !Log2Lib bytes} `{!KBucketsTableOk} self key :
  let r := find_nodes_close_to_content self key in
  let dist enr := distance (content_id key) (enr_node_id enr) in
  exists rest, (forall enr, enr ∈ r.2 ++ rest <-> exists id, table_record r.1 id enr)
    /\ StronglySorted (fun x y => dist x <= dist y) (r.2 ++ rest).
Proof.
  unfold find_nodes_close_to_content, table_entries_enr. simpl.
  set (l := map _ (filter _ _)). rewrite <- firstn_map, map_snd_sort_by.
  eexists. rewrite firstn_skipn. split; [|apply sort_by_sorted].
  intros enr. rewrite sort_by_perm. subst l. rewrite list_elem_of_fmap. split.
  - intros ([[id n] st] & -> & [Hc He%kb_iter_spec]%list_elem_of_filter). exists id, n, st. eauto.
  - intros (id & n & st & Hb & Hc & <-). exists (id, n, st). split; [done|].
    apply list_elem_of_filter. split; [done|]. by apply kb_iter_spec.
Qed.

(** A prefix of the part of a sorted list that meets a condition is closest among
    everything that meets it. *)
Lemma prefix_closest (f : Enr -> Z) (P : Enr -> Prop) `{!forall x, Decision (P x)} l1 l2 l rest x y :
  StronglySorted (fun x y => f x <= f y) (l ++ rest) -> filter P l = l1 ++ l2 ->
  x ∈ l1 -> y ∈ l ++ rest -> P y -> y ∉ l1 -> f x <= f y.
Proof.
  intros Hs Hl Hx Hy HP Hn. apply (sorted_filter f P) in Hs. rewrite filter_app, Hl, <- app_assoc in Hs.
  apply (sorted_app_le f _ _ x y Hs Hx).
  assert (y ∈ filter P (l ++ rest)) as Hf by (apply list_elem_of_filter; done).
  rewrite filter_app, Hl in Hf. set_solver.
Qed.

(** Swapping the bytes of a [u16]. *)
Lemma u16_to_be_eq z : 0 <= z < 2 ^ 16 -> u16_to_be z = 256 * (z mod 256) + z / 256.
Proof.
  intros Hz. unfold u16_to_be. change 255 with (Z.ones 8). rewrite Z.land_ones by lia.
  rewrite Z.shiftl_mul_pow2, Z.shiftr_div_pow2 by lia. change (2 ^ 8) with 256.
  assert (Z.land (z mod 256 * 256) (z / 256) = 0) as Hl.
  { apply Z.bits_inj'. intros n Hn. rewrite Z.land_spec, Z.bits_0. change 256 with (2 ^ 8).
    destruct (Z.ltb_spec n 8).
    - by rewrite Z.mul_pow2_bits_low by lia.
    - rewrite <- (Z.mod_small (z / 2 ^ 8) (2 ^ 8)) by (split; [apply Z.div_pos; lia | apply Z.div_lt_upper_bound; lia]).
      rewrite Z.mod_pow2_bits_high by lia. apply andb_false_r. }
  rewrite <- Z.lxor_lor by done. rewrite <- Z.add_nocarry_lxor by done. lia.
Qed.

Lemma u16_to_be_range z : 0 <= z < 2 ^ 16 -> 0 <= u16_to_be z < 2 ^ 16.
Proof.
  intros Hz. rewrite u16_to_be_eq by done. pose proof (Z.mod_pos_bound z 256).
  assert (0 <= z / 256 < 256) by (split; [apply Z.div_pos; lia | apply Z.div_lt_upper_bound; lia]). lia.
Qed.

Lemma u16_swap x : 0 <= x < 2 ^ 16 -> u16_from_be (u16_to_be x) = x.
Proof.
  intros Hx. pose proof (u16_to_be_range x Hx) as Hr. change (u16_from_be (u16_to_be x)) with (u16_to_be (u16_to_be x)).
  rewrite (u16_to_be_eq (u16_to_be x)), (u16_to_be_eq x) by done.
  pose proof (Z.mod_pos_bound x 256). pose proof (Z.div_mod x 256).
  assert (0 <= x / 256 < 256) by (split; [apply Z.div_pos; lia | apply Z.div_lt_upper_bound; lia]).
  rewrite <- (Z.mod_unique (256 * (x mod 256) + x / 256) 256 (x mod 256) (x / 256)) by lia.
  rewrite <- (Z.div_unique (256 * (x mod 256) + x / 256) 256 (x mod 256) (x / 256)) by lia. lia.
Qed.

(** C18: A FINDCONTENT request is answered from the store when the content is there: in
    the response when it fits into a packet, otherwise with a connection id under which
    it is served and which the requester reads back as the id of that connection.
    Otherwise the answer is a packet of records of connected nodes, without the
    requester, in the order of their distance to the content, and no connected node
    that is left out is closer than one that is named. *)
Theorem find_content_response `{L : !Log2Lib bytes} `{!KBucketsTableOk} `{!WireLibOk W}
    self request source key found :
  key_try_from (content_key request) = Ok key -> store_get (store self) key = Ok found ->
  (forall enr, 0 <= utp_cid self enr < 2 ^ 16) ->
  let r := handle_find_content self request source in
  let dist enr := distance (content_id key) (enr_node_id enr) in
  match found with
  | Some content =>
      if Z.of_nat (length content) <=? MAX_PORTAL_CONTENT_PAYLOAD_SIZE
      then r = (self, Ok (ContentBytes content))
      else match cached_node_addr self source with
           | None => r = (self, Err AcceptError)
           | Some enr => exists id, r.2 = Ok (ConnectionId id) /\ u16_from_be id = utp_cid self enr
               /\ effects r.1 = effects self ++ [SpawnSendContent (u16_from_be id) content]
           end
  | None => exists l, r.2 = Ok (Enrs l)
      /\ ssz_bytes_len l <= MAX_PORTAL_CONTENT_PAYLOAD_SIZE
      /\ StronglySorted (fun x y => dist x <= dist y) l
      /\ (forall x, x ∈ l -> enr_node_id x <> source /\ exists id, table_record r.1 id x)
      /\ forall x y id, x ∈ l -> table_record r.1 id y -> enr_node_id y <> source -> y ∉ l ->
           dist x <= dist y
  end.
Proof.
  intros Hk Hg Hcid r dist. subst r. unfold handle_find_content. rewrite Hk, Hg.
  destruct found as [content|].
  - case_match; [done|]. destruct (cached_node_addr self source) as [enr|]; [|done].
    eexists. split; [done|]. simpl. by rewrite u16_swap.
  - destruct (close_to_content_spec self key) as (rest & Hel & Hs).
    destruct (find_nodes_close_to_content self key) as [self' l]. simpl in *.
    destruct (pop_while_longest_prefix (filter (fun enr => source <> enr_node_id enr) l)
                MAX_PORTAL_CONTENT_PAYLOAD_SIZE) as (l1 & l2 & -> & Hl & Hlen & _); [done|].
    exists l1. split_and!; [done | done | | |].
    + apply (sorted_filter _ (fun enr => source <> enr_node_id enr)) in Hs.
      rewrite filter_app, Hl, <- app_assoc in Hs. by apply sorted_prefix in Hs.
    + intros x Hx. assert (x ∈ filter (fun enr => source <> enr_node_id enr) l)
        as [H1 H2]%list_elem_of_filter by (rewrite Hl; set_solver).
      split; [done|]. apply Hel. set_solver.
    + intros x y id Hx Hy Hsrc Hn.
      apply (prefix_closest dist (fun enr => source <> enr_node_id enr) l1 l2 l rest); auto.
      apply Hel. eauto.
Qed.
(** The table and the effects after [self] learnt that the node of [enr], which the table
    holds as [node], announces the sequence number [seq] and the radius [radius]. *)
Definition learns self self' (source : bytes) (node : Node) (enr : Enr) (seq radius : Z) : Prop :=
  let k := (kb_entry (kbuckets self) source).1 in
  kbuckets self'
  = (if node_data_radius node =? radius then k
     else (kb_update_node k (enr_node_id enr) {| node_enr := enr; node_data_radius := radius |} None).1)
  /\ effects self' = effects self ++
      (if enr_seq (node_enr node) <? seq
       then [Command (Request.FindNodes {| distances := [0] |}) (node_enr node) None] else []).

Lemma if_Ok {A} (b : bool) (x y : A) :
  (if b then Ok x else Ok y) = Ok (E := Empty_set) (if b then x else y).
Proof. by destruct b. Qed.

(** A ping and its answer carry the data radius of the node that sends them: a node
    that knows the sender enters exactly that radius in its routing table, if it is not
    there already, and asks for the sender's record if its own copy is outdated.  But a
    payload of more than 32 bytes, from any known node, makes the receiver panic. *)
Theorem ping_radius_exchange `{!WireLibOk W} self peer dest node source_enr :
  is_u256 (data_radius peer) -> source_enr = local_enr peer ->
  let source := enr_node_id source_enr in
  entry_node (kb_entry (kbuckets self) source).2 = Some node ->
  (exists ping self', effects (ping_node peer dest) = effects peer ++ [Command (Request.Ping ping) dest None]
     /\ process_ping self ping source = Ok self'
     /\ learns self self' source node (node_enr node) (enr_seq source_enr) (data_radius peer))
  /\ (exists self', process_pong self (handle_ping peer) source_enr = Ok self'
       /\ learns self self' source node source_enr (enr_seq source_enr) (data_radius peer))
  /\ forall seq b, (32 < length b)%nat ->
       process_ping self {| ping_enr_seq := seq; ping_custom_payload := CustomPayload.from b |} source = Panic
       /\ process_pong self {| pong_enr_seq := seq; pong_custom_payload := CustomPayload.from b |} source_enr
          = Panic.
Proof.
  destruct custom_payload_radius as (Hown & _ & Hlong). intros Hr -> source Hn.
  assert (He : entry self source = (set_kbuckets self (kb_entry (kbuckets self) source).1,
                                    (kb_entry (kbuckets self) source).2)) by done.
  split_and!.
  - eexists. refine (ex_intro _ _ (conj eq_refl _)).
    unfold process_ping. rewrite He, Hn. simpl. rewrite Hown by done. simpl. rewrite if_Ok.
    split; [done|]. unfold learns, update_node_radius. repeat case_match; simpl; by rewrite ?app_nil_r.
  - unfold process_pong. fold source. rewrite He, Hn. simpl. rewrite Hown by done. simpl. rewrite if_Ok.
    eexists. split; [done|].
    unfold learns, update_node_radius. repeat case_match; simpl; by rewrite ?app_nil_r.
  - intros seq b Hb. unfold process_ping, process_pong. fold source. rewrite He, Hn. simpl.
    by rewrite Hlong.
Qed.
End Requests.
End OverlayService.

(** On the beacon network a FINDCONTENT request with an empty content key, which any peer
    may send, panics the service. *)
Theorem beacon_empty_key_request_panics `{E : EnrLib} `{W : WireLib} `{H : HashLib} `{X : HexLib}
    `{U : U64Ssz} `{KB : !KBucketsTable} `{KL : KeyLib bytes} {St : Type}
    `{CS : !ContentStore St (CK := BeaconContentKey.overlay_key)}
    (self : OverlayService.t (CK := BeaconContentKey.overlay_key) St) source :
  (OverlayService.process_incoming self (Request.FindContent {| content_key := [] |}) source).1 = Panic.
Proof. done. Qed.

(** ** The theorems at work *)

(** A table that is a list of entries. *)
Definition toy_kb : Type := bytes * list (bytes * Node * NodeStatus).

Definition toy_find (k : toy_kb) (id : bytes) : option (bytes * Node * NodeStatus) :=
  List.find (fun e => bool_decide (e.1.1 = id)) k.2.

Definition toy_set (k : toy_kb) (id : bytes) (f : Node * NodeStatus -> Node * NodeStatus) : toy_kb :=
  (k.1, map (fun e => if decide (e.1.1 = id)
                      then let r := f (e.1.2, e.2) in (id, r.1, r.2) else e) k.2).

Definition toy_at (k : toy_kb) (ds : list Z) (e : bytes * Node * NodeStatus) : bool :=
  match log2_distance (into_key k.1) (into_key e.1.1) with
  | Some d => bool_decide (d ∈ ds)
  | None => false
  end.

#[global] Instance toy_table : KBucketsTable := {|
  kb := toy_kb;
  kb_entry k id :=
    (k, match toy_find k id with Some e => Present e.1.2 e.2 | None => NoEntry end);
  kb_insert_or_update k id node status :=
    match toy_find k id with
    | Some _ => (toy_set k id (fun _ => (node, status)), Updated false)
    | None => ((k.1, k.2 ++ [(id, node, status)]), Inserted)
    end;
  kb_update_node k id node _ :=
    match toy_find k id with
    | Some _ => (toy_set k id (fun e => (node, e.2)), UpdateDone)
    | None => (k, UpdateFailed KeyNonExistent)
    end;
  kb_update_node_status k id state _ :=
    match toy_find k id with
    | Some _ => (toy_set k id (fun e => (e.1, {| status_state := state;
                                                 status_direction := status_direction e.2 |})), UpdateDone)
    | None => (k, UpdateFailed KeyNonExistent)
    end;
  kb_remove k id := ((k.1, filter (fun e => e.1.1 <> id) k.2), bool_decide (is_Some (toy_find k id)));
  kb_iter k := (k, k.2);
  kb_nodes_by_distances k ds n :=
    (k, take (Z.to_nat n) (map (fun e => (e.1.2, e.2)) (List.filter (toy_at k ds) k.2)));
  kb_buckets k := k.2;
  kb_pending k := [];
  kb_local k := k.1;
|}.

#[global] Instance toy_table_ok : KBucketsTableOk (L := node_log2).
Proof.
  split.
  - done.
  - intros k ds n [nd st] He. simpl in *.
    set (l := map _ _) in He.
    pose proof (proj2 (elem_of_app _ (drop (Z.to_nat n) l) _) (or_introl He)) as Hl.
    rewrite take_drop in Hl. apply list_elem_of_fmap in Hl. clear He. destruct Hl as ([[id n'] st'] & [= -> ->] & He).
    apply list_elem_of_In, filter_In in He as [He Hat]. apply list_elem_of_In in He.
    unfold toy_at in Hat. simpl in Hat. case_match; [|done].
    exists id, z. split_and!; [done | by apply bool_decide_eq_true in Hat | done].
  - intros k ds n Hn. simpl. rewrite length_take. lia.
  - intros k id node status e. simpl. rewrite !app_nil_r. destruct (toy_find k id); simpl.
    + intros (e0 & -> & He)%list_elem_of_fmap. case_decide; [by left|]. right. eauto.
    + intros [He| ->%list_elem_of_singleton]%elem_of_app; [|by left]. right. by exists e.
Qed.

Definition up (connected : bool) : NodeStatus :=
  {| status_state := if connected then Connected else Disconnected; status_direction := Outgoing |}.

Definition toy_entry (b : byte) (connected : bool) : bytes * Node * NodeStatus :=
  (@enr_node_id toy_enr [b], {| node_enr := [b]; node_data_radius := Distance_MAX |}, up connected).

(** A service with four nodes in its table, one of them disconnected, a small and a
    large piece of content. *)
Definition small_key : IdentityContentKey.t := IdentityContentKey.new (replicate 32 x0a).
Definition large_key : IdentityContentKey.t := IdentityContentKey.new (replicate 32 x0b).
Definition other_key : IdentityContentKey.t := IdentityContentKey.new (replicate 32 x0c).

Definition toy_store (id : bytes) : MemoryContentStore.t :=
  let st := MemoryContentStore.new id in
  let st := (MemoryContentStore.put (CK := IdentityContentKey.overlay_key) st small_key [x01; x02]).1 in
  (MemoryContentStore.put (CK := IdentityContentKey.overlay_key) st large_key (replicate 2000 x07)).1.

Definition toy_service (local : bytes) (nodes : list (bytes * Node * NodeStatus))
    : OverlayService.t (E := toy_enr) (CK := IdentityContentKey.overlay_key) (KB := toy_table) MemoryContentStore.t :=
  OverlayService.mk (E := toy_enr) (CK := IdentityContentKey.overlay_key) (KB := toy_table)
    local (fun id => Some (take 1 id)) (fun _ _ => 4660) (@enr_node_id toy_enr local, nodes) ∅
    (toy_store (@enr_node_id toy_enr local)) (QueryPool.new 60) (QueryPool.new 60) 3 20 2 4 false [].

Definition service_a : OverlayService.t MemoryContentStore.t :=
  toy_service [x00] [toy_entry x01 true; toy_entry x02 false; toy_entry x40 true; toy_entry x41 true].

Definition toy_id (b : byte) : bytes := @enr_node_id toy_enr [b].

Lemma find_nodes_response_witness :
  (OverlayService.handle_find_nodes service_a {| distances := [255; 0; 0; 256; 249] |} (toy_id x01)).2
    = Ok {| total := 1; enrs := [[x00]; [x40]; [x41]] |}
  /\ exists nodes, (OverlayService.handle_find_nodes service_a {| distances := [255; 0; 0; 256; 249] |} (toy_id x01)).2
       = Ok nodes /\ ssz_bytes_len (enrs nodes) <= MAX_PORTAL_NODES_ENRS_SIZE.
Proof.
  destruct (OverlayService.find_nodes_response service_a {| distances := [255; 0; 0; 256; 249] |} (toy_id x01))
    as (nodes & H1 & _ & H2 & _).
  - repeat constructor; lia.
  - split; [vm_compute; reflexivity|]. exists nodes. split; [exact H1 | exact H2].
Defined.

Lemma find_content_response_witness :
  (exists id, (OverlayService.handle_find_content service_a {| content_key := replicate 32 x0b |} (toy_id x01)).2
     = Ok (ConnectionId id) /\ u16_from_be id = 4660)
  /\ exists l, (OverlayService.handle_find_content service_a {| content_key := replicate 32 x0c |} (toy_id x01)).2
       = Ok (Enrs l) /\ l = [[x40]; [x41]].
Proof.
  assert (Hcid : forall enr, 0 <= OverlayService.utp_cid service_a enr < 2 ^ 16) by done.
  split.
  - pose proof (OverlayService.find_content_response service_a {| content_key := replicate 32 x0b |}
      (toy_id x01) large_key (Some (replicate 2000 x07)) ltac:(vm_compute; reflexivity)
      ltac:(vm_compute; reflexivity) Hcid) as H.
    cbv zeta in H. change (Z.of_nat (length (replicate 2000 x07)) <=? MAX_PORTAL_CONTENT_PAYLOAD_SIZE) with false in H.
    cbv iota in H. destruct H as (id & H1 & H2 & _). by exists id.
  - destruct (OverlayService.find_content_response service_a {| content_key := replicate 32 x0c |}
      (toy_id x01) other_key None ltac:(vm_compute; reflexivity)
      ltac:(vm_compute; reflexivity) Hcid) as (l & H1 & _).
    exists l. split; [exact H1|]. vm_compute in H1. by injection H1 as <-.
Defined.

Definition stale_node (radius : Z) : Node := {| node_enr := ([] : bytes); node_data_radius := radius |}.

Definition service_b : OverlayService.t MemoryContentStore.t :=
  toy_service [x01] [(toy_id x00, (stale_node 7), up true)].

Lemma ping_radius_exchange_witness :
  exists ping service', OverlayService.effects (OverlayService.ping_node service_a [x01])
      = [OverlayService.Command (Request.Ping ping) [x01] None]
    /\ OverlayService.process_ping service_b ping (toy_id x00) = Ok service'
    /\ (OverlayService.kbuckets service').2
       = [(toy_id x00, stale_node Distance_MAX, up true)].
Proof.
  destruct (OverlayService.ping_radius_exchange service_b service_a [x01]
    (stale_node 7) [x00]) as ((ping & service' & H1 & H2 & H3 & _) & _).
  - split; [discriminate | reflexivity].
  - reflexivity.
  - vm_compute. reflexivity.
  - exists ping, service'. split; [exact H1|]. split; [exact H2|]. rewrite H3. vm_compute. reflexivity.
Defined.
