(* ===== verification/OverlayQuery.v ===== *)
(** * The overlay service: lookups.

    The parts of [portalnet/src/overlay_service.rs] that start lookups, poll the query
    pools, send the requests of a query and feed responses into it.  The order in which
    the hash map of a pool is traversed and the current time are arguments. *)

From stdpp Require Import gmap sets.
From S2P Require Import Prelude.
From S2P Require Import Distance.
From S2P Require Import ContentKey.
From S2P Require Import BTree.
From S2P Require Import Query.
From S2P Require Import FindNodes.
From S2P Require Import FindContent.
From S2P Require Import QueryPool.
From S2P Require Import Wire.
From S2P Require Import QueryTrace.
From S2P Require Import QueryInfo.
From S2P Require Import ContentStore.
From S2P Require Import Overlay.

Definition EXPECTED_NON_EMPTY_BUCKETS : Z := 17.

(** [QueryEvent]. *)
Inductive QueryEvent (Q Info : Type) :=
| EvWaiting (query_id : Z) (node_id : bytes) (request : Request.t)
| EvTimedOut (query_id : Z) (info : Info) (query : Q)
| EvFinished (query_id : Z) (info : Info) (query : Q).
Arguments EvWaiting {Q Info}.
Arguments EvTimedOut {Q Info}.
Arguments EvFinished {Q Info}.

(** [swap_remove]: the last element takes the place of the removed one. *)
Definition swap_remove {A} (l : list A) (i : nat) : list A :=
  match last l with
  | Some x => take (length l - 1) (<[i := x]> l)
  | None => l
  end.

Module OverlayQuery.
Import OverlayService.

Section Ops.
Context `{E : EnrLib} `{W : WireLib} `{CK : OverlayContentKey} `{KB : !KBucketsTable}
  `{KL : KeyLib bytes} `{L : !Log2Lib bytes} {St : Type} `{CS : !ContentStore St}.
Implicit Types (self : t St).

#[local] Abbreviation node_pool := (QueryPool.t (FindNodeQuery.t bytes) QueryInfo.t).
#[local] Abbreviation content_pool := (QueryPool.t (FindContentQuery.t bytes) QueryInfo.t).

Definition set_node_pool self (p : node_pool) : t St := set_pools self p (find_content_query_pool self).
Definition set_content_pool self (p : content_pool) : t St := set_pools self (find_node_query_pool self) p.

(** ** Starting lookups *)

Definition closest_connected_nodes self (target_key : Key) (max_nodes : Z) : list Enr :=
  let all_nodes := filter (fun e => is_connected e.2 = true) (kb_buckets (kbuckets self)) in
  map (fun e => node_enr e.1.2)
    (take (Z.to_nat max_nodes)
       (sort_by (fun e => key_distance (into_key e.1.1) target_key) all_nodes)).

Definition query_config self : QueryConfig :=
  {| parallelism := query_parallelism self;
     num_results := query_num_results self;
     peer_timeout := query_peer_timeout self |}.

Definition init_find_nodes_query self (target : bytes) (callback : option Z) : t St * option Z :=
  let target_key := into_key target in
  let closest_enrs := closest_connected_nodes self target_key (query_num_results self) in
  match closest_enrs with
  | [] =>
      (match callback with Some callback => emit self (SendNodes callback []) | None => self end, None)
  | _ =>
      let query_info :=
        {| QueryInfo.query_type :=
             QFindNode target callback (findnodes_query_distances_per_peer self);
           QueryInfo.untrusted_enrs := closest_enrs;
           QueryInfo.trace := None |} in
      let known_closest_peers :=
        map (fun enr => into_key (enr_node_id enr)) (QueryInfo.untrusted_enrs query_info) in
      match known_closest_peers with
      | [] => (self, None)
      | _ =>
          let find_nodes_query :=
            FindNodeQuery.with_config (query_config self) (QueryInfo.key query_info) known_closest_peers in
          let r := QueryPool.add_query (find_node_query_pool self) query_info find_nodes_query in
          (set_node_pool self r.1, Some r.2)
      end
  end.

Definition init_find_content_query self (target : ContentKey) (callback : option Z) (is_trace : bool)
    (now : Z) : t St * option Z :=
  let target_node_id := content_id target in
  let target_key := into_key target_node_id in
  let config := query_config self in
  let closest_enrs := closest_connected_nodes self target_key (num_results config) in
  match closest_enrs with
  | [] =>
      (match callback with
       | Some callback => emit self (SendContent callback None false None)
       | None => self
       end, None)
  | _ =>
      let closest_nodes := map (fun enr => into_key (enr_node_id enr)) closest_enrs in
      let trace :=
        if is_trace then
          Some (QueryTrace.node_responded_with (QueryTrace.new (local_enr self) target_node_id now)
                  (local_enr self) closest_enrs now)
        else None in
      let query_info :=
        {| QueryInfo.query_type := QFindContent target callback;
           QueryInfo.untrusted_enrs := closest_enrs;
           QueryInfo.trace := trace |} in
      let query := FindContentQuery.with_config config target_key closest_nodes in
      let r := QueryPool.add_query (find_content_query_pool self) query_info query in
      (set_content_pool self r.1, Some r.2)
  end.

(** The bootnodes are entered disconnected, except in tests. *)
Definition add_bootnode (set_connected : bool) self (enr : Enr) : t St :=
  let node_id := enr_node_id enr in
  let node := {| node_enr := enr; node_data_radius := Distance_MAX |} in
  let status := {| status_state := if set_connected then Connected else Disconnected;
                   status_direction := Outgoing |} in
  let r := kb_insert_or_update (kbuckets self) node_id node status in
  let self := set_kbuckets self r.1 in
  match r.2 with
  | InsertFailed _ => self
  | _ => ping_queue_insert self node_id
  end.

Definition add_bootnodes self (bootnode_enrs : list Enr) (set_connected : bool) : t St :=
  fold_left (add_bootnode set_connected) bootnode_enrs self.

(** [targets] are the node ids generated at random, one for each bucket index. *)
Definition initialize_routing_table self (bootnodes : list Enr) (targets : list bytes) : t St :=
  let self := add_bootnodes self bootnodes false in
  let local_node_id := enr_node_id (local_enr self) in
  let self := (init_find_nodes_query self local_node_id None).1 in
  fold_left (fun self target => (init_find_nodes_query self target None).1) targets self.

(** ** Where records are looked up *)

Definition find_in_queries {Q} (queries : list (QueryInfo.t * Q)) (node_id : bytes) : option Enr :=
  head (omap (fun v => List.find (fun enr => bool_decide (enr_node_id enr = node_id))
                         (QueryInfo.untrusted_enrs v.1)) queries).

(** The orders in which the two pools are traversed. *)
Record orders := { node_order : list Z; content_order : list Z }.

Definition find_enr self (o : orders) (node_id : bytes) : t St * option Enr :=
  let '(self, e) := entry self node_id in
  match e with
  | Present node _ => (self, Some (node_enr node))
  | _ =>
      match cached_node_addr self node_id with
      | Some enr => (self, Some enr)
      | None =>
          match find_in_queries (QueryPool.iter (find_node_query_pool self) (node_order o)) node_id with
          | Some enr => (self, Some enr)
          | None =>
              (self, find_in_queries (QueryPool.iter (find_content_query_pool self) (content_order o)) node_id)
          end
      end
  end.

(** ** Polling the pools *)

Definition query_event_poll {Q} `{QI : !Query bytes Q} (queries : QueryPool.t Q QueryInfo.t)
    (now : Z) (order : list Z)
    : res Empty_set (QueryPool.t Q QueryInfo.t * option (QueryEvent Q QueryInfo.t)) :=
  let? r := QueryPool.poll queries now order in
  match r.2 with
  | QueryPool.Finished id info query => Ok (r.1, Some (EvFinished id info query))
  | QueryPool.Timeout id info query => Ok (r.1, Some (EvTimedOut id info query))
  | QueryPool.Waiting (Some (id, info, query, node_id)) =>
      match QueryInfo.rpc_request info node_id with
      | Ok request_body => Ok (r.1, Some (EvWaiting id node_id request_body))
      | Err _ =>
          let? query := on_failure query node_id in
          Ok (QueryPool.set_query r.1 id (info, query), None)
      | Panic => Panic
      end
  | QueryPool.Waiting None | QueryPool.Idle => Ok (r.1, None)
  end.

(** The records of the nodes of a result: from the query, else from [find_enr]. *)
Fixpoint collect_enrs self (o : orders) (untrusted_enrs : list Enr) (result : list bytes)
    : t St * list Enr :=
  match result with
  | [] => (self, [])
  | node_id :: result =>
      match list_find (fun enr => enr_node_id enr = node_id) untrusted_enrs with
      | Some (position, enr) =>
          let r := collect_enrs self o (swap_remove untrusted_enrs position) result in
          (r.1, enr :: r.2)
      | None =>
          let '(self, found) := find_enr self o node_id in
          let r := collect_enrs self o untrusted_enrs result in
          (r.1, option_list found ++ r.2)
      end
  end.

Definition handle_find_nodes_query_event self (o : orders)
    (query_event : QueryEvent (FindNodeQuery.t bytes) QueryInfo.t) : res Empty_set (t St) :=
  match query_event with
  | EvWaiting query_id node_id request =>
      match find_enr self o node_id with
      | (self, Some enr) => Ok (emit self (Command request enr (Some query_id)))
      | (self, None) =>
          match QueryPool.get_mut (find_node_query_pool self) query_id with
          | Some (info, query) =>
              let? query := FindNodeQuery.on_failure query node_id in
              Ok (set_node_pool self (QueryPool.set_query (find_node_query_pool self) query_id (info, query)))
          | None => Ok self
          end
      end
  | EvFinished _ query_info query | EvTimedOut _ query_info query =>
      let result := FindNodeQuery.into_result query in
      let '(self, found_enrs) := collect_enrs self o (QueryInfo.untrusted_enrs query_info) result in
      match QueryInfo.query_type query_info with
      | QFindNode _ (Some callback) _ => Ok (emit self (SendNodes callback found_enrs))
      | _ => Ok self
      end
  end.

(** For an unknown peer the source looks for the query in the pool of node lookups. *)
Definition handle_find_content_query_event self (o : orders)
    (query_event : QueryEvent (FindContentQuery.t bytes) QueryInfo.t) : res Empty_set (t St) :=
  match query_event with
  | EvWaiting query_id node_id request =>
      match find_enr self o node_id with
      | (self, Some enr) => Ok (emit self (Command request enr (Some query_id)))
      | (self, None) =>
          match QueryPool.get_mut (find_node_query_pool self) query_id with
          | Some (info, query) =>
              let? query := FindNodeQuery.on_failure query node_id in
              Ok (set_node_pool self (QueryPool.set_query (find_node_query_pool self) query_id (info, query)))
          | None => Ok self
          end
      end
  | EvFinished _ query_info query | EvTimedOut _ query_info query =>
      match QueryInfo.query_type query_info with
      | QFindContent content_key callback =>
          match FindContentQuery.into_result query with
          | FindContentQueryResult.ClosestNodes _ =>
              Ok (match callback with
                  | Some responder => emit self (SendContent responder None false (QueryInfo.trace query_info))
                  | None => self
                  end)
          | FindContentQueryResult.Content content nodes_to_poke =>
              Ok (emit self (SpawnProcessContent content content_key callback
                               (QueryInfo.trace query_info) nodes_to_poke))
          | FindContentQueryResult.Utp connection_id nodes_to_poke peer =>
              match find_enr self o peer with
              | (self, Some source) =>
                  Ok (emit self (SpawnReceiveContent source connection_id ((connection_id + 1) mod 2 ^ 16)
                                   content_key callback (QueryInfo.trace query_info) nodes_to_poke))
              | (self, None) =>
                  Ok (match callback with
                      | Some responder => emit self (SendContent responder None true (QueryInfo.trace query_info))
                      | None => self
                      end)
              end
          end
      | _ => Ok self
      end
  end.

(** ** Feeding responses into lookups *)

(** The loop over the records of a NODES response. *)
Definition add_untrusted (local_node_id : bytes) (untrusted : list Enr) (enr_ref : Enr) : list Enr :=
  if negb (existsb (fun enr => bool_decide (enr_node_id enr = enr_node_id enr_ref)
                               && bool_decide (enr_node_id enr <> local_node_id)) untrusted)
  then untrusted ++ [enr_ref] else untrusted.

Definition advance_find_node_query self (source : Enr) (enrs : list Enr) (query_id : Z)
    : res Empty_set (t St) :=
  let local_node_id := enr_node_id (local_enr self) in
  match QueryPool.get_mut (find_node_query_pool self) query_id with
  | Some (info, query) =>
      let untrusted := fold_left (add_untrusted local_node_id) enrs (QueryInfo.untrusted_enrs info) in
      let info := QueryInfo.mk (QueryInfo.query_type info) untrusted (QueryInfo.trace info) in
      let? query := FindNodeQuery.on_success query (enr_node_id source) (map enr_node_id enrs) in
      Ok (set_node_pool self (QueryPool.set_query (find_node_query_pool self) query_id (info, query)))
  | None => Ok self
  end.

(** The loop over the records of a CONTENT response: the records filed, and the new ones. *)
Definition add_new_untrusted (acc : list Enr * list Enr) (enr_ref : Enr) : list Enr * list Enr :=
  if negb (existsb (fun enr => bool_decide (enr_node_id enr = enr_node_id enr_ref)) acc.1)
  then (acc.1 ++ [enr_ref], acc.2 ++ [enr_ref]) else acc.

(** The update of the trace of a content lookup. *)
Definition update_trace (query : FindContentQuery.t bytes) (source : Enr)
    (f : QueryTrace.t -> QueryTrace.t) (trace : option QueryTrace.t) : option QueryTrace.t :=
  (fun tr => QueryTrace.set_cancelled (f tr) (FindContentQuery.pending_peers query (enr_node_id source)))
    <$> trace.

Definition advance_find_content_query_with_enrs self (query_id : Z) (source : Enr) (enrs : list Enr)
    (now : Z) : res Empty_set (t St) :=
  let local_node_id := enr_node_id (local_enr self) in
  match QueryPool.get_mut (find_content_query_pool self) query_id with
  | Some (info, query) =>
      let remote := filter (fun enr => enr_node_id enr <> local_node_id) enrs in
      let '(untrusted, new_enrs) :=
        fold_left add_new_untrusted remote (QueryInfo.untrusted_enrs info, []) in
      let trace :=
        update_trace query source (fun tr => QueryTrace.node_responded_with tr source new_enrs now)
          (QueryInfo.trace info) in
      let info := QueryInfo.mk (QueryInfo.query_type info) untrusted trace in
      let closest_nodes := map enr_node_id remote in
      let? query := FindContentQuery.on_success query (enr_node_id source)
                      (FindContentQueryResponse.ClosestNodes closest_nodes) in
      Ok (set_content_pool self (QueryPool.set_query (find_content_query_pool self) query_id (info, query)))
  | None => Ok self
  end.

(** [advance_find_content_query_with_connection_id] and [.._with_content]. *)
Definition advance_find_content_query_with self (query_id : Z) (source : Enr)
    (response : FindContentQueryResponse.t bytes) (now : Z) : res Empty_set (t St) :=
  match QueryPool.get_mut (find_content_query_pool self) query_id with
  | Some (info, query) =>
      let trace :=
        update_trace query source (fun tr => QueryTrace.node_responded_with_content tr source now)
          (QueryInfo.trace info) in
      let info := QueryInfo.mk (QueryInfo.query_type info) (QueryInfo.untrusted_enrs info) trace in
      let? query := FindContentQuery.on_success query (enr_node_id source) response in
      Ok (set_content_pool self (QueryPool.set_query (find_content_query_pool self) query_id (info, query)))
  | None => Ok self
  end.

Definition advance_find_content_query_with_connection_id self query_id source (utp now : Z) :=
  advance_find_content_query_with self query_id source (FindContentQueryResponse.ConnectionId utp) now.
Definition advance_find_content_query_with_content self query_id source (content : bytes) (now : Z) :=
  advance_find_content_query_with self query_id source (FindContentQueryResponse.Content content) now.

Definition process_nodes self (nodes : Nodes) (source : Enr) (query_id : option Z)
    : res Empty_set (t St) :=
  let self := process_discovered_enrs self (enrs nodes) in
  match query_id with
  | Some query_id => advance_find_node_query self source (enrs nodes) query_id
  | None => Ok self
  end.

Definition process_content self (content : Content) (source : Enr) (query_id : option Z) (now : Z)
    : res Empty_set (t St) :=
  match content with
  | ConnectionId id =>
      match query_id with
      | Some query_id => advance_find_content_query_with_connection_id self query_id source id now
      | None => Ok self
      end
  | ContentBytes content =>
      match query_id with
      | Some query_id => advance_find_content_query_with_content self query_id source content now
      | None => Ok self
      end
  | Enrs enrs =>
      let self := process_discovered_enrs self enrs in
      match query_id with
      | Some query_id => advance_find_content_query_with_enrs self query_id source enrs now
      | None => Ok self
      end
  end.
End Ops.

(** ** Records for the peers of a query *)

Section Filed.
Context `{E : EnrLib} `{CK : OverlayContentKey} `{KL : KeyLib bytes} `{!KeyLibOk bytes}
  `{L : !Log2Lib bytes} {Q : Type} `{QI : !Query bytes Q}
  `{QO : !QueryOk bytes Q} `{QR : !QueryReports bytes Q}.
Implicit Types (v : QueryInfo.t * Q) (p : QueryPool.t Q QueryInfo.t).

Definition enr_ids (l : list Enr) : list bytes := map enr_node_id l.

(** The query keeps its invariant, and the records of all its peers are filed with it. *)
Definition filed v : Prop :=
  q_inv v.2 /\ peer_names (q_peers v.2) ⊆ enr_ids (QueryInfo.untrusted_enrs v.1).

Definition pool_filed p : Prop := map_Forall (fun _ v => filed v) (QueryPool.queries p).

Lemma add_query_filed p info q : pool_filed p -> filed (info, q) -> pool_filed (QueryPool.add_query p info q).1.
Proof. intros Hp Hv. by apply map_Forall_insert_2. Qed.

Lemma set_query_filed p id v : pool_filed p -> filed v -> pool_filed (QueryPool.set_query p id v).
Proof. intros Hp Hv. by apply map_Forall_insert_2. Qed.

(** A call keeps the query filed, as long as the records it reports are filed. *)
Lemma step_filed v e q' out enrs' :
  filed v -> step v.2 e = Ok (q', out) ->
  enr_ids (QueryInfo.untrusted_enrs v.1) ⊆ enr_ids enrs' ->
  (forall peer r, e = ESuccess peer r -> reported r ⊆ enr_ids enrs') ->
  forall ty tr, filed (QueryInfo.mk ty enrs' tr, q').
Proof.
  intros [Hq Hn] Hs Hsub Hrep ty tr. destruct (q_reports _ _ _ _ Hq Hs) as [Hnew _].
  destruct (q_step v.2 e Hq) as (q1 & out1 & E1 & Hq1 & _).
  rewrite Hs in E1. injection E1 as <- <-. split; [done|].
  intros n [Hold|(peer & r & -> & Hr)]%Hnew; [by apply Hsub, Hn | by eapply Hrep].
Qed.

(** A call that reports nobody. *)
Lemma step_filed_same v e q' out :
  filed v -> step v.2 e = Ok (q', out) -> (forall peer r, e <> ESuccess peer r) -> filed (v.1, q').
Proof.
  intros Hv Hs He. destruct v as [[ty l tr] q].
  apply (step_filed (QueryInfo.mk ty l tr, q) e q' out l Hv Hs); [done|].
  intros peer r ->. by destruct (He peer r).
Qed.

Lemma polled_filed now v v' : filed v -> QueryPool.polled now v v' -> filed v'.
Proof.
  intros Hv [H1 [s Hs]]. destruct v as [info q], v' as [info' q']. simpl in *. subst info'.
  assert (Hb : filed (info, QueryPool.begun now q)).
  { unfold QueryPool.begun. destruct (started q); [done|].
    by apply (step_filed_same (info, q) (EStart now) (start q now) None). }
  apply (step_filed_same _ (EPoll now) q' (Some s) Hb); [|done]. simpl. by rewrite Hs.
Qed.

Lemma query_event_poll_filed p now order p' ev :
  pool_filed p -> NoDup order -> query_event_poll p now order = Ok (p', ev) ->
  pool_filed p' /\ forall id n req, ev = Some (EvWaiting id n req) ->
    exists v, QueryPool.queries p' !! id = Some v /\ n ∈ enr_ids (QueryInfo.untrusted_enrs v.1).
Proof.
  intros Hp Hnd. unfold query_event_poll, QueryPool.poll.
  destruct (QueryPool.poll_queries_ok (QueryPool.query_timeout p) now order (QueryPool.queries p))
    as (qs & v & -> & _ & Hdom & _ & Hall & Hv); [intros id x Hx; apply (Hp id x Hx) | done |].
  assert (Hqs : map_Forall (fun _ v => filed v) qs).
  { intros id x Hx. assert (id ∈ dom (QueryPool.queries p)) as [y Hy]%elem_of_dom
      by (rewrite <- Hdom; by eapply elem_of_dom_2).
    destruct (Hall id y Hy) as (x' & Hx' & [->|Hpol]); simplify_eq; [by apply (Hp id)|].
    eapply polled_filed; [by apply (Hp id) | done]. }
  simpl. destruct v as [[id|id peer|id]|].
  - destruct Hv as (_ & x & q' & _ & -> & _). intros [= <- <-]. split; [by apply map_Forall_delete | by intros].
  - destruct Hv as (_ & [info q] & q' & Hx & Hx' & Hpoll). rewrite Hx'. simpl.
    destruct (Hqs id _ Hx') as [Hq' _].
    destruct (Hp id _ Hx) as [Hq Hn].
    destruct (QueryInfo.rpc_request info peer); intros H.
    + injection H as <- <-. split; [exact Hqs|]. intros id' n req [= <- <- _].
      exists (info, q'). split; [exact Hx'|]. simpl.
      assert (Hb : filed (info, QueryPool.begun now q)).
      { unfold QueryPool.begun. destruct (started q); [done|].
        by apply (step_filed_same (info, q) (EStart now) (start q now) None). }
      destruct Hb as [Hqb Hnb]. apply Hnb. simpl in Hpoll.
      apply (q_reports _ (EPoll now) q' (Some (QueryState.Waiting (Some peer))) Hqb); [|done].
      simpl. by rewrite Hpoll.
    + destruct (on_failure q' peer) as [q''| |] eqn:Ef; simplify_eq/=.
      split; [|by intros]. apply set_query_filed; [done|].
      apply (step_filed_same (info, q') (EFailure peer) q'' None); [by apply (Hqs id) | | done].
      simpl. by rewrite Ef.
    + done.
  - destruct Hv as (_ & x & q' & s & _ & -> & _). intros [= <- <-]. split; [by apply map_Forall_delete | by intros].
  - destruct (decide (qs = ∅)); intros [= <- <-]; (split; [done | by intros]).
Qed.

(** A record filed with a query of the pool is found. *)
Lemma find_in_queries_filed p order id v n :
  QueryPool.queries p !! id = Some v -> id ∈ order -> n ∈ enr_ids (QueryInfo.untrusted_enrs v.1) ->
  exists enr, find_in_queries (QueryPool.iter p order) n = Some enr.
Proof.
  intros Hv Hid Hn. unfold find_in_queries. set (f := fun v => List.find _ _).
  assert (Hf : exists enr, f v = Some enr).
  { apply list_elem_of_fmap in Hn as (enr & -> & Henr). subst f. simpl.
    destruct (List.find _ _) as [enr'|] eqn:Ef; [by exists enr'|].
    exfalso. pose proof (List.find_none _ _ Ef enr (proj1 (list_elem_of_In _ _) Henr)) as Hne.
    by apply bool_decide_eq_false in Hne. }
  destruct Hf as [enr Hf].
  assert (Hin : enr ∈ omap f (QueryPool.iter p order)).
  { apply list_elem_of_omap. exists v. split; [|done]. unfold QueryPool.iter.
    apply list_elem_of_omap. by exists id. }
  destruct (omap f (QueryPool.iter p order)) as [|e l]; [by apply elem_of_nil in Hin|]. by exists e.
Qed.
End Filed.

Section Contactable.
Context `{E : EnrLib} `{W : WireLib} `{CK : OverlayContentKey} `{KB : !KBucketsTable}
  `{KL : KeyLib bytes} `{!KeyLibOk bytes} `{L : !Log2Lib bytes} {St : Type} `{CS : !ContentStore St}.
Implicit Types (self : t St).

Definition queries_filed self : Prop :=
  pool_filed (find_node_query_pool self) /\ pool_filed (find_content_query_pool self)
  /\ config_ok (query_config self).

(** What leaves the lookups alone. *)
Definition same_queries self self' : Prop :=
  find_node_query_pool self' = find_node_query_pool self
  /\ find_content_query_pool self' = find_content_query_pool self
  /\ query_config self' = query_config self.

#[global] Instance same_queries_preorder : PreOrder same_queries.
Proof. split; [by intros x|]. intros x y z (H1 & H2 & H3) (H4 & H5 & H6). repeat split; congruence. Qed.

Lemma same_queries_filed self self' : same_queries self self' -> queries_filed self -> queries_filed self'.
Proof. unfold queries_filed. intros (-> & -> & ->). done. Qed.

Lemma process_discovered_enr_same self enr : same_queries self (process_discovered_enr self enr).
Proof. unfold process_discovered_enr, entry. simpl. by repeat case_match. Qed.

Lemma process_discovered_enrs_same self enrs : same_queries self (process_discovered_enrs self enrs).
Proof.
  revert self. induction enrs as [|enr enrs IH]; intros self; simpl; [done|].
  etransitivity; [apply (process_discovered_enr_same self enr) | apply IH].
Qed.

Lemma find_enr_same self o n : same_queries self (find_enr self o n).1 /\ effects (find_enr self o n).1 = effects self.
Proof. unfold find_enr, entry. simpl. by repeat case_match. Qed.

Lemma find_enr_filed self o n self' found :
  queries_filed self -> find_enr self o n = (self', found) -> queries_filed self'.
Proof.
  intros Hq Hf. pose proof (find_enr_same self o n) as [Hs _]. rewrite Hf in Hs.
  by apply (same_queries_filed self).
Qed.

Lemma emit_filed self e : queries_filed self -> queries_filed (emit self e).
Proof. done. Qed.

Lemma collect_enrs_same self o untrusted result : same_queries self (collect_enrs self o untrusted result).1.
Proof.
  revert self untrusted. induction result as [|n result IH]; intros self untrusted; simpl; [done|].
  destruct (list_find _ untrusted) as [[i enr]|]; [apply IH|].
  pose proof (find_enr_same self o n) as [Hs _].
  destruct (find_enr self o n) as [self' found]. simpl in *. etransitivity; [exact Hs | apply IH].
Qed.

(** ** Starting and advancing lookups *)

Lemma init_find_nodes_filed self target cb :
  queries_filed self -> queries_filed (init_find_nodes_query self target cb).1.
Proof.
  intros (Hn & Hc & Hcfg). unfold init_find_nodes_query.
  set (l := closest_connected_nodes _ _ _). destruct l as [|enr l']; [by destruct cb|].
  simpl. split_and!; [|done | done]. apply add_query_filed; [done|]. split; simpl.
  - apply FindNodeQuery.with_config_inv; [done|]. apply Forall_forall.
    intros k [->|(e & -> & _)%list_elem_of_fmap]%elem_of_cons; by rewrite preimage_into.
  - intros n Hin. eapply (initial_peers_names _ _ (enr_ids (enr :: l'))).
    unfold enr_ids. rewrite map_map. exact Hin.
Qed.

Lemma init_find_content_filed self target cb tr now :
  queries_filed self -> queries_filed (init_find_content_query self target cb tr now).1.
Proof.
  intros (Hn & Hc & Hcfg). unfold init_find_content_query.
  set (l := closest_connected_nodes _ _ _). destruct l as [|enr l']; [by destruct cb|].
  simpl. split_and!; [done | | done]. apply add_query_filed; [done|]. split; simpl.
  - apply lookup_inv_initial; [done|]. apply Forall_forall.
    intros k [->|(e & -> & _)%list_elem_of_fmap]%elem_of_cons; by rewrite preimage_into.
  - intros n Hin. eapply (initial_peers_names _ _ (enr_ids (enr :: l'))).
    unfold enr_ids. rewrite map_map. exact Hin.
Qed.

Lemma enr_ids_app l1 l2 : enr_ids (l1 ++ l2) = enr_ids l1 ++ enr_ids l2.
Proof. apply map_app. Qed.

Lemma existsb_enr (P : Enr -> bool) l enr :
  existsb P l = true -> (forall e, P e = true -> enr_node_id e = enr_node_id enr) ->
  enr_node_id enr ∈ enr_ids l.
Proof.
  intros (e & Hin & He)%existsb_exists HP. rewrite <- (HP e He).
  by apply (list_elem_of_fmap_2 enr_node_id), list_elem_of_In.
Qed.

Lemma add_untrusted_ids local enrs untrusted :
  let l := fold_left (add_untrusted local) enrs untrusted in
  enr_ids untrusted ⊆ enr_ids l /\ enr_ids enrs ⊆ enr_ids l.
Proof.
  revert untrusted. induction enrs as [|enr enrs IH]; intros untrusted; simpl; [set_solver|].
  destruct (IH (add_untrusted local untrusted enr)) as [H1 H2].
  assert (Ha : enr_ids untrusted ⊆ enr_ids (add_untrusted local untrusted enr)
               /\ enr_node_id enr ∈ enr_ids (add_untrusted local untrusted enr)).
  { unfold add_untrusted. destruct (existsb _ untrusted) eqn:Ex; simpl.
    - split; [done|]. eapply existsb_enr; [exact Ex|]. intros e [He _]%andb_true_iff.
      by apply bool_decide_eq_true in He.
    - rewrite enr_ids_app. set_solver. }
  set_solver.
Qed.

Lemma add_new_untrusted_ids enrs acc :
  let l := (fold_left add_new_untrusted enrs acc).1 in
  enr_ids acc.1 ⊆ enr_ids l /\ enr_ids enrs ⊆ enr_ids l.
Proof.
  revert acc. induction enrs as [|enr enrs IH]; intros acc; simpl; [set_solver|].
  destruct (IH (add_new_untrusted acc enr)) as [H1 H2].
  assert (Ha : enr_ids acc.1 ⊆ enr_ids (add_new_untrusted acc enr).1
               /\ enr_node_id enr ∈ enr_ids (add_new_untrusted acc enr).1).
  { unfold add_new_untrusted. destruct (existsb _ acc.1) eqn:Ex; simpl.
    - split; [done|]. eapply existsb_enr; [exact Ex|]. intros e He. by apply bool_decide_eq_true in He.
    - rewrite enr_ids_app. set_solver. }
  set_solver.
Qed.

Lemma advance_find_node_query_filed self source enrs id self' :
  queries_filed self -> advance_find_node_query self source enrs id = Ok self' -> queries_filed self'.
Proof.
  intros (Hn & Hc & Hcfg). unfold advance_find_node_query, QueryPool.get_mut.
  destruct (QueryPool.queries (find_node_query_pool self) !! id) as [[info q]|] eqn:Ev;
    [|by intros [= <-]].
  destruct (FindNodeQuery.on_success _ _ _) as [q'| |] eqn:Es; simpl; [|done..]. intros [= <-].
  split_and!; [|done | done]. apply set_query_filed; [done|].
  destruct (add_untrusted_ids (enr_node_id (local_enr self)) enrs (QueryInfo.untrusted_enrs info)) as [H1 H2].
  apply (step_filed (info, q)
           (ESuccess (QI := FindNodeQuery.query) (enr_node_id source) (map enr_node_id enrs)) q' None);
    [by apply (Hn id) | simpl; by rewrite Es | done |].
  by intros peer r [= <- <-].
Qed.

Lemma content_success_filed self id info q peer r q' untrusted tr :
  queries_filed self -> QueryPool.queries (find_content_query_pool self) !! id = Some (info, q) ->
  FindContentQuery.on_success q peer r = Ok q' ->
  enr_ids (QueryInfo.untrusted_enrs info) ⊆ enr_ids untrusted ->
  FindContentQuery.closer_peers r ⊆ enr_ids untrusted ->
  queries_filed (set_content_pool self (QueryPool.set_query (find_content_query_pool self) id
    (QueryInfo.mk (QueryInfo.query_type info) untrusted tr, q'))).
Proof.
  intros (Hn & Hc & Hcfg) Ev Es H1 H2. split_and!; [done | | done]. apply set_query_filed; [done|].
  apply (step_filed (info, q) (ESuccess (QI := FindContentQuery.query) peer r) q' None); [by apply (Hc id) | simpl; by rewrite Es | done |].
  by intros peer' r' [= <- <-].
Qed.

Lemma advance_with_enrs_filed self id source enrs now self' :
  queries_filed self -> advance_find_content_query_with_enrs self id source enrs now = Ok self' ->
  queries_filed self'.
Proof.
  intros Hq. unfold advance_find_content_query_with_enrs, QueryPool.get_mut.
  destruct (QueryPool.queries (find_content_query_pool self) !! id) as [[info q]|] eqn:Ev;
    [|by intros [= <-]].
  set (remote := filter _ enrs).
  pose proof (add_new_untrusted_ids remote (QueryInfo.untrusted_enrs info, [])) as [H1 H2].
  destruct (fold_left add_new_untrusted remote _) as [untrusted new].
  destruct (FindContentQuery.on_success _ _ _) as [q'| |] eqn:Es; simpl; [|done..]. intros [= <-].
  by eapply content_success_filed.
Qed.

Lemma advance_with_filed self id source r now self' :
  queries_filed self -> FindContentQuery.closer_peers r = [] ->
  advance_find_content_query_with self id source r now = Ok self' -> queries_filed self'.
Proof.
  intros Hq Hr. unfold advance_find_content_query_with, QueryPool.get_mut.
  destruct (QueryPool.queries (find_content_query_pool self) !! id) as [[info q]|] eqn:Ev;
    [|by intros [= <-]].
  destruct (FindContentQuery.on_success _ _ _) as [q'| |] eqn:Es; simpl; [|done..]. intros [= <-].
  eapply content_success_filed; [done..|]. rewrite Hr. set_solver.
Qed.

(** ** The service as it runs *)

(** The failure of a node lookup at a peer. *)
Lemma node_failure_filed self id info q n q' :
  queries_filed self -> QueryPool.get_mut (find_node_query_pool self) id = Some (info, q) ->
  FindNodeQuery.on_failure q n = Ok q' ->
  queries_filed (set_node_pool self (QueryPool.set_query (find_node_query_pool self) id (info, q'))).
Proof.
  intros (Hn & Hc & Hcfg) Ev Ef. split_and!; [|done | done]. apply set_query_filed; [done|].
  apply (step_filed_same (info, q) (EFailure n) q' None); [by apply (Hn id) | | done].
  simpl. by rewrite Ef.
Qed.

(** What happens to the lookups: they are started, polled, their events are handled and
    responses are fed into them; everything else leaves them alone. *)
Inductive service_step : t St -> t St -> Prop :=
| step_init_nodes self target cb : service_step self (init_find_nodes_query self target cb).1
| step_init_content self target cb tr now : service_step self (init_find_content_query self target cb tr now).1
| step_poll_nodes self now order p ev :
    QueryPool.traversal order (QueryPool.queries (find_node_query_pool self)) ->
    query_event_poll (find_node_query_pool self) now order = Ok (p, ev) ->
    service_step self (set_node_pool self p)
| step_poll_content self now order p ev :
    QueryPool.traversal order (QueryPool.queries (find_content_query_pool self)) ->
    query_event_poll (find_content_query_pool self) now order = Ok (p, ev) ->
    service_step self (set_content_pool self p)
| step_node_event self o ev self' :
    handle_find_nodes_query_event self o ev = Ok self' -> service_step self self'
| step_content_event self o ev self' :
    handle_find_content_query_event self o ev = Ok self' -> service_step self self'
| step_nodes self nodes source id self' :
    process_nodes self nodes source id = Ok self' -> service_step self self'
| step_content self content source id now self' :
    process_content self content source id now = Ok self' -> service_step self self'
| step_other self self' : same_queries self self' -> service_step self self'.

Lemma node_event_filed self o ev self' :
  queries_filed self -> handle_find_nodes_query_event self o ev = Ok self' -> queries_filed self'.
Proof.
  intros Hq. destruct ev as [id n req|id info q|id info q]; simpl.
  - destruct (find_enr self o n) as [s1 [enr|]] eqn:Hs; apply (find_enr_filed _ _ _ _ _ Hq) in Hs;
      [by intros [= <-]|].
    destruct (QueryPool.get_mut _ id) as [[info q]|] eqn:Ev; [|by intros [= <-]].
    destruct (FindNodeQuery.on_failure q n) as [q'| |] eqn:Ef; simpl; [|done..]. intros [= <-].
    by eapply (node_failure_filed s1).
  - set (u := QueryInfo.untrusted_enrs info). set (r := FindNodeQuery.into_result q).
    pose proof (collect_enrs_same self o u r) as Hs. destruct (collect_enrs self o u r) as [s1 found].
    apply (same_queries_filed _ _ Hs) in Hq. simpl in Hq.
    intros H. by repeat (case_hyp H; simplify_eq/=).
  - set (u := QueryInfo.untrusted_enrs info). set (r := FindNodeQuery.into_result q).
    pose proof (collect_enrs_same self o u r) as Hs. destruct (collect_enrs self o u r) as [s1 found].
    apply (same_queries_filed _ _ Hs) in Hq. simpl in Hq.
    intros H. by repeat (case_hyp H; simplify_eq/=).
Qed.

Lemma content_event_filed self o ev self' :
  queries_filed self -> handle_find_content_query_event self o ev = Ok self' -> queries_filed self'.
Proof.
  intros Hq. destruct ev as [id n req|id info q|id info q]; simpl.
  - destruct (find_enr self o n) as [s1 [enr|]] eqn:Hs; apply (find_enr_filed _ _ _ _ _ Hq) in Hs;
      [by intros [= <-]|].
    destruct (QueryPool.get_mut _ id) as [[info q]|] eqn:Ev; [|by intros [= <-]].
    destruct (FindNodeQuery.on_failure q n) as [q'| |] eqn:Ef; simpl; [|done..]. intros [= <-].
    by eapply node_failure_filed.
  - intros H. repeat (case_hyp H; simplify_eq/=); repeat case_match;
      eauto using find_enr_filed, emit_filed.
  - intros H. repeat (case_hyp H; simplify_eq/=); repeat case_match;
      eauto using find_enr_filed, emit_filed.
Qed.

Lemma service_step_filed self self' : queries_filed self -> service_step self self' -> queries_filed self'.
Proof.
  intros Hq. destruct 1 as [self target cb|self target cb tr now|self now order p ev [Hnd _] Hp
    |self now order p ev [Hnd _] Hp|self o ev self' H|self o ev self' H|self nodes source id self' H
    |self content source id now self' H|self self' H].
  - by apply init_find_nodes_filed.
  - by apply init_find_content_filed.
  - destruct Hq as (Hn & Hc & Hcfg). destruct (query_event_poll_filed _ _ _ _ _ Hn Hnd Hp) as [? _].
    by split_and!.
  - destruct Hq as (Hn & Hc & Hcfg). destruct (query_event_poll_filed _ _ _ _ _ Hc Hnd Hp) as [? _].
    by split_and!.
  - by eapply node_event_filed.
  - by eapply content_event_filed.
  - apply (same_queries_filed _ _ (process_discovered_enrs_same self (enrs nodes))) in Hq.
    unfold process_nodes in H. destruct id; [|by simplify_eq].
    by eapply advance_find_node_query_filed.
  - pose proof (same_queries_filed _ _ (process_discovered_enrs_same self
      match content with Enrs l => l | _ => [] end) Hq) as Hq'.
    unfold process_content in H.
    destruct content, id; simplify_eq; try done; simpl in Hq'.
    + by eapply advance_with_filed in H.
    + by eapply advance_with_filed in H.
    + by eapply advance_with_enrs_filed in H.
  - by eapply same_queries_filed.
Qed.

(** A peer whose record is filed with a query of one of the pools is found. *)
Lemma find_enr_filed_some self o n (in_nodes : bool) id :
  (if in_nodes then exists v, QueryPool.queries (find_node_query_pool self) !! id = Some v
     /\ n ∈ enr_ids (QueryInfo.untrusted_enrs v.1) /\ id ∈ node_order o
   else exists v, QueryPool.queries (find_content_query_pool self) !! id = Some v
     /\ n ∈ enr_ids (QueryInfo.untrusted_enrs v.1) /\ id ∈ content_order o) ->
  exists enr, (find_enr self o n).2 = Some enr.
Proof.
  intros Hin. unfold find_enr, entry. simpl.
  set (e := (kb_entry _ n).2). destruct e; [by eexists| |].
  all: destruct (cached_node_addr self n); [by eexists|]; destruct in_nodes; destruct Hin as (v & Hv & Hn & Hid).
  all: destruct (find_in_queries_filed _ _ _ _ _ Hv Hid Hn) as [enr Hf]; rewrite Hf.
  all: repeat case_match; by eexists.
Qed.

(** C13: Whatever the service does, every peer that one of its lookups wants to contact
    has a known record: the event of a poll of either pool is answered by sending the
    request of the query to such a record, so the branch for peers with an unknown
    record, which for content lookups reports the failure to the wrong pool, is never
    reached from a poll. *)
Theorem query_peers_contactable self0 self :
  QueryPool.queries (find_node_query_pool self0) = ∅ ->
  QueryPool.queries (find_content_query_pool self0) = ∅ ->
  config_ok (query_config self0) -> rtc service_step self0 self ->
  (forall now order p id n req o,
     QueryPool.traversal order (QueryPool.queries (find_node_query_pool self)) ->
     query_event_poll (find_node_query_pool self) now order = Ok (p, Some (EvWaiting id n req)) ->
     QueryPool.traversal (node_order o) (QueryPool.queries p) ->
     exists enr self', handle_find_nodes_query_event (set_node_pool self p) o (EvWaiting id n req) = Ok self'
       /\ effects self' = effects self ++ [Command req enr (Some id)])
  /\ (forall now order p id n req o,
     QueryPool.traversal order (QueryPool.queries (find_content_query_pool self)) ->
     query_event_poll (find_content_query_pool self) now order = Ok (p, Some (EvWaiting id n req)) ->
     QueryPool.traversal (content_order o) (QueryPool.queries p) ->
     exists enr self', handle_find_content_query_event (set_content_pool self p) o (EvWaiting id n req) = Ok self'
       /\ effects self' = effects self ++ [Command req enr (Some id)]).
Proof.
  intros H1 H2 H3 Hr.
  assert (Hq : queries_filed self).
  { assert (H0 : queries_filed self0) by (unfold queries_filed, pool_filed; rewrite H1, H2; done).
    clear H1 H2 H3. induction Hr as [|x y z Hxy _ IH]; [done|]. apply IH. by eapply service_step_filed. }
  destruct Hq as (Hn & Hc & _). split.
  - intros now order p id n req o [Hnd _] Hp [_ Ho].
    destruct (query_event_poll_filed _ _ _ _ _ Hn Hnd Hp) as [_ Hw].
    destruct (Hw _ _ _ eq_refl) as (v & Hv & Hin).
    destruct (find_enr_filed_some (set_node_pool self p) o n true id) as [enr He].
    { exists v. split_and!; [done | done |]. apply Ho. by eapply elem_of_dom_2. }
    destruct (find_enr_same (set_node_pool self p) o n) as [_ Heff]. simpl.
    destruct (find_enr (set_node_pool self p) o n) as [s1 found]. simpl in He, Heff. subst found.
    exists enr. eexists. split; [done|]. simpl. by rewrite Heff.
  - intros now order p id n req o [Hnd _] Hp [_ Ho].
    destruct (query_event_poll_filed _ _ _ _ _ Hc Hnd Hp) as [_ Hw].
    destruct (Hw _ _ _ eq_refl) as (v & Hv & Hin).
    destruct (find_enr_filed_some (set_content_pool self p) o n false id) as [enr He].
    { exists v. split_and!; [done | done |]. apply Ho. by eapply elem_of_dom_2. }
    destruct (find_enr_same (set_content_pool self p) o n) as [_ Heff]. simpl.
    destruct (find_enr (set_content_pool self p) o n) as [s1 found]. simpl in He, Heff. subst found.
    exists enr. eexists. split; [done|]. simpl. by rewrite Heff.
Qed.

(** The failure of a content lookup at a peer without a record never reaches the lookup. *)
Theorem unknown_record_wrong_pool self o id n req self' :
  (find_enr self o n).2 = None ->
  handle_find_content_query_event self o (EvWaiting id n req) = Ok self' ->
  find_content_query_pool self' = find_content_query_pool self.
Proof.
  intros Hf. simpl. pose proof (find_enr_same self o n) as [(_ & Hs & _) _].
  destruct (find_enr self o n) as [s1 found]. simpl in *. subst found. intros H.
  repeat (case_hyp H; simplify_eq/=); done.
Qed.

(** ** Starting up *)

(** No node is connected, nor pending as connected. *)
Definition nobody_connected self : Prop :=
  forall e, e ∈ kb_buckets (kbuckets self) ++ kb_pending (kbuckets self) -> is_connected e.2 = false.

Lemma add_bootnodes_disconnected `{!KBucketsTableOk} self enrs :
  nobody_connected self -> nobody_connected (add_bootnodes self enrs false)
  /\ same_queries self (add_bootnodes self enrs false) /\ effects (add_bootnodes self enrs false) = effects self.
Proof.
  revert self. induction enrs as [|enr enrs IH]; intros self Hd; [done|]. simpl.
  assert (Hone : nobody_connected (add_bootnode false self enr) /\ same_queries self (add_bootnode false self enr)
                 /\ effects (add_bootnode false self enr) = effects self).
  { split; [|unfold add_bootnode; by case_match].
    intros e He. assert (Hk : kbuckets (add_bootnode false self enr)
      = (kb_insert_or_update (kbuckets self) (enr_node_id enr)
           {| node_enr := enr; node_data_radius := Distance_MAX |}
           {| status_state := Disconnected; status_direction := Outgoing |}).1)
      by (unfold add_bootnode; by case_match).
    rewrite Hk in He. apply kb_insert_states in He as [He|(e0 & He0 & He)]; unfold is_connected; rewrite He; [done|].
    by apply Hd in He0. }
  destruct Hone as (H1 & H2 & H3). destruct (IH _ H1) as (H4 & H5 & H6).
  split_and!; [done | by etransitivity | congruence].
Qed.

Lemma init_find_nodes_disconnected self target :
  nobody_connected self -> (init_find_nodes_query self target None) = (self, None).
Proof.
  intros Hd. unfold init_find_nodes_query, closest_connected_nodes.
  rewrite filter_none; [simpl; by rewrite take_nil|].
  intros e He Hc. rewrite Hd in Hc; [done|]. apply elem_of_app. by left.
Qed.

(** At start-up the bootnodes are entered as disconnected, so the lookups that
    [initialize_routing_table] is to begin with are never started. *)
Theorem bootstrap_starts_no_lookup `{!KBucketsTableOk} self bootnodes targets :
  nobody_connected self ->
  let self' := initialize_routing_table self bootnodes targets in
  same_queries self self' /\ effects self' = effects self.
Proof.
  intros Hd. unfold initialize_routing_table.
  destruct (add_bootnodes_disconnected self bootnodes Hd) as (H1 & H2 & H3).
  rewrite init_find_nodes_disconnected by done. simpl.
  assert (Hall : fold_left (fun s target => (init_find_nodes_query s target None).1) targets
                   (add_bootnodes self bootnodes false) = add_bootnodes self bootnodes false).
  { induction targets as [|target targets IH]; simpl; [done|]. by rewrite init_find_nodes_disconnected. }
  by rewrite Hall.
Qed.
End Contactable.
End OverlayQuery.

(** ** The theorem at work *)

Definition lookup_service : OverlayService.t MemoryContentStore.t :=
  (OverlayQuery.init_find_content_query service_a other_key (Some 7) false 0).1.

Definition lookup_polled := OverlayQuery.query_event_poll
  (OverlayService.find_content_query_pool lookup_service) 0 [0].

Definition lookup_pool := match lookup_polled with
  | Ok r => r.1 | _ => OverlayService.find_content_query_pool lookup_service end.

(** The peer and the request of a poll that wants to contact somebody. *)
Definition wants {A Q Info} (r : res Empty_set (A * option (QueryEvent Q Info))) : option (Z * bytes * Request.t) :=
  match r with Ok (_, Some (EvWaiting id n req)) => Some (id, n, req) | _ => None end.

Lemma wants_waiting {A Q Info} (r : res Empty_set (A * option (QueryEvent Q Info))) a id n req :
  wants r = Some (id, n, req) ->
  r = Ok (match r with Ok x => x.1 | _ => a end, Some (EvWaiting id n req)).
Proof. destruct r as [[x [[]|]]| |]; by intros [= -> -> ->]. Qed.

Lemma query_peers_contactable_witness :
  exists enr service', OverlayQuery.handle_find_content_query_event
      (OverlayQuery.set_content_pool lookup_service lookup_pool)
      {| OverlayQuery.node_order := []; OverlayQuery.content_order := [0] |}
      (EvWaiting 0 (toy_id x01) (Request.FindContent {| content_key := replicate 32 x0c |})) = Ok service'
    /\ OverlayService.effects service'
       = [OverlayService.Command (Request.FindContent {| content_key := replicate 32 x0c |}) enr (Some 0)].
Proof.
  assert (Ht : forall pool : QueryPool.t (FindContentQuery.t bytes) QueryInfo.t,
    dom (QueryPool.queries pool) = {[ 0 ]} -> QueryPool.traversal [0] (QueryPool.queries pool)).
  { intros pool Hd. split; [apply NoDup_singleton|]. intros id. rewrite Hd, list_elem_of_singleton.
    by rewrite elem_of_singleton. }
  destruct (OverlayQuery.query_peers_contactable service_a lookup_service) as [_ H].
  - reflexivity.
  - reflexivity.
  - split_and!; vm_compute; (split; [discriminate | reflexivity]) || discriminate.
  - apply rtc_once, OverlayQuery.step_init_content.
  - apply (H 0 [0] lookup_pool 0 (toy_id x01)); [apply Ht; vm_compute; reflexivity | | apply Ht; vm_compute; reflexivity].
    apply (wants_waiting lookup_polled (OverlayService.find_content_query_pool lookup_service)). vm_compute. reflexivity.
Defined.
