(* ===== verification/Gossip.v ===== *)
(** * Neighborhood gossip.

    [portalnet/src/gossip.rs]: who is offered a piece of content.  The random choice
    among the nodes that are farther away is the class [RandomLib], the text form of a
    node record, under which offers are collected, the class [EnrText]; the traversal of
    the hash map is an argument. *)

From stdpp Require Import gmap sets.
From S2P Require Import Prelude.
From S2P Require Import Distance.
From S2P Require Import ContentKey.
From S2P Require Import Query.
From S2P Require Import FindNodes.
From S2P Require Import FindContent.
From S2P Require Import QueryPool.
From S2P Require Import Wire.
From S2P Require Import QueryTrace.
From S2P Require Import QueryInfo.
From S2P Require Import ContentStore.
From S2P Require Import Overlay.

(** [IteratorRandom::choose_multiple]; the first argument tells the calls apart. *)
Class RandomLib := { choose_multiple : nat -> forall {A}, list A -> nat -> list A }.

(** It picks as many elements as asked for, or all of them, at different positions. *)
Class RandomLibOk (R : RandomLib) : Prop := {
  choose_multiple_spec call {A} (l : list A) n :
    length (choose_multiple call l n) = Nat.min n (length l)
    /\ exists rest, choose_multiple call l n ++ rest ≡ₚ l;
}.

(** [Enr::to_base64] and [Enr::from_str]. *)
Class EnrText `{E : EnrLib} := {
  to_base64 : Enr -> bytes;
  enr_from_str : bytes -> option Enr;
}.

Class EnrTextOk `{T : EnrText} : Prop := { from_str_to_base64 e : enr_from_str (to_base64 e) = Some e }.

Module Gossip.
Import OverlayService.

Section Ops.
Context `{E : EnrLib} `{T : !EnrText} `{R : RandomLib} `{CK : OverlayContentKey} `{KB : !KBucketsTable}
  `{KL : KeyLib bytes} {St : Type}.
Implicit Types (self : t St).

Definition NUM_CLOSEST_NODES : nat := 4.
Definition NUM_FARTHER_NODES : nat := 4.

Definition select_random_enrs (call num_enrs : nat) (enrs : list Enr) : list Enr :=
  choose_multiple call enrs num_enrs.

Definition select_gossip_recipients (call : nat) (interested_sorted_enrs : list Enr) : list Enr :=
  let gossip_recipients := take NUM_CLOSEST_NODES interested_sorted_enrs in
  if (NUM_CLOSEST_NODES <? length interested_sorted_enrs)%nat then
    let farther_enrs := drop NUM_CLOSEST_NODES interested_sorted_enrs in
    gossip_recipients ++ select_random_enrs call NUM_FARTHER_NODES farther_enrs
  else gossip_recipients.

Definition interested (key : ContentKey) (e : bytes * Node * NodeStatus) : Prop :=
  distance (content_id key) e.1.1 < node_data_radius e.1.2.

#[global] Instance interested_dec key e : Decision (interested key e).
Proof. unfold interested. apply _. Defined.

Definition calculate_interested_enrs (call : nat) (key : ContentKey) 
    (all_nodes : list (bytes * Node * NodeStatus)) : list Enr :=
  let interested_enrs := map (fun e => node_enr e.1.2) (filter (interested key) all_nodes) in
  match interested_enrs with
  | [] => []
  | _ =>
      select_gossip_recipients call
        (sort_by (fun enr => distance (content_id key) (enr_node_id enr)) interested_enrs)
  end.

(** [enrs_and_content.entry(..).or_default().push(..)]. *)
Definition push_item (m : gmap bytes (list (bytes * bytes))) (enr : Enr) (item : bytes * bytes) :=
  <[to_base64 enr := default [] (m !! to_base64 enr) ++ [item]]> m.

(** The loop over the content, numbered. *)
Definition collect_offers (all_nodes : list (bytes * Node * NodeStatus))
    (content : list (nat * (ContentKey * bytes))) : gmap bytes (list (bytes * bytes)) :=
  fold_left (fun m kv =>
    let interested_enrs := calculate_interested_enrs kv.1 kv.2.1 all_nodes in
    let raw_item := (key_to_bytes kv.2.1, kv.2.2) in
    fold_left (fun m enr => push_item m enr raw_item) interested_enrs m) content ∅.

Definition enrs_and_content (content : list (ContentKey * bytes))
    (all_nodes : list (bytes * Node * NodeStatus)) : gmap bytes (list (bytes * bytes)) :=
  collect_offers all_nodes (imap pair content).

Definition connected_nodes self : list (bytes * Node * NodeStatus) :=
  filter (fun e => is_connected e.2 = true) (kb_buckets (kbuckets self)).

(** The offer to the node that is filed under a text. *)
Definition send_offer (m : gmap bytes (list (bytes * bytes))) self (enr_string : bytes) : t St :=
  match m !! enr_string with
  | None => self
  | Some interested_content =>
      match enr_from_str enr_string with
      | Some enr =>
          emit self (Command (Request.PopulatedOffer {| content_items := interested_content |}) enr None)
      | None => self
      end
  end.

(** The service with the commands it was sent, and the number of peers. *)
Definition propagate_gossip_cross_thread self (content : list (ContentKey * bytes)) (order : list bytes)
    : t St * Z :=
  match connected_nodes self with
  | [] => (self, 0)
  | all_nodes =>
      let m := enrs_and_content content all_nodes in
      let num_propagated_peers := Z.of_nat (size m) in
      (fold_left (send_offer m) order self, num_propagated_peers)
  end.
End Ops.

(** ** Who is offered what *)

Section Correct.
Context `{E : EnrLib} `{T : !EnrText} `{R : RandomLib} `{CK : OverlayContentKey} `{KB : !KBucketsTable}
  `{KL : KeyLib bytes} {St : Type} `{!EnrTextOk} `{!RandomLibOk R}.
Implicit Types (self : t St) (nodes : list (bytes * Node * NodeStatus)).

#[local] Instance to_base64_inj : Inj (=) (=) to_base64.
Proof. intros a b Hab. apply (f_equal enr_from_str) in Hab. rewrite !from_str_to_base64 in Hab. by simplify_eq. Qed.

(** The selected nodes: the four closest and at most four others. *)
Lemma select_recipients_spec call l :
  exists far rest, select_gossip_recipients call l = take NUM_CLOSEST_NODES l ++ far
    /\ far ++ rest ≡ₚ drop NUM_CLOSEST_NODES l /\ (length far <= NUM_FARTHER_NODES)%nat.
Proof.
  unfold select_gossip_recipients, select_random_enrs.
  destruct (Nat.ltb_spec NUM_CLOSEST_NODES (length l)).
  - destruct (choose_multiple_spec call (drop NUM_CLOSEST_NODES l) NUM_FARTHER_NODES) as (Hl & rest & Hp).
    exists (choose_multiple call (drop NUM_CLOSEST_NODES l) NUM_FARTHER_NODES), rest. split_and!; [done | done | lia].
  - exists [], []. rewrite app_nil_r, drop_ge by lia. split_and!; [done | done | simpl; lia].
Qed.

Definition interested_enrs key nodes : list Enr :=
  map (fun e => node_enr e.1.2) (filter (interested key) nodes).

Lemma recipients_eq call key nodes :
  calculate_interested_enrs call key nodes
  = select_gossip_recipients call
      (sort_by (fun enr => distance (content_id key) (enr_node_id enr)) (interested_enrs key nodes)).
Proof. unfold calculate_interested_enrs. fold (interested_enrs key nodes). by destruct (interested_enrs key nodes). Qed.

Lemma recipients_perm call key nodes :
  exists rest, calculate_interested_enrs call key nodes ++ rest ≡ₚ interested_enrs key nodes.
Proof.
  rewrite recipients_eq. destruct (select_recipients_spec call (sort_by
    (fun enr => distance (content_id key) (enr_node_id enr)) (interested_enrs key nodes)))
    as (far & rest & -> & Hp & _).
  exists rest. rewrite <- app_assoc, Hp, take_drop. apply sort_by_perm.
Qed.

Lemma recipients_nodup call key nodes :
  NoDup (map (fun e => node_enr e.1.2) nodes) -> NoDup (calculate_interested_enrs call key nodes).
Proof.
  intros Hnd. destruct (recipients_perm call key nodes) as [rest Hp].
  assert (Hi : NoDup (interested_enrs key nodes)).
  { unfold interested_enrs. eapply sublist_NoDup; [exact Hnd|].
    apply fmap_sublist, sublist_filter. }
  rewrite <- Hp in Hi. by apply NoDup_app in Hi as [? _].
Qed.

(** ** Collecting the offers *)

Lemma push_all_lookup l item m e :
  NoDup l ->
  fold_left (fun m enr => push_item m enr item) l m !! to_base64 e
  = if decide (e ∈ l) then Some (default [] (m !! to_base64 e) ++ [item]) else m !! to_base64 e.
Proof.
  intros Hnd. revert m. induction Hnd as [|x l Hx Hnd IH]; intros m; [done|]. simpl. rewrite IH.
  unfold push_item. destruct (decide (x = e)) as [->|Hne].
  - rewrite lookup_insert_eq. rewrite decide_False by done. by rewrite decide_True by set_solver.
  - rewrite lookup_insert_ne by (by intros ?%to_base64_inj).
    destruct (decide (e ∈ l)); [rewrite decide_True by set_solver | rewrite decide_False by set_solver]; done.
Qed.

(** The items offered to a node: those it was selected for, in order. *)
Definition items_for nodes (content : list (nat * (ContentKey * bytes))) (e : Enr) : list (bytes * bytes) :=
  map (fun kv => (key_to_bytes kv.2.1, kv.2.2))
    (filter (fun kv => e ∈ calculate_interested_enrs kv.1 kv.2.1 nodes) content).

Lemma collect_offers_snoc nodes content i k v :
  collect_offers nodes (content ++ [(i, (k, v))])
  = fold_left (fun m enr => push_item m enr (key_to_bytes k, v)) (calculate_interested_enrs i k nodes)
      (collect_offers nodes content).
Proof. unfold collect_offers. by rewrite fold_left_app. Qed.

Lemma collect_offers_lookup nodes content e :
  NoDup (map (fun e => node_enr e.1.2) nodes) ->
  collect_offers nodes content !! to_base64 e
  = match items_for nodes content e with [] => None | l => Some l end.
Proof.
  intros Hnd. induction content as [|[i [k v]] content IH] using rev_ind; [apply lookup_empty|].
  rewrite collect_offers_snoc, push_all_lookup by (by apply recipients_nodup). rewrite IH.
  unfold items_for. rewrite filter_app, map_app, filter_cons, filter_nil. simpl.
  case_decide; simpl; [|by rewrite app_nil_r]. by destruct (map _ (filter _ content)).
Qed.

Lemma collect_offers_keys nodes content s :
  is_Some (collect_offers nodes content !! s) -> exists e, s = to_base64 e.
Proof.
  induction content as [|[i [k v]] content IH] using rev_ind.
  { intros [x Hx]. unfold collect_offers in Hx. simpl in Hx. by rewrite lookup_empty in Hx. }
  rewrite collect_offers_snoc. revert IH. generalize (collect_offers nodes content).
  induction (calculate_interested_enrs i k nodes) as [|x l IHl]; intros m IH; simpl; [exact IH|].
  apply IHl. unfold push_item. destruct (decide (to_base64 x = s)) as [<-|Hne]; [eauto|].
  rewrite lookup_insert_ne by done. exact IH.
Qed.

(** The commands of a traversal of the map. *)
Definition offers_to (m : gmap bytes (list (bytes * bytes))) (order : list bytes) : list effect :=
  omap (fun s => match m !! s, enr_from_str s with
                 | Some items, Some enr =>
                     Some (Command (Request.PopulatedOffer {| content_items := items |}) enr None)
                 | _, _ => None
                 end) order.

Lemma send_offers_effects m order self :
  effects (fold_left (send_offer m) order self) = effects self ++ offers_to m order.
Proof.
  revert self. induction order as [|s order IH]; intros self; simpl; [by rewrite app_nil_r|].
  rewrite IH. unfold send_offer, offers_to. simpl.
  case_match; simpl; [|done]. destruct (enr_from_str s); simpl; [|done]. by rewrite <- app_assoc.
Qed.

(** A traversal sends every node its items. *)
Lemma offers_to_dests nodes content order :
  NoDup (map (fun e => node_enr e.1.2) nodes) ->
  NoDup order -> (forall s, s ∈ order <-> s ∈ dom (collect_offers nodes content)) ->
  let m := collect_offers nodes content in
  exists dests, order = map to_base64 dests
    /\ (forall enr, enr ∈ dests <-> items_for nodes content enr <> [])
    /\ offers_to m order
       = map (fun enr => Command (Request.PopulatedOffer {| content_items := items_for nodes content enr |}) enr None) dests.
Proof.
  intros Hnodes Hnd Hdom m.
  assert (Hd : exists dests, order = map to_base64 dests).
  { clear Hnd. assert (Hall : Forall (fun s => exists e, s = to_base64 e) order).
    { apply Forall_forall. intros s Hs. apply Hdom, elem_of_dom in Hs. by eapply collect_offers_keys. }
    clear Hdom. induction Hall as [|s order [e ->] _ [dests ->]]; [by exists []|]. by exists (e :: dests). }
  destruct Hd as [dests ->]. exists dests. split; [done|].
  assert (Hin : forall enr, enr ∈ dests <-> items_for nodes content enr <> []).
  { intros enr. assert (Hiff : enr ∈ dests <-> to_base64 enr ∈ map to_base64 dests).
    { split; [apply list_elem_of_fmap_2|]. by intros (e & ->%to_base64_inj & He)%list_elem_of_fmap. }
    rewrite Hiff, Hdom, elem_of_dom, collect_offers_lookup by done.
    destruct (items_for nodes content enr); split; try done; by intros []. }
  split; [exact Hin|]. assert (Hsub : Forall (fun enr => items_for nodes content enr <> []) dests)
    by (apply Forall_forall; intros enr; apply Hin).
  clear Hin Hdom Hnd. induction Hsub as [|enr dests Hne _ IH]; [done|]. simpl.
  unfold m. rewrite from_str_to_base64, collect_offers_lookup by done.
  destruct (items_for nodes content enr) as [|x l] eqn:Ei; [done|]. rewrite <- Ei. f_equal. exact IH.
Qed.

Lemma map_size_order (m : gmap bytes (list (bytes * bytes))) order :
  NoDup order -> (forall s, s ∈ order <-> s ∈ dom m) -> size m = length order.
Proof.
  intros Hnd Hdom. rewrite <- size_dom.
  assert (dom m = list_to_set order) as -> by (apply set_eq; intros s; rewrite elem_of_list_to_set; by rewrite Hdom).
  by apply size_list_to_set.
Qed.

(** C31: Neighborhood gossip offers each piece of content to the right nodes: per piece at
    most eight connected nodes are selected, all of them with the content within their
    radius, among them the four that are closest to it (all interested nodes if there are
    fewer).  Each selected node gets one offer, of exactly the pieces it was selected
    for, nobody else gets any, and the number of these nodes is returned. *)
Theorem gossip_offers self content order :
  let nodes := connected_nodes self in
  NoDup (map (fun e => node_enr e.1.2) nodes) ->
  NoDup order -> (forall s, s ∈ order <-> s ∈ dom (enrs_and_content content nodes)) ->
  let dist key enr := distance (content_id key) (enr_node_id enr) in
  let items := items_for nodes (imap pair content) in
  let r := propagate_gossip_cross_thread self content order in
  (forall call key, exists near far,
     calculate_interested_enrs call key nodes = near ++ far
     /\ near ++ far ⊆ interested_enrs key nodes /\ (length far <= 4)%nat
     /\ length near = Nat.min 4 (length (interested_enrs key nodes))
     /\ forall x y, x ∈ near -> y ∈ interested_enrs key nodes -> y ∉ near -> dist key x <= dist key y)
  /\ exists dests, NoDup dests /\ (forall enr, enr ∈ dests <-> items enr <> [])
      /\ effects r.1 = effects self
           ++ map (fun enr => Command (Request.PopulatedOffer {| content_items := items enr |}) enr None) dests
      /\ r.2 = Z.of_nat (length dests).
Proof.
  intros nodes Hnodes Hnd Hdom dist items r. split.
  - intros call key. rewrite recipients_eq. set (l := sort_by _ _).
    assert (Hperm : l ≡ₚ interested_enrs key nodes) by apply sort_by_perm.
    assert (Hs : StronglySorted (fun x y => dist key x <= dist key y) l) by apply sort_by_sorted.
    destruct (select_recipients_spec call l) as (far & rest & -> & Hp & Hl).
    exists (take NUM_CLOSEST_NODES l), far. split_and!; [done | | done | by rewrite length_take, Hperm |].
    + intros x Hx. rewrite <- Hperm, <- (take_drop NUM_CLOSEST_NODES l), <- Hp. set_solver.
    + intros x y Hx Hy Hn. rewrite <- (take_drop NUM_CLOSEST_NODES l) in Hs.
      apply (sorted_app_le _ _ _ x y Hs Hx).
      rewrite <- Hperm, <- (take_drop NUM_CLOSEST_NODES l) in Hy. set_solver.
  - destruct (offers_to_dests nodes (imap pair content) order) as (dests & -> & Hin & Hoff); [done..|].
    exists dests. unfold r, propagate_gossip_cross_thread. fold nodes.
    split; [by eapply NoDup_fmap_1|]. split; [done|]. destruct nodes as [|n0 nodes'] eqn:En.
    + destruct dests as [|enr dests]; [simpl; by rewrite app_nil_r|].
      destruct (proj1 (Hin enr)); [set_solver|]. unfold items_for. rewrite filter_none; set_solver.
    + cbn [fst snd]. rewrite send_offers_effects. split; [f_equal; exact Hoff|].
      f_equal. rewrite <- (length_map to_base64). by apply map_size_order.
Qed.
End Correct.
End Gossip.

(** ** The theorem at work *)

#[global] Instance toy_random : RandomLib := {| choose_multiple _ _ l n := take n l |}.

#[global] Instance toy_random_ok : RandomLibOk toy_random.
Proof.
  split. intros call A l n. simpl. split; [apply length_take|]. exists (drop n l). by rewrite take_drop.
Qed.

#[global] Instance toy_text : EnrText := {| to_base64 e := e; enr_from_str s := Some s |}.

#[global] Instance toy_text_ok : EnrTextOk.
Proof. by split. Qed.

Definition gossip_content : list (IdentityContentKey.t * bytes) := [(small_key, [x01]); (other_key, [x02])].

Definition gossip_order : list bytes := [[x40]; [x01]; [x41]].

Lemma gossip_offers_witness :
  exists dests : list bytes, NoDup dests
    /\ (Gossip.propagate_gossip_cross_thread service_a gossip_content gossip_order).2 = 3
    /\ length dests = 3%nat.
Proof.
  destruct (Gossip.gossip_offers service_a gossip_content gossip_order) as (_ & dests & H1 & _ & _ & H2).
  - vm_compute. repeat constructor; set_solver.
  - apply (bool_decide_unpack _). vm_compute. reflexivity.
  - intros s. assert (Hd : dom (Gossip.enrs_and_content gossip_content (Gossip.connected_nodes service_a))
      = list_to_set gossip_order) by (apply (bool_decide_unpack _); vm_compute; reflexivity).
    rewrite Hd. by rewrite elem_of_list_to_set.
  - exists dests. assert (H3 : (Gossip.propagate_gossip_cross_thread service_a gossip_content gossip_order).2 = 3)
      by (vm_compute; reflexivity).
    split; [exact H1|]. split; [exact H3|]. rewrite H3 in H2. by apply (inj Z.of_nat).
Defined.
