(* ===== verification/OverlayContent.v ===== *)
(** * The overlay service: content that is offered, accepted and received.

    The parts of [portalnet/src/overlay_service.rs] that offer content and answer an
    ACCEPT, that take in the content of an accepted offer or of a lookup, and that
    dispatch responses.  The validator is the class [Validator]; the tasks that take in
    the items of one payload are run one after the other, in the order of the items. *)

From stdpp Require Import gmap sets.
From S2P Require Import Prelude.
From S2P Require Import Distance.
From S2P Require Import ContentKey.
From S2P Require Import Query.
From S2P Require Import FindNodes.
From S2P Require Import FindContent.
From S2P Require Import QueryPool.
From S2P Require Import Wire.
From S2P Require Import QueryTrace.
From S2P Require Import QueryInfo.
From S2P Require Import ContentStore.
From S2P Require Import Payload.
From S2P Require Import Overlay.
From S2P Require Import OverlayQuery.
From S2P Require Import Gossip.

(** The [Validator] trait of [trin-validation/src/validator.rs].  A validation can succeed,
    fail, or panic.  It can ask the networks of the node and of its peers, which may answer
    differently each time: [Outside] is what they answer during one validation. *)
Class Validator `{CK : OverlayContentKey} := {
  Outside : Type;
  validate_content : Outside -> ContentKey -> bytes -> res unit unit;
}.

Inductive OfferError :=
| OfferedKey
| OfferedContentMissing
| OfferedContentStore (e : ContentStoreError)
| NotAnOffer
| PayloadErr (e : PayloadError)
| LengthMismatch (keys_len vals_len : nat).

Module OverlayContent.
Import OverlayService OverlayQuery.

Section Ops.
Context `{E : EnrLib} `{W : WireLib} `{CK : OverlayContentKey} `{KB : !KBucketsTable}
  `{KL : KeyLib bytes} `{L : !Log2Lib bytes} {St : Type} `{CS : !ContentStore St}
  `{V : !Validator} `{LB : Leb128} `{T : !EnrText} `{R : RandomLib}.
Implicit Types (self : t St).

(** ** Content from lookups *)

(** One round of the loop of [poke_content]. *)
Definition poke_node (key : ContentKey) (content : bytes) self (node_id : bytes) : t St :=
  let '(self, e) := entry self node_id in
  match entry_node e with
  | None => self
  | Some node =>
      let is_within_radius := distance node_id (content_id key) <=? node_data_radius node in
      if is_within_radius then
        let content_items := [(key_to_bytes key, content)] in
        emit self (Command (Request.PopulatedOffer {| content_items := content_items |}) (node_enr node) None)
      else self
  end.

Definition poke_content self (key : ContentKey) (content : bytes) (nodes_to_poke : list bytes) : t St :=
  fold_left (poke_node key content) nodes_to_poke self.

Definition respond self (responder : option Z) content utp_transfer trace : t St :=
  match responder with
  | Some responder => emit self (SendContent responder content utp_transfer trace)
  | None => self
  end.

(** Storing content that is wanted; errors are logged. *)
Definition store_content self (key : ContentKey) (content : bytes) : res Empty_set (t St) :=
  let? should_store :=
    match is_key_within_radius_and_unavailable (store self) key with
    | Ok Store => Ok true
    | Ok _ | Err _ => Ok false
    | Panic => Panic
    end in
  if should_store then
    match store_put (store self) key content with
    | (_, Panic) => Panic
    | (st, _) => Ok (set_store self st)
    end
  else Ok self.

(** The end of [process_received_content]. *)
Definition deliver_content self (content : bytes) (utp_transfer : bool) (key : ContentKey)
    (responder : option Z) (trace : option QueryTrace.t) (nodes_to_poke : list bytes) : t St :=
  let self := respond self responder (Some content) utp_transfer trace in
  if negb (disable_poke self) then poke_content self key content nodes_to_poke else self.

Definition process_received_content self (outside : Outside) (content : bytes) (utp_transfer : bool) (key : ContentKey)
    (responder : option Z) (trace : option QueryTrace.t) (nodes_to_poke : list bytes)
    : res Empty_set (t St) :=
  match store_get (store self) key with
  | Panic => Panic
  | Ok (Some val) => Ok (deliver_content self val utp_transfer key responder trace nodes_to_poke)
  | Ok None | Err _ =>
      match validate_content outside key content with
      | Ok _ =>
          let? stored := store_content self key content in
          Ok (deliver_content stored content utp_transfer key responder trace nodes_to_poke)
      | Err _ => Ok (respond self responder None utp_transfer trace)
      | Panic => Panic
      end
  end.

(** The task that [handle_find_content_query_event] spawns for content over uTP: [None]
    when the connection or the transfer failed. *)
Definition receive_content self (outside : Outside) (data : option bytes) (key : ContentKey) (responder : option Z)
    (trace : option QueryTrace.t) (nodes_to_poke : list bytes) : res Empty_set (t St) :=
  match data with
  | None => Ok (respond self responder None true trace)
  | Some data => process_received_content self outside data true key responder trace nodes_to_poke
  end.

(** ** Offering content *)

Fixpoint provide_items (st : St) (l : list (bool * ContentKey)) : res OfferError (list bytes) :=
  match l with
  | [] => Ok []
  | (false, _) :: l => provide_items st l
  | (true, key) :: l =>
      match store_get st key with
      | Ok (Some content) =>
          let? content_items := provide_items st l in
          Ok (content :: content_items)
      | Ok None => Err OfferedContentMissing
      | Err e => Err (OfferedContentStore e)
      | Panic => Panic
      end
  end.

Definition provide_requested_content (st : St) (accept_message : Accept) (content_keys_offered : list bytes)
    : res OfferError (list bytes) :=
  let? content_keys_offered := res_all (fun k => map_err (fun _ => OfferedKey) (key_try_from k)) content_keys_offered in
  provide_items st (zip (accept_content_keys accept_message) content_keys_offered).

(** The contents whose bit is set. *)
Definition accepted {A} (bits : list bool) (items : list A) : list A :=
  map snd (filter (fun p => p.1 = true) (zip bits items)).

(** The task that [process_accept] spawns, up to the payload it writes to the stream. *)
Definition offer_payload (st : St) (response : Accept) (offer : Request.t) : res OfferError bytes :=
  let? content_items :=
    match offer with
    | Request.Offer offer => provide_requested_content st response (content_keys offer)
    | Request.PopulatedOffer offer =>
        Ok (map snd (accepted (accept_content_keys response) (content_items offer)))
    | Request.PopulatedOfferWithResult offer =>
        Ok (map snd (accepted (accept_content_keys response) [content_item offer]))
    | _ => Err NotAnOffer
    end in
  map_err PayloadErr (encode_content_payload content_items).

Definition is_offer (r : Request.t) : bool :=
  match r with
  | Request.Offer _ | Request.PopulatedOffer _ | Request.PopulatedOfferWithResult _ => true
  | _ => false
  end.

(** The offer waits for the outcome of the transfer. *)
Definition gossip_result_tx (r : Request.t) : bool :=
  match r with Request.PopulatedOfferWithResult _ => true | _ => false end.

Definition process_accept self (response : Accept) (enr : Enr) (offer : Request.t)
    : t St * res OfferError Accept :=
  if negb (is_offer offer) then (self, Err NotAnOffer)
  else if negb (existsb id (accept_content_keys response)) then
    (if gossip_result_tx offer then emit self (SendGossipResult false) else self, Ok response)
  else
    let conn_id := u16_from_be (accept_connection_id response) in
    (emit self (SpawnSendOffer enr conn_id ((conn_id + 1) mod 2 ^ 16) response offer), Ok response).

(** The end of the task: the payload was not built, or was written (or not). *)
Definition finish_offer self (offer : Request.t) (payload : res OfferError bytes) (written : bool) : t St :=
  if gossip_result_tx offer
  then emit self (SendGossipResult (is_ok payload && written)) else self.

(** ** Taking in an accepted offer *)

(** The task for one item; a panic is caught where the task is joined. *)
Definition accept_item self (outside : Outside) (key : ContentKey) (value : bytes)
    : t St * option (ContentKey * bytes) :=
  match validate_content outside key value with
  | Ok _ =>
      match store_content self key value with
      | Ok self => (self, Some (key, value))
      | _ => (self, None)
      end
  | _ => (self, None)
  end.

(** Each item comes with what the outside answers during its validation. *)
Fixpoint accept_items self (items : list (Outside * (ContentKey * bytes))) : t St * list (ContentKey * bytes) :=
  match items with
  | [] => (self, [])
  | (outside, (key, value)) :: items =>
      let '(self, r) := accept_item self outside key value in
      let '(self, validated) := accept_items self items in
      (self, option_list r ++ validated)
  end.

(** The validation of the [i]-th item meets the answers [outside i]. *)
Definition with_outside (outside : nat -> Outside) {A} (items : list A) : list (Outside * A) :=
  imap (fun i item => (outside i, item)) items.

(** [order] is the traversal of the map of offers in [propagate_gossip_cross_thread]. *)
Definition process_accept_utp_payload self (outside : nat -> Outside) (keys : list ContentKey) (payload : bytes)
    (order : list bytes) : t St * res OfferError unit :=
  match decode_content_payload payload with
  | None | Some Panic => (self, Panic)
  | Some (Err e) => (self, Err (PayloadErr e))
  | Some (Ok content_values) =>
      if negb (length keys =? length content_values)%nat
      then (self, Err (LengthMismatch (length keys) (length content_values)))
      else
        let '(self, validated_content) := accept_items self (with_outside outside (zip keys content_values)) in
        ((Gossip.propagate_gossip_cross_thread self validated_content order).1, Ok tt)
  end.

(** ** Responses *)

Definition process_response self (response : Response.t) (source : Enr) (request : Request.t)
    (query_id : option Z) (now : Z) : res Empty_set (t St) :=
  let '(self, e) := entry self (enr_node_id source) in
  let '(node, status) :=
    match e with
    | Present node status | Pending node status => (node, status)
    | NoEntry => ({| node_enr := source; node_data_radius := Distance_MAX |},
                  {| status_state := Disconnected; status_direction := Outgoing |})
    end in
  let self :=
    match status_state status with
    | Disconnected => connect_node self node (status_direction status)
    | Connected =>
        let '(self, r) := update_node_connection_state self (enr_node_id source) Connected in
        match r with Ok _ => self | _ => ping_queue_remove self (enr_node_id source) end
    end in
  match response with
  | Response.Pong pong => process_pong self pong source
  | Response.Nodes nodes => process_nodes self nodes source query_id
  | Response.Content content => process_content self content source query_id now
  | Response.Accept accept => Ok (process_accept self accept source request).1
  end.
End Ops.

(** ** Theorems *)

Section Correct.
Context `{E : EnrLib} `{W : WireLib} `{CK : OverlayContentKey} `{KB : !KBucketsTable}
  `{KL : KeyLib bytes} `{L : !Log2Lib bytes} {St : Type} `{CS : !ContentStore St}
  `{V : !Validator} `{LB : Leb128} `{T : !EnrText} `{R : RandomLib}.
Implicit Types (self : t St).

(** The store does not panic. *)
Definition store_total : Prop :=
  (forall st k, store_get (St := St) st k <> Panic)
  /\ (forall st k, is_key_within_radius_and_unavailable (St := St) st k <> Panic)
  /\ (forall st k v, (store_put (St := St) st k v).2 <> Panic).

Definition wanted (st : St) (k : ContentKey) : bool :=
  match is_key_within_radius_and_unavailable st k with Ok Store => true | _ => false end.

(** Whether the validation of an item succeeds. *)
Definition valid (item : Outside * (ContentKey * bytes)) : bool :=
  is_ok (validate_content item.1 item.2.1 item.2.2).

(** Content that is valid and wanted is put into the store, nothing else is. *)
Definition take_in (st : St) (item : Outside * (ContentKey * bytes)) : St :=
  let '(key, value) := item.2 in
  if valid item && wanted st key then (store_put st key value).1 else st.

Lemma store_content_spec self key content :
  store_total -> store_content self key content
  = Ok (set_store self (if wanted (store self) key then (store_put (store self) key content).1 else store self)).
Proof.
  intros (_ & Hu & Hp). unfold store_content, wanted. specialize (Hu (store self) key).
  specialize (Hp (store self) key content).
  destruct (is_key_within_radius_and_unavailable (store self) key) as [[]| |]; simpl; try done;
    try (by destruct self).
  by destruct (store_put (store self) key content) as [st [| |]].
Qed.

Lemma accept_items_spec self items :
  store_total -> accept_items self items
  = (set_store self (fold_left take_in items (store self)),
     map snd (filter (fun item => valid item = true) items)).
Proof.
  intros Ht. revert self. induction items as [|[o [k v]] items IH]; intros self; [by destruct self|].
  rewrite filter_cons. cbn [accept_items fold_left]. unfold accept_item, take_in at 2, valid. cbn [fst snd].
  rewrite store_content_spec by done.
  destruct (validate_content o k v) eqn:Ev; rewrite IH; by case_decide.
Qed.

Lemma res_all_ok {Er A B} (f : A -> res Er B) l r :
  res_all f l = Ok r -> Forall2 (fun a b => f a = Ok b) l r.
Proof.
  revert r. induction l as [|a l IH]; intros r; simpl; [intros [= <-]; constructor|].
  destruct (f a) as [b| |] eqn:Ea; simpl; try done.
  destruct (res_all f l) as [r'| |]; simpl; try done. intros [= <-]. constructor; auto.
Qed.

(** All bits are set exactly when nothing is left out. *)
Lemma accepted_length {A} bits (items : list A) :
  length bits = length items ->
  accepted bits items = items /\ forallb id bits = true
  \/ (length (accepted bits items) < length items)%nat /\ forallb id bits = false.
Proof.
  revert items. induction bits as [|b bits IH]; intros [|i items]; try done; [by left|].
  intros [= Hl]. unfold accepted in *.
  change (zip (b :: bits) (i :: items)) with ((b, i) :: zip bits items). rewrite filter_cons.
  assert (Hle : (length (map snd (filter (fun p => p.1 = true) (zip bits items))) <= length items)%nat).
  { rewrite length_map. etransitivity; [apply length_filter|]. rewrite length_zip. lia. }
  destruct b; case_decide; try done.
  - destruct (IH items Hl) as [[Hs Hb]|[Hs Hb]]; [left | right]; cbn [map snd forallb length]; rewrite Hb;
      (split; [|done]); [by rewrite Hs | lia].
  - right. cbn [length forallb]. split; [lia | done].
Qed.

Lemma handle_offer_accepts self offer source self1 accept :
  handle_offer self offer source = (self1, Ok accept) -> existsb id (accept_content_keys accept) = true ->
  exists enr keys, effects self1 = effects self ++ [SpawnReceiveOffer (utp_cid self enr) keys]
    /\ accept_connection_id accept = u16_to_be (utp_cid self enr)
    /\ Forall2 (fun raw k => key_try_from raw = Ok k) (content_keys offer) keys
    /\ Forall2 (fun k b => accept_bit self k = Ok b) keys (accept_content_keys accept).
Proof.
  unfold handle_offer. destruct (_ <? _)%nat; [by intros [= _ ?]|].
  destruct (res_all _ (content_keys offer)) as [keys| |] eqn:Ek; try (by intros [= _ ?]).
  destruct (res_all (accept_bit self) keys) as [bits| |] eqn:Eb; try (by intros [= _ ?]).
  destruct (existsb id bits) eqn:Ex; simpl.
  2: { intros [= <- <-]. simpl. by rewrite Ex. }
  destruct (cached_node_addr self source) as [enr|]; [|by intros [= _ ?]]. intros [= <- <-] _.
  exists enr, keys. apply res_all_ok in Ek, Eb. split_and!; [done | done | | done].
  eapply Forall2_impl; [exact Ek|]. intros raw k Hx. simpl in Hx.
  destruct (key_try_from raw); by simplify_eq/=.
Qed.

(** C15: The transfer of offered content.  The node that accepts an offer opens a
    connection under the id that the offering node reads from the ACCEPT, and expects
    content there.  If it accepted every key, the payload of the offering node is taken
    in item by item, whatever the networks answer to the validator at each item: every
    item is paired with its key, what is valid and wanted is stored, and what is valid is
    passed on.  But if it accepted only some of the keys,
    the payload, which then holds just the accepted items, is rejected as a whole,
    because it is compared with the list of all offered keys. *)
Theorem offer_accept_transfer `{!Leb128Ok LB} self source items self1 accept st payload self2 outside order :
  let offer := {| content_items := items |} in
  store_total -> (forall enr, 0 <= utp_cid self enr < 2 ^ 16) ->
  handle_offer self (populated_to_offer offer) source = (self1, Ok accept) ->
  existsb id (accept_content_keys accept) = true ->
  offer_payload st accept (Request.PopulatedOffer offer) = Ok payload ->
  exists keys, effects self1
      = effects self ++ [SpawnReceiveOffer (u16_from_be (accept_connection_id accept)) keys]
    /\ Forall2 (fun item k => key_try_from item.1 = Ok k) items keys
    /\ let r := process_accept_utp_payload self2 outside keys payload order in
       let pairs := with_outside outside (zip keys (map snd items)) in
       if forallb id (accept_content_keys accept) then
         r = ((Gossip.propagate_gossip_cross_thread (set_store self2 (fold_left take_in pairs (store self2)))
                 (map snd (filter (fun item => valid item = true) pairs)) order).1, Ok tt)
       else exists n, (n < length keys)%nat /\ r = (self2, Err (LengthMismatch (length keys) n)).
Proof.
  intros offer Ht Hcid Hh Hex Hp.
  destruct (handle_offer_accepts _ _ _ _ _ Hh Hex) as (enr & keys & Heff & Hid & Hk & Hb).
  exists keys. rewrite Hid, u16_swap by done. split; [done|]. simpl in Hk. rewrite Forall2_fmap_l in Hk.
  split; [done|].
  pose proof (Forall2_length _ _ _ Hk) as Hlk. pose proof (Forall2_length _ _ _ Hb) as Hlb.
  unfold offer_payload in Hp. simpl in Hp.
  destruct (encode_content_payload (map snd (accepted (accept_content_keys accept) items)))
    as [p| |] eqn:Ep; simplify_eq/=.
  unfold process_accept_utp_payload, decode_content_payload.
  rewrite (decode_items _ _ _ [] Ep) by done. simpl.
  destruct (accepted_length (accept_content_keys accept) items) as [[-> ->]|[Hlt ->]]; [congruence| |].
  - rewrite length_map, Hlk, Nat.eqb_refl. simpl. by rewrite accept_items_spec.
  - exists (length (accepted (accept_content_keys accept) items)). rewrite length_map.
    rewrite (proj2 (Nat.eqb_neq _ _)) by lia. simpl. split; [lia | done].
Qed.

(** The offer to a node that is poked, as the table [k] knows it. *)
Definition poke_of (k : kb) (key : ContentKey) (content : bytes) (id : bytes) : option effect :=
  match entry_node (kb_entry k id).2 with
  | Some node =>
      if distance id (content_id key) <=? node_data_radius node
      then Some (Command (Request.PopulatedOffer {| content_items := [(key_to_bytes key, content)] |})
                   (node_enr node) None)
      else None
  | None => None
  end.

Lemma poke_content_effects self key content ids :
  (forall id, (kb_entry (kbuckets self) id).1 = kbuckets self) ->
  effects (poke_content self key content ids)
    = effects self ++ omap (poke_of (kbuckets self) key content) ids
  /\ store (poke_content self key content ids) = store self.
Proof.
  unfold poke_content. revert self. induction ids as [|id ids IH]; intros self Hk; simpl; [by rewrite app_nil_r|].
  assert (Hone : kbuckets (poke_node key content self id) = kbuckets self
    /\ store (poke_node key content self id) = store self
    /\ effects (poke_node key content self id)
       = effects self ++ option_list (poke_of (kbuckets self) key content id)).
  { unfold poke_node, poke_of, entry. simpl. specialize (Hk id).
    destruct (entry_node _) as [node|]; simpl; [|by rewrite app_nil_r].
    destruct (_ <=? _); simpl; by rewrite ?app_nil_r. }
  destruct Hone as (H1 & H2 & H3). destruct (IH (poke_node key content self id)) as [H4 H5]; [by rewrite H1|].
  rewrite H4, H5, H1, H2, H3. split; [|done]. rewrite <- app_assoc. f_equal.
  by destruct (poke_of (kbuckets self) key content id).
Qed.

(** What a lookup delivers: the copy in the store, or else the received content if it is
    valid. *)
Definition delivered (outside : Outside) (st : St) (key : ContentKey) (content : bytes) : option bytes :=
  match store_get st key with
  | Ok (Some val) => Some val
  | _ => if valid (outside, (key, content)) then Some content else None
  end.

(** What is sent to the requester, if somebody waits for the content. *)
Definition answer (responder : option Z) (out : option bytes) (utp : bool) trace : list effect :=
  match responder with Some r => [SendContent r out utp trace] | None => [] end.

(** The offers to the nodes that are poked. *)
Definition pokes self (key : ContentKey) (out : option bytes) (ids : list bytes) : list effect :=
  match out with
  | Some c => if disable_poke self then [] else omap (poke_of (kbuckets self) key c) ids
  | None => []
  end.

Lemma deliver_effects self self1 content utp key responder trace ids :
  (forall id, (kb_entry (kbuckets self) id).1 = kbuckets self) ->
  kbuckets self1 = kbuckets self -> effects self1 = effects self -> disable_poke self1 = disable_poke self ->
  let self' := deliver_content self1 content utp key responder trace ids in
  effects self' = effects self ++ answer responder (Some content) utp trace ++ pokes self key (Some content) ids
  /\ store self' = store self1.
Proof.
  intros Hk H1 H2 H3. unfold deliver_content, respond, answer, pokes.
  destruct responder as [r|]; simpl; rewrite H3; destruct (disable_poke self); simpl;
    rewrite ?H2, ?app_nil_r; auto.
  - destruct (poke_content_effects (emit self1 (SendContent r (Some content) utp trace)) key content ids)
      as [-> ->]; [simpl; by rewrite H1|]. simpl. by rewrite H1, H2, <- app_assoc.
  - destruct (poke_content_effects self1 key content ids) as [-> ->]; [by rewrite H1|]. by rewrite H1, H2.
Qed.

Lemma wanted_unavailable `{SO : !ContentStoreOk St} (st : St) key :
  wanted st key = true ->
  store_get st key = Ok None /\ distance (content_id key) (store_node_id st) <= store_radius st.
Proof.
  unfold wanted. destruct (is_key_within_radius_and_unavailable st key) as [[]| |] eqn:Ew; try done.
  intros _. by apply store_asks.
Qed.

(** Content found by a lookup is only used once it is trusted: what the requester is
    sent and what other nodes are offered is the store's own copy or has passed
    validation (the requester is told about invalid content by an empty answer); the
    store changes only by taking in valid content that it wants and does not have, and
    the nodes that are offered the content are the known ones among those to poke whose
    radius covers it.  When the validator panics, which it does only for content that the
    store does not have, so does the task. *)
Theorem received_content_trusted `{SO : !ContentStoreOk St} self outside content utp key responder trace ids :
  store_total -> (forall id, (kb_entry (kbuckets self) id).1 = kbuckets self) ->
  let out := delivered outside (store self) key content in
  process_received_content self outside content utp key responder trace ids = Panic
    /\ (forall c, store_get (store self) key <> Ok (Some c)) /\ validate_content outside key content = Panic
  \/ exists self', process_received_content self outside content utp key responder trace ids = Ok self'
    /\ effects self' = effects self
         ++ answer responder out utp trace ++ pokes self key out ids
    /\ store self' = take_in (store self) (outside, (key, content))
    /\ (store self' <> store self -> validate_content outside key content = Ok tt
         /\ store_get (store self) key = Ok None
         /\ distance (content_id key) (store_node_id (store self)) <= store_radius (store self)).
Proof.
  intros Ht Hk out. unfold process_received_content.
  pose proof (wanted_unavailable (store self) key) as Hwant.
  set (st := take_in (store self) (outside, (key, content))).
  assert (Hdiff : st <> store self -> validate_content outside key content = Ok tt
    /\ store_get (store self) key = Ok None
    /\ distance (content_id key) (store_node_id (store self)) <= store_radius (store self)).
  { unfold st, take_in, valid. simpl. destruct (validate_content outside key content) as [[]| |]; [|done..].
    destruct (wanted (store self) key); [auto | done]. }
  assert (Hsame : store_get (store self) key <> Ok None -> st = store self).
  { intros Hg. unfold st, take_in. simpl. destruct (wanted (store self) key); [|by rewrite andb_false_r].
    by destruct Hwant. }
  assert (Hvalid : (forall c, store_get (store self) key <> Ok (Some c)) ->
    let r := match validate_content outside key content with
      | Ok _ => let? stored := store_content self key content in
          Ok (deliver_content stored content utp key responder trace ids)
      | Err _ => Ok (respond self responder None utp trace)
      | Panic => Panic
      end in
    r = Panic /\ (forall c, store_get (store self) key <> Ok (Some c)) /\ validate_content outside key content = Panic
    \/ exists self', r = Ok self'
    /\ effects self' = effects self ++ answer responder (if valid (outside, (key, content)) then Some content else None)
         utp trace ++ pokes self key (if valid (outside, (key, content)) then Some content else None) ids
    /\ store self' = st).
  { intros Hn. unfold st, take_in, valid. simpl. destruct (validate_content outside key content) as [[]|e|] eqn:Ev; simpl.
    - right. rewrite store_content_spec by done. simpl. eexists. split; [done|].
      by apply (deliver_effects self (set_store self _)).
    - right. eexists. split; [done|]. unfold respond, answer, pokes. destruct responder; simpl; by rewrite ?app_nil_r.
    - by left. }
  unfold out, delivered. destruct (store_get (store self) key) as [[val|]|e|] eqn:Eg.
  - right. destruct (deliver_effects self self val utp key responder trace ids) as [H1 H2]; [done..|].
    eexists. split; [done|]. split; [exact H1|]. rewrite H2. split; [by rewrite Hsame | done].
  - destruct Hvalid as [?|(self' & -> & He & Hs)]; [done|by left|right]. exists self'. by rewrite Hs.
  - destruct Hvalid as [?|(self' & -> & He & Hs)]; [done|by left|right]. exists self'. by rewrite Hs.
  - by destruct Ht as (Hg & _); destruct (Hg (store self) key).
Qed.
End Correct.
End OverlayContent.

(** ** The theorems at work *)

(** Valid content starts with a 2; content that starts with an 0xff makes the validator
    panic. *)
#[global] Instance toy_validator : Validator (CK := IdentityContentKey.overlay_key) := {|
  Outside := unit;
  validate_content _ _ v :=
    match head v with Some x02 => Ok tt | Some xff => Panic | _ => Err tt end;
|}.
Definition unasked : Outside (Validator := toy_validator) := tt.

#[local] Existing Instance IdentityContentKey.overlay_key.

Lemma memory_store_total :
  OverlayContent.store_total (CS := MemoryContentStore.content_store (CK := IdentityContentKey.overlay_key)).
Proof.
  split_and!; try done. intros st k. simpl. unfold MemoryContentStore.within_radius_and_unavailable.
  by repeat case_match.
Qed.

(** Offering a key that is already stored together with a new one. *)
Definition two_items : list (bytes * bytes) := [(replicate 32 x0a, [x02; x01]); (replicate 32 x0c, [x02; x05])].

Definition accept_of (items : list (bytes * bytes)) : Accept :=
  match (OverlayService.handle_offer service_a (populated_to_offer {| content_items := items |}) (toy_id x01)).2 with
  | Ok a => a
  | _ => {| accept_connection_id := 0; accept_content_keys := [] |}
  end.

Definition payload_of (items : list (bytes * bytes)) : bytes :=
  match OverlayContent.offer_payload (CK := IdentityContentKey.overlay_key) (OverlayService.store service_a)
          (accept_of items) (Request.PopulatedOffer {| content_items := items |}) with
  | Ok p => p | _ => [] end.

Lemma ok_val {Er A} (r : res Er A) d : is_ok r = true -> r = Ok (match r with Ok a => a | _ => d end).
Proof. by destruct r. Qed.

Lemma ok_pair {S Er A} (r : S * res Er A) d :
  is_ok r.2 = true -> r = (r.1, Ok (match r.2 with Ok a => a | _ => d end)).
Proof. destruct r as [s r]. simpl. intros Hr. by rewrite <- (ok_val r d Hr). Qed.

Lemma offer_accept_transfer_witness :
  (exists keys n, (n < length keys)%nat
     /\ (OverlayContent.process_accept_utp_payload service_a (fun _ => unasked) keys (payload_of two_items) []).2
        = Err (LengthMismatch (length keys) n))
  /\ exists keys, (OverlayContent.process_accept_utp_payload service_a (fun _ => unasked) keys (payload_of (drop 1 two_items)) []).2 = Ok tt.
Proof.
  split.
  - destruct (OverlayContent.offer_accept_transfer service_a (toy_id x01) two_items
      (OverlayService.handle_offer service_a (populated_to_offer {| content_items := two_items |}) (toy_id x01)).1
      (accept_of two_items) (OverlayService.store service_a) (payload_of two_items) service_a (fun _ => unasked) [])
      as (keys & _ & _ & n & Hn & H).
    + exact memory_store_total.
    + intros enr. split; [discriminate | reflexivity].
    + apply ok_pair. vm_compute. reflexivity.
    + vm_compute. reflexivity.
    + apply ok_val. vm_compute. reflexivity.
    + exists keys, n. split; [exact Hn|]. by rewrite H.
  - destruct (OverlayContent.offer_accept_transfer service_a (toy_id x01) (drop 1 two_items)
      (OverlayService.handle_offer service_a (populated_to_offer {| content_items := drop 1 two_items |}) (toy_id x01)).1
      (accept_of (drop 1 two_items)) (OverlayService.store service_a) (payload_of (drop 1 two_items)) service_a (fun _ => unasked) [])
      as (keys & _ & _ & H).
    + exact memory_store_total.
    + intros enr. split; [discriminate | reflexivity].
    + apply ok_pair. vm_compute. reflexivity.
    + vm_compute. reflexivity.
    + apply ok_val. vm_compute. reflexivity.
    + exists keys. cbv zeta in H. change (forallb id (accept_content_keys (accept_of (drop 1 two_items)))) with true in H.
      by rewrite H.
Defined.

Lemma received_content_trusted_witness :
  exists service', OverlayContent.process_received_content service_a unasked [x02; x09] false other_key (Some 7) None
      [toy_id x01; toy_id x99] = Ok service'
    /\ OverlayService.effects service'
       = [OverlayService.SendContent 7 (Some [x02; x09]) false None;
          OverlayService.Command (Request.PopulatedOffer
            {| content_items := [(replicate 32 x0c, [x02; x09])] |}) [x01] None]
    /\ MemoryContentStore.get (OverlayService.store service') other_key = Ok (Some [x02; x09]).
Proof.
  destruct (OverlayContent.received_content_trusted service_a unasked [x02; x09] false other_key (Some 7) None
    [toy_id x01; toy_id x99]) as [(_ & _ & Hv)|(service' & H1 & H2 & H3 & _)].
  - exact memory_store_total.
  - reflexivity.
  - discriminate Hv.
  - exists service'. split; [exact H1|]. split; [rewrite H2; vm_compute; reflexivity|].
    rewrite H3. vm_compute. reflexivity.
Defined.
