(* ===== verification/OverlayProtocol.v ===== *)
(** * The overlay protocol: the front end of a network.

    [portalnet/src/overlay.rs], and the traced gossip of [portalnet/src/gossip.rs] that it
    offers.  The front end shares the routing table and the store with the overlay service,
    to which it sends commands, and it reads streams from the uTP socket.  All of that is
    the class [OverlayWorld] of a world that the methods pass on; the module at the end
    puts the service of a peer behind it. *)

From stdpp Require Import gmap sets.
From S2P Require Import Prelude.
From S2P Require Import Distance.
From S2P Require Import ContentKey.
From S2P Require Import Query.
From S2P Require Import FindContent.
From S2P Require Import QueryPool.
From S2P Require Import Wire.
From S2P Require Import QueryTrace.
From S2P Require Import QueryInfo.
From S2P Require Import ContentStore.
From S2P Require Import Overlay.
From S2P Require Import Gossip.
From S2P Require Import OverlayContent.

(** [RequestDirection] of [overlay_service.rs]. *)
Inductive RequestDirection `{E : EnrLib} :=
| RequestIncoming (id : bytes) (source : bytes)
| RequestOutgoing (destination : Enr).

(** A TALKREQ of discv5. *)
Record TalkRequest := { talk_id : bytes; talk_node_id : bytes; talk_protocol : bytes; talk_body : bytes }.

(** [Message::from_ssz_bytes] and [Message::as_ssz_bytes], derived. *)
Class MessageSsz `{E : EnrLib} := {
  message_from_ssz : bytes -> option Message.t;
  message_as_ssz : Message.t -> bytes;
}.

(** What became of an offer with a channel for its result: the command could not be sent,
    or the response (none if its sender was dropped) and the result (none likewise). *)
Inductive traced_offer `{E : EnrLib} :=
| OfferNotSent
| OfferSent (response : option (res OverlayRequestError Response.t)) (result : option bool).

(** What the front end reaches: the record of the local node, the shared routing table and
    store, discv5, the commands of the service with the answers to them (none if a channel
    was closed; [w_command] does not wait for one), and the content of a uTP stream (none if connecting or reading failed). *)
Class OverlayWorld `{E : EnrLib} `{CK : OverlayContentKey} `{KB : !KBucketsTable} (St World : Type) := {
  w_local_enr : World -> Enr;
  w_kbuckets : World -> kb;
  w_set_kbuckets : kb -> World -> World;
  w_store : World -> St;
  w_set_store : St -> World -> World;
  w_find_enr : bytes -> World -> option Enr;
  w_discovery_enrs : World -> list Enr;
  w_request : Request.t -> RequestDirection -> World -> option (res OverlayRequestError Response.t) * World;
  w_command : Request.t -> Enr -> World -> World;
  w_find_node : bytes -> World -> option (list Enr) * World;
  w_find_content : ContentKey -> bool -> World -> option (option bytes * bool * option QueryTrace.t) * World;
  w_traced_offer : PopulatedOfferWithResult -> Enr -> World -> traced_offer * World;
  w_utp_read : Enr -> Z -> Z -> World -> option bytes * World;
}.

(** [GossipResult]. *)
Record GossipResult `{E : EnrLib} := gossip_result {
  offered : list Enr;
  accepted : list Enr;
  transferred : list Enr;
}.
Arguments gossip_result {E} _ _ _.

Module OverlayProtocol.

(** ** The methods *)

Definition validate_find_nodes_distances (distances : list Z) : res OverlayRequestError unit :=
  if (length distances =? 0)%nat then Err InvalidRequest
  else if (256 <? length distances)%nat then Err InvalidRequest
  else
    let invalid_distances := filter (fun val => 256 < val) distances in
    if negb (length invalid_distances =? 0)%nat then Err InvalidRequest
    else
      let unique : gset Z := list_to_set distances in
      if negb (size unique =? length distances)%nat then Err InvalidRequest else Ok tt.

Section Ops.
Context `{E : EnrLib} `{WL : WireLib} `{CK : OverlayContentKey} `{KB : !KBucketsTable} `{KL : KeyLib bytes}
  {St World : Type} `{CS : !ContentStore St} `{V : !Validator} `{T : !EnrText} `{R : RandomLib} `{MS : !MessageSsz}
  `{OW : !OverlayWorld St World}.

Abbreviation M A := (SM World OverlayRequestError A).

Definition reads {A} (f : World -> A) : M A := fun w => (Ok (f w), w).

(** An access to the routing table through its write lock. *)
Definition on_table {A} (f : kb -> kb * A) : M A := fun w =>
  let '(k, a) := f (w_kbuckets w) in (Ok a, w_set_kbuckets k w).

Definition local_enr : M Enr := reads w_local_enr.

Definition data_radius : M Z := reads (fun w => store_radius (w_store w)).

Definition send_overlay_request (request : Request.t) (direction : RequestDirection) : M Response.t := fun w =>
  match w_request request direction w with
  | (Some r, w) => (r, w)
  | (None, w) => (Err ChannelFailure, w)
  end.

Definition process_one_request (talk_request : TalkRequest) : M Response.t :=
  match message_from_ssz (talk_body talk_request) with
  | None => lift (Err DecodeError)
  | Some message =>
      match Request.try_from message with
      | Ok request =>
          send_overlay_request request (RequestIncoming (talk_id talk_request) (talk_node_id talk_request))
      | _ => lift (Err InvalidRequest)
      end
  end.

Definition table_entries_id : M (list bytes) :=
  do l <- on_table kb_iter; ret (map (fun e => e.1.1) l).

Definition table_entries_enr : M (list Enr) :=
  do l <- on_table kb_iter; ret (map (fun e => node_enr e.1.2) l).

Definition add_enr (enr : Enr) : M unit :=
  do r <- on_table (fun k =>
    kb_insert_or_update k (enr_node_id enr) {| node_enr := enr; node_data_radius := Distance_MAX |}
      {| status_state := Connected; status_direction := Incoming |});
  match r with
  | InsertFailed _ => lift (Err Failure)
  | _ => ret tt
  end.

Definition get_enr (node_id : bytes) : M Enr :=
  do local <- local_enr;
  if decide (node_id = enr_node_id local) then ret local
  else
    do e <- on_table (fun k => kb_entry k node_id);
    match e with
    | Present node _ => ret (node_enr node)
    | _ => lift (Err Failure)
    end.

Definition delete_enr (node_id : bytes) : M bool := on_table (fun k => kb_remove k node_id).

(** The three methods that send one request and expect one kind of response. *)
Definition expect {A} (f : Response.t -> option A) (request : Request.t) (enr : Enr) : M A :=
  do response <- send_overlay_request request (RequestOutgoing enr);
  lift (ok_or (f response) InvalidResponse).

Definition send_ping (enr : Enr) : M Pong :=
  do local <- local_enr;
  do radius <- data_radius;
  let custom_payload := CustomPayload.from (u256_as_ssz_bytes radius) in
  expect (fun r => match r with Response.Pong pong => Some pong | _ => None end)
    (Request.Ping {| ping_enr_seq := enr_seq local; ping_custom_payload := custom_payload |}) enr.

Definition send_find_nodes (enr : Enr) (ds : list Z) : M Nodes :=
  do _ <- lift (validate_find_nodes_distances ds);
  expect (fun r => match r with Response.Nodes nodes => Some nodes | _ => None end)
    (Request.FindNodes {| distances := ds |}) enr.

Definition send_offer (keys : list bytes) (enr : Enr) : M Accept :=
  expect (fun r => match r with Response.Accept accept => Some accept | _ => None end)
    (Request.Offer {| content_keys := keys |}) enr.

Definition send_populated_offer (enr : Enr) (key content_value : bytes) : M Accept :=
  expect (fun r => match r with Response.Accept accept => Some accept | _ => None end)
    (Request.PopulatedOffer {| content_items := [(key, content_value)] |}) enr.

Definition init_find_content_stream (enr : Enr) (conn_id : Z) : M bytes := fun w =>
  match w_utp_read enr conn_id ((conn_id + 1) mod 2 ^ 16) w with
  | (Some data, w) => (Ok data, w)
  | (None, w) => (Err UtpError, w)
  end.

(** The content, if it is valid; [outside] is what the networks answer to the validator. *)
Definition checked (outside : Outside) (key : ContentKey) (content : bytes) (utp_transfer : bool)
    : M (Content * bool) :=
  match validate_content outside key content with
  | Ok _ => ret (ContentBytes content, utp_transfer)
  | Err _ => lift (Err FailedValidation)
  | Panic => lift Panic
  end.

Definition send_find_content (outside : Outside) (enr : Enr) (key_bytes : bytes) : M (Content * bool) :=
  do key <- lift (map_err (fun _ => FailedValidation) (key_try_from key_bytes));
  do response <- send_overlay_request (Request.FindContent {| content_key := key_bytes |}) (RequestOutgoing enr);
  match response with
  | Response.Content found_content =>
      match found_content with
      | ContentBytes content => checked outside key content false
      | Enrs _ => ret (found_content, false)
      | ConnectionId conn_id =>
          let conn_id := u16_from_be conn_id in
          do content <- init_find_content_stream enr conn_id;
          checked outside key content true
      end
  | _ => lift (Err InvalidResponse)
  end.

Definition lookup_node (target : bytes) : M (list Enr) :=
  do local <- local_enr;
  if decide (target = enr_node_id local) then ret [local]
  else
    do l <- on_table kb_iter;
    let connected := map (fun e => e.1.1) (filter (fun e => is_connected e.2 = true) l) in
    match list_find (fun id => id = target) connected with
    | Some (_, id) =>
        do enr <- reads (w_find_enr id);
        ret (match enr with Some enr => [enr] | None => [] end)
    | None => fun w => let '(r, w) := w_find_node target w in (Ok (default [] r), w)
    end.

Definition lookup_content (target : ContentKey) (is_trace : bool)
    : M (option bytes * bool * option QueryTrace.t) := fun w =>
  let '(r, w) := w_find_content target is_trace w in (Ok (default (None, false, None) r), w).

(** The record with the highest sequence number, of those a call returned. *)
Definition newest (l : list Enr) : option Enr := max_by_key enr_seq l.

(** The second half of [lookup_enr]: a lookup, for a record that is newer. *)
Definition lookup_newer (node_id : bytes) (enr : res OverlayRequestError Enr) : M Enr :=
  do found <- lookup_node node_id;
  match newest found with
  | Some lookup_node_enr =>
      let seq := match enr with Ok enr => enr_seq enr | _ => 0 end in
      if seq <? enr_seq lookup_node_enr then ret lookup_node_enr else lift enr
  | None => lift enr
  end.

Definition lookup_enr (node_id : bytes) : M Enr :=
  do local <- local_enr;
  if decide (node_id = enr_node_id local) then ret local
  else
    do enr <- attempt (get_enr node_id);
    match enr with
    | Ok known =>
        do nodes <- attempt (send_find_nodes known [0]);
        match nodes with
        | Ok nodes =>
            match newest (enrs nodes) with
            | Some enr_highest_seq => ret enr_highest_seq
            | None => lookup_newer node_id enr
            end
        | _ => lookup_newer node_id enr
        end
    | _ => lookup_newer node_id enr
    end.

(** The loop of [ping_bootnodes]: whether a bootnode answered. *)
Fixpoint ping_all (enrs : list Enr) (bonded : bool) : M bool :=
  match enrs with
  | [] => ret bonded
  | enr :: enrs =>
      do ping_result <- attempt (send_ping enr);
      ping_all enrs (match ping_result with Ok _ => true | _ => bonded end)
  end.

Definition ping_bootnodes : M bool :=
  do enrs <- reads w_discovery_enrs;
  ping_all enrs false.

(** ** Gossip *)

Definition connected_nodes (w : World) : list (bytes * Node * NodeStatus) :=
  filter (fun e => is_connected e.2 = true) (kb_buckets (w_kbuckets w)).

Definition offer_filed (m : gmap bytes (list (bytes * bytes))) (w : World) (enr_string : bytes) : World :=
  match m !! enr_string with
  | None => w
  | Some interested_content =>
      match enr_from_str enr_string with
      | Some enr => w_command (Request.PopulatedOffer {| content_items := interested_content |}) enr w
      | None => w
      end
  end.

(** The offers go out in the order in which the map of the interested nodes is traversed. *)
Definition propagate_gossip (content : list (ContentKey * bytes)) (order : list bytes) : M Z := fun w =>
  match connected_nodes w with
  | [] => (Ok 0, w)
  | all_nodes =>
      let m := Gossip.enrs_and_content content all_nodes in
      (Ok (Z.of_nat (size m)), fold_left (offer_filed m) order w)
  end.

(** ** Gossip with a trace *)

(** An interested node: the offer, the response, the result. *)
Definition trace_offer (item : bytes * bytes) (g : GossipResult) (enr : Enr) : M GossipResult := fun w =>
  let '(o, w) := w_traced_offer {| content_item := item |} enr w in
  let done g := (Ok g, w) in
  match o with
  | OfferNotSent => done g
  | OfferSent response result =>
      let g := gossip_result (offered g ++ [enr]) (accepted g) (transferred g) in
      match response with
      | Some (Ok (Response.Accept accept)) =>
          let g := if existsb id (accept_content_keys accept)
                   then gossip_result (offered g) (accepted g ++ [enr]) (transferred g) else g in
          done (match result with
                | Some true => gossip_result (offered g) (accepted g) (transferred g ++ [enr])
                | _ => g
                end)
      | Some Panic => (Panic, w)
      | _ => done g
      end
  end.

Fixpoint trace_offers (item : bytes * bytes) (g : GossipResult) (enrs : list Enr) : M GossipResult :=
  match enrs with
  | [] => ret g
  | enr :: enrs => do g <- trace_offer item g enr; trace_offers item g enrs
  end.

(** The interested nodes of the routing table. *)
Definition gossip_targets (key : ContentKey) (w : World) : list Enr :=
  match connected_nodes w with
  | [] => []
  | all_nodes => Gossip.calculate_interested_enrs 0 key all_nodes
  end.

Definition propagate_gossip_trace (key : ContentKey) (data : bytes) : M GossipResult :=
  do interested_enrs <- reads (gossip_targets key);
  trace_offers (key_to_bytes key, data) (gossip_result [] [] []) interested_enrs.
End Ops.

(** ** Requests for nodes *)

Lemma size_list_to_set_le (l : list Z) : (size (list_to_set l : gset Z) <= length l)%nat.
Proof.
  induction l as [|x l IH]; cbn [list_to_set length]; [by rewrite size_empty|].
  pose proof (size_union_alt ({[x]} : gset Z) (list_to_set l)) as H. rewrite size_singleton in H.
  assert (size (list_to_set l ∖ {[x]} : gset Z) <= size (list_to_set l : gset Z))%nat
    by (apply subseteq_size; set_solver). lia.
Qed.

Lemma size_list_to_set_NoDup (l : list Z) : size (list_to_set l : gset Z) = length l <-> NoDup l.
Proof.
  split; [|apply size_list_to_set].
  induction l as [|x l IH]; [constructor|]. cbn [list_to_set length]. intros H.
  pose proof (size_list_to_set_le l) as Hle. destruct (decide (x ∈ l)) as [Hx|Hx].
  - exfalso. assert ({[x]} ∪ list_to_set l =@{gset Z} list_to_set l) as He by set_solver. rewrite He in H. lia.
  - constructor; [done|]. apply IH. rewrite size_union, size_singleton in H by set_solver. lia.
Qed.

(** A list of distances is accepted exactly if it is not empty, has at most 256
    entries, none of them above 256, and none twice; otherwise the request is invalid. *)
Theorem find_nodes_distances_valid ds :
  validate_find_nodes_distances ds
  = if decide (ds <> [] /\ (length ds <= 256)%nat /\ Forall (fun d => d <= 256) ds /\ NoDup ds)
    then Ok tt else Err InvalidRequest.
Proof.
  unfold validate_find_nodes_distances.
  assert (Hf : length (filter (fun val => 256 < val) ds) = 0%nat <-> Forall (fun d => d <= 256) ds).
  { rewrite length_zero_iff_nil, Forall_forall. split.
    - intros Hnil x Hx. destruct (decide (256 < x)) as [Hlt|]; [|lia].
      by destruct (filter_nil_not_elem_of _ _ _ Hnil Hlt).
    - intros H. destruct (filter _ ds) as [|x l] eqn:Hl; [done|].
      assert (x ∈ filter (fun val => 256 < val) ds) as [Hx Hin]%list_elem_of_filter by (rewrite Hl; left).
      specialize (H x Hin). lia. }
  pose proof (size_list_to_set_NoDup ds) as Hn.
  case_decide as Hd.
  - destruct Hd as (H1 & H2 & H3%Hf & H4%Hn). rewrite H3, H4, !Nat.eqb_refl.
    destruct ds; [done|]. simpl. by destruct (Nat.ltb_spec 256 (S (length ds))); [simpl in *; lia|].
  - repeat case_match; b2p; try done. exfalso. apply Hd. split_and!; [by intros ->|lia|by apply Hf|by apply Hn].
Qed.

(** ** Content and records from peers *)

Section Correct.
Context `{E : EnrLib} `{WL : WireLib} `{CK : OverlayContentKey} `{KB : !KBucketsTable} `{KL : KeyLib bytes}
  {St World : Type} `{CS : !ContentStore St} `{V : !Validator} `{OW : !OverlayWorld St World}.
Implicit Types (w : World) (self : OverlayService.t St).

Lemma find_content_checked outside enr key_bytes w content utp w' :
  send_find_content outside enr key_bytes w = (Ok (content, utp), w') ->
  exists key, key_try_from key_bytes = Ok key
    /\ match content with
       | ContentBytes c => validate_content outside key c = Ok tt
       | Enrs _ => utp = false
       | ConnectionId _ => False
       end.
Proof.
  unfold send_find_content, bind, lift. destruct (key_try_from key_bytes) as [key| |]; [|done..]. cbn.
  intros H. exists key. split; [done|]. revert H. unfold checked, ret, lift.
  destruct (send_overlay_request _ _ w) as [[[| |[id|c|l]|]| |] w1]; try done.
  - destruct (init_find_content_stream _ _ w1) as [[c| |] w2]; [|done..].
    destruct (validate_content outside key c) as [[]| |] eqn:Hv; [|done..]. by intros [= <- <- <-].
  - destruct (validate_content outside key c) as [[]| |] eqn:Hv; [|done..]. by intros [= <- <- <-].
  - by intros [= <- <- <-].
Qed.

(** Content that a peer sends is handed on only if it is valid for the key that was
    asked for, whether it came in the response or over a stream; a response with records
    is handed on as it is, and never as a transfer; a connection id never. *)
Theorem found_content_valid outside enr key_bytes w content utp w' :
  send_find_content outside enr key_bytes w = (Ok (content, utp), w') ->
  exists key, key_try_from key_bytes = Ok key
    /\ match content with
       | ContentBytes c => validate_content outside key c = Ok tt
       | Enrs _ => utp = false
       | ConnectionId _ => False
       end.
Proof. apply find_content_checked. Qed.

Lemma own_distance_valid : validate_find_nodes_distances [0] = Ok tt.
Proof. reflexivity. Qed.

Lemma send_find_nodes_reply enr ds w nodes w' :
  validate_find_nodes_distances ds = Ok tt ->
  w_request (Request.FindNodes {| distances := ds |}) (RequestOutgoing enr) w = (Some (Ok (Response.Nodes nodes)), w') ->
  send_find_nodes enr ds w = (Ok nodes, w').
Proof.
  intros Hv Hr. unfold send_find_nodes, bind, lift, expect, send_overlay_request. rewrite Hv.
  unfold bind. by rewrite Hr.
Qed.

Lemma get_enr_present id w node st :
  id <> enr_node_id (w_local_enr w) ->
  (kb_entry (w_kbuckets w) id).2 = Present node st ->
  get_enr id w = (Ok (node_enr node), w_set_kbuckets (kb_entry (w_kbuckets w) id).1 w).
Proof.
  intros Hid He. unfold get_enr, bind, local_enr, reads. rewrite decide_False by done.
  unfold on_table. destruct (kb_entry (w_kbuckets w) id) as [k e]. simpl in He. by subst e.
Qed.

(** The newest record that the known node answers with is the answer. *)
Lemma lookup_enr_newest id w node st nodes x w' :
  id <> enr_node_id (w_local_enr w) ->
  (kb_entry (w_kbuckets w) id).2 = Present node st ->
  w_request (Request.FindNodes {| distances := [0] |}) (RequestOutgoing (node_enr node))
    (w_set_kbuckets (kb_entry (w_kbuckets w) id).1 w) = (Some (Ok (Response.Nodes nodes)), w') ->
  newest (enrs nodes) = Some x ->
  lookup_enr id w = (Ok x, w').
Proof.
  intros Hid He Hr Hx. unfold lookup_enr, bind, local_enr, reads. rewrite decide_False by done.
  unfold attempt. rewrite (get_enr_present _ _ _ _ Hid He).
  rewrite (send_find_nodes_reply _ _ _ _ _ own_distance_valid Hr). by rewrite Hx.
Qed.

(** A record that is looked up is the newest one in the answer of the node, if that is
    in the routing table and answers with any, and neither its sequence number nor whose
    record it is matters. *)
Theorem lookup_enr_answer id w node st nodes x w' :
  id <> enr_node_id (w_local_enr w) ->
  (kb_entry (w_kbuckets w) id).2 = Present node st ->
  w_request (Request.FindNodes {| distances := [0] |}) (RequestOutgoing (node_enr node))
    (w_set_kbuckets (kb_entry (w_kbuckets w) id).1 w) = (Some (Ok (Response.Nodes nodes)), w') ->
  newest (enrs nodes) = Some x ->
  lookup_enr id w = (Ok x, w').
Proof. apply lookup_enr_newest. Qed.
End Correct.

(** ** Two nodes *)

Section Peer.
Context `{E : EnrLib} `{WL : WireLib} `{CK : OverlayContentKey} `{KB : !KBucketsTable} `{KL : KeyLib bytes}
  {St World : Type} `{CS : !ContentStore St} `{V : !Validator} `{OW : !OverlayWorld St World}.
Implicit Types (w : World) (self : OverlayService.t St).
Import OverlayService.

(** An undisturbed connection to a peer that runs this program: its service answers the
    requests that are sent to it, and a stream with the connection id under which it serves
    content delivers that content.  Storing the routing table affects nothing else. *)
Class PeerNetwork (peer : World -> OverlayService.t St) : Prop := {
  peer_replies request enr w self' response :
    enr_node_id enr = enr_node_id (OverlayService.local_enr (peer w)) ->
    process_incoming (peer w) (Request.on_wire request) (enr_node_id (w_local_enr w)) = (Ok self', Ok response) ->
    exists w', w_request request (RequestOutgoing enr) w = (Some (Ok response), w')
      /\ peer w' = self' /\ w_local_enr w' = w_local_enr w;
  peer_streams enr cid content w :
    enr_node_id enr = enr_node_id (OverlayService.local_enr (peer w)) ->
    last (effects (peer w)) = Some (SpawnSendContent cid content) ->
    (w_utp_read enr cid ((cid + 1) mod 2 ^ 16) w).1 = Some content;
  peer_set_kbuckets k w : peer (w_set_kbuckets k w) = peer w;
  local_set_kbuckets k w : w_local_enr (w_set_kbuckets k w) = w_local_enr w;
}.

(** What a request leaves alone until it is handled. *)
Definition same_host self self' : Prop :=
  OverlayService.local_enr self' = OverlayService.local_enr self
  /\ cached_node_addr self' = cached_node_addr self /\ utp_cid self' = utp_cid self /\ store self' = store self.

Lemma connect_node_host self node dir : same_host self (connect_node self node dir).
Proof.
  unfold connect_node, entry, ping_queue_insert, ping_queue_remove, ping_node. simpl.
  repeat case_match; by repeat split.
Qed.

Lemma register_host self source : same_host self (register_node_activity self source).
Proof.
  unfold register_node_activity, entry. destruct (kb_entry (kbuckets self) source) as [k e]. simpl.
  destruct (entry_node e).
  - unfold update_node_connection_state, ping_queue_remove. simpl. repeat case_match; by repeat split.
  - destruct (cached_node_addr self source) as [enr|]; [|by repeat split].
    destruct (connect_node_host (set_kbuckets self k)
      {| node_enr := enr; node_data_radius := Distance_MAX |} Incoming) as (H1 & H2 & H3 & H4).
    by repeat split.
Qed.

(** The service answers a request for content that it has. *)
Lemma serve_stored self source key_bytes key c :
  key_try_from key_bytes = Ok key -> store_get (store self) key = Ok (Some c) ->
  let served := process_incoming self (Request.FindContent {| content_key := key_bytes |}) source in
  (Z.of_nat (length c) <= MAX_PORTAL_CONTENT_PAYLOAD_SIZE ->
     exists self', served = (Ok self', Ok (Response.Content (ContentBytes c))))
  /\ (MAX_PORTAL_CONTENT_PAYLOAD_SIZE < Z.of_nat (length c) -> forall a, cached_node_addr self source = Some a ->
      exists self', served = (Ok self', Ok (Response.Content (ConnectionId (u16_to_be (utp_cid self a)))))
        /\ last (effects self') = Some (SpawnSendContent (utp_cid self a) c)
        /\ OverlayService.local_enr self' = OverlayService.local_enr self).
Proof.
  intros Hk Hg. destruct (register_host self source) as (Hl & Hc & Hu & Hst).
  unfold process_incoming, handle_request, map_response, handle_find_content.
  cbn [content_key]. rewrite Hk, Hst, Hg. split.
  - intros Hle. destruct (Z.leb_spec (Z.of_nat (length c)) MAX_PORTAL_CONTENT_PAYLOAD_SIZE); [|lia]. by eexists.
  - intros Hlt a Ha. destruct (Z.leb_spec (Z.of_nat (length c)) MAX_PORTAL_CONTENT_PAYLOAD_SIZE); [lia|].
    rewrite Hc, Ha, Hu. eexists. split; [done|]. cbn. by rewrite last_snoc.
Qed.

Context (peer : World -> OverlayService.t St) `{PN : !PeerNetwork peer}.

(** C16: Content that a peer has is retrieved from it, short or long: if the peer runs this
    program, holds content for the key that is valid (given what the networks answer to the
    validator during the call) and, for content that does not fit into a
    packet, knows the record of the local node, then asking it for the content yields
    exactly that content, as a transfer if and only if it does not fit into a packet. *)
Theorem peer_content_retrieved w outside enr key_bytes key c :
  enr_node_id enr = enr_node_id (OverlayService.local_enr (peer w)) ->
  key_try_from key_bytes = Ok key -> store_get (store (peer w)) key = Ok (Some c) ->
  validate_content outside key c = Ok tt ->
  (MAX_PORTAL_CONTENT_PAYLOAD_SIZE < Z.of_nat (length c) ->
     exists a, cached_node_addr (peer w) (enr_node_id (w_local_enr w)) = Some a
       /\ 0 <= utp_cid (peer w) a < 2 ^ 16) ->
  exists w', send_find_content outside enr key_bytes w
    = (Ok (ContentBytes c, MAX_PORTAL_CONTENT_PAYLOAD_SIZE <? Z.of_nat (length c)), w').
Proof.
  intros Henr Hk Hg Hv Ha. unfold send_find_content, bind at 1, lift. rewrite Hk. cbn [map_err].
  destruct (Z.ltb_spec MAX_PORTAL_CONTENT_PAYLOAD_SIZE (Z.of_nat (length c))) as [Hlt|Hle].
  - destruct (Ha Hlt) as (a & Hca & Hcid).
    destruct (serve_stored (peer w) (enr_node_id (w_local_enr w)) key_bytes key c Hk Hg) as [_ Hs].
    destruct (Hs Hlt a Hca) as (self' & Hp & Hlast & Hl).
    destruct (peer_replies (Request.FindContent {| content_key := key_bytes |}) enr w _ _ Henr Hp)
      as (w1 & Hw1 & Hp1 & _).
    unfold bind, send_overlay_request. rewrite Hw1. rewrite u16_swap by done.
    unfold init_find_content_stream. rewrite <- Hp1 in Hl, Hlast. rewrite <- Hl in Henr.
    pose proof (peer_streams enr _ c w1 Henr Hlast) as Hread.
    destruct (w_utp_read enr (utp_cid (peer w) a) _ w1) as [r w2]. simpl in Hread. subst r.
    unfold checked. rewrite Hv. by eexists.
  - destruct (serve_stored (peer w) (enr_node_id (w_local_enr w)) key_bytes key c Hk Hg) as [Hs _].
    destruct (Hs Hle) as [self' Hp].
    destruct (peer_replies (Request.FindContent {| content_key := key_bytes |}) enr w _ _ Henr Hp) as (w1 & Hw1 & _).
    unfold bind, send_overlay_request. rewrite Hw1. unfold checked. rewrite Hv. by eexists.
Qed.

(** The service answers a request for its own record. *)
Lemma serve_own_record self source :
  enr_node_id (OverlayService.local_enr self) <> source ->
  ssz_bytes_len [OverlayService.local_enr self] <= MAX_PORTAL_NODES_ENRS_SIZE ->
  process_incoming self (Request.FindNodes {| distances := [0] |}) source
  = (Ok (register_node_activity self source),
     Ok (Response.Nodes {| total := 1; enrs := [OverlayService.local_enr self] |})).
Proof.
  intros Hs Hf. destruct (register_host self source) as [Hl _].
  set (s1 := register_node_activity self source) in *.
  assert (Hn : nodes_by_distance s1 [0] = (s1, [OverlayService.local_enr s1])) by reflexivity.
  unfold process_incoming, handle_request, map_response, handle_find_nodes. fold s1. cbn [distances].
  rewrite Hn, Hl. rewrite filter_cons_True, filter_nil by done.
  unfold pop_while_ssz_bytes_len_gt. cbn [pop_loop length].
  by destruct (Z.ltb_spec MAX_PORTAL_NODES_ENRS_SIZE (ssz_bytes_len [OverlayService.local_enr self])); [lia|].
Qed.

(** Looking up the record of a node that is in the routing table and that runs this
    program yields its current record, however old the one in the table is. *)
Theorem lookup_enr_current w id node st :
  id = enr_node_id (OverlayService.local_enr (peer w)) -> id <> enr_node_id (w_local_enr w) ->
  (kb_entry (w_kbuckets w) id).2 = Present node st -> enr_node_id (node_enr node) = id ->
  ssz_bytes_len [OverlayService.local_enr (peer w)] <= MAX_PORTAL_NODES_ENRS_SIZE ->
  exists w', lookup_enr id w = (Ok (OverlayService.local_enr (peer w)), w').
Proof.
  intros Hid Hne He Hn Hf. set (w1 := w_set_kbuckets (kb_entry (w_kbuckets w) id).1 w).
  assert (Hp : peer w1 = peer w) by apply peer_set_kbuckets.
  assert (Hl : w_local_enr w1 = w_local_enr w) by apply local_set_kbuckets.
  destruct (peer_replies (Request.FindNodes {| distances := [0] |}) (node_enr node) w1
    (register_node_activity (peer w) (enr_node_id (w_local_enr w)))
    (Response.Nodes {| total := 1; enrs := [OverlayService.local_enr (peer w)] |})) as (w2 & Hw2 & _).
  - rewrite Hp. congruence.
  - rewrite Hp, Hl. apply serve_own_record; [congruence|done].
  - exists w2. by eapply lookup_enr_newest.
Qed.
End Peer.

(** ** Gossip with a trace *)

Section Trace.
Context `{E : EnrLib} `{WL : WireLib} `{CK : OverlayContentKey} `{KB : !KBucketsTable} `{KL : KeyLib bytes}
  {St World : Type} `{R : RandomLib} `{OW : !OverlayWorld St World}.

Lemma trace_offers_sublist item enrs : forall g (w w' : World) g',
  trace_offers item g enrs w = (Ok g', w') ->
  exists o a t, g' = gossip_result (offered g ++ o) (accepted g ++ a) (transferred g ++ t)
    /\ o `sublist_of` enrs /\ a `sublist_of` o /\ t `sublist_of` o.
Proof.
  induction enrs as [|enr enrs IH]; intros g w w' g'; cbn [trace_offers].
  - intros [= <- <-]. exists [], [], []. rewrite !app_nil_r. by destruct g.
  - unfold bind. destruct (trace_offer item g enr w) as [r w1] eqn:H1. destruct r as [g1| |]; [|done..].
    intros (o & a & t & -> & Ho & Ha & Ht)%IH.
    assert (Hcase : g1 = g \/ exists a0 t0, g1 = gossip_result (offered g ++ [enr]) (accepted g ++ a0) (transferred g ++ t0)
      /\ a0 `sublist_of` [enr] /\ t0 `sublist_of` [enr]).
    { revert H1. unfold trace_offer. destruct (w_traced_offer _ _ _) as [[|resp result] w2]; [intros [= <- <-]; by left|].
      intros H. right. assert (Hnil : [] `sublist_of` [enr]) by apply sublist_nil_l.
      destruct resp as [[[| | |acc]| |]|]; try (injection H as <- <-; exists [], []; by rewrite !app_nil_r); [|done].
      destruct (existsb id (accept_content_keys acc)); destruct result as [[|]|]; injection H as <- <-; cbn;
        [exists [enr], [enr]|exists [enr], []|exists [enr], []|exists [], [enr]|exists [], []|exists [], []];
        by rewrite ?app_nil_r. }
    destruct Hcase as [->|(a0 & t0 & -> & Ha0 & Ht0)]; cbn.
    + exists o, a, t. split_and!; [done|by apply sublist_cons|done..].
    + exists (enr :: o), (a0 ++ a), (t0 ++ t). rewrite <- !app_assoc. split_and!; [done|by apply sublist_skip| |].
      * by apply (sublist_app _ [enr] _ o).
      * by apply (sublist_app _ [enr] _ o).
Qed.

(** A traced gossip reports only what happened to interested nodes: those it offered the
    content to, in their order, and among them those that accepted and those that were
    sent it; eight at most. *)
Theorem gossip_trace_consistent `{!RandomLibOk R} (key : ContentKey) data (w w' : World) g :
  propagate_gossip_trace key data w = (Ok g, w') ->
  offered g `sublist_of` gossip_targets key w
  /\ accepted g `sublist_of` offered g /\ transferred g `sublist_of` offered g
  /\ (length (offered g) <= Gossip.NUM_CLOSEST_NODES + Gossip.NUM_FARTHER_NODES)%nat.
Proof.
  unfold propagate_gossip_trace, bind, reads. intros (o & a & t & -> & Ho & Ha & Ht)%trace_offers_sublist. cbn.
  split_and!; [done..|]. apply sublist_length in Ho. etransitivity; [exact Ho|].
  unfold gossip_targets, Gossip.calculate_interested_enrs, Gossip.select_gossip_recipients, Gossip.select_random_enrs.
  repeat case_match; cbn; try lia; rewrite ?length_app, ?length_take, ?(proj1 (choose_multiple_spec _ _ _)); lia.
Qed.
End Trace.
End OverlayProtocol.

(** ** The theorems at work *)

(** A node, its routing table, and the service of a peer at the other end. *)
Record TwoNodes := {
  tn_local : bytes;
  tn_table : toy_kb;
  tn_peer : OverlayService.t (E := toy_enr) (CK := IdentityContentKey.overlay_key) (KB := toy_table) MemoryContentStore.t;
}.

Definition tn_with (w : TwoNodes) table peer : TwoNodes :=
  {| tn_local := tn_local w; tn_table := table; tn_peer := peer |}.

Definition tn_request (request : Request.t) (direction : RequestDirection (E := toy_enr)) (w : TwoNodes) :=
  match direction with
  | RequestIncoming _ _ => (None, w)
  | RequestOutgoing enr =>
      if decide (enr_node_id enr = enr_node_id (OverlayService.local_enr (tn_peer w))) then
        match OverlayService.process_incoming (tn_peer w) (Request.on_wire request) (enr_node_id (tn_local w)) with
        | (Ok peer, r) => (Some r, tn_with w (tn_table w) peer)
        | _ => (None, w)
        end
      else (None, w)
  end.

Definition tn_read (cid : Z) (w : TwoNodes) : option bytes :=
  match last (OverlayService.effects (tn_peer w)) with
  | Some (OverlayService.SpawnSendContent cid' content) => if cid' =? cid then Some content else None
  | _ => None
  end.

#[global] Instance two_nodes : OverlayWorld (CK := IdentityContentKey.overlay_key) MemoryContentStore.t TwoNodes := {|
  w_local_enr := tn_local;
  w_kbuckets := tn_table;
  w_set_kbuckets k w := tn_with w k (tn_peer w);
  w_store w := MemoryContentStore.new (enr_node_id (tn_local w));
  w_set_store _ w := w;
  w_command _ _ w := w;
  w_find_enr _ _ := None;
  w_discovery_enrs _ := [];
  w_request := tn_request;
  w_find_node _ w := (None, w);
  w_find_content _ _ w := (None, w);
  w_traced_offer _ _ w := (OfferNotSent, w);
  w_utp_read _ recv _ w := (tn_read recv w, w);
|}.

#[global] Instance two_nodes_network : OverlayProtocol.PeerNetwork tn_peer.
Proof.
  split; [|intros enr cid content w _ H; cbn; unfold tn_read; by rewrite H, Z.eqb_refl|done..].
  intros request enr w self' response Henr Hp.
  change (w_request request (RequestOutgoing enr) w) with (tn_request request (RequestOutgoing enr) w).
  unfold tn_request. rewrite decide_True by done.
  change (w_local_enr w) with (tn_local w) in Hp. rewrite Hp. by eexists.
Qed.

(** Valid content has at most 2000 bytes. *)
Definition short_validator : Validator (CK := IdentityContentKey.overlay_key) :=
  {| Outside := unit; validate_content _ _ v := if (length v <=? 2000)%nat then Ok tt else Err tt |}.
Definition short_outside : Outside (Validator := short_validator) := tt.

(** The local node knows an old record of the peer. *)
Definition two_world : TwoNodes := {|
  tn_local := [x55];
  tn_table := (toy_id x55, [(toy_id x00, stale_node 7, up true)]);
  tn_peer := service_a;
|}.

Lemma found_content_valid_witness :
  exists w', OverlayProtocol.send_find_content (V := short_validator) short_outside [x00] (replicate 32 x0a) two_world
      = (Ok (ContentBytes [x01; x02], false), w')
    /\ exists key : IdentityContentKey.t, validate_content (Validator := short_validator) short_outside key [x01; x02] = Ok tt.
Proof.
  eexists. split; [vm_compute; reflexivity|].
  destruct (OverlayProtocol.found_content_valid (V := short_validator) (OW := two_nodes) short_outside [x00] (replicate 32 x0a) two_world
    (ContentBytes [x01; x02]) false _ ltac:(vm_compute; reflexivity)) as (key & _ & H). exists key. exact H.
Defined.

Lemma peer_content_retrieved_witness :
  exists w', OverlayProtocol.send_find_content (V := short_validator) (OW := two_nodes) short_outside [x00] (replicate 32 x0b) two_world
    = (Ok (ContentBytes (replicate 2000 x07), true), w').
Proof.
  apply (OverlayProtocol.peer_content_retrieved (V := short_validator) (OW := two_nodes) tn_peer two_world short_outside [x00]
    (replicate 32 x0b) large_key (replicate 2000 x07)); [vm_compute; reflexivity..|].
  intros _. exists [x55]. split; [vm_compute; reflexivity|]. by vm_compute.
Defined.

Lemma lookup_enr_current_witness :
  exists w', OverlayProtocol.lookup_enr (OW := two_nodes) (toy_id x00) two_world = (Ok [x00], w').
Proof.
  apply (OverlayProtocol.lookup_enr_current (OW := two_nodes) tn_peer two_world (toy_id x00) (stale_node 7) (up true));
    [vm_compute; reflexivity|done|vm_compute; reflexivity..|by vm_compute].
Defined.

(** A peer that answers with somebody else's record. *)
Definition lie : @Nodes toy_enr := @Build_Nodes toy_enr 1 [[x77]].

Definition liar_world : OverlayWorld (CK := IdentityContentKey.overlay_key) MemoryContentStore.t toy_kb := {|
  w_local_enr _ := ([x55] : Enr);
  w_kbuckets k := k;
  w_set_kbuckets k _ := k;
  w_store _ := MemoryContentStore.new (toy_id x55);
  w_set_store _ w := w;
  w_command _ _ w := w;
  w_find_enr _ _ := None;
  w_discovery_enrs _ := [];
  w_request _ _ w := (Some (Ok (Response.Nodes lie)), w);
  w_find_node _ w := (None, w);
  w_find_content _ _ w := (None, w);
  w_traced_offer _ _ w := (OfferNotSent, w);
  w_utp_read _ _ _ w := (None, w);
|}.

Lemma lookup_enr_answer_witness :
  OverlayProtocol.lookup_enr (OW := liar_world) (toy_id x00) (toy_id x55, [(toy_id x00, stale_node 7, up true)])
    = (Ok [x77], (toy_id x55, [(toy_id x00, stale_node 7, up true)]))
  /\ @enr_node_id toy_enr [x77] <> toy_id x00.
Proof.
  split; [|done].
  apply (OverlayProtocol.lookup_enr_answer (OW := liar_world) _ _ (stale_node 7) (up true) lie);
    [done|vm_compute; reflexivity..].
Defined.
