(* ===== verification/Events.v ===== *)
(** * Events: requests of peers on their way to a network.

    [portalnet/src/events.rs] hands the TALKREQs of discv5 and the events of the overlays
    to the networks they are meant for; [trin-history/src/events.rs] and its two siblings
    take them from there and answer them.  A channel is what was sent over it, with
    whether anybody still receives. *)

From stdpp Require Import gmap sets.
From S2P Require Import Prelude.
From S2P Require Import Distance.
From S2P Require Import Hex.
From S2P Require Import ContentKey.
From S2P Require Import Query.
From S2P Require Import Wire.
From S2P Require Import QueryTrace.
From S2P Require Import ContentStore.
From S2P Require Import Overlay.
From S2P Require Import Gossip.
From S2P Require Import OverlayContent.
From S2P Require Import OverlayProtocol.

(** ** Events of the overlays *)

Inductive OverlayEvent := LightClientOptimisticUpdate | LightClientFinalityUpdate.

Module Timestamp.
Inductive t := NotAvailable | CreateTime (time : Z).

Definition to_millis (self : t) : option Z :=
  match self with
  | NotAvailable => None
  | CreateTime time => if time =? -1 then None else Some time
  end.

(** The low 64 bits, read with a sign. *)
Definition as_i64 (z : Z) : Z := (z + 2 ^ 63) mod 2 ^ 64 - 2 ^ 63.

(** [time] in milliseconds relative to the epoch; times before it count as the epoch. *)
Definition millis_to_epoch (time : Z) : Z := as_i64 (Z.max 0 time).

Definition from_system_time (system_time : Z) : t := CreateTime (millis_to_epoch system_time).
End Timestamp.

Record EventEnvelope := envelope {
  timestamp : Timestamp.t;
  from : ProtocolId.t;
  payload : OverlayEvent;
  destination : option (list ProtocolId.t);
}.

(** [EventEnvelope::new] at the time [now]. *)
Definition envelope_new (now : Z) (payload : OverlayEvent) (from : ProtocolId.t)
    (destination : option (list ProtocolId.t)) : EventEnvelope :=
  envelope (Timestamp.from_system_time now) from payload destination.

(** [OverlayRequest] of [events.rs]. *)
Inductive OverlayMessage := Talk (request : TalkRequest) | Event (event : EventEnvelope).

(** ** Channels *)

Record UnboundedSender (A : Type) := sender { received : bool; sent : list A }.
Arguments sender {A} _ _.
Arguments received {A} _.
Arguments sent {A} _.

(** [send]: an error once the receiver is gone. *)
Definition send {A} (tx : UnboundedSender A) (msg : A) : UnboundedSender A * bool :=
  if received tx then (sender true (sent tx ++ [msg]), true) else (tx, false).

(** ** The dispatcher *)

Module PortalnetEvents.

Record t := mk {
  history_handle : option (UnboundedSender OverlayMessage);
  state_handle : option (UnboundedSender OverlayMessage);
  beacon_handle : option (UnboundedSender OverlayMessage);
  utp_talk_reqs : UnboundedSender TalkRequest;
}.

(** Errors are logged. *)
Definition send_overlay_request (tx : option (UnboundedSender OverlayMessage)) (msg : OverlayMessage)
    : option (UnboundedSender OverlayMessage) :=
  match tx with
  | Some tx => Some (send tx msg).1
  | None => None
  end.

Definition send_history (self : t) msg : t :=
  mk (send_overlay_request (history_handle self) msg) (state_handle self) (beacon_handle self) (utp_talk_reqs self).
Definition send_state (self : t) msg : t :=
  mk (history_handle self) (send_overlay_request (state_handle self) msg) (beacon_handle self) (utp_talk_reqs self).
Definition send_beacon (self : t) msg : t :=
  mk (history_handle self) (state_handle self) (send_overlay_request (beacon_handle self) msg) (utp_talk_reqs self).

Definition dispatch_discv5_talk_req `{X : HexLib} (self : t) (request : TalkRequest) : t :=
  match ProtocolId.from_str (hex_encode_upper (talk_protocol request)) with
  | Ok protocol =>
      match protocol with
      | ProtocolId.History => send_history self (Talk request)
      | ProtocolId.Beacon => send_beacon self (Talk request)
      | ProtocolId.State => send_state self (Talk request)
      | ProtocolId.Utp =>
          mk (history_handle self) (state_handle self) (beacon_handle self) (send (utp_talk_reqs self) request).1
      | _ => self
      end
  | _ => self
  end.

Definition all_protocols : list ProtocolId.t := [ProtocolId.History; ProtocolId.Beacon; ProtocolId.State].

Definition recipients (event : EventEnvelope) : list ProtocolId.t :=
  filter (fun id => id <> from event) (default all_protocols (destination event)).

Definition dispatch_overlay_event (self : t) (event : EventEnvelope) : t :=
  let recipients := recipients event in
  let self := if decide (ProtocolId.Beacon ∈ recipients) then send_beacon self (Event event) else self in
  let self := if decide (ProtocolId.State ∈ recipients) then send_state self (Event event) else self in
  if decide (ProtocolId.History ∈ recipients) then send_history self (Event event) else self.

(** What the loop of [start] receives: a TALKREQ, or an event (none if the stream lagged). *)
Inductive input := InTalk (request : TalkRequest) | InEvent (event : option EventEnvelope).

Definition dispatch `{X : HexLib} (self : t) (i : input) : t :=
  match i with
  | InTalk request => dispatch_discv5_talk_req self request
  | InEvent (Some event) => dispatch_overlay_event self event
  | InEvent None => self
  end.

(** [start]: [receivers] tells which of the three networks have an event stream. *)
Definition start `{X : HexLib} (self : t) (receivers : list bool) (inputs : list input) : res Empty_set t :=
  if existsb id receivers then Ok (fold_left dispatch inputs self) else Panic.

(** ** Theorems *)

(** The hex digits that capital letters are written with, and that they are what
    [hex::encode_upper] writes for the bytes they stand for. *)
Definition is_upper_digit (c : byte) : Prop := 0x30 <= byte_to_Z c <= 0x39 \/ 0x41 <= byte_to_Z c <= 0x46.

Class HexUpperOk (X : HexLib) : Prop := {
  hex_upper_parse s b : hex_parse s = Some b -> Forall is_upper_digit s -> hex_digits_upper b = s;
  hex_parse_upper b : hex_parse (hex_digits_upper b) = Some b;
}.

Lemma name_digits p : exists ds, ProtocolId.name p = str_0x ++ ds /\ Forall is_upper_digit ds.
Proof.
  exists (drop 2 (ProtocolId.name p)). destruct p; (split; [reflexivity|]);
    repeat (apply Forall_cons; split; [unfold is_upper_digit; vm_compute; (left; split; discriminate) || (right; split; discriminate)|]);
    apply Forall_nil_2.
Qed.

Lemma from_str_name input p : ProtocolId.from_str input = Ok p <-> input = ProtocolId.name p.
Proof.
  split.
  - unfold ProtocolId.from_str. intros H. repeat (case_decide; [by simplify_eq|]). done.
  - intros ->. by destruct p.
Qed.

Lemma hex_decode_name `{X : HexLib} ds :
  Forall is_upper_digit ds -> hex_decode (str_0x ++ ds) = match hex_parse ds with Some b => Ok b | None => Err (HexDecode (str_0x ++ ds)) end.
Proof.
  intros Hd. unfold hex_decode, get_to, get_from.
  assert (Hb : is_char_boundary (str_0x ++ ds) 2 = true).
  { unfold is_char_boundary, str_0x. simpl. destruct Hd as [|c ds Hc _]; [done|]. simpl.
    apply negb_true_iff, andb_false_iff. left. apply Z.leb_gt. unfold is_upper_digit in Hc. lia. }
  rewrite Hb. reflexivity.
Qed.

(** The bytes of a protocol are the only ones that are read as it. *)
Lemma protocol_of_bytes `{X : HexLib} `{!HexUpperOk X} p b c :
  ProtocolId.to_bytes p = Ok b -> (ProtocolId.from_str (hex_encode_upper c) = Ok p <-> c = b).
Proof.
  destruct (name_digits p) as (ds & Hn & Hd).
  unfold ProtocolId.to_bytes. rewrite Hn, hex_decode_name by done.
  destruct (hex_parse ds) as [b'|] eqn:Hp; simpl; [|done]. intros [= <-].
  rewrite from_str_name, Hn. unfold hex_encode_upper. split.
  - intros H%app_inv_head. subst ds. rewrite hex_parse_upper in Hp. by simplify_eq.
  - intros ->. by rewrite (hex_upper_parse _ _ Hp Hd).
Qed.

(** What the networks and the uTP socket were sent. *)
Definition delivered (self : t) (p : ProtocolId.t) : list OverlayMessage :=
  match p with
  | ProtocolId.History => from_option sent [] (history_handle self)
  | ProtocolId.State => from_option sent [] (state_handle self)
  | ProtocolId.Beacon => from_option sent [] (beacon_handle self)
  | ProtocolId.Utp => map Talk (sent (utp_talk_reqs self))
  | _ => []
  end.

(** The protocol is served: its network was started and still receives. *)
Definition serves (self : t) (p : ProtocolId.t) : bool :=
  match p with
  | ProtocolId.History => from_option received false (history_handle self)
  | ProtocolId.State => from_option received false (state_handle self)
  | ProtocolId.Beacon => from_option received false (beacon_handle self)
  | ProtocolId.Utp => received (utp_talk_reqs self)
  | _ => false
  end.

Lemma sent_request tx msg :
  from_option sent [] (send_overlay_request tx msg)
  = from_option sent [] tx ++ (if from_option received false tx then [msg] else []).
Proof. destruct tx as [[[] l]|]; simpl; by rewrite ?app_nil_r. Qed.

Lemma received_request tx msg :
  from_option received false (send_overlay_request tx msg) = from_option received false tx.
Proof. by destruct tx as [[[] l]|]. Qed.

Lemma sent_talk (tx : UnboundedSender TalkRequest) r :
  map Talk (sent (send tx r).1) = map Talk (sent tx) ++ (if received tx then [Talk r] else []).
Proof. destruct tx as [[] l]; simpl; by rewrite ?map_app, ?app_nil_r. Qed.

Lemma received_talk (tx : UnboundedSender TalkRequest) r : received (send tx r).1 = received tx.
Proof. by destruct tx as [[] l]. Qed.

Lemma dispatch_talk_delivered `{X : HexLib} self request q :
  delivered (dispatch_discv5_talk_req self request) q
  = delivered self q
    ++ (if match ProtocolId.from_str (hex_encode_upper (talk_protocol request)) with
           | Ok p => bool_decide (q = p) | _ => false end && serves self q then [Talk request] else []).
Proof.
  unfold dispatch_discv5_talk_req.
  destruct (ProtocolId.from_str _) as [p| |]; [|by rewrite app_nil_r..].
  destruct p, q; simpl; rewrite ?app_nil_r; try done; first [apply sent_request | apply sent_talk].
Qed.

(** A TALKREQ that a peer sends for a protocol reaches that protocol and nothing else:
    it is handed to its network (or to the uTP socket) if that is running, every other
    one is left alone, and a TALKREQ whose protocol is none of the six goes nowhere. *)
Theorem talk_request_routed `{X : HexLib} `{!HexUpperOk X} self request :
  (forall p b q, ProtocolId.to_bytes p = Ok b -> talk_protocol request = b ->
     delivered (dispatch_discv5_talk_req self request) q
     = delivered self q ++ (if bool_decide (q = p) && serves self q then [Talk request] else []))
  /\ ((forall p, ProtocolId.to_bytes p <> Ok (talk_protocol request)) ->
      (forall p, exists b, ProtocolId.to_bytes p = Ok b) ->
      dispatch_discv5_talk_req self request = self).
Proof.
  split.
  - intros p b q Hp Hb. by rewrite dispatch_talk_delivered, (proj2 (protocol_of_bytes p b _ Hp) Hb).
  - intros Hno Hall. unfold dispatch_discv5_talk_req.
    destruct (ProtocolId.from_str _) as [p| |] eqn:Hf; [|done..]. exfalso.
    destruct (Hall p) as [b Hb]. apply (proj1 (protocol_of_bytes p b _ Hb)) in Hf. by apply (Hno p); rewrite Hf.
Qed.

(** An event goes to the overlays it names (all three, if it names none) except to the
    one that it comes from, once to each that is running. *)
Theorem event_recipients self event q :
  delivered (dispatch_overlay_event self event) q
  = delivered self q
    ++ (if bool_decide (q ∈ all_protocols /\ q <> from event /\ q ∈ default all_protocols (destination event))
             && serves self q then [Event event] else []).
Proof.
  assert (Hin : forall p, bool_decide (p ∈ recipients event)
    = bool_decide (p <> from event /\ p ∈ default all_protocols (destination event))).
  { intros p. apply bool_decide_ext. unfold recipients. by rewrite list_elem_of_filter. }
  assert (Hone : forall p, p ∈ all_protocols -> bool_decide (p ∈ all_protocols /\ p <> from event
    /\ p ∈ default all_protocols (destination event)) = bool_decide (p ∈ recipients event)).
  { intros p Hp. rewrite Hin. apply bool_decide_ext. tauto. }
  unfold dispatch_overlay_event.
  destruct q; try (rewrite bool_decide_eq_false_2 by (unfold all_protocols; set_solver);
    rewrite app_nil_r; by repeat case_decide); rewrite Hone by (unfold all_protocols; set_solver).
  all: repeat case_decide; rewrite ?bool_decide_eq_true_2, ?bool_decide_eq_false_2 by done; simpl;
    rewrite ?app_nil_r, ?sent_request; done.
Qed.
End PortalnetEvents.

(** ** Answering requests *)

Section NetworkEvents.
Context `{E : EnrLib} `{WL : WireLib} `{CK : OverlayContentKey} `{KB : !KBucketsTable} `{KL : KeyLib bytes}
  {St World : Type} `{CS : !ContentStore St} `{V : !Validator} `{MS : !MessageSsz} `{OW : !OverlayWorld St World}.

(** [handle_talk_request] of the networks, which differ in the name of the log span: the
    reply, empty if there was an error, and none if the task panicked. *)
Definition reply_to (request : TalkRequest) (w : World) : option bytes * World :=
  match OverlayProtocol.process_one_request request w with
  | (Ok response, w) => (Some (message_as_ssz (Response.to_message response)), w)
  | (Err _, w) => (Some [], w)
  | (Panic, w) => (None, w)
  end.

(** The tasks for the messages of a network: TALKREQs are answered, events are passed on to
    the service, by [process_one_event]. *)
Definition handle_message (process_one_event : EventEnvelope -> World -> World)
    (respond : TalkRequest -> bytes -> World -> World) (msg : OverlayMessage) (w : World) : World :=
  match msg with
  | Talk talk_request =>
      match reply_to talk_request w with
      | (Some reply, w) => respond talk_request reply w
      | (None, w) => w
      end
  | Event event => process_one_event event w
  end.

(** A request that is read back from the wire, as the service of the network answers it. *)
Lemma reply_to_request request w message r response w' :
  message_from_ssz (talk_body request) = Some message -> Request.try_from message = Ok r ->
  w_request r (RequestIncoming (talk_id request) (talk_node_id request)) w = (Some (Ok response), w') ->
  reply_to request w = (Some (message_as_ssz (Response.to_message response)), w').
Proof.
  intros Hm Hr Hw. unfold reply_to, OverlayProtocol.process_one_request, OverlayProtocol.send_overlay_request.
  by rewrite Hm, Hr, Hw.
Qed.

(** A message that cannot be read, or that is no request, is answered with nothing. *)
Lemma reply_to_garbage request w :
  match message_from_ssz (talk_body request) with
  | Some message => Request.try_from message = Err NonRequestMessage
  | None => True
  end -> reply_to request w = (Some [], w).
Proof.
  intros H. unfold reply_to, OverlayProtocol.process_one_request.
  destruct (message_from_ssz (talk_body request)) as [m|]; [|done]. by rewrite H.
Qed.
End NetworkEvents.

(** The same task in the other two networks. *)
Module BeaconEvents.
Definition handle_talk_request := @reply_to.
End BeaconEvents.

Module StateEvents.
Definition handle_talk_request := @reply_to.
End StateEvents.
