(* ===== verification/Discovery.v ===== *)
(** * Discovery: the record of the local node and the traffic of discv5.

    [portalnet/src/discovery.rs] with [is_local_addr] of [socket.rs]: which address a node
    advertises, how its record survives a restart, the cache of observed node addresses,
    and the socket that uTP runs on.  STUN, UPnP, the network interfaces and the file with
    the record are arguments; records are built and signed by the class [EnrBuild], the
    cache is the class [LruCache]. *)

From Stdlib Require Import String.
From stdpp Require Import gmap sets.
From S2P Require Import Prelude.
From S2P Require Import Distance.
From S2P Require Import Hex.
From S2P Require Import Wire.
From S2P Require Import Gossip.
From S2P Require Import OverlayProtocol.
From S2P Require Import Events.

#[local] Open Scope list_scope.

(** ** Addresses *)

Inductive IpAddr := V4 (a : Z) | V6 (a : Z).

#[global] Instance ip_eq : EqDecision IpAddr.
Proof. solve_decision. Defined.

Record SocketAddr := { ip : IpAddr; port : Z }.

(** The part of [PortalnetConfig] that concerns discovery. *)
Record PortalnetConfig `{E : EnrLib} := {
  external_addr : option SocketAddr;
  private_key : bytes;
  listen_port : Z;
  bootnodes : list Enr;
  no_stun : bool;
  no_upnp : bool;
  node_addr_cache_capacity : Z;
}.

(** What the network answers: the two services that find the external address, and the
    addresses of the local interfaces (none if they cannot be listed). *)
Record NetworkProbe := {
  stun_for_external : option SocketAddr;
  upnp_for_external : option SocketAddr;
  network_interfaces : option (list IpAddr);
}.

Definition is_local_addr (probe : NetworkProbe) (external_ip : option IpAddr) : bool :=
  match external_ip, network_interfaces probe with
  | Some external_ip, Some interfaces => existsb (fun i => bool_decide (i = external_ip)) interfaces
  | _, _ => false
  end.

(** ** Records *)

(** [Discv5Enr::builder], [set_seq], [id] and [iter], [RlpStream] on the sequence number and
    the entries of a record, and [CombinedKey::secp256k1_from_bytes]. *)
Class EnrBuild `{E : EnrLib} := {
  CombinedKey : Type;
  secp256k1_from_bytes : bytes -> option CombinedKey;
  enr_build : option IpAddr -> Z -> bytes -> CombinedKey -> option Enr;
  enr_set_seq : Enr -> Z -> CombinedKey -> option Enr;
  enr_id : Enr -> option bytes;
  enr_entries : Enr -> list (bytes * bytes);
  rlp_content : Z -> list (bytes * bytes) -> bytes;
}.

(** A new record has the sequence number 1 and belongs to its key; setting the number keeps
    everything but the signature; all records are of the scheme "v4", and their encoding
    without the signature tells them apart. *)
Class EnrBuildOk `{B : EnrBuild} : Prop := {
  enr_build_spec ip port client key e :
    enr_build ip port client key = Some e -> enr_seq e = 1 /\ enr_id e = Some (ProtocolId.str "v4");
  enr_set_seq_spec e n key e' : enr_set_seq e n key = Some e' ->
    enr_seq e' = n /\ enr_entries e' = enr_entries e /\ enr_id e' = enr_id e
    /\ enr_node_id e' = enr_node_id e;
  rlp_content_inj n1 l1 n2 l2 : rlp_content n1 l1 = rlp_content n2 l2 -> n1 = n2 /\ l1 = l2;
}.

(** ** The cache *)

(** [LruCache]. *)
Class LruCache (K V : Type) := {
  lru : Type;
  lru_new : Z -> lru;
  lru_put : lru -> K -> V -> lru * option V;
  lru_get : lru -> K -> lru * option V;
}.

(** What was put last is there; what else is there was there before; looking something up
    removes nothing. *)
Class LruCacheOk (K V : Type) `{C : LruCache K V} : Prop := {
  lru_new_empty n k : (lru_get (lru_new n) k).2 = None;
  lru_get_put c k v : (lru_get (lru_put c k v).1 k).2 = Some v;
  lru_get_other c k k' v x : k' <> k ->
    (lru_get (lru_put c k v).1 k').2 = Some x -> (lru_get c k').2 = Some x;
  lru_get_get c k k' : (lru_get (lru_get c k).1 k').2 = (lru_get c k').2;
}.

Record NodeAddress `{E : EnrLib} := { addr_enr : Enr; socket_addr : SocketAddr }.

Module Discovery.

Inductive DiscoveryError := MismatchedAddress | BadKey | BadRecord | Discv5Failed | BadBootnode.

(** ** Starting *)

Section New.
Context `{E : EnrLib} `{T : !EnrText} `{B : !EnrBuild}.

(** The address and port for the record. *)
Definition known_endpoint (probe : NetworkProbe) (config : PortalnetConfig) : option IpAddr * Z :=
  if no_stun config then (None, listen_port config)
  else
    let known_external :=
      match external_addr config with Some a => Some a | None => stun_for_external probe end in
    match known_external with
    | Some socket => (Some (ip socket), port socket)
    | None => (None, listen_port config)
    end.

Definition enr_endpoint (probe : NetworkProbe) (config : PortalnetConfig)
    : res DiscoveryError (option IpAddr * Z) :=
  let '(enr_address, enr_port) := known_endpoint probe config in
  if negb (no_upnp config) && negb (is_local_addr probe enr_address) then
    match upnp_for_external probe with
    | Some socket =>
        match enr_address with
        | Some known_external =>
            if bool_decide (known_external <> ip socket) && bool_decide (is_Some (external_addr config))
            then Err MismatchedAddress
            else Ok (Some (ip socket), port socket)
        | None => Ok (Some (ip socket), port socket)
        end
    | None => Ok (enr_address, enr_port)
    end
  else Ok (enr_address, enr_port).

Definition get_enr_rlp_content (enr : Enr) : bytes :=
  if bool_decide (enr_id enr = Some (ProtocolId.str "v4")) then rlp_content (enr_seq enr) (enr_entries enr) else [].

(** The record of the last run, in [file], is taken over or replaced: the record that is
    used, and the file.  Files that cannot be read or written end the program. *)
Definition stored_enr (enr : Enr) (key : CombinedKey) (file : option bytes)
    : res DiscoveryError (Enr * option bytes) :=
  match file with
  | Some data =>
      match enr_from_str data with
      | None => Panic
      | Some old_enr =>
          match enr_set_seq enr (enr_seq old_enr) key with
          | None => Panic
          | Some enr =>
              if bool_decide (get_enr_rlp_content enr <> get_enr_rlp_content old_enr) then
                match enr_set_seq enr (wrap64 (enr_seq old_enr + 1)) key with
                | None => Panic
                | Some enr => Ok (enr, Some (to_base64 enr))
                end
              else Ok (old_enr, file)
          end
      end
  | None => Ok (enr, Some (to_base64 enr))
  end.

(** The bootnodes that are added to the table of discv5, by [add_enr]. *)
Fixpoint add_bootnodes (add_enr : Enr -> bool) (local : Enr) (enrs : list Enr) : res DiscoveryError (list Enr) :=
  match enrs with
  | [] => Ok []
  | enr :: enrs =>
      if decide (enr_node_id enr = enr_node_id local) then add_bootnodes add_enr local enrs
      else if add_enr enr then let? added := add_bootnodes add_enr local enrs in Ok (enr :: added)
      else Err BadBootnode
  end.

Definition client_info (trin_version : bytes) : bytes := ProtocolId.str "t " ++ trin_version.

(** [Discovery::new], up to the instance of discv5: the local record, the records of its
    table, and the file. *)
Definition new (probe : NetworkProbe) (trin_version : bytes) (add_enr : Enr -> bool)
    (config : PortalnetConfig) (file : option bytes)
    : res DiscoveryError (Enr * list Enr * option bytes) :=
  let? endpoint := enr_endpoint probe config in
  let? enr_key := ok_or (secp256k1_from_bytes (private_key config)) BadKey in
  let? enr := ok_or (enr_build endpoint.1 endpoint.2 (client_info trin_version) enr_key) BadRecord in
  let? stored := stored_enr enr enr_key file in
  let? table := add_bootnodes add_enr stored.1 (bootnodes config) in
  Ok (stored.1, table, stored.2).
End New.

(** ** Running *)

Section Running.
Context `{E : EnrLib} `{X : HexLib} `{C : LruCache bytes NodeAddress}.

(** What discv5 reports. *)
Inductive event :=
| TalkRequested (request : TalkRequest)
| SessionEstablished (enr : Enr) (addr : SocketAddr)
| OtherEvent.

(** The TALKREQs that were forwarded, and the cache. *)
Record t := mk { talk_req_tx : list TalkRequest; node_addr_cache : lru }.

(** One round of the loop of [start]. *)
Definition on_event (self : t) (e : event) : t :=
  match e with
  | TalkRequested talk_req => mk (talk_req_tx self ++ [talk_req]) (node_addr_cache self)
  | SessionEstablished enr addr =>
      mk (talk_req_tx self)
        (lru_put (node_addr_cache self) (enr_node_id enr) {| addr_enr := enr; socket_addr := addr |}).1
  | OtherEvent => self
  end.

Definition cached_node_addr (self : t) (node_id : bytes) : t * option NodeAddress :=
  let r := lru_get (node_addr_cache self) node_id in (mk (talk_req_tx self) r.1, r.2).

Definition put_cached_node_addr (self : t) (node_addr : NodeAddress) : t * option NodeAddress :=
  let r := lru_put (node_addr_cache self) (enr_node_id (addr_enr node_addr)) node_addr in
  (mk (talk_req_tx self) r.1, r.2).

(** The protocol that a TALKREQ of [send_talk_req] is sent with. *)
Definition talk_req_protocol (protocol : ProtocolId.t) : bytes :=
  match ProtocolId.to_bytes protocol with Ok b => b | _ => [] end.

(** ** The socket of uTP *)

(** [UtpEnr] compares by node id. *)
Definition utp_enr_eq (a b : Enr) : bool := bool_decide (enr_node_id a = enr_node_id b).

Inductive IoError := NotConnected | UnknownSource.

(** [recv_from] into a buffer: the new buffer, the number of bytes and the sender; the first
    TALKREQ of the channel is taken, which is closed if there is none. *)
Definition recv_from (find_enr : bytes -> option Enr) (self : t) (talk_reqs : list TalkRequest) (buf : bytes)
    : t * list TalkRequest * res IoError (bytes * nat * Enr) :=
  match talk_reqs with
  | [] => (self, [], Err NotConnected)
  | talk_req :: talk_reqs =>
      let src_node_id := talk_node_id talk_req in
      let '(self, enr) :=
        match find_enr src_node_id with
        | Some enr => (self, Ok enr)
        | None =>
            match cached_node_addr self src_node_id with
            | (self, Some node_addr) => (self, Ok (addr_enr node_addr))
            | (self, None) => (self, Err UnknownSource)
            end
        end in
      let packet := talk_body talk_req in
      let n := Nat.min (length buf) (length packet) in
      (self, talk_reqs, let? enr := enr in Ok (take n packet ++ drop n buf, n, enr))
  end.
End Running.

(** ** Theorems *)

Section Correct.
Context `{E : EnrLib} `{T : !EnrText} `{B : !EnrBuild} `{TO : !EnrTextOk} `{BO : !EnrBuildOk}.

(** The address that a node advertises: the configured one, which nothing overrides (an
    address that UPnP finds must agree with it, and may replace the port); otherwise the
    one that UPnP finds, before the one that STUN finds; none, and the port that the node
    listens on, if neither finds any. *)
Theorem endpoint_spec probe config a p :
  enr_endpoint probe config = Ok (a, p) ->
  (forall c, no_stun config = false -> external_addr config = Some c -> a = Some (ip c)
     /\ (p = port c \/ exists u, upnp_for_external probe = Some u /\ p = port u))
  /\ (a = None -> p = listen_port config /\ (no_upnp config = false -> upnp_for_external probe = None))
  /\ (no_stun config = true -> no_upnp config = true -> a = None).
Proof.
  unfold enr_endpoint, known_endpoint. intros H. split_and!.
  - intros c H1 H2. rewrite H1, H2 in H.
    destruct (negb _ && negb _); simpl in H; [|simplify_eq; auto].
    destruct (upnp_for_external probe) as [u|]; [|simplify_eq; auto].
    simpl in H. rewrite ?andb_true_r in H.
    destruct (bool_decide_reflect (ip c <> ip u)) as [Hne|Heq]; simplify_eq. apply dec_stable in Heq.
    split; [by rewrite Heq|]. right. eauto.
  - intros ->. destruct (no_stun config); [|destruct (external_addr config) as [c|], (stun_for_external probe) as [c'|]];
      destruct (no_upnp config); simpl in H; destruct (upnp_for_external probe) as [u|] eqn:Hu;
      repeat (case_hyp H; simplify_eq/=); simplify_eq; try done; by split.
  - intros H1 H2. rewrite H1, H2 in H. by simplify_eq/=.
Qed.

(** ** Restarts *)

(** The node is started with the records [built] of its configurations, one after the other. *)
Fixpoint restarts (key : CombinedKey) (built : list Enr) (file : option bytes)
    : res DiscoveryError (list Enr * option bytes) :=
  match built with
  | [] => Ok ([], file)
  | enr :: built =>
      let? r := stored_enr enr key file in
      let? rest := restarts key built r.2 in
      Ok (r.1 :: rest.1, rest.2)
  end.

Definition is_v4 (e : Enr) : Prop := enr_id e = Some (ProtocolId.str "v4").

Lemma rlp_content_eq e e' :
  is_v4 e -> is_v4 e' -> enr_seq e = enr_seq e' ->
  (get_enr_rlp_content e = get_enr_rlp_content e' <-> enr_entries e = enr_entries e').
Proof.
  intros H1 H2 H3. unfold get_enr_rlp_content. rewrite !bool_decide_eq_true_2 by done. split.
  - by intros [_ ?]%rlp_content_inj.
  - intros ->. by rewrite H3.
Qed.

(** One restart over a record of the last run. *)
Lemma stored_step enr old key e' file :
  is_v4 enr -> is_v4 old -> 0 <= enr_seq old -> enr_seq old + 1 < U64_MOD ->
  stored_enr enr key (Some (to_base64 old)) = Ok (e', file) ->
  file = Some (to_base64 e') /\ is_v4 e' /\ enr_entries e' = enr_entries enr
  /\ (e' = old \/ enr_seq e' = enr_seq old + 1).
Proof.
  intros H1 H2 H3 H4. unfold stored_enr. rewrite from_str_to_base64.
  destruct (enr_set_seq enr (enr_seq old) key) as [e|] eqn:Hs; [|done].
  destruct (enr_set_seq_spec _ _ _ _ Hs) as (Hq & Hl & Hi & _).
  assert (is_v4 e) as Hv by (unfold is_v4; by rewrite Hi).
  case_bool_decide as Hd.
  - destruct (enr_set_seq e _ key) as [e2|] eqn:Hs2; [|done]. intros [= <- <-].
    destruct (enr_set_seq_spec _ _ _ _ Hs2) as (Hq2 & Hl2 & Hi2 & _).
    split_and!; [done|unfold is_v4; by rewrite Hi2|congruence|]. right. rewrite Hq2. apply Z.mod_small. lia.
  - intros [= <- <-]. apply rlp_content_eq in Hd; [|done..]. split_and!; [done|done|congruence|by left].
Qed.

(** A later record is newer, or is the same. *)
Definition supersedes (e e' : Enr) : Prop := e' = e \/ enr_seq e < enr_seq e'.

Lemma restarts_from key built old file used :
  Forall is_v4 built -> is_v4 old -> 0 <= enr_seq old -> enr_seq old + Z.of_nat (length built) < U64_MOD ->
  restarts key built (Some (to_base64 old)) = Ok (used, file) ->
  StronglySorted supersedes (old :: used) /\ map enr_entries used = map enr_entries built
  /\ exists e, last (old :: used) = Some e /\ file = Some (to_base64 e).
Proof.
  intros Hb. revert old used. induction Hb as [|enr built He Hb IH]; intros old used Hv Hs Hn; cbn [restarts].
  { intros [= <- <-]. split; [apply SSorted_cons; [apply SSorted_nil|apply Forall_nil_2]|]. by split; [|exists old]. }
  simpl in Hn. destruct (stored_enr enr key (Some (to_base64 old))) as [[e1 f1]| |] eqn:H1; simpl; [|done..].
  destruct (stored_step _ _ _ _ _ He Hv Hs ltac:(lia) H1) as (-> & Hv1 & Hl1 & Hcase).
  assert (Hle : enr_seq old <= enr_seq e1 <= enr_seq old + 1) by (destruct Hcase as [->|]; lia).
  destruct (restarts key built (Some (to_base64 e1))) as [[rest f2]| |] eqn:H2; simpl; [|done..]. intros [= <- <-].
  destruct (IH e1 rest Hv1 ltac:(lia) ltac:(lia) H2) as (Hss & Hm & Hlast).
  apply StronglySorted_inv in Hss as Hinv. destruct Hinv as [_ Hall]. split_and!.
  - apply SSorted_cons; [done|]. apply Forall_cons. split; [destruct Hcase as [->|]; [by left|right; lia]|].
    eapply Forall_impl; [exact Hall|]. intros x [->|Hlt].
    + destruct Hcase as [->|]; [by left|right; lia].
    + right. lia.
  - simpl. by rewrite Hl1, Hm.
  - exact Hlast.
Qed.

(** C23: However often a node is restarted, and with whatever address or version, its
    peers can tell its records apart by their sequence number: of two records it used, the
    later one is the same record, signature included, or has a higher number; every run
    advertises what it is configured with; and the file holds the record in use, for the
    next run.  (The record of a run is the one it starts with; discv5's own updates of it
    are not modelled.) *)
Theorem restart_sequence key built used file :
  built <> [] -> Forall (fun e => exists i p c, enr_build i p c key = Some e) built ->
  Z.of_nat (length built) < U64_MOD -> restarts key built None = Ok (used, file) ->
  StronglySorted supersedes used /\ map enr_entries used = map enr_entries built
  /\ exists e, last used = Some e /\ file = Some (to_base64 e).
Proof.
  intros Hne Hb Hn H. destruct built as [|enr built]; [done|]. apply Forall_cons in Hb as [He Hb].
  assert (Hspec : forall e, (exists i p c, enr_build i p c key = Some e) -> enr_seq e = 1 /\ is_v4 e)
    by (intros e (i & p & c & Hi); by apply enr_build_spec in Hi).
  destruct (Hspec enr He) as [Hs Hv]. simpl in H.
  destruct (restarts key built (Some (to_base64 enr))) as [[rest f]| |] eqn:Hr; simplify_eq/=.
  destruct (restarts_from key built enr file rest) as (H1 & H2 & H3); [|done|lia|rewrite Hs; lia|done|].
  { eapply Forall_impl; [exact Hb|]. intros e He'. by apply Hspec. }
  split_and!; [done|by rewrite H2|exact H3].
Qed.

(** Without STUN the record has an address nevertheless, if UPnP finds one. *)
Theorem no_stun_not_blank probe config u :
  no_stun config = true -> no_upnp config = false -> upnp_for_external probe = Some u ->
  enr_endpoint probe config = Ok (Some (ip u), port u).
Proof. intros H1 H2 H3. unfold enr_endpoint, known_endpoint. by rewrite H1, H2, H3. Qed.

(** The local node is never in its own table, nor is any other bootnode left out. *)
Theorem bootnodes_added (add_enr : Enr -> bool) local enrs added :
  add_bootnodes add_enr local enrs = Ok added ->
  added = filter (fun e => enr_node_id e <> enr_node_id local) enrs /\ Forall (fun e => add_enr e = true) added.
Proof.
  revert added. induction enrs as [|e enrs IH]; intros added; simpl; [intros [= <-]; by split|].
  rewrite filter_cons. destruct (decide (enr_node_id e = enr_node_id local)) as [He|He].
  - rewrite decide_False by (intros Hn; by apply Hn). apply IH.
  - rewrite decide_True by done. destruct (add_enr e) eqn:Ha; [|done].
    destruct (add_bootnodes add_enr local enrs) as [l| |]; simpl; [|done..]. intros [= <-].
    destruct (IH l eq_refl) as [-> Hl]. split; [done|]. by constructor.
Qed.
End Correct.

Section Packets.
Context `{E : EnrLib} `{X : HexLib} `{C : LruCache bytes NodeAddress} `{CO : !LruCacheOk bytes NodeAddress}.

(** A uTP packet is attributed to the node that it comes from: to its record in the table
    of discv5, else to the one it had when its last session was established; as much of
    the packet is read as fits into the buffer, and the rest of the buffer is kept. *)
Theorem packet_attributed find_enr (self : t) enr addr talk_req talk_reqs buf :
  talk_node_id talk_req = enr_node_id enr ->
  let n := Nat.min (length buf) (length (talk_body talk_req)) in
  let r := recv_from find_enr (on_event self (SessionEstablished enr addr)) (talk_req :: talk_reqs) buf in
  r.1.2 = talk_reqs
  /\ r.2 = Ok (take n (talk_body talk_req) ++ drop n buf, n, default enr (find_enr (enr_node_id enr)))
  /\ length (take n (talk_body talk_req) ++ drop n buf) = length buf.
Proof.
  intros Hid n. unfold recv_from. rewrite Hid. split_and!.
  - destruct (find_enr (enr_node_id enr)); [done|]. unfold cached_node_addr. simpl. by destruct (lru_get _ _) as [c [a|]].
  - destruct (find_enr (enr_node_id enr)) as [e|]; [done|]. unfold cached_node_addr. simpl.
    rewrite (surjective_pairing (lru_get _ _)), lru_get_put. done.
  - rewrite length_app, length_take, length_drop. unfold n. lia.
Qed.

(** A TALKREQ that is sent for a protocol is dispatched to that protocol where it arrives,
    and to no other. *)
Theorem sent_requests_routed `{!PortalnetEvents.HexUpperOk X} p b events request q :
  ProtocolId.to_bytes p = Ok b -> talk_protocol request = talk_req_protocol p ->
  PortalnetEvents.delivered (PortalnetEvents.dispatch_discv5_talk_req events request) q
  = PortalnetEvents.delivered events q
    ++ (if bool_decide (q = p) && PortalnetEvents.serves events q then [Talk request] else []).
Proof.
  intros Hp Hb. unfold talk_req_protocol in Hb. rewrite Hp in Hb.
  by rewrite PortalnetEvents.dispatch_talk_delivered, (proj2 (PortalnetEvents.protocol_of_bytes p b _ Hp) Hb).
Qed.
End Packets.
End Discovery.

(** ** The theorems at work *)

(** Records with a sequence number and one entry; in text the number is written in unary. *)
#[local] Instance numbered_enr : EnrLib := {|
  Enr := nat * bytes;
  enr_node_id _ := replicate 32 x01;
  enr_seq e := Z.of_nat e.1;
  enr_rlp e := e.2;
  rlp_enr b := Some (1%nat, b);
|}.

Fixpoint read_numbered (b : bytes) : option (nat * bytes) :=
  match b with
  | [] => None
  | x01 :: b => match read_numbered b with Some (n, l) => Some (S n, l) | None => None end
  | _ :: b => Some (0%nat, b)
  end.

#[local] Instance numbered_text : EnrText (E := numbered_enr) := {|
  to_base64 e := replicate e.1 x01 ++ x00 :: e.2;
  enr_from_str := read_numbered;
|}.

#[local] Instance numbered_text_ok : EnrTextOk (E := numbered_enr).
Proof. split. intros [n l]. simpl. induction n as [|n IH]; simpl; [done|]. by rewrite IH. Qed.

Definition entry_of (i : option IpAddr) : bytes :=
  match i with Some (V4 a) => [x04; byte_of_Z a] | Some (V6 a) => [x06; byte_of_Z a] | None => [] end.

Fixpoint pos_bytes (p : positive) : bytes :=
  match p with xH => [] | xO p => x00 :: pos_bytes p | xI p => x01 :: pos_bytes p end.

#[local] Instance pos_bytes_inj : Inj (=) (=) pos_bytes.
Proof. intros p. induction p as [p IH|p IH|]; intros [q|q|] H; simplify_eq/=; f_equal; auto. Qed.

#[local] Instance numbered_build : EnrBuild (E := numbered_enr) := {|
  CombinedKey := unit;
  secp256k1_from_bytes _ := Some tt;
  enr_build i p c _ := Some (1%nat, entry_of i ++ c);
  enr_set_seq e n _ := if n <? 0 then None else Some (Z.to_nat n, snd e);
  enr_id _ := Some (ProtocolId.str "v4");
  enr_entries e := [([], snd e)];
  rlp_content n l := pos_bytes (encode (n, l));
|}.

#[local] Instance numbered_build_ok : EnrBuildOk (E := numbered_enr).
Proof.
  split; simpl.
  - by intros i p c key e [= <-].
  - intros e n key e'. destruct (Z.ltb_spec n 0); [done|]. intros [= <-]. split_and!; [|done..]. simpl. lia.
  - intros n1 l1 n2 l2 H%(inj pos_bytes)%(inj encode). by simplify_eq.
Qed.

(** Four runs: the address changes, stays, and changes back. *)
Definition four_runs : list (Enr (EnrLib := numbered_enr)) :=
  [(1%nat, [x04; x07]); (1%nat, [x04; x09]); (1%nat, [x04; x09]); (1%nat, [x04; x07])].

Lemma restart_sequence_witness :
  exists used file, Discovery.restarts (B := numbered_build) tt four_runs None = Ok (used, file)
    /\ map enr_seq used = [1; 2; 2; 3]
    /\ StronglySorted Discovery.supersedes used.
Proof.
  eexists _, _. split; [vm_compute; reflexivity|]. split; [reflexivity|].
  eapply (Discovery.restart_sequence (B := numbered_build) tt four_runs _ _).
  - discriminate.
  - repeat (apply Forall_cons; split);
      [exists (Some (V4 7)), 0, []; reflexivity|exists (Some (V4 9)), 0, []; reflexivity
      |exists (Some (V4 9)), 0, []; reflexivity|exists (Some (V4 7)), 0, []; reflexivity|apply Forall_nil_2].
  - reflexivity.
  - vm_compute. reflexivity.
Defined.
