(* ===== verification/OverlayChannels.v ===== *)
(** * The overlay service: who holds the channels for answers.

    What the handlers of the service do with the channels that lookups hold: most handlers
    touch neither lookups nor channels ([quiet]), the others take channels over and let go
    of none ([hands]). *)

From stdpp Require Import gmap sets.
From S2P Require Import Prelude.
From S2P Require Import Distance.
From S2P Require Import ContentKey.
From S2P Require Import Query.
From S2P Require Import FindNodes.
From S2P Require Import FindContent.
From S2P Require Import QueryPool.
From S2P Require Import Wire.
From S2P Require Import QueryTrace.
From S2P Require Import QueryInfo.
From S2P Require Import ContentStore.
From S2P Require Import Payload.
From S2P Require Import Overlay.
From S2P Require Import OverlayQuery.
From S2P Require Import Gossip.
From S2P Require Import OverlayContent.

Module OverlayChannels.
Import OverlayService OverlayQuery.

(** ** Who holds the channels *)

(** The numbers that the entries of a map hold. *)
Definition held {A} (f : A -> option Z) (m : gmap Z A) : list Z := omap (fun kv => f kv.2) (map_to_list m).

Lemma held_insert {A} (f : A -> option Z) m i x :
  m !! i = None -> held f (<[i := x]> m) ≡ₚ option_list (f x) ++ held f m.
Proof. intros Hi. unfold held. rewrite map_to_list_insert by done. simpl. by destruct (f x). Qed.

Lemma held_delete {A} (f : A -> option Z) m i x :
  m !! i = Some x -> held f m ≡ₚ option_list (f x) ++ held f (delete i m).
Proof.
  intros Hi. rewrite <- (insert_delete_id m i x Hi) at 1. apply held_insert, lookup_delete_eq.
Qed.

Lemma held_update {A} (f : A -> option Z) m i x y :
  m !! i = Some x -> f y = f x -> held f (<[i := y]> m) ≡ₚ held f m.
Proof.
  intros Hi Hf. rewrite <- insert_delete_eq, held_insert by apply lookup_delete_eq.
  by rewrite Hf, <- held_delete.
Qed.

Section Tokens.
Context `{E : EnrLib} `{W : WireLib} `{CK : OverlayContentKey} `{KB : !KBucketsTable}
  `{KL : KeyLib bytes} `{L : !Log2Lib bytes} {St : Type} `{CS : !ContentStore St}
  `{V : !Validator} `{LB : Leb128} `{T : !EnrText} `{R : RandomLib}.
Implicit Types (s : OverlayService.t St).

Definition node_callback (info : QueryInfo.t) : option Z :=
  match QueryInfo.query_type info with QFindNode _ callback _ => callback | _ => None end.
Definition content_callback (info : QueryInfo.t) : option Z :=
  match QueryInfo.query_type info with QFindContent _ callback => callback | _ => None end.

Definition infos {Q} (p : QueryPool.t Q QueryInfo.t) : gmap Z QueryInfo.t := fst <$> QueryPool.queries p.

Definition effect_token (e : effect) : option Z :=
  match e with
  | SpawnReceiveContent _ _ _ _ callback _ _ | SpawnProcessContent _ _ callback _ _ => callback
  | SendNodes callback _ | SendContent callback _ _ _ => Some callback
  | _ => None
  end.

(** The channels that the service holds: for its lookups, and in what it set in motion. *)
Definition service_tokens s : list Z :=
  held node_callback (infos (find_node_query_pool s)) ++ held content_callback (infos (find_content_query_pool s))
  ++ omap effect_token (effects s).

(** What neither touches the lookups nor a channel. *)
Definition quiet s s' : Prop :=
  same_queries s s' /\ omap effect_token (effects s') = omap effect_token (effects s).

#[global] Instance quiet_preorder : PreOrder quiet.
Proof. split; [by intros s|]. intros x y z [H1 H2] [H3 H4]. split; [by etransitivity | congruence]. Qed.

Lemma quiet_emit s e : effect_token e = None -> quiet s (emit s e).
Proof. intros He. split; [done|]. simpl. rewrite omap_app. simpl. by rewrite He, app_nil_r. Qed.

Lemma quiet_entry s n : quiet s (entry s n).1.
Proof. by split. Qed.

Lemma quiet_fold {A} (f : OverlayService.t St -> A -> OverlayService.t St) l s :
  (forall s x, quiet s (f s x)) -> quiet s (fold_left f l s).
Proof.
  intros Hf. revert s. induction l as [|x l IH]; intros s; simpl; [done|]. etransitivity; [apply (Hf s x) | apply IH].
Qed.

(** A handler that was unfolded: every branch is quiet. *)
Ltac quiet_branches :=
  simpl; repeat case_match; simplify_eq/=;
  try (split; [done|]; simpl; rewrite ?omap_app; simpl; by rewrite ?app_nil_r).

Lemma quiet_connect_node s n d : quiet s (connect_node s n d).
Proof. unfold connect_node, ping_node, ping_queue_insert, ping_queue_remove, entry. quiet_branches. Qed.

Lemma quiet_register s source : quiet s (register_node_activity s source).
Proof.
  unfold register_node_activity, update_node_connection_state, ping_queue_remove, entry. simpl.
  destruct (entry_node _); [quiet_branches|]. destruct (cached_node_addr _ _) as [enr|]; [|by split].
  etransitivity; [|apply quiet_connect_node]. by split.
Qed.

Lemma quiet_process_ping s ping source s' : process_ping s ping source = Ok s' -> quiet s s'.
Proof.
  unfold process_ping, request_node, update_node_radius, entry. intros H.
  destruct (kb_entry _ _) as [k e]. simpl in H. destruct (entry_node e); [|by simplify_eq].
  destruct (CustomPayload.to_distance _); simpl in H; [|done..].
  destruct (_ <? _), (_ =? _); simplify_eq; split; try done; simpl; rewrite ?omap_app; simpl; by rewrite ?app_nil_r.
Qed.

Lemma quiet_process_pong s pong source s' : process_pong s pong source = Ok s' -> quiet s s'.
Proof.
  unfold process_pong, request_node, update_node_radius, entry. intros H.
  destruct (kb_entry _ _) as [k e]. simpl in H. destruct (entry_node e); [|by simplify_eq].
  destruct (CustomPayload.to_distance _); simpl in H; [|done..].
  destruct (_ <? _), (_ =? _); simplify_eq; split; try done; simpl; rewrite ?omap_app; simpl; by rewrite ?app_nil_r.
Qed.

Lemma quiet_handle_request s r source : quiet s (handle_request s r source).1.
Proof.
  destruct r; simpl; try done.
  - unfold handle_find_nodes, nodes_by_distance. quiet_branches.
  - unfold handle_find_content, find_nodes_close_to_content, table_entries_enr. quiet_branches.
  - unfold handle_offer. quiet_branches.
Qed.

Lemma quiet_process_incoming s r source s' response :
  process_incoming s r source = (Ok s', response) -> quiet s s'.
Proof.
  unfold process_incoming. pose proof (quiet_register s source) as H1.
  pose proof (quiet_handle_request (register_node_activity s source) r source) as H2.
  destruct (handle_request _ r source) as [s1 r1]. simpl in H2. intros [= H _].
  assert (quiet s1 s'); [|by etransitivity; [exact H1|]; etransitivity; [exact H2|]].
  assert (process_incoming_request s1 r source = Ok s') as Hp by by destruct r1.
  destruct r; simpl in Hp; simplify_eq; try done. by eapply quiet_process_ping.
Qed.

Lemma quiet_failure s d : quiet s (process_request_failure s d).
Proof. by split. Qed.

Lemma quiet_discovered s enrs : quiet s (process_discovered_enrs s enrs).
Proof.
  apply quiet_fold. intros s1 enr. unfold process_discovered_enr, ping_node, ping_queue_insert, ping_queue_remove, entry.
  quiet_branches.
Qed.

Lemma quiet_accept s a enr offer : quiet s (OverlayContent.process_accept s a enr offer).1.
Proof. unfold OverlayContent.process_accept. quiet_branches. Qed.

Lemma quiet_find_enr s o n : quiet s (find_enr s o n).1.
Proof. unfold find_enr, entry. quiet_branches. Qed.

Lemma quiet_collect s o untrusted result : quiet s (collect_enrs s o untrusted result).1.
Proof.
  revert s untrusted. induction result as [|n result IH]; intros s untrusted; simpl; [done|].
  destruct (list_find _ untrusted) as [[i enr]|]; [apply IH|].
  pose proof (quiet_find_enr s o n) as H. destruct (find_enr s o n) as [s1 found]. simpl in *.
  etransitivity; [exact H | apply IH].
Qed.

Lemma quiet_poke s key content ids : quiet s (OverlayContent.poke_content s key content ids).
Proof. apply quiet_fold. intros s1 n. unfold OverlayContent.poke_node, entry. quiet_branches. Qed.

Lemma quiet_store_content s key content s' : OverlayContent.store_content s key content = Ok s' -> quiet s s'.
Proof. unfold OverlayContent.store_content. intros H. repeat (case_hyp H; simplify_eq/=); by split. Qed.

Lemma quiet_accept_items s items : quiet s (OverlayContent.accept_items s items).1.
Proof.
  revert s. induction items as [|[o [k v]] items IH]; intros s; simpl; [done|].
  assert (H1 : quiet s (OverlayContent.accept_item s o k v).1).
  { unfold OverlayContent.accept_item. destruct (validate_content o k v); [|done..].
    destruct (OverlayContent.store_content s k v) eqn:He; try done. by apply quiet_store_content in He. }
  destruct (OverlayContent.accept_item s o k v) as [s1 r]. specialize (IH s1).
  destruct (OverlayContent.accept_items s1 items). simpl in *. by etransitivity.
Qed.

Lemma quiet_payload s outside keys payload order :
  quiet s (OverlayContent.process_accept_utp_payload s outside keys payload order).1.
Proof.
  unfold OverlayContent.process_accept_utp_payload.
  destruct (decode_content_payload payload) as [[values| |]|]; try done.
  destruct (negb _); [done|]. pose proof (quiet_accept_items s (OverlayContent.with_outside outside (zip keys values))) as H.
  destruct (OverlayContent.accept_items s _) as [s1 validated]. simpl in *. etransitivity; [exact H|].
  unfold Gossip.propagate_gossip_cross_thread. destruct (Gossip.connected_nodes s1); [done|].
  apply quiet_fold. intros s2 x. unfold Gossip.send_offer. quiet_branches.
Qed.

Lemma quiet_finish s offer payload w : quiet s (OverlayContent.finish_offer s offer payload w).
Proof. unfold OverlayContent.finish_offer. quiet_branches. Qed.

(** ** How lookups move the channels *)

(** No lookup is added to the pool. *)
Definition shrinks {Q} (p p' : QueryPool.t Q QueryInfo.t) : Prop :=
  QueryPool.next_id p' = QueryPool.next_id p /\ dom (QueryPool.queries p') ⊆ dom (QueryPool.queries p).

#[global] Instance shrinks_preorder {Q} : PreOrder (@shrinks Q).
Proof.
  split; [by intros p; split|]. intros x y z [H1 H2] [H3 H4]. split; [congruence | by etransitivity].
Qed.

(** The service takes the channels [taken] over and lets go of none. *)
Record hands (taken : list Z) s s' : Prop := {
  hands_tokens : service_tokens s' ≡ₚ taken ++ service_tokens s;
  hands_nodes : shrinks (find_node_query_pool s) (find_node_query_pool s');
  hands_content : shrinks (find_content_query_pool s) (find_content_query_pool s');
}.

Lemma quiet_hands s s' : quiet s s' -> hands [] s s'.
Proof.
  intros [(H1 & H2 & H3) H4]. split; [|by rewrite H1|by rewrite H2].
  unfold service_tokens. by rewrite H1, H2, H4.
Qed.

Lemma hands_trans a b s1 s2 s3 : hands a s1 s2 -> hands b s2 s3 -> hands (b ++ a) s1 s3.
Proof.
  intros [H1 H2 H3] [H4 H5 H6]. split; [|by etransitivity|by etransitivity].
  by rewrite H4, H1, app_assoc.
Qed.

Lemma hands_emit s e : hands (option_list (effect_token e)) s (emit s e).
Proof.
  split; [|done|done]. unfold service_tokens. simpl. rewrite omap_app. simpl.
  rewrite !app_assoc. destruct (effect_token e); simpl; [symmetry; apply Permutation_cons_append|by rewrite app_nil_r].
Qed.

Lemma infos_set_query {Q} (p : QueryPool.t Q QueryInfo.t) i v :
  infos (QueryPool.set_query p i v) = <[i := v.1]> (infos p).
Proof. unfold infos. simpl. by rewrite fmap_insert. Qed.

Lemma infos_lookup {Q} (p : QueryPool.t Q QueryInfo.t) i v :
  QueryPool.queries p !! i = Some v -> infos p !! i = Some v.1.
Proof. intros H. unfold infos. by rewrite lookup_fmap, H. Qed.

Lemma shrinks_set_query {Q} (p : QueryPool.t Q QueryInfo.t) i v v' :
  QueryPool.queries p !! i = Some v -> shrinks p (QueryPool.set_query p i v').
Proof. intros H. split; [done|]. simpl. rewrite dom_insert_L. apply elem_of_dom_2 in H. set_solver. Qed.

(** The description of a node lookup is replaced by one with the same callback. *)
Lemma hands_set_node s i info q info' q' :
  QueryPool.queries (find_node_query_pool s) !! i = Some (info, q) ->
  QueryInfo.query_type info' = QueryInfo.query_type info ->
  hands [] s (set_node_pool s (QueryPool.set_query (find_node_query_pool s) i (info', q'))).
Proof.
  intros Hi Ht. split; [|by eapply shrinks_set_query|done]. unfold service_tokens. simpl.
  rewrite infos_set_query, (held_update _ _ _ info); [done|exact (infos_lookup _ _ _ Hi)|].
  unfold node_callback. simpl. by rewrite Ht.
Qed.

Lemma hands_set_content s i info q info' q' :
  QueryPool.queries (find_content_query_pool s) !! i = Some (info, q) ->
  QueryInfo.query_type info' = QueryInfo.query_type info ->
  hands [] s (set_content_pool s (QueryPool.set_query (find_content_query_pool s) i (info', q'))).
Proof.
  intros Hi Ht. split; [|done|by eapply shrinks_set_query]. unfold service_tokens. simpl.
  rewrite infos_set_query, (held_update _ _ _ info); [done|exact (infos_lookup _ _ _ Hi)|].
  unfold content_callback. simpl. by rewrite Ht.
Qed.

Lemma hands_nodes_response s nodes source i s' : process_nodes s nodes source i = Ok s' -> hands [] s s'.
Proof.
  unfold process_nodes. intros H. eapply (hands_trans [] []); [apply quiet_hands, (quiet_discovered s (enrs nodes))|].
  destruct i as [i|]; [|by simplify_eq; apply quiet_hands].
  unfold advance_find_node_query, QueryPool.get_mut in H.
  destruct (QueryPool.queries _ !! i) as [[info q]|] eqn:Hi; [|by simplify_eq; apply quiet_hands].
  destruct (FindNodeQuery.on_success _ _ _); simplify_eq/=. by eapply hands_set_node.
Qed.

Lemma hands_content_response s content source i now s' :
  process_content s content source i now = Ok s' -> hands [] s s'.
Proof.
  unfold process_content. intros H.
  assert (Hw : forall i r, advance_find_content_query_with s i source r now = Ok s' -> hands [] s s').
  { intros j r Hr. unfold advance_find_content_query_with, QueryPool.get_mut in Hr.
    destruct (QueryPool.queries _ !! j) as [[info q]|] eqn:Hj; [|by simplify_eq; apply quiet_hands].
    destruct (FindContentQuery.on_success _ _ _); simplify_eq/=. by eapply hands_set_content. }
  destruct content as [cid|bytes|l], i as [i|]; try (by simplify_eq; apply quiet_hands); try by eapply Hw.
  - eapply (hands_trans [] []); [apply quiet_hands, (quiet_discovered s l)|].
    unfold advance_find_content_query_with_enrs, QueryPool.get_mut in H.
    destruct (QueryPool.queries _ !! i) as [[info q]|] eqn:Hi; [|by simplify_eq; apply quiet_hands].
    destruct (fold_left add_new_untrusted _ _).
    destruct (FindContentQuery.on_success _ _ _); simplify_eq/=. by eapply hands_set_content.
  - simplify_eq. apply quiet_hands, quiet_discovered.
Qed.

(** A response is processed once the sender was marked as connected. *)
Lemma process_response_split s r source request i now s' :
  OverlayContent.process_response s r source request i now = Ok s' ->
  exists s2, quiet s s2 /\ match r with
  | Response.Pong pong => process_pong s2 pong source = Ok s'
  | Response.Nodes nodes => process_nodes s2 nodes source i = Ok s'
  | Response.Content content => process_content s2 content source i now = Ok s'
  | Response.Accept accept => s' = (OverlayContent.process_accept s2 accept source request).1
  end.
Proof.
  unfold OverlayContent.process_response. intros H. destruct (entry s (enr_node_id source)) as [s1 e] eqn:He.
  assert (quiet s s1) as H1 by (pose proof (quiet_entry s (enr_node_id source)) as Hq; by rewrite He in Hq).
  destruct (match e with Present n st | Pending n st => (n, st) | NoEntry => _ end) as [node st].
  match type of H with context [process_pong ?x _ _] => set (s2 := x) in H end.
  exists s2. split; [|destruct r; by simplify_eq]. etransitivity; [exact H1|].
  unfold s2. destruct (status_state st); [|apply quiet_connect_node].
  unfold update_node_connection_state. simpl. destruct (kb_update_node_status _ _ _ _) as [k []]; by split.
Qed.

Lemma hands_response s r source request i now s' :
  OverlayContent.process_response s r source request i now = Ok s' -> hands [] s s'.
Proof.
  intros (s2 & Hq & H)%process_response_split. eapply (hands_trans [] []); [by apply quiet_hands|]. destruct r.
  - by apply quiet_process_pong, quiet_hands in H.
  - by apply hands_nodes_response in H.
  - by apply hands_content_response in H.
  - subst s'. apply quiet_hands, quiet_accept.
Qed.

(** ** Starting and ending lookups *)

(** The ids of the lookups were given out, at most [n] of them. *)
Definition fresh_pool {Q} (n : Z) (p : QueryPool.t Q QueryInfo.t) : Prop :=
  QueryPool.ids_below p /\ 0 <= QueryPool.next_id p <= n.

Definition fresh_service (n : Z) s : Prop :=
  fresh_pool n (find_node_query_pool s) /\ fresh_pool n (find_content_query_pool s).

Lemma fresh_shrinks {Q} n (p p' : QueryPool.t Q QueryInfo.t) : fresh_pool n p -> shrinks p p' -> fresh_pool n p'.
Proof.
  intros [H1 H2] [H3 H4]. split; [|by rewrite H3]. intros i Hi. rewrite H3. apply H1. set_solver.
Qed.

Lemma fresh_hands n taken s s' : fresh_service n s -> hands taken s s' -> fresh_service n s'.
Proof. intros [H1 H2] [_ H3 H4]. split; by eapply fresh_shrinks. Qed.

Lemma fresh_pool_le {Q} n m (p : QueryPool.t Q QueryInfo.t) : fresh_pool n p -> n <= m -> fresh_pool m p.
Proof. intros [H1 H2] Hle. split; [done|lia]. Qed.

Lemma fresh_service_le n m s : fresh_service n s -> n <= m -> fresh_service m s.
Proof. intros [H1 H2] Hle. split; by eapply fresh_pool_le. Qed.

Lemma add_query_infos {Q} n (p : QueryPool.t Q QueryInfo.t) info q (f : QueryInfo.t -> option Z) :
  fresh_pool n p -> n + 1 < U64_MOD ->
  fresh_pool (n + 1) (QueryPool.add_query p info q).1
  /\ held f (infos (QueryPool.add_query p info q).1) ≡ₚ option_list (f info) ++ held f (infos p).
Proof.
  intros [H1 H2] Hn. assert (Hw : wrap64 (QueryPool.next_id p + 1) = QueryPool.next_id p + 1)
    by (apply Z.mod_small; lia).
  split.
  - split; simpl; rewrite Hw; [|lia]. intros i. simpl. rewrite dom_insert_L.
    intros [Hi|Hi%H1]%elem_of_union; [apply elem_of_singleton in Hi; lia|lia].
  - unfold infos. simpl. rewrite fmap_insert. apply held_insert. rewrite lookup_fmap.
    destruct (QueryPool.queries p !! QueryPool.next_id p) eqn:Hi; [|done].
    apply elem_of_dom_2, H1 in Hi. lia.
Qed.

Lemma init_nodes_tokens n s target cb :
  fresh_service n s -> n + 1 < U64_MOD ->
  let s' := (init_find_nodes_query s target cb).1 in
  fresh_service (n + 1) s' /\ service_tokens s' ≡ₚ option_list cb ++ service_tokens s.
Proof.
  intros Hf Hn. pose proof Hf as [H1 H2]. unfold init_find_nodes_query.
  set (l := closest_connected_nodes _ _ _). destruct l as [|enr l']; simpl.
  - destruct cb as [cb|]; (split; [eapply fresh_service_le; [exact Hf|lia]|]); [|done].
    apply (hands_emit s (SendNodes cb [])).
  - destruct (add_query_infos n (find_node_query_pool s)
      {| QueryInfo.query_type := QFindNode target cb (findnodes_query_distances_per_peer s);
         QueryInfo.untrusted_enrs := enr :: l'; QueryInfo.trace := None |}
      (FindNodeQuery.with_config (query_config s) (into_key target)
         (into_key (enr_node_id enr) :: map (fun enr => into_key (enr_node_id enr)) l'))
      node_callback H1 Hn) as [H3 H4].
    split; [split; [exact H3|eapply fresh_pool_le; [exact H2|lia]]|]. unfold service_tokens. simpl in H4 |- *.
    by rewrite H4, <- app_assoc.
Qed.

Lemma init_content_tokens n s target cb is_trace now :
  fresh_service n s -> n + 1 < U64_MOD ->
  let s' := (init_find_content_query s target cb is_trace now).1 in
  fresh_service (n + 1) s' /\ service_tokens s' ≡ₚ option_list cb ++ service_tokens s.
Proof.
  intros Hf Hn. pose proof Hf as [H1 H2]. unfold init_find_content_query.
  set (l := closest_connected_nodes _ _ _). destruct l as [|enr l'].
  - destruct cb as [cb|]; (split; [eapply fresh_service_le; [exact Hf|lia]|]); [|done].
    apply (hands_emit s (SendContent cb None false None)).
  - match goal with |- context [QueryPool.add_query ?p ?i ?q] =>
      destruct (add_query_infos n p i q content_callback H2 Hn) as [H3 H4] end.
    split; [split; [eapply fresh_pool_le; [exact H1|lia]|exact H3]|]. unfold service_tokens.
    cbn [fst set_content_pool set_pools find_node_query_pool find_content_query_pool effects].
    rewrite H4. unfold content_callback at 2. simpl. rewrite <- app_assoc. apply Permutation_app_swap_app.
Qed.

(** The description of a lookup that ended. *)
Definition ended {Q} (ev : option (QueryEvent Q QueryInfo.t)) : option QueryInfo.t :=
  match ev with Some (EvFinished _ info _) | Some (EvTimedOut _ info _) => Some info | _ => None end.

Lemma poll_queries_infos {Q} `{QI : !Query bytes Q} timeout now order (qs qs' : gmap Z (QueryInfo.t * Q)) v :
  QueryPool.poll_queries timeout now order qs = Ok (qs', v) -> fst <$> qs' = fst <$> qs.
Proof.
  revert qs. induction order as [|i order IH]; intros qs; simpl; [by intros [= -> _]|].
  destruct (qs !! i) as [[info q]|] eqn:Hi; [|apply IH].
  assert (Hd : forall q', fst <$> <[i := (info, q')]> qs = fst <$> qs).
  { intros q'. rewrite fmap_insert. apply insert_id. by rewrite lookup_fmap, Hi. }
  intros H. repeat case_hyp H; simplify_eq/=; auto; by rewrite (IH _ H).
Qed.

(** The pool hands out the description of a lookup that ended, and keeps all others. *)
Lemma poll_tokens {Q} `{QI : !Query bytes Q} (p p' : QueryPool.t Q QueryInfo.t) now order ev f :
  query_event_poll p now order = Ok (p', ev) ->
  shrinks p p' /\ held f (infos p) ≡ₚ option_list (ended ev ≫= f) ++ held f (infos p').
Proof.
  unfold query_event_poll. destruct (QueryPool.poll p now order) as [[p1 st]| |] eqn:Hp; [|done..].
  pose proof (QueryPool.pool_poll_shape _ _ _ _ _ Hp) as Hsh. unfold QueryPool.poll in Hp.
  destruct (QueryPool.poll_queries _ _ _ _) as [[qs v]| |] eqn:Hq; [|done..].
  apply poll_queries_infos in Hq. cbn in Hp |- *.
  assert (Hdel : forall i x, qs !! i = Some x ->
    held f (infos p) ≡ₚ option_list (f x.1) ++ held f (fst <$> delete i qs)).
  { intros i x Hi. unfold infos. rewrite <- Hq, fmap_delete. apply held_delete. by rewrite lookup_fmap, Hi. }
  assert (Hsame : held f (infos p) = held f (fst <$> qs)) by (unfold infos; by rewrite Hq).
  destruct v as [[i|i peer|i]|].
  - destruct (qs !! i) as [[info q]|] eqn:Hi; simplify_eq/=. intros [= <- <-]. split; [done|]. exact (Hdel i _ Hi).
  - destruct (qs !! i) as [[info q]|] eqn:Hi; simplify_eq/=.
    destruct (QueryInfo.rpc_request info peer); [intros [= <- <-]; split; [done|]; by rewrite Hsame| |done].
    destruct (on_failure q peer) as [q'| |]; simpl; [|done..]. intros [= <- <-]. split.
    + split; [done|]. simpl. rewrite dom_insert_L. apply elem_of_dom_2 in Hi. set_solver.
    + rewrite Hsame, infos_set_query. simpl. by rewrite (insert_id (infos _)) by (unfold infos; simpl; by rewrite lookup_fmap, Hi).
  - destruct (qs !! i) as [[info q]|] eqn:Hi; simplify_eq/=. intros [= <- <-]. split; [done|]. exact (Hdel i _ Hi).
  - destruct (decide (qs = ∅)); simplify_eq/=; intros [= <- <-]; (split; [done|]); by rewrite Hsame.
Qed.

Lemma node_event_tokens s o ev s' :
  handle_find_nodes_query_event s o ev = Ok s' -> hands (option_list (ended (Some ev) ≫= node_callback)) s s'.
Proof.
  assert (Hend : forall info q, handle_find_nodes_query_event s o (EvFinished 0 info q) = Ok s' ->
      hands (option_list (node_callback info)) s s').
  { intros info q. simpl. pose proof (quiet_collect s o (QueryInfo.untrusted_enrs info) (FindNodeQuery.into_result q)) as Hq.
    destruct (collect_enrs _ _ _ _) as [s1 found]. apply quiet_hands in Hq. simpl in Hq. unfold node_callback.
    destruct (QueryInfo.query_type info) as [tg [cb|] n|]; intros [= <-]; [|exact Hq..].
    apply (hands_trans [] [cb] _ s1 _ Hq (hands_emit s1 (SendNodes cb found))). }
  destruct ev as [i n req|i info q|i info q]; simpl; [|apply (Hend info q)..].
  pose proof (quiet_find_enr s o n) as Hq. destruct (find_enr s o n) as [s1 [enr|]]; apply quiet_hands in Hq; simpl in Hq.
  - intros [= <-]. apply (hands_trans [] [] _ s1 _ Hq (hands_emit s1 (Command req enr (Some i)))).
  - unfold QueryPool.get_mut. destruct (QueryPool.queries _ !! i) as [[info q]|] eqn:Hi; [|by intros [= <-]].
    destruct (FindNodeQuery.on_failure q n); simpl; [|done..]. intros [= <-].
    apply (hands_trans [] [] _ s1 _ Hq). by eapply hands_set_node.
Qed.

Lemma content_event_tokens s o ev s' :
  handle_find_content_query_event s o ev = Ok s' -> hands (option_list (ended (Some ev) ≫= content_callback)) s s'.
Proof.
  assert (Hend : forall info q,
      handle_find_content_query_event s o (EvFinished 0 info q) = Ok s' ->
      hands (option_list (content_callback info)) s s').
  { intros info q. simpl. unfold content_callback.
    destruct (QueryInfo.query_type info) as [|key cb]; [by intros [= <-]; apply quiet_hands|].
    destruct (FindContentQuery.into_result q) as [ids|content ids|cid ids peer].
    - intros [= <-]. destruct cb as [cb|]; [apply (hands_emit s (SendContent cb None false _))|by apply quiet_hands].
    - intros [= <-]. apply (hands_emit s (SpawnProcessContent content key cb _ ids)).
    - pose proof (quiet_find_enr s o peer) as Hq. destruct (find_enr s o peer) as [s1 [enr|]];
        apply quiet_hands in Hq; simpl in Hq; intros [= <-].
      + pose proof (hands_trans _ _ _ s1 _ Hq (hands_emit s1 (SpawnReceiveContent enr cid
          ((cid + 1) mod 2 ^ 16) key cb (QueryInfo.trace info) ids))) as H. by rewrite app_nil_r in H.
      + destruct cb as [cb|]; [|exact Hq].
        apply (hands_trans [] [cb] _ s1 _ Hq (hands_emit s1 (SendContent cb None true _))). }
  destruct ev as [i n req|i info q|i info q]; simpl; [|apply (Hend info q)..].
  pose proof (quiet_find_enr s o n) as Hq. destruct (find_enr s o n) as [s1 [enr|]]; apply quiet_hands in Hq; simpl in Hq.
  - intros [= <-]. apply (hands_trans [] [] _ s1 _ Hq (hands_emit s1 (Command req enr (Some i)))).
  - unfold QueryPool.get_mut. destruct (QueryPool.queries _ !! i) as [[info q]|] eqn:Hi; [|by intros [= <-]].
    destruct (FindNodeQuery.on_failure q n); simpl; [|done..]. intros [= <-].
    apply (hands_trans [] [] _ s1 _ Hq). by eapply hands_set_node.
Qed.

Lemma hands_respond s cb out utp trace : hands (option_list cb) s (OverlayContent.respond s cb out utp trace).
Proof. destruct cb as [cb|]; [apply (hands_emit s (SendContent cb out utp trace))|by apply quiet_hands]. Qed.

Lemma received_tokens s outside content utp key cb trace ids s' :
  OverlayContent.process_received_content s outside content utp key cb trace ids = Ok s' -> hands (option_list cb) s s'.
Proof.
  assert (Hd : forall s1 c, quiet s s1 ->
    hands (option_list cb) s (OverlayContent.deliver_content s1 c utp key cb trace ids)).
  { intros s1 c Hq%quiet_hands. unfold OverlayContent.deliver_content.
    pose proof (hands_trans [] _ _ _ _ Hq (hands_respond s1 cb (Some c) utp trace)) as H. rewrite app_nil_r in H.
    destruct (negb _); [|exact H]. apply (hands_trans _ [] _ _ _ H), quiet_hands, quiet_poke. }
  unfold OverlayContent.process_received_content. intros H.
  destruct (store_get (store s) key) as [[val|]|e|]; [simplify_eq; by apply Hd| | |done];
    (destruct (validate_content outside key content); [|simplify_eq; apply hands_respond|done]);
    (destruct (OverlayContent.store_content s key content) as [s1| |] eqn:Hs; simplify_eq/=);
    by apply Hd, quiet_store_content in Hs || apply Hd; eapply quiet_store_content.
Qed.

Lemma receive_tokens s outside data key cb trace ids s' :
  OverlayContent.receive_content s outside data key cb trace ids = Ok s' -> hands (option_list cb) s s'.
Proof.
  unfold OverlayContent.receive_content. destruct data; [apply received_tokens|].
  intros [= <-]. apply hands_respond.
Qed.
End Tokens.
End OverlayChannels.
