(* ===== verification/OverlayLoop.v ===== *)
(** * The overlay service: its main loop.

    [spawn], [start], [process_request] and [send_talk_req] of
    [portalnet/src/overlay_service.rs]: the commands that come in over the command channel,
    the requests that are on their way, the responses to them, and the tasks that handlers
    spawn.  The loop selects among what is ready, so it is a step relation; each branch is
    a function.  Channels for an answer (oneshot senders) are numbered in the order in
    which they are opened, and the random ids of requests are a stream [rand].  Tasks can
    panic, which drops the channel they hold; the front end of the network writes to the
    shared store and routing table between the steps of the loop ([store] of the JSON-RPC
    handlers does so without validation).  A panic of the loop itself ends the service. *)

From stdpp Require Import gmap sets.
From S2P Require Import Prelude.
From S2P Require Import Distance.
From S2P Require Import Hex.
From S2P Require Import ContentKey.
From S2P Require Import Query.
From S2P Require Import FindNodes.
From S2P Require Import FindContent.
From S2P Require Import QueryPool.
From S2P Require Import Wire.
From S2P Require Import QueryTrace.
From S2P Require Import QueryInfo.
From S2P Require Import ContentStore.
From S2P Require Import Payload.
From S2P Require Import Overlay.
From S2P Require Import OverlayQuery.
From S2P Require Import Gossip.
From S2P Require Import OverlayContent.
From S2P Require Import OverlayProtocol.
From S2P Require Import Events.

(** [discv5::RequestError], as far as it is told apart. *)
Inductive RequestError := RequestTimeout | InvalidRemotePacket | OtherRequestError.

(** [From<discv5::RequestError> for OverlayRequestError]. *)
Definition from_request_error (err : RequestError) : OverlayRequestError :=
  match err with
  | RequestTimeout => Timeout
  | InvalidRemotePacket => InvalidRemoteDiscv5Packet
  | OtherRequestError => Discv5Error
  end.

Module OverlayLoop.
Import OverlayService OverlayQuery.

Section Ops.
Context `{E : EnrLib} `{W : WireLib} `{CK : OverlayContentKey} `{KB : !KBucketsTable}
  `{KL : KeyLib bytes} `{L : !Log2Lib bytes} {St : Type} `{CS : !ContentStore St}
  `{V : !Validator} `{LB : Leb128} `{T : !EnrText} `{R : RandomLib} `{MS : !MessageSsz}
  (rand : nat -> Z).

(** ** Data *)

(** [OverlayRequest]. *)
Record OverlayRequest := mk_request {
  id : Z;
  request : Request.t;
  direction : RequestDirection;
  responder : option Z;
  query_id : option Z;
}.

Inductive OverlayCommand :=
| CmdRequest (r : OverlayRequest)
| CmdFindContent (target : ContentKey) (callback : Z) (is_trace : bool)
| CmdFindNode (target : bytes) (callback : Z)
| CmdEventStream (callback : Z)
| CmdEvent (event : EventEnvelope).

Record ActiveOutgoingRequest := mk_active {
  active_destination : Enr;
  active_responder : option Z;
  active_request : Request.t;
  active_query_id : option Z;
}.

(** [OverlayResponse]. *)
Record OverlayResponse := mk_response {
  response_id : Z;
  response : res OverlayRequestError Response.t;
}.

(** A TALKREQ whose response is awaited by a task. *)
Record talk := mk_talk { talk_request_id : Z; talked : Request.t; talk_destination : Enr }.

(** What became of a channel for an answer: something was sent over it, or the task that
    held it panicked and it was dropped. *)
Inductive answer :=
| Answered (responder : Z) (r : res OverlayRequestError Response.t)
| Subscribed (callback : Z)
| Sent (e : effect (E := E))
| Dropped (task : effect (E := E)).

(** What a channel was opened for. *)
Inductive opening :=
| ForRequest (r : Request.t) (d : RequestDirection)
| ForContent (target : ContentKey) (is_trace : bool)
| ForNodes (target : bytes)
| ForEvents.

(** The service with its channels and tasks.  [opened] lists the channels for an answer,
    [exchanged] the TALKREQs that ended, with what discv5 returned. *)
Record t := mk {
  service : OverlayService.t St;
  command_rx : list OverlayCommand;
  active_outgoing_requests : gmap Z ActiveOutgoingRequest;
  talking : list talk;
  response_rx : list OverlayResponse;
  spawned : list (effect (E := E));
  answers : list answer;
  opened : list opening;
  drawn : nat;
  exchanged : list (talk * res RequestError bytes);
}.

Definition set_service self (s : OverlayService.t St) : t :=
  mk s (command_rx self) (active_outgoing_requests self) (talking self) (response_rx self) (spawned self)
    (answers self) (opened self) (drawn self) (exchanged self).
Definition set_commands self (c : list OverlayCommand) : t :=
  mk (service self) c (active_outgoing_requests self) (talking self) (response_rx self) (spawned self)
    (answers self) (opened self) (drawn self) (exchanged self).
Definition set_active self (a : gmap Z ActiveOutgoingRequest) : t :=
  mk (service self) (command_rx self) a (talking self) (response_rx self) (spawned self)
    (answers self) (opened self) (drawn self) (exchanged self).
Definition set_talking self (l : list talk) : t :=
  mk (service self) (command_rx self) (active_outgoing_requests self) l (response_rx self) (spawned self)
    (answers self) (opened self) (drawn self) (exchanged self).
Definition set_responses self (l : list OverlayResponse) : t :=
  mk (service self) (command_rx self) (active_outgoing_requests self) (talking self) l (spawned self)
    (answers self) (opened self) (drawn self) (exchanged self).
Definition set_spawned self (l : list effect) : t :=
  mk (service self) (command_rx self) (active_outgoing_requests self) (talking self) (response_rx self) l
    (answers self) (opened self) (drawn self) (exchanged self).
Definition push_answer self (a : answer) : t :=
  mk (service self) (command_rx self) (active_outgoing_requests self) (talking self) (response_rx self) (spawned self)
    (answers self ++ [a]) (opened self) (drawn self) (exchanged self).
Definition push_exchange self (x : talk * res RequestError bytes) : t :=
  mk (service self) (command_rx self) (active_outgoing_requests self) (talking self) (response_rx self) (spawned self)
    (answers self) (opened self) (drawn self) (exchanged self ++ [x]).

(** [command_tx.send(..)]. *)
Definition send_command self (c : OverlayCommand) : t := set_commands self (command_rx self ++ [c]).

(** [OverlayRequest::new] draws an id. *)
Definition send_request self (r : Request.t) (d : RequestDirection) (responder query_id : option Z) : t :=
  let self := send_command self (CmdRequest (mk_request (rand (drawn self)) r d responder query_id)) in
  mk (service self) (command_rx self) (active_outgoing_requests self) (talking self) (response_rx self) (spawned self)
    (answers self) (opened self) (S (drawn self)) (exchanged self).

(** ** What handlers set in motion *)

Definition clear_effects (s : OverlayService.t St) : OverlayService.t St :=
  OverlayService.mk (local_enr s) (cached_node_addr s) (utp_cids s) (kbuckets s) (peers_to_ping s) (store s)
    (find_node_query_pool s) (find_content_query_pool s) (query_parallelism s) (query_num_results s)
    (query_peer_timeout s) (findnodes_query_distances_per_peer s) (disable_poke s) [].

(** Requests of the service itself go through its own command channel, answers over the
    channel they are for, and tasks are spawned. *)
Definition carry_out self (e : effect) : t :=
  match e with
  | Command request destination query_id => send_request self request (RequestOutgoing destination) None query_id
  | SendGossipResult _ | SendNodes _ _ | SendContent _ _ _ _ => push_answer self (Sent e)
  | _ => set_spawned self (spawned self ++ [e])
  end.

(** The state after a handler left the service as [s]. *)
Definition settle self (s : OverlayService.t St) : t :=
  fold_left carry_out (effects s) (set_service self (clear_effects s)).

(** ** Commands *)

(** The task of [send_talk_req], up to the response it sends. *)
Definition talk_outcome (reply : res RequestError bytes) : res OverlayRequestError Response.t :=
  match reply with
  | Ok talk_resp =>
      match message_from_ssz talk_resp with
      | Some message =>
          match Response.try_from message with
          | Ok response => Ok response
          | _ => Err InvalidResponse
          end
      | None => Err DecodeError
      end
  | Err error => Err (from_request_error error)
  | Panic => Panic
  end.

Definition send_talk_req self (request : Request.t) (request_id : Z) (destination : Enr) : t :=
  set_talking self (talking self ++ [mk_talk request_id request destination]).

Definition process_request self (r : OverlayRequest) : res Empty_set t :=
  match direction r with
  | RequestIncoming _ source =>
      let '(s, response) := process_incoming (service self) (request r) source in
      let self := match responder r with Some tx => push_answer self (Answered tx response) | None => self end in
      let? s := s in Ok (settle self s)
  | RequestOutgoing destination =>
      let self := set_active self (<[id r := mk_active destination (responder r) (request r) (query_id r)]>
                                     (active_outgoing_requests self)) in
      Ok (send_talk_req self (request r) (id r) destination)
  end.

Definition process_event self (event : EventEnvelope) : t := self.

Definition run_command self (c : OverlayCommand) (now : Z) : res Empty_set t :=
  match c with
  | CmdRequest r => process_request self r
  | CmdEvent event => Ok (process_event self event)
  | CmdFindContent target callback is_trace =>
      Ok (settle self (init_find_content_query (service self) target (Some callback) is_trace now).1)
  | CmdFindNode target callback =>
      Ok (settle self (init_find_nodes_query (service self) target (Some callback)).1)
  | CmdEventStream callback => Ok (push_answer self (Subscribed callback))
  end.

(** ** Responses, pings, lookups, maintenance *)

Definition run_response self (r : OverlayResponse) (now : Z) : res Empty_set t :=
  match active_outgoing_requests self !! response_id r with
  | None => Ok self
  | Some a =>
      let self := set_active self (delete (response_id r) (active_outgoing_requests self)) in
      let self := match active_responder a with
                  | Some tx => push_answer self (Answered tx (response r)) | None => self end in
      match response r with
      | Ok resp =>
          let? s := OverlayContent.process_response (service self) resp (active_destination a)
                      (active_request a) (active_query_id a) now in
          Ok (settle self s)
      | Err _ => Ok (settle self (process_request_failure (service self) (active_destination a)))
      | Panic => Panic
      end
  end.

(** The time of a peer in the ping queue is up: [next] takes it out. *)
Definition run_ping self (node_id : bytes) : t :=
  let s := ping_queue_remove (service self) node_id in
  let '(s, e) := entry s node_id in
  match e with
  | Present node _ => settle self (ping_queue_insert (ping_node s (node_enr node)) node_id)
  | _ => settle self s
  end.

Definition poll_nodes self (now : Z) (o : orders) : res Empty_set t :=
  let? r := query_event_poll (find_node_query_pool (service self)) now (node_order o) in
  let s := set_node_pool (service self) r.1 in
  match r.2 with
  | Some query_event => let? s := handle_find_nodes_query_event s o query_event in Ok (settle self s)
  | None => Ok (settle self s)
  end.

Definition poll_content self (now : Z) (o : orders) : res Empty_set t :=
  let? r := query_event_poll (find_content_query_pool (service self)) now (content_order o) in
  let s := set_content_pool (service self) r.1 in
  match r.2 with
  | Some query_event => let? s := handle_find_content_query_event s o query_event in Ok (settle self s)
  | None => Ok (settle self s)
  end.

(** [choice] is the position of the bucket among the last ones, of 256. *)
Definition bucket_refresh_lookup self (rng : Rng) (choice : Z) : t :=
  let bucket := 256 - EXPECTED_NON_EMPTY_BUCKETS + choice in
  if bucket <=? 255 then
    let target_node_id := generate_random_node_id rng bucket (enr_node_id (local_enr (service self))) in
    settle self (init_find_nodes_query (service self) target_node_id None).1
  else self.

(** ** Tasks *)

(** What a task gets from the network: the content of a stream, the order in which a map of
    offers is traversed, whether the content was written, and what the validator is
    answered in each validation. *)
Record task_input := {
  stream : option bytes; offer_order : list bytes; written : bool; outside : nat -> Outside;
}.

(** What is not a task is not run. *)
Definition run_task self (e : effect) (i : task_input) : res Empty_set t :=
  match e with
  | SpawnProcessContent content key callback trace nodes_to_poke =>
      let? s := OverlayContent.process_received_content (service self) (outside i 0) content false key callback trace
                  nodes_to_poke in
      Ok (settle self s)
  | SpawnReceiveContent _ _ _ key callback trace nodes_to_poke =>
      let? s := OverlayContent.receive_content (service self) (outside i 0) (stream i) key callback trace nodes_to_poke in
      Ok (settle self s)
  | SpawnReceiveOffer _ keys =>
      Ok (match stream i with
          | Some payload =>
              settle self (OverlayContent.process_accept_utp_payload (service self) (outside i) keys payload (offer_order i)).1
          | None => self
          end)
  | SpawnSendOffer _ _ _ response offer =>
      let payload := OverlayContent.offer_payload (store (service self)) response offer in
      Ok (settle self (OverlayContent.finish_offer (service self) offer payload (written i)))
  | SpawnSendContent _ _ => Ok self
  | _ => Panic
  end.

(** ** The loop *)

(** The front end of the network opens a channel and sends a command with it, or sends a
    request without waiting. *)
Definition open self (o : opening) : t :=
  let tx := Z.of_nat (length (opened self)) in
  let self := mk (service self) (command_rx self) (active_outgoing_requests self) (talking self) (response_rx self)
                (spawned self) (answers self) (opened self ++ [o]) (drawn self) (exchanged self) in
  match o with
  | ForRequest r d => send_request self r d (Some tx) None
  | ForContent target is_trace => send_command self (CmdFindContent target tx is_trace)
  | ForNodes target => send_command self (CmdFindNode target tx)
  | ForEvents => send_command self (CmdEventStream tx)
  end.

(** A TALKREQ ends. *)
Definition end_talk self (k : talk) (rest : list talk) (reply : res RequestError bytes) : t :=
  let self := push_exchange (set_talking self rest) (k, reply) in
  set_responses self (response_rx self ++ [mk_response (talk_request_id k) (talk_outcome reply)]).

(** A task panics. *)
Definition end_task self (e : effect) (rest : list effect) : t := push_answer (set_spawned self rest) (Dropped e).

(** The front end writes to the store, adds a record to the routing table or deletes one. *)
Definition front_store self (key : ContentKey) (content : bytes) : t :=
  set_service self (set_store (service self) (store_put (store (service self)) key content).1).

Definition front_add_enr self (enr : Enr) : t :=
  set_service self (set_kbuckets (service self)
    (kb_insert_or_update (kbuckets (service self)) (enr_node_id enr)
       {| node_enr := enr; node_data_radius := Distance_MAX |}
       {| status_state := Connected; status_direction := Incoming |}).1).

Definition front_delete_enr self (node_id : bytes) : t :=
  set_service self (set_kbuckets (service self) (kb_remove (kbuckets (service self)) node_id).1).

(** [replies] is what the validator can be answered in this run, [user] what the user of
    the node stores over JSON-RPC. *)
Context (replies : Outside -> Prop) (user : ContentKey -> bytes -> Prop).

Inductive step : t -> t -> Prop :=
| step_open self o : step self (open self o)
| step_send self r d : step self (send_request self r d None None)
| step_event self event : step self (send_command self (CmdEvent event))
| step_command self c rest now self' :
    command_rx self = c :: rest -> run_command (set_commands self rest) c now = Ok self' -> step self self'
| step_talk self l1 k l2 reply :
    talking self = l1 ++ k :: l2 -> reply <> Panic -> step self (end_talk self k (l1 ++ l2) reply)
| step_response self r rest now self' :
    response_rx self = r :: rest -> run_response (set_responses self rest) r now = Ok self' -> step self self'
| step_ping self node_id : node_id ∈ peers_to_ping (service self) -> step self (run_ping self node_id)
| step_poll_nodes self now o self' :
    QueryPool.traversal (node_order o) (QueryPool.queries (find_node_query_pool (service self))) ->
    poll_nodes self now o = Ok self' -> step self self'
| step_poll_content self now o self' :
    QueryPool.traversal (content_order o) (QueryPool.queries (find_content_query_pool (service self))) ->
    poll_content self now o = Ok self' -> step self self'
| step_refresh self rng choice : 0 <= choice < EXPECTED_NON_EMPTY_BUCKETS ->
    step self (bucket_refresh_lookup self rng choice)
| step_task self l1 e l2 i self' :
    spawned self = l1 ++ e :: l2 -> (forall n, replies (outside i n)) ->
    run_task (set_spawned self (l1 ++ l2)) e i = Ok self' -> step self self'
| step_task_panic self l1 e l2 i :
    spawned self = l1 ++ e :: l2 -> (forall n, replies (outside i n)) ->
    run_task (set_spawned self (l1 ++ l2)) e i = Panic -> step self (end_task self e (l1 ++ l2))
| step_store self key content : user key content -> step self (front_store self key content)
| step_add_enr self enr : step self (front_add_enr self enr)
| step_delete_enr self node_id : step self (front_delete_enr self node_id).

(** [spawn]: the service starts with nothing under way and looks for peers. *)
Definition spawn (enr : Enr) (cached : bytes -> option Enr) (cids : nat -> Enr -> Z) (st : St) (k : kb)
    (bootnode_enrs : list Enr) (query_timeout query_peer_timeout query_parallelism query_num_results
     findnodes_query_distances_per_peer : Z) (disable_poke : bool) (targets : list bytes) : t :=
  let s := OverlayService.mk enr cached cids k ∅ st (QueryPool.new query_timeout) (QueryPool.new query_timeout)
             query_parallelism query_num_results query_peer_timeout findnodes_query_distances_per_peer
             disable_poke [] in
  settle (mk s [] ∅ [] [] [] [] [] 0 []) (initialize_routing_table s bootnode_enrs targets).
End Ops.

(** ** Two nodes *)

Section Exchange.
Context `{E : EnrLib} `{WL : WireLib} `{CK : OverlayContentKey} `{KB : !KBucketsTable} `{KL : KeyLib bytes}
  {St World : Type} `{CS : !ContentStore St} `{V : !Validator} `{MS : !MessageSsz} `{OW : !OverlayWorld St World}.

(** The message is read back as it was written. *)
Definition readable (m : Message.t) : Prop := message_from_ssz (message_as_ssz m) = Some m.

(** The TALKREQ that carries a request is handed to the service of the other node as that
    request (an offer with its content as an offer of the keys); what the service responds
    is sent back and read by the node that asked, and if the service fails, for whatever
    reason, an empty TALKRESP is, which cannot be decoded. *)
Lemma talk_exchange (r : Request.t) (request : TalkRequest) (w : World) :
  talk_body request = message_as_ssz (Request.to_message r) ->
  readable (Request.to_message r) -> message_from_ssz [] = None ->
  let served := w_request (Request.on_wire r) (RequestIncoming (talk_id request) (talk_node_id request)) w in
  (forall resp w', served = (Some (Ok resp), w') ->
     let reply := message_as_ssz (Response.to_message resp) in
     reply_to request w = (Some reply, w')
     /\ (readable (Response.to_message resp) -> talk_outcome (Ok reply) = Ok resp))
  /\ (forall w', (exists e, served = (Some (Err e), w')) \/ served = (None, w') ->
      reply_to request w = (Some [], w') /\ talk_outcome (Ok []) = Err DecodeError).
Proof.
  intros Hb Hr Hn served.
  assert (Hm : message_from_ssz (talk_body request) = Some (Request.to_message r)) by (by rewrite Hb).
  assert (Ht : Request.try_from (Request.to_message r) = Ok (Request.on_wire r)) by apply message_partition.
  assert (Hp : OverlayProtocol.process_one_request request w
    = match served with (Some x, w) => (x, w) | (None, w) => (Err ChannelFailure, w) end).
  { unfold OverlayProtocol.process_one_request, OverlayProtocol.send_overlay_request. by rewrite Hm, Ht. }
  unfold reply_to. rewrite Hp. split.
  - intros resp w' ->. split; [done|]. intros Hresp. unfold talk_outcome. rewrite Hresp. by destruct resp.
  - intros w' [[e ->]| ->]; (split; [done|]); unfold talk_outcome; by rewrite Hn.
Qed.
End Exchange.
End OverlayLoop.
