(* ===== verification/OverlayRequests.v ===== *)
(** * The main loop of the overlay service: responses find their requests.

    The invariant of the requests that are under way: their ids differ, each is carried by
    one TALKREQ or has its response queued, and the answers that were sent are what discv5
    returned.  It is kept by every step of the loop. *)

From stdpp Require Import gmap sets.
From S2P Require Import Prelude.
From S2P Require Import Distance.
From S2P Require Import ContentKey.
From S2P Require Import Query.
From S2P Require Import FindNodes.
From S2P Require Import FindContent.
From S2P Require Import QueryPool.
From S2P Require Import Wire.
From S2P Require Import QueryTrace.
From S2P Require Import QueryInfo.
From S2P Require Import ContentStore.
From S2P Require Import Payload.
From S2P Require Import Overlay.
From S2P Require Import OverlayQuery.
From S2P Require Import Gossip.
From S2P Require Import OverlayContent.
From S2P Require Import OverlayProtocol.
From S2P Require Import Events.
From S2P Require Import OverlayChannels.
From S2P Require Import OverlayLoop.

Module OverlayRequests.
Import OverlayService OverlayQuery OverlayLoop.

Section Matched.
Context `{E : EnrLib} `{W : WireLib} `{CK : OverlayContentKey} `{KB : !KBucketsTable}
  `{KL : KeyLib bytes} `{L : !Log2Lib bytes} {St : Type} `{CS : !ContentStore St}
  `{V : !Validator} `{LB : Leb128} `{T : !EnrText} `{R : RandomLib} `{MS : !MessageSsz}
  (rand : nat -> Z) `{Hrand : !Inj (=) (=) rand} (replies : Outside -> Prop) (user : ContentKey -> bytes -> Prop).
Implicit Types (self : t (St := St)).

(** What handlers leave alone, with the commands they add. *)
Record settled self self' (added : list OverlayCommand) : Prop := {
  settled_commands : command_rx self' = command_rx self ++ added;
  settled_active : active_outgoing_requests self' = active_outgoing_requests self;
  settled_talking : talking self' = talking self;
  settled_responses : response_rx self' = response_rx self;
  settled_opened : opened self' = opened self;
  settled_exchanged : exchanged self' = exchanged self;
  settled_drawn : drawn self' = (drawn self + length added)%nat;
  settled_added : forall j c, added !! j = Some c -> exists r dest q,
    c = CmdRequest (mk_request (rand (drawn self + j)) r (RequestOutgoing dest) None q);
  settled_answers : exists l, answers self' = answers self ++ map Sent l;
}.

Lemma settled_refl self : settled self self [].
Proof. split; try done; [by rewrite app_nil_r|exists []; by rewrite app_nil_r]. Qed.

Lemma settled_trans self1 self2 self3 l l' :
  settled self1 self2 l -> settled self2 self3 l' -> settled self1 self3 (l ++ l').
Proof.
  intros [A1 A2 A3 A4 A5 A6 A7 A8 [la Ha]] [B1 B2 B3 B4 B5 B6 B7 B8 [lb Hb]].
  split; try congruence.
  - by rewrite B1, A1, app_assoc.
  - rewrite B7, A7, length_app. lia.
  - intros j c Hj. destruct (decide (j < length l)%nat) as [Hlt|Hge].
    + rewrite lookup_app_l in Hj by done. by apply A8.
    + rewrite lookup_app_r in Hj by lia. destruct (B8 _ _ Hj) as (r & dest & q & ->). exists r, dest, q.
      do 3 f_equal. rewrite A7. lia.
  - exists (la ++ lb). by rewrite Hb, Ha, map_app, app_assoc.
Qed.

Lemma carry_out_settled self e : exists l, settled self (carry_out rand self e) l.
Proof.
  destruct e as [r dest q| | | | | | | |].
  1: { exists [CmdRequest (mk_request (rand (drawn self)) r (RequestOutgoing dest) None q)].
       split; try done; [simpl; lia| |exists []; by rewrite app_nil_r].
       intros [|j] c; [|by destruct j]. intros [= <-]. rewrite Nat.add_0_r. eauto. }
  1-5: exists []; split; try done; [by rewrite app_nil_r|exists []; by rewrite app_nil_r].
  all: exists []; split; try done; [by rewrite app_nil_r|].
  all: eexists [_]; done.
Qed.

Lemma settle_settled self s :
  service (settle rand self s) = clear_effects s /\ exists l, settled self (settle rand self s) l.
Proof.
  unfold settle. assert (H : forall l self1, service (fold_left (carry_out rand) l self1) = service self1
    /\ exists l', settled self1 (fold_left (carry_out rand) l self1) l').
  { induction l as [|e l IH]; intros self1; [split; [done|]; exists []; apply settled_refl|]. simpl.
    destruct (IH (carry_out rand self1 e)) as [Hs [l' Hl]]. destruct (carry_out_settled self1 e) as [l0 H0].
    split; [rewrite Hs; by destruct e|]. exists (l0 ++ l'). by eapply settled_trans. }
  destruct (H (effects s) (set_service self (clear_effects s))) as [Hs [l Hl]]. split; [done|].
  exists l. destruct Hl. by split.
Qed.

Definition command_id (c : OverlayCommand) : option Z := match c with CmdRequest r => Some (id r) | _ => None end.
Definition active_ids self : list Z := (map_to_list (active_outgoing_requests self)).*1.

(** The TALKREQ [k] carries the request [a]. *)
Definition carries (k : talk) (a : ActiveOutgoingRequest) : Prop :=
  active_request a = talked k /\ active_destination a = talk_destination k.

(** The channel [tx] was opened for the request [r]. *)
Definition opened_for self (tx : option Z) (r : Request.t) (d : RequestDirection) : Prop :=
  forall i, tx = Some i -> exists n, i = Z.of_nat n /\ opened self !! n = Some (ForRequest r d).

(** The TALKREQ of an outgoing request ended with the result [r]. *)
Definition replied self (r : Request.t) (dest : Enr) (result : res OverlayRequestError Response.t) : Prop :=
  exists k reply, (k, reply) ∈ exchanged self /\ talked k = r /\ talk_destination k = dest
    /\ result = talk_outcome reply.

Record matched self : Prop := {
  matched_drawn : forall i, i ∈ omap command_id (command_rx self) ++ active_ids self ->
    exists n, (n < drawn self)%nat /\ i = rand n;
  matched_nodup : NoDup (omap command_id (command_rx self) ++ active_ids self);
  matched_active : map talk_request_id (talking self) ++ map response_id (response_rx self) ≡ₚ active_ids self;
  matched_talks : forall k, k ∈ talking self ->
    exists a, active_outgoing_requests self !! talk_request_id k = Some a /\ carries k a;
  matched_responses : forall r, r ∈ response_rx self ->
    exists a, active_outgoing_requests self !! response_id r = Some a
      /\ replied self (active_request a) (active_destination a) (response r);
  matched_commands : forall r, CmdRequest r ∈ command_rx self -> opened_for self (responder r) (request r) (direction r);
  matched_responders : forall i a, active_outgoing_requests self !! i = Some a ->
    opened_for self (active_responder a) (active_request a) (RequestOutgoing (active_destination a));
  matched_answers : forall i result, Answered i result ∈ answers self ->
    exists n r d, i = Z.of_nat n /\ opened self !! n = Some (ForRequest r d)
      /\ match d with RequestOutgoing dest => replied self r dest result | RequestIncoming _ _ => True end;
}.

Lemma opened_for_prefix self self' tx r d :
  opened self `prefix_of` opened self' -> opened_for self tx r d -> opened_for self' tx r d.
Proof. intros Hp H i Hi. destruct (H i Hi) as (n & -> & Hn). exists n. eauto using prefix_lookup_Some. Qed.

Lemma replied_same self self' r dest result :
  exchanged self `prefix_of` exchanged self' -> replied self r dest result -> replied self' r dest result.
Proof.
  intros [l Hl] (k & reply & Hin & H). exists k, reply. split; [|done]. rewrite Hl. set_solver.
Qed.

(** Commands with new ids are added, channels are opened, and whatever else is answered. *)
Lemma matched_grow self self' added n :
  matched self -> command_rx self' = command_rx self ++ added ->
  active_outgoing_requests self' = active_outgoing_requests self -> talking self' = talking self ->
  response_rx self' = response_rx self -> exchanged self' = exchanged self ->
  opened self `prefix_of` opened self' ->
  omap command_id added = map rand (seq (drawn self) n) -> drawn self' = (drawn self + n)%nat ->
  (forall r, CmdRequest r ∈ added -> opened_for self' (responder r) (request r) (direction r)) ->
  (forall i result, Answered i result ∈ answers self' -> Answered i result ∈ answers self) ->
  matched self'.
Proof.
  intros [M1 M2 M3 M4 M5 M6 M7 M8] H1 H2 H3 H4 H5 H6 H7 H8 H9 H10.
  assert (Hrep : forall r dest result, replied self r dest result -> replied self' r dest result)
    by (intros r dest result; apply replied_same; by rewrite H5).
  assert (Hids : omap command_id (command_rx self') ++ active_ids self'
    ≡ₚ map rand (seq (drawn self) n) ++ omap command_id (command_rx self) ++ active_ids self).
  { unfold active_ids. rewrite H1, omap_app, H7, H2, <- app_assoc. apply Permutation_app_swap_app. }
  split.
  - intros i. rewrite Hids. intros [(m & -> & Hm)%list_elem_of_fmap|Hi]%elem_of_app.
    + apply elem_of_seq in Hm. exists m. split; [lia|done].
    + destruct (M1 i Hi) as (m & Hm & ->). exists m. split; [lia|done].
  - rewrite Hids. apply NoDup_app. split_and!; [apply NoDup_fmap_2, NoDup_seq; exact Hrand| |done].
    intros i (m & -> & Hm)%list_elem_of_fmap Hi. apply elem_of_seq in Hm.
    destruct (M1 _ Hi) as (m' & Hm' & <-%Hrand). lia.
  - unfold active_ids. by rewrite H3, H4, H2.
  - intros k. rewrite H3, H2. apply M4.
  - intros r Hr. rewrite H4 in Hr. rewrite H2. destruct (M5 r Hr) as (a & Ha & Hrp). eauto.
  - intros r. rewrite H1. intros [Hr|Hr]%elem_of_app; [|by apply H9].
    eapply opened_for_prefix; [exact H6|by apply M6].
  - intros i a. rewrite H2. intros Ha. eapply opened_for_prefix; [exact H6|by eapply M7].
  - intros i result Hi. destruct (M8 i result (H10 i result Hi)) as (m & r & d & -> & Hm & Hd).
    exists m, r, d. split_and!; [done|by eapply prefix_lookup_Some|]. destruct d; [done|]. by apply Hrep.
Qed.

Lemma added_ids d added :
  (forall j c, added !! j = Some c -> exists r dest q,
     c = CmdRequest (mk_request (rand (d + j)) r (RequestOutgoing dest) None q)) ->
  omap command_id added = map rand (seq d (length added)).
Proof.
  revert d. induction added as [|c added IH]; intros d H; [done|].
  destruct (H 0%nat c eq_refl) as (r & dest & q & ->). rewrite Nat.add_0_r. simpl. f_equal. apply IH.
  intros j c Hj. destruct (H (S j) c Hj) as (r' & dest' & q' & ->). exists r', dest', q'. do 3 f_equal. lia.
Qed.

Lemma matched_settled self self' added : matched self -> settled self self' added -> matched self'.
Proof.
  intros M [H1 H2 H3 H4 H5 H6 H7 H8 [l H9]]. eapply (matched_grow self self' added (length added)); try done.
  - by rewrite H5.
  - by apply added_ids.
  - intros r [j Hj]%list_elem_of_lookup. destruct (H8 j _ Hj) as (r' & dest & q & [= ->]). by intros i Hi.
  - intros i result. rewrite H9. intros [Hi|(e & ? & _)%list_elem_of_fmap]%elem_of_app; done.
Qed.

Lemma matched_settle self s : matched self -> matched (settle rand self s).
Proof. intros M. destruct (settle_settled self s) as [_ [l Hl]]. by eapply matched_settled. Qed.

Lemma matched_open self o : matched self -> matched (open rand self o).
Proof.
  intros M. destruct o as [r d|target tr|target|].
  1: eapply (matched_grow self _ [_] 1); try done; [by eexists|simpl; lia|].
  2-4: eapply (matched_grow self _ [_] 0); try done; [by eexists|].
  - intros r' ->%list_elem_of_singleton%(f_equal (fun c => match c with CmdRequest x => x | _ => r' end)).
    simpl. intros i [= <-]. exists (length (opened self)). split; [done|]. simpl. by rewrite lookup_app_r, Nat.sub_diag by lia.
  - by intros r' ?%list_elem_of_singleton.
  - by intros r' ?%list_elem_of_singleton.
  - by intros r' ?%list_elem_of_singleton.
Qed.

Lemma matched_send self r d : matched self -> matched (send_request rand self r d None None).
Proof.
  intros M. eapply (matched_grow self _ [_] 1); try done; [simpl; lia|].
  intros r' ->%list_elem_of_singleton%(f_equal (fun c => match c with CmdRequest x => x | _ => r' end)). done.
Qed.

Lemma matched_event self event : matched self -> matched (send_command self (CmdEvent event)).
Proof.
  intros M. eapply (matched_grow self _ [_] 0); try done. by intros r' ?%list_elem_of_singleton.
Qed.

Lemma active_ids_elem self i : i ∈ active_ids self <-> exists a, active_outgoing_requests self !! i = Some a.
Proof.
  unfold active_ids. rewrite list_elem_of_fmap. split.
  - intros ([j a] & -> & H%elem_of_map_to_list). eauto.
  - intros [a H%elem_of_map_to_list]. by exists (i, a).
Qed.

Lemma matched_pop self c rest : matched self -> command_rx self = c :: rest -> matched (set_commands self rest).
Proof.
  intros [M1 M2 M3 M4 M5 M6 M7 M8] Hc. rewrite Hc in M1, M2, M6.
  assert (Hsub : omap command_id rest ++ active_ids self `sublist_of` omap command_id (c :: rest) ++ active_ids self).
  { apply sublist_app; [|done]. simpl. destruct (command_id c); [by constructor|done]. }
  split; try done.
  - intros i Hi. apply M1. revert Hi. simpl. rewrite !elem_of_app. destruct (command_id c); set_solver.
  - by eapply sublist_NoDup.
  - intros r Hr. apply M6. by right.
Qed.

Lemma matched_push self a : matched self ->
  (forall i result, a = Answered i result -> exists n r d, i = Z.of_nat n /\ opened self !! n = Some (ForRequest r d)
     /\ match d with RequestOutgoing dest => replied self r dest result | RequestIncoming _ _ => True end) ->
  matched (push_answer self a).
Proof.
  intros [M1 M2 M3 M4 M5 M6 M7 M8] Ha. split; try done.
  intros i result [Hi|Hi%list_elem_of_singleton]%elem_of_app; [by apply M8|by apply Ha].
Qed.

(** The active requests without an id. *)
Lemma free_id self r rest : matched self -> command_rx self = CmdRequest r :: rest ->
  active_outgoing_requests self !! id r = None.
Proof.
  intros M Hc. pose proof (matched_nodup _ M) as Hn. rewrite Hc in Hn. apply NoDup_cons in Hn as [Hn _].
  destruct (_ !! id r) as [a|] eqn:Ha; [|done]. destruct Hn. apply elem_of_app. right. apply active_ids_elem. eauto.
Qed.

Lemma matched_outgoing self r rest dest :
  matched self -> command_rx self = CmdRequest r :: rest -> direction r = RequestOutgoing dest ->
  let a := mk_active dest (responder r) (request r) (query_id r) in
  matched (send_talk_req (set_active (set_commands self rest) (<[id r := a]> (active_outgoing_requests self)))
             (request r) (id r) dest).
Proof.
  intros M Hc Hd a. pose proof (free_id _ _ _ M Hc) as Hfree. pose proof (matched_pop _ _ _ M Hc) as [P1 P2 P3 P4 P5 P6 P7 P8].
  destruct M as [M1 M2 M3 M4 M5 M6 M7 M8]. rewrite Hc in M1, M2, M6. simpl in M1, M2.
  set (self' := send_talk_req _ _ _ _).
  assert (Hids : active_ids self' ≡ₚ id r :: active_ids self).
  { unfold active_ids. simpl. by rewrite map_to_list_insert. }
  assert (Hkeep : forall i b, active_outgoing_requests self !! i = Some b -> active_outgoing_requests self' !! i = Some b).
  { intros i b Hb. simpl. rewrite lookup_insert_ne; [done|]. intros <-. congruence. }
  split; simpl.
  - intros i. rewrite Hids. intros Hi. apply M1. set_solver.
  - rewrite Hids, <- Permutation_middle. done.
  - rewrite map_app, <- app_assoc. simpl. rewrite Hids, <- M3. by rewrite <- Permutation_middle.
  - intros k [Hk|Hk%list_elem_of_singleton]%elem_of_app.
    + destruct (M4 k Hk) as (b & Hb & Hcar). exists b. split; [by apply Hkeep|done].
    + subst k. exists a. simpl. by rewrite lookup_insert_eq.
  - intros x Hx. destruct (M5 x Hx) as (b & Hb & Hr). exists b. split; [by apply Hkeep|done].
  - intros x Hx. apply M6. by right.
  - intros i b Hb. apply lookup_insert_Some in Hb as [[<- <-]|[_ Hb]]; [|by apply (M7 i b)].
    simpl. rewrite <- Hd. apply M6. by left.
  - exact M8.
Qed.

Lemma matched_end_talk self l1 k l2 reply :
  matched self -> talking self = l1 ++ k :: l2 -> matched (end_talk self k (l1 ++ l2) reply).
Proof.
  intros [M1 M2 M3 M4 M5 M6 M7 M8] Hk. rewrite Hk in M3, M4.
  assert (Hrep : forall r dest result, replied self r dest result -> replied (end_talk self k (l1 ++ l2) reply) r dest result).
  { intros r dest result. apply replied_same. simpl. by eexists. }
  split; try done; simpl.
  - change (active_ids (end_talk self k (l1 ++ l2) reply)) with (active_ids self). rewrite <- M3, !map_app.
    simpl. rewrite <- !app_assoc. apply Permutation_app_head. rewrite (app_assoc _ _ [_]), Permutation_app_comm. done.
  - intros x Hx. apply M4. set_solver.
  - intros x [Hx|Hx%list_elem_of_singleton]%elem_of_app.
    + destruct (M5 x Hx) as (a & Ha & Hr). eauto.
    + subst x. destruct (M4 k ltac:(set_solver)) as (a & Ha & Hr & Hd). exists a. split; [done|].
      exists k, reply. split; [apply elem_of_app; right; by left|]. by rewrite Hr, Hd.
  - intros i result Hi. destruct (M8 i result Hi) as (n & r & d & -> & Hn & Hd). exists n, r, d.
    split_and!; [done|done|]. destruct d; [done|]. by apply Hrep.
Qed.

Lemma matched_pop_response self r rest a :
  matched self -> response_rx self = r :: rest ->
  active_outgoing_requests self !! response_id r = Some a ->
  matched (set_active (set_responses self rest) (delete (response_id r) (active_outgoing_requests self))).
Proof.
  intros [M1 M2 M3 M4 M5 M6 M7 M8] Hr Ha. rewrite Hr in M3, M5.
  set (self' := set_active _ _).
  assert (Hids : active_ids self ≡ₚ response_id r :: active_ids self').
  { unfold active_ids. simpl. by rewrite <- (map_to_list_delete _ _ a Ha). }
  assert (Hact : map talk_request_id (talking self) ++ map response_id rest ≡ₚ active_ids self').
  { apply (Permutation_cons_inv (a := response_id r)). rewrite <- Hids, <- M3. simpl. by rewrite Permutation_middle. }
  assert (Hnd : NoDup (response_id r :: active_ids self'))
    by (rewrite <- Hids; by apply NoDup_app in M2 as (_ & _ & ?)).
  apply NoDup_cons in Hnd as [Hni Hnd].
  assert (Hkeep : forall i b, i ∈ active_ids self' -> active_outgoing_requests self !! i = Some b ->
    active_outgoing_requests self' !! i = Some b).
  { intros i b Hi Hb. simpl. rewrite lookup_delete_ne; [done|]. by intros <-. }
  split; simpl; try done.
  - intros i Hi. apply M1. rewrite Hids. set_solver.
  - rewrite Hids, <- Permutation_middle in M2. by apply NoDup_cons in M2 as [_ ?].
  - intros k Hk. destruct (M4 k Hk) as (b & Hb & Hc). exists b. split; [|done]. apply Hkeep; [|done].
    rewrite <- Hact. apply elem_of_app. left. by apply list_elem_of_fmap_2.
  - intros x Hx. destruct (M5 x) as (b & Hb & Hc); [by right|]. exists b. split; [|done]. apply Hkeep; [|done].
    rewrite <- Hact. apply elem_of_app. right. by apply list_elem_of_fmap_2.
  - intros i b [_ Hb]%lookup_delete_Some. by apply (M7 i b).
Qed.

Lemma matched_command self c rest now self' :
  matched self -> command_rx self = c :: rest -> run_command rand (set_commands self rest) c now = Ok self' ->
  matched self'.
Proof.
  intros M Hc H. pose proof (matched_pop _ _ _ M Hc) as Mp.
  destruct c as [r|target cb tr|target cb|cb|event]; simpl in H.
  - unfold process_request in H. destruct (direction r) as [rid source|dest] eqn:Hd.
    + destruct (process_incoming _ _ _) as [s resp]. destruct s as [s| |]; simplify_eq/=. apply matched_settle.
      destruct (responder r) as [tx|] eqn:Htx; [|done]. apply matched_push; [done|]. intros i result [= <- <-].
      destruct (matched_commands _ M r) with (i := tx) as (n & -> & Hn); [rewrite Hc; by left|done|].
      exists n, (request r), (direction r). rewrite Hd in *. done.
    + simplify_eq. by eapply matched_outgoing.
  - simplify_eq. by apply matched_settle.
  - simplify_eq. by apply matched_settle.
  - simplify_eq. by apply matched_push.
  - by simplify_eq.
Qed.

Lemma matched_response self r rest now self' :
  matched self -> response_rx self = r :: rest -> run_response rand (set_responses self rest) r now = Ok self' ->
  matched self'.
Proof.
  intros M Hr H. destruct (matched_responses _ M r) as (a & Ha & Hrep); [rewrite Hr; by left|].
  unfold run_response in H. simpl in H. rewrite Ha in H.
  pose proof (matched_pop_response _ _ _ _ M Hr Ha) as Mp.
  set (self1 := set_active _ _) in H, Mp.
  set (self2 := match active_responder a with Some tx => push_answer self1 _ | None => self1 end) in H.
  assert (matched self2) as M2.
  { unfold self2. destruct (active_responder a) as [tx|] eqn:Htx; [|done]. apply matched_push; [done|].
    intros i result [= <- <-]. destruct (matched_responders _ M _ _ Ha tx Htx) as (n & -> & Hn).
    by exists n, (active_request a), (RequestOutgoing (active_destination a)). }
  destruct (response r) as [resp|e|]; [|simplify_eq; by apply matched_settle|done].
  destruct (OverlayContent.process_response _ _ _ _ _ _) as [s| |]; simplify_eq/=. by apply matched_settle.
Qed.

Lemma matched_task self l1 e l2 i self' :
  matched self -> spawned self = l1 ++ e :: l2 -> run_task rand (set_spawned self (l1 ++ l2)) e i = Ok self' ->
  matched self'.
Proof.
  intros M _ H. assert (Ms : matched (set_spawned self (l1 ++ l2))) by (destruct M; by split).
  destruct e; simpl in H; try (by simplify_eq); try (simplify_eq; by apply matched_settle).
  - destruct (stream i); simplify_eq; [by apply matched_settle|done].
  - destruct (OverlayContent.receive_content _ _ _ _ _ _ _) as [s| |]; simplify_eq/=. by apply matched_settle.
  - destruct (OverlayContent.process_received_content _ _ _ _ _ _ _ _) as [s| |]; simplify_eq/=. by apply matched_settle.
Qed.

Lemma step_matched self self' : matched self -> step rand replies user self self' -> matched self'.
Proof.
  intros M. destruct 1 as [self o|self r d|self event|self c rest now self' Hc H|self l1 k l2 reply Hk _
    |self r rest now self' Hr H|self n _|self now o self' _ H|self now o self' _ H|self rng choice _
    |self l1 e l2 i self' He _ H|self l1 e l2 i He _ H|self key content _|self enr|self node_id].
  - by apply matched_open.
  - by apply matched_send.
  - by apply matched_event.
  - by eapply matched_command.
  - by apply matched_end_talk.
  - by eapply matched_response.
  - unfold run_ping. destruct (entry _ _) as [s []]; by apply matched_settle.
  - unfold poll_nodes in H. destruct (query_event_poll _ _ _) as [[p ev]| |]; simplify_eq/=.
    destruct ev as [ev|]; [|simplify_eq; by apply matched_settle].
    destruct (handle_find_nodes_query_event _ _ _); simplify_eq/=. by apply matched_settle.
  - unfold poll_content in H. destruct (query_event_poll _ _ _) as [[p ev]| |]; simplify_eq/=.
    destruct ev as [ev|]; [|simplify_eq; by apply matched_settle].
    destruct (handle_find_content_query_event _ _ _); simplify_eq/=. by apply matched_settle.
  - unfold bucket_refresh_lookup. destruct (_ <=? _); [by apply matched_settle|done].
  - by eapply matched_task.
  - apply matched_push; [|done]. destruct M; by split.
  - destruct M; by split.
  - destruct M; by split.
  - destruct M; by split.
Qed.

Lemma matched_new s : matched (mk s [] ∅ [] [] [] [] [] 0 []).
Proof.
  split; simpl; try set_solver. apply NoDup_nil_2.
Qed.
End Matched.
End OverlayRequests.
