(* ===== verification/OverlayAnswers.v ===== *)
(** * The main loop of the overlay service: its theorems.

    Every channel is answered once or dropped by a task that panics, responses are matched to their requests, and the loop
    runs the lookups of the service the way their own transition system allows. *)

From stdpp Require Import gmap sets.
From S2P Require Import Prelude.
From S2P Require Import Distance.
From S2P Require Import ContentKey.
From S2P Require Import Query.
From S2P Require Import FindNodes.
From S2P Require Import FindContent.
From S2P Require Import QueryPool.
From S2P Require Import Wire.
From S2P Require Import QueryTrace.
From S2P Require Import QueryInfo.
From S2P Require Import ContentStore.
From S2P Require Import Payload.
From S2P Require Import Overlay.
From S2P Require Import OverlayQuery.
From S2P Require Import Gossip.
From S2P Require Import OverlayContent.
From S2P Require Import OverlayProtocol.
From S2P Require Import Events.
From S2P Require Import OverlayChannels.
From S2P Require Import OverlayLoop.
From S2P Require Import OverlayRequests.

Module OverlayAnswers.
Import OverlayService OverlayQuery OverlayChannels OverlayLoop OverlayRequests.

Section Conserved.
Context `{E : EnrLib} `{W : WireLib} `{CK : OverlayContentKey} `{KB : !KBucketsTable}
  `{KL : KeyLib bytes} `{L : !Log2Lib bytes} {St : Type} `{CS : !ContentStore St}
  `{V : !Validator} `{LB : Leb128} `{T : !EnrText} `{R : RandomLib} `{MS : !MessageSsz}
  (rand : nat -> Z) (replies : Outside -> Prop) (user : ContentKey -> bytes -> Prop).
Implicit Types (self : t (St := St)).

Definition command_token (c : OverlayCommand) : option Z :=
  match c with
  | CmdRequest r => responder r
  | CmdFindContent _ callback _ | CmdFindNode _ callback | CmdEventStream callback => Some callback
  | CmdEvent _ => None
  end.

(** The channel that was answered, the channel that a panicking task dropped. *)
Definition answer_token (a : answer) : option Z :=
  match a with
  | Answered tx _ | Subscribed tx => Some tx
  | Sent e => effect_token e
  | Dropped _ => None
  end.
Definition drop_token (a : answer) : option Z :=
  match a with Dropped e => effect_token e | _ => None end.
Definition end_token (a : answer) : option Z :=
  match a with Dropped e => effect_token e | _ => answer_token a end.

(** The channels that are held somewhere, those that were answered, and those that were
    dropped. *)
Definition waiting self : list Z :=
  omap command_token (command_rx self) ++ held active_responder (active_outgoing_requests self)
  ++ service_tokens (service self) ++ omap effect_token (spawned self).
Definition answered self : list Z := omap answer_token (answers self).
Definition dropped self : list Z := omap drop_token (answers self).
Definition finished self : list Z := omap end_token (answers self).
Definition tokens self : list Z := waiting self ++ finished self.

Lemma finished_split self : finished self ≡ₚ answered self ++ dropped self.
Proof.
  unfold finished, answered, dropped. induction (answers self) as [|a l IH]; [done|].
  destruct a as [tx r|tx|e|e]; cbn; [by rewrite IH..| |]; (destruct (effect_token e); [|exact IH]);
    rewrite IH; [done|apply Permutation_middle].
Qed.

(** Equations between multisets of channels, by counting. *)
Lemma count_cons (x y : Z) l :
  count_occ Z.eq_dec (x :: l) y = (count_occ Z.eq_dec [x] y + count_occ Z.eq_dec l y)%nat.
Proof. apply (count_occ_app Z.eq_dec [x] l). Qed.

Ltac perm :=
  repeat match goal with H : _ ≡ₚ _ |- _ => rewrite (Permutation_count_occ Z.eq_dec) in H end;
  rewrite (Permutation_count_occ Z.eq_dec); let x := fresh in intros x;
  repeat match goal with H : forall _, count_occ _ _ _ = count_occ _ _ _ |- _ => specialize (H x) end;
  rewrite ?count_occ_app in *;
  repeat match goal with
  | |- context [count_occ _ (?y :: ?l) _] =>
      lazymatch l with [] => fail | _ => rewrite (count_cons y x l), ?count_occ_app end
  end;
  rewrite ?count_occ_nil in *; lia.

Lemma omap_snoc {A} (f : A -> option Z) l x : omap f (l ++ [x]) = omap f l ++ option_list (f x).
Proof. rewrite omap_app. simpl. by destruct (f x). Qed.

Lemma carry_out_tokens self e : tokens (carry_out rand self e) ≡ₚ option_list (effect_token e) ++ tokens self.
Proof.
  unfold tokens, waiting, finished. destruct e; cbn -[service_tokens held];
    rewrite ?omap_snoc; cbn -[service_tokens held]; perm.
Qed.

(** Settling hands the channels in the effects of the service on. *)
Lemma settle_tokens self s : tokens (settle rand self s) ≡ₚ tokens (set_service self s).
Proof.
  assert (H : forall l self, tokens (fold_left (carry_out rand) l self) ≡ₚ omap effect_token l ++ tokens self).
  { induction l as [|e l IH]; intros self1; [done|]. cbn [fold_left]. rewrite IH, carry_out_tokens.
    change (omap effect_token (e :: l)) with (omap effect_token ([e] ++ l)). rewrite omap_app.
    change (omap effect_token [e]) with (option_list (effect_token e)) || (simpl; destruct (effect_token e)).
    all: perm. }
  unfold settle. rewrite H. unfold tokens, waiting, service_tokens. cbn -[held]. perm.
Qed.

(** A handler that takes channels over. *)
Lemma settle_hands self s taken :
  hands taken (service self) s -> tokens (settle rand self s) ≡ₚ taken ++ tokens self.
Proof.
  intros [H _ _]. rewrite settle_tokens. unfold tokens, waiting, finished. simpl.
  set (x := service_tokens (service self)) in *. set (y := service_tokens s) in *. perm.
Qed.

Definition channels self : list Z := map Z.of_nat (seq 0 (length (opened self))).

(** No channel is lost or answered twice, and the ids of lookups are not used up. *)
Record conserved (n : Z) self : Prop := {
  conserved_tokens : tokens self ≡ₚ channels self;
  conserved_fresh : fresh_service n (service self);
}.

Lemma settle_opened self s : opened (settle rand self s) = opened self /\ service (settle rand self s) = clear_effects s.
Proof. destruct (settle_settled rand self s) as [Hs [l Hl]]. split; [apply (settled_opened _ _ _ _ Hl)|done]. Qed.

Lemma fresh_clear n (s : OverlayService.t St) : fresh_service n s -> fresh_service n (clear_effects s).
Proof. done. Qed.

(** The state before a handler runs holds all channels but those that the handler takes over. *)
Lemma conserved_settle n self s taken :
  taken ++ tokens self ≡ₚ channels self -> hands taken (service self) s -> fresh_service n (service self) ->
  conserved n (settle rand self s).
Proof.
  intros Ht Hh Hf. destruct (settle_opened self s) as [Ho Hs]. split.
  - rewrite (settle_hands _ _ _ Hh). unfold channels. by rewrite Ho.
  - rewrite Hs. by eapply fresh_clear, fresh_hands.
Qed.

(** The same for a handler that begins a lookup. *)
Lemma conserved_init n self s taken :
  taken ++ tokens self ≡ₚ channels self -> service_tokens s ≡ₚ taken ++ service_tokens (service self) ->
  fresh_service n s -> conserved n (settle rand self s).
Proof.
  intros Ht Hh Hf. destruct (settle_opened self s) as [Ho Hs]. split; [|rewrite Hs; by apply fresh_clear].
  rewrite settle_tokens. unfold channels. rewrite Ho. fold (channels self). rewrite <- Ht.
  unfold tokens, waiting, finished. simpl.
  set (x := service_tokens (service self)) in *. set (y := service_tokens s) in *. clear Ht. perm.
Qed.

Lemma conserved_le n m self : conserved n self -> n <= m -> conserved m self.
Proof. intros [H1 H2] Hle. split; [done|by eapply fresh_service_le]. Qed.

Lemma pop_tokens self c rest :
  command_rx self = c :: rest -> tokens self ≡ₚ option_list (command_token c) ++ tokens (set_commands self rest).
Proof.
  intros Hc. unfold tokens, waiting, finished. simpl. rewrite Hc.
  change (c :: rest) with ([c] ++ rest). rewrite omap_app.
  assert (omap command_token [c] = option_list (command_token c)) as -> by (simpl; by destruct (command_token c)).
  set (x := service_tokens (service self)). perm.
Qed.

Lemma task_tokens self l1 e l2 :
  spawned self = l1 ++ e :: l2 ->
  tokens self ≡ₚ option_list (effect_token e) ++ tokens (set_spawned self (l1 ++ l2)).
Proof.
  intros He. unfold tokens, waiting, finished. simpl. rewrite He.
  change (e :: l2) with ([e] ++ l2). rewrite !omap_app.
  assert (omap effect_token [e] = option_list (effect_token e)) as -> by (simpl; by destruct (effect_token e)).
  set (x := service_tokens (service self)). perm.
Qed.

Lemma push_tokens self a : tokens (push_answer self a) ≡ₚ option_list (end_token a) ++ tokens self.
Proof. unfold tokens, waiting, finished. simpl. rewrite omap_snoc. set (x := service_tokens (service self)). perm. Qed.

Lemma active_tokens self i a :
  active_outgoing_requests self !! i = None ->
  tokens (set_active self (<[i := a]> (active_outgoing_requests self)))
  ≡ₚ option_list (active_responder a) ++ tokens self.
Proof.
  intros Hi. unfold tokens, waiting, finished. simpl.
  pose proof (held_insert active_responder _ i a Hi) as H. set (x := service_tokens (service self)). perm.
Qed.

Lemma inactive_tokens self i a :
  active_outgoing_requests self !! i = Some a ->
  tokens self ≡ₚ option_list (active_responder a)
    ++ tokens (set_active self (delete i (active_outgoing_requests self))).
Proof.
  intros Hi. unfold tokens, waiting, finished. simpl.
  pose proof (held_delete active_responder _ i a Hi) as H. set (x := service_tokens (service self)). perm.
Qed.

Lemma conserved_open n self o : conserved n self -> conserved n (open rand self o).
Proof.
  intros [H1 H2]. split; [|by destruct o].
  assert (Hch : channels (open rand self o) = channels self ++ [Z.of_nat (length (opened self))]).
  { assert (opened (open rand self o) = opened self ++ [o]) as Ho by by destruct o.
    unfold channels. rewrite Ho, length_app, seq_app, map_app. done. }
  rewrite Hch. unfold tokens, waiting, finished in *.
  assert (omap command_token (command_rx (open rand self o))
    = omap command_token (command_rx self) ++ [Z.of_nat (length (opened self))]) as Hc
    by (destruct o; simpl; by rewrite omap_snoc).
  assert (service_tokens (service (open rand self o)) = service_tokens (service self)) as Hs by by destruct o.
  assert (active_outgoing_requests (open rand self o) = active_outgoing_requests self) as Ha by by destruct o.
  assert (spawned (open rand self o) = spawned self) as Hp by by destruct o.
  assert (answers (open rand self o) = answers self) as Hw by by destruct o.
  rewrite Hc, Hs, Ha, Hp, Hw. set (x := service_tokens (service self)) in *. perm.
Qed.

Context `{Hrand : !Inj (=) (=) rand}.

Lemma conserved_command n self c rest now self' :
  matched rand self -> conserved n self -> n + 1 < U64_MOD -> command_rx self = c :: rest ->
  run_command rand (set_commands self rest) c now = Ok self' -> conserved (n + 1) self'.
Proof.
  intros M [Ht Hf] Hn Hc H. pose proof (pop_tokens _ _ _ Hc) as Hp. rewrite Ht in Hp.
  set (self1 := set_commands self rest) in *. change (channels self) with (channels self1) in Hp.
  change (service self) with (service self1) in Hf.
  destruct c as [r|target cb tr|target cb|cb|event]; simpl in H.
  - apply (conserved_le n); [|lia]. unfold process_request in H. destruct (direction r) as [rid source|dest].
    + destruct (process_incoming _ _ _) as [s resp] eqn:Hi. destruct s as [s| |]; simplify_eq/=.
      apply quiet_process_incoming, quiet_hands in Hi. apply (conserved_settle n _ s []).
      * destruct (responder r) as [tx|]; [|done]. rewrite push_tokens. simpl. by rewrite Hp.
      * by destruct (responder r).
      * by destruct (responder r).
    + simplify_eq. split; [|done]. change (channels (send_talk_req _ _ _ _)) with (channels self1).
      rewrite Hp. change (tokens (send_talk_req ?x _ _ _)) with (tokens x).
      refine (active_tokens self1 (id r) (mk_active dest (responder r) (request r) (query_id r)) _).
      by apply (free_id rand self r rest M Hc).
  - simplify_eq. destruct (init_content_tokens n (service self1) target (Some cb) tr now Hf Hn) as [H1 H2].
    apply (conserved_init _ _ _ [cb]); [by rewrite Hp|exact H2|exact H1].
  - simplify_eq. destruct (init_nodes_tokens n (service self1) target (Some cb) Hf Hn) as [H1 H2].
    apply (conserved_init _ _ _ [cb]); [by rewrite Hp|exact H2|exact H1].
  - apply (conserved_le n); [|lia]. simplify_eq. split; [|done]. rewrite push_tokens. simpl. by rewrite Hp.
  - apply (conserved_le n); [|lia]. simplify_eq. split; [|done]. by rewrite Hp.
Qed.

Lemma conserved_response n self r rest now self' :
  conserved n self -> response_rx self = r :: rest -> run_response rand (set_responses self rest) r now = Ok self' ->
  conserved n self'.
Proof.
  intros [Ht Hf] Hr H. unfold run_response in H. simpl in H.
  destruct (active_outgoing_requests self !! response_id r) as [a|] eqn:Ha; [|by simplify_eq].
  set (self1 := set_active _ _) in H.
  set (self2 := match active_responder a with Some tx => push_answer self1 _ | None => self1 end) in H.
  assert (Hch : [] ++ tokens self2 ≡ₚ channels self2).
  { change (tokens (set_responses self rest)) with (tokens self) in *.
    pose proof (inactive_tokens (set_responses self rest) _ a Ha) as Hi.
    change (tokens (set_responses self rest)) with (tokens self) in Hi. rewrite Ht in Hi. unfold self2. simpl.
    destruct (active_responder a) as [tx|]; [rewrite push_tokens|]; symmetry; exact Hi. }
  assert (Hs : service self2 = service self) by (unfold self2; by destruct (active_responder a)).
  rewrite <- Hs in Hf. destruct (response r) as [resp|e|]; [| |done].
  - destruct (OverlayContent.process_response _ _ _ _ _ _) as [s| |] eqn:Hp; simplify_eq/=.
    apply hands_response in Hp. by apply (conserved_settle n _ s []).
  - simplify_eq. by apply (conserved_settle n _ _ []); [|apply quiet_hands, quiet_failure|].
Qed.

(** The event of a poll takes over the channel of a lookup that ended. *)
Lemma conserved_poll_nodes n self now o self' :
  conserved n self -> poll_nodes rand self now o = Ok self' -> conserved n self'.
Proof.
  intros [Ht Hf] H. unfold poll_nodes in H.
  destruct (query_event_poll _ _ _) as [[p ev]| |] eqn:Hp; simplify_eq/=.
  destruct (poll_tokens _ _ _ _ _ node_callback Hp) as [Hsh Hh].
  assert (Hfin : forall s, hands (option_list (ended ev ≫= node_callback)) (set_node_pool (service self) p) s ->
    conserved n (settle rand self s)).
  { intros s [H1 H2 H3]. apply (conserved_settle n _ s []); [done| |done].
    split; [|by etransitivity|done]. rewrite H1. unfold service_tokens. simpl. rewrite Hh. by rewrite !app_assoc. }
  destruct ev as [ev|]; [|simplify_eq; apply Hfin; by apply quiet_hands].
  destruct (handle_find_nodes_query_event _ _ _) as [s| |] eqn:He; simplify_eq/=.
  apply Hfin. by apply node_event_tokens in He.
Qed.

Lemma conserved_poll_content n self now o self' :
  conserved n self -> poll_content rand self now o = Ok self' -> conserved n self'.
Proof.
  intros [Ht Hf] H. unfold poll_content in H.
  destruct (query_event_poll _ _ _) as [[p ev]| |] eqn:Hp; simplify_eq/=.
  destruct (poll_tokens _ _ _ _ _ content_callback Hp) as [Hsh Hh].
  assert (Hfin : forall s, hands (option_list (ended ev ≫= content_callback)) (set_content_pool (service self) p) s ->
    conserved n (settle rand self s)).
  { intros s [H1 H2 H3]. apply (conserved_settle n _ s []); [done| |done].
    split; [|done|by etransitivity]. rewrite H1. unfold service_tokens. simpl. rewrite Hh, <- !app_assoc.
    apply Permutation_app_swap_app. }
  destruct ev as [ev|]; [|simplify_eq; apply Hfin; by apply quiet_hands].
  destruct (handle_find_content_query_event _ _ _) as [s| |] eqn:He; simplify_eq/=.
  apply Hfin. by apply content_event_tokens in He.
Qed.

Lemma conserved_task n self l1 e l2 i self' :
  conserved n self -> spawned self = l1 ++ e :: l2 -> run_task rand (set_spawned self (l1 ++ l2)) e i = Ok self' ->
  conserved n self'.
Proof.
  intros [Ht Hf] He H. apply task_tokens in He as Hp. rewrite Ht in Hp. set (self1 := set_spawned self (l1 ++ l2)) in *.
  change (channels self) with (channels self1) in Hp. change (service self) with (service self1) in Hf.
  symmetry in Hp.
  destruct e; simpl in H, Hp; try (simplify_eq; by split).
  - destruct (stream i) as [payload|]; simplify_eq; [|by split].
    apply (conserved_settle n _ _ []); [done|apply quiet_hands, quiet_payload|done].
  - destruct (OverlayContent.receive_content _ _ _ _ _ _ _) as [s| |] eqn:Hr; simplify_eq/=.
    apply receive_tokens in Hr. by eapply conserved_settle.
  - destruct (OverlayContent.process_received_content _ _ _ _ _ _ _ _) as [s| |] eqn:Hr; simplify_eq/=.
    apply received_tokens in Hr. by eapply conserved_settle.
  - simplify_eq. apply (conserved_settle n _ _ []); [done|apply quiet_hands, quiet_finish|done].
Qed.

Lemma step_conserved n self self' :
  matched rand self -> conserved n self -> n + 1 < U64_MOD -> step rand replies user self self' ->
  conserved (n + 1) self'.
Proof.
  intros M C Hn. destruct 1 as [self o|self r d|self event|self c rest now self' Hc H|self l1 k l2 reply Hk _
    |self r rest now self' Hr H|self x _|self now o self' _ H|self now o self' _ H|self rng choice _
    |self l1 e l2 i self' He _ H|self l1 e l2 i He _ H|self key content _|self enr|self node_id].
  all: lazymatch goal with
       | |- conserved _ (bucket_refresh_lookup _ _ _ _) => idtac
       | H : run_command _ _ _ _ = _ |- _ => idtac
       | |- _ => apply (conserved_le n); [|lia]
       end.
  - by apply conserved_open.
  - destruct C as [Ht Hf]. split; [|done]. unfold tokens, waiting, finished in *. simpl. by rewrite omap_snoc, app_nil_r.
  - destruct C as [Ht Hf]. split; [|done]. unfold tokens, waiting, finished in *. simpl. by rewrite omap_snoc, app_nil_r.
  - by eapply conserved_command.
  - by destruct C.
  - by eapply conserved_response.
  - destruct C as [Ht Hf]. unfold run_ping. destruct (entry _ _) as [s e] eqn:Hs.
    assert (quiet (service self) s) as Hq.
    { etransitivity; [|pose proof (quiet_entry (ping_queue_remove (service self) x) x) as Hq; rewrite Hs in Hq; exact Hq].
      by split. }
    destruct e; apply (conserved_settle n _ _ []); try done; apply quiet_hands; [|exact Hq|exact Hq].
    etransitivity; [exact Hq|]. etransitivity; [apply quiet_emit|by split]. done.
  - by eapply conserved_poll_nodes.
  - by eapply conserved_poll_content.
  - destruct C as [Ht Hf]. unfold bucket_refresh_lookup. destruct (_ <=? _); [|by apply (conserved_le n); [split|lia]].
    destruct (init_nodes_tokens n (service self)
      (generate_random_node_id rng (256 - EXPECTED_NON_EMPTY_BUCKETS + choice) (enr_node_id (local_enr (service self))))
      None Hf Hn) as [H1 H2]. by apply (conserved_init _ _ _ []).
  - by eapply conserved_task.
  - destruct C as [Ht Hf]. split; [|done]. unfold end_task. rewrite push_tokens. cbn [end_token].
    rewrite <- (task_tokens self l1 e l2 He). exact Ht.
  - by destruct C.
  - by destruct C.
  - by destruct C.
Qed.

(** ** When nothing panics *)

Definition is_task (e : effect) : bool :=
  match e with
  | SpawnSendContent _ _ | SpawnReceiveOffer _ _ | SpawnReceiveContent _ _ _ _ _ _ _ | SpawnProcessContent _ _ _ _ _
  | SpawnSendOffer _ _ _ _ _ => true
  | _ => false
  end.

(** Only tasks are spawned, and none has panicked. *)
Record calm self : Prop := {
  calm_tasks : Forall (fun e => is_task e = true) (spawned self);
  calm_drops : dropped self = [];
}.

Lemma calm_same self self' : spawned self' = spawned self -> answers self' = answers self -> calm self -> calm self'.
Proof. intros H1 H2 [A B]. split; [by rewrite H1|]. unfold dropped in *. by rewrite H2. Qed.

Lemma calm_push self a : drop_token a = None -> calm self -> calm (push_answer self a).
Proof. intros Ha [A B]. split; [done|]. unfold dropped in *. simpl. by rewrite omap_snoc, B, Ha. Qed.

Lemma calm_settle self s : calm self -> calm (settle rand self s).
Proof.
  intros C. unfold settle. assert (C1 : calm (set_service self (clear_effects s))) by (by apply (calm_same self)).
  revert C1. generalize (set_service self (clear_effects s)). induction (effects s) as [|e l IH]; intros self1 C1; [done|].
  simpl. apply IH. destruct e; cbn [carry_out]; try (by apply calm_push); try (by apply (calm_same self1)).
  all: destruct C1 as [A B]; split; [|done]; apply Forall_app; by rewrite Forall_singleton.
Qed.

Lemma calm_task_gone self l1 e l2 : calm self -> spawned self = l1 ++ e :: l2 ->
  calm (set_spawned self (l1 ++ l2)) /\ is_task e = true.
Proof.
  intros [A B] He. rewrite He in A. apply Forall_app in A as [A1 [Ht A2]%Forall_cons].
  split; [split; [by apply Forall_app|done]|done].
Qed.

(** A task of a store that does not panic panics only if the validator does. *)
Lemma task_total self e i :
  OverlayContent.store_total (St := St) -> is_task e = true ->
  (forall o key c, replies o -> validate_content o key c <> Panic) -> (forall n, replies (outside i n)) ->
  run_task rand self e i <> Panic.
Proof.
  intros Ht He Hv Ho.
  assert (Hr : forall c utp key cb trace ids,
    OverlayContent.process_received_content (service self) (outside i 0) c utp key cb trace ids <> Panic).
  { intros c utp key cb trace ids. unfold OverlayContent.process_received_content.
    destruct (store_get _ key) as [[val|]| |] eqn:Eg; [done| | |by destruct Ht as (Hg & _); apply Hg in Eg];
      (destruct (validate_content _ key c) eqn:Ev; [by rewrite (OverlayContent.store_content_spec _ _ _ Ht)|done|]);
      by destruct (Hv _ key c (Ho 0%nat) Ev). }
  destruct e; try done; cbn [run_task]; try (by intros [=]).
  - unfold OverlayContent.receive_content. destruct (stream i) as [data|]; [|done].
    specialize (Hr data true key callback trace nodes_to_poke). by destruct (OverlayContent.process_received_content _ _ _ _ _ _ _ _).
  - specialize (Hr content false key callback trace nodes_to_poke). by destruct (OverlayContent.process_received_content _ _ _ _ _ _ _ _).
Qed.

Lemma step_calm self self' :
  OverlayContent.store_total (St := St) -> (forall o key c, replies o -> validate_content o key c <> Panic) ->
  calm self -> step rand replies user self self' -> calm self'.
Proof.
  intros Ht Hv C. destruct 1 as [self o|self r d|self event|self c rest now self' Hc H|self l1 k l2 reply Hk _
    |self r rest now self' Hr H|self x _|self now o self' _ H|self now o self' _ H|self rng choice _
    |self l1 e l2 i self' He Ho H|self l1 e l2 i He Ho H|self key content _|self enr|self node_id];
    try (by eapply calm_same; [..|exact C]).
  - by destruct o; eapply calm_same, C.
  - assert (C1 : calm (set_commands self rest)) by (by eapply calm_same; [..|exact C]).
    destruct c as [r|target cb tr|target cb|cb|event]; cbn [run_command] in H; simplify_eq;
      [|by apply calm_settle|by apply calm_settle|by apply calm_push|done].
    unfold process_request in H. destruct (direction r); [|simplify_eq; by eapply calm_same; [..|exact C1]].
    destruct (process_incoming _ _ _) as [[s| |] resp]; simplify_eq/=. apply calm_settle.
    destruct (responder r); [by apply calm_push|done].
  - unfold run_response in H. destruct (_ !! _) as [a|]; [|simplify_eq; by eapply calm_same; [..|exact C]].
    match type of H with context [service ?x] => assert (C1 : calm x) end.
    { destruct (active_responder a); [apply calm_push; [done|]|]; by eapply calm_same; [..|exact C]. }
    destruct (response r) as [resp|e|]; [|simplify_eq; by apply calm_settle|done].
    destruct (OverlayContent.process_response _ _ _ _ _ _); simplify_eq/=. by apply calm_settle.
  - unfold run_ping. destruct (entry _ _) as [s []]; by apply calm_settle.
  - unfold poll_nodes in H. destruct (query_event_poll _ _ _) as [[p [ev|]]| |]; simplify_eq/=; [|by apply calm_settle].
    destruct (handle_find_nodes_query_event _ _ _); simplify_eq/=. by apply calm_settle.
  - unfold poll_content in H. destruct (query_event_poll _ _ _) as [[p [ev|]]| |]; simplify_eq/=; [|by apply calm_settle].
    destruct (handle_find_content_query_event _ _ _); simplify_eq/=. by apply calm_settle.
  - unfold bucket_refresh_lookup. destruct (_ <=? _); [by apply calm_settle|done].
  - destruct (calm_task_gone _ _ _ _ C He) as [C1 He1]. destruct e; cbn [run_task] in H; simplify_eq; try done.
    + by destruct (stream i); [apply calm_settle|].
    + destruct (OverlayContent.receive_content _ _ _ _ _ _ _); simplify_eq/=. by apply calm_settle.
    + destruct (OverlayContent.process_received_content _ _ _ _ _ _ _ _); simplify_eq/=. by apply calm_settle.
    + by apply calm_settle.
  - destruct (calm_task_gone _ _ _ _ C He) as [_ He1]. by apply (task_total _ _ _ Ht He1 Hv Ho) in H.
Qed.

(** [spawn] starts at most one lookup for each target, and for nobody. *)
Lemma init_table_tokens n (s : OverlayService.t St) bootnodes targets :
  fresh_service n s -> n + 1 + Z.of_nat (length targets) < U64_MOD ->
  let s' := initialize_routing_table s bootnodes targets in
  fresh_service (n + 1 + Z.of_nat (length targets)) s' /\ service_tokens s' ≡ₚ service_tokens s.
Proof.
  intros Hf Hn. unfold initialize_routing_table.
  assert (Hb : quiet s (add_bootnodes s bootnodes false)).
  { apply quiet_fold. intros s1 enr. unfold add_bootnode. by repeat case_match. }
  apply quiet_hands in Hb. pose proof (fresh_hands _ _ _ _ Hf Hb) as Hf1. destruct Hb as [Hb _ _].
  set (s1 := add_bootnodes s bootnodes false) in *.
  destruct (init_nodes_tokens n s1 (enr_node_id (local_enr s1)) None Hf1) as [Hf2 Ht2]; [lia|]. simpl in Hb, Ht2.
  rewrite <- Hb, <- Ht2. set (s2 := (init_find_nodes_query s1 _ None).1) in *. clearbody s2. clear - Hn Hf2.
  revert n s2 Hn Hf2. induction targets as [|target targets IH]; intros n s2 Hn Hf2; simpl.
  - split; [|done]. eapply fresh_service_le; [exact Hf2|lia].
  - simpl in Hn. destruct (init_nodes_tokens (n + 1) s2 target None Hf2) as [Hf3 Ht3]; [lia|].
    destruct (IH (n + 1) (init_find_nodes_query s2 target None).1) as [H1 H2]; [lia|done|].
    split; [eapply fresh_service_le; [exact H1|lia]|]. by rewrite H2, Ht3.
Qed.

(** The service was spawned, with one target in each of the farthest buckets. *)
Inductive started : t (St := St) -> Prop :=
| started_spawn enr cached cids st k bootnode_enrs timeout peer_timeout parallelism results distances poke targets :
    length targets = Z.to_nat EXPECTED_NON_EMPTY_BUCKETS ->
    started (spawn rand enr cached cids st k bootnode_enrs timeout peer_timeout parallelism results distances poke targets).

Lemma fresh_new (s : OverlayService.t St) timeout timeout' :
  find_node_query_pool s = QueryPool.new timeout -> find_content_query_pool s = QueryPool.new timeout' ->
  fresh_service 0 s.
Proof. intros Hn Hc. split; [rewrite Hn|rewrite Hc]; (split; [|done]); intros i; simpl; by rewrite dom_empty_L, elem_of_empty. Qed.

Lemma started_ok self : started self -> matched rand self /\ conserved 18 self.
Proof.
  destruct 1 as [enr cached cids st k boot timeout peer_timeout parallelism results distances poke targets Hl].
  unfold spawn. set (s := OverlayService.mk _ _ _ _ _ _ _ _ _ _ _ _ _ _). split; [by apply matched_settle, matched_new|].
  destruct (init_table_tokens 0 s boot targets) as [Hf Ht]; [by eapply fresh_new|rewrite Hl; done|].
  rewrite Hl in Hf. apply (conserved_init 18 _ _ []); [done|exact Ht|exact Hf].
Qed.

Lemma loop_run_ok n self0 self :
  started self0 -> nsteps (step rand replies user) n self0 self -> 18 + Z.of_nat n < U64_MOD ->
  matched rand self /\ conserved (18 + Z.of_nat n) self.
Proof.
  intros [M C]%started_ok Hs. revert M C. generalize 18. induction Hs as [self|n self1 self2 self3 H12 H23 IH]; intros b M C Hb.
  - by replace (b + Z.of_nat 0) with b by lia.
  - replace (b + Z.of_nat (S n)) with (b + 1 + Z.of_nat n) by lia. apply IH; [|apply step_conserved with self1; auto; lia|lia].
    by eapply step_matched.
Qed.

Lemma started_calm self : started self -> calm self.
Proof. destruct 1. by apply calm_settle. Qed.

(** C4: Whoever waits for the service gets at most one answer, and loses its channel only
    to a panic: however requests, lookups, responses, timeouts, tasks and writes of the
    front end interleave, each channel that was ever opened is, at any time, in exactly one
    of three places: held (by a command, an active request, a lookup or a task), answered,
    once, or dropped, by a task that panicked.  As long as neither the validator nor the
    store panics, no channel is dropped.  (A panic of the loop itself, as on the radius in a
    PING, ends the service and the run.  Lookups have 64-bit ids, so this is up to 2{^64}
    steps, and random request ids are taken to differ.) *)
Theorem channels_conserved n self0 self :
  started self0 -> nsteps (step rand replies user) n self0 self -> 18 + Z.of_nat n < U64_MOD ->
  waiting self ++ answered self ++ dropped self ≡ₚ channels self
  /\ NoDup (waiting self ++ answered self ++ dropped self)
  /\ (OverlayContent.store_total (St := St) -> (forall o key c, replies o -> validate_content o key c <> Panic) ->
      dropped self = []).
Proof.
  intros H0 Hn Hb. destruct (loop_run_ok n self0 self H0 Hn Hb) as [_ [H _]].
  unfold tokens in H. rewrite finished_split in H. split_and!; [exact H| |].
  - rewrite H. apply NoDup_fmap_2; [apply _|apply NoDup_seq].
  - intros Ht Hv. apply started_calm in H0. clear H Hb. apply calm_drops.
    induction Hn as [|n self1 self2 self3 H12 _ IH]; [done|]. apply IH. by eapply step_calm.
Qed.

(** C5: Responses are matched to their requests: in every state that the loop reaches,
    each response that is queued finds the active request that it answers, so that the
    branch for a response without a request is never taken; each active request has its
    TALKREQ under way or its response queued, so that none is forgotten; and an answer to
    an outgoing request is what discv5 returned for a TALKREQ with that very request to
    that very node. *)
Theorem responses_matched self0 self :
  started self0 -> rtc (step rand replies user) self0 self ->
  (forall r, r ∈ response_rx self -> exists a, active_outgoing_requests self !! response_id r = Some a
     /\ replied self (active_request a) (active_destination a) (response r))
  /\ (forall i a, active_outgoing_requests self !! i = Some a ->
      (exists k, k ∈ talking self /\ talk_request_id k = i /\ carries k a)
      \/ exists r, r ∈ response_rx self /\ response_id r = i)
  /\ (forall i r dest result, opened self !! i = Some (ForRequest r (RequestOutgoing dest)) ->
      Answered (Z.of_nat i) result ∈ answers self -> replied self r dest result).
Proof.
  intros [M _]%started_ok Hr. induction Hr as [self|self1 self2 self3 H12 _ IH];
    [|by apply IH; eapply step_matched]. split_and!; [apply (matched_responses _ _ M)| |].
  - intros i a Ha. assert (i ∈ active_ids self) as Hi by (apply active_ids_elem; eauto).
    rewrite <- (matched_active _ _ M) in Hi.
    apply elem_of_app in Hi as [(k & -> & Hk)%list_elem_of_fmap|(r & -> & Hr)%list_elem_of_fmap]; [left|right; eauto].
    destruct (matched_talks _ _ M k Hk) as (a' & Ha' & Hc). exists k. split_and!; [done|done|]. by simplify_eq.
  - intros i r dest result Ho Ha. destruct (matched_answers _ _ M _ _ Ha) as (n & r' & d & Hn & Ho' & Hd).
    apply (inj Z.of_nat) in Hn as <-. by simplify_eq.
Qed.

(** ** The lookups of the loop *)

Lemma quiet_steps (s s' : OverlayService.t St) : quiet s s' -> rtc service_step s s'.
Proof. intros [H _]. by apply rtc_once, step_other. Qed.

Lemma steps_settle (s : OverlayService.t St) self s' :
  rtc service_step s s' -> rtc service_step s (service (settle rand self s')).
Proof.
  intros H. destruct (settle_opened self s') as [_ ->]. eapply rtc_r; [exact H|]. by apply step_other.
Qed.

Lemma response_steps (s : OverlayService.t St) r source request i now s' :
  OverlayContent.process_response s r source request i now = Ok s' -> rtc service_step s s'.
Proof.
  intros (s2 & Hq & H)%process_response_split. etransitivity; [by apply quiet_steps|]. destruct r.
  - by eapply quiet_steps, quiet_process_pong.
  - by eapply rtc_once, step_nodes.
  - by eapply rtc_once, step_content.
  - subst s'. apply quiet_steps, quiet_accept.
Qed.

Lemma received_same (s s' : OverlayService.t St) outside content utp key cb trace ids :
  OverlayContent.process_received_content s outside content utp key cb trace ids = Ok s' -> same_queries s s'.
Proof.
  assert (Hr : forall (s1 : OverlayService.t St) out, same_queries s1 (OverlayContent.respond s1 cb out utp trace))
    by (intros s1 out; by destruct cb).
  assert (Hd : forall (s1 : OverlayService.t St) c, same_queries s1 (OverlayContent.deliver_content s1 c utp key cb trace ids)).
  { intros s1 c. unfold OverlayContent.deliver_content. destruct (negb _); [|apply Hr].
    etransitivity; [apply (Hr s1 (Some c))|]. apply quiet_poke. }
  unfold OverlayContent.process_received_content. intros H.
  destruct (store_get (store s) key) as [[val|]|e|]; [by simplify_eq| | |done];
    (destruct (validate_content outside key content); [|by simplify_eq|done]);
    (destruct (OverlayContent.store_content s key content) as [s1| |] eqn:Hs; simplify_eq/=);
    (etransitivity; [eapply quiet_store_content; exact Hs|apply Hd]).
Qed.

Lemma task_steps self l1 e l2 i self' :
  spawned self = l1 ++ e :: l2 -> run_task rand (set_spawned self (l1 ++ l2)) e i = Ok self' ->
  rtc service_step (service self) (service self').
Proof.
  intros _ H. destruct e; simpl in H; try done; try (by simplify_eq).
  - destruct (stream i); simplify_eq; [|done]. apply steps_settle, quiet_steps, quiet_payload.
  - unfold OverlayContent.receive_content in H. destruct (stream i) as [data|]; simplify_eq/=.
    + destruct (OverlayContent.process_received_content _ _ _ _ _ _ _ _) as [s| |] eqn:Hr; simplify_eq/=.
      apply steps_settle, rtc_once, step_other. by eapply received_same.
    + apply steps_settle, rtc_once, step_other. by destruct callback.
  - destruct (OverlayContent.process_received_content _ _ _ _ _ _ _ _) as [s| |] eqn:Hr; simplify_eq/=.
    apply steps_settle, rtc_once, step_other. by eapply received_same.
  - simplify_eq. apply steps_settle, quiet_steps, quiet_finish.
Qed.

Lemma command_steps self c rest now self' :
  run_command rand (set_commands self rest) c now = Ok self' -> rtc service_step (service self) (service self').
Proof.
  intros H. destruct c as [r|target cb tr|target cb|cb|event]; simpl in H; simplify_eq; try done.
  - unfold process_request in H. destruct (direction r) as [rid source|dest]; [|by simplify_eq].
    simpl in H. destruct (process_incoming _ _ _) as [s resp] eqn:Hi. destruct s as [s| |]; simplify_eq/=.
    eapply steps_settle, quiet_steps, quiet_process_incoming, Hi.
  - apply steps_settle, rtc_once, step_init_content.
  - apply steps_settle, rtc_once, step_init_nodes.
Qed.

(** A step of the loop is a sequence of steps of its lookups. *)
Lemma loop_step_steps self self' : step rand replies user self self' -> rtc service_step (service self) (service self').
Proof.
  destruct 1 as [self o|self r d|self event|self c rest now self' Hc H|self l1 k l2 reply Hk _
    |self r rest now self' Hr H|self n _|self now o self' Ho H|self now o self' Ho H|self rng choice _
    |self l1 e l2 i self' He _ H|self l1 e l2 i He _ H|self key content _|self enr|self node_id]; try done.
  - by destruct o.
  - by eapply command_steps.
  - unfold run_response in H. destruct (_ !! _) as [a|]; [|by simplify_eq].
    set (self2 := match active_responder a with Some tx => _ | None => _ end) in H.
    assert (Hs : service self2 = service self) by (unfold self2; by destruct (active_responder a)).
    rewrite <- Hs. destruct (response r) as [resp|e|]; [| |done].
    + destruct (OverlayContent.process_response _ _ _ _ _ _) as [s| |] eqn:Hp; simplify_eq/=.
      by eapply steps_settle, response_steps.
    + simplify_eq. apply steps_settle, quiet_steps, quiet_failure.
  - unfold run_ping. destruct (entry _ _) as [s e] eqn:Hs.
    assert (quiet (service self) s) as Hq.
    { etransitivity; [|pose proof (quiet_entry (ping_queue_remove (service self) n) n) as Hq; rewrite Hs in Hq; exact Hq].
      by split. }
    destruct e; apply steps_settle, quiet_steps; try exact Hq.
    etransitivity; [exact Hq|]. etransitivity; [apply quiet_emit|by split]. done.
  - unfold poll_nodes in H. destruct (query_event_poll _ _ _) as [[p ev]| |] eqn:Hp; simplify_eq/=.
    destruct ev as [ev|]; [|simplify_eq; by eapply steps_settle, rtc_once, OverlayQuery.step_poll_nodes].
    destruct (handle_find_nodes_query_event _ _ _) as [s| |] eqn:He; simplify_eq/=.
    apply steps_settle. eapply rtc_l; [by eapply OverlayQuery.step_poll_nodes|]. by eapply rtc_once, step_node_event.
  - unfold poll_content in H. destruct (query_event_poll _ _ _) as [[p ev]| |] eqn:Hp; simplify_eq/=.
    destruct ev as [ev|]; [|simplify_eq; by eapply steps_settle, rtc_once, OverlayQuery.step_poll_content].
    destruct (handle_find_content_query_event _ _ _) as [s| |] eqn:He; simplify_eq/=.
    apply steps_settle. eapply rtc_l; [by eapply OverlayQuery.step_poll_content|]. by eapply rtc_once, step_content_event.
  - unfold bucket_refresh_lookup. destruct (_ <=? _); [|done]. apply steps_settle, rtc_once, step_init_nodes.
  - by eapply task_steps.
  - apply rtc_once. by apply step_other.
  - apply rtc_once. by apply step_other.
  - apply rtc_once. by apply step_other.
Qed.

Lemma init_nodes_config (s : OverlayService.t St) target cb :
  query_config (init_find_nodes_query s target cb).1 = query_config s.
Proof. unfold init_find_nodes_query. destruct (closest_connected_nodes _ _ _); [by destruct cb|done]. Qed.

(** The service as [spawn] creates it, before it looks for peers. *)
Lemma started_steps self :
  started self -> exists s, QueryPool.queries (find_node_query_pool s) = ∅
    /\ QueryPool.queries (find_content_query_pool s) = ∅
    /\ query_config s = query_config (service self) /\ rtc service_step s (service self).
Proof.
  destruct 1 as [enr cached cids st k boot timeout peer_timeout parallelism results distances poke targets _].
  unfold spawn. set (s := OverlayService.mk _ _ _ _ _ _ _ _ _ _ _ _ _ _). exists s.
  assert (Hb : quiet s (add_bootnodes s boot false)).
  { apply quiet_fold. intros s1 enr1. unfold add_bootnode. by repeat case_match. }
  assert (Hi : query_config (initialize_routing_table s boot targets) = query_config s
    /\ rtc service_step s (initialize_routing_table s boot targets)).
  { unfold initialize_routing_table. pose proof Hb as [(_ & _ & Hc) _].
    set (s1 := (init_find_nodes_query (add_bootnodes s boot false) _ None).1).
    assert (H1 : query_config s1 = query_config s) by (unfold s1; by rewrite init_nodes_config).
    assert (H2 : rtc service_step s s1).
    { eapply rtc_r; [apply quiet_steps, Hb|]. apply step_init_nodes. }
    clearbody s1. revert s1 H1 H2. induction targets as [|target targets IH]; intros s1 H1 H2; simpl; [done|].
    apply IH; [by rewrite init_nodes_config|]. eapply rtc_r; [exact H2|apply step_init_nodes]. }
  destruct Hi as [Hc Hr]. split_and!; [done|done| |by apply steps_settle].
  destruct (settle_opened (mk s [] ∅ [] [] [] [] [] 0 []) (initialize_routing_table s boot targets)) as [_ ->].
  by rewrite <- Hc.
Qed.

(** C14: The main loop runs the lookups the way their own transition system allows: every
    state that it reaches is reached, as far as lookups go, by starting them, polling them,
    handling their events and feeding them responses, in some order; so the record of each
    peer that one of its lookups knows is filed with that lookup, and the lookup keeps the
    invariant of its kind. *)
Theorem loop_refines_lookups `{!KeyLibOk bytes} self0 self :
  started self0 -> config_ok (query_config (service self0)) ->
  rtc (step rand replies user) self0 self ->
  rtc service_step (service self0) (service self) /\ queries_filed (service self).
Proof.
  intros H0 Hcfg Hr. assert (Hs : rtc service_step (service self0) (service self)).
  { clear H0 Hcfg. induction Hr as [|self1 self2 self3 H12 _ IH]; [done|].
    etransitivity; [by apply loop_step_steps|done]. }
  split; [done|]. destruct (started_steps self0 H0) as (s & H1 & H2 & H3 & H4).
  assert (Hq : queries_filed s).
  { unfold queries_filed, pool_filed. rewrite H1, H2, H3. done. }
  assert (Hall : rtc service_step s (service self)) by (by etransitivity). clear - Hq Hall.
  induction Hall as [|x y z Hxy _ IH]; [done|]. apply IH. by eapply service_step_filed.
Qed.
End Conserved.
End OverlayAnswers.

(** ** The theorems at work *)

(** A codec for requests and responses with content. *)
#[global] Instance toy_codec : MessageSsz (E := toy_enr) := {|
  message_from_ssz b :=
    match b with
    | x04 :: key => Some (Message.FindContent {| content_key := key |})
    | x05 :: content => Some (Message.Content (ContentBytes content))
    | _ => None
    end;
  message_as_ssz m :=
    match m with
    | Message.FindContent m => x04 :: content_key m
    | Message.Content (ContentBytes c) => x05 :: c
    | _ => []
    end;
|}.

#[local] Existing Instance IdentityContentKey.overlay_key.

Section Demo.
Import OverlayLoop OverlayRequests OverlayAnswers.

(** A node that knows a connected peer is asked for content that the peer has. *)
Definition demo_spawn : t (St := MemoryContentStore.t) :=
  spawn Z.of_nat [x00] (fun id => Some (take 1 id)) (fun _ _ => 4660) (toy_store (toy_id x00))
    (toy_id x00, [toy_entry x01 true]) [[x02]] 60 2 3 20 4 false (replicate 17 (toy_id x40)).

Definition demo_peer : Enr (EnrLib := toy_enr) := [x01].

Definition demo_request : Request.t := Request.FindContent {| content_key := replicate 32 x0c |}.

Definition demo_for_request : opening (E := toy_enr) (CK := IdentityContentKey.overlay_key) :=
  ForRequest demo_request (RequestOutgoing demo_peer).
Definition demo_for_content : opening (E := toy_enr) (CK := IdentityContentKey.overlay_key) := ForContent other_key false.

Definition demo_opened := open Z.of_nat (open Z.of_nat demo_spawn demo_for_request) demo_for_content.

Definition ok_or_same (r : res Empty_set (t (St := MemoryContentStore.t))) self :=
  match r with Ok self' => self' | _ => self end.

Definition demo_first : OverlayCommand (E := toy_enr) (CK := IdentityContentKey.overlay_key) :=
  CmdRequest (mk_request 0 demo_request (RequestOutgoing demo_peer) (Some 0) None).
Definition demo_second : OverlayCommand (E := toy_enr) (CK := IdentityContentKey.overlay_key) :=
  CmdFindContent other_key 1 false.

Definition demo_sent :=
  ok_or_same (run_command Z.of_nat (set_commands demo_opened [demo_second]) demo_first 0) demo_opened.

Definition demo_talked := end_talk demo_sent (mk_talk 0 demo_request demo_peer) [] (Ok [x05; x02; x07]).

Definition demo_answered := ok_or_same (run_response Z.of_nat (set_responses demo_talked [])
  (mk_response 0 (Ok (Response.Content (ContentBytes [x02; x07])))) 0) demo_talked.

Lemma ok_step (r : res Empty_set (t (St := MemoryContentStore.t))) self : is_ok r = true -> r = Ok (ok_or_same r self).
Proof. by destruct r. Qed.

Lemma demo_started : started Z.of_nat demo_spawn.
Proof. by apply started_spawn. Qed.

(** Nothing is stored over JSON-RPC in this run. *)
Definition no_user (key : IdentityContentKey.t) (content : bytes) : Prop := False.
Definition any_reply (o : Outside (Validator := toy_validator)) : Prop := True.

Lemma demo_loop_steps : nsteps (step Z.of_nat any_reply no_user) 5 demo_spawn demo_answered.
Proof.
  eapply nsteps_l; [exact (step_open _ _ _ _ demo_for_request)|].
  eapply nsteps_l; [exact (step_open _ _ _ _ demo_for_content)|]. fold demo_opened.
  eapply nsteps_l with demo_sent.
  { apply (step_command _ _ _ _ demo_first [demo_second] 0); [vm_compute; reflexivity|]. apply ok_step. vm_compute. reflexivity. }
  eapply nsteps_l with demo_talked.
  { apply (step_talk Z.of_nat _ _ demo_sent []); [|done]. vm_compute. reflexivity. }
  apply nsteps_once. eapply (step_response _ _ _ _ _ []); [vm_compute; reflexivity|]. apply ok_step. vm_compute. reflexivity.
Qed.

(** The content lookup goes on: the peer is asked, and answers with content on which the
    validator panics, so that the channel of the lookup is dropped. *)
Definition demo_orders : OverlayQuery.orders := {| OverlayQuery.node_order := []; OverlayQuery.content_order := [0] |}.
Definition demo_looking := ok_or_same (run_command Z.of_nat (set_commands demo_answered []) demo_second 0) demo_answered.
Definition demo_asking := ok_or_same (poll_content Z.of_nat demo_looking 0 demo_orders) demo_looking.
Definition demo_third : OverlayCommand (E := toy_enr) (CK := IdentityContentKey.overlay_key) :=
  CmdRequest (mk_request 1 demo_request (RequestOutgoing demo_peer) None (Some 0)).
Definition demo_asked := ok_or_same (run_command Z.of_nat (set_commands demo_asking []) demo_third 0) demo_asking.
Definition demo_replied := end_talk demo_asked (mk_talk 1 demo_request demo_peer) [] (Ok [x05; xff]).
Definition demo_found := ok_or_same (run_response Z.of_nat (set_responses demo_replied [])
  (mk_response 1 (Ok (Response.Content (ContentBytes [xff])))) 0) demo_replied.
Definition demo_checking := ok_or_same (poll_content Z.of_nat demo_found 0 demo_orders) demo_found.
Definition demo_task : OverlayService.effect (E := toy_enr) (CK := IdentityContentKey.overlay_key) :=
  OverlayService.SpawnProcessContent [xff] other_key (Some 1) None [].
Definition demo_dropped := end_task demo_checking demo_task [].

Lemma demo_order_ok self : dom (QueryPool.queries (OverlayService.find_content_query_pool (service self))) = {[ 0 ]} ->
  QueryPool.traversal (OverlayQuery.content_order demo_orders)
    (QueryPool.queries (OverlayService.find_content_query_pool (service (St := MemoryContentStore.t) self))).
Proof. intros E. split; [apply NoDup_singleton|]. rewrite E. set_solver. Qed.

Definition demo_input : task_input :=
  {| stream := None; offer_order := []; written := false; outside _ := unasked |}.

Lemma demo_spawned : spawned demo_checking = [] ++ demo_task :: [].
Proof. vm_compute. reflexivity. Qed.

Lemma demo_panics : run_task Z.of_nat (set_spawned demo_checking ([] ++ [])) demo_task demo_input = Panic.
Proof. reflexivity. Qed.

Lemma demo_more_steps : nsteps (step Z.of_nat any_reply no_user) 7 demo_answered demo_dropped.
Proof.
  eapply nsteps_l with demo_looking.
  { apply (step_command _ _ _ _ demo_second [] 0); [vm_compute; reflexivity|]. apply ok_step. vm_compute. reflexivity. }
  eapply nsteps_l with demo_asking.
  { apply (step_poll_content _ _ _ _ 0 demo_orders); [apply demo_order_ok; vm_compute; reflexivity|].
    apply ok_step. vm_compute. reflexivity. }
  eapply nsteps_l with demo_asked.
  { apply (step_command _ _ _ _ demo_third [] 0); [vm_compute; reflexivity|]. apply ok_step. vm_compute. reflexivity. }
  eapply nsteps_l with demo_replied.
  { apply (step_talk Z.of_nat _ _ demo_asked []); [|done]. vm_compute. reflexivity. }
  eapply nsteps_l with demo_found.
  { eapply (step_response _ _ _ _ _ []); [vm_compute; reflexivity|]. apply ok_step. vm_compute. reflexivity. }
  eapply nsteps_l with demo_checking.
  { apply (step_poll_content _ _ _ _ 0 demo_orders); [apply demo_order_ok; vm_compute; reflexivity|].
    apply ok_step. vm_compute. reflexivity. }
  apply nsteps_once. unfold demo_dropped.
  refine (step_task_panic Z.of_nat any_reply no_user demo_checking [] demo_task [] demo_input demo_spawned _ demo_panics).
  intros n. exact I.
Qed.

Lemma channels_conserved_witness :
  waiting demo_answered = [1] /\ answered demo_answered = [0]
  /\ waiting demo_dropped = [] /\ answered demo_dropped = [0] /\ dropped demo_dropped = [1]
  /\ NoDup (waiting demo_dropped ++ answered demo_dropped ++ dropped demo_dropped).
Proof.
  split; [vm_compute; reflexivity|]. split; [vm_compute; reflexivity|]. split; [vm_compute; reflexivity|].
  split; [vm_compute; reflexivity|]. split; [vm_compute; reflexivity|].
  apply (channels_conserved Z.of_nat any_reply no_user 12 demo_spawn demo_dropped demo_started); [|reflexivity].
  exact (nsteps_trans 5 7 _ _ _ demo_loop_steps demo_more_steps).
Defined.

Lemma responses_matched_witness :
  Answered 0 (Ok (Response.Content (ContentBytes [x02; x07]))) ∈ answers demo_answered
  /\ replied demo_answered demo_request demo_peer (Ok (Response.Content (ContentBytes [x02; x07]))).
Proof.
  assert (Ha : Answered 0 (Ok (Response.Content (ContentBytes [x02; x07]))) ∈ answers demo_answered).
  { assert (answers demo_answered = [Answered 0 (Ok (Response.Content (ContentBytes [x02; x07])))]) as ->
      by (vm_compute; reflexivity). by left. }
  split; [exact Ha|].
  destruct (responses_matched Z.of_nat any_reply no_user demo_spawn demo_answered demo_started (rtc_nsteps_2 _ _ _ demo_loop_steps))
    as (_ & _ & H). apply (H 0%nat); [vm_compute; reflexivity|exact Ha].
Defined.

Lemma loop_refines_lookups_witness :
  size (QueryPool.queries (OverlayService.find_node_query_pool (service demo_answered))) = 18%nat
  /\ OverlayQuery.queries_filed (service demo_answered).
Proof.
  split; [vm_compute; reflexivity|].
  apply (loop_refines_lookups Z.of_nat any_reply no_user demo_spawn demo_answered demo_started); [|exact (rtc_nsteps_2 _ _ _ demo_loop_steps)].
  split_and!; vm_compute; (split; [discriminate | reflexivity]) || discriminate.
Defined.

End Demo.
