(* ===== verification/SszList.v ===== *)
(** * The SSZ encoding of lists of variable-size items.

    An executable model of the documented format, with which the assumptions about the
    [ethereum_ssz] crate are shown to be satisfiable. *)

From S2P Require Import Prelude.
From S2P Require Import Distance.
From S2P Require Import ContentKey.

(** The list format: the offsets of the items, then the items. *)
Fixpoint list_offsets (start : Z) (l : list bytes) : bytes :=
  match l with
  | [] => []
  | x :: t => Z_to_le 4 start ++ list_offsets (start + Z.of_nat (length x)) t
  end.

Definition ssz_list_join (l : list bytes) : bytes := list_offsets (4 * Z.of_nat (length l)) l ++ concat l.

Fixpoint read_offsets (n : nat) (b : bytes) : list Z :=
  match n with
  | O => []
  | S n => le_to_Z (take 4 b) :: read_offsets n (drop 4 b)
  end.

(** The item from each offset to the next, or to the end. *)
Fixpoint slices (os : list Z) (b : bytes) : list bytes :=
  match os with
  | [] => []
  | [o] => [drop (Z.to_nat o) b]
  | o :: ((o' :: _) as rest) => take (Z.to_nat (o' - o)) (drop (Z.to_nat o) b) :: slices rest b
  end.

Definition within (limit : option Z) (l : list bytes) : bool :=
  match limit with Some k => Z.of_nat (length l) <=? k | None => true end.

Definition ssz_list_split (limit : option Z) (b : bytes) : res SszDecodeError (list bytes) :=
  let n := if decide (b = []) then 0 else le_to_Z (take 4 b) / 4 in
  let l := if 4 * n <=? Z.of_nat (length b) then slices (read_offsets (Z.to_nat n) b) b else [] in
  if within limit l && bool_decide (ssz_list_join l = b) then Ok l else Err BytesInvalid.

Fixpoint offsets_of (start : Z) (l : list bytes) : list Z :=
  match l with
  | [] => []
  | x :: t => start :: offsets_of (start + Z.of_nat (length x)) t
  end.

Lemma read_list_offsets start l rest :
  0 <= start -> start + Z.of_nat (length (concat l)) < U32_MOD ->
  read_offsets (length l) (list_offsets start l ++ rest) = offsets_of start l.
Proof.
  revert start. induction l as [|x l IH]; intros start Hs Hl; [done|].
  cbn [concat] in Hl. rewrite length_app in Hl. unfold U32_MOD in *.
  cbn [length list_offsets read_offsets offsets_of]. rewrite <- app_assoc.
  rewrite take_app_length', drop_app_length' by (by rewrite length_Z_to_le). rewrite le_to_Z_to_le by lia.
  rewrite Z.mod_small by (change (256 ^ Z.of_nat 4) with 4294967296; lia). by rewrite IH by lia.
Qed.

Lemma slices_offsets start l b :
  0 <= start -> drop (Z.to_nat start) b = concat l -> slices (offsets_of start l) b = l.
Proof.
  revert start. induction l as [|x l IH]; intros start Hs Hb; [done|].
  assert (Hx : drop (Z.to_nat (start + Z.of_nat (length x))) b = concat l).
  { rewrite Z2Nat.inj_add, Nat2Z.id by lia. rewrite <- drop_drop, Hb. simpl. by rewrite drop_app_length. }
  destruct l as [|y l]; simpl in *.
  - by rewrite Hb, app_nil_r.
  - f_equal; [|apply IH; [lia|done]].
    replace (start + Z.of_nat (length x) - start) with (Z.of_nat (length x)) by lia.
    rewrite Nat2Z.id, Hb. by rewrite take_app_length.
Qed.

Lemma length_list_offsets start l : length (list_offsets start l) = (4 * length l)%nat.
Proof. revert start. induction l as [|x l IH]; intros; [done|]. simpl. rewrite IH. lia. Qed.

Lemma ssz_list_complete limit l :
  within limit l = true -> Z.of_nat (length (ssz_list_join l)) < U32_MOD ->
  ssz_list_split limit (ssz_list_join l) = Ok l.
Proof.
  intros Hl Hlen. unfold ssz_list_split. assert (Hlen' := Hlen). unfold ssz_list_join in Hlen.
  rewrite length_app, length_list_offsets in Hlen.
  assert (Hn : (if decide (ssz_list_join l = []) then 0 else le_to_Z (take 4 (ssz_list_join l)) / 4)
               = Z.of_nat (length l)).
  { destruct l as [|x l]; [done|]. rewrite decide_False by done. unfold ssz_list_join. cbn [list_offsets].
    rewrite <- app_assoc. rewrite take_app_length' by (by rewrite length_Z_to_le). unfold U32_MOD in *.
    cbn [length] in *.
    rewrite le_to_Z_to_le by lia. rewrite Z.mod_small by (change (256 ^ Z.of_nat 4) with 4294967296; lia).
    by rewrite Z.mul_comm, Z.div_mul by lia. }
  assert (Hs : slices (read_offsets (length l) (ssz_list_join l)) (ssz_list_join l) = l).
  { unfold ssz_list_join at 1. rewrite read_list_offsets by lia. apply slices_offsets; [lia|].
    unfold ssz_list_join. rewrite drop_app_length'; [done|]. rewrite length_list_offsets. lia. }
  rewrite Hn, (proj2 (Z.leb_le _ _)), Nat2Z.id, Hs, Hl.
  - by rewrite bool_decide_eq_true_2.
  - unfold ssz_list_join. rewrite length_app, length_list_offsets. lia.
Qed.

Lemma ssz_list_sound limit b l :
  ssz_list_split limit b = Ok l -> b = ssz_list_join l /\ within limit l = true.
Proof.
  unfold ssz_list_split. destruct (_ && _) eqn:E; [|done]. intros [= <-].
  apply andb_true_iff in E as [E1 E2%bool_decide_eq_true]. done.
Qed.

Lemma ssz_list_offset x l : take 4 (ssz_list_join (x :: l)) = Z_to_le 4 (4 * Z.of_nat (length (x :: l))).
Proof. unfold ssz_list_join. cbn [list_offsets]. by rewrite <- app_assoc, take_app_length' by (by rewrite length_Z_to_le). Qed.
