(* ===== verification/WireSsz.v ===== *)
(** * The bytes of portal wire messages.

    [ethportal-api/src/types/portal_wire.rs] and [enr.rs]: the SSZ codecs of the messages,
    those written out (custom payloads, NODES by way of its helper, node records) and those
    that [ssz_derive] makes of the declarations.  The encodings that the [ethereum_ssz] and
    [ssz_types] crates give to integers, byte strings, lists, bit lists, the fields of a
    container and unions are the class [SszLib]; the text form of records goes through the
    [base64] crate ([Base64Lib]).  The codec of messages is the interface [MessageSsz] that
    the overlay uses. *)

From S2P Require Import Prelude.
From S2P Require Import Distance.
From S2P Require Import Hex.
From S2P Require Import ContentKey.
From S2P Require Import SszList.
From S2P Require Import Query.
From S2P Require Import FindNodes.
From S2P Require Import FindContent.
From S2P Require Import QueryPool.
From S2P Require Import Wire.
From S2P Require Import QueryTrace.
From S2P Require Import QueryInfo.
From S2P Require Import ContentStore.
From S2P Require Import Payload.
From S2P Require Import Overlay.
From S2P Require Import Gossip.
From S2P Require Import OverlayContent.
From S2P Require Import OverlayProtocol.
From S2P Require Import Events.
From S2P Require Import OverlayLoop.

(** ** The crates *)

(** The encoded field of a container, by whether its type has a fixed size. *)
Inductive field := FixedField (b : bytes) | VariableField (b : bytes).

Definition field_bytes (f : field) : bytes := match f with FixedField b | VariableField b => b end.
Definition field_layout (f : field) : option nat :=
  match f with FixedField b => Some (length b) | VariableField _ => None end.

(** The offset that stands for a field of variable size. *)
Definition offset_length (f : field) : Z := match f with FixedField _ => 0 | VariableField _ => BYTES_PER_LENGTH_OFFSET end.

Class SszLib := {
  (** unsigned integers of [n] bytes *)
  uint_as_ssz : nat -> Z -> bytes;
  uint_from_ssz : nat -> bytes -> option Z;
  (** [Vec<u8>] and [VariableList<u8, N>]; [Vec<u16>] *)
  vec_u8_as_ssz : bytes -> bytes;
  vec_u8_from_ssz : bytes -> option bytes;
  vec_u16_as_ssz : list Z -> bytes;
  vec_u16_from_ssz : bytes -> option (list Z);
  (** lists of items of variable size, from and to the encoded items *)
  vec_join : list bytes -> bytes;
  vec_split : bytes -> option (list bytes);
  (** [BitList<U8>] *)
  bitlist_as_ssz : list bool -> bytes;
  bitlist_from_ssz : bytes -> option (list bool);
  (** containers: [SszEncoder] and [SszDecoder], given the sizes of the fields *)
  fields_join : list field -> bytes;
  fields_split : list (option nat) -> bytes -> option (list bytes);
  (** [split_union_bytes] *)
  union_split : bytes -> option (byte * bytes);
}.

Definition U16_MOD : Z := 2 ^ 16.
Definition is_u8 (z : Z) : Prop := 0 <= z < 256.
Definition is_u16 (z : Z) : Prop := 0 <= z < U16_MOD.

(** The format of containers: what stands for each field, then the fields of variable size. *)
Fixpoint heads (start : Z) (fs : list field) : bytes :=
  match fs with
  | [] => []
  | FixedField b :: fs => b ++ heads start fs
  | VariableField b :: fs => Z_to_le 4 start ++ heads (start + Z.of_nat (length b)) fs
  end.
Fixpoint heads_length (layout : list (option nat)) : nat :=
  match layout with [] => 0 | o :: layout => default 4%nat o + heads_length layout end.
Definition bodies (fs : list field) : list bytes :=
  omap (fun f => match f with FixedField _ => None | VariableField b => Some b end) fs.

Definition container_bytes (fs : list field) : bytes :=
  heads (Z.of_nat (heads_length (map field_layout fs))) fs ++ concat (bodies fs).

(** What the SSZ specification says of these types: integers are little-endian, byte
    strings are themselves, an item or a field of variable size costs an offset of four
    bytes, a bit list ends with a bit that marks its length, a union is its selector
    followed by the value.  An encoding is read back, if its offsets fit into 32 bits, and
    a container is read from nothing but the encoding of its fields. *)
Class SszLibOk (S : SszLib) : Prop := {
  uint_as_ssz_spec n z : uint_as_ssz n z = Z_to_le n z;
  uint_from_ssz_spec n b : length b = n -> uint_from_ssz n b = Some (le_to_Z b);
  vec_u8_as_ssz_spec b : vec_u8_as_ssz b = b;
  vec_u8_from_ssz_spec b : vec_u8_from_ssz b = Some b;
  vec_u16_read l : Forall is_u16 l -> vec_u16_from_ssz (vec_u16_as_ssz l) = Some l;
  vec_join_length l : Z.of_nat (length (vec_join l)) = foldr (fun b acc => Z.of_nat (length b) + 4 + acc) 0 l;
  vec_read l : Z.of_nat (length (vec_join l)) < U32_MOD -> vec_split (vec_join l) = Some l;
  bitlist_length l : length (bitlist_as_ssz l) = (length l / 8 + 1)%nat;
  bitlist_read l : (length l <= 8)%nat -> bitlist_from_ssz (bitlist_as_ssz l) = Some l;
  fields_join_spec fs : fields_join fs = container_bytes fs;
  fields_sound layout b bs : fields_split layout b = Some bs ->
    exists fs, map field_layout fs = layout /\ map field_bytes fs = bs /\ b = fields_join fs;
  fields_read fs : Z.of_nat (length (fields_join fs)) < U32_MOD ->
    fields_split (map field_layout fs) (fields_join fs) = Some (map field_bytes fs);
  union_read sel b : byte_to_Z sel < 128 -> union_split (sel :: b) = Some (sel, b);
  union_empty : union_split [] = None;
  union_sound b sel body : union_split b = Some (sel, body) -> b = sel :: body;
}.

Lemma length_heads start fs : length (heads start fs) = heads_length (map field_layout fs).
Proof.
  revert start. induction fs as [|[b|b] fs IH]; intros start; [done|..]; simpl; rewrite ?length_app, IH; simpl; lia.
Qed.

Lemma container_length fs : Z.of_nat (length (container_bytes fs))
  = foldr (fun f acc => Z.of_nat (length (field_bytes f)) + offset_length f + acc) 0 fs.
Proof.
  unfold container_bytes. rewrite length_app, length_heads. induction fs as [|[b|b] fs IH]; [done|..]; simpl in *;
    rewrite ?length_app; unfold BYTES_PER_LENGTH_OFFSET; lia.
Qed.

(** [base64::encode_config(bytes, URL_SAFE_NO_PAD)]. *)
Class Base64Lib := { base64_encode : bytes -> bytes }.

(** The text form of a record is the base64 of its RLP form. *)
Class Base64LibOk `{E : EnrLib} `{T : !EnrText} (B : Base64Lib) : Prop := {
  from_str_base64 e : enr_from_str (base64_encode (enr_rlp e)) = Some e;
}.

(** ** Codecs *)

Module WireSsz.
Section Codecs.
Context `{E : EnrLib} `{T : !EnrText} `{B : Base64Lib} `{W : WireLib} `{S : SszLib}.

(** [SszEnr]. *)
Definition ssz_enr_as_ssz (enr : Enr) : bytes := enr_rlp enr.
Definition ssz_enr_from_ssz (b : bytes) : option Enr := enr_from_str (base64_encode b).

(** [CustomPayload]. *)
Definition custom_payload_as_ssz (p : CustomPayload.t) : bytes := vec_u8_as_ssz (CustomPayload.payload p).
Definition custom_payload_from_ssz (b : bytes) : option CustomPayload.t := Some (CustomPayload.from b).

(** Containers, field by field in the order of the declaration. *)
Definition ping_as_ssz (p : Ping) : bytes :=
  fields_join [FixedField (uint_as_ssz 8 (ping_enr_seq p)); VariableField (custom_payload_as_ssz (ping_custom_payload p))].
Definition ping_from_ssz (b : bytes) : option Ping :=
  match fields_split [Some 8%nat; None] b with
  | Some [b1; b2] =>
      enr_seq ← uint_from_ssz 8 b1; custom_payload ← custom_payload_from_ssz b2;
      Some {| ping_enr_seq := enr_seq; ping_custom_payload := custom_payload |}
  | _ => None
  end.

Definition pong_as_ssz (p : Pong) : bytes :=
  fields_join [FixedField (uint_as_ssz 8 (pong_enr_seq p)); VariableField (custom_payload_as_ssz (pong_custom_payload p))].
Definition pong_from_ssz (b : bytes) : option Pong :=
  match fields_split [Some 8%nat; None] b with
  | Some [b1; b2] =>
      enr_seq ← uint_from_ssz 8 b1; custom_payload ← custom_payload_from_ssz b2;
      Some {| pong_enr_seq := enr_seq; pong_custom_payload := custom_payload |}
  | _ => None
  end.

Definition find_nodes_as_ssz (m : FindNodes) : bytes := fields_join [VariableField (vec_u16_as_ssz (distances m))].
Definition find_nodes_from_ssz (b : bytes) : option FindNodes :=
  match fields_split [None] b with
  | Some [b1] => distances ← vec_u16_from_ssz b1; Some {| distances := distances |}
  | _ => None
  end.

Definition nodes_helper_as_ssz (m : NodesHelper) : bytes :=
  fields_join [FixedField (uint_as_ssz 1 (helper_total m)); VariableField (vec_join (map vec_u8_as_ssz (helper_enrs m)))].
Definition nodes_helper_from_ssz (b : bytes) : option NodesHelper :=
  match fields_split [Some 1%nat; None] b with
  | Some [b1; b2] =>
      total ← uint_from_ssz 1 b1; items ← vec_split b2; enrs ← mapM vec_u8_from_ssz items;
      Some {| helper_total := total; helper_enrs := enrs |}
  | _ => None
  end.

Definition nodes_as_ssz (m : Nodes) : bytes := nodes_helper_as_ssz (nodes_to_helper m).
Definition nodes_from_ssz (b : bytes) : option Nodes :=
  helper ← nodes_helper_from_ssz b;
  match helper_to_nodes helper with Ok nodes => Some nodes | _ => None end.

Definition find_content_as_ssz (m : FindContent) : bytes := fields_join [VariableField (vec_u8_as_ssz (content_key m))].
Definition find_content_from_ssz (b : bytes) : option FindContent :=
  match fields_split [None] b with
  | Some [b1] => content_key ← vec_u8_from_ssz b1; Some {| content_key := content_key |}
  | _ => None
  end.

(** Unions: the number of the variant, and its value. *)
Definition content_as_ssz (m : Content) : bytes :=
  match m with
  | ConnectionId id => x00 :: uint_as_ssz 2 id
  | ContentBytes content => x01 :: vec_u8_as_ssz content
  | Enrs enrs => x02 :: vec_join (map ssz_enr_as_ssz enrs)
  end.
Definition content_from_ssz (b : bytes) : option Content :=
  '(selector, body) ← union_split b;
  match selector with
  | x00 => id ← uint_from_ssz 2 body; Some (ConnectionId id)
  | x01 => content ← vec_u8_from_ssz body; Some (ContentBytes content)
  | x02 => items ← vec_split body; enrs ← mapM ssz_enr_from_ssz items; Some (Enrs enrs)
  | _ => None
  end.

Definition offer_as_ssz (m : Offer) : bytes :=
  fields_join [VariableField (vec_join (map vec_u8_as_ssz (content_keys m)))].
Definition offer_from_ssz (b : bytes) : option Offer :=
  match fields_split [None] b with
  | Some [b1] => items ← vec_split b1; keys ← mapM vec_u8_from_ssz items; Some {| content_keys := keys |}
  | _ => None
  end.

Definition accept_as_ssz (m : Accept) : bytes :=
  fields_join [FixedField (uint_as_ssz 2 (accept_connection_id m)); VariableField (bitlist_as_ssz (accept_content_keys m))].
Definition accept_from_ssz (b : bytes) : option Accept :=
  match fields_split [Some 2%nat; None] b with
  | Some [b1; b2] =>
      id ← uint_from_ssz 2 b1; keys ← bitlist_from_ssz b2;
      Some {| accept_connection_id := id; accept_content_keys := keys |}
  | _ => None
  end.

Definition as_ssz_bytes (m : Message.t) : bytes :=
  match m with
  | Message.Ping m => x00 :: ping_as_ssz m
  | Message.Pong m => x01 :: pong_as_ssz m
  | Message.FindNodes m => x02 :: find_nodes_as_ssz m
  | Message.Nodes m => x03 :: nodes_as_ssz m
  | Message.FindContent m => x04 :: find_content_as_ssz m
  | Message.Content m => x05 :: content_as_ssz m
  | Message.Offer m => x06 :: offer_as_ssz m
  | Message.Accept m => x07 :: accept_as_ssz m
  end.
Definition from_ssz_bytes (b : bytes) : option Message.t :=
  '(selector, body) ← union_split b;
  match selector with
  | x00 => Message.Ping <$> ping_from_ssz body
  | x01 => Message.Pong <$> pong_from_ssz body
  | x02 => Message.FindNodes <$> find_nodes_from_ssz body
  | x03 => Message.Nodes <$> nodes_from_ssz body
  | x04 => Message.FindContent <$> find_content_from_ssz body
  | x05 => Message.Content <$> content_from_ssz body
  | x06 => Message.Offer <$> offer_from_ssz body
  | x07 => Message.Accept <$> accept_from_ssz body
  | _ => None
  end.

Inductive MessageDecodeError := SszError | MessageId | Empty | Type_.

(** [Into<Vec<u8>>] and [TryFrom<Vec<u8>>]. *)
Definition into (m : Message.t) : bytes := as_ssz_bytes m.
Definition try_from (value : bytes) : res MessageDecodeError Message.t := ok_or (from_ssz_bytes value) SszError.

#[global] Instance message_ssz : MessageSsz := {|
  message_from_ssz := from_ssz_bytes;
  message_as_ssz := as_ssz_bytes;
|}.
End Codecs.

(** ** Reading what was written *)

(** The integers of a message are in the range of their types, a custom payload and the
    bits of an acceptance within the capacity of their lists; offsets fit into 32 bits. *)
Definition payload_wf (p : CustomPayload.t) : Prop := (length (CustomPayload.payload p) <= 2048)%nat.

Section Correct.
Context `{E : EnrLib} `{!EnrLibOk E} `{T : !EnrText} {B : Base64Lib} `{!Base64LibOk B}
  {W : WireLib} `{!WireLibOk W} {S : SszLib} `{!SszLibOk S}.

Definition typed_message (m : Message.t) : Prop :=
  match m with
  | Message.Ping m => is_u64 (ping_enr_seq m) /\ payload_wf (ping_custom_payload m)
  | Message.Pong m => is_u64 (pong_enr_seq m) /\ payload_wf (pong_custom_payload m)
  | Message.FindNodes m => Forall is_u16 (distances m)
  | Message.Nodes m => is_u8 (total m)
  | Message.Content (ConnectionId id) => is_u16 id
  | Message.Accept m => is_u16 (accept_connection_id m) /\ (length (accept_content_keys m) <= 8)%nat
  | _ => True
  end.

Definition small_message (m : Message.t) : Prop := Z.of_nat (length (as_ssz_bytes m)) < U32_MOD.

Lemma uint_read n z : 0 <= z < 256 ^ Z.of_nat n -> uint_from_ssz n (uint_as_ssz n z) = Some z.
Proof.
  intros Hz. rewrite uint_as_ssz_spec, uint_from_ssz_spec by apply length_Z_to_le.
  rewrite le_to_Z_to_le by lia. by rewrite Z.mod_small.
Qed.

Lemma length_uint n z : length (uint_as_ssz n z) = n.
Proof. rewrite uint_as_ssz_spec. apply length_Z_to_le. Qed.

Lemma map_u8_as_ssz l : map vec_u8_as_ssz l = l.
Proof. induction l as [|b l IH]; [done|]. simpl. by rewrite vec_u8_as_ssz_spec, IH. Qed.

Lemma mapM_u8_from_ssz l : mapM vec_u8_from_ssz l = Some l.
Proof. induction l as [|b l IH]; [done|]. simpl. by rewrite vec_u8_from_ssz_spec, IH. Qed.

Lemma mapM_ssz_enr l : mapM ssz_enr_from_ssz (map ssz_enr_as_ssz l) = Some l.
Proof.
  induction l as [|e l IH]; [done|]. cbn [map mapM].
  assert (He : ssz_enr_from_ssz (ssz_enr_as_ssz e) = Some e) by apply from_str_base64.
  rewrite He. cbn [mbind option_bind]. by rewrite IH.
Qed.

Lemma payload_read p : payload_wf p -> custom_payload_from_ssz (custom_payload_as_ssz p) = Some p.
Proof.
  intros Hp. unfold custom_payload_from_ssz, custom_payload_as_ssz, CustomPayload.from.
  rewrite vec_u8_as_ssz_spec, bytelist_from_spec, take_ge by done. by destruct p.
Qed.

(** The two fields of a container, of which the first has a fixed size; a single field. *)
Lemma two_fields_read n b1 b2 : length b1 = n ->
  Z.of_nat (length (fields_join [FixedField b1; VariableField b2])) < U32_MOD ->
  fields_split [Some n; None] (fields_join [FixedField b1; VariableField b2]) = Some [b1; b2].
Proof. intros <-. apply (fields_read [FixedField b1; VariableField b2]). Qed.

Lemma one_field_read b : Z.of_nat (length (fields_join [VariableField b])) < U32_MOD ->
  fields_split [None] (fields_join [VariableField b]) = Some [b].
Proof. apply (fields_read [VariableField b]). Qed.

Lemma two_fields_length b1 b2 :
  Z.of_nat (length (fields_join [FixedField b1; VariableField b2])) = Z.of_nat (length b1) + 4 + Z.of_nat (length b2).
Proof. rewrite fields_join_spec, container_length. simpl. unfold BYTES_PER_LENGTH_OFFSET. lia. Qed.

Lemma one_field_length b : Z.of_nat (length (fields_join [VariableField b])) = 4 + Z.of_nat (length b).
Proof. rewrite fields_join_spec, container_length. simpl. unfold BYTES_PER_LENGTH_OFFSET. lia. Qed.

Lemma helper_nodes m : helper_to_nodes (nodes_to_helper m) = Ok m.
Proof. by apply nodes_helper_roundtrip. Qed.

Lemma nodes_read m : is_u8 (total m) -> Z.of_nat (length (nodes_as_ssz m)) < U32_MOD ->
  nodes_from_ssz (nodes_as_ssz m) = Some m.
Proof.
  intros Ht Hl. unfold nodes_from_ssz, nodes_helper_from_ssz. unfold nodes_as_ssz, nodes_helper_as_ssz in *.
  rewrite two_fields_read by (done || apply length_uint). rewrite two_fields_length in Hl.
  rewrite uint_read by exact Ht. cbn [mbind option_bind]. rewrite map_u8_as_ssz in *.
  rewrite vec_read by lia. cbn [mbind option_bind]. rewrite mapM_u8_from_ssz. cbn [mbind option_bind].
  pose proof (helper_nodes m) as Hm. destruct m as [t es]. unfold nodes_to_helper in *. cbn [total enrs helper_total helper_enrs] in *. by rewrite Hm.
Qed.

Lemma content_read m : (forall id, m = ConnectionId id -> is_u16 id) ->
  Z.of_nat (length (content_as_ssz m)) < U32_MOD -> content_from_ssz (content_as_ssz m) = Some m.
Proof.
  intros Ht Hl. destruct m as [id|content|es]; cbn [content_as_ssz length] in *; unfold content_from_ssz;
    rewrite union_read by done; cbn [mbind option_bind].
  - by rewrite uint_read by (by apply Ht).
  - by rewrite vec_u8_as_ssz_spec, vec_u8_from_ssz_spec.
  - rewrite vec_read by lia. cbn [mbind option_bind]. by rewrite mapM_ssz_enr.
Qed.

Lemma message_read m : typed_message m -> small_message m -> from_ssz_bytes (as_ssz_bytes m) = Some m.
Proof.
  unfold small_message. intros Ht Hl.
  destruct m as [m|m|m|m|m|m|m|m]; cbn [typed_message as_ssz_bytes length] in *;
    rewrite Nat2Z.inj_succ in Hl;
    unfold from_ssz_bytes; rewrite union_read by done; cbn [mbind option_bind].
  - destruct Ht as [H1 H2], m as [q p]. unfold ping_from_ssz, ping_as_ssz in *. cbn [ping_enr_seq ping_custom_payload] in *.
    rewrite two_fields_read by (lia || apply length_uint). rewrite uint_read by exact H1. cbn [mbind option_bind].
    by rewrite payload_read.
  - destruct Ht as [H1 H2], m as [q p]. unfold pong_from_ssz, pong_as_ssz in *. cbn [pong_enr_seq pong_custom_payload] in *.
    rewrite two_fields_read by (lia || apply length_uint). rewrite uint_read by exact H1. cbn [mbind option_bind].
    by rewrite payload_read.
  - unfold find_nodes_from_ssz, find_nodes_as_ssz in *. rewrite one_field_read by lia. rewrite vec_u16_read by done. by destruct m.
  - by rewrite nodes_read by (done || lia).
  - unfold find_content_from_ssz, find_content_as_ssz in *. rewrite one_field_read by lia.
    rewrite vec_u8_as_ssz_spec, vec_u8_from_ssz_spec. by destruct m.
  - rewrite content_read; [done| |lia]. by intros id ->.
  - unfold offer_from_ssz, offer_as_ssz in *. rewrite one_field_read by lia. rewrite one_field_length in Hl.
    rewrite map_u8_as_ssz in *. rewrite vec_read by lia. cbn [mbind option_bind]. rewrite mapM_u8_from_ssz. by destruct m.
  - destruct Ht as [H1 H2], m as [q p]. unfold accept_from_ssz, accept_as_ssz in *.
    cbn [accept_connection_id accept_content_keys] in *.
    rewrite two_fields_read by (lia || apply length_uint). rewrite uint_read by exact H1. cbn [mbind option_bind].
    by rewrite bitlist_read.
Qed.

Lemma empty_unreadable : from_ssz_bytes [] = None.
Proof. unfold from_ssz_bytes. by rewrite union_empty. Qed.

(** A vector of records is as long as [ssz_bytes_len] says. *)
Lemma enrs_length l : Z.of_nat (length (vec_join (map enr_rlp l))) = ssz_bytes_len l.
Proof.
  rewrite vec_join_length, ssz_bytes_len_spec. induction l as [|e l IH]; [done|]. simpl. by rewrite IH.
Qed.
End Correct.

(** ** What nodes send to each other *)

Section Exchange.
Import OverlayService.
Context `{E : EnrLib} `{!EnrLibOk E} `{T : !EnrText} {B : Base64Lib} `{!Base64LibOk B}
  {W : WireLib} `{!WireLibOk W} {S : SszLib} `{!SszLibOk S}
  `{CK : OverlayContentKey} `{KB : !KBucketsTable} `{KL : KeyLib bytes} `{L : !Log2Lib bytes}
  {St : Type} `{CS : !ContentStore St}.
Implicit Types (self : OverlayService.t St).

(** The sequence number of the local record is a [u64], the radius of the store a [U256],
    and the connection ids that uTP hands out are of type [u16]. *)
Definition host_typed self : Prop :=
  is_u64 (enr_seq (local_enr self)) /\ is_u256 (data_radius self) /\ forall e, is_u16 (utp_cid self e).

Lemma host_typed_same self self' : OverlayProtocol.same_host self self' -> host_typed self -> host_typed self'.
Proof. unfold host_typed, data_radius. by intros (-> & _ & -> & ->). Qed.

(** A response as the node that asks receives it. *)
Definition deliverable (resp : Response.t) : Prop :=
  let m := Response.to_message resp in
  typed_message m /\ Z.of_nat (length (as_ssz_bytes m)) <= MAX_DISCV5_TALK_REQ_PAYLOAD_SIZE.

Lemma radius_payload r : is_u256 r -> length (CustomPayload.payload (CustomPayload.from (u256_as_ssz_bytes r))) = 32%nat.
Proof.
  intros Hr. unfold CustomPayload.from. simpl. rewrite bytelist_from_spec, u256_as_ssz_spec by done.
  rewrite length_take, length_Z_to_le. lia.
Qed.

Lemma pong_deliverable self : host_typed self -> deliverable (Response.Pong (handle_ping self)).
Proof.
  intros (H1 & H2 & _). unfold deliverable. cbn. unfold payload_wf. rewrite radius_payload by done.
  split; [split; [done|lia]|]. unfold pong_as_ssz, handle_ping, custom_payload_as_ssz. cbn [pong_enr_seq pong_custom_payload].
  rewrite Nat2Z.inj_succ, two_fields_length, length_uint, vec_u8_as_ssz_spec, radius_payload by done. vm_compute. discriminate.
Qed.

Lemma nodes_deliverable self request source nodes :
  (handle_find_nodes self request source).2 = Ok nodes -> deliverable (Response.Nodes nodes).
Proof.
  unfold handle_find_nodes. destruct (nodes_by_distance self (distances request)) as [self' l]. cbn [snd].
  destruct (pop_while_longest_prefix (filter (fun enr => enr_node_id enr <> source) l) MAX_PORTAL_NODES_ENRS_SIZE)
    as (l1 & l2 & -> & _ & Hl & _); [done|]. intros [= <-].
  unfold deliverable. cbn. split; [done|]. unfold nodes_as_ssz, nodes_helper_as_ssz. cbn [nodes_to_helper helper_total helper_enrs total enrs].
  rewrite Nat2Z.inj_succ, two_fields_length, length_uint, map_u8_as_ssz, enrs_length.
  revert Hl. unfold MAX_PORTAL_NODES_ENRS_SIZE, BYTES_PER_UNION_SELECTOR, BYTES_PER_LENGTH_OFFSET. lia.
Qed.

Lemma content_deliverable self request source content : host_typed self ->
  (handle_find_content self request source).2 = Ok content -> deliverable (Response.Content content).
Proof.
  intros (_ & _ & Hc). unfold handle_find_content. destruct (key_try_from (content_key request)) as [key| |]; [|done..].
  destruct (store_get (store self) key) as [[content'|]| |]; [| |done..].
  - destruct (Z.leb_spec (Z.of_nat (length content')) MAX_PORTAL_CONTENT_PAYLOAD_SIZE) as [Hl|].
    + intros [= <-]. unfold deliverable. cbn. split; [done|]. rewrite vec_u8_as_ssz_spec. revert Hl.
      unfold MAX_PORTAL_CONTENT_PAYLOAD_SIZE, BYTES_PER_UNION_SELECTOR, BYTES_PER_LENGTH_OFFSET. lia.
    + destruct (cached_node_addr self source) as [enr|]; [|done]. intros [= <-]. unfold deliverable. cbn.
      rewrite length_uint. split; [apply u16_to_be_range, Hc|]. vm_compute. discriminate.
  - destruct (find_nodes_close_to_content self key) as [self' l]. cbn [snd].
    destruct (pop_while_longest_prefix (filter (fun enr => source <> enr_node_id enr) l) MAX_PORTAL_CONTENT_PAYLOAD_SIZE)
      as (l1 & l2 & -> & _ & Hl & _); [done|]. intros [= <-].
    unfold deliverable. cbn. split; [done|]. change (map ssz_enr_as_ssz l1) with (map enr_rlp l1).
    pose proof (enrs_length l1) as He. revert Hl.
    unfold MAX_PORTAL_CONTENT_PAYLOAD_SIZE, BYTES_PER_UNION_SELECTOR, BYTES_PER_LENGTH_OFFSET. lia.
Qed.

Lemma accept_deliverable self request source accept : host_typed self ->
  (handle_offer self request source).2 = Ok accept -> deliverable (Response.Accept accept).
Proof.
  intros (_ & _ & Hc). unfold handle_offer.
  destruct (Nat.ltb_spec ACCEPT_BITS (length (content_keys request))) as [|Hk]; [done|].
  destruct (res_all _ (content_keys request)) as [keys| |] eqn:E1; [|done..].
  destruct (res_all (accept_bit self) keys) as [bits| |] eqn:E2; [|done..].
  assert (Hb : (length bits <= 8)%nat).
  { apply OverlayContent.res_all_ok, Forall2_length in E1, E2. unfold ACCEPT_BITS in Hk. lia. }
  assert (Hd : forall id, is_u16 id ->
    deliverable (Response.Accept {| accept_connection_id := id; accept_content_keys := bits |})).
  { intros id Hid. unfold deliverable. cbn. split; [done|]. unfold accept_as_ssz. cbn [accept_connection_id accept_content_keys].
    rewrite Nat2Z.inj_succ, two_fields_length, length_uint, bitlist_length.
    assert (length bits / 8 <= 1)%nat by (apply Nat.Div0.div_le_upper_bound; lia). unfold MAX_DISCV5_TALK_REQ_PAYLOAD_SIZE, MAX_DISCV5_PACKET_SIZE. lia. }
  destruct (negb _).
  - intros [= <-]. by apply Hd.
  - destruct (cached_node_addr self source) as [enr|]; [|done]. intros [= <-]. apply Hd. apply u16_to_be_range, Hc.
Qed.

Lemma map_response_ok {A} (f : A -> Response.t) (r : OverlayService.t St * res OverlayRequestError A) resp :
  (map_response f r).2 = Ok resp -> exists x, r.2 = Ok x /\ resp = f x.
Proof. unfold map_response. destruct r as [self [x| |]]; cbn; [intros [= <-]; by exists x | done..]. Qed.

Lemma response_deliverable self request source resp : host_typed self ->
  (process_incoming self request source).2 = Ok resp -> deliverable resp.
Proof.
  intros Hh. unfold process_incoming. pose proof (host_typed_same _ _ (OverlayProtocol.register_host self source) Hh) as Hr.
  destruct (handle_request _ _ _) as [self' r] eqn:Eq. cbn [snd]. intros ->.
  assert (Hq : (handle_request (register_node_activity self source) request source).2 = Ok resp) by (by rewrite Eq).
  clear Eq. destruct request as [m|m|m|m|m|m]; cbn [handle_request] in Hq; [| | | |done..].
  - injection Hq as <-. by apply pong_deliverable.
  - apply map_response_ok in Hq as (x & Hx & ->). by eapply nodes_deliverable.
  - apply map_response_ok in Hq as (x & Hx & ->). by eapply content_deliverable.
  - apply map_response_ok in Hq as (x & Hx & ->). by eapply accept_deliverable.
Qed.

Lemma deliverable_readable resp : deliverable resp -> OverlayLoop.readable (Response.to_message resp).
Proof.
  intros [Ht Hl]. apply message_read; [done|]. unfold small_message. eapply Z.le_lt_trans; [exact Hl|]. done.
Qed.

Context {World : Type} `{V : !Validator} `{OW : !OverlayWorld St World}.

(** C17: A request between two nodes that run this program, down to the bytes: whatever
    the request is, as long as its fields are in the ranges of their types, the node that
    receives its bytes hands exactly this request to its service (an offer with its
    content as an offer of the keys); the answer fits into one discv5 packet; and the node
    that asked reads from it the very response of the service, or, when the service
    failed, an empty payload, which it reports as a response that cannot be decoded. *)
Theorem node_exchange self (r : Request.t) (request : TalkRequest) (w w' : World) :
  talk_body request = as_ssz_bytes (Request.to_message r) ->
  typed_message (Request.to_message r) -> small_message (Request.to_message r) -> host_typed self ->
  let served := (process_incoming self (Request.on_wire r) (talk_node_id request)).2 in
  served <> Panic ->
  w_request (Request.on_wire r) (RequestIncoming (talk_id request) (talk_node_id request)) w = (Some served, w') ->
  exists reply, reply_to request w = (Some reply, w')
    /\ Z.of_nat (length reply) <= MAX_DISCV5_TALK_REQ_PAYLOAD_SIZE
    /\ OverlayLoop.talk_outcome (Ok reply) = match served with Ok resp => Ok resp | _ => Err DecodeError end.
Proof.
  intros Hb Ht Hs Hh served Hp Hw.
  destruct (OverlayLoop.talk_exchange (MS := message_ssz) r request w Hb (message_read _ Ht Hs) empty_unreadable) as [H1 H2].
  destruct served as [resp|e|] eqn:Es; [| |done].
  - pose proof (response_deliverable _ _ _ _ Hh Es) as Hd. destruct (H1 resp w' Hw) as [Hr Ho].
    exists (as_ssz_bytes (Response.to_message resp)). split_and!; [done|apply Hd|]. by apply Ho, deliverable_readable.
  - destruct (H2 w') as [Hr Ho]; [left; by exists e|]. by exists [].
Qed.
End Exchange.
End WireSsz.

(** ** The theorems at work *)

Fixpoint read_heads (layout : list (option nat)) (b : bytes) : list Z :=
  match layout with
  | [] => []
  | Some n :: layout => read_heads layout (drop n b)
  | None :: layout => le_to_Z (take 4 b) :: read_heads layout (drop 4 b)
  end.
Fixpoint fill (layout : list (option nat)) (b : bytes) (vs : list bytes) : list field :=
  match layout, vs with
  | [], _ => []
  | Some n :: layout, _ => FixedField (take n b) :: fill layout (drop n b) vs
  | None :: layout, v :: vs => VariableField v :: fill layout (drop 4 b) vs
  | None :: layout, [] => []
  end.

Definition toy_fields_split (layout : list (option nat)) (b : bytes) : option (list bytes) :=
  let fs := fill layout b (slices (read_heads layout b) b) in
  if decide (container_bytes fs = b /\ map field_layout fs = layout) then Some (map field_bytes fs) else None.

Lemma read_heads_ok start fs rest :
  0 <= start -> start + Z.of_nat (length (concat (bodies fs))) < U32_MOD ->
  read_heads (map field_layout fs) (heads start fs ++ rest) = offsets_of start (bodies fs).
Proof.
  revert start. induction fs as [|[b|b] fs IH]; intros start Hs Hl; [done|..].
  - cbn. rewrite <- app_assoc, drop_app_length. by apply IH.
  - cbn [bodies omap list_omap concat] in Hl. rewrite length_app in Hl. unfold U32_MOD in *.
    cbn [map field_layout read_heads heads bodies omap list_omap offsets_of]. rewrite <- app_assoc.
    rewrite take_app_length', drop_app_length' by (by rewrite length_Z_to_le). rewrite le_to_Z_to_le by lia.
    rewrite Z.mod_small by (change (256 ^ Z.of_nat 4) with 4294967296; lia).
    f_equal. apply IH; [lia|]. change (omap _ fs) with (bodies fs) in Hl. unfold bodies in *. lia.
Qed.

Lemma fill_ok start fs rest : fill (map field_layout fs) (heads start fs ++ rest) (bodies fs) = fs.
Proof.
  revert start. induction fs as [|[b|b] fs IH]; intros start; [done|..];
    cbn [map field_layout heads fill bodies omap list_omap]; rewrite <- app_assoc.
  - rewrite take_app_length, drop_app_length. f_equal. apply IH.
  - f_equal. rewrite drop_app_length' by (by rewrite length_Z_to_le). apply IH.
Qed.

Lemma toy_fields_read fs : Z.of_nat (length (container_bytes fs)) < U32_MOD ->
  toy_fields_split (map field_layout fs) (container_bytes fs) = Some (map field_bytes fs).
Proof.
  intros Hl. unfold toy_fields_split. unfold container_bytes in Hl. rewrite length_app, length_heads in Hl.
  assert (Hs : slices (read_heads (map field_layout fs) (container_bytes fs)) (container_bytes fs) = bodies fs).
  { unfold container_bytes at 1. rewrite read_heads_ok by lia. apply slices_offsets; [lia|].
    unfold container_bytes. rewrite Nat2Z.id, drop_app_length'; [done|]. by rewrite length_heads. }
  assert (Hf : fill (map field_layout fs) (container_bytes fs) (bodies fs) = fs) by apply fill_ok.
  rewrite Hs, Hf. by rewrite decide_True.
Qed.

Lemma toy_fields_sound layout b bs : toy_fields_split layout b = Some bs ->
  exists fs, map field_layout fs = layout /\ map field_bytes fs = bs /\ b = container_bytes fs.
Proof.
  unfold toy_fields_split. set (fs := fill _ _ _). destruct (decide _) as [[H1 H2]|]; [|done]. intros [= <-].
  by exists fs.
Qed.

Fixpoint chunks (b : bytes) : option (list Z) :=
  match b with
  | [] => Some []
  | [_] => None
  | x :: y :: b => l ← chunks b; Some (le_to_Z [x; y] :: l)
  end.

Lemma chunks_ok l : Forall is_u16 l -> chunks (concat (map (Z_to_le 2) l)) = Some l.
Proof.
  induction 1 as [|z l Hz _ IH]; [done|]. cbn [map concat].
  assert (Hc : forall b, chunks (Z_to_le 2 z ++ b) = l ← chunks b; Some (le_to_Z (Z_to_le 2 z) :: l)) by done.
  rewrite Hc, IH. cbn [mbind option_bind]. do 2 f_equal. rewrite le_to_Z_to_le by apply Hz. by apply Z.mod_small.
Qed.

(** Bits from the least significant one, below the bit that marks the length. *)
Definition bits_to_Z (l : list bool) : Z := foldr (fun b acc => Z.b2z b + 2 * acc) 1 l.
Fixpoint bits_of (fuel : nat) (z : Z) : list bool :=
  match fuel with
  | O => []
  | S fuel => if z <=? 1 then [] else Z.odd z :: bits_of fuel (z / 2)
  end.

Definition toy_bitlist (l : list bool) : bytes := Z_to_le (length l / 8 + 1) (bits_to_Z l).

Lemma bits_to_Z_range l : 1 <= bits_to_Z l < 2 ^ (Z.of_nat (length l) + 1).
Proof.
  induction l as [|b l IH]; [done|]. cbn [bits_to_Z foldr length] in *. fold (bits_to_Z l) in *.
  rewrite Nat2Z.inj_succ, <- Z.add_1_r, (Z.pow_add_r 2 (_ + 1)) by lia. destruct b; simpl Z.b2z; lia.
Qed.

Lemma bits_of_ok fuel l : (length l <= fuel)%nat -> bits_of fuel (bits_to_Z l) = l.
Proof.
  revert fuel. induction l as [|b l IH]; intros [|fuel] Hf; simpl in Hf; try done; [lia|].
  cbn [bits_to_Z foldr bits_of]. fold (bits_to_Z l). pose proof (bits_to_Z_range l).
  rewrite (proj2 (Z.leb_gt _ _)) by (destruct b; simpl; lia). f_equal.
  - rewrite Z.odd_add_mul_2. by destruct b.
  - replace ((Z.b2z b + 2 * bits_to_Z l) / 2) with (bits_to_Z l); [apply IH; lia|].
    apply (Z.div_unique _ 2 _ (Z.b2z b)); destruct b; simpl; lia.
Qed.

#[global] Instance toy_ssz : SszLib := {|
  uint_as_ssz := Z_to_le;
  uint_from_ssz n b := if decide (length b = n) then Some (le_to_Z b) else None;
  vec_u8_as_ssz b := b;
  vec_u8_from_ssz b := Some b;
  vec_u16_as_ssz l := concat (map (Z_to_le 2) l);
  vec_u16_from_ssz := chunks;
  vec_join := ssz_list_join;
  vec_split b := match ssz_list_split None b with Ok l => Some l | _ => None end;
  bitlist_as_ssz := toy_bitlist;
  bitlist_from_ssz b :=
    let l := bits_of 9 (le_to_Z b) in
    if decide (toy_bitlist l = b /\ (length l <= 8)%nat) then Some l else None;
  fields_join := container_bytes;
  fields_split := toy_fields_split;
  union_split b := match b with [] => None | sel :: b => if byte_to_Z sel <? 128 then Some (sel, b) else None end;
|}.

Lemma toy_bitlist_read l : (length l <= 8)%nat -> bitlist_from_ssz (toy_bitlist l) = Some l.
Proof.
  intros Hl. cbn [bitlist_from_ssz toy_ssz]. pose proof (bits_to_Z_range l) as Hr.
  assert (He : le_to_Z (toy_bitlist l) = bits_to_Z l).
  { unfold toy_bitlist. rewrite le_to_Z_to_le by lia. apply Z.mod_small. split; [lia|]. eapply Z.lt_le_trans; [apply Hr|].
    change 256 with (2 ^ 8). rewrite <- Z.pow_mul_r by lia. apply Z.pow_le_mono_r; [lia|].
    pose proof (Nat.div_mod_eq (length l) 8). pose proof (Nat.mod_upper_bound (length l) 8). lia. }
  rewrite He, bits_of_ok by lia. by rewrite decide_True.
Qed.

Lemma ssz_list_join_length l :
  Z.of_nat (length (ssz_list_join l)) = foldr (fun b acc => Z.of_nat (length b) + 4 + acc) 0 l.
Proof.
  unfold ssz_list_join. rewrite length_app, length_list_offsets. induction l as [|b l IH]; [done|].
  simpl. rewrite length_app. lia.
Qed.

#[global] Instance toy_ssz_ok : SszLibOk toy_ssz.
Proof.
  split; try done.
  - intros n b <-. cbn. by rewrite decide_True.
  - apply chunks_ok.
  - apply ssz_list_join_length.
  - intros l Hl. cbn in *. by rewrite ssz_list_complete.
  - intros l. apply length_Z_to_le.
  - apply toy_bitlist_read.
  - apply toy_fields_sound.
  - apply toy_fields_read.
  - intros sel b Hs. cbn. by rewrite (proj2 (Z.ltb_lt _ _)).
  - intros [|s b] sel body; cbn; [done|]. destruct (_ <? _); [|done]. by intros [= -> ->].
Qed.

#[global] Instance toy_base64 : Base64Lib := {| base64_encode := tail |}.

#[global] Instance toy_base64_ok : Base64LibOk (E := toy_enr) toy_base64.
Proof. by split. Qed.

#[local] Existing Instance IdentityContentKey.overlay_key.

(** The world of a node that serves requests. *)
#[local] Instance serving_world : OverlayWorld (E := toy_enr) MemoryContentStore.t (OverlayService.t MemoryContentStore.t) := {|
  w_local_enr := OverlayService.local_enr;
  w_kbuckets := OverlayService.kbuckets;
  w_set_kbuckets k s := OverlayService.set_kbuckets s k;
  w_store := OverlayService.store;
  w_set_store st s := OverlayService.set_store s st;
  w_find_enr _ _ := None;
  w_discovery_enrs _ := [];
  w_request r d s :=
    match d with
    | RequestIncoming _ source =>
        match OverlayService.process_incoming s r source with
        | (Ok s', resp) => (Some resp, s')
        | _ => (None, s)
        end
    | RequestOutgoing _ => (None, s)
    end;
  w_command _ _ s := s;
  w_find_node _ s := (None, s);
  w_find_content _ _ s := (None, s);
  w_traced_offer _ _ s := (OfferNotSent, s);
  w_utp_read _ _ _ s := (None, s);
|}.

Definition demo_find (key : bytes) : Request.t := Request.FindContent {| content_key := key |}.
Definition demo_talk (key : bytes) : TalkRequest :=
  {| talk_id := []; talk_node_id := toy_id x55; talk_protocol := [];
     talk_body := WireSsz.as_ssz_bytes (Request.to_message (demo_find key)) |}.

Lemma fst_pair {A B} (x : A * B) a : x.1 = a -> x = (a, x.2).
Proof. intros <-. by destruct x. Qed.

Lemma demo_host : WireSsz.host_typed service_a.
Proof. split_and!; [by vm_compute|by vm_compute|intros e; by vm_compute]. Qed.

Lemma node_exchange_witness :
  talk_body (demo_talk [x0a]) = [x04; x04; x00; x00; x00; x0a]
  /\ (exists reply s', reply_to (demo_talk (replicate 32 x0a)) service_a = (Some reply, s')
     /\ OverlayLoop.talk_outcome (Ok reply) = Ok (Response.Content (ContentBytes [x01; x02])))
  /\ exists reply s', reply_to (demo_talk [x0a]) service_a = (Some reply, s')
     /\ OverlayLoop.talk_outcome (Ok reply) = Err DecodeError.
Proof.
  split; [vm_compute; reflexivity|]. split.
  - edestruct (WireSsz.node_exchange service_a (demo_find (replicate 32 x0a)) (demo_talk (replicate 32 x0a)) service_a)
      as (reply & H1 & _ & H2); [reflexivity|exact I|vm_compute; reflexivity|exact demo_host|vm_compute; discriminate
      |apply fst_pair; vm_compute; reflexivity|].
    exists reply. eexists. split; [exact H1|]. rewrite H2. vm_compute. reflexivity.
  - edestruct (WireSsz.node_exchange service_a (demo_find [x0a]) (demo_talk [x0a]) service_a)
      as (reply & H1 & _ & H2); [reflexivity|exact I|vm_compute; reflexivity|exact demo_host|vm_compute; discriminate
      |apply fst_pair; vm_compute; reflexivity|].
    exists reply. eexists. split; [exact H1|]. rewrite H2. vm_compute. reflexivity.
Defined.
