(* ===== verification/ContentKeySsz.v ===== *)
(** * SSZ codecs of content keys.

    The codecs that [ssz_derive] makes of the declarations of [content_key/history.rs] and
    [content_key/state.rs], over the encodings of the [ethereum_ssz] and [ssz_types] crates
    ([SszLib]).  They discharge the interface [HistoryKeySsz] that the history network is
    proved against, and the one of 64-bit integers ([U64Ssz]). *)

From S2P Require Import Prelude.
From S2P Require Import Distance.
From S2P Require Import Hex.
From S2P Require Import ContentKey.
From S2P Require Import Wire.
From S2P Require Import WireSsz.

(** Byte arrays and fixed vectors are read from exactly their length, a variable list from
    at most its capacity. *)
Definition array_from_ssz (n : nat) (b : bytes) : option bytes := if (length b =? n)%nat then Some b else None.
Definition list_from_ssz (n : nat) (b : bytes) : option bytes := if (length b <=? n)%nat then Some b else None.

(** ** Integers and history keys *)

Section Interfaces.
Context `{SL : SszLib}.

Definition ssz_u64 : U64Ssz := {|
  u64_as_ssz z := uint_as_ssz 8 z;
  u64_from_ssz b := ok_or (uint_from_ssz 8 b) BytesInvalid;
|}.

Definition history_key_as_ssz (k : HistoryContentKey.t) : bytes :=
  match k with
  | HistoryContentKey.BlockHeaderWithProof block_hash => x00 :: fields_join [FixedField block_hash]
  | HistoryContentKey.BlockBody block_hash => x01 :: fields_join [FixedField block_hash]
  | HistoryContentKey.BlockReceipts block_hash => x02 :: fields_join [FixedField block_hash]
  | HistoryContentKey.EpochAccumulator epoch_hash => x03 :: fields_join [FixedField epoch_hash]
  end.

(** The struct of each variant has one field of 32 bytes. *)
Definition one_hash (body : bytes) : option bytes :=
  match fields_split [Some 32%nat] body with Some [b1] => array_from_ssz 32 b1 | _ => None end.

Definition history_key_from_ssz (b : bytes) : option HistoryContentKey.t :=
  '(selector, body) ← union_split b;
  match selector with
  | x00 => HistoryContentKey.BlockHeaderWithProof <$> one_hash body
  | x01 => HistoryContentKey.BlockBody <$> one_hash body
  | x02 => HistoryContentKey.BlockReceipts <$> one_hash body
  | x03 => HistoryContentKey.EpochAccumulator <$> one_hash body
  | _ => None
  end.

Definition history_key_ssz : HistoryContentKey.HistoryKeySsz := {|
  HistoryContentKey.as_ssz_bytes := history_key_as_ssz;
  HistoryContentKey.from_ssz_bytes b := ok_or (history_key_from_ssz b) BytesInvalid;
|}.
End Interfaces.

(** ** State keys *)

Module StateKeySsz.
Import StateContentKey.

Section Codec.
Context `{SL : SszLib}.

Definition as_ssz_bytes (k : t) : bytes :=
  match k with
  | AccountTrieNode path node_hash state_root =>
      x00 :: fields_join [VariableField (vec_u8_as_ssz path); FixedField node_hash; FixedField state_root]
  | ContractStorageTrieNode address path node_hash state_root =>
      x01 :: fields_join [FixedField address; VariableField (vec_u8_as_ssz path); FixedField node_hash; FixedField state_root]
  | AccountTrieProof address state_root => x02 :: fields_join [FixedField address; FixedField state_root]
  | ContractStorageTrieProof address slot state_root =>
      x03 :: fields_join [FixedField address; FixedField (uint_as_ssz 32 slot); FixedField state_root]
  | ContractBytecode address code_hash => x04 :: fields_join [FixedField address; FixedField code_hash]
  end.

Definition account_trie_node (body : bytes) : option t :=
  match fields_split [None; Some 32%nat; Some 32%nat] body with
  | Some [b1; b2; b3] =>
      path ← list_from_ssz 64 b1; node_hash ← array_from_ssz 32 b2; state_root ← array_from_ssz 32 b3;
      Some (AccountTrieNode path node_hash state_root)
  | _ => None
  end.
Definition contract_storage_trie_node (body : bytes) : option t :=
  match fields_split [Some 20%nat; None; Some 32%nat; Some 32%nat] body with
  | Some [b1; b2; b3; b4] =>
      address ← array_from_ssz 20 b1; path ← list_from_ssz 64 b2; node_hash ← array_from_ssz 32 b3;
      state_root ← array_from_ssz 32 b4;
      Some (ContractStorageTrieNode address path node_hash state_root)
  | _ => None
  end.
Definition account_trie_proof (body : bytes) : option t :=
  match fields_split [Some 20%nat; Some 32%nat] body with
  | Some [b1; b2] =>
      address ← array_from_ssz 20 b1; state_root ← array_from_ssz 32 b2; Some (AccountTrieProof address state_root)
  | _ => None
  end.
Definition contract_storage_trie_proof (body : bytes) : option t :=
  match fields_split [Some 20%nat; Some 32%nat; Some 32%nat] body with
  | Some [b1; b2; b3] =>
      address ← array_from_ssz 20 b1; slot ← uint_from_ssz 32 b2; state_root ← array_from_ssz 32 b3;
      Some (ContractStorageTrieProof address slot state_root)
  | _ => None
  end.
Definition contract_bytecode (body : bytes) : option t :=
  match fields_split [Some 20%nat; Some 32%nat] body with
  | Some [b1; b2] =>
      address ← array_from_ssz 20 b1; code_hash ← array_from_ssz 32 b2; Some (ContractBytecode address code_hash)
  | _ => None
  end.

Definition from_ssz_bytes (b : bytes) : option t :=
  '(selector, body) ← union_split b;
  match selector with
  | x00 => account_trie_node body
  | x01 => contract_storage_trie_node body
  | x02 => account_trie_proof body
  | x03 => contract_storage_trie_proof body
  | x04 => contract_bytecode body
  | _ => None
  end.

(** [Into<Vec<u8>>] and [TryFrom<Vec<u8>>], whose error is a text. *)
Definition into (k : t) : bytes := as_ssz_bytes k.
Definition try_from (value : bytes) : res unit t := ok_or (from_ssz_bytes value) tt.
End Codec.

(** Addresses, hashes and slots of the sizes of their types, paths within their capacity. *)
Definition wf (k : t) : Prop :=
  match k with
  | AccountTrieNode path node_hash state_root => (length path <= 64)%nat /\ is_b32 node_hash /\ is_b32 state_root
  | ContractStorageTrieNode address path node_hash state_root =>
      length address = 20%nat /\ (length path <= 64)%nat /\ is_b32 node_hash /\ is_b32 state_root
  | AccountTrieProof address state_root => length address = 20%nat /\ is_b32 state_root
  | ContractStorageTrieProof address slot state_root => length address = 20%nat /\ is_u256 slot /\ is_b32 state_root
  | ContractBytecode address code_hash => length address = 20%nat /\ is_b32 code_hash
  end.
End StateKeySsz.

(** ** Theorems *)

Section Correct.
Context {SL : SszLib} `{!SszLibOk SL}.

Lemma array_spec n b : length b = n -> array_from_ssz n b = Some b.
Proof. intros <-. unfold array_from_ssz. by rewrite Nat.eqb_refl. Qed.

Lemma array_inv n b x : array_from_ssz n b = Some x -> b = x /\ length x = n.
Proof. unfold array_from_ssz. destruct (Nat.eqb_spec (length b) n); [|done]. by intros [= ->]. Qed.

Lemma list_spec n b : (length b <= n)%nat -> list_from_ssz n b = Some b.
Proof. intros Hb. unfold list_from_ssz. by rewrite (proj2 (Nat.leb_le _ _)). Qed.

Lemma list_inv n b x : list_from_ssz n b = Some x -> b = x /\ (length x <= n)%nat.
Proof. unfold list_from_ssz. destruct (Nat.leb_spec (length b) n); [|done]. by intros [= ->]. Qed.

Lemma uint_inv n b z : uint_from_ssz n b = Some z -> length b = n -> b = uint_as_ssz n z /\ 0 <= z < 256 ^ Z.of_nat n.
Proof.
  intros Hz Hb. rewrite uint_from_ssz_spec in Hz by done. injection Hz as <-. rewrite uint_as_ssz_spec. subst n.
  split; [by rewrite Z_to_le_to_Z|]. apply le_to_Z_range.
Qed.

(** The interface of 64-bit integers. *)
#[global] Instance ssz_u64_ok : U64SszOk ssz_u64.
Proof.
  split; cbn.
  - intros z _. apply uint_as_ssz_spec.
  - intros b Hb. by rewrite uint_from_ssz_spec.
Qed.

Lemma one_hash_spec h : is_b32 h -> one_hash (fields_join [FixedField h]) = Some h /\ fields_join [FixedField h] = h.
Proof.
  intros Hh. assert (E : fields_join [FixedField h] = h).
  { rewrite fields_join_spec. unfold container_bytes. simpl. by rewrite !app_nil_r. }
  split; [|done]. unfold one_hash.
  pose proof (fields_read [FixedField h]) as Hr. cbn [map field_layout field_bytes] in Hr. unfold is_b32 in Hh.
  rewrite Hh in Hr. rewrite Hr by (rewrite E, Hh; done). by apply array_spec.
Qed.

Lemma one_hash_inv body h : one_hash body = Some h -> is_b32 h /\ body = fields_join [FixedField h].
Proof.
  unfold one_hash. destruct (fields_split _ body) as [bs|] eqn:E; [|done].
  apply fields_sound in E as (fs & Hl & <- & ->). destruct fs as [|[b|b] [|]]; try done. cbn in Hl |- *.
  by intros [-> Hh]%array_inv.
Qed.

(** The derived codec of history keys meets the interface. *)
#[global] Instance history_key_ssz_ok : HistoryContentKey.HistoryKeySszOk history_key_ssz.
Proof.
  split; cbn [HistoryContentKey.as_ssz_bytes HistoryContentKey.from_ssz_bytes history_key_ssz].
  - intros k Hk. destruct (one_hash_spec _ Hk) as [_ E]. by destruct k; cbn in *; rewrite E.
  - intros k Hk. destruct (one_hash_spec _ Hk) as [E _]. unfold history_key_from_ssz.
    destruct k; cbn [history_key_as_ssz HistoryContentKey.hash] in *; rewrite union_read by done; cbn [mbind option_bind];
      by rewrite E.
  - intros b k. unfold history_key_from_ssz. destruct (union_split b) as [[sel body]|] eqn:E; [|done].
    apply union_sound in E as ->. cbn [mbind option_bind].
    destruct sel; try done; destruct (one_hash body) as [h|] eqn:Eh; try done; cbn; intros [= <-];
      apply one_hash_inv in Eh as [Hh ->]; done.
  - intros b. by destruct (history_key_from_ssz b).
Qed.
(** A container is read as its fields when the layout is theirs and it is small. *)
Lemma container_read layout fs : map field_layout fs = layout ->
  foldr (fun f acc => Z.of_nat (length (field_bytes f)) + offset_length f + acc) 0 fs < U32_MOD ->
  fields_split layout (fields_join fs) = Some (map field_bytes fs).
Proof.
  intros <- Hl. apply fields_read. by rewrite fields_join_spec, container_length.
Qed.

Ltac key_fields :=
  rewrite union_read by done; cbn [mbind option_bind];
  match goal with |- context [fields_split ?l (fields_join ?fs)] =>
    rewrite (container_read l fs);
    [ cbn [map field_bytes]
    | cbn [map field_layout]; unfold is_b32 in *; rewrite ?WireSsz.length_uint; congruence
    | cbn [foldr field_bytes offset_length]; unfold is_b32, BYTES_PER_LENGTH_OFFSET in *; rewrite ?vec_u8_as_ssz_spec, ?WireSsz.length_uint;
      unfold U32_MOD; lia ]
  end.

Lemma state_key_read k : StateKeySsz.wf k -> StateKeySsz.from_ssz_bytes (StateKeySsz.as_ssz_bytes k) = Some k.
Proof.
  unfold StateKeySsz.from_ssz_bytes, StateKeySsz.as_ssz_bytes.
  destruct k as [path h r|a path h r|a r|a slot r|a h]; cbn [StateKeySsz.wf]; intros Hk; destruct_and? Hk.
  - unfold StateKeySsz.account_trie_node. key_fields.
    rewrite vec_u8_as_ssz_spec, list_spec, !array_spec by done. done.
  - unfold StateKeySsz.contract_storage_trie_node. key_fields.
    rewrite vec_u8_as_ssz_spec, list_spec, !array_spec by done. done.
  - unfold StateKeySsz.account_trie_proof. key_fields. by rewrite !array_spec by done.
  - unfold StateKeySsz.contract_storage_trie_proof. key_fields. rewrite !array_spec by done. cbn [mbind option_bind].
    by rewrite WireSsz.uint_read.
  - unfold StateKeySsz.contract_bytecode. key_fields. by rewrite !array_spec by done.
Qed.

Ltac key_parts E :=
  match goal with |- context [fields_split ?l ?b] =>
    destruct (fields_split l b) as [bs|] eqn:E; [|done];
    apply fields_sound in E as (fs & E & <- & ->);
    repeat (destruct fs as [|[?|?] fs]; try done); cbn [map field_layout field_bytes] in *
  end.
Ltac key_steps :=
  repeat match goal with
  | |- (array_from_ssz ?n ?b ≫= _) = _ -> _ =>
      let H := fresh "Harr" in destruct (array_from_ssz n b) eqn:H; [|done]; apply array_inv in H as [-> ?]; cbn [mbind option_bind]
  | |- (list_from_ssz ?n ?b ≫= _) = _ -> _ =>
      let H := fresh "Hlist" in destruct (list_from_ssz n b) eqn:H; [|done]; apply list_inv in H as [-> ?]; cbn [mbind option_bind]
  end.

Lemma state_key_canonical b k : StateKeySsz.from_ssz_bytes b = Some k -> StateKeySsz.wf k /\ b = StateKeySsz.as_ssz_bytes k.
Proof.
  unfold StateKeySsz.from_ssz_bytes. destruct (union_split b) as [[sel body]|] eqn:Eu; [|done].
  apply union_sound in Eu as ->. cbn [mbind option_bind].
  destruct sel; try done.
  - unfold StateKeySsz.account_trie_node. key_parts E. key_steps. intros [= <-]. cbn. by rewrite vec_u8_as_ssz_spec.
  - unfold StateKeySsz.contract_storage_trie_node. key_parts E. key_steps. intros [= <-]. cbn. by rewrite vec_u8_as_ssz_spec.
  - unfold StateKeySsz.account_trie_proof. key_parts E. key_steps. by intros [= <-].
  - unfold StateKeySsz.contract_storage_trie_proof. key_parts E. key_steps.
    destruct (uint_from_ssz 32 _) as [slot|] eqn:Es; [|done]. cbn [mbind option_bind].
    apply uint_inv in Es as [-> Hs]; [|congruence]. key_steps. by intros [= <-].
  - unfold StateKeySsz.contract_bytecode. key_parts E. key_steps. by intros [= <-].
Qed.

(** State keys and their bytes are the same thing: the bytes of a key are read as the key,
    and bytes that are read are those of the key. *)
Theorem state_key_roundtrip b k :
  StateKeySsz.try_from b = Ok k <-> StateKeySsz.wf k /\ b = StateKeySsz.into k.
Proof.
  unfold StateKeySsz.try_from, StateKeySsz.into. split.
  - destruct (StateKeySsz.from_ssz_bytes b) as [k'|] eqn:E; [|done]. cbn. intros [= ->]. by apply state_key_canonical.
  - intros [Hk ->]. by rewrite state_key_read.
Qed.
End Correct.

(** What a content id of the state network stands for: two keys of one kind, of nodes of
    tries or of bytecode, with the same id differ at most in their state roots (unless the
    strings that are hashed for the two are a collision of SHA-256), but kinds are not told apart: bytecode, and nodes of storage tries
    with short paths, share their ids with nodes of the account trie. *)
Theorem state_content_ids `{H : HashLib} :
  (forall path h r path' h' r', is_b32 h -> is_b32 h' ->
    StateContentKey.content_id (StateContentKey.AccountTrieNode path h r)
    = StateContentKey.content_id (StateContentKey.AccountTrieNode path' h' r') ->
    (path = path' /\ h = h') \/ collides sha256 [(path ++ h, path' ++ h')])
  /\ (forall a path h r a' path' h' r', length a = 20%nat -> length a' = 20%nat -> is_b32 h -> is_b32 h' ->
    StateContentKey.content_id (StateContentKey.ContractStorageTrieNode a path h r)
    = StateContentKey.content_id (StateContentKey.ContractStorageTrieNode a' path' h' r') ->
    (a = a' /\ path = path' /\ h = h') \/ collides sha256 [(a ++ path ++ h, a' ++ path' ++ h')])
  /\ (forall a h a' h', length a = 20%nat -> length a' = 20%nat ->
    StateContentKey.content_id (StateContentKey.ContractBytecode a h)
    = StateContentKey.content_id (StateContentKey.ContractBytecode a' h') ->
    (a = a' /\ h = h') \/ collides sha256 [(a ++ h, a' ++ h')])
  /\ (forall a path h r r',
    StateContentKey.content_id (StateContentKey.ContractStorageTrieNode a path h r)
    = StateContentKey.content_id (StateContentKey.AccountTrieNode (a ++ path) h r'))
  /\ (forall a h r, StateContentKey.content_id (StateContentKey.ContractBytecode a h)
    = StateContentKey.content_id (StateContentKey.AccountTrieNode a h r)).
Proof.
  assert (Hsplit : forall a h a' h' : bytes, is_b32 h -> is_b32 h' -> a ++ h = a' ++ h' -> a = a' /\ h = h').
  { unfold is_b32. intros a h a' h' Hh Hh' E. apply app_inj_2; [by rewrite Hh, Hh'|done]. }
  split_and!; cbn [StateContentKey.content_id].
  - intros path h r path' h' r' Hh Hh' [E|]%collides_pair; [left|by right]. by apply Hsplit.
  - intros a path h r a' path' h' r' Ha Ha' Hh Hh' [E|]%collides_pair; [left|by right].
    apply app_inj_1 in E as [-> E]; [|congruence]. split; [done|]. by apply Hsplit.
  - intros a h a' h' Ha Ha' [E|]%collides_pair; [left|by right]. apply app_inj_1 in E; [done|congruence].
  - intros a path h r r'. by rewrite app_assoc.
  - done.
Qed.
