(* ===== verification/OverlayGenuine.v ===== *)
(** * What a node gives out was checked.

    The service with its channels and tasks ([OverlayLoop]), for a store and a notion of
    genuine content such that validated content and what the user stores is genuine, and
    the store, fed with genuine content, returns genuine content only.  In every state that
    the loop reaches, content that is on its way to a peer or to the caller of a lookup is
    genuine, for the key that was asked for. *)

From stdpp Require Import gmap relations.
From S2P Require Import Prelude.
From S2P Require Import Distance.
From S2P Require Import ContentKey.
From S2P Require Import Query.
From S2P Require Import FindNodes.
From S2P Require Import FindContent.
From S2P Require Import QueryPool.
From S2P Require Import Wire.
From S2P Require Import QueryTrace.
From S2P Require Import QueryInfo.
From S2P Require Import ContentStore.
From S2P Require Import Payload.
From S2P Require Import Overlay.
From S2P Require Import OverlayQuery.
From S2P Require Import Gossip.
From S2P Require Import OverlayContent.
From S2P Require Import OverlayProtocol.
From S2P Require Import Events.
From S2P Require Import OverlayChannels.
From S2P Require Import OverlayLoop.
From S2P Require Import OverlayRequests.
From S2P Require Import OverlayAnswers.

Module OverlayGenuine.
Import OverlayService OverlayQuery OverlayChannels OverlayLoop OverlayRequests OverlayAnswers.

Section Genuine.
Context `{E : EnrLib} `{W : WireLib} `{CK : OverlayContentKey} `{KB : !KBucketsTable}
  `{KL : KeyLib bytes} `{L : !Log2Lib bytes} {St : Type} `{CS : !ContentStore St}
  `{V : !Validator} `{LB : Leb128} `{T : !EnrText} `{R : RandomLib} `{MS : !MessageSsz}
  (rand : nat -> Z) (replies : Outside -> Prop) (user : ContentKey -> bytes -> Prop).
Implicit Types (s : OverlayService.t St) (self : t (St := St)).

(** ** Handlers that give out nothing *)

(** Effects that neither carry content nor belong to a content lookup. *)
Definition plain (e : effect) : Prop :=
  match e with
  | SpawnSendContent _ _ | SpawnReceiveContent _ _ _ _ _ _ _ | SpawnProcessContent _ _ _ _ _
  | SendContent _ (Some _) _ _ => False
  | _ => True
  end.

(** The lookups of the pool are among those before, for the same keys. *)
Definition same_keys {Q} (p p' : QueryPool.t Q QueryInfo.t) : Prop :=
  forall i info', infos p' !! i = Some info' ->
  exists info, infos p !! i = Some info /\ QueryInfo.query_type info' = QueryInfo.query_type info.

#[global] Instance same_keys_preorder {Q} : PreOrder (@same_keys Q).
Proof.
  split; [by intros p i info; exists info|]. intros x y z H1 H2 i info (info1 & Hi & ->)%H2. by apply H1.
Qed.

Record tame s s' : Prop := {
  tame_store : store s' = store s;
  tame_lookups : same_keys (find_content_query_pool s) (find_content_query_pool s');
  tame_effects : exists l, effects s' = effects s ++ l /\ Forall plain l;
}.

#[global] Instance tame_preorder : PreOrder tame.
Proof.
  split; [intros s; split; [done..|exists []; by rewrite app_nil_r]|].
  intros x y z [A1 A2 (l & A3 & A4)] [B1 B2 (l' & B3 & B4)]. split; [congruence|by etransitivity|].
  exists (l ++ l'). rewrite B3, A3, app_assoc. split; [done|by apply Forall_app].
Qed.

Lemma tame_same s s' : store s' = store s -> find_content_query_pool s' = find_content_query_pool s ->
  effects s' = effects s -> tame s s'.
Proof. intros H1 H2 H3. split; [done|by rewrite H2|exists []; by rewrite app_nil_r]. Qed.

Lemma tame_emit s e : plain e -> tame s (emit s e).
Proof. intros He. split; [done..|]. exists [e]. split; [done|by apply Forall_singleton]. Qed.

Lemma tame_fold {A} (f : OverlayService.t St -> A -> OverlayService.t St) l s :
  (forall s x, tame s (f s x)) -> tame s (fold_left f l s).
Proof.
  intros Hf. revert s. induction l as [|x l IH]; intros s; simpl; [done|]. etransitivity; [apply (Hf s x) | apply IH].
Qed.

(** A handler that was unfolded: every branch is tame. *)
Ltac tame_branches :=
  simpl; repeat case_match; simplify_eq/=;
  try (split; [done..|]; simpl; (exists []; by rewrite app_nil_r) || (eexists [_]; split; [done|by repeat constructor])).

Lemma tame_connect_node s n d : tame s (connect_node s n d).
Proof. unfold connect_node, ping_node, ping_queue_insert, ping_queue_remove, entry. tame_branches. Qed.

Lemma tame_register s source : tame s (register_node_activity s source).
Proof.
  unfold register_node_activity, update_node_connection_state, ping_queue_remove, entry. simpl.
  destruct (entry_node _); [tame_branches|]. destruct (cached_node_addr _ _) as [enr|]; [|by apply tame_same].
  etransitivity; [|apply tame_connect_node]. by apply tame_same.
Qed.

Lemma tame_process_ping s ping source s' : process_ping s ping source = Ok s' -> tame s s'.
Proof.
  unfold process_ping, request_node, update_node_radius, entry. intros H.
  destruct (kb_entry _ _) as [k e]. simpl in H. destruct (entry_node e); [|by simplify_eq; apply tame_same].
  destruct (CustomPayload.to_distance _); simpl in H; [|done..].
  destruct (_ <? _), (_ =? _); simplify_eq; tame_branches.
Qed.

Lemma tame_process_pong s pong source s' : process_pong s pong source = Ok s' -> tame s s'.
Proof.
  unfold process_pong, request_node, update_node_radius, entry. intros H.
  destruct (kb_entry _ _) as [k e]. simpl in H. destruct (entry_node e); [|by simplify_eq; apply tame_same].
  destruct (CustomPayload.to_distance _); simpl in H; [|done..].
  destruct (_ <? _), (_ =? _); simplify_eq; tame_branches.
Qed.

Lemma tame_discovered s enrs : tame s (process_discovered_enrs s enrs).
Proof.
  apply tame_fold. intros s1 enr. unfold process_discovered_enr, ping_node, ping_queue_insert, ping_queue_remove, entry.
  tame_branches.
Qed.

Lemma tame_accept s a enr offer : tame s (OverlayContent.process_accept s a enr offer).1.
Proof. unfold OverlayContent.process_accept. tame_branches. Qed.

Lemma tame_find_enr s o n : tame s (find_enr s o n).1.
Proof. unfold find_enr, entry. tame_branches. Qed.

Lemma tame_collect s o untrusted result : tame s (collect_enrs s o untrusted result).1.
Proof.
  revert s untrusted. induction result as [|n result IH]; intros s untrusted; simpl; [done|].
  destruct (list_find _ untrusted) as [[i enr]|]; [apply IH|].
  pose proof (tame_find_enr s o n) as H. destruct (find_enr s o n) as [s1 found]. simpl in *.
  etransitivity; [exact H | apply IH].
Qed.

Lemma tame_poke s key content ids : tame s (OverlayContent.poke_content s key content ids).
Proof. apply tame_fold. intros s1 n. unfold OverlayContent.poke_node, entry. tame_branches. Qed.

Lemma tame_gossip s content order : tame s (Gossip.propagate_gossip_cross_thread s content order).1.
Proof.
  unfold Gossip.propagate_gossip_cross_thread. destruct (Gossip.connected_nodes s); [done|].
  apply tame_fold. intros s2 x. unfold Gossip.send_offer. tame_branches.
Qed.

Lemma tame_finish s offer payload w : tame s (OverlayContent.finish_offer s offer payload w).
Proof. unfold OverlayContent.finish_offer. tame_branches. Qed.

(** The description of a lookup is replaced by one for the same key. *)
Lemma same_keys_set {Q} (p : QueryPool.t Q QueryInfo.t) i info q info' q' :
  QueryPool.queries p !! i = Some (info, q) -> QueryInfo.query_type info' = QueryInfo.query_type info ->
  same_keys p (QueryPool.set_query p i (info', q')).
Proof.
  intros Hi Ht j info1. rewrite infos_set_query. destruct (decide (i = j)) as [<-|Hne].
  - rewrite lookup_insert_eq. intros [= <-]. exists info. split; [by apply (infos_lookup _ _ _ Hi)|done].
  - rewrite lookup_insert_ne by done. by exists info1.
Qed.

Lemma tame_set_content s p : same_keys (find_content_query_pool s) p -> tame s (set_content_pool s p).
Proof. intros H. split; [done..|]. exists []. by rewrite app_nil_r. Qed.

Lemma tame_init_nodes s target cb : tame s (init_find_nodes_query s target cb).1.
Proof.
  unfold init_find_nodes_query. destruct (closest_connected_nodes _ _ _); [|by apply tame_same].
  destruct cb; [by apply tame_emit|done].
Qed.

Lemma tame_nodes s nodes source i s' : process_nodes s nodes source i = Ok s' -> tame s s'.
Proof.
  unfold process_nodes. intros H. etransitivity; [apply (tame_discovered s (enrs nodes))|].
  destruct i as [i|]; [|by simplify_eq].
  unfold advance_find_node_query, QueryPool.get_mut in H.
  destruct (QueryPool.queries _ !! i) as [[info q]|] eqn:Hi; [|by simplify_eq].
  destruct (FindNodeQuery.on_success _ _ _); simplify_eq/=. by apply tame_same.
Qed.

Lemma tame_content s content source i now s' : process_content s content source i now = Ok s' -> tame s s'.
Proof.
  unfold process_content. intros H.
  assert (Hw : forall i r, advance_find_content_query_with s i source r now = Ok s' -> tame s s').
  { intros j r Hr. unfold advance_find_content_query_with, QueryPool.get_mut in Hr.
    destruct (QueryPool.queries _ !! j) as [[info q]|] eqn:Hj; [|by simplify_eq].
    destruct (FindContentQuery.on_success _ _ _); simplify_eq/=. by eapply tame_set_content, same_keys_set. }
  destruct content as [cid|bytes|l], i as [i|]; try (by simplify_eq); try by eapply Hw.
  - etransitivity; [apply (tame_discovered s l)|].
    unfold advance_find_content_query_with_enrs, QueryPool.get_mut in H.
    destruct (QueryPool.queries _ !! i) as [[info q]|] eqn:Hi; [|by simplify_eq].
    destruct (fold_left add_new_untrusted _ _).
    destruct (FindContentQuery.on_success _ _ _); simplify_eq/=. by eapply tame_set_content, same_keys_set.
  - simplify_eq. apply tame_discovered.
Qed.

Lemma tame_response s r source request i now s' :
  OverlayContent.process_response s r source request i now = Ok s' -> tame s s'.
Proof.
  unfold OverlayContent.process_response. intros H. destruct (entry s (enr_node_id source)) as [s1 e] eqn:He.
  assert (H1 : tame s s1) by (unfold entry in He; destruct (kb_entry _ _); simplify_eq/=; by apply tame_same).
  destruct (match e with Present n st | Pending n st => (n, st) | NoEntry => _ end) as [node st].
  match type of H with context [process_pong ?x _ _] => set (s2 := x) in H end.
  assert (H2 : tame s s2).
  { etransitivity; [exact H1|]. unfold s2. destruct (status_state st); [|apply tame_connect_node].
    unfold update_node_connection_state. simpl. destruct (kb_update_node_status _ _ _ _) as [k []]; by apply tame_same. }
  etransitivity; [exact H2|]. destruct r.
  - by eapply tame_process_pong.
  - by eapply tame_nodes.
  - by eapply tame_content.
  - injection H as <-. apply tame_accept.
Qed.

(** Polling takes lookups out and adds none. *)
Lemma poll_same_keys {Q} `{QI : !Query bytes Q} (p p' : QueryPool.t Q QueryInfo.t) now order ev :
  query_event_poll p now order = Ok (p', ev) ->
  same_keys p p' /\ forall info, ended ev = Some info -> exists i info0, infos p !! i = Some info0
    /\ QueryInfo.query_type info = QueryInfo.query_type info0.
Proof.
  unfold query_event_poll. destruct (QueryPool.poll p now order) as [[p1 st]| |] eqn:Hp; [|done..].
  unfold QueryPool.poll in Hp. destruct (QueryPool.poll_queries _ _ _ _) as [[qs v]| |] eqn:Hq; [|done..].
  apply poll_queries_infos in Hq. cbn in Hp |- *.
  assert (Hin : forall i x, qs !! i = Some x -> infos p !! i = Some x.1).
  { intros i x Hi. unfold infos. rewrite <- Hq, lookup_fmap, Hi. done. }
  assert (Hsub : forall qs', (forall i x, qs' !! i = Some x -> qs !! i = Some x) ->
    forall i info, (fst <$> qs' : gmap Z QueryInfo.t) !! i = Some info -> infos p !! i = Some info).
  { intros qs' Hs i info (x & <- & Hx)%lookup_fmap_Some. by apply Hin, Hs. }
  assert (Hdel : forall i j x, delete i qs !! j = Some x -> qs !! j = Some x) by (intros i j x [_ ?]%lookup_delete_Some; done).
  destruct v as [[i|i peer|i]|].
  - destruct (qs !! i) as [[info q]|] eqn:Hi; simplify_eq/=. intros [= <- <-]. split.
    + intros j info' Hj. exists info'. split; [|done]. by eapply Hsub; [apply Hdel|].
    + intros info' [= <-]. exists i, info. split; [by apply (Hin i _ Hi)|done].
  - destruct (qs !! i) as [[info q]|] eqn:Hi; simplify_eq/=.
    destruct (QueryInfo.rpc_request info peer); [| |done].
    + intros [= <- <-]. split; [|done]. intros j info' Hj. exists info'. split; [|done]. by eapply (Hsub qs).
    + destruct (on_failure q peer) as [q'| |]; simpl; [|done..]. intros [= <- <-]. split; [|done].
      intros j info' Hj. unfold infos in Hj. simpl in Hj. apply lookup_fmap_Some in Hj as (x & <- & Hx).
      apply lookup_insert_Some in Hx as [[<- <-]|[_ Hx]]; eexists; (split; [by eapply Hin|done]).
  - destruct (qs !! i) as [[info q]|] eqn:Hi; simplify_eq/=. intros [= <- <-]. split.
    + intros j info' Hj. exists info'. split; [|done]. by eapply Hsub; [apply Hdel|].
    + intros info' [= <-]. exists i, info. split; [by apply (Hin i _ Hi)|done].
  - destruct (decide (qs = ∅)); simplify_eq/=; intros [= <- <-]; (split; [|done]); intros j info' Hj;
      exists info'; (split; [|done]); (eapply Hsub; [|exact Hj]); done.
Qed.

(** ** Genuine content *)

Context (genuine : ContentKey -> bytes -> Prop) (P : St -> Prop).
Hypothesis put_keeps : forall st key value, genuine key value -> P st -> P (store_put st key value).1.
Hypothesis valid_genuine : forall o key value, replies o -> validate_content o key value = Ok tt -> genuine key value.
Hypothesis user_genuine : forall key value, user key value -> genuine key value.
Hypothesis get_genuine : forall st key value, P st -> store_get st key = Ok (Some value) -> genuine key value.
Implicit Types (os : list (opening (CK := CK))).

(** The channel, if any, was opened for a lookup of the key. *)
Definition asked os (cb : option Z) (key : ContentKey) : Prop :=
  forall i, cb = Some i -> exists n is_trace, i = Z.of_nat n /\ os !! n = Some (ForContent key is_trace).

(** Content for a caller answers the lookup of the caller; content for a peer is that of a key. *)
Definition effect_ok os (e : effect) : Prop :=
  match e with
  | SpawnReceiveContent _ _ _ key cb _ _ | SpawnProcessContent _ key cb _ _ => asked os cb key
  | SendContent tx (Some c) _ _ => exists key, asked os (Some tx) key /\ genuine key c
  | SpawnSendContent _ c => exists key, genuine key c
  | _ => True
  end.

(** The response to a request that came in: content is that of the key. *)
Definition served_ok (r : Request.t) (d : RequestDirection) (result : res OverlayRequestError Response.t) : Prop :=
  match r, d, result with
  | Request.FindContent m, RequestIncoming _ _, Ok (Response.Content (ContentBytes c)) =>
      exists key, key_try_from (content_key m) = Ok key /\ genuine key c
  | _, _, _ => True
  end.

Definition answer_ok os (a : answer) : Prop :=
  match a with
  | Answered tx result => exists n r d, tx = Z.of_nat n /\ os !! n = Some (ForRequest r d) /\ served_ok r d result
  | Sent e => effect_ok os e
  | Subscribed _ | Dropped _ => True
  end.

Definition query_ok os (info : QueryInfo.t) : Prop :=
  match QueryInfo.query_type info with QFindContent key cb => asked os cb key | _ => True end.

Record service_ok os s : Prop := {
  ok_store : P (store s);
  ok_lookups : forall i info, infos (find_content_query_pool s) !! i = Some info -> query_ok os info;
  ok_effects : Forall (effect_ok os) (effects s);
}.

Lemma plain_ok os e : plain e -> effect_ok os e.
Proof. by destruct e as [| | | | | | | |? []]. Qed.

Lemma tame_ok os s s' : tame s s' -> service_ok os s -> service_ok os s'.
Proof.
  intros [H1 H2 (l & H3 & H4)] [A1 A2 A3]. split.
  - by rewrite H1.
  - intros i info (info0 & Hi & Ht)%H2. unfold query_ok. rewrite Ht. by apply (A2 i).
  - rewrite H3. apply Forall_app. split; [done|]. eapply Forall_impl; [exact H4|apply plain_ok].
Qed.

Lemma emit_ok os s e : effect_ok os e -> service_ok os s -> service_ok os (emit s e).
Proof. intros He [A1 A2 A3]. split; [done..|]. simpl. apply Forall_app. split; [done|by apply Forall_singleton]. Qed.

Lemma asked_prefix os os' cb key : os `prefix_of` os' -> asked os cb key -> asked os' cb key.
Proof. intros Hp H i Hi. destruct (H i Hi) as (n & tr & -> & Hn). exists n, tr. eauto using prefix_lookup_Some. Qed.

Lemma effect_prefix os os' e : os `prefix_of` os' -> effect_ok os e -> effect_ok os' e.
Proof.
  intros Hp. destruct e as [| | | | | | | |? []]; simpl; try done; try by apply asked_prefix.
  intros (key & Hk & Hg). exists key. eauto using asked_prefix.
Qed.

Lemma answer_prefix os os' a : os `prefix_of` os' -> answer_ok os a -> answer_ok os' a.
Proof.
  intros Hp. destruct a as [tx r| |e|e]; simpl; [|done|by apply effect_prefix|done].
  intros (n & q & d & -> & Hn & Hs). exists n, q, d. eauto using prefix_lookup_Some.
Qed.

Lemma service_prefix os os' s : os `prefix_of` os' -> service_ok os s -> service_ok os' s.
Proof.
  intros Hp [A1 A2 A3]. split; [done| |].
  - intros i info Hi. specialize (A2 i info Hi). unfold query_ok in *. case_match; [done|]. by eapply asked_prefix.
  - eapply Forall_impl; [exact A3|]. intros e. by apply effect_prefix.
Qed.

(** ** Handlers *)

Lemma handle_request_ok os s r source :
  service_ok os s -> service_ok os (handle_request s r source).1
    /\ forall id, served_ok r (RequestIncoming id source) (handle_request s r source).2.
Proof.
  intros Hs. destruct r as [m|m|m|m|m|m]; cbn [handle_request]; try (split; [done|by intros]).
  - split; [|by intros]. eapply tame_ok; [|exact Hs]. unfold handle_find_nodes, nodes_by_distance. tame_branches.
  - unfold handle_find_content. destruct (key_try_from (content_key m)) as [key| |] eqn:Hk; [|by split..].
    destruct (store_get (store s) key) as [[content|]| |] eqn:Hg; [| |by split..].
    + assert (Hc : genuine key content) by (by eapply get_genuine; [apply (ok_store _ _ Hs)|]).
      destruct (_ <=? _); [split; [done|]; intros id; cbn; rewrite Hk; by exists key|].
      destruct (cached_node_addr s source); [|by split]. split; [|done]. apply emit_ok; [by exists key|apply (tame_ok os s); [by apply tame_same|exact Hs]].
    + split; [|intros id; unfold find_nodes_close_to_content; cbn -[pop_while_ssz_bytes_len_gt]; by destruct (pop_while_ssz_bytes_len_gt _ _)].
      eapply tame_ok; [|exact Hs].
      unfold find_nodes_close_to_content, table_entries_enr. tame_branches.
  - split; [|by intros]. eapply tame_ok; [|exact Hs]. unfold handle_offer. tame_branches.
Qed.

Lemma incoming_ok os s r source s' response :
  service_ok os s -> process_incoming s r source = (Ok s', response) ->
  service_ok os s' /\ forall id, served_ok r (RequestIncoming id source) response.
Proof.
  intros Hs. unfold process_incoming. pose proof (tame_ok _ _ _ (tame_register s source) Hs) as H1.
  destruct (handle_request_ok os _ r source H1) as [H2 H3].
  destruct (handle_request _ r source) as [s1 r1]. cbn [fst snd] in *. intros [= H <-]. split; [|done].
  assert (process_incoming_request s1 r source = Ok s') as Hp by by destruct r1.
  destruct r; simpl in Hp; simplify_eq; try done. eapply tame_ok; [by eapply tame_process_ping|done].
Qed.

Lemma init_content_ok os s target cb is_trace now :
  service_ok os s -> asked os cb target -> service_ok os (init_find_content_query s target cb is_trace now).1.
Proof.
  intros Hs Ha. unfold init_find_content_query. destruct (closest_connected_nodes _ _ _).
  - destruct cb; [by apply emit_ok|done].
  - destruct Hs as [A1 A2 A3]. split; [done| |done]. intros i info Hi. unfold infos in Hi. simpl in Hi.
    apply lookup_fmap_Some in Hi as (x & <- & Hx). apply lookup_insert_Some in Hx as [[_ <-]|[_ Hx]]; [done|].
    apply (A2 i). unfold infos. by rewrite lookup_fmap, Hx.
Qed.

Lemma store_content_ok os s key content s' : genuine key content ->
  service_ok os s -> OverlayContent.store_content s key content = Ok s' -> service_ok os s'.
Proof.
  intros Hv [A1 A2 A3]. unfold OverlayContent.store_content.
  destruct (is_key_within_radius_and_unavailable (store s) key) as [[]| |]; try (by intros [= <-]).
  pose proof (put_keeps (store s) key content Hv A1) as Hput.
  destruct (store_put (store s) key content) as [st [| |]]; [intros [= <-]; by split..|done].
Qed.

Lemma respond_ok os s cb c utp trace key :
  asked os cb key -> (forall x, c = Some x -> genuine key x) -> service_ok os s ->
  service_ok os (OverlayContent.respond s cb c utp trace).
Proof.
  intros Ha Hc Hs. destruct cb as [cb|]; [|done]. apply emit_ok; [|done]. destruct c as [c|]; [|done].
  exists key. split; [done|by apply Hc].
Qed.

Lemma deliver_ok os s c utp key cb trace ids : asked os cb key -> genuine key c ->
  service_ok os s -> service_ok os (OverlayContent.deliver_content s c utp key cb trace ids).
Proof.
  intros Ha Hg Hs. unfold OverlayContent.deliver_content.
  assert (H : service_ok os (OverlayContent.respond s cb (Some c) utp trace))
    by (eapply respond_ok; [done|by intros x [= <-]|done]).
  destruct (negb _); [|done]. eapply tame_ok; [apply tame_poke|done].
Qed.

Lemma received_ok os s o content utp key cb trace ids s' : replies o -> asked os cb key -> service_ok os s ->
  OverlayContent.process_received_content s o content utp key cb trace ids = Ok s' -> service_ok os s'.
Proof.
  intros Ho Ha Hs. unfold OverlayContent.process_received_content.
  destruct (store_get (store s) key) as [[val|]|e|] eqn:Hg; [| | |done].
  { intros [= <-]. apply deliver_ok; [done| |done]. by eapply get_genuine; [apply (ok_store _ _ Hs)|]. }
  all: destruct (validate_content o key content) as [[]| |] eqn:Hv; [|intros [= <-]; by eapply respond_ok|done].
  all: destruct (OverlayContent.store_content s key content) as [s1| |] eqn:He; [|done..]; intros [= <-].
  all: apply (valid_genuine _ _ _ Ho) in Hv; apply deliver_ok; [done|done|by eapply store_content_ok].
Qed.

Lemma receive_ok os s o data key cb trace ids s' : replies o -> asked os cb key -> service_ok os s ->
  OverlayContent.receive_content s o data key cb trace ids = Ok s' -> service_ok os s'.
Proof.
  intros Ho Ha Hs. destruct data; [by apply received_ok|]. intros [= <-]. by eapply respond_ok.
Qed.

Lemma accept_items_ok os items : Forall (fun item => replies item.1) items ->
  forall s, service_ok os s -> service_ok os (OverlayContent.accept_items s items).1.
Proof.
  induction 1 as [|[o [key value]] items Ho _ IH]; intros s Hs; [done|]. cbn [OverlayContent.accept_items].
  assert (H1 : service_ok os (OverlayContent.accept_item s o key value).1).
  { unfold OverlayContent.accept_item. destruct (validate_content o key value) as [[]| |] eqn:Ev; [|done..].
    apply (valid_genuine _ _ _ Ho) in Ev.
    destruct (OverlayContent.store_content s key value) eqn:Es; [|done..]. by eapply store_content_ok. }
  destruct (OverlayContent.accept_item s o key value) as [s1 r]. specialize (IH s1 H1).
  by destruct (OverlayContent.accept_items s1 items).
Qed.

Lemma with_outside_replies {A} (o : nat -> Outside) (items : list A) :
  (forall n, replies (o n)) -> Forall (fun item => replies item.1) (OverlayContent.with_outside o items).
Proof.
  intros Ho. apply Forall_lookup. intros i x Hx. unfold OverlayContent.with_outside in Hx.
  rewrite list_lookup_imap in Hx. destruct (items !! i); by simplify_eq/=.
Qed.

Lemma payload_ok os s o keys payload order : (forall n, replies (o n)) -> service_ok os s ->
  service_ok os (OverlayContent.process_accept_utp_payload s o keys payload order).1.
Proof.
  intros Ho Hs. unfold OverlayContent.process_accept_utp_payload.
  destruct (decode_content_payload payload) as [[values| |]|]; try done.
  destruct (negb _); [done|]. pose proof (accept_items_ok os _ (with_outside_replies o (zip keys values) Ho) s Hs) as H.
  destruct (OverlayContent.accept_items s _) as [s1 validated]. cbn [fst] in *. eapply tame_ok; [apply tame_gossip|done].
Qed.

Lemma tame_node_event s o ev s' : handle_find_nodes_query_event s o ev = Ok s' -> tame s s'.
Proof.
  assert (Hend : forall info q, handle_find_nodes_query_event s o (EvFinished 0 info q) = Ok s' -> tame s s').
  { intros info q. simpl. pose proof (tame_collect s o (QueryInfo.untrusted_enrs info) (FindNodeQuery.into_result q)) as Hq.
    destruct (collect_enrs _ _ _ _) as [s1 found]. simpl in Hq.
    destruct (QueryInfo.query_type info) as [tg [cb|] n|]; intros [= <-]; [|exact Hq..].
    etransitivity; [exact Hq|by apply tame_emit]. }
  destruct ev as [i n req|i info q|i info q]; simpl; [|apply (Hend info q)..].
  pose proof (tame_find_enr s o n) as Hq. destruct (find_enr s o n) as [s1 [enr|]]; simpl in Hq.
  - intros [= <-]. etransitivity; [exact Hq|by apply tame_emit].
  - unfold QueryPool.get_mut. destruct (QueryPool.queries _ !! i) as [[info q]|] eqn:Hi; [|by intros [= <-]].
    destruct (FindNodeQuery.on_failure q n); simpl; [|done..]. intros [= <-]. etransitivity; [exact Hq|by apply tame_same].
Qed.

Lemma content_event_ok os s o ev s' : service_ok os s ->
  (forall info, ended (Some ev) = Some info -> query_ok os info) ->
  handle_find_content_query_event s o ev = Ok s' -> service_ok os s'.
Proof.
  intros Hs.
  assert (Hend : forall info q, query_ok os info ->
      handle_find_content_query_event s o (EvFinished 0 info q) = Ok s' -> service_ok os s').
  { intros info q Ha. simpl. unfold query_ok in Ha.
    destruct (QueryInfo.query_type info) as [|key cb]; [by intros [= <-]|].
    destruct (FindContentQuery.into_result q) as [ids|content ids|cid ids peer].
    - intros [= <-]. destruct cb as [cb|]; [by apply emit_ok|done].
    - intros [= <-]. by apply emit_ok.
    - pose proof (tame_ok _ _ _ (tame_find_enr s o peer) Hs) as H1. destruct (find_enr s o peer) as [s1 [enr|]];
        cbn [fst] in H1; intros [= <-]; [by apply emit_ok|]. destruct cb as [cb|]; [by apply emit_ok|done]. }
  intros Hq. destruct ev as [i n req|i info q|i info q]; simpl; [|apply (Hend info q); by apply Hq..].
  pose proof (tame_ok _ _ _ (tame_find_enr s o n) Hs) as H1. destruct (find_enr s o n) as [s1 [enr|]]; cbn [fst] in H1.
  - intros [= <-]. by apply emit_ok.
  - unfold QueryPool.get_mut. destruct (QueryPool.queries _ !! i) as [[info q]|] eqn:Hi; [|by intros [= <-]].
    destruct (FindNodeQuery.on_failure q n); simpl; [|done..]. intros [= <-]. eapply tame_ok; [|exact H1]. by apply tame_same.
Qed.

(** ** The loop *)

(** All but the service. *)
Record frame_ok self : Prop := {
  ok_commands : forall key cb is_trace, CmdFindContent key cb is_trace ∈ command_rx self -> asked (opened self) (Some cb) key;
  ok_spawned : Forall (effect_ok (opened self)) (spawned self);
  ok_answers : Forall (answer_ok (opened self)) (answers self);
}.

Definition sound self : Prop := frame_ok self /\ service_ok (opened self) (service self).

Lemma carry_out_ok self e : effect_ok (opened self) e -> frame_ok self -> frame_ok (carry_out rand self e).
Proof.
  intros He [A1 A2 A3].
  destruct e; split; try done; try (by apply Forall_app; split; [|apply Forall_singleton]).
  intros key cb tr. simpl. intros [H|H%list_elem_of_singleton]%elem_of_app; [by eapply A1|done].
Qed.

Lemma carry_out_opened self e : opened (carry_out rand self e) = opened self.
Proof. by destruct e. Qed.

Lemma settle_ok self s : frame_ok self -> service_ok (opened self) s -> sound (settle rand self s).
Proof.
  intros Hf [A1 A2 A3].
  assert (Hfold : forall l self1, Forall (effect_ok (opened self1)) l -> frame_ok self1 ->
    frame_ok (fold_left (carry_out rand) l self1)).
  { induction l as [|e l IH]; intros self1 Hl H1; [done|]. apply Forall_cons in Hl as [He Hl]. simpl. apply IH.
    - by rewrite carry_out_opened.
    - by apply carry_out_ok. }
  destruct (settle_opened rand self s) as [Ho Hs]. split.
  - unfold settle. apply Hfold; [done|]. by destruct Hf.
  - rewrite Ho, Hs. by split.
Qed.

Lemma frame_prefix self self' (o : opening) cmd : frame_ok self ->
  command_rx self' = command_rx self ++ [cmd] -> spawned self' = spawned self -> answers self' = answers self ->
  opened self' = opened self ++ [o] ->
  (forall key cb tr, cmd = CmdFindContent key cb tr -> asked (opened self ++ [o]) (Some cb) key) -> frame_ok self'.
Proof.
  intros [A1 A2 A3] E1 E2 E3 E4 Hc. assert (Hp : opened self `prefix_of` opened self ++ [o]) by (by exists [o]).
  split; rewrite ?E1, ?E2, ?E3, E4.
  - intros key cb tr [H|H%list_elem_of_singleton]%elem_of_app; [eapply asked_prefix; [exact Hp|by eapply A1]|by eapply Hc].
  - eapply Forall_impl; [exact A2|]. intros e. by apply effect_prefix.
  - eapply Forall_impl; [exact A3|]. intros a. by apply answer_prefix.
Qed.

Lemma sound_open self o : sound self -> sound (open rand self o).
Proof.
  intros [Hf Hs]. assert (Hp : opened self `prefix_of` opened self ++ [o]) by (by exists [o]).
  assert (Hn : (opened self ++ [o]) !! length (opened self) = Some o) by (by rewrite lookup_app_r, Nat.sub_diag by lia).
  destruct o; (split; [|exact (service_prefix _ _ _ Hp Hs)]); (eapply frame_prefix; [exact Hf|reflexivity..|]); try (by intros; simplify_eq).
  intros key cb tr [= <- <- <-]. intros i [= <-]. eauto.
Qed.

Lemma push_ok self a : answer_ok (opened self) a -> frame_ok self -> frame_ok (push_answer self a).
Proof. intros Ha [A1 A2 A3]. split; [done..|]. simpl. apply Forall_app. split; [done|by apply Forall_singleton]. Qed.

Lemma sound_command self c rest now self' : matched rand self -> sound self ->
  command_rx self = c :: rest -> run_command rand (set_commands self rest) c now = Ok self' -> sound self'.
Proof.
  intros M [Hf Hs] Hc H.
  assert (Hf1 : frame_ok (set_commands self rest)).
  { destruct Hf as [A1 A2 A3]. split; [|done..]. intros key cb tr Hin. apply (A1 key cb tr). rewrite Hc. by right. }
  destruct c as [r|target cb tr|target cb|cb|event]; cbn [run_command] in H; simplify_eq.
  - unfold process_request in H. destruct (direction r) as [rid source|dest] eqn:Hd.
    + simpl in H. destruct (process_incoming _ _ _) as [s resp] eqn:Hi. destruct s as [s| |]; simplify_eq/=; [|done..].
      destruct (incoming_ok _ _ _ _ _ _ Hs Hi) as [Hs' Hr].
      apply settle_ok; destruct (responder r) as [tx|] eqn:Htx; try done.
      apply push_ok; [|done]. destruct (matched_commands _ _ M r) with tx as (n & -> & Hn); [rewrite Hc; by left|done|].
      rewrite Hd in Hn. exists n, (request r), (RequestIncoming rid source). by split_and!.
    + simplify_eq/=. by destruct Hf1.
  - apply settle_ok; [done|]. apply init_content_ok; [done|]. apply (ok_commands _ Hf) with tr. rewrite Hc. by left.
  - apply settle_ok; [done|]. eapply tame_ok; [apply tame_init_nodes|done].
  - split; [by apply push_ok|done].
  - done.
Qed.

Lemma sound_response self r rest now self' : matched rand self -> sound self ->
  run_response rand (set_responses self rest) r now = Ok self' -> sound self'.
Proof.
  intros M [Hf Hs] H. unfold run_response in H. cbn [active_outgoing_requests set_responses] in H.
  destruct (active_outgoing_requests self !! response_id r) as [a|] eqn:Ha; [|simplify_eq; split; [by destruct Hf|done]].
  set (self2 := match active_responder a with Some tx => _ | None => _ end) in H.
  assert (H2 : frame_ok self2 /\ service self2 = service self /\ opened self2 = opened self).
  { unfold self2. destruct (active_responder a) as [tx|] eqn:Htx; [|split_and!; [by destruct Hf|done..]].
    split_and!; [|done..]. apply push_ok; [|by destruct Hf].
    destruct (matched_responders _ _ M _ _ Ha tx Htx) as (n & -> & Hn).
    exists n, (active_request a), (RequestOutgoing (active_destination a)). split_and!; [done..|]. by destruct (active_request a). }
  clearbody self2. destruct H2 as (Hf2 & Hs2 & Ho). destruct (response r) as [resp|e|]; [| |done].
  - destruct (OverlayContent.process_response _ _ _ _ _ _) as [s| |] eqn:Hp; simplify_eq/=.
    apply settle_ok; [done|]. rewrite Ho. rewrite Hs2 in Hp. eapply tame_ok; [by eapply tame_response|done].
  - simplify_eq. apply settle_ok; [done|]. rewrite Ho, Hs2. eapply tame_ok; [|exact Hs]. by apply tame_same.
Qed.

Lemma sound_ping self n : sound self -> sound (run_ping rand self n).
Proof.
  intros [Hf Hs]. unfold run_ping. destruct (entry _ _) as [s e] eqn:He.
  assert (Ht : tame (service self) s)
    by (unfold entry in He; simpl in He; destruct (kb_entry _ _); simplify_eq/=; by apply tame_same).
  assert (H1 : service_ok (opened self) s) by (by eapply tame_ok).
  destruct e; apply settle_ok; try done. eapply tame_ok; [|exact H1].
  unfold ping_node, ping_queue_insert. tame_branches.
Qed.

Lemma sound_poll_nodes self now o self' : sound self -> poll_nodes rand self now o = Ok self' -> sound self'.
Proof.
  intros [Hf Hs] H. unfold poll_nodes in H. destruct (query_event_poll _ _ _) as [[p ev]| |]; simplify_eq/=.
  assert (H1 : service_ok (opened self) (set_node_pool (service self) p)) by (eapply tame_ok; [|exact Hs]; by apply tame_same).
  destruct ev as [ev|]; [|simplify_eq; by apply settle_ok].
  destruct (handle_find_nodes_query_event _ _ _) as [s| |] eqn:He; simplify_eq/=.
  apply settle_ok; [done|]. eapply tame_ok; [by eapply tame_node_event|done].
Qed.

Lemma sound_poll_content self now o self' : sound self -> poll_content rand self now o = Ok self' -> sound self'.
Proof.
  intros [Hf Hs] H. unfold poll_content in H. destruct (query_event_poll _ _ _) as [[p ev]| |] eqn:Hp; simplify_eq/=.
  destruct (poll_same_keys _ _ _ _ _ Hp) as [Hk He].
  assert (H1 : service_ok (opened self) (set_content_pool (service self) p)) by (eapply tame_ok; [by apply tame_set_content|done]).
  destruct ev as [ev|]; [|simplify_eq; by apply settle_ok].
  destruct (handle_find_content_query_event _ _ _) as [s| |] eqn:Hev; simplify_eq/=.
  apply settle_ok; [done|]. eapply content_event_ok; [exact H1| |exact Hev].
  intros info (i & info0 & Hi & Ht)%He. unfold query_ok. rewrite Ht. by apply (ok_lookups _ _ Hs i).
Qed.

Lemma sound_task self l1 e l2 i self' : sound self -> spawned self = l1 ++ e :: l2 -> (forall n, replies (outside i n)) ->
  run_task rand (set_spawned self (l1 ++ l2)) e i = Ok self' -> sound self'.
Proof.
  intros [Hf Hs] He Ho H.
  assert (Hsp : effect_ok (opened self) e /\ Forall (effect_ok (opened self)) (l1 ++ l2)).
  { pose proof (ok_spawned _ Hf) as H0. rewrite He in H0. apply Forall_app in H0 as [H0 [H1 H2]%Forall_cons].
    split; [done|]. by apply Forall_app. }
  destruct Hsp as [Hok Hrest].
  assert (Hf1 : frame_ok (set_spawned self (l1 ++ l2))) by (by destruct Hf).
  destruct e; cbn [run_task] in H; try done; try (by simplify_eq).
  - destruct (stream i); simplify_eq; [|done]. apply settle_ok; [done|]. by apply payload_ok.
  - destruct (OverlayContent.receive_content _ _ _ _ _ _ _) as [s| |] eqn:Hr; simplify_eq/=.
    apply settle_ok; [done|]. by eapply receive_ok.
  - destruct (OverlayContent.process_received_content _ _ _ _ _ _ _ _) as [s| |] eqn:Hr; simplify_eq/=.
    apply settle_ok; [done|]. by eapply received_ok.
  - simplify_eq. apply settle_ok; [done|]. eapply tame_ok; [apply tame_finish|done].
Qed.

Lemma step_sound self self' : matched rand self -> sound self -> step rand replies user self self' -> sound self'.
Proof.
  intros M Hs. destruct 1 as [self o|self r d|self event|self c rest now self' Hc H|self l1 k l2 reply Hk _
    |self r rest now self' Hr H|self n _|self now o self' Ho H|self now o self' Ho H|self rng choice _
    |self l1 e l2 i self' He Hi H|self l1 e l2 i He _ H|self key content Hu|self enr|self node_id].
  - by apply sound_open.
  - destruct Hs as [[A1 A2 A3] Hs]. split; [|done]. split; [|done..].
    intros key cb tr. simpl. intros [H|H%list_elem_of_singleton]%elem_of_app; [by eapply A1|done].
  - destruct Hs as [[A1 A2 A3] Hs]. split; [|done]. split; [|done..].
    intros key cb tr. simpl. intros [H|H%list_elem_of_singleton]%elem_of_app; [by eapply A1|done].
  - by eapply sound_command.
  - destruct Hs as [[A1 A2 A3] Hs]. by split.
  - by eapply sound_response.
  - by apply sound_ping.
  - by eapply sound_poll_nodes.
  - by eapply sound_poll_content.
  - unfold bucket_refresh_lookup. destruct (_ <=? _); [|done]. destruct Hs as [Hf Hs]. apply settle_ok; [done|].
    eapply tame_ok; [apply tame_init_nodes|done].
  - by eapply sound_task.
  - destruct Hs as [[A1 A2 A3] Hs]. split; [|done]. apply push_ok; [done|]. split; [done| |done].
    rewrite He in A2. apply Forall_app in A2 as [A2 [_ A4]%Forall_cons]. by apply Forall_app.
  - destruct Hs as [[A1 A2 A3] [B1 B2 B3]]. split; [done|]. split; [|done..]. apply put_keeps; [by apply user_genuine|done].
  - destruct Hs as [[A1 A2 A3] [B1 B2 B3]]. by split.
  - destruct Hs as [[A1 A2 A3] [B1 B2 B3]]. by split.
Qed.

Lemma spawn_sound enr cached cids st k boot timeout peer_timeout parallelism results distances poke targets :
  P st -> sound (spawn rand enr cached cids st k boot timeout peer_timeout parallelism results distances poke targets).
Proof.
  intros Hst. unfold spawn. set (s := OverlayService.mk _ _ _ _ _ _ _ _ _ _ _ _ _ _).
  assert (H0 : service_ok [] s) by (split; [done| |constructor]; intros i info Hi; unfold infos in Hi; simpl in Hi;
    by rewrite fmap_empty, lookup_empty in Hi).
  apply settle_ok; [split; [by intros key cb tr H%elem_of_nil|constructor..]|].
  eapply tame_ok; [|exact H0]. unfold initialize_routing_table.
  etransitivity; [apply (tame_fold (add_bootnode false) boot s)|].
  { intros s1 x. unfold add_bootnode, ping_queue_insert. tame_branches. }
  etransitivity; [apply tame_init_nodes|]. apply tame_fold. intros s1 x. apply tame_init_nodes.
Qed.

Context `{Hrand : !Inj (=) (=) rand}.

Lemma run_sound self0 self : matched rand self0 -> sound self0 -> rtc (step rand replies user) self0 self -> sound self.
Proof.
  intros M H0 Hr. revert M H0. induction Hr as [self|self1 self2 self3 H12 _ IH]; intros M H0; [done|].
  apply IH; [by eapply step_matched|by eapply step_sound].
Qed.
End Genuine.
End OverlayGenuine.
