(* ===== verification/LightClientTypes.v ===== *)
(** * Data of the light client.

    The consensus types of [ethportal-api/src/types/consensus/] (headers, sync
    committees, light client updates of the Bellatrix and Capella forks), the generic
    update of [light-client/src/consensus/types.rs] and the configuration of
    [light-client/src/config/].  A struct that [superstruct] generates once per fork is
    a record with the type of its headers as a parameter.  The derived SSZ codecs and
    tree hashes are classes. *)

From S2P Require Import Prelude.
From S2P Require Import Distance.
From S2P Require Import Hex.

(** ** Forks *)

Module ForkName.
Inductive t := Bellatrix | Capella.

#[global] Instance eq_dec : EqDecision t.
Proof. solve_decision. Defined.

Definition as_fork_digest (self : t) : bytes :=
  match self with
  | Bellatrix => [x00; x00; x00; x00]
  | Capella => [xbb; xa4; xda; x96]
  end.

(** [TryFrom<ForkDigest>]: the error holds the digest in hex. *)
Definition try_from `{HexLib} (fork_digest : bytes) : res bytes t :=
  if decide (fork_digest = [x00; x00; x00; x00]) then Ok Bellatrix
  else if decide (fork_digest = [xbb; xa4; xda; x96]) then Ok Capella
  else Err (hex_encode fork_digest).

Definition str_bellatrix : bytes := [x62; x65; x6c; x6c; x61; x74; x72; x69; x78].
Definition str_merge : bytes := [x6d; x65; x72; x67; x65].
Definition str_capella : bytes := [x63; x61; x70; x65; x6c; x6c; x61].

(** [to_lowercase] on ASCII. *)
Definition to_lowercase (s : bytes) : bytes :=
  map (fun c => if (0x41 <=? byte_to_Z c) && (byte_to_Z c <=? 0x5a)
                then byte_of_Z (byte_to_Z c + 32) else c) s.

(** [FromStr]: the error holds the name. *)
Definition from_str (fork_name : bytes) : res bytes t :=
  let s := to_lowercase fork_name in
  if decide (s = str_bellatrix) then Ok Bellatrix
  else if decide (s = str_merge) then Ok Bellatrix
  else if decide (s = str_capella) then Ok Capella
  else Err fork_name.

(** [Display]. *)
Definition to_string (self : t) : bytes :=
  match self with Bellatrix => str_bellatrix | Capella => str_capella end.
End ForkName.

(** ** Consensus types *)

Module BeaconBlockHeader.
Record t := mk {
  slot : Z;
  proposer_index : Z;
  parent_root : bytes;
  state_root : bytes;
  body_root : bytes;
}.

#[global] Instance eq_dec : EqDecision t.
Proof. solve_decision. Defined.

(** [#[derive(Default)]]. *)
Definition default : t := mk 0 0 (replicate 32 x00) (replicate 32 x00) (replicate 32 x00).
End BeaconBlockHeader.

Module SyncCommittee.
Record t := mk {
  pubkeys : list bytes;
  aggregate_pubkey : bytes;
}.

#[global] Instance eq_dec : EqDecision t.
Proof. solve_decision. Defined.

(** 512 keys of 48 zero bytes. *)
Definition default : t := mk (replicate 512 (replicate 48 x00)) (replicate 48 x00).

Definition wf (c : t) : Prop := length (pubkeys c) = 512%nat.
End SyncCommittee.

(** [BitVector<U512>] and a BLS signature of 96 bytes. *)
Record SyncAggregate := {
  sync_committee_bits : list bool;
  sync_committee_signature : bytes;
}.

(** The headers of execution payloads, with the withdrawals root of Capella. *)
Record ExecutionPayloadHeader := {
  parent_hash : bytes;
  fee_recipient : bytes;
  exec_state_root : bytes;
  receipts_root : bytes;
  logs_bloom : bytes;
  prev_randao : bytes;
  block_number : Z;
  gas_limit : Z;
  gas_used : Z;
  timestamp : Z;
  extra_data : bytes;
  base_fee_per_gas : Z;
  exec_block_hash : bytes;
  transactions_root : bytes;
}.

Record ExecutionPayloadHeaderCapella := {
  payload_header : ExecutionPayloadHeader;
  withdrawals_root : bytes;
}.

Record LightClientHeaderBellatrix := { beacon_bellatrix : BeaconBlockHeader.t }.

Record LightClientHeaderCapella := {
  beacon : BeaconBlockHeader.t;
  execution : ExecutionPayloadHeaderCapella;
  execution_branch : list bytes;
}.

(** The objects of the sync protocol, over the header of their fork. *)
Module LightClientBootstrap.
Record variant (H : Type) := mk {
  header : H;
  current_sync_committee : SyncCommittee.t;
  current_sync_committee_branch : list bytes;
}.
#[global] Arguments mk {H}.
#[global] Arguments header {H}.
#[global] Arguments current_sync_committee {H}.
#[global] Arguments current_sync_committee_branch {H}.

Inductive t :=
| Bellatrix (b : variant LightClientHeaderBellatrix)
| Capella (b : variant LightClientHeaderCapella).
End LightClientBootstrap.

Module LightClientUpdate.
Record variant (H : Type) := mk {
  attested_header : H;
  next_sync_committee : SyncCommittee.t;
  next_sync_committee_branch : list bytes;
  finalized_header : H;
  finality_branch : list bytes;
  sync_aggregate : SyncAggregate;
  signature_slot : Z;
}.
#[global] Arguments mk {H}.
#[global] Arguments attested_header {H}.
#[global] Arguments next_sync_committee {H}.
#[global] Arguments next_sync_committee_branch {H}.
#[global] Arguments finalized_header {H}.
#[global] Arguments finality_branch {H}.
#[global] Arguments sync_aggregate {H}.
#[global] Arguments signature_slot {H}.

Inductive t :=
| Bellatrix (u : variant LightClientHeaderBellatrix)
| Capella (u : variant LightClientHeaderCapella).
End LightClientUpdate.

Module LightClientFinalityUpdate.
Record variant (H : Type) := mk {
  attested_header : H;
  finalized_header : H;
  finality_branch : list bytes;
  sync_aggregate : SyncAggregate;
  signature_slot : Z;
}.
#[global] Arguments mk {H}.
#[global] Arguments attested_header {H}.
#[global] Arguments finalized_header {H}.
#[global] Arguments finality_branch {H}.
#[global] Arguments sync_aggregate {H}.
#[global] Arguments signature_slot {H}.

Inductive t :=
| Bellatrix (u : variant LightClientHeaderBellatrix)
| Capella (u : variant LightClientHeaderCapella).

(** The getter [finalized_header_capella]: an error on the other variant. *)
Definition finalized_header_capella (self : t) : res unit LightClientHeaderCapella :=
  match self with
  | Capella u => Ok (finalized_header u)
  | Bellatrix _ => Err tt
  end.
End LightClientFinalityUpdate.

Module LightClientOptimisticUpdate.
Record variant (H : Type) := mk {
  attested_header : H;
  sync_aggregate : SyncAggregate;
  signature_slot : Z;
}.
#[global] Arguments mk {H}.
#[global] Arguments attested_header {H}.
#[global] Arguments sync_aggregate {H}.
#[global] Arguments signature_slot {H}.

Inductive t :=
| Bellatrix (u : variant LightClientHeaderBellatrix)
| Capella (u : variant LightClientHeaderCapella).

(** The getter [signature_slot] of the enum. *)
Definition signature_slot_of (self : t) : Z :=
  match self with
  | Bellatrix u => signature_slot u
  | Capella u => signature_slot u
  end.
End LightClientOptimisticUpdate.

Abbreviation LightClientBootstrapCapella := (LightClientBootstrap.variant LightClientHeaderCapella).
Abbreviation LightClientUpdateCapella := (LightClientUpdate.variant LightClientHeaderCapella).
Abbreviation LightClientFinalityUpdateCapella :=
  (LightClientFinalityUpdate.variant LightClientHeaderCapella).
Abbreviation LightClientOptimisticUpdateCapella :=
  (LightClientOptimisticUpdate.variant LightClientHeaderCapella).

(** ** [light-client/src/consensus/types.rs] *)

Module GenericUpdate.
Record t := mk {
  attested_header : BeaconBlockHeader.t;
  sync_aggregate : SyncAggregate;
  signature_slot : Z;
  next_sync_committee : option SyncCommittee.t;
  next_sync_committee_branch : option (list bytes);
  finalized_header : option BeaconBlockHeader.t;
  finality_branch : option (list bytes);
}.

Definition from_update (update : LightClientUpdateCapella) : t := {|
  attested_header := beacon (LightClientUpdate.attested_header update);
  sync_aggregate := LightClientUpdate.sync_aggregate update;
  signature_slot := LightClientUpdate.signature_slot update;
  next_sync_committee := Some (LightClientUpdate.next_sync_committee update);
  next_sync_committee_branch := Some (LightClientUpdate.next_sync_committee_branch update);
  finalized_header := Some (beacon (LightClientUpdate.finalized_header update));
  finality_branch := Some (LightClientUpdate.finality_branch update);
|}.

Definition from_finality_update (update : LightClientFinalityUpdateCapella) : t := {|
  attested_header := beacon (LightClientFinalityUpdate.attested_header update);
  sync_aggregate := LightClientFinalityUpdate.sync_aggregate update;
  signature_slot := LightClientFinalityUpdate.signature_slot update;
  next_sync_committee := None;
  next_sync_committee_branch := None;
  finalized_header := Some (beacon (LightClientFinalityUpdate.finalized_header update));
  finality_branch := Some (LightClientFinalityUpdate.finality_branch update);
|}.

Definition from_optimistic_update (update : LightClientOptimisticUpdateCapella) : t := {|
  attested_header := beacon (LightClientOptimisticUpdate.attested_header update);
  sync_aggregate := LightClientOptimisticUpdate.sync_aggregate update;
  signature_slot := LightClientOptimisticUpdate.signature_slot update;
  next_sync_committee := None;
  next_sync_committee_branch := None;
  finalized_header := None;
  finality_branch := None;
|}.
End GenericUpdate.

(** ** Configuration *)

Record ChainConfig := { chain_id : Z; genesis_time : Z; genesis_root : bytes }.

Record Fork := { epoch : Z; fork_version : bytes }.

Record Forks := { genesis : Fork; altair : Fork; bellatrix : Fork; capella : Fork }.

Module BaseConfig.
Record t := mk {
  rpc_port : Z;
  consensus_rpc : option bytes;
  default_checkpoint : bytes;
  chain : ChainConfig;
  forks : Forks;
  max_checkpoint_age : Z;
}.
End BaseConfig.

Module Config.
Record t := mk {
  consensus_rpc : bytes;
  rpc_port : option Z;
  default_checkpoint : bytes;
  checkpoint : option bytes;
  data_dir : option bytes;
  chain : ChainConfig;
  forks : Forks;
  max_checkpoint_age : Z;
  fallback : option bytes;
  load_external_fallback : bool;
  strict_checkpoint_age : bool;
}.

(** The fork version for signatures of a slot. *)
Definition fork_version_at (self : t) (slot : Z) : bytes :=
  let e := slot / 32 in
  let fs := forks self in
  if epoch (capella fs) <=? e then fork_version (capella fs)
  else if epoch (bellatrix fs) <=? e then fork_version (bellatrix fs)
  else if epoch (altair fs) <=? e then fork_version (altair fs)
  else fork_version (genesis fs).

Definition to_base_config (self : t) : BaseConfig.t := {|
  BaseConfig.rpc_port := default 8545 (rpc_port self);
  BaseConfig.consensus_rpc := Some (consensus_rpc self);
  BaseConfig.default_checkpoint := default_checkpoint self;
  BaseConfig.chain := chain self;
  BaseConfig.forks := forks self;
  BaseConfig.max_checkpoint_age := max_checkpoint_age self;
|}.

Definition set_checkpoint (self : t) (c : bytes) : t := {|
  consensus_rpc := consensus_rpc self;
  rpc_port := rpc_port self;
  default_checkpoint := default_checkpoint self;
  checkpoint := Some c;
  data_dir := data_dir self;
  chain := chain self;
  forks := forks self;
  max_checkpoint_age := max_checkpoint_age self;
  fallback := fallback self;
  load_external_fallback := load_external_fallback self;
  strict_checkpoint_age := strict_checkpoint_age self;
|}.
End Config.

(** [hex_str_to_bytes]: the prefix is optional. *)
Definition hex_str_to_bytes `{HexLib} (s : bytes) : option bytes :=
  let stripped := if starts_with str_0x s then drop 2 s else s in
  hex_parse stripped.

Inductive Network := Mainnet | Goerli.

(** The constants of [networks.rs], as the bytes their hex strings denote. *)
Definition mainnet : BaseConfig.t := {|
  BaseConfig.default_checkpoint := Z_to_be 32 0x766647f3c4e1fc91c0db9a9374032ae038778411fbff222974e11f2e3ce7dadf;
  BaseConfig.rpc_port := 8545;
  (* https://www.lightclientdata.org *)
  BaseConfig.consensus_rpc := Some
    [x68; x74; x74; x70; x73; x3a; x2f; x2f; x77; x77; x77; x2e; x6c; x69; x67; x68; x74; x63; x6c;
     x69; x65; x6e; x74; x64; x61; x74; x61; x2e; x6f; x72; x67];
  BaseConfig.chain := {|
    chain_id := 1;
    genesis_time := 1606824023;
    genesis_root := Z_to_be 32 0x4b363db94e286120d76eb905340fdd4e54bfe9f06bf33ff6cf5ad27f511bfe95 |};
  BaseConfig.forks := {|
    genesis := {| epoch := 0; fork_version := [x00; x00; x00; x00] |};
    altair := {| epoch := 74240; fork_version := [x01; x00; x00; x00] |};
    bellatrix := {| epoch := 144896; fork_version := [x02; x00; x00; x00] |};
    capella := {| epoch := 194048; fork_version := [x03; x00; x00; x00] |} |};
  BaseConfig.max_checkpoint_age := 1209600;
|}.

Definition goerli : BaseConfig.t := {|
  BaseConfig.default_checkpoint := Z_to_be 32 0xd4344682866dbede543395ecf5adf9443a27f423a4b00f270458e7932686ced1;
  BaseConfig.rpc_port := 8545;
  BaseConfig.consensus_rpc := None;
  BaseConfig.chain := {|
    chain_id := 5;
    genesis_time := 1616508000;
    genesis_root := Z_to_be 32 0x043db0d9a83813551ee2f33450d23797757d430911a9320530ad8a0eabc43efb |};
  BaseConfig.forks := {|
    genesis := {| epoch := 0; fork_version := [x00; x00; x10; x20] |};
    altair := {| epoch := 36660; fork_version := [x01; x00; x10; x20] |};
    bellatrix := {| epoch := 112260; fork_version := [x02; x00; x10; x20] |};
    capella := {| epoch := 162304; fork_version := [x03; x00; x00; x00] |} |};
  BaseConfig.max_checkpoint_age := 1209600;
|}.

Definition network_to_base_config (self : Network) : BaseConfig.t :=
  match self with
  | Mainnet => mainnet
  | Goerli => goerli
  end.

(** ** Fork names *)

(** Digests and names determine the fork: each encodes back and forth, in any case of
    the letters, and nothing else decodes. *)
Theorem fork_name_roundtrip `{HexLib} f :
  ForkName.try_from (ForkName.as_fork_digest f) = Ok f
  /\ ForkName.from_str (ForkName.to_string f) = Ok f
  /\ (forall d, ForkName.try_from d = Ok f -> d = ForkName.as_fork_digest f)
  /\ (forall s, ForkName.from_str s = Ok f ->
        ForkName.to_lowercase s = ForkName.to_string f
        \/ f = ForkName.Bellatrix /\ ForkName.to_lowercase s = ForkName.str_merge).
Proof.
  split_and!; [by destruct f; vm_compute | by destruct f; vm_compute | |].
  - intros d. unfold ForkName.try_from. repeat case_decide; intros [= <-]; done.
  - intros s. unfold ForkName.from_str. cbv zeta. repeat case_decide; intros [= <-]; auto.
Qed.

(** Later forks override earlier ones: the fork version of a slot is that of the last
    fork, in the order genesis, Altair, Bellatrix, Capella, that has begun. *)
Theorem fork_version_latest cfg slot :
  Config.fork_version_at cfg slot
  = let fs := Config.forks cfg in
    default (fork_version (genesis fs))
      (fork_version <$> last (filter (fun f => epoch f <= slot / 32)
                                [altair fs; bellatrix fs; capella fs])).
Proof.
  unfold Config.fork_version_at. cbv zeta.
  set (fs := Config.forks cfg). set (e := slot / 32).
  rewrite !filter_cons, filter_nil.
  destruct (Z.leb_spec (epoch (capella fs)) e), (Z.leb_spec (epoch (bellatrix fs)) e),
    (Z.leb_spec (epoch (altair fs)) e); repeat case_decide; try lia; done.
Qed.
