(* ===== verification/ConsensusClient.v ===== *)
(** * The light client's sync protocol.

    [light-client/src/consensus/consensus_client.rs] and [utils.rs]: the client follows
    the beacon chain from a trusted checkpoint by updates that sync committees signed.
    The RPC service it asks is the class [ConsensusRpc]; replies and the clock come from
    a world that every call advances, so that calls at different times may differ.  The
    crates for BLS signatures, SSZ and Merkle branches are the class [ConsensusLib].
    Logging is left out, except for the age of a header that it computes, which may
    panic. *)

From S2P Require Import Prelude.
From S2P Require Import Distance.
From S2P Require Import Hex.
From S2P Require Import LightClientTypes.

(** ** What the client uses *)

Class ConsensusLib := {
  (** [tree_hash_root], derived *)
  header_root : BeaconBlockHeader.t -> bytes;
  committee_root : SyncCommittee.t -> bytes;
  (** [ssz_rs]: [Vector::from_iter], [is_valid_merkle_branch] and [hash_tree_root] of
      [SigningData] and [ForkData] *)
  vector_from_iter : nat -> bytes -> bytes;
  is_valid_merkle_branch : bytes -> list bytes -> nat -> Z -> bytes -> bool;
  signing_data_root : bytes -> bytes -> option bytes;
  fork_data_root : bytes -> bytes -> option bytes;
  (** [milagro_bls] *)
  PublicKey : Type;
  pk_from_bytes_unchecked : bytes -> option PublicKey;
  AggregateSignature : Type;
  sig_from_bytes : bytes -> option AggregateSignature;
  fast_aggregate_verify : AggregateSignature -> bytes -> list PublicKey -> bool;
}.

Inductive ConsensusError :=
| InsufficientParticipation
| InvalidTimestamp
| InvalidPeriod
| NotRelevant
| InvalidFinalityProof
| InvalidNextSyncCommitteeProof
| InvalidCurrentSyncCommitteeProof
| InvalidSignature
| InvalidHeaderHash (found expected : bytes)
| CheckpointTooOld
| IncorrectRpcNetwork.

(** [anyhow] errors: those that downcast to a [ConsensusError], and the others. *)
Inductive anyhow :=
| Consensus (e : ConsensusError)
| RpcFailed
| CouldNotFetchBootstrap.

(** The [ConsensusRpc] trait, with the clock. *)
Class ConsensusRpc (W : Type) := {
  rpc_name : bytes;
  get_bootstrap : bytes -> W -> res anyhow LightClientBootstrapCapella * W;
  get_updates : Z -> Z -> W -> res anyhow (list LightClientUpdateCapella) * W;
  get_finality_update : W -> res anyhow LightClientFinalityUpdateCapella * W;
  get_optimistic_update : W -> res anyhow LightClientOptimisticUpdateCapella * W;
  rpc_chain_id : W -> res anyhow Z * W;
  (** the seconds since the epoch *)
  clock : W -> Z * W;
}.

(** ** [utils.rs] *)

Definition calc_sync_period (slot : Z) : Z :=
  let epoch := slot / 32 in
  epoch / 256.

Definition MAX_REQUEST_LIGHT_CLIENT_UPDATES : Z := 128.
Definition BEACON_GENESIS_TIME : Z := 1606824023.
Definition str_portal : bytes := [x70; x6f; x72; x74; x61; x6c].

(** [Duration] subtraction panics below zero. *)
Definition duration_sub (a b : Z) : res anyhow Z := if a <? b then Panic else Ok (a - b).

(** [expected_current_slot] of [rpc/portal_rpc.rs]. *)
Definition portal_expected_current_slot (now : Z) : res anyhow Z :=
  let? since_genesis := duration_sub now BEACON_GENESIS_TIME in
  Ok (since_genesis / 12).

Section Utils.
Context `{L : ConsensusLib}.

Definition is_aggregate_valid (sig_bytes msg : bytes) (pks : list PublicKey) : bool :=
  match sig_from_bytes sig_bytes with
  | Some sig => fast_aggregate_verify sig msg pks
  | None => false
  end.

Definition bytes_to_bytes32 (b : bytes) : bytes := vector_from_iter 32 b.

Definition bytes32_to_node (b : bytes) : option bytes := if (length b =? 32)%nat then Some b else None.

Definition branch_to_nodes (branch : list bytes) : option (list bytes) := mapM bytes32_to_node branch.

Definition is_proof_valid (attested_header : BeaconBlockHeader.t) (leaf_hash : bytes)
    (branch : list bytes) (depth : nat) (index : Z) : bool :=
  let result :=
    state_root ← bytes32_to_node (BeaconBlockHeader.state_root attested_header);
    branch ← branch_to_nodes branch;
    Some (is_valid_merkle_branch leaf_hash branch depth index state_root) in
  match result with
  | Some is_valid => is_valid
  | None => false
  end.

Definition compute_domain (domain_type fork_version genesis_root : bytes) : option bytes :=
  fork_data_root ← fork_data_root fork_version genesis_root;
  let d := domain_type ++ take 28 fork_data_root in
  if (length d =? 32)%nat then Some d else None.

Definition compute_signing_root (object_root domain : bytes) : option bytes :=
  signing_data_root object_root domain.

Definition is_finality_proof_valid (attested_header finality_header : BeaconBlockHeader.t)
    (finality_branch : list bytes) : bool :=
  is_proof_valid attested_header (header_root finality_header)
    (map bytes_to_bytes32 finality_branch) 6 41.

Definition is_next_committee_proof_valid (attested_header : BeaconBlockHeader.t)
    (next_committee : SyncCommittee.t) (next_committee_branch : list bytes) : bool :=
  is_proof_valid attested_header (committee_root next_committee)
    (map bytes_to_bytes32 next_committee_branch) 5 23.

Definition is_current_committee_proof_valid (attested_header : BeaconBlockHeader.t)
    (current_committee : SyncCommittee.t) (current_committee_branch : list bytes) : bool :=
  is_proof_valid attested_header (committee_root current_committee)
    (map bytes_to_bytes32 current_committee_branch) 5 22.

(** The keys of the set bits; [committee.pubkeys[i]] and the conversion may panic. *)
Fixpoint participating (pubkeys : list bytes) (bitfield : list bool) : res anyhow (list PublicKey) :=
  match bitfield with
  | [] => Ok []
  | bit :: bits =>
      if bit then
        match pubkeys with
        | [] => Panic
        | pk :: pks =>
            match pk_from_bytes_unchecked pk with
            | None => Panic
            | Some pk => let? rest := participating pks bits in Ok (pk :: rest)
            end
        end
      else participating (tail pubkeys) bits
  end.

Definition get_participating_keys (committee : SyncCommittee.t) (bitfield : list bool)
    : res anyhow (list PublicKey) :=
  participating (SyncCommittee.pubkeys committee) bitfield.

Definition get_bits (bitfield : list bool) : Z :=
  fold_left (fun count (bit : bool) => if bit then count + 1 else count) bitfield 0.
End Utils.

(** ** The client *)

Module LightClientStore.
Record t := mk {
  finalized_header : BeaconBlockHeader.t;
  current_sync_committee : SyncCommittee.t;
  next_sync_committee : option SyncCommittee.t;
  optimistic_header : BeaconBlockHeader.t;
  previous_max_active_participants : Z;
  current_max_active_participants : Z;
}.

Definition default_store : t :=
  mk BeaconBlockHeader.default SyncCommittee.default None BeaconBlockHeader.default 0 0.

Definition set_optimistic (s : t) (h : BeaconBlockHeader.t) : t :=
  mk (finalized_header s) (current_sync_committee s) (next_sync_committee s) h
     (previous_max_active_participants s) (current_max_active_participants s).
Definition set_finalized (s : t) (h : BeaconBlockHeader.t) : t :=
  mk h (current_sync_committee s) (next_sync_committee s) (optimistic_header s)
     (previous_max_active_participants s) (current_max_active_participants s).
Definition set_next (s : t) (c : option SyncCommittee.t) : t :=
  mk (finalized_header s) (current_sync_committee s) c (optimistic_header s)
     (previous_max_active_participants s) (current_max_active_participants s).
Definition set_current (s : t) (c : SyncCommittee.t) : t :=
  mk (finalized_header s) c (next_sync_committee s) (optimistic_header s)
     (previous_max_active_participants s) (current_max_active_participants s).
Definition set_max (s : t) (previous current : Z) : t :=
  mk (finalized_header s) (current_sync_committee s) (next_sync_committee s) (optimistic_header s)
     previous current.
End LightClientStore.

Module ConsensusLightClient.
Import LightClientStore.
Import (hints) LightClientStore.

Record t := mk {
  store : LightClientStore.t;
  initial_checkpoint : bytes;
  last_checkpoint : option bytes;
  config : Config.t;
}.

(** [new] and [with_custom_rpc], which differ in where the RPC client comes from. *)
Definition new (checkpoint_block_root : bytes) (config : Config.t) : t :=
  mk LightClientStore.default_store checkpoint_block_root None config.

Definition set_store (self : t) (s : LightClientStore.t) : t :=
  mk s (initial_checkpoint self) (last_checkpoint self) (config self).
Definition set_last_checkpoint (self : t) (c : bytes) : t :=
  mk (store self) (initial_checkpoint self) (Some c) (config self).

Definition get_header (self : t) : BeaconBlockHeader.t := optimistic_header (store self).
Definition get_finalized_header (self : t) : BeaconBlockHeader.t := finalized_header (store self).

Section Pure.
Context `{L : ConsensusLib} `{X : HexLib}.
Implicit Types (self : t) (update : GenericUpdate.t).

(** *** Time *)

Definition genesis_time_of self : Z := genesis_time (Config.chain (config self)).

Definition expected_current_slot self (now : Z) : res anyhow Z :=
  let? since_genesis := duration_sub now (genesis_time_of self) in
  Ok (since_genesis / 12).

Definition slot_timestamp self (slot : Z) : Z := wrap64 (slot * 12 + genesis_time_of self).

(** The largest [chrono::Duration], in seconds. *)
Definition MAX_DURATION_SECS : Z := 9223372036854775.

Definition age self (now slot : Z) : res anyhow Z :=
  let expected_time := slot_timestamp self slot in
  let? delay := duration_sub now expected_time in
  if MAX_DURATION_SECS <? delay then Panic else Ok delay.

(** In seconds; [now] is read twice. *)
Definition duration_until_next_update self (now now' : Z) : res anyhow Z :=
  let? current_slot := expected_current_slot self now in
  let next_slot := current_slot + 1 in
  let next_slot_timestamp := slot_timestamp self next_slot in
  let time_to_next_slot := wrap64 (next_slot_timestamp - now') in
  let next_update := wrap64 (time_to_next_slot + 4) in
  Ok next_update.

Definition is_valid_checkpoint self (now blockhash_slot : Z) : res anyhow bool :=
  let? current_slot := expected_current_slot self now in
  let current_slot_timestamp := slot_timestamp self current_slot in
  let blockhash_slot_timestamp := slot_timestamp self blockhash_slot in
  let slot_age := wrap64 (current_slot_timestamp - blockhash_slot_timestamp) in
  Ok (slot_age <? Config.max_checkpoint_age (config self)).

(** *** Signatures *)

Definition compute_committee_sign_root self (header : bytes) (slot : Z) : option bytes :=
  let g := genesis_root (Config.chain (config self)) in
  if negb (length g =? 32)%nat then None
  else
    let domain_type := [x07; x00; x00; x00] in
    let fork_version := vector_from_iter 4 (Config.fork_version_at (config self) slot) in
    domain ← compute_domain domain_type fork_version g;
    compute_signing_root header domain.

Definition verify_sync_committee_signture self (pks : list PublicKey)
    (attested_header : BeaconBlockHeader.t) (signature : bytes) (signature_slot : Z) : bool :=
  let header_root := bytes_to_bytes32 (header_root attested_header) in
  match compute_committee_sign_root self header_root signature_slot with
  | Some signing_root => is_aggregate_valid signature signing_root pks
  | None => false
  end.

(** *** Verification *)

Definition is_some {A} (o : option A) : bool := match o with Some _ => true | None => false end.

(** The optional proofs are checked when both parts are there. *)
Definition check_proof {A} (valid : A -> list bytes -> bool) (o : option A) (branch : option (list bytes))
    : bool :=
  match o, branch with
  | Some a, Some branch => valid a branch
  | _, _ => true
  end.

Definition verify_generic_update self (now : Z) update : res anyhow unit :=
  let bits := get_bits (sync_committee_bits (GenericUpdate.sync_aggregate update)) in
  if bits =? 0 then Err (Consensus InsufficientParticipation)
  else
  let update_finalized_slot :=
    BeaconBlockHeader.slot (default BeaconBlockHeader.default (GenericUpdate.finalized_header update)) in
  let? current_slot := expected_current_slot self now in
  let attested_slot := BeaconBlockHeader.slot (GenericUpdate.attested_header update) in
  let valid_time :=
    (GenericUpdate.signature_slot update <=? current_slot)
    && (attested_slot <? GenericUpdate.signature_slot update)
    && (update_finalized_slot <=? attested_slot) in
  if negb valid_time then Err (Consensus InvalidTimestamp)
  else
  let store_period := calc_sync_period (BeaconBlockHeader.slot (finalized_header (store self))) in
  let update_sig_period := calc_sync_period (GenericUpdate.signature_slot update) in
  let valid_period :=
    if is_some (next_sync_committee (store self)) then
      (update_sig_period =? store_period) || (update_sig_period =? store_period + 1)
    else update_sig_period =? store_period in
  if negb valid_period then Err (Consensus InvalidPeriod)
  else
  let update_attested_period := calc_sync_period attested_slot in
  let update_has_next_committee :=
    negb (is_some (next_sync_committee (store self)))
    && is_some (GenericUpdate.next_sync_committee update)
    && (update_attested_period =? store_period) in
  if (attested_slot <=? BeaconBlockHeader.slot (finalized_header (store self)))
     && negb update_has_next_committee
  then Err (Consensus NotRelevant)
  else
  if negb (check_proof (is_finality_proof_valid (GenericUpdate.attested_header update))
             (GenericUpdate.finalized_header update) (GenericUpdate.finality_branch update))
  then Err (Consensus InvalidFinalityProof)
  else
  if negb (check_proof (is_next_committee_proof_valid (GenericUpdate.attested_header update))
             (GenericUpdate.next_sync_committee update) (GenericUpdate.next_sync_committee_branch update))
  then Err (Consensus InvalidNextSyncCommitteeProof)
  else
  let? sync_committee :=
    if update_sig_period =? store_period then Ok (current_sync_committee (store self))
    else match next_sync_committee (store self) with Some c => Ok c | None => Panic end in
  let? pks := get_participating_keys sync_committee
                (sync_committee_bits (GenericUpdate.sync_aggregate update)) in
  let is_valid_sig :=
    verify_sync_committee_signture self pks (GenericUpdate.attested_header update)
      (sync_committee_signature (GenericUpdate.sync_aggregate update))
      (GenericUpdate.signature_slot update) in
  if negb is_valid_sig then Err (Consensus InvalidSignature) else Ok tt.

(** *** Application *)

Definition has_finality_update update : bool :=
  is_some (GenericUpdate.finalized_header update) && is_some (GenericUpdate.finality_branch update).

Definition has_sync_update update : bool :=
  is_some (GenericUpdate.next_sync_committee update)
  && is_some (GenericUpdate.next_sync_committee_branch update).

Definition safety_threshold self : Z :=
  Z.max (current_max_active_participants (store self))
        (previous_max_active_participants (store self)) / 2.

(** [log_optimistic_update] and [log_finality_update]: what is left of them is the age. *)
Definition log_optimistic_update self (now : Z) : res anyhow unit :=
  let? _ := age self now (BeaconBlockHeader.slot (optimistic_header (store self))) in Ok tt.
Definition log_finality_update self (now : Z) : res anyhow unit :=
  let? _ := age self now (BeaconBlockHeader.slot (finalized_header (store self))) in Ok tt.

(** The first part: participation and the optimistic header. *)
Definition apply_optimistic_part self (now : Z) update : res anyhow unit * t :=
  let committee_bits := get_bits (sync_committee_bits (GenericUpdate.sync_aggregate update)) in
  let self := set_store self (set_max (store self) (previous_max_active_participants (store self))
                (Z.max (current_max_active_participants (store self)) committee_bits)) in
  let should_update_optimistic :=
    (safety_threshold self <? committee_bits)
    && (BeaconBlockHeader.slot (optimistic_header (store self))
        <? BeaconBlockHeader.slot (GenericUpdate.attested_header update)) in
  if should_update_optimistic then
    let self := set_store self (set_optimistic (store self) (GenericUpdate.attested_header update)) in
    (log_optimistic_update self now, self)
  else (Ok tt, self).

Definition update_finalized_slot update : Z :=
  match GenericUpdate.finalized_header update with
  | Some h => BeaconBlockHeader.slot h
  | None => 0
  end.

Definition should_apply_update self update : bool :=
  let committee_bits := get_bits (sync_committee_bits (GenericUpdate.sync_aggregate update)) in
  let update_attested_period :=
    calc_sync_period (BeaconBlockHeader.slot (GenericUpdate.attested_header update)) in
  let update_finalized_period := calc_sync_period (update_finalized_slot update) in
  let update_has_finalized_next_committee :=
    negb (is_some (next_sync_committee (store self)))
    && has_sync_update update && has_finality_update update
    && (update_finalized_period =? update_attested_period) in
  let has_majority := 512 * 2 <=? committee_bits * 3 in
  let update_is_newer :=
    BeaconBlockHeader.slot (finalized_header (store self)) <? update_finalized_slot update in
  let good_update := update_is_newer || update_has_finalized_next_committee in
  has_majority && good_update.

(** The rotation of the committees. *)
Definition rotate_committees self update : res anyhow t :=
  let store_period := calc_sync_period (BeaconBlockHeader.slot (finalized_header (store self))) in
  match next_sync_committee (store self) with
  | None => Ok (set_store self (set_next (store self) (GenericUpdate.next_sync_committee update)))
  | Some next =>
      if calc_sync_period (update_finalized_slot update) =? store_period + 1 then
        let s := set_current (store self) next in
        let s := set_next s (GenericUpdate.next_sync_committee update) in
        Ok (set_store self (set_max s (current_max_active_participants s) 0))
      else Ok self
  end.

(** The new finalized header. *)
Definition apply_finality_part self (now : Z) update : res anyhow unit * t :=
  if BeaconBlockHeader.slot (finalized_header (store self)) <? update_finalized_slot update then
    match GenericUpdate.finalized_header update with
    | None => (Panic, self)
    | Some h =>
        let self := set_store self (set_finalized (store self) h) in
        match log_finality_update self now with
        | Ok _ =>
            let self :=
              if BeaconBlockHeader.slot (finalized_header (store self)) mod 32 =? 0
              then set_last_checkpoint self (header_root (finalized_header (store self)))
              else self in
            let self :=
              if BeaconBlockHeader.slot (optimistic_header (store self))
                 <? BeaconBlockHeader.slot (finalized_header (store self))
              then set_store self (set_optimistic (store self) (finalized_header (store self)))
              else self in
            (Ok tt, self)
        | r => (r, self)
        end
    end
  else (Ok tt, self).

(** The whole: [now] for the two logged ages. *)
Definition apply_generic_update self (now now' : Z) update : res anyhow unit * t :=
  match apply_optimistic_part self now update with
  | (Ok _, self) =>
      if should_apply_update self update then
        match rotate_committees self update with
        | Ok self => apply_finality_part self now' update
        | Err e => (Err e, self)
        | Panic => (Panic, self)
        end
      else (Ok tt, self)
  | r => r
  end.

Definition verify_update self now (update : LightClientUpdateCapella) : res anyhow unit :=
  verify_generic_update self now (GenericUpdate.from_update update).
Definition verify_finality_update self now (update : LightClientFinalityUpdateCapella) : res anyhow unit :=
  verify_generic_update self now (GenericUpdate.from_finality_update update).
Definition verify_optimistic_update self now (update : LightClientOptimisticUpdateCapella)
    : res anyhow unit :=
  verify_generic_update self now (GenericUpdate.from_optimistic_update update).
Definition apply_update self now now' (update : LightClientUpdateCapella) : res anyhow unit * t :=
  apply_generic_update self now now' (GenericUpdate.from_update update).
Definition apply_finality_update self now now' (update : LightClientFinalityUpdateCapella)
    : res anyhow unit * t :=
  apply_generic_update self now now' (GenericUpdate.from_finality_update update).
Definition apply_optimistic_update self now now' (update : LightClientOptimisticUpdateCapella)
    : res anyhow unit * t :=
  apply_generic_update self now now' (GenericUpdate.from_optimistic_update update).

(** The checks on a bootstrap, and the store made of it. *)
Definition accept_bootstrap self (now : Z) (bootstrap : LightClientBootstrapCapella)
    : res anyhow t :=
  let header := beacon (LightClientBootstrap.header bootstrap) in
  let? is_valid := is_valid_checkpoint self now (BeaconBlockHeader.slot header) in
  if negb is_valid && Config.strict_checkpoint_age (config self) then Err (Consensus CheckpointTooOld)
  else
  let committee_valid :=
    is_current_committee_proof_valid header
      (LightClientBootstrap.current_sync_committee bootstrap)
      (LightClientBootstrap.current_sync_committee_branch bootstrap) in
  let header_hash := hex_encode (header_root header) in
  let expected_hash := hex_encode (initial_checkpoint self) in
  let header_valid := bool_decide (header_hash = expected_hash) in
  if negb header_valid then Err (Consensus (InvalidHeaderHash expected_hash header_hash))
  else if negb committee_valid then Err (Consensus InvalidCurrentSyncCommitteeProof)
  else
    Ok (set_store self
          (LightClientStore.mk header (LightClientBootstrap.current_sync_committee bootstrap) None
             header 0 0)).
End Pure.

(** *** The asynchronous operations *)

Section Effects.
Context `{L : ConsensusLib} `{X : HexLib} {W : Type} `{R : ConsensusRpc W}.

(** A computation on the client and the world. *)
Definition M (A : Type) : Type := SM (t * W) anyhow A.

Definition read_clock : M Z := fun '(self, w) => let '(z, w) := clock w in (Ok z, (self, w)).
Definition check_rpc : M unit :=
  do chain <- call rpc_chain_id;
  do expected <- gets (fun self => chain_id (Config.chain (config self)));
  if negb (chain =? expected) then lift (Err (Consensus IncorrectRpcNetwork)) else ret tt.

(** [self.verify(&update)?; self.apply(&update)]. *)
Definition verify_and_apply (update : GenericUpdate.t) : M unit :=
  do now <- read_clock;
  do self <- gets id;
  do _ <- lift (verify_generic_update self now update);
  do now <- read_clock;
  do now' <- read_clock;
  update_self (fun self => apply_generic_update self now now' update).

(** [let res = self.verify(update); if res.is_ok() { self.apply(update) }]. *)
Definition apply_if_valid (update : GenericUpdate.t) : M unit :=
  do now <- read_clock;
  do self <- gets id;
  match verify_generic_update self now update with
  | Ok _ =>
      do now <- read_clock;
      do now' <- read_clock;
      update_self (fun self => apply_generic_update self now now' update)
  | Err _ => ret tt
  | Panic => lift Panic
  end.

Fixpoint apply_all (updates : list LightClientUpdateCapella) : M unit :=
  match updates with
  | [] => ret tt
  | update :: rest =>
      do _ <- verify_and_apply (GenericUpdate.from_update update);
      apply_all rest
  end.

Definition bootstrap : M unit :=
  do checkpoint <- gets initial_checkpoint;
  do bootstrap <- attempt (call (get_bootstrap checkpoint));
  match bootstrap with
  | Ok bootstrap =>
      do now <- read_clock;
      do self <- gets id;
      do self <- lift (accept_bootstrap self now bootstrap);
      update_self (fun _ => (Ok tt, self))
  | _ => lift (Err CouldNotFetchBootstrap)
  end.

(** The loop of [sync] over the periods. *)
Fixpoint fetch_periods (periods : list Z) (updates : list LightClientUpdateCapella)
    : M (list LightClientUpdateCapella) :=
  match periods with
  | [] => ret updates
  | period :: rest =>
      do period_update <- call (get_updates period 1);
      fetch_periods rest (updates ++ period_update)
  end.

Definition fetch_updates (bootstrap_period : Z) : M (list LightClientUpdateCapella) :=
  if bool_decide (rpc_name = str_portal) then
    do now <- read_clock;
    do slot <- lift (portal_expected_current_slot now);
    let current_period := calc_sync_period slot in
    fetch_periods (seqZ bootstrap_period (current_period - bootstrap_period)) []
  else call (get_updates bootstrap_period MAX_REQUEST_LIGHT_CLIENT_UPDATES).

(** The finality and the optimistic update at the end of [sync] and in [advance]. *)
Definition latest_updates : M unit :=
  do finality_update <- attempt (call get_finality_update);
  do _ <-
    match finality_update with
    | Ok finality_update => verify_and_apply (GenericUpdate.from_finality_update finality_update)
    | _ => ret tt
    end;
  do optimistic_update <- call get_optimistic_update;
  verify_and_apply (GenericUpdate.from_optimistic_update optimistic_update).

Definition sync : M unit :=
  do _ <- bootstrap;
  do bootstrap_period <- gets (fun self => calc_sync_period (BeaconBlockHeader.slot (get_finalized_header self)));
  do updates <- fetch_updates bootstrap_period;
  do _ <- apply_all updates;
  latest_updates.

Definition advance : M unit :=
  do _ <- latest_updates;
  do next <- gets (fun self => next_sync_committee (store self));
  match next with
  | Some _ => ret tt
  | None =>
      do current_period <- gets (fun self => calc_sync_period (BeaconBlockHeader.slot (get_finalized_header self)));
      do updates <- call (get_updates current_period 1);
      match updates with
      | [update] => apply_if_valid (GenericUpdate.from_update update)
      | _ => ret tt
      end
  end.
End Effects.
End ConsensusLightClient.

(** ** What verification accepts *)

Section Verify.
Import ConsensusLightClient LightClientStore.
Context `{L : ConsensusLib}.
Implicit Types (self : ConsensusLightClient.t) (update : GenericUpdate.t).

Lemma get_bits_from bits n :
  fold_left (fun count (bit : bool) => if bit then count + 1 else count) bits n
  = n + Z.of_nat (length (filter (fun b => b = true) bits)).
Proof.
  revert n. induction bits as [|b bits IH]; intros n; simpl; [lia|].
  rewrite IH, filter_cons. destruct b; simpl; lia.
Qed.

Lemma get_bits_count bits : get_bits bits = Z.of_nat (length (filter (fun b => b = true) bits)).
Proof. unfold get_bits. rewrite get_bits_from. lia. Qed.

Lemma get_bits_nonneg bits : 0 <= get_bits bits.
Proof. rewrite get_bits_count. lia. Qed.

(** The committee that signs in a period, as far as the store knows it. *)
Definition signing_committee self (sig_slot : Z) (c : SyncCommittee.t) : Prop :=
  let P := calc_sync_period (BeaconBlockHeader.slot (finalized_header (store self))) in
  (calc_sync_period sig_slot = P /\ c = current_sync_committee (store self))
  \/ (calc_sync_period sig_slot = P + 1 /\ next_sync_committee (store self) = Some c).

(** A header carries the signature of the participants of a committee. *)
Definition signed self (c : SyncCommittee.t) (agg : SyncAggregate) (h : BeaconBlockHeader.t)
    (sig_slot : Z) : Prop :=
  exists pks, get_participating_keys c (sync_committee_bits agg) = Ok pks
    /\ verify_sync_committee_signture self pks h (sync_committee_signature agg) sig_slot = true.

(** The checks that the sync protocol asks for. *)
Record valid_update self (current_slot : Z) update : Prop := {
  vu_participation : exists i, sync_committee_bits (GenericUpdate.sync_aggregate update) !! i = Some true;
  vu_finalized_slot : update_finalized_slot update
    <= BeaconBlockHeader.slot (GenericUpdate.attested_header update);
  vu_attested_slot : BeaconBlockHeader.slot (GenericUpdate.attested_header update)
    < GenericUpdate.signature_slot update;
  vu_signature_slot : GenericUpdate.signature_slot update <= current_slot;
  vu_relevant :
    BeaconBlockHeader.slot (finalized_header (store self))
      < BeaconBlockHeader.slot (GenericUpdate.attested_header update)
    \/ next_sync_committee (store self) = None
       /\ is_Some (GenericUpdate.next_sync_committee update)
       /\ calc_sync_period (BeaconBlockHeader.slot (GenericUpdate.attested_header update))
          = calc_sync_period (BeaconBlockHeader.slot (finalized_header (store self)));
  vu_finality h branch :
    GenericUpdate.finalized_header update = Some h -> GenericUpdate.finality_branch update = Some branch ->
    is_finality_proof_valid (GenericUpdate.attested_header update) h branch = true;
  vu_next c branch :
    GenericUpdate.next_sync_committee update = Some c ->
    GenericUpdate.next_sync_committee_branch update = Some branch ->
    is_next_committee_proof_valid (GenericUpdate.attested_header update) c branch = true;
  vu_signed : exists c, signing_committee self (GenericUpdate.signature_slot update) c
    /\ signed self c (GenericUpdate.sync_aggregate update) (GenericUpdate.attested_header update)
         (GenericUpdate.signature_slot update);
}.

Lemma get_bits_some bits : get_bits bits <> 0 <-> exists i, bits !! i = Some true.
Proof.
  rewrite get_bits_count. split.
  - intros H. destruct (filter (fun b => b = true) bits) as [|b l] eqn:E; [done|].
    assert (Hb : b ∈ filter (fun b => b = true) bits) by (rewrite E; left).
    apply list_elem_of_filter in Hb as [-> Hb]. by apply list_elem_of_lookup_1.
  - intros [i Hi] H. apply list_elem_of_lookup_2 in Hi.
    assert (Hf : true ∈ filter (fun b => b = true) bits) by (by apply list_elem_of_filter).
    destruct (filter _ bits); [by apply elem_of_nil in Hf | simpl in H; lia].
Qed.

Lemma check_proof_spec {A} (valid : A -> list bytes -> bool) o branch :
  check_proof valid o branch = true
  <-> forall a b, o = Some a -> branch = Some b -> valid a b = true.
Proof.
  unfold check_proof. destruct o, branch; split; try done; intros H; intros; simplify_eq; auto.
Qed.

Lemma is_some_spec {A} (o : option A) : is_some o = true <-> is_Some o.
Proof. destruct o; split; try done; by intros []. Qed.

(** The choice of the committee. *)
Lemma committee_choice self sig_slot c :
  let P := calc_sync_period (BeaconBlockHeader.slot (finalized_header (store self))) in
  let S := calc_sync_period sig_slot in
  ((if is_some (next_sync_committee (store self)) then (S =? P) || (S =? P + 1) else S =? P) = true
   /\ (if S =? P then Ok (E := anyhow) (current_sync_committee (store self))
       else match next_sync_committee (store self) with Some c => Ok c | None => Panic end) = Ok c)
  <-> signing_committee self sig_slot c.
Proof.
  cbv zeta. unfold signing_committee.
  destruct (Z.eqb_spec (calc_sync_period sig_slot)
             (calc_sync_period (BeaconBlockHeader.slot (finalized_header (store self))))) as [E|E].
  - split; [intros [_ [= <-]]; by left|]. intros [[_ ->]|[? _]]; [|lia]. by destruct (is_some _).
  - destruct (next_sync_committee (store self)) as [n|] eqn:En; simpl.
    + split.
      * intros [Hp%Z.eqb_eq [= <-]]. by right.
      * intros [[? _]|[-> [= ->]]]; [done|]. by rewrite Z.eqb_refl.
    + split; [by intros [? _]|]. by intros [[? _]|[_ ?]].
Qed.

Lemma default_slot update :
  BeaconBlockHeader.slot (default BeaconBlockHeader.default (GenericUpdate.finalized_header update))
  = update_finalized_slot update.
Proof. unfold update_finalized_slot. by destruct (GenericUpdate.finalized_header update). Qed.

(** The committee that a valid update names passes the code's two tests. *)
Lemma signing_committee_ok self sig_slot c :
  signing_committee self sig_slot c ->
  (let P := calc_sync_period (BeaconBlockHeader.slot (finalized_header (store self))) in
   let S := calc_sync_period sig_slot in
   if is_some (next_sync_committee (store self)) then (S =? P) || (S =? P + 1) else S =? P) = true.
Proof. intros H. by apply committee_choice in H as [H _]. Qed.

(** Relevance, as the code tests it. *)
Lemma relevant_spec self update :
  ((BeaconBlockHeader.slot (GenericUpdate.attested_header update)
    <=? BeaconBlockHeader.slot (finalized_header (store self)))
   && negb (negb (is_some (next_sync_committee (store self)))
            && is_some (GenericUpdate.next_sync_committee update)
            && (calc_sync_period (BeaconBlockHeader.slot (GenericUpdate.attested_header update))
                =? calc_sync_period (BeaconBlockHeader.slot (finalized_header (store self)))))) = false
  <-> BeaconBlockHeader.slot (finalized_header (store self))
      < BeaconBlockHeader.slot (GenericUpdate.attested_header update)
    \/ next_sync_committee (store self) = None
       /\ is_Some (GenericUpdate.next_sync_committee update)
       /\ calc_sync_period (BeaconBlockHeader.slot (GenericUpdate.attested_header update))
          = calc_sync_period (BeaconBlockHeader.slot (finalized_header (store self))).
Proof.
  rewrite andb_false_iff, Z.leb_gt, negb_false_iff, !andb_true_iff, Z.eqb_eq, is_some_spec, negb_true_iff.
  destruct (next_sync_committee (store self)); simpl; naive_solver.
Qed.

(** The last steps: the committee, its keys and the signature. *)
Lemma signature_spec self update c :
  (let? pks := get_participating_keys c (sync_committee_bits (GenericUpdate.sync_aggregate update)) in
   if negb (verify_sync_committee_signture self pks (GenericUpdate.attested_header update)
              (sync_committee_signature (GenericUpdate.sync_aggregate update))
              (GenericUpdate.signature_slot update))
   then Err (Consensus InvalidSignature) else Ok tt) = Ok tt
  <-> signed self c (GenericUpdate.sync_aggregate update) (GenericUpdate.attested_header update)
        (GenericUpdate.signature_slot update).
Proof.
  unfold signed. rewrite bind_ok. setoid_rewrite guard_ok. setoid_rewrite negb_false_iff. naive_solver.
Qed.

Lemma verify_valid_iff self now update :
  verify_generic_update self now update = Ok tt
  <-> exists current_slot, expected_current_slot self now = Ok current_slot
      /\ valid_update self current_slot update.
Proof.
  unfold verify_generic_update. rewrite default_slot, guard_ok, Z.eqb_neq, get_bits_some. cbv zeta.
  destruct (expected_current_slot self now) as [cur| |]; [|naive_solver..].
  rewrite !guard_ok, relevant_spec, bind_ok, !negb_false_iff, !andb_true_iff, !check_proof_spec,
    !Z.leb_le, Z.ltb_lt. setoid_rewrite signature_spec. split.
  - intros (Hb & ((H1 & H2) & H3) & Hp & Hr & Hf & Hn & c & Hc & Hs). exists cur. split; [done|].
    split; try done. exists c. split; [|done]. by apply committee_choice.
  - intros (cur' & [= <-] & [Hb H1 H2 H3 Hr Hf Hn (c & Hc & Hs)]).
    apply committee_choice in Hc as [Hp Hc]. split_and!; try done. eauto.
Qed.

(** C12: Verification accepts an update exactly when it is valid: somebody signed it, its
    slots are in order and not in the future, it is relevant, its finalized header and
    its next sync committee (when they come with a branch) are proved to belong to the
    state of the attested header, and the signature is that of the committee of the
    signature slot's period, which must be the current or, once known, the next one. *)
Theorem verify_accepts_valid self now update :
  verify_generic_update self now update = Ok tt
  <-> exists current_slot, expected_current_slot self now = Ok current_slot
      /\ valid_update self current_slot update.
Proof. apply verify_valid_iff. Qed.
End Verify.
