(* ===== verification/ChainOfTrust.v ===== *)
(** * The chain of trust of the light client.

    What a store that [ConsensusClient] maintains may be relied on for: an inductive
    description of the headers and committees that follow from a checkpoint, and proofs
    that bootstrapping, synchronising and advancing never leave it, whatever the RPC
    service and the clock do. *)

From stdpp Require Import relations.
From S2P Require Import Prelude.
From S2P Require Import Distance.
From S2P Require Import Hex.
From S2P Require Import ContentKey.
From S2P Require Import LightClientTypes.
From S2P Require Import ConsensusClient.
Import ConsensusLightClient LightClientStore.

Abbreviation slot_of := BeaconBlockHeader.slot.

Section Trust.
Context `{L : ConsensusLib} `{X : HexLib} `{!HexLibOk X}.

(** ** The specification *)

Section Spec.
Variables (checkpoint : bytes) (cfg : Config.t).

(** The signature of participants of a committee, under the configuration. *)
Definition attests (c : SyncCommittee.t) (agg : SyncAggregate) (h : BeaconBlockHeader.t) (sig_slot : Z) : Prop :=
  signed (new checkpoint cfg) c agg h sig_slot.

(** Two thirds of the 512 members. *)
Definition supermajority (agg : SyncAggregate) : Prop := 512 * 2 <= get_bits (sync_committee_bits agg) * 3.

(** The committee of a period: that of the checkpoint's state, or the next committee
    named by the state of a header that two thirds of a trusted committee signed. *)
Inductive trusted_committee : Z -> SyncCommittee.t -> Prop :=
| checkpoint_committee h c branch :
    header_root h = checkpoint ->
    is_current_committee_proof_valid h c branch = true ->
    trusted_committee (calc_sync_period (slot_of h)) c
| elected_committee c n agg a sig_slot branch :
    trusted_committee (calc_sync_period sig_slot) c ->
    attests c agg a sig_slot -> supermajority agg -> slot_of a < sig_slot ->
    is_next_committee_proof_valid a n branch = true ->
    trusted_committee (calc_sync_period (slot_of a) + 1) n.

(** A finalized header: the checkpoint, or one that the state of such a header names as
    finalized. *)
Inductive trusted_finalized : BeaconBlockHeader.t -> Prop :=
| checkpoint_finalized h : header_root h = checkpoint -> trusted_finalized h
| attested_finalized c agg a sig_slot h branch :
    trusted_committee (calc_sync_period sig_slot) c ->
    attests c agg a sig_slot -> supermajority agg -> slot_of h <= slot_of a < sig_slot ->
    is_finality_proof_valid a h branch = true ->
    trusted_finalized h.

(** The head: finalized, or signed by members of a trusted committee. *)
Definition trusted_head (h : BeaconBlockHeader.t) : Prop :=
  trusted_finalized h
  \/ exists c agg sig_slot, trusted_committee (calc_sync_period sig_slot) c
       /\ attests c agg h sig_slot /\ 0 < get_bits (sync_committee_bits agg) /\ slot_of h < sig_slot.

(** What a store promises. *)
Record trusted_store (s : LightClientStore.t) : Prop := {
  ts_finalized : trusted_finalized (finalized_header s);
  ts_head : trusted_head (optimistic_header s);
  ts_current : trusted_committee (calc_sync_period (slot_of (finalized_header s))) (current_sync_committee s);
  ts_next n : next_sync_committee s = Some n ->
    trusted_committee (calc_sync_period (slot_of (finalized_header s)) + 1) n;
  ts_slot : 0 <= slot_of (finalized_header s);
}.

Record trusted_client (self : ConsensusLightClient.t) : Prop := {
  tc_checkpoint : initial_checkpoint self = checkpoint;
  tc_config : config self = cfg;
  tc_store : trusted_store (store self);
}.
End Spec.

(** ** One update *)

Lemma sync_period_mono a b : a <= b -> calc_sync_period a <= calc_sync_period b.
Proof. intros H. unfold calc_sync_period. by repeat apply Z.div_le_mono. Qed.

Lemma signed_config self self' c agg h sig_slot :
  config self = config self' -> signed self c agg h sig_slot -> signed self' c agg h sig_slot.
Proof.
  intros E (pks & H1 & H2). exists pks. split; [done|].
  unfold verify_sync_committee_signture, compute_committee_sign_root in *. by rewrite <- E.
Qed.

Lemma attests_signed checkpoint cfg self c agg h sig_slot :
  config self = cfg -> signed self c agg h sig_slot -> attests checkpoint cfg c agg h sig_slot.
Proof. intros <-. by apply signed_config. Qed.

(** The updates that the client makes: a header comes with its branch, and slots are
    unsigned. *)
Record well_formed (u : GenericUpdate.t) : Prop := {
  wf_finality : is_Some (GenericUpdate.finalized_header u) -> is_Some (GenericUpdate.finality_branch u);
  wf_next : is_Some (GenericUpdate.next_sync_committee u) ->
    is_Some (GenericUpdate.next_sync_committee_branch u);
  wf_slot h : GenericUpdate.finalized_header u = Some h -> 0 <= slot_of h;
}.

Section Step.
Context (checkpoint : bytes) (cfg : Config.t) (self : ConsensusLightClient.t) (cur : Z) (u : GenericUpdate.t).
Hypothesis Hself : trusted_client checkpoint cfg self.
Hypothesis Hu : well_formed u.
Hypothesis Hv : valid_update self cur u.

Lemma valid_signed : exists c,
  trusted_committee checkpoint cfg (calc_sync_period (GenericUpdate.signature_slot u)) c
  /\ attests checkpoint cfg c (GenericUpdate.sync_aggregate u) (GenericUpdate.attested_header u)
       (GenericUpdate.signature_slot u).
Proof.
  destruct (vu_signed _ _ _ Hv) as (c & Hc & Hs). exists c.
  destruct Hself as [_ Hcfg [_ _ Hcurrent Hnext _]]. split; [|by apply (attests_signed _ _ self)].
  destruct Hc as [[-> ->]|[-> Hc]]; [done | by apply Hnext].
Qed.

Lemma valid_head : trusted_head checkpoint cfg (GenericUpdate.attested_header u).
Proof.
  right. destruct valid_signed as (c & Hc & Hs). exists c, (GenericUpdate.sync_aggregate u),
    (GenericUpdate.signature_slot u). split_and!; [done | done | | apply (vu_attested_slot _ _ _ Hv)].
  pose proof (get_bits_nonneg (sync_committee_bits (GenericUpdate.sync_aggregate u))).
  pose proof (vu_participation _ _ _ Hv) as Hp. apply get_bits_some in Hp. lia.
Qed.

Hypothesis Hmaj : supermajority (GenericUpdate.sync_aggregate u).

Lemma valid_finalized h :
  GenericUpdate.finalized_header u = Some h -> trusted_finalized checkpoint cfg h.
Proof.
  intros Hh. destruct valid_signed as (c & Hc & Hs). pose proof (wf_finality _ Hu) as Hb.
  destruct (Hb ltac:(eauto)) as [branch Hbr].
  apply (attested_finalized _ _ c (GenericUpdate.sync_aggregate u) (GenericUpdate.attested_header u)
    (GenericUpdate.signature_slot u) h branch); [done..| |].
  - pose proof (vu_finalized_slot _ _ _ Hv) as H1. unfold update_finalized_slot in H1. rewrite Hh in H1.
    split; [done | apply (vu_attested_slot _ _ _ Hv)].
  - by apply (vu_finality _ _ _ Hv).
Qed.

Lemma valid_elected n :
  GenericUpdate.next_sync_committee u = Some n ->
  trusted_committee checkpoint cfg (calc_sync_period (slot_of (GenericUpdate.attested_header u)) + 1) n.
Proof.
  intros Hn. destruct valid_signed as (c & Hc & Hs). pose proof (wf_next _ Hu) as Hb.
  destruct (Hb ltac:(eauto)) as [branch Hbr].
  apply (elected_committee _ _ c n (GenericUpdate.sync_aggregate u) (GenericUpdate.attested_header u)
    (GenericUpdate.signature_slot u) branch); [done..| |].
  - apply (vu_attested_slot _ _ _ Hv).
  - by apply (vu_next _ _ _ Hv).
Qed.
End Step.

(** ** Applying a valid update *)

(** The first part changes the head and the counters only. *)
Lemma optimistic_part_fields self now u r self' :
  apply_optimistic_part self now u = (r, self') ->
  initial_checkpoint self' = initial_checkpoint self /\ config self' = config self
  /\ last_checkpoint self' = last_checkpoint self
  /\ finalized_header (store self') = finalized_header (store self)
  /\ current_sync_committee (store self') = current_sync_committee (store self)
  /\ next_sync_committee (store self') = next_sync_committee (store self)
  /\ (optimistic_header (store self') = optimistic_header (store self)
      \/ optimistic_header (store self') = GenericUpdate.attested_header u
         /\ slot_of (optimistic_header (store self)) < slot_of (GenericUpdate.attested_header u)).
Proof.
  unfold apply_optimistic_part. case_match eqn:E; intros [= <- <-]; simpl; [|by auto 10].
  b2p. simpl in *. auto 10.
Qed.

(** Validity does not depend on the head. *)
Lemma valid_update_frame self self' cur u :
  config self' = config self -> finalized_header (store self') = finalized_header (store self) ->
  current_sync_committee (store self') = current_sync_committee (store self) ->
  next_sync_committee (store self') = next_sync_committee (store self) ->
  valid_update self cur u -> valid_update self' cur u.
Proof.
  intros Hcfg Hf Hc Hn [H1 H2 H3 H4 H5 H6 H7 (c & Hc1 & Hc2)].
  split; rewrite ?Hf, ?Hn; try done. exists c. unfold signing_committee in *. rewrite Hf, Hc, Hn.
  split; [done | by eapply signed_config].
Qed.

Lemma optimistic_part_trusted checkpoint cfg self cur now u r self' :
  trusted_client checkpoint cfg self -> valid_update self cur u ->
  apply_optimistic_part self now u = (r, self') ->
  trusted_client checkpoint cfg self' /\ valid_update self' cur u.
Proof.
  intros Hself Hv E. pose proof (valid_head _ _ _ _ _ Hself Hv) as Hh.
  apply optimistic_part_fields in E as (E1 & E2 & _ & E3 & E4 & E5 & E6).
  split; [|by apply (valid_update_frame self)].
  destruct Hself as [H1 H2 [H3 H4 H5 H6 H7]]. split; [by rewrite E1 | by rewrite E2|].
  split; rewrite ?E3, ?E4, ?E5; try done. destruct E6 as [->|[-> _]]; done.
Qed.

(** The periods involved when an update is applied. *)
Lemma applied_periods self cur u :
  valid_update self cur u -> should_apply_update self u = true ->
  let P := calc_sync_period (slot_of (finalized_header (store self))) in
  let F := calc_sync_period (update_finalized_slot u) in
  let A := calc_sync_period (slot_of (GenericUpdate.attested_header u)) in
  match next_sync_committee (store self) with
  | None => A = P /\ (slot_of (finalized_header (store self)) < update_finalized_slot u -> F = P)
  | Some _ => slot_of (finalized_header (store self)) < update_finalized_slot u
      /\ (F = P \/ F = P + 1 /\ A = P + 1)
  end.
Proof.
  intros [_ H2 H3 _ H5 _ _ (c & Hc & _)] H. unfold should_apply_update in H. b2p. cbv zeta.
  pose proof (sync_period_mono _ _ H2). pose proof (sync_period_mono _ _ (Z.lt_le_incl _ _ H3)).
  unfold signing_committee in Hc. destruct (next_sync_committee (store self)) as [n|]; simpl in *.
  - rewrite orb_false_r in *. b2p. split; [done|].
    match goal with H : _ < update_finalized_slot u |- _ =>
      pose proof (sync_period_mono _ _ (Z.lt_le_incl _ _ H)) end.
    destruct Hc as [[? _]|[? _]]; lia.
  - destruct Hc as [[HS _]|[_ [=]]]. destruct H5 as [H5|(_ & _ & H5)].
    + pose proof (sync_period_mono _ _ (Z.lt_le_incl _ _ H5)). split; [lia|].
      intros Hnew. pose proof (sync_period_mono _ _ (Z.lt_le_incl _ _ Hnew)). lia.
    + split; [done|]. intros Hnew. pose proof (sync_period_mono _ _ (Z.lt_le_incl _ _ Hnew)). lia.
Qed.

(** The second part moves the finalized header, and the head if it falls behind. *)
Lemma finality_part_fields self now u r self' :
  apply_finality_part self now u = (r, self') ->
  initial_checkpoint self' = initial_checkpoint self /\ config self' = config self
  /\ current_sync_committee (store self') = current_sync_committee (store self)
  /\ next_sync_committee (store self') = next_sync_committee (store self)
  /\ (optimistic_header (store self') = optimistic_header (store self)
      \/ optimistic_header (store self') = finalized_header (store self')
         /\ slot_of (optimistic_header (store self)) < slot_of (finalized_header (store self')))
  /\ (self' = self
         /\ (update_finalized_slot u <= slot_of (finalized_header (store self))
             \/ slot_of (finalized_header (store self)) < 0)
      \/ GenericUpdate.finalized_header u = Some (finalized_header (store self'))
         /\ slot_of (finalized_header (store self)) < slot_of (finalized_header (store self'))
         /\ (r = Ok tt -> slot_of (finalized_header (store self')) <= slot_of (optimistic_header (store self')))).
Proof.
  unfold apply_finality_part, update_finalized_slot.
  destruct (Z.ltb_spec (slot_of (finalized_header (store self)))
    match GenericUpdate.finalized_header u with Some h => slot_of h | None => 0 end) as [Hlt|Hge];
    [|intros [= <- <-]; by auto 10].
  destruct (GenericUpdate.finalized_header u) as [h|]; intros E;
    [|injection E as <- <-; split_and!; auto; by left].
  destruct (log_finality_update _ now); [|injection E as <- <-; simpl; split_and!; auto; by right..].
  destruct (_ mod 32 =? 0); simpl in E;
    destruct (Z.ltb_spec (slot_of (optimistic_header (store self))) (slot_of h));
    injection E as <- <-; simpl; split_and!; auto; right; split_and!; auto; lia.
Qed.

(** The committees after a rotation. *)
Lemma rotate_fields self u self' :
  rotate_committees self u = Ok self' ->
  initial_checkpoint self' = initial_checkpoint self /\ config self' = config self
  /\ finalized_header (store self') = finalized_header (store self)
  /\ optimistic_header (store self') = optimistic_header (store self)
  /\ match next_sync_committee (store self) with
     | None => current_sync_committee (store self') = current_sync_committee (store self)
         /\ next_sync_committee (store self') = GenericUpdate.next_sync_committee u
     | Some n =>
         if calc_sync_period (update_finalized_slot u)
            =? calc_sync_period (slot_of (finalized_header (store self))) + 1
         then current_sync_committee (store self') = n
              /\ next_sync_committee (store self') = GenericUpdate.next_sync_committee u
         else self' = self
     end.
Proof.
  unfold rotate_committees. repeat case_match; intros [= <-]; simpl; auto 10.
Qed.

Lemma should_apply_supermajority self u :
  should_apply_update self u = true -> supermajority (GenericUpdate.sync_aggregate u).
Proof. unfold should_apply_update. intros H. b2p. done. Qed.

(** The committees fit the finalized header again at the end. *)
Lemma rotated_committees checkpoint cfg self cur now u self1 r self' :
  trusted_client checkpoint cfg self -> well_formed u -> valid_update self cur u ->
  should_apply_update self u = true -> rotate_committees self u = Ok self1 ->
  apply_finality_part self1 now u = (r, self') ->
  let P := calc_sync_period (slot_of (finalized_header (store self'))) in
  trusted_committee checkpoint cfg P (current_sync_committee (store self'))
  /\ forall n, next_sync_committee (store self') = Some n -> trusted_committee checkpoint cfg (P + 1) n.
Proof.
  intros Hself Hu Hv Happ Hrot Hfin. cbv zeta.
  pose proof (should_apply_supermajority _ _ Happ) as Hmaj.
  pose proof (valid_elected _ _ _ _ _ Hself Hu Hv Hmaj) as HN.
  pose proof (applied_periods _ _ _ Hv Happ) as HP. cbv zeta in HP.
  apply rotate_fields in Hrot as (_ & _ & E3 & _ & E5).
  apply finality_part_fields in Hfin as (_ & _ & F3 & F4 & _ & F6).
  destruct Hself as [_ _ [_ _ H5 H6 H7]]. rewrite F3, F4, E3 in *. unfold update_finalized_slot in *.
  destruct (next_sync_committee (store self)) as [n|] eqn:En; destruct HP as [HP1 HP2].
  - destruct F6 as [[_ [?|?]]|(Hf & Hlt & _)]; [lia..|]. rewrite Hf in *.
    destruct HP2 as [HP2|[HP2 HP3]].
    + rewrite HP2 in *. rewrite (proj2 (Z.eqb_neq _ _)) in E5 by lia. rewrite E5, En. auto.
    + rewrite HP2, HP3 in *. rewrite Z.eqb_refl in E5. destruct E5 as [-> ->]. auto.
  - destruct E5 as [-> ->]. rewrite HP1 in HN.
    destruct F6 as [[-> _]|(Hf & Hlt & _)]; [by rewrite E3|]. rewrite Hf in HP2. by rewrite (HP2 Hlt).
Qed.

Lemma finality_trusted checkpoint cfg self cur now u self1 r self' :
  trusted_client checkpoint cfg self -> well_formed u -> valid_update self cur u ->
  should_apply_update self u = true -> rotate_committees self u = Ok self1 ->
  apply_finality_part self1 now u = (r, self') ->
  trusted_client checkpoint cfg self'.
Proof.
  intros Hself Hu Hv Happ Hrot Hfin.
  pose proof (valid_finalized _ _ _ _ _ Hself Hu Hv (should_apply_supermajority _ _ Happ)) as HF.
  destruct (rotated_committees _ _ _ _ _ _ _ _ _ Hself Hu Hv Happ Hrot Hfin) as [HC HN].
  apply rotate_fields in Hrot as (E1 & E2 & E3 & E4 & _).
  apply finality_part_fields in Hfin as (F1 & F2 & _ & _ & F5 & F6).
  destruct Hself as [H1 H2 [H3 H4 _ _ H7]]. rewrite E3 in F6.
  assert (Hh : trusted_finalized checkpoint cfg (finalized_header (store self'))).
  { destruct F6 as [[-> _]|[? _]]; [by rewrite E3 | by apply HF]. }
  split; [congruence.. |]. split; [done | | done | done |].
  - destruct F5 as [->|[-> _]]; [by rewrite E4 | by left].
  - destruct F6 as [[-> _]|[? _]]; [by rewrite E3 | by apply (wf_slot _ Hu)].
Qed.

Lemma apply_trusted checkpoint cfg self cur now now' u r self' :
  trusted_client checkpoint cfg self -> well_formed u -> valid_update self cur u ->
  apply_generic_update self now now' u = (r, self') ->
  trusted_client checkpoint cfg self'.
Proof.
  intros Hself Hu Hv E. unfold apply_generic_update in E.
  destruct (apply_optimistic_part self now u) as [r1 self1] eqn:E1.
  destruct (optimistic_part_trusted _ _ _ _ _ _ _ _ Hself Hv E1) as [H1 Hv1].
  destruct r1; [|by injection E as <- <-..].
  destruct (should_apply_update self1 u) eqn:Happ; [|by injection E as <- <-].
  destruct (rotate_committees self1 u) as [self2| |] eqn:Hrot; [|by injection E as <- <-..].
  by eapply finality_trusted.
Qed.

Lemma hex_encode_inj (a b : bytes) : hex_encode a = hex_encode b -> a = b.
Proof.
  intros H. apply (f_equal hex_decode) in H. rewrite !hex_decode_encode in H. by injection H.
Qed.

Lemma accept_bootstrap_trusted self now b self' :
  0 <= slot_of (beacon (LightClientBootstrap.header b)) ->
  accept_bootstrap self now b = Ok self' ->
  trusted_client (initial_checkpoint self) (config self) self'.
Proof.
  unfold accept_bootstrap. intros Hslot H. apply bind_ok in H as (valid & _ & H).
  rewrite !guard_ok, !negb_false_iff, bool_decide_eq_true in H.
  destruct H as (_ & Hhash%hex_encode_inj & Hc & [= <-]). split; [done..|]. simpl.
  assert (Hf : trusted_finalized (initial_checkpoint self) (config self)
                 (beacon (LightClientBootstrap.header b))) by (by apply checkpoint_finalized).
  split; simpl; [done | by left | by eapply checkpoint_committee | done | done].
Qed.
End Trust.

(** ** Progress and order *)

Section Progress.
Context `{L : ConsensusLib}.
Implicit Types (self : ConsensusLightClient.t) (u : GenericUpdate.t).

(** The age of a slot that has passed is defined. *)
Lemma age_ok self now0 now cur slot :
  0 <= genesis_time_of self -> expected_current_slot self now0 = Ok cur ->
  0 <= slot <= cur -> now0 <= now <= MAX_DURATION_SECS -> exists a, age self now slot = Ok a.
Proof.
  unfold expected_current_slot, age, duration_sub, slot_timestamp, MAX_DURATION_SECS. intros Hg Hcur Hs Hn.
  destruct (Z.ltb_spec now0 (genesis_time_of self)); [done|]. injection Hcur as <-.
  assert (Hle : slot * 12 + genesis_time_of self <= now0).
  { pose proof (Z.mul_div_le (now0 - genesis_time_of self) 12). lia. }
  rewrite wrap64_small by (unfold is_u64, U64_MOD; lia).
  rewrite (proj2 (Z.ltb_ge _ _)) by lia. rewrite (proj2 (Z.ltb_ge _ _)) by lia. eauto.
Qed.

(** The clock when an update is applied, after it was verified. *)
Record clock_ok self (cur now now' : Z) : Prop := {
  clk_genesis : 0 <= genesis_time_of self;
  clk_verified : exists now0, expected_current_slot self now0 = Ok cur /\ now0 <= now /\ now0 <= now';
  clk_range : now <= MAX_DURATION_SECS /\ now' <= MAX_DURATION_SECS;
}.

Lemma optimistic_part_ok self cur now now' u :
  valid_update self cur u -> well_formed u -> 0 <= slot_of (GenericUpdate.attested_header u) ->
  clock_ok self cur now now' -> (apply_optimistic_part self now u).1 = Ok tt.
Proof.
  intros Hv _ Ha [Hg (now0 & Hcur & Hn & _) Hr]. unfold apply_optimistic_part. case_match; [|done]. simpl.
  pose proof (vu_attested_slot _ _ _ Hv). pose proof (vu_signature_slot _ _ _ Hv).
  unfold log_optimistic_update. cbn [store set_store optimistic_header set_optimistic].
  match goal with |- context [age ?s now ?x] =>
    destruct (age_ok s now0 now cur x Hg Hcur) as [a ->]; [lia..|done] end.
Qed.

Lemma finality_part_ok self cur now now' u :
  (update_finalized_slot u <= cur) -> well_formed u -> 0 <= slot_of (finalized_header (store self)) ->
  clock_ok self cur now now' -> (apply_finality_part self now' u).1 = Ok tt.
Proof.
  intros Hle Hu Hs [Hg (now0 & Hcur & _ & Hn) Hr]. unfold apply_finality_part, update_finalized_slot in *.
  destruct (GenericUpdate.finalized_header u) as [h|] eqn:Eh;
    destruct (Z.ltb_spec (slot_of (finalized_header (store self))) (default 0 (slot_of <$> GenericUpdate.finalized_header u)))
    as [Hlt|Hge]; rewrite Eh in *; simpl in *; [|by rewrite (proj2 (Z.ltb_ge _ _)) by lia|lia|by rewrite (proj2 (Z.ltb_ge _ _)) by lia].
  rewrite (proj2 (Z.ltb_lt _ _)) by lia.
  pose proof (wf_slot _ Hu h Eh).
  unfold log_finality_update. cbn [store set_store finalized_header set_finalized].
  match goal with |- context [age ?s now' ?x] =>
    destruct (age_ok s now0 now' cur x Hg Hcur) as [a ->]; [lia..|done] end.
Qed.

(** C29: Applying an update that was just verified never fails, and the client only moves
    forward: the finalized header and the head never go back to an earlier slot, and
    the head stays at or after the finalized header. *)
Theorem apply_progress self cur now now' u :
  valid_update self cur u -> well_formed u -> 0 <= slot_of (GenericUpdate.attested_header u) ->
  0 <= slot_of (finalized_header (store self)) <= slot_of (optimistic_header (store self)) ->
  clock_ok self cur now now' ->
  exists self', apply_generic_update self now now' u = (Ok tt, self')
    /\ slot_of (finalized_header (store self)) <= slot_of (finalized_header (store self'))
    /\ slot_of (optimistic_header (store self)) <= slot_of (optimistic_header (store self'))
    /\ slot_of (finalized_header (store self')) <= slot_of (optimistic_header (store self')).
Proof.
  intros Hv Hu Ha Hs Hc. unfold apply_generic_update.
  pose proof (optimistic_part_ok _ _ _ _ _ Hv Hu Ha Hc) as H1.
  destruct (apply_optimistic_part self now u) as [r1 self1] eqn:E1. simpl in H1. subst r1.
  pose proof (optimistic_part_fields _ _ _ _ _ E1) as (_ & F2 & _ & F3 & _ & _ & F4).
  assert (Ho : slot_of (optimistic_header (store self)) <= slot_of (optimistic_header (store self1)))
    by (destruct F4 as [->|[-> ?]]; lia).
  destruct (should_apply_update self1 u); [|exists self1; rewrite F3; split_and!; [done|lia..]].
  destruct (rotate_committees self1 u) as [self2| |] eqn:E2;
    [|unfold rotate_committees in E2; repeat case_match; done..].
  apply rotate_fields in E2 as (_ & G2 & G3 & G4 & _).
  pose proof (vu_finalized_slot _ _ _ Hv). pose proof (vu_attested_slot _ _ _ Hv).
  pose proof (vu_signature_slot _ _ _ Hv).
  assert (Hc2 : clock_ok self2 cur now now').
  { unfold genesis_time_of in *. destruct Hc as [Hg Hk Hr]. unfold expected_current_slot, genesis_time_of in *.
    split; unfold expected_current_slot, genesis_time_of; rewrite ?G2, ?F2; done. }
  pose proof (finality_part_ok self2 cur now now' u) as H2. rewrite G3, F3 in H2.
  specialize (H2 ltac:(lia) Hu ltac:(lia) Hc2).
  destruct (apply_finality_part self2 now' u) as [r3 self3] eqn:E3. simpl in H2. subst r3.
  exists self3. split; [done|].
  apply finality_part_fields in E3 as (_ & _ & _ & _ & K1 & K2). rewrite G3, F3 in K2. rewrite G4 in K1.
  destruct K2 as [[-> _]|(_ & K2 & K3)]; [rewrite G3, F3, G4; lia|]. specialize (K3 eq_refl).
  destruct K1 as [K1|[K1 ?]]; rewrite K1 in *; lia.
Qed.

(** The next update is due 4 seconds into the next slot: between 5 and 16 seconds
    from now (if the clock does not jump between its two readings), so the conversion
    of the duration never fails. *)
Theorem next_update_schedule self now :
  0 <= genesis_time_of self <= now -> now < 2 ^ 62 ->
  exists d, duration_until_next_update self now now = Ok d /\ 5 <= d <= 16
    /\ (now + d - genesis_time_of self) mod 12 = 4.
Proof.
  intros Hg Hn. unfold duration_until_next_update, expected_current_slot, duration_sub, slot_timestamp.
  rewrite (proj2 (Z.ltb_ge _ _)) by lia. simpl. set (g := genesis_time_of self) in *.
  pose proof (Z.div_mod (now - g) 12 ltac:(lia)) as Hd. pose proof (Z.mod_pos_bound (now - g) 12 ltac:(lia)).
  set (q := (now - g) / 12) in *. set (m := (now - g) mod 12) in *.
  assert (Hb : (q + 1) * 12 + g = now + 12 - m) by lia. rewrite Hb.
  rewrite (wrap64_small (now + 12 - m)) by (unfold is_u64, U64_MOD; lia).
  replace (now + 12 - m - now) with (12 - m) by lia.
  rewrite !wrap64_small by (unfold is_u64, U64_MOD; rewrite ?wrap64_small; unfold is_u64, U64_MOD; lia).
  eexists. split; [done|]. split; [lia|].
  replace (now + (12 - m + 4) - g) with (4 + (q + 1) * 12) by lia. by rewrite Z.mod_add by lia.
Qed.
End Progress.

(** ** All of the client's operations *)

(** Slots in the replies of a service are unsigned integers. *)
Class ConsensusRpcTyped (W : Type) `{R : ConsensusRpc W} : Prop := {
  bootstrap_slot root w b w' :
    get_bootstrap root w = (Ok b, w') -> 0 <= slot_of (beacon (LightClientBootstrap.header b));
  updates_slot p n w us w' :
    get_updates p n w = (Ok us, w') ->
    Forall (fun u => 0 <= slot_of (beacon (LightClientUpdate.finalized_header u))) us;
  finality_slot w u w' :
    get_finality_update w = (Ok u, w') -> 0 <= slot_of (beacon (LightClientFinalityUpdate.finalized_header u));
}.

Section Effects.
Context `{L : ConsensusLib} `{X : HexLib} `{!HexLibOk X} {W : Type} `{R : ConsensusRpc W}.

Lemma keeps_clock P : keeps P (read_clock (W := W)) (fun _ => True).
Proof. intros self w r self' w' HP. unfold read_clock. destruct (clock w). intros [= <- <- <-]. auto. Qed.

Section Run.
Context (checkpoint : bytes) (cfg : Config.t).
Let P := trusted_client checkpoint cfg.

(** Both forms verify and apply in the same state. *)
Lemma verify_and_apply_cases u self w :
  exists now now1 now2 w1 w2 w3,
  match verify_generic_update self now u with
  | Ok _ =>
      let '(r, self') := apply_generic_update self now1 now2 u in
      verify_and_apply u (self, w) = (r, (self', w3)) /\ apply_if_valid u (self, w) = (r, (self', w3))
  | Err e => verify_and_apply u (self, w) = (Err e, (self, w1))
             /\ apply_if_valid u (self, w) = (Ok tt, (self, w2))
  | Panic => verify_and_apply u (self, w) = (Panic, (self, w1))
             /\ apply_if_valid u (self, w) = (Panic, (self, w2))
  end.
Proof.
  unfold verify_and_apply, apply_if_valid, bind, read_clock, gets, lift, update_self, ret.
  destruct (clock w) as [now w1]. destruct (clock w1) as [now1 w2] eqn:E1.
  destruct (clock w2) as [now2 w3] eqn:E2.
  exists now, now1, now2, w1, w1, w3. simpl.
  destruct (verify_generic_update self now u); simpl; [|done..].
  rewrite E1, E2. by destruct (apply_generic_update self now1 now2 u).
Qed.

Lemma verify_and_apply_keeps u :
  well_formed u ->
  keeps P (verify_and_apply (W := W) u) (fun _ => True) /\ keeps P (apply_if_valid (W := W) u) (fun _ => True).
Proof.
  intros Hu. split; intros self w r self' w' HP E;
    destruct (verify_and_apply_cases u self w) as (now & now1 & now2 & w1 & w2 & w3 & H);
    (destruct (verify_generic_update self now u) as [[]| |] eqn:Ev;
      [apply verify_valid_iff in Ev as (cur & _ & Hv);
       destruct (apply_generic_update self now1 now2 u) as [r1 self1] eqn:Ea; destruct H as [H1 H2];
       rewrite E in *; simplify_eq; split; [by eapply apply_trusted|done]
      |destruct H; rewrite E in *; by simplify_eq..]).
Qed.

Context `{!ConsensusRpcTyped W}.

Lemma from_update_wf u :
  0 <= slot_of (beacon (LightClientUpdate.finalized_header u)) -> well_formed (GenericUpdate.from_update u).
Proof. intros H. split; simpl; [by eexists..|]. by intros h [= <-]. Qed.

Lemma from_finality_wf u :
  0 <= slot_of (beacon (LightClientFinalityUpdate.finalized_header u)) ->
  well_formed (GenericUpdate.from_finality_update u).
Proof. intros H. split; simpl; [by eexists|by intros []|]. by intros h [= <-]. Qed.

Lemma from_optimistic_wf u : well_formed (GenericUpdate.from_optimistic_update u).
Proof. split; simpl; [by intros []..|done]. Qed.

Abbreviation typed_updates :=
  (Forall (fun u => 0 <= slot_of (beacon (LightClientUpdate.finalized_header u)))).

Lemma apply_all_keeps us : typed_updates us -> keeps P (apply_all (W := W) us) (fun _ => True).
Proof.
  induction 1 as [|u us Hu _ IH]; simpl; [by apply keeps_ret|].
  eapply keeps_bind; [by apply (verify_and_apply_keeps _ (from_update_wf u Hu))|]. by intros.
Qed.

Lemma fetch_periods_keeps ps us :
  typed_updates us -> keeps P (fetch_periods (W := W) ps us) typed_updates.
Proof.
  revert us. induction ps as [|p ps IH]; intros us Hus; simpl; [by apply keeps_ret|].
  eapply keeps_bind; [apply keeps_call; intros ? ? ?; apply updates_slot|].
  intros us' Hus'. apply IH. by apply Forall_app.
Qed.

Lemma fetch_updates_keeps p : keeps P (fetch_updates (W := W) p) typed_updates.
Proof.
  unfold fetch_updates. case_bool_decide.
  - eapply keeps_bind; [apply keeps_clock|]. intros now _.
    eapply keeps_bind; [by apply (keeps_lift _ _ (fun _ => True))|]. intros slot _.
    by apply fetch_periods_keeps.
  - apply keeps_call. intros ? ? ?. apply updates_slot.
Qed.

Lemma latest_updates_keeps : keeps P (latest_updates (W := W)) (fun _ => True).
Proof.
  unfold latest_updates.
  eapply keeps_bind; [apply keeps_attempt, keeps_call; intros ? ? ?; apply finality_slot|].
  intros fu Hfu. eapply (keeps_bind _ _ (fun _ => True)).
  - destruct fu; [|by apply keeps_ret..]. apply verify_and_apply_keeps. auto using from_finality_wf.
  - intros _ _. eapply keeps_bind; [by apply (keeps_call _ _ (fun _ => True))|]. intros ou _.
    apply verify_and_apply_keeps. apply from_optimistic_wf.
Qed.

Lemma advance_keeps : keeps P (advance (W := W)) (fun _ => True).
Proof.
  unfold advance. eapply keeps_bind; [apply latest_updates_keeps|]. intros _ _.
  eapply keeps_bind; [apply keeps_gets|]. intros [n|] _; [by apply keeps_ret|].
  eapply keeps_bind; [apply keeps_gets|]. intros p _.
  eapply keeps_bind; [apply keeps_call; intros ? ? ?; apply updates_slot|].
  intros [|u [|]] Hus; [by apply keeps_ret| |by apply keeps_ret].
  apply Forall_cons in Hus as [Hu _]. by apply verify_and_apply_keeps, from_update_wf.
Qed.

(** Bootstrapping establishes trust, or changes nothing. *)
Lemma bootstrap_spec self w r self' w' :
  initial_checkpoint self = checkpoint -> config self = cfg ->
  bootstrap (self, w) = (r, (self', w')) ->
  if is_ok r then P self' else self' = self.
Proof.
  intros Hc Hcfg. unfold bootstrap, bind, attempt, gets, call, read_clock, lift, update_self.
  destruct (get_bootstrap (initial_checkpoint self) w) as [[b| |] w1] eqn:Eb; simpl; [|by intros [= <- <- <-]..].
  destruct (clock w1) as [now w2]. simpl.
  destruct (accept_bootstrap self now b) as [self1| |] eqn:E; simpl; intros [= <- <- <-]; [|done..].
  subst. unfold P. eapply accept_bootstrap_trusted; [|done]. by eapply bootstrap_slot.
Qed.

Lemma sync_rest_keeps :
  keeps P (bind (gets (fun self => calc_sync_period (slot_of (get_finalized_header self)))) (fun p =>
    bind (fetch_updates (W := W) p) (fun us => bind (apply_all us) (fun _ => latest_updates)))) (fun _ => True).
Proof.
  eapply keeps_bind; [apply keeps_gets|]. intros p _.
  eapply keeps_bind; [apply fetch_updates_keeps|]. intros us Hus.
  eapply keeps_bind; [by apply apply_all_keeps|]. intros _ _. apply latest_updates_keeps.
Qed.

Lemma sync_spec self w r self' w' :
  initial_checkpoint self = checkpoint -> config self = cfg ->
  sync (self, w) = (r, (self', w')) -> (is_ok r = true \/ P self) -> P self'.
Proof.
  intros Hc Hcfg E Hr. unfold sync, bind at 1 in E.
  destruct (bootstrap (self, w)) as [r1 [self1 w1]] eqn:Eb.
  pose proof (bootstrap_spec _ _ _ _ _ Hc Hcfg Eb) as Hb.
  destruct r1; simpl in Hb.
  - by eapply sync_rest_keeps in E as [? _].
  - injection E as <- <- <-. subst. by destruct Hr.
  - injection E as <- <- <-. subst. by destruct Hr.
Qed.

(** Whatever its outcome, a client keeps its checkpoint and configuration. *)
Lemma sync_same self w r self' w' :
  initial_checkpoint self = checkpoint -> config self = cfg ->
  sync (self, w) = (r, (self', w')) -> initial_checkpoint self' = checkpoint /\ config self' = cfg.
Proof.
  intros Hc Hcfg E. unfold sync, bind at 1 in E.
  destruct (bootstrap (self, w)) as [r1 [self1 w1]] eqn:Eb.
  pose proof (bootstrap_spec _ _ _ _ _ Hc Hcfg Eb) as Hb.
  destruct r1; simpl in Hb.
  - eapply sync_rest_keeps in E as [Ht _]; [|done]. by split; apply Ht.
  - injection E as <- <- <-. by subst.
  - injection E as <- <- <-. by subst.
Qed.
End Run.

(** The steps of a node: it synchronises or advances, with any outcome. *)
Inductive step : ConsensusLightClient.t * W -> ConsensusLightClient.t * W -> Prop :=
| step_sync s r s' : sync s = (r, s') -> step s s'
| step_advance s r s' : advance s = (r, s') -> step s s'.

(** C1: The light client stays on the chain of trust.  Once a client has synchronised,
    however often it synchronises and advances afterwards, with whatever replies, errors
    and panics: its finalized header is the checkpoint or was finalized by two thirds of
    a trusted committee, its head is finalized or signed by members of a trusted
    committee, and the committees it holds are the trusted ones of the period of its
    finalized header and of the next; where the committee of a period is trusted if the
    checkpoint's state names it, or the state of a header that two thirds of the trusted
    committee of the signature's period signed. *)
Theorem chain_of_trust `{!ConsensusRpcTyped W} checkpoint cfg w s s' :
  sync (new checkpoint cfg, w) = (Ok tt, s) -> rtc step s s' ->
  trusted_store checkpoint cfg (store s'.1).
Proof.
  intros H0 Hs. assert (H : trusted_client checkpoint cfg s.1).
  { destruct s as [self w1]. simpl. eapply (sync_spec checkpoint cfg); [..|exact H0|by left]; done. }
  clear H0. induction Hs as [s|s1 s2 s3 H12 _ IH]; [apply H|]. apply IH. clear IH.
  destruct s1 as [self1 w1]. destruct s2 as [self2 w2]. simpl in *. inversion H12 as [? r ? E|? r ? E]; subst.
  - destruct H as [Hc Hcfg Hst]. eapply (sync_spec checkpoint cfg); [done..|exact E|by right].
  - by eapply advance_keeps in E as [? _].
Qed.
End Effects.

(** ** Proofs of membership *)

(** The root that a leaf and a branch lead to. *)
Fixpoint branch_root `{HashLib} (value : bytes) (branch : list bytes) (depth : nat) (index : Z)
    {struct depth} : option bytes :=
  match depth with
  | O => Some value
  | S depth =>
      match branch with
      | [] => None
      | node :: branch =>
          branch_root (sha256 (if Z.odd index then node ++ value else value ++ node)) branch depth (index / 2)
      end
  end.

(** What the crates document: a branch is valid when it leads to the root, roots have 32
    bytes and a vector of 32 bytes is kept as it is. *)
Class ConsensusLibOk `{HL : HashLib} (L : ConsensusLib) : Prop := {
  merkle_branch_spec leaf branch depth index root :
    is_valid_merkle_branch leaf branch depth index root = true
    <-> branch_root leaf branch depth index = Some root;
  header_root_b32 h : is_b32 (header_root h);
  committee_root_b32 c : is_b32 (committee_root c);
}.

(** The strings that are hashed for two leaves with their branches, level by level. *)
Definition branch_step (value node : bytes) (index : Z) : bytes := if Z.odd index then node ++ value else value ++ node.

Fixpoint branch_pairs `{HashLib} (value value' : bytes) (branch branch' : list bytes) (depth : nat) (index : Z)
    {struct depth} : list (bytes * bytes) :=
  match depth, branch, branch' with
  | S depth, node :: branch, node' :: branch' =>
      let x := branch_step value node index in
      let x' := branch_step value' node' index in
      (x, x') :: branch_pairs (sha256 x) (sha256 x') branch branch' depth (index / 2)
  | _, _, _ => []
  end.

Section Membership.
Context `{HL : HashLib} `{!HashLibOk HL} {L : ConsensusLib} `{!ConsensusLibOk L}.

Lemma branch_root_inj depth : forall v v' branch branch' index root,
  is_b32 v -> is_b32 v' -> Forall is_b32 branch -> Forall is_b32 branch' ->
  branch_root v branch depth index = Some root -> branch_root v' branch' depth index = Some root ->
  v = v' \/ collides sha256 (branch_pairs v v' branch branch' depth index).
Proof.
  induction depth as [|d IH]; intros v v' branch branch' index root Hv Hv' Hb Hb'; cbn [branch_root branch_pairs].
  { intros [= ->] [= ->]. by left. }
  destruct branch as [|n branch]; [done|]. destruct branch' as [|n' branch']; [done|].
  apply Forall_cons in Hb as [Hn Hb]. apply Forall_cons in Hb' as [Hn' Hb'].
  fold (branch_step v n index) (branch_step v' n' index). intros E E'.
  destruct (IH _ _ _ _ _ _ (sha256_b32 _) (sha256_b32 _) Hb Hb' E E') as [Hs|Hc];
    [|right; by apply (collides_app_r _ [_])].
  apply collides_pair in Hs as [Ha|Hc]; [left|right; by apply (collides_app_l _ [_])].
  unfold is_b32, branch_step in *. destruct (Z.odd index); apply app_inj_1 in Ha as [??]; congruence.
Qed.

Lemma branch_nodes_b32 branch nodes : branch_to_nodes branch = Some nodes -> Forall is_b32 nodes.
Proof.
  intros H%mapM_Some_1. induction H as [|x y l k Hx _ IH]; constructor; [|done].
  unfold bytes32_to_node in Hx. destruct (Nat.eqb_spec (length x) 32); [|done]. by injection Hx as <-.
Qed.

(** The pairs of strings that are hashed when two proofs are checked, read as the code
    reads the branches. *)
Definition proofs_pairs (leaf leaf' : bytes) (branch branch' : list bytes) (depth : nat) (index : Z) : list (bytes * bytes) :=
  match branch_to_nodes branch, branch_to_nodes branch' with
  | Some ns, Some ns' => branch_pairs leaf leaf' ns ns' depth index
  | _, _ => []
  end.

Lemma proof_valid_inj h leaf leaf' branch branch' depth index :
  is_b32 leaf -> is_b32 leaf' ->
  is_proof_valid h leaf branch depth index = true -> is_proof_valid h leaf' branch' depth index = true ->
  leaf = leaf' \/ collides sha256 (proofs_pairs leaf leaf' branch branch' depth index).
Proof.
  intros Hl Hl'. unfold is_proof_valid, proofs_pairs. destruct (bytes32_to_node _) as [root|]; [simpl|done].
  destruct (branch_to_nodes branch) as [ns|] eqn:E; [simpl|done].
  destruct (branch_to_nodes branch') as [ns'|] eqn:E'; [simpl|done].
  intros H%merkle_branch_spec H'%merkle_branch_spec.
  eapply (branch_root_inj depth leaf leaf' ns ns' index root); eauto using branch_nodes_b32.
Qed.

(** A signed header determines what it vouches for: two finalized headers, two next
    committees or two current committees proved against the same header have the same
    hash tree root, unless two strings hashed at one level of the two proofs are a
    collision of SHA-256. *)
Theorem attested_unique a :
  let nodes := map bytes_to_bytes32 in
  (forall h h' b b', is_finality_proof_valid a h b = true -> is_finality_proof_valid a h' b' = true ->
     header_root h = header_root h' \/ collides sha256 (proofs_pairs (header_root h) (header_root h') (nodes b) (nodes b') 6 41))
  /\ (forall c c' b b', is_next_committee_proof_valid a c b = true -> is_next_committee_proof_valid a c' b' = true ->
     committee_root c = committee_root c' \/ collides sha256 (proofs_pairs (committee_root c) (committee_root c') (nodes b) (nodes b') 5 23))
  /\ (forall c c' b b', is_current_committee_proof_valid a c b = true -> is_current_committee_proof_valid a c' b' = true ->
     committee_root c = committee_root c' \/ collides sha256 (proofs_pairs (committee_root c) (committee_root c') (nodes b) (nodes b') 5 22)).
Proof.
  intros nodes. split_and!; intros x x' b b'; apply proof_valid_inj; (apply header_root_b32 || apply committee_root_b32).
Qed.
End Membership.

(** ** The theorems at work *)

#[local] Existing Instances toy_hex toy_hex_ok toy_hashes toy_hashes_ok.

(** A stand-in for the crates: a header's root is its body root, a committee's its padded
    aggregate key, a signature is valid when it repeats the message. *)
Definition pad32 (b : bytes) : bytes := take 32 (b ++ replicate 32 x00).

#[global] Instance toy_consensus : ConsensusLib := {|
  header_root h := pad32 (BeaconBlockHeader.body_root h);
  committee_root c := pad32 (SyncCommittee.aggregate_pubkey c);
  vector_from_iter n b := b;
  is_valid_merkle_branch leaf branch depth index root :=
    bool_decide (branch_root leaf branch depth index = Some root);
  signing_data_root r d := Some r;
  fork_data_root v g := Some (pad32 v);
  PublicKey := bytes;
  pk_from_bytes_unchecked b := Some b;
  AggregateSignature := bytes;
  sig_from_bytes b := Some b;
  fast_aggregate_verify sig msg pks := bool_decide (sig = msg) && (0 <? length pks)%nat;
|}.

Lemma pad32_b32 b : is_b32 (pad32 b).
Proof. unfold is_b32, pad32. rewrite length_take, length_app, length_replicate. lia. Qed.

#[global] Instance toy_consensus_ok : ConsensusLibOk toy_consensus.
Proof.
  split; [|intros; apply pad32_b32..]. intros. cbn [is_valid_merkle_branch toy_consensus].
  by rewrite bool_decide_eq_true.
Qed.

Definition toy_header (slot : Z) (tag : byte) : BeaconBlockHeader.t :=
  BeaconBlockHeader.mk slot 0 (replicate 32 x00) (replicate 32 tag) (replicate 32 tag).

Definition toy_committee (tag : byte) : SyncCommittee.t :=
  SyncCommittee.mk (replicate 512 [tag]) [tag].

Definition toy_execution : ExecutionPayloadHeaderCapella :=
  {| payload_header :=
       {| parent_hash := []; fee_recipient := []; exec_state_root := []; receipts_root := []; logs_bloom := [];
          prev_randao := []; block_number := 0; gas_limit := 0; gas_used := 0; timestamp := 0; extra_data := [];
          base_fee_per_gas := 0; exec_block_hash := []; transactions_root := [] |};
     withdrawals_root := [] |}.

Definition lc_header (h : BeaconBlockHeader.t) : LightClientHeaderCapella :=
  {| beacon := h; execution := toy_execution; execution_branch := [] |}.

Definition toy_config : Config.t :=
  Config.mk [] None (replicate 32 x01) None None (BaseConfig.chain mainnet) (BaseConfig.forks mainnet)
    1209600 None false false.

(** A chain in period 900: a checkpoint, an update that finalizes a header and names the
    next committee, an optimistic update. *)
Definition slot0 : Z := 900 * 8192.
Definition aggregate (tag : byte) : SyncAggregate :=
  {| sync_committee_bits := replicate 400 true ++ replicate 112 false;
     sync_committee_signature := replicate 32 tag |}.

Definition toy_bootstrap : LightClientBootstrapCapella :=
  LightClientBootstrap.mk (lc_header (toy_header slot0 x01)) (toy_committee x11) (replicate 5 (replicate 32 x01)).
Definition toy_update : LightClientUpdateCapella :=
  LightClientUpdate.mk (lc_header (toy_header (slot0 + 100) x02)) (toy_committee x12)
    (replicate 5 (replicate 32 x02)) (lc_header (toy_header (slot0 + 64) x03)) (replicate 6 (replicate 32 x02))
    (aggregate x02) (slot0 + 101).
Definition toy_optimistic : LightClientOptimisticUpdateCapella :=
  LightClientOptimisticUpdate.mk (lc_header (toy_header (slot0 + 200) x04)) (aggregate x04) (slot0 + 201).

(** The world is its clock. *)
#[global] Instance toy_rpc : ConsensusRpc Z := {|
  rpc_name := [];
  get_bootstrap root w := (Ok toy_bootstrap, w);
  get_updates period count w := (Ok [toy_update], w);
  get_finality_update w := (Err RpcFailed, w);
  get_optimistic_update w := (Ok toy_optimistic, w);
  rpc_chain_id w := (Ok 1, w);
  clock w := (w, w + 1);
|}.

#[global] Instance toy_rpc_typed : ConsensusRpcTyped Z.
Proof.
  split.
  - intros root w b w' [= <- <-]. done.
  - intros p n w us w' [= <- <-]. repeat constructor. done.
  - done.
Qed.

Definition toy_now : Z := BEACON_GENESIS_TIME + (slot0 + 300) * 12.
Definition toy_client : ConsensusLightClient.t := new (replicate 32 x01) toy_config.
Definition synced : ConsensusLightClient.t * Z := (sync (toy_client, toy_now)).2.

Lemma chain_of_trust_witness :
  exists s, sync (toy_client, toy_now) = (Ok tt, synced) /\ rtc step synced s
    /\ slot_of (optimistic_header (store s.1)) = slot0 + 200
    /\ next_sync_committee (store s.1) = Some (toy_committee x12)
    /\ trusted_store (replicate 32 x01) toy_config (store s.1).
Proof.
  exists ((advance synced).2).
  assert (E : sync (toy_client, toy_now) = (Ok tt, synced)) by (vm_compute; reflexivity).
  assert (Hs : rtc step synced (advance synced).2)
    by (apply rtc_once; eapply step_advance; apply surjective_pairing).
  split; [exact E|]. split; [exact Hs|]. split; [vm_compute; reflexivity|]. split; [vm_compute; reflexivity|].
  exact (chain_of_trust (replicate 32 x01) toy_config toy_now synced _ E Hs).
Defined.

Lemma apply_progress_witness :
  exists self', apply_generic_update synced.1 (toy_now + 20) (toy_now + 21)
                  (GenericUpdate.from_optimistic_update
                     (LightClientOptimisticUpdate.mk (lc_header (toy_header (slot0 + 250) x05)) (aggregate x05)
                        (slot0 + 251))) = (Ok tt, self')
    /\ slot_of (optimistic_header (store self')) = slot0 + 250
    /\ slot_of (finalized_header (store self')) <= slot_of (optimistic_header (store self')).
Proof.
  set (u := GenericUpdate.from_optimistic_update _).
  assert (Hv : exists cur, expected_current_slot synced.1 (toy_now + 10) = Ok cur /\ valid_update synced.1 cur u)
    by (apply verify_valid_iff; vm_compute; reflexivity).
  destruct Hv as (cur & Hcur & Hv).
  destruct (apply_progress synced.1 cur (toy_now + 20) (toy_now + 21) u Hv) as (self' & E & _ & _ & H).
  - apply from_optimistic_wf.
  - vm_compute. discriminate.
  - split; vm_compute; discriminate.
  - split; [vm_compute; discriminate | | split; vm_compute; discriminate].
    exists (toy_now + 10). split; [exact Hcur|]. split; vm_compute; discriminate.
  - exists self'. split; [exact E|]. split; [|exact H].
    assert (E' : self' = (apply_generic_update synced.1 (toy_now + 20) (toy_now + 21) u).2) by (by rewrite E).
    rewrite E'. vm_compute. reflexivity.
Defined.

Lemma next_update_schedule_witness :
  exists d, duration_until_next_update toy_client toy_now toy_now = Ok d /\ 5 <= d <= 16
    /\ (toy_now + d - genesis_time_of toy_client) mod 12 = 4.
Proof.
  apply (next_update_schedule toy_client toy_now); [split; vm_compute; discriminate | vm_compute; reflexivity].
Defined.

Lemma attested_unique_witness :
  let a := beacon (LightClientUpdate.attested_header toy_update) in
  is_next_committee_proof_valid a (toy_committee x12) (replicate 5 (replicate 32 x02)) = true
  /\ (committee_root (toy_committee x12) = committee_root (toy_committee x13)
      \/ collides sha256 (proofs_pairs (committee_root (toy_committee x12)) (committee_root (toy_committee x13))
           (map bytes_to_bytes32 (replicate 5 (replicate 32 x02))) (map bytes_to_bytes32 (replicate 5 (replicate 32 x02))) 5 23)).
Proof.
  intros a. split; [vm_compute; reflexivity|].
  apply (proj1 (proj2 (attested_unique a)) (toy_committee x12) (toy_committee x13)
           (replicate 5 (replicate 32 x02)) (replicate 5 (replicate 32 x02))); vm_compute; reflexivity.
Defined.
