(* ===== verification/BeaconValue.v ===== *)
(** * Content values of the beacon network.

    [ethportal-api/src/types/content_value/beacon.rs] and the decoders by fork of
    [consensus/light_client/].  The derived SSZ codecs of the fork variants and the SSZ
    codec of lists of variable-size items are the class [BeaconSsz]. *)

From S2P Require Import Prelude.
From S2P Require Import Distance.
From S2P Require Import Hex.
From S2P Require Import ContentKey.
From S2P Require Import SszList.
From S2P Require Import LightClientTypes.

(** A derived codec. *)
Record Codec (A : Type) := { to_ssz : A -> bytes; of_ssz : bytes -> res SszDecodeError A }.
#[global] Arguments to_ssz {A}.
#[global] Arguments of_ssz {A}.

Record HistoricalSummary := { block_summary_root : bytes; state_summary_root : bytes }.

Record HistoricalSummariesWithProof := {
  summaries_epoch : Z;
  historical_summaries : list HistoricalSummary;
  summaries_proof : list bytes;
}.

Class BeaconSsz := {
  bootstrap_bellatrix : Codec (LightClientBootstrap.variant LightClientHeaderBellatrix);
  bootstrap_capella : Codec (LightClientBootstrap.variant LightClientHeaderCapella);
  update_bellatrix : Codec (LightClientUpdate.variant LightClientHeaderBellatrix);
  update_capella : Codec (LightClientUpdate.variant LightClientHeaderCapella);
  finality_bellatrix : Codec (LightClientFinalityUpdate.variant LightClientHeaderBellatrix);
  finality_capella : Codec (LightClientFinalityUpdate.variant LightClientHeaderCapella);
  optimistic_bellatrix : Codec (LightClientOptimisticUpdate.variant LightClientHeaderBellatrix);
  optimistic_capella : Codec (LightClientOptimisticUpdate.variant LightClientHeaderCapella);
  summaries : Codec HistoricalSummariesWithProof;
  (** the items of an SSZ list of at most 128 items of variable size *)
  var_list_join : list bytes -> bytes;
  var_list_split : bytes -> res SszDecodeError (list bytes);
}.

(** A value with its fork. *)
Record ForkVersioned (T : Type) := { fork_name : ForkName.t; versioned : T }.
#[global] Arguments fork_name {T}.
#[global] Arguments versioned {T}.
#[global] Arguments Build_ForkVersioned {T}.

Abbreviation ForkVersionedLightClientBootstrap := (ForkVersioned LightClientBootstrap.t).
Abbreviation ForkVersionedLightClientUpdate := (ForkVersioned LightClientUpdate.t).
Abbreviation ForkVersionedLightClientOptimisticUpdate := (ForkVersioned LightClientOptimisticUpdate.t).
Abbreviation ForkVersionedLightClientFinalityUpdate := (ForkVersioned LightClientFinalityUpdate.t).

Inductive ContentValueError :=
| DecodeSszValue
| UnknownContent (hex : bytes)
| DeserializeAbsentContent
| DecodeAbsentContent.

Definition CONTENT_ABSENT : bytes := str_0x.

Section Operations.
Context `{S : BeaconSsz} `{X : HexLib}.

(** [from_ssz_bytes(bytes, fork_name)] of the enums. *)
Definition bootstrap_from_ssz (b : bytes) (f : ForkName.t) : res SszDecodeError LightClientBootstrap.t :=
  match f with
  | ForkName.Bellatrix => res_map LightClientBootstrap.Bellatrix (of_ssz bootstrap_bellatrix b)
  | ForkName.Capella => res_map LightClientBootstrap.Capella (of_ssz bootstrap_capella b)
  end.
Definition update_from_ssz (b : bytes) (f : ForkName.t) : res SszDecodeError LightClientUpdate.t :=
  match f with
  | ForkName.Bellatrix => res_map LightClientUpdate.Bellatrix (of_ssz update_bellatrix b)
  | ForkName.Capella => res_map LightClientUpdate.Capella (of_ssz update_capella b)
  end.
Definition finality_from_ssz (b : bytes) (f : ForkName.t) : res SszDecodeError LightClientFinalityUpdate.t :=
  match f with
  | ForkName.Bellatrix => res_map LightClientFinalityUpdate.Bellatrix (of_ssz finality_bellatrix b)
  | ForkName.Capella => res_map LightClientFinalityUpdate.Capella (of_ssz finality_capella b)
  end.
Definition optimistic_from_ssz (b : bytes) (f : ForkName.t)
    : res SszDecodeError LightClientOptimisticUpdate.t :=
  match f with
  | ForkName.Bellatrix => res_map LightClientOptimisticUpdate.Bellatrix (of_ssz optimistic_bellatrix b)
  | ForkName.Capella => res_map LightClientOptimisticUpdate.Capella (of_ssz optimistic_capella b)
  end.

(** The encodings of the enums are those of their variants. *)
Definition bootstrap_ssz (v : LightClientBootstrap.t) : bytes :=
  match v with
  | LightClientBootstrap.Bellatrix b => to_ssz bootstrap_bellatrix b
  | LightClientBootstrap.Capella b => to_ssz bootstrap_capella b
  end.
Definition update_ssz (v : LightClientUpdate.t) : bytes :=
  match v with
  | LightClientUpdate.Bellatrix b => to_ssz update_bellatrix b
  | LightClientUpdate.Capella b => to_ssz update_capella b
  end.
Definition finality_ssz (v : LightClientFinalityUpdate.t) : bytes :=
  match v with
  | LightClientFinalityUpdate.Bellatrix b => to_ssz finality_bellatrix b
  | LightClientFinalityUpdate.Capella b => to_ssz finality_capella b
  end.
Definition optimistic_ssz (v : LightClientOptimisticUpdate.t) : bytes :=
  match v with
  | LightClientOptimisticUpdate.Bellatrix b => to_ssz optimistic_bellatrix b
  | LightClientOptimisticUpdate.Capella b => to_ssz optimistic_capella b
  end.

(** The digest of the fork, then the value; the same code for the four types.  The slice
    [&bytes[0..4]] panics when there are fewer than four bytes. *)
Definition encode_versioned {T} (ssz : T -> bytes) (self : ForkVersioned T) : bytes :=
  ForkName.as_fork_digest (fork_name self) ++ ssz (versioned self).

Definition decode_versioned {T} (from_ssz : bytes -> ForkName.t -> res SszDecodeError T) (b : bytes)
    : res SszDecodeError (ForkVersioned T) :=
  let? fork_digest := slice b 0 4 in
  let? f := map_err (fun _ => BytesInvalid) (ForkName.try_from fork_digest) in
  let? v := from_ssz (drop 4 b) f in
  Ok {| fork_name := f; versioned := v |}.

Definition bootstrap_encode : ForkVersionedLightClientBootstrap -> bytes := encode_versioned bootstrap_ssz.
Definition bootstrap_decode : bytes -> res SszDecodeError ForkVersionedLightClientBootstrap :=
  decode_versioned bootstrap_from_ssz.
Definition update_encode : ForkVersionedLightClientUpdate -> bytes := encode_versioned update_ssz.
Definition update_decode : bytes -> res SszDecodeError ForkVersionedLightClientUpdate :=
  decode_versioned update_from_ssz.
Definition optimistic_encode : ForkVersionedLightClientOptimisticUpdate -> bytes :=
  encode_versioned optimistic_ssz.
Definition optimistic_decode (b : bytes) : res SszDecodeError ForkVersionedLightClientOptimisticUpdate :=
  map_err (fun _ => BytesInvalid) (decode_versioned optimistic_from_ssz b).
Definition finality_encode : ForkVersionedLightClientFinalityUpdate -> bytes := encode_versioned finality_ssz.
Definition finality_decode : bytes -> res SszDecodeError ForkVersionedLightClientFinalityUpdate :=
  decode_versioned finality_from_ssz.

(** [LightClientUpdatesByRange]. *)
Definition range_encode (us : list ForkVersionedLightClientUpdate) : bytes :=
  var_list_join (update_encode <$> us).
Definition range_decode (b : bytes) : res SszDecodeError (list ForkVersionedLightClientUpdate) :=
  let? items := var_list_split b in
  res_all update_decode items.
End Operations.

Module BeaconContentValue.
Inductive t :=
| HistoricalSummaries (v : HistoricalSummariesWithProof)
| Bootstrap (v : ForkVersionedLightClientBootstrap)
| UpdatesByRange (v : list ForkVersionedLightClientUpdate)
| OptimisticUpdate (v : ForkVersionedLightClientOptimisticUpdate)
| FinalityUpdate (v : ForkVersionedLightClientFinalityUpdate).

Section Operations.
Context `{S : BeaconSsz} `{X : HexLib}.

Definition encode (self : t) : bytes :=
  match self with
  | HistoricalSummaries v => to_ssz summaries v
  | Bootstrap v => bootstrap_encode v
  | UpdatesByRange v => range_encode v
  | OptimisticUpdate v => optimistic_encode v
  | FinalityUpdate v => finality_encode v
  end.

(** The decoders in turn. *)
Definition try_decoders {E} (buf : bytes) (otherwise : res E t) : res E t :=
  or_else (res_map HistoricalSummaries (of_ssz summaries buf)) (
  or_else (res_map Bootstrap (bootstrap_decode buf)) (
  or_else (res_map UpdatesByRange (range_decode buf)) (
  or_else (res_map OptimisticUpdate (optimistic_decode buf)) (
  or_else (res_map FinalityUpdate (finality_decode buf))
  otherwise)))).

Definition decode (buf : bytes) : res ContentValueError t :=
  try_decoders buf (Err (UnknownContent (hex_encode buf))).

(** JSON: the hex string of the encoding. *)
Definition serialize (self : t) : bytes := hex_encode (encode self).

Inductive json_error := HexError (e : ByteUtilsError) | ValueError (e : ContentValueError).

Definition deserialize (s : bytes) : res json_error t :=
  let? content_bytes := map_err HexError (hex_decode s) in
  try_decoders content_bytes (Err (ValueError (UnknownContent s))).
End Operations.
End BeaconContentValue.

Module PossibleBeaconContentValue.
Inductive t :=
| ContentPresent (v : BeaconContentValue.t)
| ContentAbsent.

Section Operations.
Context `{S : BeaconSsz} `{X : HexLib}.

Definition serialize (self : t) : bytes :=
  match self with
  | ContentPresent content => BeaconContentValue.serialize content
  | ContentAbsent => CONTENT_ABSENT
  end.

Definition deserialize (s : bytes) : res BeaconContentValue.json_error t :=
  if bool_decide (s = CONTENT_ABSENT) then Ok ContentAbsent
  else
    let? content_bytes := map_err BeaconContentValue.HexError (hex_decode s) in
    res_map ContentPresent (BeaconContentValue.try_decoders content_bytes
      (Err (BeaconContentValue.ValueError (UnknownContent s)))).
End Operations.
End PossibleBeaconContentValue.

(** ** What the codecs document *)

(** A container of fixed size is decoded from exactly its size; one with parts of
    variable size begins with the offset of the first of them when its first field is of
    variable size: the length of the fixed part.  Decoders do not panic. *)
Definition fixed_size {A} (c : Codec A) (n : Z) : Prop :=
  forall b a, of_ssz c b = Ok a -> Z.of_nat (length b) = n.
Definition first_offset {A} (c : Codec A) (n : Z) : Prop :=
  forall b a, of_ssz c b = Ok a -> le_to_Z (take 4 b) = n.
Definition codec_total {A} (c : Codec A) : Prop := forall b, of_ssz c b <> Panic.

Create HintDb beacon_ssz discriminated.

Class BeaconSszOk (S : BeaconSsz) : Prop := {
  bootstrap_bellatrix_size : fixed_size bootstrap_bellatrix 24896;
  update_bellatrix_size : fixed_size update_bellatrix 25368;
  finality_bellatrix_size : fixed_size finality_bellatrix 584;
  optimistic_bellatrix_size : fixed_size optimistic_bellatrix 280;
  bootstrap_capella_offset : first_offset bootstrap_capella 24788;
  update_capella_offset : first_offset update_capella 25152;
  finality_capella_offset : first_offset finality_capella 368;
  optimistic_capella_offset : first_offset optimistic_capella 172;
  bootstrap_total : codec_total bootstrap_bellatrix /\ codec_total bootstrap_capella;
  optimistic_total : codec_total optimistic_bellatrix /\ codec_total optimistic_capella;
  (** a list: nothing when empty, else the offsets of the items and the items *)
  join_nil : var_list_join [] = [];
  join_offset x l : take 4 (var_list_join (x :: l)) = Z_to_le 4 (4 * Z.of_nat (length (x :: l)));
  split_sound b l : var_list_split b = Ok l -> b = var_list_join l /\ (length l <= 128)%nat;
  split_complete l : (length l <= 128)%nat -> Z.of_nat (length (var_list_join l)) < U32_MOD ->
    var_list_split (var_list_join l) = Ok l;
  split_total b : var_list_split b <> Panic;
  (** historical summaries have a fixed part of 172 bytes *)
  summaries_short b : (length b < 172)%nat -> exists e, of_ssz summaries b = Err e;
}.

#[export] Hint Resolve bootstrap_bellatrix_size update_bellatrix_size finality_bellatrix_size
  optimistic_bellatrix_size bootstrap_capella_offset update_capella_offset finality_capella_offset
  optimistic_capella_offset : beacon_ssz.

Section Correct.
Context `{X : HexLib} `{!HexLibOk X} {S : BeaconSsz} `{!BeaconSszOk S}.

(** A value that its fork's codec reads back. *)
Definition versioned_ok {T} (ssz : T -> bytes) (from_ssz : bytes -> ForkName.t -> res SszDecodeError T)
    (v : ForkVersioned T) : Prop :=
  from_ssz (ssz (versioned v)) (fork_name v) = Ok (versioned v).

Definition value_ok (v : BeaconContentValue.t) : Prop :=
  match v with
  | BeaconContentValue.HistoricalSummaries v => of_ssz summaries (to_ssz summaries v) = Ok v
  | BeaconContentValue.Bootstrap v => versioned_ok bootstrap_ssz bootstrap_from_ssz v
  | BeaconContentValue.UpdatesByRange l =>
      l <> [] /\ (length l <= 128)%nat /\ Z.of_nat (length (range_encode l)) < U32_MOD
      /\ Forall (versioned_ok update_ssz update_from_ssz) l
  | BeaconContentValue.OptimisticUpdate v => versioned_ok optimistic_ssz optimistic_from_ssz v
  | BeaconContentValue.FinalityUpdate v => versioned_ok finality_ssz finality_from_ssz v
  end.

Lemma decode_encode_versioned {T U} (ssz : T -> bytes) (from_ssz : bytes -> ForkName.t -> res SszDecodeError U) v :
  decode_versioned from_ssz (encode_versioned ssz v)
  = res_map (Build_ForkVersioned (fork_name v)) (from_ssz (ssz (versioned v)) (fork_name v)).
Proof.
  unfold decode_versioned, encode_versioned.
  assert (Hs : slice (E := SszDecodeError)
    (ForkName.as_fork_digest (fork_name v) ++ ssz (versioned v)) 0 4 = Ok (ForkName.as_fork_digest (fork_name v)))
    by (by destruct (fork_name v)).
  rewrite Hs. destruct v as [[] v]; simpl; by destruct (from_ssz _ _).
Qed.

Lemma versioned_roundtrip {T} (ssz : T -> bytes) from_ssz v :
  versioned_ok ssz from_ssz v -> decode_versioned from_ssz (encode_versioned ssz v) = Ok v.
Proof. intros H. rewrite decode_encode_versioned, H. by destruct v. Qed.

(** Values of one type are not read as another. *)
Lemma codecs_differ {A B} (c : Codec A) (d : Codec B) b x (n m i j : Z) :
  codec_total d ->
  (fixed_size c n /\ fixed_size d m /\ n <> m \/ first_offset c i /\ first_offset d j /\ i <> j) ->
  of_ssz c b = Ok x -> exists e, of_ssz d b = Err e.
Proof.
  intros Ht H Hc. destruct (of_ssz d b) as [y|e|] eqn:Hd; [|by eauto|by apply Ht in Hd].
  exfalso. destruct H as [(H1 & H2 & H3)|(H1 & H2 & H3)].
  - apply H1 in Hc. apply H2 in Hd. congruence.
  - apply H1 in Hc. apply H2 in Hd. congruence.
Qed.

(** A fork digest is not the first offset of a list. *)
Lemma digest_not_offset f (n : nat) :
  (n <= 128)%nat -> n <> 0%nat -> ForkName.as_fork_digest f <> Z_to_le 4 (4 * Z.of_nat n).
Proof.
  intros Hn H0 E. apply (f_equal le_to_Z) in E. rewrite le_to_Z_to_le in E by lia.
  change (256 ^ Z.of_nat 4) with 4294967296 in E. rewrite Z.mod_small in E by lia.
  destruct f; vm_compute (le_to_Z _) in E; lia.
Qed.

Lemma range_rejects_versioned {T} (ssz : T -> bytes) (v : ForkVersioned T) :
  exists e, range_decode (encode_versioned ssz v) = Err e.
Proof.
  unfold range_decode. destruct (var_list_split _) as [l|e|] eqn:E; [|by eauto|by apply split_total in E].
  exfalso. apply split_sound in E as [E Hl]. destruct l as [|x l].
  - rewrite join_nil in E. by destruct v as [[] ?].
  - apply (f_equal (take 4)) in E. rewrite join_offset in E.
    apply (digest_not_offset (fork_name v)) in Hl; [|done]. apply Hl. rewrite <- E. by destruct v as [[] ?].
Qed.

Lemma bootstrap_rejects_range l :
  l <> [] -> (length l <= 128)%nat -> exists e, bootstrap_decode (range_encode l) = Err e.
Proof.
  intros H0 Hl. unfold bootstrap_decode, decode_versioned, range_encode.
  destruct l as [|u l]; [done|]. rewrite fmap_cons.
  set (b := var_list_join _). assert (Hb : take 4 b = Z_to_le 4 (4 * Z.of_nat (length (u :: l)))).
  { unfold b. rewrite join_offset. simpl. by rewrite length_fmap. }
  assert (Hs : slice (E := SszDecodeError) b 0 4 = Ok (take 4 b)).
  { unfold slice. rewrite drop_0. apply (f_equal length) in Hb. rewrite length_take, length_Z_to_le in Hb.
    by rewrite (proj2 (Nat.leb_le _ _)) by lia. }
  rewrite Hs. unfold ForkName.try_from.
  rewrite !decide_False; [by eauto| |].
  - intros E. apply (digest_not_offset ForkName.Capella (length (u :: l))); [done..|]. by rewrite <- Hb, E.
  - intros E. apply (digest_not_offset ForkName.Bellatrix (length (u :: l))); [done..|]. by rewrite <- Hb, E.
Qed.

(** The tactic for a codec that reads another type's bytes. *)
Ltac reject_by lem :=
  match goal with H : res_map _ (of_ssz ?c ?b) = Ok _ |- context [of_ssz ?d _] =>
    destruct (of_ssz c b) eqn:E; [|done..]; eapply (codecs_differ c d) in E as [e ->];
    [by eexists | done | lem] end.

Ltac by_size := left; split_and!; [auto with beacon_ssz..|lia].
Ltac by_offset := right; split_and!; [auto with beacon_ssz..|lia].

Lemma bootstrap_rejects_optimistic v :
  versioned_ok optimistic_ssz optimistic_from_ssz v -> exists e, bootstrap_decode (optimistic_encode v) = Err e.
Proof.
  intros H. unfold bootstrap_decode, optimistic_encode. rewrite decode_encode_versioned. unfold versioned_ok in H.
  destruct bootstrap_total. destruct v as [[] u]; simpl in *; cbn [bootstrap_from_ssz optimistic_from_ssz] in *;
  [reject_by by_size|reject_by by_offset].
  Unshelve. all: exact 0.
Qed.

Lemma bootstrap_rejects_finality v :
  versioned_ok finality_ssz finality_from_ssz v -> exists e, bootstrap_decode (finality_encode v) = Err e.
Proof.
  intros H. unfold bootstrap_decode, finality_encode. rewrite decode_encode_versioned. unfold versioned_ok in H.
  destruct bootstrap_total. destruct v as [[] u]; simpl in *; cbn [bootstrap_from_ssz finality_from_ssz] in *;
  [reject_by by_size|reject_by by_offset].
  Unshelve. all: exact 0.
Qed.

Lemma optimistic_rejects_finality v :
  versioned_ok finality_ssz finality_from_ssz v -> exists e, optimistic_decode (finality_encode v) = Err e.
Proof.
  intros H. unfold optimistic_decode, finality_encode. rewrite decode_encode_versioned. unfold versioned_ok in H.
  destruct optimistic_total. destruct v as [[] u]; simpl in *; cbn [optimistic_from_ssz finality_from_ssz] in *;
  [reject_by by_size|reject_by by_offset].
  Unshelve. all: exact 0.
Qed.

Lemma updates_roundtrip l :
  Forall (versioned_ok update_ssz update_from_ssz) l -> res_all update_decode (update_encode <$> l) = Ok l.
Proof.
  induction 1 as [|u l Hu _ IH]; [done|]. rewrite fmap_cons. cbn [res_all].
  unfold update_decode at 1, update_encode at 1. rewrite versioned_roundtrip by done. by rewrite IH.
Qed.

Lemma range_roundtrip l :
  (length l <= 128)%nat -> Z.of_nat (length (range_encode l)) < U32_MOD ->
  Forall (versioned_ok update_ssz update_from_ssz) l ->
  range_decode (range_encode l) = Ok l.
Proof.
  intros Hl Hlen H. unfold range_decode, range_encode in *.
  rewrite split_complete by (by rewrite ?length_fmap).
  by apply updates_roundtrip.
Qed.

(** The other formats have no tag of their own: a value must not happen to be historical
    summaries as well. *)
Definition not_summaries (v : BeaconContentValue.t) : Prop :=
  match v with
  | BeaconContentValue.HistoricalSummaries _ => True
  | _ => exists e, of_ssz summaries (BeaconContentValue.encode v) = Err e
  end.

(** The decoders find the value that was encoded. *)
Lemma try_decoders_encode {E} v (otherwise : res E BeaconContentValue.t) :
  value_ok v -> not_summaries v ->
  BeaconContentValue.try_decoders (BeaconContentValue.encode v) otherwise = Ok v.
Proof.
  intros Hv Hs. unfold BeaconContentValue.try_decoders.
  destruct v as [v|v|l|v|v]; cbn [BeaconContentValue.encode value_ok not_summaries] in *;
    [by rewrite Hv|destruct Hs as [e ->]..]; simpl.
  - unfold bootstrap_decode, bootstrap_encode. by rewrite versioned_roundtrip.
  - destruct Hv as (H0 & H1 & H2 & H3). destruct (bootstrap_rejects_range l H0 H1) as [e' ->]. simpl.
    by rewrite range_roundtrip.
  - destruct (bootstrap_rejects_optimistic v Hv) as [e1 ->]. simpl.
    destruct (range_rejects_versioned optimistic_ssz v) as [e2 E2]. unfold optimistic_encode in *. rewrite E2.
    simpl. unfold optimistic_decode. by rewrite versioned_roundtrip.
  - destruct (bootstrap_rejects_finality v Hv) as [e1 ->]. simpl.
    destruct (range_rejects_versioned finality_ssz v) as [e2 E2].
    destruct (optimistic_rejects_finality v Hv) as [e3 E3]. unfold finality_encode in *. rewrite E2. simpl.
    rewrite E3. simpl. unfold finality_decode. by rewrite versioned_roundtrip.
Qed.

(** Beacon content survives its encodings: although a value carries no tag, the
    decoders that are tried before its own reject it, so bytes and JSON decode to the
    value that was encoded, for every fork (an empty range of updates and values that
    happen to be historical summaries excepted). *)
Theorem beacon_value_roundtrip v :
  value_ok v -> not_summaries v ->
  BeaconContentValue.decode (BeaconContentValue.encode v) = Ok v
  /\ BeaconContentValue.deserialize (BeaconContentValue.serialize v) = Ok v
  /\ (BeaconContentValue.encode v <> [] ->
      PossibleBeaconContentValue.deserialize
        (PossibleBeaconContentValue.serialize (PossibleBeaconContentValue.ContentPresent v))
      = Ok (PossibleBeaconContentValue.ContentPresent v)).
Proof.
  intros Hv Hs. unfold BeaconContentValue.decode, BeaconContentValue.deserialize,
    BeaconContentValue.serialize, PossibleBeaconContentValue.deserialize, PossibleBeaconContentValue.serialize,
    BeaconContentValue.serialize.
  rewrite hex_decode_encode. simpl. rewrite !try_decoders_encode by done. split_and!; [done..|].
  intros Hne. rewrite bool_decide_eq_false_2; [done|]. unfold CONTENT_ABSENT, hex_encode. intros E.
  apply (f_equal length) in E. rewrite length_app, hex_digits_length in E.
  destruct (BeaconContentValue.encode v); [done | simpl in E; lia].
Qed.

(** Content of fewer than four bytes, an empty range of updates for instance, makes
    the decoders panic instead of being refused: the fork digest is sliced off without a
    look at the length. *)
Theorem short_beacon_value_panics b :
  (length b < 4)%nat ->
  BeaconContentValue.decode b = Panic
  /\ BeaconContentValue.deserialize (hex_encode b) = Panic
  /\ bootstrap_decode b = Panic /\ update_decode b = Panic
  /\ optimistic_decode b = Panic /\ finality_decode b = Panic
  /\ BeaconContentValue.encode (BeaconContentValue.UpdatesByRange []) = [].
Proof.
  intros Hb. assert (Hd : forall T (f : bytes -> ForkName.t -> res SszDecodeError T), decode_versioned f b = Panic).
  { intros T f. unfold decode_versioned. by rewrite slice_short. }
  assert (Ht : forall E (k : res E _), BeaconContentValue.try_decoders b k = Panic).
  { intros E k. unfold BeaconContentValue.try_decoders. destruct (summaries_short b) as [e ->]; [lia|]. simpl.
    unfold bootstrap_decode. by rewrite Hd. }
  unfold BeaconContentValue.decode, BeaconContentValue.deserialize, bootstrap_decode, update_decode,
    optimistic_decode, finality_decode. rewrite hex_decode_encode, !Hd. simpl. rewrite !Ht.
  split_and!; try done. apply join_nil.
Qed.
End Correct.

(** ** The theorems at work *)

(** Codecs that keep one number of a value. *)
Definition toy_codec {A} (offset : Z) (key : A -> Z) (make : Z -> A) : Codec A := {|
  to_ssz a := Z_to_le 4 offset ++ Z_to_le 8 (key a);
  of_ssz b := if (le_to_Z (take 4 b) =? offset) && (length b =? 12)%nat then Ok (make (le_to_Z (drop 4 b)))
              else Err BytesInvalid |}.

Definition no_codec {A} : Codec A := {| to_ssz _ := []; of_ssz _ := Err BytesInvalid |}.

Definition no_execution : ExecutionPayloadHeaderCapella :=
  {| payload_header :=
       {| parent_hash := []; fee_recipient := []; exec_state_root := []; receipts_root := []; logs_bloom := [];
          prev_randao := []; block_number := 0; gas_limit := 0; gas_used := 0; timestamp := 0; extra_data := [];
          base_fee_per_gas := 0; exec_block_hash := []; transactions_root := [] |};
     withdrawals_root := [] |}.
Definition header_at (slot : Z) : LightClientHeaderCapella :=
  {| beacon := BeaconBlockHeader.mk slot 0 [] [] []; execution := no_execution; execution_branch := [] |}.
Definition no_aggregate : SyncAggregate := {| sync_committee_bits := []; sync_committee_signature := [] |}.

Definition bootstrap_at (slot : Z) : LightClientBootstrapCapella :=
  LightClientBootstrap.mk (header_at slot) (SyncCommittee.mk [] []) [].
Definition update_at (slot : Z) : LightClientUpdateCapella :=
  LightClientUpdate.mk (header_at slot) (SyncCommittee.mk [] []) [] (header_at slot) [] no_aggregate slot.
Definition finality_at (slot : Z) : LightClientFinalityUpdateCapella :=
  LightClientFinalityUpdate.mk (header_at slot) (header_at slot) [] no_aggregate slot.
Definition optimistic_at (slot : Z) : LightClientOptimisticUpdateCapella :=
  LightClientOptimisticUpdate.mk (header_at slot) no_aggregate slot.

(** SSZ with such codecs for the Capella fork. *)
Definition toy_ssz (b : Codec LightClientBootstrapCapella) (u : Codec LightClientUpdateCapella)
    (f : Codec LightClientFinalityUpdateCapella) (o : Codec LightClientOptimisticUpdateCapella) : BeaconSsz := {|
  bootstrap_bellatrix := no_codec;
  bootstrap_capella := b;
  update_bellatrix := no_codec;
  update_capella := u;
  finality_bellatrix := no_codec;
  finality_capella := f;
  optimistic_bellatrix := no_codec;
  optimistic_capella := o;
  summaries := no_codec;
  var_list_join := ssz_list_join;
  var_list_split := ssz_list_split (Some 128);
|}.

Lemma toy_codec_offset {A} n (key : A -> Z) make : first_offset (toy_codec n key make) n.
Proof.
  intros b a. cbn. destruct (Z.eqb_spec (le_to_Z (take 4 b)) n); [done|]. done.
Qed.

Lemma toy_codec_total {A} n (key : A -> Z) make : codec_total (toy_codec n key make).
Proof. intros b. cbn. by case_match. Qed.

Lemma toy_ssz_ok bk bm uk um fk fm ok om :
  BeaconSszOk (toy_ssz (toy_codec 24788 bk bm) (toy_codec 25152 uk um) (toy_codec 368 fk fm) (toy_codec 172 ok om)).
Proof.
  split; try (by intros b a); try apply toy_codec_offset; try (split; [done | apply toy_codec_total]).
  - done.
  - intros b l [E1 E2%Z.leb_le]%ssz_list_sound. split; [done|lia].
  - intros l Hl. apply ssz_list_complete. simpl. apply Z.leb_le. lia.
  - intros b. cbn [var_list_split toy_ssz]. unfold ssz_list_split. by case_match.
  - intros b _. by eexists.
Qed.

#[global] Instance toy_beacon_ssz : BeaconSsz :=
  toy_ssz (toy_codec 24788 (fun b => BeaconBlockHeader.slot (beacon (LightClientBootstrap.header b))) bootstrap_at)
    (toy_codec 25152 LightClientUpdate.signature_slot update_at)
    (toy_codec 368 LightClientFinalityUpdate.signature_slot finality_at)
    (toy_codec 172 LightClientOptimisticUpdate.signature_slot optimistic_at).

#[global] Instance toy_beacon_ssz_ok : BeaconSszOk toy_beacon_ssz.
Proof. apply toy_ssz_ok. Qed.

#[local] Existing Instances toy_hex toy_hex_ok.

Definition sample_range : BeaconContentValue.t :=
  BeaconContentValue.UpdatesByRange
    [Build_ForkVersioned ForkName.Capella (LightClientUpdate.Capella (update_at 7));
     Build_ForkVersioned ForkName.Capella (LightClientUpdate.Capella (update_at 8))].

Lemma beacon_value_roundtrip_witness :
  length (BeaconContentValue.encode sample_range) = 40%nat
  /\ BeaconContentValue.decode (BeaconContentValue.encode sample_range) = Ok sample_range.
Proof.
  split; [reflexivity|]. apply (beacon_value_roundtrip sample_range).
  - split; [done|]. split; [simpl; lia|]. split; [reflexivity|]. repeat constructor.
  - eexists. reflexivity.
Defined.

Lemma short_beacon_value_panics_witness : BeaconContentValue.decode [x00; x01] = Panic.
Proof. apply (short_beacon_value_panics [x00; x01]). simpl. lia. Defined.
