(* ===== verification/BeaconStorage.v ===== *)
(** * The storage of the beacon network.

    [trin-beacon/src/storage.rs]: bootstraps in the table [content_data], light client
    updates by period in the table [lc_update], the latest finality and optimistic
    updates in memory.  Statements are functions on the tables as in [HistoryStorage];
    SQLite's integers are signed, so that the driver refuses a [u64] of 2^63 and more.
    Metrics are left out. *)

From stdpp Require Import gmap.
From S2P Require Import Prelude.
From S2P Require Import Distance.
From S2P Require Import Hex.
From S2P Require Import ContentKey.
From S2P Require Import Wire.
From S2P Require Import ContentStore.
From S2P Require Import HistoryStorage.
From S2P Require Import LightClientTypes.
From S2P Require Import BeaconValue.

Module BeaconStorageCache.
Record t := mk {
  optimistic_update : option ForkVersionedLightClientOptimisticUpdate;
  finality_update : option ForkVersionedLightClientFinalityUpdate;
}.

Definition new : t := mk None None.

Definition get_optimistic_update (self : t) (signature_slot : Z)
    : option ForkVersionedLightClientOptimisticUpdate :=
  match optimistic_update self with
  | Some u =>
      if LightClientOptimisticUpdate.signature_slot_of (versioned u) =? signature_slot then Some u else None
  | None => None
  end.

(** [finalized_header_capella().ok()?] ends the function for other forks. *)
Definition get_finality_update (self : t) (finalized_slot : Z)
    : option ForkVersionedLightClientFinalityUpdate :=
  match finality_update self with
  | Some u =>
      match LightClientFinalityUpdate.finalized_header_capella (versioned u) with
      | Ok h => if finalized_slot <=? BeaconBlockHeader.slot (beacon h) then Some u else None
      | _ => None
      end
  | None => None
  end.

Definition set_optimistic_update (self : t) (u : ForkVersionedLightClientOptimisticUpdate) : t :=
  mk (Some u) (finality_update self).
Definition set_finality_update (self : t) (u : ForkVersionedLightClientFinalityUpdate) : t :=
  mk (optimistic_update self) (Some u).
End BeaconStorageCache.

Module BeaconStorage.
Record t := mk {
  content_db : list Row;
  lc_update : gmap Z bytes;
  storage_capacity_in_bytes : Z;
  network : ProtocolId.t;
  cache : BeaconStorageCache.t;
}.

Definition set_content_db (self : t) (rows : list Row) : t :=
  mk rows (lc_update self) (storage_capacity_in_bytes self) (network self) (cache self).
Definition set_lc_update (self : t) (m : gmap Z bytes) : t :=
  mk (content_db self) m (storage_capacity_in_bytes self) (network self) (cache self).
Definition set_cache (self : t) (c : BeaconStorageCache.t) : t :=
  mk (content_db self) (lc_update self) (storage_capacity_in_bytes self) (network self) c.

(** [new], on the tables found in the database; the sizes are only reported. *)
Definition new (storage_capacity_mb : Z) (rows : list Row) (updates : gmap Z bytes)
    (disk : res ContentStoreError Z) : res ContentStoreError t :=
  let storage := mk rows updates (wrap64 (storage_capacity_mb * (1000 * 1000))) ProtocolId.Beacon
                   BeaconStorageCache.new in
  let? _ := disk in
  Ok storage.

Section Operations.
Context `{CK : OverlayContentKey} `{X : HexLib} `{S : BeaconSsz} `{U : U64Ssz}.
Implicit Types (self : t).

(** A [u64] as a parameter of a statement. *)
Definition to_sql (z : Z) : res ContentStoreError Z := if z <? 2 ^ 63 then Ok z else Err Database.

Definition db_insert self (content_id content_key value : bytes) : res ContentStoreError t :=
  let? rows := insert_value (content_db self) content_id content_key value
                 (ProtocolId.to_u8 (network self)) in
  Ok (set_content_db self rows).

(** [INSERT OR IGNORE INTO lc_update]. *)
Definition db_insert_lc_update self (period : Z) (value : bytes) : res ContentStoreError t :=
  let? p := to_sql period in
  match lc_update self !! p with
  | Some _ => Ok self
  | None => Ok (set_lc_update self (<[p := value]> (lc_update self)))
  end.

Definition lookup_lc_update_value self (period : Z) : res ContentStoreError (option bytes) :=
  let? p := to_sql period in
  Ok (lc_update self !! p).

Definition lookup_lc_update_period self (period : Z) : res ContentStoreError (option Z) :=
  let? p := to_sql period in
  Ok (match lc_update self !! p with Some _ => Some p | None => None end).

Definition lookup_content_key self (id : bytes) : res ContentStoreError (option bytes) :=
  let? keys := res_all (fun r =>
                 let? b := map_err ByteUtils (hex_decode (str_0x ++ row_content_key r)) in
                 map_err (fun _ => ContentKeyErr) (BeaconContentKey.try_from b))
               (take 1 (rows_by_id (content_db self) id)) in
  Ok (BeaconContentKey.into <$> head keys).

(** [start..(start + count)]; the sum wraps around. *)
Definition periods (start_period count : Z) : list Z :=
  let last := wrap64 (start_period + count) in
  seqZ start_period (last - start_period).

(** The loop of [get] over the periods: [None] at the first that is missing. *)
Fixpoint collect_updates self (ps : list Z) (content : list ForkVersionedLightClientUpdate)
    : res ContentStoreError (option (list ForkVersionedLightClientUpdate)) :=
  match ps with
  | [] => Ok (Some content)
  | period :: rest =>
      let? result := map_err (fun _ => Database) (lookup_lc_update_value self period) in
      match result with
      | Some result =>
          let? u := map_err (fun _ => Database) (update_decode result) in
          collect_updates self rest (content ++ [u])
      | None => Ok None
      end
  end.

Definition get self (key : ContentKey) : res ContentStoreError (option bytes) :=
  let? beacon_content_key := map_err (fun _ => InvalidData) (BeaconContentKey.from_ssz_bytes (key_to_bytes key)) in
  match beacon_content_key with
  | BeaconContentKey.LightClientBootstrap _ =>
      map_err (fun _ => Database) (lookup_content_value (content_db self) (content_id key))
  | BeaconContentKey.LightClientUpdatesByRange start_period count =>
      let? content := collect_updates self (periods start_period count) [] in
      match content with
      | None => Ok None
      | Some content =>
          if (128 <? length content)%nat then Err Database
          else Ok (Some (range_encode content))
      end
  | BeaconContentKey.LightClientFinalityUpdate finalized_slot =>
      match BeaconStorageCache.get_finality_update (cache self) finalized_slot with
      | Some u => Ok (Some (finality_encode u))
      | None => Ok None
      end
  | BeaconContentKey.LightClientOptimisticUpdate signature_slot =>
      match BeaconStorageCache.get_optimistic_update (cache self) signature_slot with
      | Some u => Ok (Some (optimistic_encode u))
      | None => Ok None
      end
  end.

(** The loop over the periods: [AlreadyStored] at the first that is there. *)
Fixpoint any_available self (ps : list Z) : res ContentStoreError ShouldWeStoreContent :=
  match ps with
  | [] => Ok Store
  | period :: rest =>
      let? found := map_err (fun _ => Database) (lookup_lc_update_period self period) in
      match found with
      | Some _ => Ok AlreadyStored
      | None => any_available self rest
      end
  end.

Definition within_radius_and_unavailable self (key : ContentKey) : res ContentStoreError ShouldWeStoreContent :=
  let? beacon_content_key := map_err (fun _ => InvalidData) (BeaconContentKey.from_ssz_bytes (key_to_bytes key)) in
  match beacon_content_key with
  | BeaconContentKey.LightClientBootstrap _ =>
      let? found := map_err (fun _ => Database) (lookup_content_key self (content_id key)) in
      Ok (match found with Some _ => AlreadyStored | None => Store end)
  | BeaconContentKey.LightClientUpdatesByRange start_period count =>
      any_available self (periods start_period count)
  | BeaconContentKey.LightClientFinalityUpdate finalized_slot =>
      Ok (match BeaconStorageCache.get_finality_update (cache self) finalized_slot with
          | Some _ => AlreadyStored | None => Store end)
  | BeaconContentKey.LightClientOptimisticUpdate signature_slot =>
      Ok (match BeaconStorageCache.get_optimistic_update (cache self) signature_slot with
          | Some _ => AlreadyStored | None => Store end)
  end.

Definition radius self : Z := Distance_MAX.

(** The loop of [store] over periods and values; errors are only logged. *)
Fixpoint insert_updates self (pvs : list (Z * ForkVersionedLightClientUpdate)) : t :=
  match pvs with
  | [] => self
  | (period, value) :: rest =>
      match db_insert_lc_update self period (update_encode value) with
      | Ok self => insert_updates self rest
      | _ => insert_updates self rest
      end
  end.

(** What [store] does by the first byte of the key. *)
Definition store_by_prefix self (key : ContentKey) (value : bytes) : t * res ContentStoreError unit :=
  let content_id := content_id key in
  let content_key := key_to_bytes key in
  match head content_key with
  | Some prefix =>
      if decide (prefix = BeaconContentKey.LIGHT_CLIENT_BOOTSTRAP_KEY_PREFIX) then
        let content_key := trim_0x (hex_encode content_key) in
        match db_insert self content_id content_key value with
        | Ok self => (self, Ok tt)
        | Err e => (self, Err e)
        | Panic => (self, Panic)
        end
      else if decide (prefix = BeaconContentKey.LIGHT_CLIENT_UPDATES_BY_RANGE_KEY_PREFIX) then
        match BeaconContentKey.from_ssz_bytes content_key with
        | Ok (BeaconContentKey.LightClientUpdatesByRange start_period count) =>
            match range_decode value with
            | Ok update_values => (insert_updates self (zip (periods start_period count) update_values), Ok tt)
            | Err _ => (self, Err InvalidData)
            | Panic => (self, Panic)
            end
        | Ok _ => (self, Err InvalidData)
        | Err _ => (self, Ok tt)
        | Panic => (self, Panic)
        end
      else if decide (prefix = BeaconContentKey.LIGHT_CLIENT_FINALITY_UPDATE_KEY_PREFIX) then
        match finality_decode value with
        | Ok u => (set_cache self (BeaconStorageCache.set_finality_update (cache self) u), Ok tt)
        | Err _ => (self, Err InvalidData)
        | Panic => (self, Panic)
        end
      else if decide (prefix = BeaconContentKey.LIGHT_CLIENT_OPTIMISTIC_UPDATE_KEY_PREFIX) then
        match optimistic_decode value with
        | Ok u => (set_cache self (BeaconStorageCache.set_optimistic_update (cache self) u), Ok tt)
        | Err _ => (self, Err InvalidData)
        | Panic => (self, Panic)
        end
      else (self, Err InvalidData)
  | None => (self, Err InvalidData)
  end.

(** [store] and [put]: the size of the data directory is read at the end. *)
Definition store self (disk : res ContentStoreError Z) (key : ContentKey) (value : bytes)
    : t * res ContentStoreError unit :=
  let '(self, r) := store_by_prefix self key value in
  (self, let? _ := r in let? _ := disk in Ok tt).

Definition paginate self (offset limit : Z) : res ContentStoreError unit := Err Database.

(** The trait, when the data directory can be read. *)
#[global] Instance content_store : ContentStore t := {|
  store_get := get;
  store_put self key value := store self (Ok 0) key value;
  is_key_within_radius_and_unavailable := within_radius_and_unavailable;
  store_radius := radius;
|}.
End Operations.
End BeaconStorage.

Section Correct.
Import BeaconStorage.
Context `{HL : HashLib} `{X : HexLib} `{!HexLibOk X} {S : BeaconSsz} `{!BeaconSszOk S} {U : U64Ssz} `{!U64SszOk U}.
Implicit Types (st : BeaconStorage.t) (k : BeaconContentKey.t).

Abbreviation bget := (get (CK := BeaconContentKey.overlay_key)).
Abbreviation bstore := (store (CK := BeaconContentKey.overlay_key)).
Abbreviation basks := (within_radius_and_unavailable (CK := BeaconContentKey.overlay_key)).

Lemma beacon_key_read k : BeaconContentKey.wf k -> BeaconContentKey.from_ssz_bytes (BeaconContentKey.into k) = Ok k.
Proof.
  intros Hk. pose proof (beacon_key_decodes k [] Hk) as H. rewrite app_nil_r in H.
  unfold BeaconContentKey.try_from in H. by destruct (BeaconContentKey.from_ssz_bytes _); simplify_eq/=.
Qed.

(** *** Ranges of periods *)

Lemma periods_seq start count :
  is_u64 start -> is_u64 count -> start + count < U64_MOD -> periods start count = seqZ start count.
Proof.
  unfold is_u64, periods. intros Hs Hc Hsum. rewrite wrap64_small by (unfold is_u64; lia). f_equal. lia.
Qed.

Lemma to_sql_ok z : z < 2 ^ 63 -> to_sql z = Ok z.
Proof. intros H. unfold to_sql. by rewrite (proj2 (Z.ltb_lt _ _) H). Qed.

(** Fresh periods take the values in order, the others keep theirs. *)
Lemma insert_updates_lookup n : forall st start (us : list ForkVersionedLightClientUpdate) p,
  length us = n -> start + Z.of_nat n <= 2 ^ 63 ->
  (forall q, start <= q < start + Z.of_nat n -> lc_update st !! q = None) ->
  lc_update (insert_updates st (zip (seqZ start (Z.of_nat n)) us)) !! p
  = (if (start <=? p) && (p <? start + Z.of_nat n) then update_encode <$> us !! Z.to_nat (p - start)
     else lc_update st !! p).
Proof.
  induction n as [|n IH]; intros st start us p Hlen Hmax Hfresh.
  { replace ((start <=? p) && (p <? start + Z.of_nat 0)) with false; [done|].
    symmetry. apply andb_false_iff. rewrite Z.leb_gt, Z.ltb_ge. lia. }
  destruct us as [|u us]; [done|]. injection Hlen as Hlen.
  replace (Z.of_nat (Datatypes.S n)) with (Z.succ (Z.of_nat n)) in * by lia. rewrite seqZ_cons by lia. cbn [zip zip_with].
  cbn [insert_updates]. unfold db_insert_lc_update. rewrite to_sql_ok by lia. rewrite (Hfresh start) by lia.
  rewrite Z.pred_succ, IH; [|done|lia|].
  - cbn [lc_update set_lc_update]. destruct (decide (p = start)) as [->|Hne].
    + rewrite lookup_insert_eq, Z.leb_refl, Z.sub_diag. rewrite (proj2 (Z.leb_gt (Z.succ start) start)) by lia.
      by rewrite (proj2 (Z.ltb_lt start (start + Z.succ (Z.of_nat n)))) by lia.
    + rewrite lookup_insert_ne by done.
      destruct (Z.leb_spec (Z.succ start) p) as [Hp|Hp]; simpl.
      * replace (Z.succ start + Z.of_nat n) with (start + Z.succ (Z.of_nat n)) by lia.
        rewrite (proj2 (Z.leb_le _ _)) by lia. simpl.
        destruct (Z.ltb_spec p (start + Z.succ (Z.of_nat n))); [|done].
        by replace (Z.to_nat (p - start)) with (Datatypes.S (Z.to_nat (p - Z.succ start))) by lia.
      * by rewrite (proj2 (Z.leb_gt start p)) by lia.
  - intros q Hq. cbn [lc_update set_lc_update]. rewrite lookup_insert_ne by lia. apply Hfresh. lia.
Qed.

(** Reading back a range that is there. *)
Lemma collect_updates_all n : forall st start (us acc : list ForkVersionedLightClientUpdate),
  length us = n -> start + Z.of_nat n <= 2 ^ 63 ->
  (forall i u, us !! i = Some u -> lc_update st !! (start + Z.of_nat i) = Some (update_encode u)) ->
  Forall (versioned_ok update_ssz update_from_ssz) us ->
  collect_updates st (seqZ start (Z.of_nat n)) acc = Ok (Some (acc ++ us)).
Proof.
  induction n as [|n IH]; intros st start us acc Hlen Hmax Hl Hok.
  { destruct us; [|done]. by rewrite app_nil_r. }
  destruct us as [|u us]; [done|]. injection Hlen as Hlen. apply Forall_cons in Hok as [Hu Hok].
  replace (Z.of_nat (Datatypes.S n)) with (Z.succ (Z.of_nat n)) in * by lia. rewrite seqZ_cons by lia.
  cbn [collect_updates]. unfold lookup_lc_update_value. rewrite to_sql_ok by lia.
  pose proof (Hl 0%nat u eq_refl) as H0. rewrite Z.add_0_r in H0. rewrite H0. cbn [map_err].
  unfold update_decode, update_encode. rewrite versioned_roundtrip by done. cbn [map_err].
  rewrite Z.pred_succ, (IH _ _ us); [by rewrite <- app_assoc|done|lia| |done].
  intros i v Hi. replace (Z.succ start + Z.of_nat i) with (start + Z.of_nat (Datatypes.S i)) by lia. by apply Hl.
Qed.
(** *** Storing and reading *)

Lemma get_by_key st k : BeaconContentKey.wf k ->
  bget st k = match k with
             | BeaconContentKey.LightClientBootstrap _ =>
                 map_err (fun _ => Database) (lookup_content_value (content_db st) (BeaconContentKey.content_id k))
             | BeaconContentKey.LightClientUpdatesByRange start_period count =>
                 let? content := collect_updates st (periods start_period count) [] in
                 match content with
                 | None => Ok None
                 | Some content =>
                     if (128 <? length content)%nat then Err Database else Ok (Some (range_encode content))
                 end
             | BeaconContentKey.LightClientFinalityUpdate slot =>
                 Ok (finality_encode <$> BeaconStorageCache.get_finality_update (cache st) slot)
             | BeaconContentKey.LightClientOptimisticUpdate slot =>
                 Ok (optimistic_encode <$> BeaconStorageCache.get_optimistic_update (cache st) slot)
             end.
Proof.
  intros Hk. unfold get. change (key_to_bytes (OverlayContentKey := BeaconContentKey.overlay_key) k) with (BeaconContentKey.into k).
  rewrite beacon_key_read by done. destruct k; simpl; try done; by case_match.
Qed.

Lemma store_by_key st k value : BeaconContentKey.wf k ->
  store_by_prefix (CK := BeaconContentKey.overlay_key) st k value
  = match k with
    | BeaconContentKey.LightClientBootstrap _ =>
        match db_insert st (BeaconContentKey.content_id k) (trim_0x (hex_encode (BeaconContentKey.into k))) value with
        | Ok st => (st, Ok tt)
        | Err e => (st, Err e)
        | Panic => (st, Panic)
        end
    | BeaconContentKey.LightClientUpdatesByRange start count =>
        match range_decode value with
        | Ok us => (insert_updates st (zip (periods start count) us), Ok tt)
        | Err _ => (st, Err InvalidData)
        | Panic => (st, Panic)
        end
    | BeaconContentKey.LightClientFinalityUpdate _ =>
        match finality_decode value with
        | Ok u => (set_cache st (BeaconStorageCache.set_finality_update (cache st) u), Ok tt)
        | Err _ => (st, Err InvalidData)
        | Panic => (st, Panic)
        end
    | BeaconContentKey.LightClientOptimisticUpdate _ =>
        match optimistic_decode value with
        | Ok u => (set_cache st (BeaconStorageCache.set_optimistic_update (cache st) u), Ok tt)
        | Err _ => (st, Err InvalidData)
        | Panic => (st, Panic)
        end
    end.
Proof.
  intros Hk. unfold store_by_prefix. cbv zeta.
  change (key_to_bytes (OverlayContentKey := BeaconContentKey.overlay_key) k) with (BeaconContentKey.into k).
  rewrite beacon_key_read by done. by destruct k.
Qed.

(** What a value decodes to, and whether it then answers a key. *)
Definition stored_value (k : BeaconContentKey.t) (value : bytes) (st : BeaconStorage.t) : Prop :=
  match k with
  | BeaconContentKey.LightClientBootstrap _ => bget st k = Ok None
  | BeaconContentKey.LightClientUpdatesByRange start count =>
      exists us, range_decode value = Ok us /\ Z.of_nat (length us) = count /\ (length us <= 128)%nat
        /\ value = range_encode us /\ Forall (versioned_ok update_ssz update_from_ssz) us
        /\ start + count <= 2 ^ 63 /\ forall p, start <= p < start + count -> lc_update st !! p = None
  | BeaconContentKey.LightClientFinalityUpdate slot =>
      exists u, finality_decode value = Ok (Build_ForkVersioned ForkName.Capella (LightClientFinalityUpdate.Capella u))
        /\ value = finality_encode (Build_ForkVersioned ForkName.Capella (LightClientFinalityUpdate.Capella u))
        /\ slot <= BeaconBlockHeader.slot (beacon (LightClientFinalityUpdate.finalized_header u))
  | BeaconContentKey.LightClientOptimisticUpdate slot =>
      exists u, optimistic_decode value = Ok u /\ value = optimistic_encode u
        /\ LightClientOptimisticUpdate.signature_slot_of (versioned u) = slot
  end.

Lemma store_then_get st k value :
  BeaconContentKey.wf k -> stored_value k value st ->
  exists st', bstore st (Ok 0) k value = (st', Ok tt) /\ bget st' k = Ok (Some value).
Proof.
  intros Hk Hv. unfold store. rewrite store_by_key by done.
  destruct k as [h|start count|slot|slot]; unfold stored_value in Hv.
  - rewrite get_by_key in Hv by done. unfold db_insert, insert_value.
    rewrite trim_0x_hex_encode, digits_no_prefix. eexists. split; [done|].
    rewrite get_by_key by done. cbn [content_db set_content_db].
    match goal with |- context [insert_or_ignore ?row _] =>
      pose proof (lookup_inserted (content_db st) row value eq_refl) as H end.
    cbn [content_id_long] in H. rewrite H; [done|].
    apply lookup_none_rows. by destruct (lookup_content_value _ _); simplify_eq/=.
  - destruct Hv as (us & Hd & Hc & Hn & -> & Hok & Hmax & Hfresh). destruct Hk as [Hs Hcnt].
    rewrite Hd.
    assert (Hp : periods start count = seqZ start (Z.of_nat (length us)))
      by (rewrite Hc; apply periods_seq; [done|done|unfold U64_MOD; lia]).
    eexists. split; [done|]. rewrite get_by_key by done. rewrite Hp.
    rewrite (collect_updates_all (length us) _ start us []); [..|done]; [|done|lia|].
    + simpl. by rewrite (proj2 (Nat.ltb_ge _ _)) by lia.
    + intros i u Hi. pose proof (lookup_lt_Some _ _ _ Hi). rewrite insert_updates_lookup; [|done|lia|intros; apply Hfresh; lia].
      rewrite (proj2 (Z.leb_le _ _)), (proj2 (Z.ltb_lt _ _)) by lia. simpl.
      replace (Z.to_nat (start + Z.of_nat i - start)) with i by lia. by rewrite Hi.
  - destruct Hv as (u & -> & -> & Hle). eexists. split; [done|]. rewrite get_by_key by done.
    unfold BeaconStorageCache.get_finality_update. simpl. by rewrite (proj2 (Z.leb_le _ _)).
  - destruct Hv as (u & -> & -> & Heq). eexists. split; [done|]. rewrite get_by_key by done.
    unfold BeaconStorageCache.get_optimistic_update. simpl. by rewrite Heq, Z.eqb_refl.
Qed.

(** C38: What is stored can be read back: a bootstrap that was not there, a range of
    updates none of whose periods was there (each decodable, as many as the key says, at
    most 128, and with periods below 2{^63}), a Capella finality update by any slot up to its finalized one and an
    optimistic update by its signature slot are accepted and returned byte for byte. *)
Theorem beacon_store_get st k value :
  BeaconContentKey.wf k -> stored_value k value st ->
  exists st', bstore st (Ok 0) k value = (st', Ok tt) /\ bget st' k = Ok (Some value).
Proof. apply store_then_get. Qed.

(** *** What the storage asks for *)

Lemma any_available_spec st ps :
  Forall (fun p => p < 2 ^ 63) ps ->
  any_available st ps
  = Ok (if bool_decide (Exists (fun p => is_Some (lc_update st !! p)) ps) then AlreadyStored else Store).
Proof.
  induction 1 as [|p ps Hp _ IH].
  { by rewrite bool_decide_eq_false_2 by (intros H; inversion H). }
  cbn [any_available]. unfold lookup_lc_update_period. rewrite to_sql_ok by done. cbn [map_err].
  destruct (lc_update st !! p) as [v|] eqn:E.
  - rewrite bool_decide_eq_true_2; [done|]. left. by rewrite E.
  - rewrite IH. f_equal. erewrite bool_decide_ext; [reflexivity|]. rewrite Exists_cons, E. split; [auto|].
    intros [[? [=]]|?]; done.
Qed.

(** With a period missing, nothing is returned. *)
Lemma collect_updates_missing st ps acc :
  Forall (fun p => p < 2 ^ 63) ps -> Exists (fun p => lc_update st !! p = None) ps ->
  (forall p v, p ∈ ps -> lc_update st !! p = Some v -> exists u, update_decode v = Ok u) ->
  collect_updates st ps acc = Ok None.
Proof.
  intros Hps. revert acc. induction Hps as [|p ps Hp _ IH]; intros acc Hex Hdec; [inversion Hex|].
  cbn [collect_updates]. unfold lookup_lc_update_value. rewrite to_sql_ok by done. cbn [map_err].
  destruct (lc_update st !! p) as [v|] eqn:E; [|done].
  destruct (Hdec p v ltac:(left) E) as [u ->]. cbn [map_err]. apply IH.
  - apply Exists_cons in Hex as [?|?]; [congruence|done].
  - intros q w Hq. apply Hdec. by right.
Qed.

Lemma seqZ_below start count : start + count <= 2 ^ 63 -> Forall (fun p => p < 2 ^ 63) (seqZ start count).
Proof. intros H. apply Forall_forall. intros p Hp%elem_of_seqZ. lia. Qed.

(** Which updates the storage asks for, and which it serves.  A range with a period
    that is not there is not served; it is asked for if and only if none of its periods
    is there.  So a range of which only a part is stored is neither served nor asked
    for, and the empty range is both asked for and served, by no bytes at all.  Other
    keys are asked for only when they are not served. *)
Theorem beacon_asks_spec st k :
  BeaconContentKey.wf k ->
  match k with
  | BeaconContentKey.LightClientUpdatesByRange start count =>
      start + count <= 2 ^ 63 ->
      (forall p v, lc_update st !! p = Some v -> exists u, update_decode v = Ok u) ->
      let ps := seqZ start count in
      (basks st k = Ok Store <-> Forall (fun p => lc_update st !! p = None) ps)
      /\ (basks st k = Ok AlreadyStored <-> Exists (fun p => is_Some (lc_update st !! p)) ps)
      /\ (Exists (fun p => lc_update st !! p = None) ps -> bget st k = Ok None)
      /\ (count = 0 -> basks st k = Ok Store /\ bget st k = Ok (Some []))
  | _ => basks st k = Ok Store -> bget st k = Ok None
  end.
Proof.
  intros Hk. assert (Hread : BeaconContentKey.from_ssz_bytes
    (key_to_bytes (OverlayContentKey := BeaconContentKey.overlay_key) k) = Ok k) by (by apply beacon_key_read).
  destruct k as [h|start count|slot|slot].
  - rewrite get_by_key by done. unfold within_radius_and_unavailable. rewrite Hread. cbn [map_err].
    unfold lookup_content_key, lookup_content_value.
    change (content_id (OverlayContentKey := BeaconContentKey.overlay_key) ?x) with (BeaconContentKey.content_id x).
    destruct (rows_by_id _ _) as [|r l]; [done|]. simpl.
    destruct (hex_decode _); simpl; [|done..]. by destruct (BeaconContentKey.try_from _).
  - destruct Hk as [Hs Hc]. intros Hmax Hdec. cbv zeta.
    assert (Hps : periods start count = seqZ start count)
      by (apply periods_seq; [done..|unfold U64_MOD; lia]).
    assert (Ha : basks st (BeaconContentKey.LightClientUpdatesByRange start count)
              = Ok (if bool_decide (Exists (fun p => is_Some (lc_update st !! p)) (seqZ start count))
                    then AlreadyStored else Store)).
    { unfold within_radius_and_unavailable. rewrite Hread. cbn [map_err]. rewrite Hps.
      by apply any_available_spec, seqZ_below. }
    rewrite Ha. split_and!.
    + case_bool_decide as H; split; try done.
      * intros H'. apply Exists_exists in H as (p & Hp & [v Hv]). rewrite Forall_forall in H'. by rewrite H' in Hv.
      * intros _. apply Forall_forall. intros p Hp. apply eq_None_not_Some. intros Hsome. apply H.
        apply Exists_exists. eauto.
    + by case_bool_decide; split.
    + intros Hex. rewrite get_by_key by done. rewrite Hps, collect_updates_missing; [done|by apply seqZ_below|done|eauto].
    + intros ->. rewrite get_by_key by done. rewrite Hps, seqZ_nil by lia.
      rewrite bool_decide_eq_false_2 by (intros H; inversion H). split; [done|]. simpl. unfold range_encode. simpl.
      by rewrite join_nil.
  - rewrite get_by_key by done. unfold within_radius_and_unavailable. rewrite Hread. simpl. by case_match.
  - rewrite get_by_key by done. unfold within_radius_and_unavailable. rewrite Hread. simpl. by case_match.
Qed.
End Correct.

(** ** The theorems at work *)

#[local] Existing Instances toy_hex toy_hex_ok toy_hashes toy_beacon_ssz toy_beacon_ssz_ok toy_u64_ssz toy_u64_ssz_ok.

Definition empty_beacon_storage : BeaconStorage.t :=
  BeaconStorage.mk [] ∅ 1000000 ProtocolId.Beacon BeaconStorageCache.new.

Definition two_updates : bytes := BeaconContentValue.encode sample_range.
Definition range_key (start count : Z) : BeaconContentKey.t :=
  BeaconContentKey.LightClientUpdatesByRange start count.

Lemma beacon_store_get_witness :
  exists st, BeaconStorage.store (CK := BeaconContentKey.overlay_key) empty_beacon_storage (Ok 0)
               (range_key 816 2) two_updates = (st, Ok tt)
    /\ BeaconStorage.get (CK := BeaconContentKey.overlay_key) st (range_key 816 2) = Ok (Some two_updates).
Proof.
  apply (beacon_store_get empty_beacon_storage (range_key 816 2) two_updates).
  - split; (split; [discriminate|reflexivity]).
  - eexists. split; [reflexivity|]. split; [reflexivity|]. split; [simpl; lia|]. split; [reflexivity|].
    split; [repeat constructor|]. split; [discriminate|]. intros p _. apply lookup_empty.
Defined.

(** A storage that holds the update of period 817 only. *)
Definition partial_storage : BeaconStorage.t :=
  BeaconStorage.mk [] {[ 817 := update_encode (Build_ForkVersioned ForkName.Capella
                                  (LightClientUpdate.Capella (update_at 8))) ]}
    1000000 ProtocolId.Beacon BeaconStorageCache.new.

Lemma beacon_asks_spec_witness :
  BeaconStorage.within_radius_and_unavailable (CK := BeaconContentKey.overlay_key) partial_storage (range_key 816 2)
    = Ok AlreadyStored
  /\ BeaconStorage.get (CK := BeaconContentKey.overlay_key) partial_storage (range_key 816 2) = Ok None.
Proof.
  assert (Hwf : BeaconContentKey.wf (range_key 816 2)) by (split; (split; [discriminate|reflexivity])).
  destruct (beacon_asks_spec partial_storage (range_key 816 2) Hwf) as (_ & H2 & H3 & _).
  - discriminate.
  - intros p v Hp. unfold partial_storage in Hp. cbn [BeaconStorage.lc_update] in Hp.
    apply lookup_singleton_Some in Hp as [<- <-]. eexists. reflexivity.
  - split.
    + apply H2. apply Exists_exists. exists 817. split; [apply elem_of_seqZ; lia|]. eexists. apply lookup_singleton_eq.
    + apply H3. apply Exists_exists. exists 816. split; [apply elem_of_seqZ; lia|]. by apply lookup_singleton_ne.
Defined.
