(* ===== verification/LightClient.v ===== *)
(** * The light client around the sync protocol.

    [light-client/src/node.rs], [client.rs], [database.rs], [rpc.rs] and
    [config/checkpoints.rs]: the node that synchronises and advances, the client that
    starts it (with fallbacks for a checkpoint that is too old), its builder, and where
    checkpoints are kept.  Files, HTTP requests and the JSON-RPC server belong to the
    world: the class [HostLib]. *)

From stdpp Require Import gmap.
From S2P Require Import Prelude.
From S2P Require Import Distance.
From S2P Require Import Hex.
From S2P Require Import ContentKey.
From S2P Require Import LightClientTypes.
From S2P Require Import ConsensusClient.
From S2P Require Import ChainOfTrust.
Import ConsensusLightClient.

(** ** Errors *)

Inductive NodeError :=
| OutOfSync (slots_behind : Z)
| ConsensusClientCreationError
| ConsensusAdvanceError (e : anyhow)
| ConsensusSyncError (e : anyhow).

(** The errors of the client: a node's, an [anyhow] one (a [ConsensusError] or not), or
    a message. *)
Inductive ClientError :=
| FromNode (e : NodeError)
| FromAnyhow (e : anyhow)
| ErrorMessage
| MissingNetworkConfig
| DataDirNotInConfig
| IoError
| NoExplicitFallback
| FallbackFetchFailed
| NoCheckpointFound.

(** ** The world *)

Module Slot.
Record t := mk { slot : Z; block_root : option bytes; epoch : Z }.
End Slot.

Record CheckpointFallbackService := { endpoint : bytes; service_name : bytes; service_state : bool }.

Class HostLib (W : Type) := {
  (** [R::new(url)], and starting the JSON-RPC server on a port *)
  rpc_new : bytes -> res anyhow unit;
  start_server : Z -> W -> res ClientError unit * W;
  (** writing a file (creating its directory), and opening and reading one: [None] if it
      cannot be opened, else the bytes that were read, up to an error *)
  write_file : bytes -> bytes -> W -> res ClientError unit * W;
  read_file : bytes -> W -> option bytes * W;
  (** the slots that a checkpoint service reports *)
  get_slots : bytes -> W -> option (list Slot.t) * W;
  (** the public list of services, by network *)
  get_service_list : W -> option (Network -> option (list CheckpointFallbackService)) * W;
}.

(** ** The node *)

Module Node.
Record t := mk { consensus : ConsensusLightClient.t; config : Config.t }.

Section Operations.
Context `{L : ConsensusLib} `{X : HexLib} {W : Type} `{R : ConsensusRpc W} `{H : HostLib W}.

Definition new (config : Config.t) : res NodeError t :=
  let? checkpoint_hash := ok_or (Config.checkpoint config) ConsensusClientCreationError in
  let? _ := map_err (fun _ => ConsensusClientCreationError) (rpc_new (Config.consensus_rpc config)) in
  Ok (mk (ConsensusLightClient.new checkpoint_hash config) config).

Definition with_portal (config : Config.t) : res NodeError t :=
  let? checkpoint_hash := ok_or (Config.checkpoint config) ConsensusClientCreationError in
  Ok (mk (ConsensusLightClient.new checkpoint_hash config) config).

(** A computation of the consensus client, with its errors converted. *)
Definition on_consensus {A} (f : anyhow -> NodeError) (m : SM (ConsensusLightClient.t * W) anyhow A)
    : SM (t * W) NodeError A := fun '(self, w) =>
  let '(r, (c, w)) := m (consensus self, w) in (map_err f r, (mk c (config self), w)).

Definition sync : SM (t * W) NodeError unit :=
  do _ <- on_consensus ConsensusSyncError check_rpc;
  on_consensus ConsensusSyncError ConsensusLightClient.sync.

Definition advance : SM (t * W) NodeError unit := on_consensus ConsensusAdvanceError ConsensusLightClient.advance.

Definition chain_id (self : t) : Z := LightClientTypes.chain_id (Config.chain (config self)).

Definition check_head_age (self : t) (now : Z) : res NodeError unit :=
  let synced_slot := BeaconBlockHeader.slot (ConsensusLightClient.get_header (consensus self)) in
  match ConsensusLightClient.expected_current_slot (consensus self) now with
  | Ok expected_slot =>
      let slot_delay := wrap64 (expected_slot - synced_slot) in
      if 10 <? slot_delay then Err (OutOfSync slot_delay) else Ok tt
  | Err e => Err (ConsensusSyncError e)
  | Panic => Panic
  end.

Definition get_header (self : t) (now : Z) : res NodeError BeaconBlockHeader.t :=
  let? _ := check_head_age self now in
  Ok (ConsensusLightClient.get_header (consensus self)).

Definition get_last_checkpoint (self : t) : option bytes := ConsensusLightClient.last_checkpoint (consensus self).

(** [to_std] of a duration in seconds, taken for an [i64]. *)
Definition duration_until_next_update (self : t) (now now' : Z) : res NodeError Z :=
  let? d := map_err ConsensusSyncError
              (ConsensusLightClient.duration_until_next_update (consensus self) now now') in
  if d <? 2 ^ 63 then Ok d else Panic.
End Operations.
End Node.

(** ** Where checkpoints are kept *)

Class Database (W DB : Type) := {
  db_new : Config.t -> res ClientError DB;
  save_checkpoint : DB -> bytes -> W -> res ClientError unit * W;
  load_checkpoint : DB -> W -> res ClientError bytes * W;
}.

Module FileDB.
Record t := mk { data_dir : bytes; default_checkpoint : bytes }.

Section Operations.
Context {W : Type} `{H : HostLib W}.

(** [data_dir.join("checkpoint")]. *)
Definition checkpoint_path (dir : bytes) : bytes := dir ++ [x2f; x63; x68; x65; x63; x6b; x70; x6f; x69; x6e; x74].

Definition new (config : Config.t) : res ClientError t :=
  match Config.data_dir config with
  | Some data_dir => Ok (mk data_dir (Config.default_checkpoint config))
  | None => Err DataDirNotInConfig
  end.

Definition save_checkpoint (self : t) (checkpoint : bytes) (w : W) : res ClientError unit * W :=
  write_file (checkpoint_path (data_dir self)) checkpoint w.

(** A read error is not looked at, only the number of bytes. *)
Definition load_checkpoint (self : t) (w : W) : res ClientError bytes * W :=
  let '(res, w) := read_file (checkpoint_path (data_dir self)) w in
  let buf := default [] res in
  if (length buf =? 32)%nat && bool_decide (is_Some res) then (Ok buf, w)
  else (Ok (default_checkpoint self), w).

#[global] Instance database : Database W t :=
  {| db_new := new; LightClient.save_checkpoint := save_checkpoint; LightClient.load_checkpoint := load_checkpoint |}.
End Operations.
End FileDB.

Module ConfigDB.
Record t := mk { checkpoint : bytes }.

Definition new (config : Config.t) : res ClientError t :=
  Ok (mk (default (Config.default_checkpoint config) (Config.checkpoint config))).

#[global] Instance database {W} : Database W t := {|
  db_new := new;
  LightClient.save_checkpoint _ _ w := (Ok tt, w);
  LightClient.load_checkpoint self w := (Ok (checkpoint self), w);
|}.
End ConfigDB.

(** ** Checkpoint services *)

Module CheckpointFallback.
Record t := mk { services : list (Network * list CheckpointFallbackService); networks : list Network }.

#[global] Instance network_eq_dec : EqDecision Network.
Proof. solve_decision. Defined.

Definition new : t := mk [] [Mainnet; Goerli].

Section Operations.
Context {W : Type} `{H : HostLib W}.

(** The loop of [build]: a network without services is an error. *)
Fixpoint collect_services (list_ : Network -> option (list CheckpointFallbackService)) (ns : list Network)
    : res ClientError (list (Network * list CheckpointFallbackService)) :=
  match ns with
  | [] => Ok []
  | n :: ns =>
      let? parsed := ok_or (list_ n) ErrorMessage in
      let? rest := collect_services list_ ns in
      Ok ((n, parsed) :: rest)
  end.

Definition build (self : t) (w : W) : res ClientError t * W :=
  let '(l, w) := get_service_list w in
  match l with
  | None => (Err ErrorMessage, w)
  | Some l =>
      (let? services := collect_services l (networks self) in Ok (mk services (networks self)), w)
  end.

(** [self.services[network]]: a panic when there is no entry. *)
Definition services_of (self : t) (n : Network) : res ClientError (list CheckpointFallbackService) :=
  match list_find (fun p => p.1 = n) (services self) with
  | Some (_, (_, l)) => Ok l
  | None => Panic
  end.

Definition get_all_fallback_endpoints (self : t) (n : Network) : res ClientError (list bytes) :=
  let? l := services_of self n in Ok (endpoint <$> l).
Definition get_healthy_fallback_services (self : t) (n : Network) : res ClientError (list CheckpointFallbackService) :=
  let? l := services_of self n in Ok (filter (fun s => service_state s = true) l).
Definition get_healthy_fallback_endpoints (self : t) (n : Network) : res ClientError (list bytes) :=
  let? l := services_of self n in Ok (endpoint <$> filter (fun s => service_state s = true) l).

(** [trim_end_matches('/')]. *)
Fixpoint drop_slashes (s : bytes) : bytes :=
  match s with
  | x2f :: s => drop_slashes s
  | _ => s
  end.
Definition trim_end_slashes (s : bytes) : bytes := reverse (drop_slashes (reverse s)).

(** "/checkpointz/v1/beacon/slots". *)
Definition slots_path : bytes :=
  [x2f; x63; x68; x65; x63; x6b; x70; x6f; x69; x6e; x74; x7a; x2f; x76; x31; x2f; x62; x65; x61; x63; x6f; x6e;
   x2f; x73; x6c; x6f; x74; x73].
Definition construct_url (endpoint : bytes) : bytes := trim_end_slashes endpoint ++ slots_path.

(** What one service contributes: its first slot with a block root. *)
Definition query_slot (slots : option (list Slot.t)) : option Slot.t :=
  slots ← slots;
  snd <$> list_find (fun s => is_Some (Slot.block_root s)) slots.

Fixpoint query_services (ss : list CheckpointFallbackService) (w : W) : list Slot.t * W :=
  match ss with
  | [] => ([], w)
  | s :: ss =>
      let '(slots, w) := get_slots (construct_url (endpoint s)) w in
      let '(rest, w) := query_services ss w in
      (match query_slot slots with Some s => s :: rest | None => rest end, w)
  end.

(** The map from checkpoints to their numbers. *)
Definition count_checkpoints (cs : list bytes) : gmap bytes Z :=
  fold_left (fun m c => <[c := default 0 (m !! c) + 1]> m) cs ∅.

(** The choice among the slots of the services; the traversal of the map is an argument. *)
Definition select_checkpoint (order : gmap bytes Z -> list (bytes * Z)) (slots : list Slot.t)
    : res ClientError bytes :=
  let slots := filter (fun s => is_Some (Slot.block_root s)) slots in
  let? max_epoch_slot := ok_or (max_by_key Slot.epoch slots) NoCheckpointFound in
  let max_epoch := Slot.epoch max_epoch_slot in
  let slots := filter (fun s => Slot.epoch s = max_epoch) slots in
  let checkpoints := omap Slot.block_root slots in
  let m := count_checkpoints checkpoints in
  ok_or (fst <$> max_by_key snd (order m)) NoCheckpointFound.

Definition fetch_latest_checkpoint (order : gmap bytes Z -> list (bytes * Z)) (self : t) (n : Network) (w : W)
    : res ClientError bytes * W :=
  match get_healthy_fallback_services self n with
  | Ok ss => let '(slots, w) := query_services ss w in (select_checkpoint order slots, w)
  | Err e => (Err e, w)
  | Panic => (Panic, w)
  end.

(** [raw.data.slots[0]] panics when there is none. *)
Definition fetch_checkpoint_from_api (url : bytes) (w : W) : res ClientError bytes * W :=
  let '(slots, w) := get_slots (construct_url url) w in
  match slots with
  | None => (Err ErrorMessage, w)
  | Some slots =>
      (let? slot := index slots 0 in ok_or (Slot.block_root slot) ErrorMessage, w)
  end.
End Operations.
End CheckpointFallback.

(** ** The client *)

Module Client.
Record t (DB : Type) := mk {
  node : Node.t;
  rpc : option Z;
  db : DB;
  fallback : option bytes;
  load_external_fallback : bool;
  (** whether the task that advances the node was spawned *)
  advancing : bool;
}.
#[global] Arguments mk {DB}.
#[global] Arguments node {DB}.
#[global] Arguments rpc {DB}.
#[global] Arguments db {DB}.
#[global] Arguments fallback {DB}.
#[global] Arguments load_external_fallback {DB}.
#[global] Arguments advancing {DB}.

Section Operations.
Context `{L : ConsensusLib} `{X : HexLib} {W : Type} `{R : ConsensusRpc W} `{H : HostLib W}
  {DB : Type} `{D : Database W DB}.
(** The traversal of hash maps. *)
Context (order : gmap bytes Z -> list (bytes * Z)).

Definition set_node (self : t DB) (n : Node.t) : t DB :=
  mk n (rpc self) (db self) (fallback self) (load_external_fallback self) (advancing self).

(** The checkpoint of the configuration, or the one that was saved. *)
Definition with_checkpoint (config : Config.t) (db : DB) (w : W) : res ClientError Config.t * W :=
  match Config.checkpoint config with
  | Some _ => (Ok config, w)
  | None =>
      let '(r, w) := load_checkpoint db w in
      (let? checkpoint := r in Ok (Config.set_checkpoint config checkpoint), w)
  end.

(** [new] and [with_portal], which differ in how the node gets its RPC client. *)
Definition build_client (make_node : Config.t -> res NodeError Node.t) (config : Config.t) (w : W)
    : res ClientError (t DB) * W :=
  match db_new config with
  | Ok db =>
      let '(r, w) := with_checkpoint config db w in
      (let? config := r in
       let? node := map_err FromNode (make_node config) in
       Ok (mk node (Config.rpc_port config) db (Config.fallback config) (Config.load_external_fallback config) false),
       w)
  | Err e => (Err e, w)
  | Panic => (Panic, w)
  end.

Definition new (config : Config.t) (w : W) : res ClientError (t DB) * W := build_client Node.new config w.
Definition with_portal (config : Config.t) (w : W) : res ClientError (t DB) * W :=
  build_client Node.with_portal config w.

(** A computation of the node. *)
Definition on_node {A} (m : SM (Node.t * W) NodeError A) : SM (t DB * W) ClientError A := fun '(self, w) =>
  let '(r, (n, w)) := m (node self, w) in (map_err FromNode r, (set_node self n, w)).

(** A new consensus client for a new checkpoint, which then synchronises. *)
Definition restart_from (checkpoint : bytes) : SM (t DB * W) ClientError unit :=
  do config <- gets (fun self => Node.config (node self));
  do _ <- lift (map_err FromAnyhow (rpc_new (Config.consensus_rpc config)));
  do _ <- update_self (fun self =>
            (Ok tt, set_node self (Node.mk (ConsensusLightClient.new checkpoint config) (Node.config (node self)))));
  on_node Node.sync.

Definition boot_from_fallback : SM (t DB * W) ClientError unit :=
  do fallback <- gets fallback;
  match fallback with
  | Some fallback =>
      do checkpoint <- attempt (call (CheckpointFallback.fetch_checkpoint_from_api fallback));
      match checkpoint with
      | Ok checkpoint => restart_from checkpoint
      | _ => lift (Err FallbackFetchFailed)
      end
  | None => lift (Err NoExplicitFallback)
  end.

Definition boot_from_external_fallbacks : SM (t DB * W) ClientError unit :=
  do list_ <- attempt (call (CheckpointFallback.build CheckpointFallback.new));
  match list_ with
  | Ok list_ =>
      do chain <- gets (fun self => LightClientTypes.chain_id (Config.chain (Node.config (node self))));
      let network := if chain =? 5 then Goerli else Mainnet in
      do checkpoint <- attempt (call (CheckpointFallback.fetch_latest_checkpoint order list_ network));
      match checkpoint with
      | Ok checkpoint => restart_from checkpoint
      | _ => lift (Err FallbackFetchFailed)
      end
  | _ => lift (Err FallbackFetchFailed)
  end.

Definition start_advance_thread : SM (t DB * W) ClientError unit :=
  update_self (fun self =>
    (Ok tt, mk (node self) (rpc self) (db self) (fallback self) (load_external_fallback self) true)).

(** What [start] does when synchronising fails. *)
Definition recover (err : ClientError) : SM (t DB * W) ClientError unit :=
  match err with
  | FromNode (ConsensusSyncError (Consensus CheckpointTooOld)) =>
      do fallback <- attempt boot_from_fallback;
      do external <- gets load_external_fallback;
      match fallback with
      | Ok _ => ret tt
      | _ =>
          if external then boot_from_external_fallbacks
          else lift (Err (FromAnyhow (Consensus CheckpointTooOld)))
      end
  | FromNode (ConsensusSyncError (Consensus e)) => lift (Err (FromAnyhow (Consensus e)))
  | FromNode (ConsensusSyncError _) => lift (Err ErrorMessage)
  | e => lift (Err e)
  end.

Definition start : SM (t DB * W) ClientError unit :=
  do port <- gets rpc;
  do _ <- match port with
          | Some port => call (start_server port)
          | None => ret tt
          end;
  do sync_res <- attempt (on_node Node.sync);
  do _ <- match sync_res with
          | Ok _ => ret tt
          | Err err => recover err
          | Panic => lift Panic
          end;
  start_advance_thread.

(** One round of the task that [start_advance_thread] spawns: errors are logged, and the
    seconds to sleep are returned. *)
Definition advance_round : SM (t DB * W) ClientError Z :=
  do _ <- attempt (on_node Node.advance);
  do n <- gets node;
  do now <- (fun '(self, w) => let '(z, w) := clock w in (Ok z, (self, w)));
  do now' <- (fun '(self, w) => let '(z, w) := clock w in (Ok z, (self, w)));
  lift (map_err FromNode (Node.duration_until_next_update n now now')).

Definition shutdown (self : t DB) (w : W) : W :=
  match Node.get_last_checkpoint (node self) with
  | Some checkpoint => (save_checkpoint (db self) checkpoint w).2
  | None => w
  end.

Definition chain_id (self : t DB) : Z := Node.chain_id (node self).
Definition get_header (self : t DB) (now : Z) : res NodeError BeaconBlockHeader.t := Node.get_header (node self) now.
End Operations.
End Client.

(** ** The builder *)

Module ClientBuilder.
Record t := mk {
  network : option Network;
  consensus_rpc : option bytes;
  checkpoint : option bytes;
  rpc_port : option Z;
  data_dir : option bytes;
  config : option Config.t;
  fallback : option bytes;
  load_external_fallback : bool;
  strict_checkpoint_age : bool;
}.

Definition new : t := mk None None None None None None None false false.

Section Operations.
Context `{X : HexLib}.
Implicit Types (self : t).

Definition set_network self (n : Network) : t :=
  mk (Some n) (consensus_rpc self) (checkpoint self) (rpc_port self) (data_dir self) (config self) (fallback self)
     (load_external_fallback self) (strict_checkpoint_age self).
Definition set_consensus_rpc self (r : bytes) : t :=
  mk (network self) (Some r) (checkpoint self) (rpc_port self) (data_dir self) (config self) (fallback self)
     (load_external_fallback self) (strict_checkpoint_age self).
(** A checkpoint that is not hex is a panic. *)
Definition set_checkpoint self (c : bytes) : res ClientError t :=
  match hex_str_to_bytes c with
  | Some c =>
      Ok (mk (network self) (consensus_rpc self) (Some c) (rpc_port self) (data_dir self) (config self)
            (fallback self) (load_external_fallback self) (strict_checkpoint_age self))
  | None => Panic
  end.
Definition set_rpc_port self (p : Z) : t :=
  mk (network self) (consensus_rpc self) (checkpoint self) (Some p) (data_dir self) (config self) (fallback self)
     (load_external_fallback self) (strict_checkpoint_age self).
Definition set_data_dir self (d : bytes) : t :=
  mk (network self) (consensus_rpc self) (checkpoint self) (rpc_port self) (Some d) (config self) (fallback self)
     (load_external_fallback self) (strict_checkpoint_age self).
Definition set_config self (c : Config.t) : t :=
  mk (network self) (consensus_rpc self) (checkpoint self) (rpc_port self) (data_dir self) (Some c) (fallback self)
     (load_external_fallback self) (strict_checkpoint_age self).
Definition set_fallback self (f : bytes) : t :=
  mk (network self) (consensus_rpc self) (checkpoint self) (rpc_port self) (data_dir self) (config self) (Some f)
     (load_external_fallback self) (strict_checkpoint_age self).
Definition set_load_external_fallback self : t :=
  mk (network self) (consensus_rpc self) (checkpoint self) (rpc_port self) (data_dir self) (config self)
     (fallback self) true (strict_checkpoint_age self).
Definition set_strict_checkpoint_age self : t :=
  mk (network self) (consensus_rpc self) (checkpoint self) (rpc_port self) (data_dir self) (config self)
     (fallback self) (load_external_fallback self) true.

Definition base_config self : res ClientError BaseConfig.t :=
  match network self with
  | Some network => Ok (network_to_base_config network)
  | None =>
      let? config := ok_or (config self) MissingNetworkConfig in
      Ok (Config.to_base_config config)
  end.

(** An option of the builder, or that of its configuration. *)
Definition or_config {A} self (own : option A) (field : Config.t -> option A) : option A :=
  match own with
  | Some a => Some a
  | None => match config self with Some config => field config | None => None end
  end.
Definition flag_or_config self (own : bool) (field : Config.t -> bool) : bool :=
  match config self with Some config => own || field config | None => own end.

Definition built_config self (base : BaseConfig.t) (rpc_url : bytes) : Config.t := {|
  Config.consensus_rpc := rpc_url;
  Config.checkpoint := or_config self (checkpoint self) Config.checkpoint;
  Config.default_checkpoint :=
    match config self with
    | Some config => Config.default_checkpoint config
    | None => BaseConfig.default_checkpoint base
    end;
  Config.rpc_port := or_config self (rpc_port self) Config.rpc_port;
  Config.data_dir := or_config self (data_dir self) Config.data_dir;
  Config.chain := BaseConfig.chain base;
  Config.forks := BaseConfig.forks base;
  Config.max_checkpoint_age := BaseConfig.max_checkpoint_age base;
  Config.fallback := or_config self (fallback self) Config.fallback;
  Config.load_external_fallback := flag_or_config self (load_external_fallback self) Config.load_external_fallback;
  Config.strict_checkpoint_age := flag_or_config self (strict_checkpoint_age self) Config.strict_checkpoint_age;
|}.

(** The configuration of [build]: the URL must come from one of the two, or it panics. *)
Definition build_config self : res ClientError Config.t :=
  let? base := base_config self in
  let? rpc_url :=
    match consensus_rpc self with
    | Some r => Ok r
    | None => match config self with Some config => Ok (Config.consensus_rpc config) | None => Panic end
    end in
  Ok (built_config self base rpc_url).

(** That of [build_with_rpc]: the URL stays empty. *)
Definition build_with_rpc_config self : res ClientError Config.t :=
  let? base := base_config self in
  Ok (built_config self base []).
End Operations.

Section Build.
Context `{L : ConsensusLib} `{X : HexLib} {W : Type} `{R : ConsensusRpc W} `{H : HostLib W}
  {DB : Type} `{D : Database W DB}.

Definition build (self : t) (w : W) : res ClientError (Client.t DB) * W :=
  match build_config self with
  | Ok config => Client.new config w
  | Err e => (Err e, w)
  | Panic => (Panic, w)
  end.

Definition build_with_rpc (self : t) (w : W) : res ClientError (Client.t DB) * W :=
  match build_with_rpc_config self with
  | Ok config => Client.with_portal config w
  | Err e => (Err e, w)
  | Panic => (Panic, w)
  end.
End Build.
End ClientBuilder.

(** ** Starting is safe *)

Section Start.
Context `{L : ConsensusLib} `{X : HexLib} `{!HexLibOk X} {W : Type} `{R : ConsensusRpc W} `{!ConsensusRpcTyped W}
  `{H : HostLib W} {DB : Type} `{D : Database W DB}.
Context (order : gmap bytes Z -> list (bytes * Z)).

(** The node and its consensus client share a configuration. *)
Definition node_ok (n : Node.t) : Prop := ConsensusLightClient.config (Node.consensus n) = Node.config n.

(** The client has synchronised from the checkpoint it was given. *)
Definition node_trusted (n : Node.t) : Prop :=
  trusted_client (initial_checkpoint (Node.consensus n)) (Node.config n) (Node.consensus n).

Lemma check_rpc_same (c : ConsensusLightClient.t) w r c' w' : check_rpc (W := W) (c, w) = (r, (c', w')) -> c' = c.
Proof.
  unfold check_rpc, bind, call, gets, lift, ret. destruct (rpc_chain_id w) as [[chain| |] w1]; simpl;
    [|by intros [= <- <- <-]..]. by case_match; intros [= <- <- <-].
Qed.

Lemma node_sync_spec n w r n' w' :
  node_ok n -> Node.sync (W := W) (n, w) = (r, (n', w')) ->
  Node.config n' = Node.config n
  /\ (r = Ok tt -> node_trusted n' /\ initial_checkpoint (Node.consensus n') = initial_checkpoint (Node.consensus n)).
Proof.
  intros Hn E. unfold Node.sync, Node.on_consensus, bind in E.
  destruct (check_rpc (Node.consensus n, w)) as [r1 [c1 w1]] eqn:E1. apply check_rpc_same in E1. subst c1.
  destruct r1; simpl in E; [|by injection E as <- <- <-..].
  destruct (ConsensusLightClient.sync (Node.consensus n, w1)) as [r2 [c2 w2]] eqn:E2.
  injection E as <- <- <-. split; [done|]. intros Hok. destruct r2 as [[]| |]; [|done..]. simpl.
  assert (Ht : trusted_client (initial_checkpoint (Node.consensus n)) (Node.config n) c2)
    by (exact (sync_spec _ _ _ _ _ _ _ eq_refl Hn E2 (or_introl eq_refl))).
  unfold node_trusted. simpl. rewrite (tc_checkpoint _ _ _ Ht). done.
Qed.

(** Restarting from another checkpoint. *)
Lemma restart_from_spec checkpoint (self : Client.t DB) w r self' w' :
  Client.restart_from checkpoint (self, w) = (r, (self', w')) -> r = Ok tt ->
  node_trusted (Client.node self') /\ Node.config (Client.node self') = Node.config (Client.node self)
  /\ initial_checkpoint (Node.consensus (Client.node self')) = checkpoint.
Proof.
  unfold Client.restart_from, bind, gets, lift, update_self, Client.on_node.
  destruct (rpc_new _) as [[]| |]; simpl; [|intros [= <- <- <-]; done..].
  set (n := Node.mk _ _). destruct (Node.sync (n, w)) as [r1 [n1 w1]] eqn:E. intros [= <- <- <-] Hr.
  destruct r1 as [[]| |]; [|done..]. simpl.
  destruct (node_sync_spec n w (Ok tt) n1 w1 eq_refl E) as [Hc Ht]. destruct (Ht eq_refl) as [H1 H2]. done.
Qed.

Lemma boot_from_fallback_spec (self : Client.t DB) w self' w' :
  Client.boot_from_fallback (self, w) = (Ok tt, (self', w')) ->
  node_trusted (Client.node self') /\ Node.config (Client.node self') = Node.config (Client.node self).
Proof.
  unfold Client.boot_from_fallback. unfold bind at 1, gets.
  destruct (Client.fallback self) as [url|]; [|done].
  unfold bind, attempt, call. destruct (CheckpointFallback.fetch_checkpoint_from_api url w) as [[c| |] w1]; simpl; [|done..].
  intros E. destruct (restart_from_spec _ _ _ _ _ _ E eq_refl) as (? & ? & _). done.
Qed.

Lemma boot_external_spec (self : Client.t DB) w self' w' :
  Client.boot_from_external_fallbacks order (self, w) = (Ok tt, (self', w')) ->
  node_trusted (Client.node self') /\ Node.config (Client.node self') = Node.config (Client.node self).
Proof.
  unfold Client.boot_from_external_fallbacks, bind at 1, attempt at 1, call at 1.
  destruct (CheckpointFallback.build CheckpointFallback.new w) as [[l| |] w1]; simpl; [|done..].
  unfold bind at 1, gets. unfold bind, attempt, call.
  destruct (CheckpointFallback.fetch_latest_checkpoint order l _ w1) as [[c| |] w2]; simpl; [|done..].
  intros E. destruct (restart_from_spec _ _ _ _ _ _ E eq_refl) as (? & ? & _). done.
Qed.
(** Recovery from a failed synchronisation: only from a checkpoint that is too old. *)
Lemma recover_spec err (self : Client.t DB) w self' w' :
  Client.recover order err (self, w) = (Ok tt, (self', w')) ->
  err = FromNode (ConsensusSyncError (Consensus CheckpointTooOld))
  /\ node_trusted (Client.node self').
Proof.
  unfold Client.recover. intros E.
  destruct err as [[| | |[[]| |]]| | | | | | | |]; try discriminate E. split; [done|].
  unfold bind at 1, attempt in E.
  destruct (Client.boot_from_fallback (self, w)) as [[[]|e|] [self1 w1]] eqn:Eb; [| |done].
  - unfold bind, gets, ret in E. injection E as <- <-. by apply boot_from_fallback_spec in Eb as [? _].
  - unfold bind, gets in E. destruct (Client.load_external_fallback self1); [|done].
    by apply boot_external_spec in E as [? _].
Qed.

(** The ways in which [start] succeeds. *)
Lemma start_cases (self : Client.t DB) w self' w' :
  node_ok (Client.node self) -> Client.start order (self, w) = (Ok tt, (self', w')) ->
  Client.advancing self' = true /\ node_trusted (Client.node self')
  /\ (initial_checkpoint (Node.consensus (Client.node self'))
       = initial_checkpoint (Node.consensus (Client.node self))
     \/ exists w1 n1 w2 s2, Node.sync (W := W) (Client.node self, w1)
           = (Err (ConsensusSyncError (Consensus CheckpointTooOld)), (n1, w2))
         /\ Client.recover order (FromNode (ConsensusSyncError (Consensus CheckpointTooOld)))
              (Client.set_node self n1, w2) = (Ok tt, s2)).
Proof.
  intros Hn. unfold Client.start, bind at 1, gets at 1.
  destruct ((match Client.rpc self with Some port => call (start_server port) | None => ret tt end) (self, w))
    as [r0 s0] eqn:E0.
  assert (Hs0 : s0.1 = self).
  { destruct (Client.rpc self); [|by injection E0 as <- <-].
    unfold call in E0. destruct (start_server _ w). by injection E0 as <- <-. }
  unfold bind at 1. rewrite E0. destruct r0 as [[]| |]; [|done..]. destruct s0 as [self0 w0]. simpl in Hs0. subst self0.
  unfold bind at 1, attempt, Client.on_node.
  destruct (Node.sync (Client.node self, w0)) as [r1 [n1 w1]] eqn:E1.
  destruct (node_sync_spec _ _ _ _ _ Hn E1) as [_ Hok].
  destruct r1 as [[]|e|]; cbn [map_err]; [| |done]; unfold bind at 1, Client.start_advance_thread, update_self.
  - intros [= <- <-]. simpl. destruct (Hok eq_refl). auto.
  - destruct (Client.recover order (FromNode e) (Client.set_node self n1, w1)) as [[[]| |] [self2 w2]] eqn:E2;
      [|done..].
    intros [= <- <-]. simpl. assert (E2' := E2). apply recover_spec in E2' as [[= ->] Ht].
    split_and!; [done|exact Ht|]. right. by exists w0, n1, w1, (self2, w2).
Qed.

(** The client that has nothing to fall back on. *)
Record unbacked (checkpoint : bytes) (self : Client.t DB) : Prop := {
  ub_node : node_ok (Client.node self);
  ub_checkpoint : initial_checkpoint (Node.consensus (Client.node self)) = checkpoint;
  ub_fallback : Client.fallback self = None;
  ub_external : Client.load_external_fallback self = false;
  ub_port : Client.rpc self = None;
}.

Lemma node_sync_same n w r n' w' :
  node_ok n -> Node.sync (W := W) (n, w) = (r, (n', w')) ->
  node_ok n' /\ initial_checkpoint (Node.consensus n') = initial_checkpoint (Node.consensus n).
Proof.
  intros Hn E. unfold Node.sync, Node.on_consensus, bind in E.
  destruct (check_rpc (Node.consensus n, w)) as [r1 [c1 w1]] eqn:E1. apply check_rpc_same in E1. subst c1.
  destruct r1; simpl in E; [|by injection E as <- <- <-; split..].
  destruct (ConsensusLightClient.sync (Node.consensus n, w1)) as [r2 [c2 w2]] eqn:E2.
  injection E as <- <- <-. unfold node_ok. simpl.
  by destruct (sync_same _ _ _ _ _ _ _ eq_refl Hn E2).
Qed.

Lemma recover_unbacked checkpoint err self w r self' w' :
  unbacked checkpoint self -> Client.recover order err (self, w) = (r, (self', w')) ->
  r <> Ok tt /\ unbacked checkpoint self'.
Proof.
  intros Hu E. unfold Client.recover in E.
  destruct err as [[| | |[[]| |]]| | | | | | | |]; try (by injection E as <- <- <-).
  unfold bind at 1, attempt, Client.boot_from_fallback, bind at 1, gets at 1 in E.
  rewrite (ub_fallback _ _ Hu) in E. unfold lift, bind, gets in E.
  rewrite (ub_external _ _ Hu) in E. by injection E as <- <- <-.
Qed.

(** Without a fallback, starting is synchronising. *)
Lemma start_unbacked checkpoint self w r self' w' :
  unbacked checkpoint self -> Client.start order (self, w) = (r, (self', w')) ->
  unbacked checkpoint self' /\ (r = Ok tt -> Client.advancing self' = true /\ node_trusted (Client.node self')).
Proof.
  intros Hu. unfold Client.start, bind at 1, gets at 1. rewrite (ub_port _ _ Hu).
  unfold bind at 1, ret at 1. unfold bind at 1, attempt, Client.on_node.
  destruct (Node.sync (Client.node self, w)) as [r1 [n1 w1]] eqn:E1.
  destruct (node_sync_same _ _ _ _ _ (ub_node _ _ Hu) E1) as [H1 H2].
  destruct (node_sync_spec _ _ _ _ _ (ub_node _ _ Hu) E1) as [_ Hok].
  assert (Hu1 : unbacked checkpoint (Client.set_node self n1)).
  { destruct Hu. split; simpl; try done. by rewrite H2. }
  destruct r1 as [[]|e|]; cbn [map_err]; [unfold bind at 1..|by intros [= <- <- <-]].
  - unfold ret, Client.start_advance_thread, update_self. intros [= <- <- <-].
    split; [by destruct Hu1; split|]. intros _. simpl. by destruct (Hok eq_refl).
  - destruct (Client.recover order (FromNode e) (Client.set_node self n1, w1)) as [r2 [self2 w2]] eqn:E2.
    destruct (recover_unbacked _ _ _ _ _ _ _ Hu1 E2) as [Hne Hu2].
    destruct r2 as [[]| |]; [done|..]; intros [= <- <- <-]; done.
Qed.

(** Starting is safe.  When [start] succeeds, the task that advances the node runs
    and the node is on the chain of trust of the checkpoint it holds; and that is the
    checkpoint it was configured with, unless synchronising from that one failed because
    it was too old. *)
Theorem start_trusted (self : Client.t DB) w self' w' :
  node_ok (Client.node self) -> Client.start order (self, w) = (Ok tt, (self', w')) ->
  Client.advancing self' = true /\ node_trusted (Client.node self')
  /\ (initial_checkpoint (Node.consensus (Client.node self'))
       = initial_checkpoint (Node.consensus (Client.node self))
     \/ exists w1, (Node.sync (W := W) (Client.node self, w1)).1
         = Err (ConsensusSyncError (Consensus CheckpointTooOld))).
Proof.
  intros Hn Hs. destruct (start_cases _ _ _ _ Hn Hs) as (Ha & Ht & [Hc|(w1 & n1 & w2 & s2 & E & _)]); [auto|].
  split_and!; [done..|]. right. exists w1. by rewrite E.
Qed.

(** The task that advances the node keeps it on the chain of trust of its checkpoint,
    whatever each round's outcome. *)
Theorem advance_round_trusted (self : Client.t DB) w r self' w' :
  node_trusted (Client.node self) -> Client.advance_round (self, w) = (r, (self', w')) ->
  node_trusted (Client.node self')
  /\ initial_checkpoint (Node.consensus (Client.node self'))
     = initial_checkpoint (Node.consensus (Client.node self)).
Proof.
  intros Ht E. unfold Client.advance_round, bind at 1, attempt, Client.on_node, Node.advance, Node.on_consensus in E.
  destruct (ConsensusLightClient.advance (Node.consensus (Client.node self), w)) as [r1 [c1 w1]] eqn:E1.
  apply (advance_keeps (initial_checkpoint (Node.consensus (Client.node self))) (Node.config (Client.node self))) in E1
    as [H1 _]; [|done].
  assert (Hself : Client.node self' = Node.mk c1 (Node.config (Client.node self))).
  { destruct r1; simpl in E; unfold bind, gets, lift in E; destruct (clock w1) as [? w2]; destruct (clock w2);
      by injection E as <- <- <-. }
  rewrite Hself. unfold node_trusted. simpl. rewrite (tc_checkpoint _ _ _ H1). done.
Qed.
End Start.

(** ** Choosing a checkpoint *)

Section Select.
Import CheckpointFallback.

(** How often a checkpoint occurs. *)
Definition occurrences (c : bytes) (cs : list bytes) : Z := Z.of_nat (length (filter (fun x => x = c) cs)).

Lemma count_from cs : forall m c,
  default 0 (fold_left (fun m c => <[c := default 0 (m !! c) + 1]> m) cs m !! c)
    = default 0 ((m : gmap bytes Z) !! c) + occurrences c cs
  /\ (is_Some (fold_left (fun m c => <[c := default 0 (m !! c) + 1]> m) cs m !! c)
      <-> is_Some (m !! c) \/ c ∈ cs).
Proof.
  induction cs as [|x cs IH]; intros m c.
  { cbn. split; [unfold occurrences; simpl; lia|]. rewrite elem_of_nil. naive_solver. }
  cbn [fold_left]. destruct (IH (<[x := default 0 (m !! x) + 1]> m) c) as [IH1 IH2].
  rewrite IH1, IH2. unfold occurrences. rewrite filter_cons, elem_of_cons.
  destruct (decide (x = c)) as [->|Hne].
  - rewrite lookup_insert_eq. simpl. split; [lia|]. naive_solver.
  - rewrite lookup_insert_ne by done. split; [done|]. naive_solver.
Qed.

Lemma count_checkpoints_lookup cs c n :
  count_checkpoints cs !! c = Some n <-> c ∈ cs /\ n = occurrences c cs.
Proof.
  unfold count_checkpoints. destruct (count_from cs ∅ c) as [H1 H2]. rewrite lookup_empty in H1, H2.
  destruct (fold_left _ cs ∅ !! c) as [k|]; simpl in *.
  - split; [intros [= <-]|intros [_ ->]; f_equal; lia]. split; [|lia].
    destruct (proj1 H2 ltac:(by eexists)) as [[? ?]|?]; done.
  - split; [done|]. intros [Hc _]. destruct (proj2 H2 (or_intror Hc)) as [? [=]].
Qed.

(** The traversal of a map meets each entry once. *)
Definition order_ok (order : gmap bytes Z -> list (bytes * Z)) : Prop := forall m, order m ≡ₚ map_to_list m.

(** The checkpoints that services report for the latest epoch any of them knows. *)
Definition latest_checkpoints (slots : list Slot.t) : list bytes :=
  let rooted := filter (fun s => is_Some (Slot.block_root s)) slots in
  omap Slot.block_root
    (filter (fun s => Forall (fun s' => Slot.epoch s' <= Slot.epoch s) rooted) rooted).
Lemma select_latest order slots :
  select_checkpoint order slots
  = ok_or (fst <$> max_by_key snd (order (count_checkpoints (latest_checkpoints slots)))) NoCheckpointFound
  \/ filter (fun s => is_Some (Slot.block_root s)) slots = [] /\ select_checkpoint order slots = Err NoCheckpointFound.
Proof.
  unfold select_checkpoint, latest_checkpoints. set (rooted := filter _ slots).
  pose proof (max_by_key_spec Slot.epoch rooted) as Hm. destruct (max_by_key Slot.epoch rooted) as [s|]; [|by right].
  left. cbn [ok_or]. destruct Hm as [Hs Hmax]. do 6 f_equal. apply filter_ext_in.
  intros x Hx. rewrite Forall_forall. split; [by intros ->|].
  intros Hall. specialize (Hall s Hs). specialize (Hmax x Hx). lia.
Qed.

Lemma latest_nonempty slots s :
  s ∈ slots -> is_Some (Slot.block_root s) -> exists c, c ∈ latest_checkpoints slots.
Proof.
  intros Hs Hr. unfold latest_checkpoints. set (rooted := filter _ slots).
  assert (Hin : s ∈ rooted) by (by apply list_elem_of_filter).
  pose proof (max_by_key_spec Slot.epoch rooted) as Hm. destruct (max_by_key Slot.epoch rooted) as [s1|].
  - destruct Hm as [H1 Hmax]. assert (Hr1 := H1). apply list_elem_of_filter in Hr1 as [[c Hc] _]. exists c.
    apply list_elem_of_omap. exists s1. split; [|done].
    apply list_elem_of_filter. split; [|done]. by apply Forall_forall.
  - rewrite Hm in Hin. by apply elem_of_nil in Hin.
Qed.
(** The checkpoint that is fetched from the public services is one that most of the
    services which know the latest epoch report for it: no other checkpoint of that
    epoch is reported by more of them; and one is found whenever some service reports a
    block root. *)
Theorem select_checkpoint_spec order slots :
  order_ok order ->
  match select_checkpoint order slots with
  | Ok c => c ∈ latest_checkpoints slots
      /\ forall c', occurrences c' (latest_checkpoints slots) <= occurrences c (latest_checkpoints slots)
  | Err _ => forall s, s ∈ slots -> Slot.block_root s = None
  | Panic => False
  end.
Proof.
  intros Ho. destruct (select_latest order slots) as [->|[Hnil ->]].
  - pose proof (max_by_key_spec snd (order (count_checkpoints (latest_checkpoints slots)))) as Hm.
    assert (Hin : forall c n, (c, n) ∈ order (count_checkpoints (latest_checkpoints slots))
              <-> c ∈ latest_checkpoints slots /\ n = occurrences c (latest_checkpoints slots)).
    { intros c n. rewrite (Ho _), elem_of_map_to_list. apply count_checkpoints_lookup. }
    destruct (max_by_key snd _) as [[c n]|]; cbn.
    + destruct Hm as [Hc Hmax]. apply Hin in Hc as [Hc ->]. split; [done|]. intros c'.
      destruct (decide (c' ∈ latest_checkpoints slots)) as [Hc'|Hc'].
      * apply (Hmax (c', occurrences c' (latest_checkpoints slots))). by apply Hin.
      * unfold occurrences at 1. rewrite filter_none; [simpl; unfold occurrences; lia|]. by intros x Hx ->.
    + intros s Hs. apply eq_None_not_Some. intros Hc. destruct (latest_nonempty slots s Hs Hc) as [c Hl].
      pose proof (proj2 (Hin c _) (conj Hl eq_refl)) as Hbad. rewrite Hm in Hbad. by apply elem_of_nil in Hbad.
  - intros s Hs. apply eq_None_not_Some. intros Hc.
    assert (Hin : s ∈ filter (fun s => is_Some (Slot.block_root s)) slots) by (by apply list_elem_of_filter).
    rewrite Hnil in Hin. by apply elem_of_nil in Hin.
Qed.
End Select.

(** ** Checkpoints across restarts *)

(** What was written to a file is read back. *)
Class HostLibOk {W : Type} (H : HostLib W) : Prop := {
  read_written path data w w' : write_file path data w = (Ok tt, w') -> exists w'', read_file path w' = (Some data, w'');
}.

Section Restart.
Context `{L : ConsensusLib} `{X : HexLib} {W : Type} `{R : ConsensusRpc W} {H : HostLib W} `{!HostLibOk H}.

(** A client that is shut down and built again, without an explicit checkpoint, in
    the same data directory starts from the last checkpoint of the first run, if that
    could be saved; if the file does not hold 32 bytes it starts from the default. *)
Theorem checkpoint_survives_restart (self : Client.t FileDB.t) (config : Config.t) w w' checkpoint :
  Node.get_last_checkpoint (Client.node self) = Some checkpoint ->
  FileDB.save_checkpoint (Client.db self) checkpoint w = (Ok tt, w') ->
  Config.data_dir config = Some (FileDB.data_dir (Client.db self)) ->
  Config.checkpoint config = None ->
  rpc_new (Config.consensus_rpc config) = Ok tt ->
  Client.shutdown self w = w'
  /\ exists (self2 : Client.t FileDB.t) w2, Client.new (DB := FileDB.t) config w' = (Ok self2, w2)
     /\ initial_checkpoint (Node.consensus (Client.node self2))
        = (if decide (length checkpoint = 32%nat) then checkpoint else Config.default_checkpoint config)
     /\ node_ok (Client.node self2).
Proof.
  intros Hc Hs Hd Hnone Hrpc. split.
  { unfold Client.shutdown. rewrite Hc. change (save_checkpoint (Client.db self) checkpoint w) with (FileDB.save_checkpoint (Client.db self) checkpoint w).
    by rewrite Hs. }
  destruct (read_written _ _ _ _ Hs) as [w2 Hr].
  unfold Client.new, Client.build_client. change (db_new (W := W) (DB := FileDB.t) config) with (FileDB.new config).
  unfold FileDB.new. rewrite Hd. unfold Client.with_checkpoint. rewrite Hnone.
  cbn [load_checkpoint FileDB.database]. unfold FileDB.load_checkpoint.
  cbn [FileDB.data_dir FileDB.default_checkpoint]. rewrite Hr. cbn [from_option id].
  rewrite bool_decide_eq_true_2 by (by eexists). rewrite andb_true_r.
  unfold Node.new. case_decide as Hlen.
  - rewrite (proj2 (Nat.eqb_eq _ _) Hlen). cbn [Config.checkpoint Config.set_checkpoint ok_or Config.consensus_rpc].
    rewrite Hrpc. by do 2 eexists.
  - rewrite (proj2 (Nat.eqb_neq _ _) Hlen). cbn [Config.checkpoint Config.set_checkpoint ok_or Config.consensus_rpc].
    rewrite Hrpc. by do 2 eexists.
Qed.
End Restart.

(** ** Asking for the head *)

Section Head.
Context `{L : ConsensusLib}.

(** The head is handed out when it is at most ten slots (two minutes) old; a head that is
    ahead of the clock counts as out of sync, by the wrapped-around difference. *)
Theorem head_age_spec (n : Node.t) now expected :
  ConsensusLightClient.expected_current_slot (Node.consensus n) now = Ok expected ->
  is_u64 expected -> is_u64 (BeaconBlockHeader.slot (ConsensusLightClient.get_header (Node.consensus n))) ->
  let head := ConsensusLightClient.get_header (Node.consensus n) in
  let d := expected - BeaconBlockHeader.slot head in
  Node.get_header n now
  = if (0 <=? d) && (d <=? 10) then Ok head
    else if (d <? 0) && (d + U64_MOD <=? 10) then Ok head
    else Err (OutOfSync (if 0 <=? d then d else d + U64_MOD)).
Proof.
  intros E He Hh. cbv zeta. unfold Node.get_header, Node.check_head_age. rewrite E.
  unfold is_u64 in *. set (h := BeaconBlockHeader.slot _) in *. unfold wrap64.
  destruct (Z.leb_spec 0 (expected - h)) as [Hd|Hd]; simpl.
  - rewrite Z.mod_small by lia. rewrite (proj2 (Z.ltb_ge (expected - h) 0)) by lia. simpl.
    destruct (Z.ltb_spec 10 (expected - h)), (Z.leb_spec (expected - h) 10); try lia; done.
  - rewrite (proj2 (Z.ltb_lt (expected - h) 0)) by lia. simpl.
    assert (Hm : (expected - h) mod U64_MOD = expected - h + U64_MOD)
      by (symmetry; apply (Z.mod_unique_pos _ _ (-1)); lia).
    rewrite Hm.
    destruct (Z.ltb_spec 10 (expected - h + U64_MOD)), (Z.leb_spec (expected - h + U64_MOD) 10); try lia; done.
Qed.
End Head.

(** ** Fallbacks need a service with a URL *)

Section PortalFallback.
Context `{L : ConsensusLib} `{X : HexLib} {W : Type} `{R : ConsensusRpc W} `{H : HostLib W} {DB : Type} `{D : Database W DB}.
Context (order : gmap bytes Z -> list (bytes * Z)).

(** The fallbacks rebuild the RPC client from a URL.  For an RPC client that has none
    (the one of the portal network panics), a checkpoint that is too old and a fallback
    that answers end in a panic instead of the fallback. *)
Theorem fallback_panics_without_url (self : Client.t DB) w url checkpoint w1 :
  (forall u, rpc_new u = Panic) -> Client.fallback self = Some url ->
  CheckpointFallback.fetch_checkpoint_from_api url w = (Ok checkpoint, w1) ->
  Client.boot_from_fallback (self, w) = (Panic, (self, w1))
  /\ (Client.recover order (FromNode (ConsensusSyncError (Consensus CheckpointTooOld))) (self, w)).1 = Panic.
Proof.
  intros Hp Hf Hc. assert (E : Client.boot_from_fallback (self, w) = (Panic, (self, w1))).
  { unfold Client.boot_from_fallback, bind at 1, gets at 1. rewrite Hf. unfold bind at 1, attempt, call. rewrite Hc.
    unfold Client.restart_from, bind, gets, lift. by rewrite Hp. }
  split; [done|]. unfold Client.recover, bind at 1, attempt. by rewrite E.
Qed.
End PortalFallback.

(** ** The theorems at work *)

#[local] Existing Instances toy_hex toy_hex_ok toy_hashes toy_hashes_ok.

(** A world with a clock and files. *)
Definition ToyWorld : Type := Z * list (bytes * bytes).

Definition on_clock {A} (f : Z -> A * Z) (w : ToyWorld) : A * ToyWorld :=
  let '(a, z) := f w.1 in (a, (z, w.2)).

#[local] Instance toy_world_rpc : ConsensusRpc ToyWorld := {|
  rpc_name := [];
  get_bootstrap root := on_clock (get_bootstrap (ConsensusRpc := toy_rpc) root);
  get_updates p n := on_clock (get_updates (ConsensusRpc := toy_rpc) p n);
  get_finality_update := on_clock (get_finality_update (ConsensusRpc := toy_rpc));
  get_optimistic_update := on_clock (get_optimistic_update (ConsensusRpc := toy_rpc));
  rpc_chain_id := on_clock (rpc_chain_id (ConsensusRpc := toy_rpc));
  clock := on_clock (clock (ConsensusRpc := toy_rpc));
|}.

#[local] Instance toy_world_rpc_typed : ConsensusRpcTyped ToyWorld.
Proof.
  split.
  - intros root w b w' [= <- <-]. done.
  - intros p n w us w' [= <- <-]. repeat constructor. done.
  - done.
Qed.

(** A host whose RPC clients can, or cannot, be made from a URL; one checkpoint service
    reports the root of the toy chain. *)
Definition toy_host (r : res anyhow unit) : HostLib ToyWorld := {|
  rpc_new _ := r;
  start_server _ w := (Ok tt, w);
  write_file path data w := (Ok tt, (w.1, (path, data) :: w.2));
  read_file path w := (snd ∘ snd <$> list_find (fun f => f.1 = path) w.2, w);
  get_slots _ w := (Some [Slot.mk (slot0 + 32) (Some (replicate 32 x01)) 28801], w);
  get_service_list w := (None, w);
|}.

Lemma toy_host_ok r : HostLibOk (toy_host r).
Proof.
  split. intros path data w w' [= <-]. eexists. cbn. rewrite decide_True by done. done.
Qed.

Definition toy_order : gmap bytes Z -> list (bytes * Z) := map_to_list.

Definition toy_dir_config : Config.t :=
  Config.mk [] None (replicate 32 x01) None (Some [x2f]) (BaseConfig.chain mainnet) (BaseConfig.forks mainnet)
    1209600 None false false.

Definition toy_node : Node.t := Node.mk toy_client toy_config.
Definition toy_lc : Client.t FileDB.t :=
  Client.mk toy_node None (FileDB.mk [x2f] (replicate 32 x09)) (Some [x68]) false false.

Section Witnesses.
#[local] Instance toy_host_url : HostLib ToyWorld := toy_host (Ok tt).
#[local] Instance toy_host_url_ok : HostLibOk toy_host_url := toy_host_ok (Ok tt).
Definition started : Client.t FileDB.t * ToyWorld := (Client.start (W := ToyWorld) toy_order (toy_lc, (toy_now, []))).2.

Lemma start_trusted_witness :
  Client.advancing started.1 = true /\ node_trusted (Client.node started.1).
Proof.
  assert (E : Client.start (W := ToyWorld) toy_order (toy_lc, (toy_now, [])) = (Ok tt, (started.1, started.2)))
    by (vm_compute; reflexivity).
  destruct (start_trusted toy_order toy_lc (toy_now, []) started.1 started.2 eq_refl E) as (H1 & H2 & _).
  split; assumption.
Defined.

Lemma advance_round_trusted_witness :
  node_trusted (Client.node (Client.advance_round (W := ToyWorld) started).2.1).
Proof.
  assert (E : Client.start (W := ToyWorld) toy_order (toy_lc, (toy_now, [])) = (Ok tt, (started.1, started.2)))
    by (vm_compute; reflexivity).
  assert (Ht : node_trusted (Client.node started.1)).
  { unfold node_trusted. apply (sync_spec (W := ToyWorld) _ _ toy_client (toy_now, []) (Ok tt) _ started.2);
      [reflexivity|reflexivity|vm_compute; reflexivity|left; reflexivity]. }
  destruct (Client.advance_round (W := ToyWorld) started) as [r [s w]] eqn:Ea.
  assert (Ea' : Client.advance_round (W := ToyWorld) (started.1, started.2) = (r, (s, w)))
    by (rewrite <- surjective_pairing; exact Ea).
  exact (proj1 (advance_round_trusted started.1 started.2 r s w Ht Ea')).
Defined.

Lemma select_checkpoint_spec_witness :
  let slots := [Slot.mk 0 (Some [x01]) 7; Slot.mk 0 (Some [x02]) 8; Slot.mk 0 (Some [x03]) 8;
                Slot.mk 0 None 9; Slot.mk 0 (Some [x02]) 8] in
  CheckpointFallback.select_checkpoint toy_order slots = Ok [x02]
  /\ forall c', occurrences c' (latest_checkpoints slots) <= occurrences [x02] (latest_checkpoints slots).
Proof.
  intros slots. assert (E : CheckpointFallback.select_checkpoint toy_order slots = Ok [x02]) by (vm_compute; reflexivity).
  split; [exact E|].
  assert (Ho : order_ok toy_order) by (intros m; reflexivity).
  pose proof (select_checkpoint_spec toy_order slots Ho) as H. rewrite E in H. exact (proj2 H).
Defined.

Lemma checkpoint_survives_restart_witness :
  exists (self2 : Client.t FileDB.t) w2,
    Client.new (DB := FileDB.t) toy_dir_config (Client.shutdown started.1 started.2)
      = (Ok self2, w2)
    /\ initial_checkpoint (Node.consensus (Client.node self2)) = replicate 32 x03.
Proof.
  set (w' := (FileDB.save_checkpoint (Client.db started.1) (replicate 32 x03) started.2).2).
  destruct (checkpoint_survives_restart started.1 toy_dir_config started.2 w' (replicate 32 x03)) as [Hs (s2 & w2 & H1 & H2 & _)];
    [vm_compute; reflexivity..|].
  exists s2, w2. rewrite Hs. split; [exact H1|exact H2].
Defined.
End Witnesses.

Lemma fallback_panics_without_url_witness :
  let H := toy_host Panic in
  (Client.recover (H := H) (W := ToyWorld) toy_order (FromNode (ConsensusSyncError (Consensus CheckpointTooOld)))
     (toy_lc, (toy_now, []))).1 = Panic.
Proof.
  intros H.
  refine (proj2 (fallback_panics_without_url (H := H) toy_order toy_lc (toy_now, []) [x68] (replicate 32 x01)
                   (toy_now, []) _ _ _)); [reflexivity|vm_compute; reflexivity..].
Defined.
