(* ===== verification/PortalRpc.v ===== *)
(** * The light client on the portal network.

    [light-client/src/consensus/rpc/portal_rpc.rs]: the [ConsensusRpc] that looks
    everything up in the beacon network, and [trin-beacon/src/sync.rs] and
    [validation.rs], which run a light client on it.  A lookup is a [FindContentQuery]
    command to the overlay service: it belongs to the world. *)

From stdpp Require Import gmap.
From S2P Require Import Prelude.
From S2P Require Import Distance.
From S2P Require Import Hex.
From S2P Require Import ContentKey.
From S2P Require Import Wire.
From S2P Require Import ContentStore.
From S2P Require Import OverlayContent.
From S2P Require Import LightClientTypes.
From S2P Require Import ConsensusClient.
From S2P Require Import ChainOfTrust.
From S2P Require Import BeaconValue.
From S2P Require Import BeaconStorage.
From S2P Require Import LightClient.
Import ConsensusLightClient.

(** Lookups in the beacon network, and the clock.  [None]: the command could not be sent
    or its answer not be received; [Some None]: the content was not found. *)
Class BeaconOverlay (W : Type) := {
  find_content_query : BeaconContentKey.t -> W -> option (option bytes) * W;
  overlay_clock : W -> Z * W;
}.

Module PortalRpc.
Section Operations.
Context `{S : BeaconSsz} `{X : HexLib} {W : Type} `{O : BeaconOverlay W}.

(** [unreachable!]. *)
Definition new (path : bytes) : res anyhow unit := Panic.

(** The answer to a query, decoded. *)
Definition decoded (answer : option (option bytes)) : res anyhow BeaconContentValue.t :=
  match answer with
  | Some (Some content) => map_err (fun _ => RpcFailed) (BeaconContentValue.decode content)
  | _ => Err RpcFailed
  end.

Definition get_bootstrap (block_root : bytes) (w : W) : res anyhow LightClientBootstrapCapella * W :=
  if (length block_root =? 32)%nat then
    let '(answer, w) := find_content_query (BeaconContentKey.LightClientBootstrap block_root) w in
    (let? value := decoded answer in
     match value with
     | BeaconContentValue.Bootstrap bootstrap =>
         match versioned bootstrap with
         | LightClientBootstrap.Capella bootstrap_capella => Ok bootstrap_capella
         | _ => Err RpcFailed
         end
     | _ => Err RpcFailed
     end, w)
  else (Err RpcFailed, w).

(** The loop over the updates: all must be of the Capella fork. *)
Fixpoint all_capella (updates : list LightClientUpdate.t) (result : list LightClientUpdateCapella)
    : res anyhow (list LightClientUpdateCapella) :=
  match updates with
  | [] => Ok result
  | LightClientUpdate.Capella update_capella :: rest => all_capella rest (result ++ [update_capella])
  | _ => Err RpcFailed
  end.

Definition get_updates (period count : Z) (w : W) : res anyhow (list LightClientUpdateCapella) * W :=
  let '(answer, w) := find_content_query (BeaconContentKey.LightClientUpdatesByRange period count) w in
  (let? value := decoded answer in
   match value with
   | BeaconContentValue.UpdatesByRange updates => all_capella (versioned <$> updates) []
   | _ => Err RpcFailed
   end, w).

(** The key that the latest finality update is looked up by. *)
Definition finality_update_key (now : Z) : res anyhow BeaconContentKey.t :=
  let? expected_current_slot := portal_expected_current_slot now in
  let recent_epoch_start := wrap64 (expected_current_slot - expected_current_slot mod 32 + 1) in
  Ok (BeaconContentKey.LightClientFinalityUpdate recent_epoch_start).

Definition get_finality_update (w : W) : res anyhow LightClientFinalityUpdateCapella * W :=
  let '(now, w) := overlay_clock w in
  match finality_update_key now with
  | Ok key =>
      let '(answer, w) := find_content_query key w in
      (let? value := decoded answer in
       match value with
       | BeaconContentValue.FinalityUpdate finality_update =>
           match versioned finality_update with
           | LightClientFinalityUpdate.Capella u => Ok u
           | _ => Err RpcFailed
           end
       | _ => Err RpcFailed
       end, w)
  | Err e => (Err e, w)
  | Panic => (Panic, w)
  end.

Definition get_optimistic_update (w : W) : res anyhow LightClientOptimisticUpdateCapella * W :=
  let '(now, w) := overlay_clock w in
  match portal_expected_current_slot now with
  | Ok expected_current_slot =>
      let '(answer, w) :=
        find_content_query (BeaconContentKey.LightClientOptimisticUpdate expected_current_slot) w in
      (let? value := decoded answer in
       match value with
       | BeaconContentValue.OptimisticUpdate optimistic_update =>
           match versioned optimistic_update with
           | LightClientOptimisticUpdate.Capella u => Ok u
           | _ => Err RpcFailed
           end
       | _ => Err RpcFailed
       end, w)
  | Err e => (Err e, w)
  | Panic => (Panic, w)
  end.

Definition chain_id (w : W) : res anyhow Z * W := (Ok 1, w).

#[global] Instance portal_rpc : ConsensusRpc W := {|
  rpc_name := str_portal;
  ConsensusClient.get_bootstrap := get_bootstrap;
  ConsensusClient.get_updates := get_updates;
  ConsensusClient.get_finality_update := get_finality_update;
  ConsensusClient.get_optimistic_update := get_optimistic_update;
  rpc_chain_id := chain_id;
  clock := overlay_clock;
|}.

(** A host on which the RPC client is this one. *)
Definition portal_host (H : HostLib W) : HostLib W := {|
  rpc_new := new;
  LightClient.start_server := start_server;
  LightClient.write_file := write_file;
  LightClient.read_file := read_file;
  LightClient.get_slots := get_slots;
  LightClient.get_service_list := get_service_list;
|}.
End Operations.
End PortalRpc.

(** ** [trin-beacon/src/validation.rs] *)

(** Beacon content is not validated. *)
Definition beacon_validate_content (content_key : BeaconContentKey.t) (content : bytes) : res anyhow unit := Ok tt.

(** ** [trin-beacon/src/sync.rs] *)

Module BeaconSync.
Section Operations.
Context `{L : ConsensusLib} `{S : BeaconSsz} `{X : HexLib} {W : Type} `{O : BeaconOverlay W} `{H : HostLib W}.
Context (order : gmap bytes Z -> list (bytes * Z)).

#[local] Existing Instance PortalRpc.portal_rpc.
#[local] Instance host : HostLib W := PortalRpc.portal_host H.

(** "/tmp/portal-light-client" *)
Definition data_dir : bytes :=
  [x2f; x74; x6d; x70; x2f; x70; x6f; x72; x74; x61; x6c; x2d; x6c; x69; x67; x68; x74; x2d; x63; x6c; x69; x65;
   x6e; x74].

(** The client; a root that is not hex, or a failure to build it, is a panic. *)
Definition build_client (trusted_block_root : bytes) (w : W) : res ClientError (Client.t FileDB.t) * W :=
  let builder := ClientBuilder.set_network ClientBuilder.new Mainnet in
  match ClientBuilder.set_checkpoint builder trusted_block_root with
  | Ok builder =>
      let builder := ClientBuilder.set_data_dir builder data_dir in
      match ClientBuilder.build_with_rpc builder w with
      | (Err _, w) => (Panic, w)
      | r => r
      end
  | Err e => (Err e, w)
  | Panic => (Panic, w)
  end.

(** The loop that starts the client until it succeeds, for at most [fuel] rounds. *)
Fixpoint start_loop (fuel : nat) (client : Client.t FileDB.t) (w : W)
    : option (res ClientError unit) * (Client.t FileDB.t * W) :=
  match fuel with
  | Datatypes.O => (None, (client, w))
  | Datatypes.S fuel =>
      match Client.start order (client, w) with
      | (Ok _, s) => (Some (Ok tt), s)
      | (Err _, (client, w)) => start_loop fuel client w
      | (Panic, s) => (Some Panic, s)
      end
  end.
End Operations.
End BeaconSync.

(** ** What the network answers *)

Section Answers.
Context `{S : BeaconSsz} `{!BeaconSszOk S} `{X : HexLib} {W : Type} `{O : BeaconOverlay W}.

Definition capella {T} (v : T) : ForkVersioned T := Build_ForkVersioned ForkName.Capella v.

(** The network answers a key with a value. *)
Definition answers (w w' : W) (k : BeaconContentKey.t) (v : BeaconContentValue.t) : Prop :=
  find_content_query k w = (Some (Some (BeaconContentValue.encode v)), w') /\ value_ok v /\ not_summaries v.

Lemma decoded_answer v :
  value_ok v -> not_summaries v -> PortalRpc.decoded (Some (Some (BeaconContentValue.encode v))) = Ok v.
Proof.
  intros H1 H2. unfold PortalRpc.decoded, BeaconContentValue.decode. by rewrite try_decoders_encode.
Qed.

Lemma all_capella_ok (us result : list LightClientUpdateCapella) :
  PortalRpc.all_capella (versioned <$> (capella ∘ LightClientUpdate.Capella <$> us)) result = Ok (result ++ us).
Proof.
  revert result. induction us as [|u us IH]; intros result; simpl; [by rewrite app_nil_r|].
  rewrite IH. by rewrite <- app_assoc.
Qed.

(** The content of each lookup of the light client reaches it: the Capella values that
    peers store under the key of the lookup are the values the client receives. *)
Lemma portal_rpc_receives w w' :
  (forall root b, length root = 32%nat ->
    answers w w' (BeaconContentKey.LightClientBootstrap root)
      (BeaconContentValue.Bootstrap (capella (LightClientBootstrap.Capella b))) ->
    PortalRpc.get_bootstrap root w = (Ok b, w'))
  /\ (forall period count us,
    answers w w' (BeaconContentKey.LightClientUpdatesByRange period count)
      (BeaconContentValue.UpdatesByRange (capella ∘ LightClientUpdate.Capella <$> us)) ->
    PortalRpc.get_updates period count w = (Ok us, w'))
  /\ (forall w0 now k u, overlay_clock w0 = (now, w) -> PortalRpc.finality_update_key now = Ok k ->
    answers w w' k (BeaconContentValue.FinalityUpdate (capella (LightClientFinalityUpdate.Capella u))) ->
    PortalRpc.get_finality_update w0 = (Ok u, w'))
  /\ (forall w0 now slot u, overlay_clock w0 = (now, w) -> portal_expected_current_slot now = Ok slot ->
    answers w w' (BeaconContentKey.LightClientOptimisticUpdate slot)
      (BeaconContentValue.OptimisticUpdate (capella (LightClientOptimisticUpdate.Capella u))) ->
    PortalRpc.get_optimistic_update w0 = (Ok u, w')).
Proof.
  split_and!.
  - intros root b Hl (E & Hv & Hs). unfold PortalRpc.get_bootstrap. rewrite Hl, Nat.eqb_refl, E.
    by rewrite decoded_answer.
  - intros p n us (E & Hv & Hs). unfold PortalRpc.get_updates. rewrite E, decoded_answer by done.
    by rewrite all_capella_ok.
  - intros w0 now k u Hc Hk (E & Hv & Hs). unfold PortalRpc.get_finality_update. rewrite Hc, Hk, E.
    by rewrite decoded_answer.
  - intros w0 now slot u Hc Hk (E & Hv & Hs). unfold PortalRpc.get_optimistic_update. rewrite Hc, Hk, E.
    by rewrite decoded_answer.
Qed.

(** The decoder that produced a value. *)
Lemma decode_inv b v :
  BeaconContentValue.decode b = Ok v ->
  match v with
  | BeaconContentValue.HistoricalSummaries v => of_ssz summaries b = Ok v
  | BeaconContentValue.Bootstrap v => bootstrap_decode b = Ok v
  | BeaconContentValue.UpdatesByRange l => range_decode b = Ok l
  | BeaconContentValue.OptimisticUpdate v => optimistic_decode b = Ok v
  | BeaconContentValue.FinalityUpdate v => finality_decode b = Ok v
  end.
Proof.
  unfold BeaconContentValue.decode, BeaconContentValue.try_decoders, or_else, res_map.
  destruct (of_ssz summaries b) eqn:E1; [by intros [= <-]| |done].
  destruct (bootstrap_decode b) eqn:E2; [by intros [= <-]| |done].
  destruct (range_decode b) eqn:E3; [by intros [= <-]| |done].
  destruct (optimistic_decode b) eqn:E4; [by intros [= <-]| |done].
  destruct (finality_decode b) eqn:E5; [by intros [= <-]|done..].
Qed.
End Answers.

(** Slots are unsigned. *)
Class BeaconSszTyped (S : BeaconSsz) : Prop := {
  bootstrap_typed b v : of_ssz bootstrap_capella b = Ok v -> 0 <= slot_of (beacon (LightClientBootstrap.header v));
  update_typed b v :
    of_ssz update_capella b = Ok v -> 0 <= slot_of (beacon (LightClientUpdate.finalized_header v));
  finality_typed b v :
    of_ssz finality_capella b = Ok v -> 0 <= slot_of (beacon (LightClientFinalityUpdate.finalized_header v));
}.

Section Typed.
Context {S : BeaconSsz} `{!BeaconSszTyped S} `{X : HexLib} {W : Type} `{O : BeaconOverlay W}.

Lemma decode_versioned_ok {T} (from_ssz : bytes -> ForkName.t -> res SszDecodeError T) b v :
  decode_versioned from_ssz b = Ok v -> exists f, from_ssz (drop 4 b) f = Ok (versioned v).
Proof.
  unfold decode_versioned. intros H. destruct (slice b 0 4); [|done..]. destruct (map_err _ _) as [f| |]; [|done..].
  exists f. destruct (from_ssz _ _); [|done..]. by injection H as <-.
Qed.

Lemma decoded_inv answer v :
  PortalRpc.decoded answer = Ok v -> exists b, BeaconContentValue.decode b = Ok v.
Proof.
  unfold PortalRpc.decoded. destruct answer as [[b|]|]; [|done..]. intros H. exists b.
  by destruct (BeaconContentValue.decode b); simplify_eq/=.
Qed.

Lemma all_capella_inv us : forall result l,
  PortalRpc.all_capella us result = Ok l -> exists l', l = result ++ l' /\ us = LightClientUpdate.Capella <$> l'.
Proof.
  induction us as [|[u|u] us IH]; intros result l; cbn; [|done|].
  - intros [= <-]. exists []. by rewrite app_nil_r.
  - intros (l' & -> & ->)%IH. exists (u :: l'). by rewrite <- app_assoc.
Qed.

Lemma res_all_Forall {A B} (f : bytes -> res A B) (P : B -> Prop) l r :
  (forall b v, f b = Ok v -> P v) -> res_all f l = Ok r -> Forall P r.
Proof.
  intros Hf. revert r. induction l as [|b l IH]; intros r; simpl; [by intros [= <-]; constructor|].
  destruct (f b) eqn:E; [|done..]. destruct (res_all f l); [|done..]. intros [= <-]. constructor; eauto.
Qed.

(** The portal network hands the light client values with unsigned slots. *)
#[global] Instance portal_rpc_typed : ConsensusRpcTyped W (R := PortalRpc.portal_rpc).
Proof.
  split; cbn [get_bootstrap get_updates get_finality_update PortalRpc.portal_rpc].
  - intros root w b w'. unfold PortalRpc.get_bootstrap. destruct (_ =? _)%nat; [|done]. destruct (find_content_query _ _) as [a w1].
    intros [= H _]. destruct (PortalRpc.decoded a) as [[| v | | |]| |] eqn:Ev; try done.
    apply decoded_inv in Ev as [c Hc%decode_inv]. apply decode_versioned_ok in Hc as [f Hf].
    destruct (versioned v); [done|]. injection H as ->. destruct f; simpl in Hf.
    + by destruct (of_ssz bootstrap_bellatrix _).
    + destruct (of_ssz bootstrap_capella _) eqn:E; [|done..]. injection Hf as <-. by eapply bootstrap_typed.
  - intros p n w us w'. unfold PortalRpc.get_updates. destruct (find_content_query _ _) as [a w1].
    intros [= H _]. destruct (PortalRpc.decoded a) as [[| | l | |]| |] eqn:Ev; try done.
    apply decoded_inv in Ev as [c Hc%decode_inv]. apply all_capella_inv in H as (l' & -> & Hl). simpl.
    unfold range_decode in Hc. destruct (var_list_split c) as [items| |]; [|done..].
    apply (res_all_Forall update_decode (fun v => forall u, versioned v = LightClientUpdate.Capella u ->
             0 <= slot_of (beacon (LightClientUpdate.finalized_header u)))) in Hc.
    + apply Forall_forall. intros u Hu.
      assert (Hc' : LightClientUpdate.Capella u ∈ LightClientUpdate.Capella <$> l') by (apply list_elem_of_fmap; eauto).
      rewrite <- Hl in Hc'. apply list_elem_of_fmap in Hc' as (v & Hv & Hin). rewrite Forall_forall in Hc. by apply (Hc v).
    + intros b v [f Hf]%decode_versioned_ok u Hu. rewrite Hu in Hf. destruct f; simpl in Hf.
      * by destruct (of_ssz update_bellatrix _).
      * destruct (of_ssz update_capella _) eqn:E; [|done..]. injection Hf as <-. by eapply update_typed.
  - intros w u w'. unfold PortalRpc.get_finality_update. destruct (overlay_clock w) as [now w0].
    destruct (PortalRpc.finality_update_key now) as [key| |]; [|done..]. destruct (find_content_query _ _) as [a w1].
    intros [= H _]. destruct (PortalRpc.decoded a) as [[| | | | v]| |] eqn:Ev; try done.
    apply decoded_inv in Ev as [c Hc%decode_inv]. apply decode_versioned_ok in Hc as [f Hf].
    destruct (versioned v); [done|]. injection H as ->. destruct f; simpl in Hf.
    + by destruct (of_ssz finality_bellatrix _).
    + destruct (of_ssz finality_capella _) eqn:E; [|done..]. injection Hf as <-. by eapply finality_typed.
Qed.
End Typed.

(** ** Finality updates are asked for too early *)

Section Finality.
Context `{HL : HashLib} `{X : HexLib} {S : BeaconSsz} {U : U64Ssz} `{!U64SszOk U}.

Lemma portal_slot_u64 now slot :
  now < U64_MOD -> portal_expected_current_slot now = Ok slot -> 0 <= slot < 2 ^ 63.
Proof.
  unfold portal_expected_current_slot, duration_sub. intros Hn. destruct (Z.ltb_spec now BEACON_GENESIS_TIME); [done|].
  intros [= <-]. unfold BEACON_GENESIS_TIME, U64_MOD in *. Z.to_euclidean_division_equations. lia.
Qed.

(** C40: The light client looks the latest finality update up by the second slot of the
    current epoch.  A node serves its update only for slots up to the finalized one, so
    whenever the finalized slot is in an earlier epoch, as it is on every chain that
    finalizes whole epochs, no node serves the request. *)
Theorem finality_request_unserved (st : BeaconStorage.t) now slot :
  now < U64_MOD -> portal_expected_current_slot now = Ok slot ->
  (forall u h, BeaconStorageCache.finality_update (BeaconStorage.cache st) = Some u ->
    LightClientFinalityUpdate.finalized_header_capella (versioned u) = Ok h ->
    BeaconBlockHeader.slot (beacon h) <= 32 * (slot / 32)) ->
  exists k, PortalRpc.finality_update_key now = Ok k
    /\ BeaconStorage.get (CK := BeaconContentKey.overlay_key) st k = Ok None.
Proof.
  intros Hn Hs Hf. pose proof (portal_slot_u64 _ _ Hn Hs) as Hslot.
  unfold PortalRpc.finality_update_key. rewrite Hs. eexists. split; [done|].
  assert (Hm := Z.div_mod slot 32 ltac:(lia)). assert (Hb := Z.mod_pos_bound slot 32 ltac:(lia)).
  set (e := slot - slot mod 32 + 1). assert (He : is_u64 e) by (unfold is_u64, U64_MOD, e; lia).
  rewrite wrap64_small by done.
  rewrite get_by_key by done. unfold BeaconStorageCache.get_finality_update.
  destruct (BeaconStorageCache.finality_update (BeaconStorage.cache st)) as [u|]; [|done].
  destruct (LightClientFinalityUpdate.finalized_header_capella (versioned u)) as [h| |] eqn:Eh; [|done..].
  specialize (Hf u h eq_refl Eh). by rewrite (proj2 (Z.leb_gt e _)) by (unfold e; lia).
Qed.
End Finality.

(** ** The light client of the beacon network *)

Section Sync.
Context `{L : ConsensusLib} {S : BeaconSsz} `{!BeaconSszTyped S} `{X : HexLib} `{!HexLibOk X}
  {W : Type} `{O : BeaconOverlay W} {H : HostLib W}.
Context (order : gmap bytes Z -> list (bytes * Z)).

#[local] Existing Instances PortalRpc.portal_rpc BeaconSync.host.

Lemma build_client_ok root checkpoint (w : W) :
  hex_str_to_bytes root = Some checkpoint ->
  exists client, BeaconSync.build_client root w = (Ok client, w) /\ unbacked checkpoint client
    /\ Config.chain (Node.config (Client.node client)) = BaseConfig.chain mainnet.
Proof.
  intros Hr. unfold BeaconSync.build_client, ClientBuilder.set_checkpoint. rewrite Hr. by eexists.
Qed.

Lemma start_loop_unbacked checkpoint fuel : forall client w r client' w',
  unbacked checkpoint client ->
  BeaconSync.start_loop order fuel client w = (r, (client', w')) ->
  unbacked checkpoint client'
  /\ (r = Some (Ok tt) -> Client.advancing client' = true /\ node_trusted (Client.node client')).
Proof.
  induction fuel as [|fuel IH]; intros client w r client' w' Hu E; simpl in E; [by injection E as <- <- <-|].
  destruct (Client.start order (client, w)) as [r1 [client1 w1]] eqn:E1.
  destruct (start_unbacked _ _ _ _ _ _ _ Hu E1) as [Hu1 Hok].
  destruct r1 as [[]| |]; [injection E as <- <- <-; auto|by eapply IH|by injection E as <- <- <-].
Qed.

(** C30: The beacon network's light client trusts the block root that the user gives, and
    only it: from a root that is hex the client is built, without reading a saved
    checkpoint; and however many attempts to start it fail, whatever peers answer, it
    keeps that root as its checkpoint, and when an attempt succeeds it is on the root's
    chain of trust.  A root that is not hex is a panic. *)
Theorem beacon_sync_trusted root (w : W) :
  match hex_str_to_bytes root with
  | Some checkpoint =>
      exists client, BeaconSync.build_client root w = (Ok client, w)
        /\ Config.chain (Node.config (Client.node client)) = BaseConfig.chain mainnet
        /\ forall fuel r client' w', BeaconSync.start_loop order fuel client w = (r, (client', w')) ->
             initial_checkpoint (Node.consensus (Client.node client')) = checkpoint
             /\ (r = Some (Ok tt) ->
                 Client.advancing client' = true
                 /\ trusted_client checkpoint (Node.config (Client.node client')) (Node.consensus (Client.node client')))
  | None => BeaconSync.build_client root w = (Panic, w)
  end.
Proof.
  destruct (hex_str_to_bytes root) as [checkpoint|] eqn:Hr.
  - destruct (build_client_ok root checkpoint w Hr) as (client & E & Hu & Hc). exists client. split_and!; [done..|].
    intros fuel r client' w' El. destruct (start_loop_unbacked _ _ _ _ _ _ _ Hu El) as [Hu' Hok].
    split; [by apply ub_checkpoint|]. intros [Ha Ht]%Hok. split; [done|].
    unfold node_trusted in Ht. by rewrite (ub_checkpoint _ _ Hu') in Ht.
  - unfold BeaconSync.build_client, ClientBuilder.set_checkpoint. by rewrite Hr.
Qed.
End Sync.

(** ** The theorems at work *)

#[local] Existing Instances toy_hex toy_hex_ok toy_hashes toy_u64_ssz toy_u64_ssz_ok toy_beacon_ssz toy_consensus.

(** A node that stores the finality update of slot 7,372,800 and is asked 300 slots later. *)
Definition finalizing_storage : BeaconStorage.t :=
  BeaconStorage.mk [] ∅ 1000000 ProtocolId.Beacon
    (BeaconStorageCache.set_finality_update BeaconStorageCache.new
       (capella (LightClientFinalityUpdate.Capella (finality_at slot0)))).

Lemma finality_request_unserved_witness :
  exists k, PortalRpc.finality_update_key toy_now = Ok k
    /\ BeaconStorage.get (CK := BeaconContentKey.overlay_key) finalizing_storage k = Ok None.
Proof.
  apply (finality_request_unserved finalizing_storage toy_now (slot0 + 300)); [reflexivity|reflexivity|].
  intros u h [= <-] [= <-]. vm_compute. discriminate.
Defined.

(** A network that holds the bootstrap and the optimistic update of the toy chain. *)
#[local] Instance chain_ssz : BeaconSsz :=
  toy_ssz (toy_codec 24788 (fun _ => 0) (fun _ => toy_bootstrap)) (toy_codec 25152 (fun _ => 0) (fun _ => toy_update))
    (toy_codec 368 LightClientFinalityUpdate.signature_slot finality_at)
    (toy_codec 172 (fun _ => 0) (fun _ => toy_optimistic)).

#[local] Instance chain_ssz_typed : BeaconSszTyped chain_ssz.
Proof.
  split; intros b v; cbn; (case_match; [|done]); intros [= <-]; [done..|]. apply le_to_Z_range.
Qed.

#[local] Instance chain_overlay : BeaconOverlay ToyWorld := {|
  find_content_query k w :=
    (Some (match k with
           | BeaconContentKey.LightClientBootstrap _ =>
               Some (bootstrap_encode (capella (LightClientBootstrap.Capella toy_bootstrap)))
           | BeaconContentKey.LightClientOptimisticUpdate _ =>
               Some (optimistic_encode (capella (LightClientOptimisticUpdate.Capella toy_optimistic)))
           | _ => None
           end), w);
  overlay_clock := on_clock (fun z => (z, z + 1));
|}.

(** The root 0x0101...01 in hex. *)
Definition toy_root : bytes := str_0x ++ concat (replicate 32 [x30; x31]).
Definition chain_host : HostLib ToyWorld := toy_host Panic.

Lemma beacon_sync_trusted_witness :
  exists client client' w', BeaconSync.build_client (H := chain_host) toy_root (toy_now, []) = (Ok client, (toy_now, []))
    /\ BeaconSync.start_loop (H := chain_host) toy_order 1 client (toy_now, []) = (Some (Ok tt), (client', w'))
    /\ slot_of (LightClientStore.optimistic_header (store (Node.consensus (Client.node client')))) = slot0 + 200
    /\ trusted_client (replicate 32 x01) (Node.config (Client.node client')) (Node.consensus (Client.node client')).
Proof.
  pose proof (beacon_sync_trusted (H := chain_host) toy_order toy_root (toy_now, [])) as H.
  assert (E : hex_str_to_bytes toy_root = Some (replicate 32 x01)) by (vm_compute; reflexivity).
  rewrite E in H. destruct H as (client & Hb & _ & H).
  set (s := (BeaconSync.start_loop (H := chain_host) toy_order 1 client (toy_now, [])).2).
  assert (Hc : client = match (BeaconSync.build_client (H := chain_host) toy_root (toy_now, [])).1 with
                        | Ok c => c | _ => toy_lc end) by (rewrite Hb; reflexivity).
  exists client, s.1, s.2.
  assert (El : BeaconSync.start_loop (H := chain_host) toy_order 1 client (toy_now, []) = (Some (Ok tt), (s.1, s.2)))
    by (unfold s; rewrite Hc; vm_compute; reflexivity).
  split; [exact Hb|]. split; [exact El|].
  split; [unfold s; rewrite Hc; vm_compute; reflexivity|].
  exact (proj2 (proj2 (H 1%nat _ _ _ El) eq_refl)).
Defined.
