(* ===== verification/Transaction.v ===== *)
(** * Transactions, receipts and withdrawals.

    [ethportal-api/src/types/execution/transaction.rs] and [receipts.rs], and the
    withdrawals of [types/consensus/withdrawal.rs]: their RLP forms, the envelope of typed
    transactions, and the parsing of the JSON fields that is written by hand.  The [rlp]
    crate is the class [RlpLib] of [Header], with the class [RlpTree] for nested lists;
    [ethbloom] is the class [BloomLib]. *)

From S2P Require Import Prelude.
From S2P Require Import Distance.
From S2P Require Import Hex.
From S2P Require Import Header.
Import Header.

(** ** The crates *)

Class RlpTree (R : RlpLib) := {
  (** a list inside a list, and the items of an item: an error when it is not a list *)
  nested : list rlp_item -> rlp_item;
  sub_items : rlp_item -> res DecoderError (list rlp_item);
  (** [is_empty], and the payload of an item that is data *)
  item_is_empty : rlp_item -> bool;
  item_data : rlp_item -> option bytes;
  (** [rlp::encode] of an integer *)
  encode_uint : Z -> bytes;
}.

Class BloomLib := { bloom_raw : bytes -> bytes }.

(** [Bloom::accrue_bloom]. *)
Definition bloom_or (a b : bytes) : bytes :=
  zip_with (fun x y => byte_of_Z (Z.lor (byte_to_Z x) (byte_to_Z y))) a b.

Section Rlp.
Context `{RlpTree}.

(** [iter]: what is not a list has no items. *)
Definition iter_item (it : rlp_item) : list rlp_item :=
  match sub_items it with Ok l => l | _ => [] end.
Definition iter_bytes (b : bytes) : list rlp_item :=
  match dec_list b with Ok l => l | _ => [] end.

(** [list_at(i)]. *)
Definition list_at {A} (dec : rlp_item -> res DecoderError A) (rlp : list rlp_item) (i : nat)
    : res DecoderError (list A) :=
  val_at (fun it => res_all dec (iter_item it)) rlp i.
End Rlp.

(** ** Recipients and access lists *)

Inductive ToAddress := Empty | Exists (a : bytes).

Record AccessListItem := { al_address : bytes; storage_keys : list bytes }.
Record AccessList := { al_list : list AccessListItem }.

Section Parts.
Context `{RlpTree}.

Definition to_item (self : ToAddress) : rlp_item :=
  match self with
  | Empty => enc_bytes []
  | Exists addr => enc_bytes addr
  end.

Definition to_of_item (rlp : rlp_item) : res DecoderError ToAddress :=
  if item_is_empty rlp then Ok Empty
  else let? a := dec_fixed 20 rlp in Ok (Exists a).

Definition access_item (self : AccessListItem) : rlp_item :=
  nested [enc_bytes (al_address self); nested (enc_bytes <$> storage_keys self)].

Definition access_of_item (rlp : rlp_item) : res DecoderError AccessListItem :=
  let? rlp := sub_items rlp in
  let? address := val_at (dec_fixed 20) rlp 0 in
  let? keys := list_at (dec_fixed 32) rlp 1 in
  Ok {| al_address := address; storage_keys := keys |}.

Definition access_list_item (self : AccessList) : rlp_item := nested (access_item <$> al_list self).

Definition access_list_of_item (rlp : rlp_item) : res DecoderError AccessList :=
  let? list := res_all access_of_item (iter_item rlp) in
  Ok {| al_list := list |}.
End Parts.

(** ** Transactions *)

Module LegacyTransaction.
Record t := {
  nonce : Z;
  gas_price : Z;
  gas : Z;
  to : ToAddress;
  value : Z;
  data : bytes;
  v : Z;
  r : Z;
  s : Z;
}.

Section Codec.
Context `{RlpTree}.

Definition to_items (self : t) : list rlp_item :=
  [enc_uint (nonce self); enc_uint (gas_price self); enc_uint (gas self); to_item (to self);
   enc_uint (value self); enc_bytes (data self); enc_uint (v self); enc_uint (r self); enc_uint (s self)].

Definition of_items (rlp : list rlp_item) : res DecoderError t :=
  let? nonce := val_at (dec_uint 256) rlp 0 in
  let? gas_price := val_at (dec_uint 256) rlp 1 in
  let? gas := val_at (dec_uint 256) rlp 2 in
  let? to := val_at to_of_item rlp 3 in
  let? value := val_at (dec_uint 256) rlp 4 in
  let? data := val_at dec_bytes rlp 5 in
  let? v := val_at (dec_uint 64) rlp 6 in
  let? r := val_at (dec_uint 256) rlp 7 in
  let? s := val_at (dec_uint 256) rlp 8 in
  Ok {| nonce := nonce; gas_price := gas_price; gas := gas; to := to; value := value; data := data;
        v := v; r := r; s := s |}.
End Codec.
End LegacyTransaction.

Module AccessListTransaction.
Record t := {
  chain_id : Z;
  nonce : Z;
  gas_price : Z;
  gas_limit : Z;
  to : ToAddress;
  value : Z;
  data : bytes;
  access_list : AccessList;
  y_parity : Z;
  r : Z;
  s : Z;
}.

Section Codec.
Context `{RlpTree}.

Definition to_items (self : t) : list rlp_item :=
  [enc_uint (chain_id self); enc_uint (nonce self); enc_uint (gas_price self); enc_uint (gas_limit self);
   to_item (to self); enc_uint (value self); enc_bytes (data self); access_list_item (access_list self);
   enc_uint (y_parity self); enc_uint (r self); enc_uint (s self)].

Definition of_items (rlp : list rlp_item) : res DecoderError t :=
  let? chain_id := val_at (dec_uint 256) rlp 0 in
  let? nonce := val_at (dec_uint 256) rlp 1 in
  let? gas_price := val_at (dec_uint 256) rlp 2 in
  let? gas_limit := val_at (dec_uint 256) rlp 3 in
  let? to := val_at to_of_item rlp 4 in
  let? value := val_at (dec_uint 256) rlp 5 in
  let? data := val_at dec_bytes rlp 6 in
  let? access_list := val_at access_list_of_item rlp 7 in
  let? y_parity := val_at (dec_uint 64) rlp 8 in
  let? r := val_at (dec_uint 256) rlp 9 in
  let? s := val_at (dec_uint 256) rlp 10 in
  Ok {| chain_id := chain_id; nonce := nonce; gas_price := gas_price; gas_limit := gas_limit; to := to;
        value := value; data := data; access_list := access_list; y_parity := y_parity; r := r; s := s |}.
End Codec.
End AccessListTransaction.

Module EIP1559Transaction.
Record t := {
  chain_id : Z;
  nonce : Z;
  max_priority_fee_per_gas : Z;
  max_fee_per_gas : Z;
  gas_limit : Z;
  to : ToAddress;
  value : Z;
  data : bytes;
  access_list : AccessList;
  y_parity : Z;
  r : Z;
  s : Z;
}.

Section Codec.
Context `{RlpTree}.

Definition to_items (self : t) : list rlp_item :=
  [enc_uint (chain_id self); enc_uint (nonce self); enc_uint (max_priority_fee_per_gas self);
   enc_uint (max_fee_per_gas self); enc_uint (gas_limit self); to_item (to self); enc_uint (value self);
   enc_bytes (data self); access_list_item (access_list self); enc_uint (y_parity self); enc_uint (r self);
   enc_uint (s self)].

Definition of_items (rlp : list rlp_item) : res DecoderError t :=
  let? chain_id := val_at (dec_uint 256) rlp 0 in
  let? nonce := val_at (dec_uint 256) rlp 1 in
  let? max_priority_fee_per_gas := val_at (dec_uint 256) rlp 2 in
  let? max_fee_per_gas := val_at (dec_uint 256) rlp 3 in
  let? gas_limit := val_at (dec_uint 256) rlp 4 in
  let? to := val_at to_of_item rlp 5 in
  let? value := val_at (dec_uint 256) rlp 6 in
  let? data := val_at dec_bytes rlp 7 in
  let? access_list := val_at access_list_of_item rlp 8 in
  let? y_parity := val_at (dec_uint 64) rlp 9 in
  let? r := val_at (dec_uint 256) rlp 10 in
  let? s := val_at (dec_uint 256) rlp 11 in
  Ok {| chain_id := chain_id; nonce := nonce; max_priority_fee_per_gas := max_priority_fee_per_gas;
        max_fee_per_gas := max_fee_per_gas; gas_limit := gas_limit; to := to; value := value; data := data;
        access_list := access_list; y_parity := y_parity; r := r; s := s |}.
End Codec.
End EIP1559Transaction.

(** ** Transaction types *)

Module TransactionId.
Inductive t := EIP1559 | AccessList | Legacy.

Definition to_u8 (self : t) : byte :=
  match self with EIP1559 => x02 | AccessList => x01 | Legacy => x00 end.

(** From a byte. *)
Definition try_from (val : byte) : option t :=
  if decide (val = to_u8 EIP1559) then Some EIP1559
  else if decide (val = to_u8 AccessList) then Some AccessList
  else if negb (Z.land (byte_to_Z val) 128 =? 0) then Some Legacy
  else if decide (val = to_u8 Legacy) then Some Legacy
  else None.
End TransactionId.

Module Transaction.
Inductive t :=
| Legacy (tx : LegacyTransaction.t)
| AccessList (tx : AccessListTransaction.t)
| EIP1559 (tx : EIP1559Transaction.t).

Section Codec.
Context `{RlpTree}.

(** [rlp::decode]. *)
Definition rlp_decode {A} (of_items : list rlp_item -> res DecoderError A) (b : bytes) : res DecoderError A :=
  let? rlp := dec_list b in of_items rlp.

Definition decode (tx : bytes) : res DecoderError t :=
  match tx with
  | [] => Err RlpIncorrectListLen
  | b0 :: rest =>
      let? id := ok_or (TransactionId.try_from b0) UnknownTransactionId in
      match id with
      | TransactionId.EIP1559 => let? tx := rlp_decode EIP1559Transaction.of_items rest in Ok (EIP1559 tx)
      | TransactionId.AccessList => let? tx := rlp_decode AccessListTransaction.of_items rest in Ok (AccessList tx)
      | TransactionId.Legacy => let? tx := rlp_decode LegacyTransaction.of_items tx in Ok (Legacy tx)
      end
  end.

Definition encode (self : t) : bytes :=
  match self with
  | Legacy tx => enc_list (LegacyTransaction.to_items tx)
  | AccessList tx => TransactionId.to_u8 TransactionId.AccessList :: enc_list (AccessListTransaction.to_items tx)
  | EIP1559 tx => TransactionId.to_u8 TransactionId.EIP1559 :: enc_list (EIP1559Transaction.to_items tx)
  end.

Definition hash (self : t) : bytes := keccak (encode self).
End Codec.
End Transaction.

(** ** Receipts *)

Record LogEntry := { log_address : bytes; topics : list bytes; log_data : bytes }.

Inductive TransactionOutcome :=
| StateRoot (root : bytes)
| StatusCode (code : Z).

Record LegacyReceipt := {
  cumulative_gas_used : Z;
  log_bloom : bytes;
  logs : list LogEntry;
  outcome : TransactionOutcome;
}.

Section ReceiptCodec.
Context `{RlpTree} `{BloomLib}.

Definition log_item (self : LogEntry) : rlp_item :=
  nested [enc_bytes (log_address self); nested (enc_bytes <$> topics self); enc_bytes (log_data self)].

Definition log_of_item (rlp : rlp_item) : res DecoderError LogEntry :=
  let? rlp := sub_items rlp in
  let? address := val_at (dec_fixed 20) rlp 0 in
  let? topics := list_at (dec_fixed 32) rlp 1 in
  let? data := val_at dec_bytes rlp 2 in
  Ok {| log_address := address; topics := topics; log_data := data |}.

(** [LogEntry::bloom]. *)
Definition log_entry_bloom (self : LogEntry) : bytes :=
  fold_left (fun b t => bloom_or b (bloom_raw t)) (topics self) (bloom_raw (log_address self)).

(** [LegacyReceipt::new]. *)
Definition new_receipt (outcome : TransactionOutcome) (cumulative_gas_used : Z) (logs : list LogEntry)
    : LegacyReceipt := {|
  cumulative_gas_used := cumulative_gas_used;
  log_bloom := fold_left (fun b l => bloom_or b (log_entry_bloom l)) logs (replicate 256 x00);
  logs := logs;
  outcome := outcome;
|}.

Definition receipt_to_items (self : LegacyReceipt) : list rlp_item :=
  [match outcome self with
   | StateRoot root => enc_bytes root
   | StatusCode status_code => enc_uint status_code
   end;
   enc_uint (cumulative_gas_used self); enc_bytes (log_bloom self); nested (log_item <$> logs self)].

(** Data of at most one byte is a status code. *)
Definition outcome_of_item (first : rlp_item) : res DecoderError TransactionOutcome :=
  match item_data first with
  | Some d =>
      if (length d <=? 1)%nat then let? c := dec_uint 8 first in Ok (StatusCode c)
      else let? r := dec_fixed 32 first in Ok (StateRoot r)
  | None => let? r := dec_fixed 32 first in Ok (StateRoot r)
  end.

Definition receipt_of_items (rlp : list rlp_item) : res DecoderError LegacyReceipt :=
  if (length rlp =? 4)%nat then
    let? gas := val_at (dec_uint 256) rlp 1 in
    let? bloom := val_at (dec_fixed 256) rlp 2 in
    let? logs := list_at log_of_item rlp 3 in
    let? outcome := val_at outcome_of_item rlp 0 in
    Ok {| cumulative_gas_used := gas; log_bloom := bloom; logs := logs; outcome := outcome |}
  else Err RlpIncorrectListLen.
End ReceiptCodec.

Module Receipt.
Inductive t :=
| Legacy (receipt : LegacyReceipt)
| AccessList (receipt : LegacyReceipt)
| EIP1559 (receipt : LegacyReceipt).

Definition new (type_id : TransactionId.t) (legacy_receipt : LegacyReceipt) : t :=
  match type_id with
  | TransactionId.EIP1559 => EIP1559 legacy_receipt
  | TransactionId.AccessList => AccessList legacy_receipt
  | TransactionId.Legacy => Legacy legacy_receipt
  end.

Definition receipt (self : t) : LegacyReceipt :=
  match self with Legacy r | AccessList r | EIP1559 r => r end.

Section Codec.
Context `{RlpTree}.

Definition encode (self : t) : bytes :=
  match self with
  | Legacy receipt => enc_list (receipt_to_items receipt)
  | AccessList receipt => TransactionId.to_u8 TransactionId.AccessList :: enc_list (receipt_to_items receipt)
  | EIP1559 receipt => TransactionId.to_u8 TransactionId.EIP1559 :: enc_list (receipt_to_items receipt)
  end.

Definition decode (receipt : bytes) : res DecoderError t :=
  match receipt with
  | [] => Err RlpIncorrectListLen
  | b0 :: rest =>
      let? id := ok_or (TransactionId.try_from b0) UnknownTransactionId in
      match id with
      | TransactionId.EIP1559 => let? r := Transaction.rlp_decode receipt_of_items rest in Ok (EIP1559 r)
      | TransactionId.AccessList => let? r := Transaction.rlp_decode receipt_of_items rest in Ok (AccessList r)
      | TransactionId.Legacy => let? r := Transaction.rlp_decode receipt_of_items receipt in Ok (Legacy r)
      end
  end.
End Codec.
End Receipt.

(** ** Withdrawals *)

Module Withdrawal.
Record t := { index : Z; validator_index : Z; address : bytes; amount : Z }.

Section Codec.
Context `{RlpTree}.

Definition to_items (self : t) : list rlp_item :=
  [enc_uint (index self); enc_uint (validator_index self); enc_bytes (address self); enc_uint (amount self)].

Definition of_items (rlp : list rlp_item) : res DecoderError t :=
  let? index := val_at (dec_uint 64) rlp 0 in
  let? validator_index := val_at (dec_uint 64) rlp 1 in
  let? address := val_at (dec_fixed 20) rlp 2 in
  let? amount := val_at (dec_uint 64) rlp 3 in
  Ok {| index := index; validator_index := validator_index; address := address; amount := amount |}.
End Codec.
End Withdrawal.

(** ** JSON fields that are parsed by hand *)

Section Json.
Context `{HexLib}.

(** Decimal digits into a [u8]. *)
Fixpoint digits_u8 (s : bytes) (acc : Z) : option Z :=
  match s with
  | [] => Some acc
  | c :: s =>
      let d := byte_to_Z c - 0x30 in
      if (0 <=? d) && (d <=? 9) && (acc * 10 + d <? 256) then digits_u8 s (acc * 10 + d) else None
  end.

(** [str::parse::<u8>]: an optional sign, then at least one digit. *)
Definition parse_u8 (s : bytes) : option Z :=
  match s with
  | [] => None
  | x2b :: [] => None
  | x2b :: s => digits_u8 s 0
  | s => digits_u8 s 0
  end.

(** [TransactionId::try_from(Value)], on the string if the value is one. *)
Definition tx_id_of_json (val : option bytes) : option TransactionId.t :=
  id ← val;
  id ← parse_u8 (trim_0x id);
  TransactionId.try_from (byte_of_Z id).

Inductive outcome_error := OutcomeNumber | OutcomeHex (e : ByteUtilsError) | InvalidTransactionOutcome.

(** [TransactionOutcome::deserialize]; [H256::from_slice] panics on other lengths. *)
Definition outcome_of_json (s : bytes) : res outcome_error TransactionOutcome :=
  let s := trim_0x s in
  if (length s =? 1)%nat then
    let? c := ok_or (parse_u8 s) OutcomeNumber in Ok (StatusCode c)
  else if (length s =? 64)%nat then
    let? b := map_err OutcomeHex (hex_decode s) in
    if (length b =? 32)%nat then Ok (StateRoot b) else Panic
  else Err InvalidTransactionOutcome.

(** [ToAddress::deserialize], on the string or [null]. *)
Definition to_of_json (s : option bytes) : res ByteUtilsError ToAddress :=
  match s with
  | None => Ok Empty
  | Some val =>
      let? b := hex_decode val in
      if (length b =? 20)%nat then Ok (Exists b) else Panic
  end.

(** [JsonBytes::deserialize]. *)
Definition json_bytes (s : bytes) : res ByteUtilsError bytes := hex_decode s.
End Json.

(** ** Laws of the RLP crate *)

(** What the encoder writes, the decoder reads; a list begins with a byte from 0xc0 on, and
    nothing else does. *)
Class RlpTreeOk {R : RlpLib} (T : RlpTree R) : Prop := {
  sub_nested l : sub_items (nested l) = Ok l;
  is_empty_bytes b : item_is_empty (enc_bytes b) = bool_decide (b = []);
  data_bytes b : item_data (enc_bytes b) = Some b;
  data_uint z : 0 <= z < 256 -> exists d, item_data (enc_uint z) = Some d /\ (length d <= 1)%nat;
  enc_list_head l : exists c t, enc_list l = c :: t /\ 192 <= byte_to_Z c;
  dec_list_head c t l : dec_list (c :: t) = Ok l -> 192 <= byte_to_Z c;
  dec_list_nil : exists e, dec_list [] = Err e;
  dec_list_total b : dec_list b <> Panic;
  encode_uint_inj z z' : is_u64 z -> is_u64 z' -> encode_uint z = encode_uint z' -> z = z';
}.

Create HintDb rlp discriminated.

(** ** Well-typed values *)

Definition is_u8 (z : Z) : Prop := 0 <= z < 2 ^ 8.

Definition to_wf (t : ToAddress) : Prop := match t with Empty => True | Exists a => length a = 20%nat end.
Definition access_wf (a : AccessList) : Prop :=
  Forall (fun i => length (al_address i) = 20%nat /\ Forall (fun k => length k = 32%nat) (storage_keys i)) (al_list a).

Definition tx_wf (t : Transaction.t) : Prop :=
  match t with
  | Transaction.Legacy tx =>
      let 'LegacyTransaction.Build_t nonce gas_price gas to value _ v r s := tx in
      Forall is_u256 [nonce; gas_price; gas; value; r; s] /\ is_u64 v /\ to_wf to
  | Transaction.AccessList tx =>
      let 'AccessListTransaction.Build_t chain nonce gas_price gas to value _ al y r s := tx in
      Forall is_u256 [chain; nonce; gas_price; gas; value; r; s] /\ is_u64 y /\ to_wf to /\ access_wf al
  | Transaction.EIP1559 tx =>
      let 'EIP1559Transaction.Build_t chain nonce prio fee gas to value _ al y r s := tx in
      Forall is_u256 [chain; nonce; prio; fee; gas; value; r; s] /\ is_u64 y /\ to_wf to /\ access_wf al
  end.

Definition log_wf (l : LogEntry) : Prop :=
  length (log_address l) = 20%nat /\ Forall (fun t => length t = 32%nat) (topics l).
Definition receipt_wf (r : LegacyReceipt) : Prop :=
  is_u256 (cumulative_gas_used r) /\ length (log_bloom r) = 256%nat /\ Forall log_wf (logs r)
  /\ match outcome r with StateRoot h => length h = 32%nat | StatusCode c => is_u8 c end.

Definition withdrawal_wf (w : Withdrawal.t) : Prop :=
  is_u64 (Withdrawal.index w) /\ is_u64 (Withdrawal.validator_index w) /\ length (Withdrawal.address w) = 20%nat
  /\ is_u64 (Withdrawal.amount w).

(** ** Round trips *)

Section Roundtrip.
Context {R : RlpLib} `{!RlpLibOk R} {T : RlpTree R} `{!RlpTreeOk T}.

Lemma res_all_roundtrip {E A B} (f : A -> B) (g : B -> res E A) l :
  Forall (fun a => g (f a) = Ok a) l -> res_all g (f <$> l) = Ok l.
Proof.
  induction 1 as [|a l Ha _ IH]; [done|]. rewrite fmap_cons. cbn [res_all]. by rewrite Ha, IH.
Qed.

Lemma dec_u256 z : is_u256 z -> dec_uint 256 (enc_uint z) = Ok z.
Proof. apply dec_enc_uint. Qed.
Lemma dec_u64 z : is_u64 z -> dec_uint 64 (enc_uint z) = Ok z.
Proof. apply dec_enc_uint. Qed.

Lemma to_roundtrip t : to_wf t -> to_of_item (to_item t) = Ok t.
Proof.
  intros Ht. unfold to_of_item. destruct t as [|a]; simpl in *; rewrite is_empty_bytes; [done|].
  rewrite bool_decide_eq_false_2 by (by intros ->). by rewrite dec_enc_fixed.
Qed.

(** A list of hashes within a list. *)
Lemma list_at_fixed n (ks : list bytes) rlp i :
  rlp !! i = Some (nested (enc_bytes <$> ks)) -> Forall (fun k => length k = n) ks ->
  list_at (dec_fixed n) rlp i = Ok ks.
Proof.
  intros Hi Hk. unfold list_at, val_at, iter_item. rewrite Hi, sub_nested. apply res_all_roundtrip.
  eapply Forall_impl; [exact Hk|]. intros k Hl. by apply dec_enc_fixed.
Qed.

Lemma access_list_roundtrip a : access_wf a -> access_list_of_item (access_list_item a) = Ok a.
Proof.
  intros Ha. unfold access_list_of_item, access_list_item, iter_item. rewrite sub_nested.
  rewrite (res_all_roundtrip access_item); [by destruct a|].
  eapply Forall_impl; [exact Ha|]. intros i [Hl Hk]. unfold access_of_item, access_item. rewrite sub_nested.
  unfold val_at at 1. simpl. rewrite dec_enc_fixed by done. erewrite list_at_fixed by done. by destruct i.
Qed.

Lemma legacy_id c : 192 <= byte_to_Z c -> TransactionId.try_from c = Some TransactionId.Legacy.
Proof.
  intros Hc. unfold TransactionId.try_from.
  rewrite !decide_False by (intros ->; by vm_compute in Hc).
  destruct (Z.land (byte_to_Z c) 128 =? 0) eqn:E; [|done]. exfalso. apply Z.eqb_eq in E.
  assert (Hb : Z.testbit (Z.land (byte_to_Z c) 128) 7 = true); [|by rewrite E in Hb].
  rewrite Z.land_spec, andb_true_iff. split; [|done].
  pose proof (byte_to_Z_range c). apply Z.testbit_true; [lia|].
  replace (byte_to_Z c / 2 ^ 7) with 1; [done|]. apply Z.div_unique_pos with (byte_to_Z c - 128); lia.
Qed.

(** Reading the fields of a value back. *)
Ltac read_fields :=
  repeat match goal with
  | H : Forall _ (_ :: _) |- _ => apply Forall_cons in H as [? H]
  | H : Forall _ [] |- _ => clear H
  end;
  unfold val_at; cbn [lookup list_lookup];
  rewrite ?dec_u256, ?dec_u64, ?to_roundtrip, ?access_list_roundtrip, ?dec_enc_bytes, ?dec_enc_fixed by done;
  reflexivity.

Lemma legacy_tx_roundtrip tx :
  tx_wf (Transaction.Legacy tx) -> LegacyTransaction.of_items (LegacyTransaction.to_items tx) = Ok tx.
Proof.
  destruct tx. intros (Hz & Hv & Ht). unfold LegacyTransaction.of_items, LegacyTransaction.to_items. simpl.
  read_fields.
Qed.

Lemma access_tx_roundtrip tx :
  tx_wf (Transaction.AccessList tx) -> AccessListTransaction.of_items (AccessListTransaction.to_items tx) = Ok tx.
Proof.
  destruct tx. intros (Hz & Hv & Ht & Ha). unfold AccessListTransaction.of_items, AccessListTransaction.to_items. simpl.
  read_fields.
Qed.

Lemma eip1559_tx_roundtrip tx :
  tx_wf (Transaction.EIP1559 tx) -> EIP1559Transaction.of_items (EIP1559Transaction.to_items tx) = Ok tx.
Proof.
  destruct tx. intros (Hz & Hv & Ht & Ha). unfold EIP1559Transaction.of_items, EIP1559Transaction.to_items. simpl.
  read_fields.
Qed.

Lemma withdrawal_roundtrip w : withdrawal_wf w -> Withdrawal.of_items (Withdrawal.to_items w) = Ok w.
Proof.
  destruct w. intros (Hi & Hv & Ha & Hm). unfold Withdrawal.of_items, Withdrawal.to_items. simpl in *. read_fields.
Qed.

Lemma log_roundtrip l : log_wf l -> log_of_item (log_item l) = Ok l.
Proof.
  intros [Ha Ht]. unfold log_of_item, log_item. rewrite sub_nested. erewrite list_at_fixed by done.
  destruct l. simpl in *. read_fields.
Qed.

Lemma outcome_roundtrip r :
  receipt_wf r ->
  outcome_of_item (match outcome r with StateRoot root => enc_bytes root | StatusCode c => enc_uint c end)
  = Ok (outcome r).
Proof.
  intros (_ & _ & _ & Ho). unfold outcome_of_item. destruct (outcome r) as [h|c].
  - rewrite data_bytes, Ho. simpl. by rewrite dec_enc_fixed.
  - destruct (data_uint c Ho) as (d & -> & Hd). rewrite (proj2 (Nat.leb_le _ _) Hd).
    by rewrite dec_enc_uint.
Qed.

Lemma receipt_items_roundtrip r : receipt_wf r -> receipt_of_items (receipt_to_items r) = Ok r.
Proof.
  intros Hr. unfold receipt_of_items. rewrite Nat.eqb_refl. unfold receipt_to_items, list_at, val_at. cbn [lookup list_lookup].
  rewrite outcome_roundtrip by done. destruct Hr as (Hg & Hb & Hl & _).
  rewrite dec_u256, dec_enc_fixed by done. unfold iter_item. rewrite sub_nested, (res_all_roundtrip log_item).
  - by destruct r.
  - eapply Forall_impl; [exact Hl|]. apply log_roundtrip.
Qed.

(** Transactions decode to what was encoded. *)
Lemma tx_decode_encode t : tx_wf t -> Transaction.decode (Transaction.encode t) = Ok t.
Proof.
  intros Ht. destruct t as [tx|tx|tx]; unfold Transaction.decode, Transaction.encode.
  - destruct (enc_list_head (LegacyTransaction.to_items tx)) as (c & l & E & Hc). rewrite E, legacy_id by done.
    unfold Transaction.rlp_decode. simpl. by rewrite <- E, dec_enc_list, legacy_tx_roundtrip.
  - simpl. unfold Transaction.rlp_decode. by rewrite dec_enc_list, access_tx_roundtrip.
  - simpl. unfold Transaction.rlp_decode. by rewrite dec_enc_list, eip1559_tx_roundtrip.
Qed.

Lemma receipt_decode_encode t : receipt_wf (Receipt.receipt t) -> Receipt.decode (Receipt.encode t) = Ok t.
Proof.
  intros Ht. destruct t as [r|r|r]; unfold Receipt.decode, Receipt.encode; simpl in Ht.
  - destruct (enc_list_head (receipt_to_items r)) as (c & l & E & Hc). rewrite E, legacy_id by done.
    unfold Transaction.rlp_decode. simpl. by rewrite <- E, dec_enc_list, receipt_items_roundtrip.
  - simpl. unfold Transaction.rlp_decode. by rewrite dec_enc_list, receipt_items_roundtrip.
  - simpl. unfold Transaction.rlp_decode. by rewrite dec_enc_list, receipt_items_roundtrip.
Qed.

Lemma tx_encode_nonempty t : Transaction.encode t <> [].
Proof.
  destruct t; simpl; [|done..]. destruct (enc_list_head (LegacyTransaction.to_items tx)) as (c & l & -> & _). done.
Qed.
Lemma receipt_encode_nonempty t : Receipt.encode t <> [].
Proof. destruct t; simpl; [|done..]. destruct (enc_list_head (receipt_to_items receipt)) as (c & l & -> & _). done. Qed.

(** Transactions and receipts survive their encodings: a typed envelope or a bare
    list decodes to the transaction (of any of the three types) or receipt that was
    encoded, and different well-typed values have different encodings. *)
Theorem execution_roundtrip :
  (forall t, tx_wf t -> Transaction.decode (Transaction.encode t) = Ok t)
  /\ (forall t t', tx_wf t -> tx_wf t' -> Transaction.encode t = Transaction.encode t' -> t = t')
  /\ (forall r, receipt_wf (Receipt.receipt r) -> Receipt.decode (Receipt.encode r) = Ok r)
  /\ (forall w, withdrawal_wf w -> Transaction.rlp_decode Withdrawal.of_items (enc_list (Withdrawal.to_items w)) = Ok w).
Proof.
  split_and!; [apply tx_decode_encode| |apply receipt_decode_encode|].
  - intros t t' Ht Ht' E. apply tx_decode_encode in Ht, Ht'. rewrite E in Ht. congruence.
  - intros w Hw. unfold Transaction.rlp_decode. by rewrite dec_enc_list, withdrawal_roundtrip.
Qed.
End Roundtrip.

(** ** State roots in JSON *)

Section JsonOutcome.
Context `{HexLib}.

Lemma trim_0x_prefix s : starts_with str_0x (trim_0x s) = false.
Proof.
  unfold starts_with. rewrite bool_decide_eq_false. remember (length s) as n eqn:Hn. revert s Hn.
  induction n as [n IH] using lt_wf_ind. intros [|a [|b s]] ->; [discriminate|by destruct a|].
  destruct a; try discriminate. destruct b; try discriminate.
  exact (IH (length s) ltac:(simpl; lia) s eq_refl).
Qed.

(** A receipt whose outcome is a state root, as before Byzantium, cannot be read from
    JSON: the prefix 0x is removed from the string and then asked for by the hex decoder,
    so that every string of 64 digits is refused; status codes from 0 to 9 are read. *)
Theorem json_state_root_rejected s :
  match outcome_of_json s with
  | Ok (StateRoot _) | Panic => False
  | Ok (StatusCode c) => 0 <= c <= 9
  | Err _ => True
  end.
Proof.
  unfold outcome_of_json. pose proof (trim_0x_prefix s) as Hp. set (s' := trim_0x s) in *. clearbody s'.
  destruct (length s' =? 1)%nat eqn:El.
  - apply Nat.eqb_eq in El. destruct s' as [|c [|]]; try done. unfold parse_u8.
    assert (Hd : match digits_u8 [c] 0 with Some z => 0 <= z <= 9 | None => True end).
    { simpl. destruct (_ && _ && _) eqn:E; [|done].
      apply andb_true_iff in E as [E _]. apply andb_true_iff in E as [E1%Z.leb_le E2%Z.leb_le]. lia. }
    destruct c; try done; try exact I; revert Hd; by vm_compute.
  - destruct (length s' =? 64)%nat; [|done]. unfold hex_decode, get_to.
    destruct (is_char_boundary s' 2); simpl; [|done].
    rewrite bool_decide_eq_false_2; [done|]. intros E. unfold starts_with in Hp.
    by rewrite bool_decide_eq_true_2 in Hp.
Qed.
End JsonOutcome.

(** ** A concrete RLP library with nested lists, for the witnesses *)

(** Data and lists; a list is bracketed by [xc0] and [xc1], data is escaped as in [Header]. *)
#[local] Unset Elimination Schemes.
Inductive rlp_tree := Leaf (b : bytes) | Node (l : list rlp_tree).
#[local] Set Elimination Schemes.

Section TreeInd.
Context (P : rlp_tree -> Prop) (Hleaf : forall b, P (Leaf b)) (Hnode : forall l, Forall P l -> P (Node l)).

Fixpoint rlp_tree_induct (t : rlp_tree) : P t :=
  match t with
  | Leaf b => Hleaf b
  | Node l =>
      Hnode l ((fix go l : Forall P l :=
                  match l with [] => Forall_nil_2 _ | t :: l => Forall_cons_2 _ _ _ (rlp_tree_induct t) (go l) end) l)
  end.
End TreeInd.

Fixpoint enc_tree (t : rlp_tree) : bytes :=
  match t with
  | Leaf b => toy_escape b
  | Node l => xc0 :: concat (map enc_tree l) ++ [xc1]
  end.

(** A parser with the open lists on a stack. *)
Fixpoint parse_tree (s cur : bytes) (stk : list (list rlp_tree)) : option (list (list rlp_tree)) :=
  match s, stk with
  | [], _ => Some stk
  | x01 :: c :: t, _ => parse_tree t (cur ++ [c]) stk
  | x00 :: t, top :: rest => parse_tree t [] ((top ++ [Leaf cur]) :: rest)
  | xc0 :: t, _ => parse_tree t [] ([] :: stk)
  | xc1 :: t, top :: next :: rest => parse_tree t [] ((next ++ [Node top]) :: rest)
  | _, _ => None
  end.

Lemma parse_leaf b rest cur top stk :
  parse_tree (toy_escape b ++ rest) cur (top :: stk) = parse_tree rest [] ((top ++ [Leaf (cur ++ b)]) :: stk).
Proof.
  revert cur. induction b as [|c b IH]; intros cur; simpl; [by rewrite app_nil_r|].
  by rewrite IH, <- app_assoc.
Qed.

Lemma parse_enc_tree t : forall rest top stk,
  parse_tree (enc_tree t ++ rest) [] (top :: stk) = parse_tree rest [] ((top ++ [t]) :: stk).
Proof.
  induction t as [b|l IH] using rlp_tree_induct; intros rest top stk; [apply parse_leaf|].
  assert (H : forall rest acc, parse_tree (concat (map enc_tree l) ++ rest) [] (acc :: top :: stk)
              = parse_tree rest [] ((acc ++ l) :: top :: stk)).
  { clear -IH. induction IH as [|t l Ht _ IHl]; intros rest acc; simpl; [by rewrite app_nil_r|].
    rewrite <- app_assoc, Ht, IHl. by rewrite <- app_assoc. }
  cbn [enc_tree app]. rewrite <- app_assoc. cbn [parse_tree]. by rewrite H.
Qed.

Definition toy_rlp_tree : RlpLib := {|
  rlp_item := rlp_tree;
  enc_bytes := Leaf;
  enc_uint z := Leaf (if z =? 0 then [] else Z_to_le (Z.to_nat (Z.log2 z / 8 + 1)) z);
  dec_bytes it := match it with Leaf b => Ok b | Node _ => Err (RlpOther 0) end;
  dec_fixed n it :=
    match it with Leaf b => if (length b =? n)%nat then Ok b else Err (RlpOther 1) | Node _ => Err (RlpOther 0) end;
  dec_uint w it :=
    match it with
    | Leaf b => if le_to_Z b <? 2 ^ w then Ok (le_to_Z b) else Err (RlpOther 1)
    | Node _ => Err (RlpOther 0)
    end;
  enc_list l := enc_tree (Node l);
  dec_list b :=
    match b with
    | xc0 :: _ => match parse_tree b [] [[]] with Some [[Node l]] => Ok l | _ => Err (RlpOther 2) end
    | _ => Err (RlpOther 2)
    end;
  keccak b := Z_to_be 32 (le_to_Z b mod (2 ^ 255 - 19))
|}.

#[global] Instance toy_tree : RlpTree toy_rlp_tree :=
  Build_RlpTree toy_rlp_tree Node
    (fun it => match it with Node l => Ok l | Leaf _ => Err (RlpOther 0) end)
    (fun it => match it with Node l => bool_decide (length l = 0%nat) | Leaf b => bool_decide (b = []) end)
    (fun it => match it with Node _ => None | Leaf b => Some b end)
    (Z_to_le 8).

Lemma parse_enc_node l : dec_list (RlpLib := toy_rlp_tree) (enc_tree (Node l)) = Ok l.
Proof.
  cbn [dec_list toy_rlp_tree]. pose proof (parse_enc_tree (Node l) [] [] []) as H. rewrite app_nil_r in H.
  change (enc_tree (Node l)) with (xc0 :: concat (map enc_tree l) ++ [xc1]) in *. by rewrite H.
Qed.

#[global] Instance toy_rlp_tree_ok : RlpLibOk toy_rlp_tree.
Proof.
  constructor; try done.
  - intros n b <-. cbn. by rewrite Nat.eqb_refl.
  - intros w z Hz. cbn -[Z.pow Z.ltb].
    assert (le_to_Z (if z =? 0 then [] else Z_to_le (Z.to_nat (Z.log2 z / 8 + 1)) z) = z) as ->;
      [|by rewrite (proj2 (Z.ltb_lt z (2 ^ w))) by lia].
    destruct (Z.eqb_spec z 0) as [->|Hnz]; [done|].
    pose proof (Z.log2_nonneg z). assert (0 <= Z.log2 z / 8) by (apply Z.div_pos; lia).
    rewrite le_to_Z_to_le by lia. apply Z.mod_small. split; [lia|]. rewrite Z2Nat.id by lia.
    change 256 with (2 ^ 8). rewrite <- Z.pow_mul_r by lia. apply Z.log2_lt_pow2; [lia|].
    Z.to_euclidean_division_equations. lia.
  - intros l. apply parse_enc_node.
Qed.

#[global] Instance toy_rlp_tree_typed : RlpTyped toy_rlp_tree.
Proof.
  constructor.
  - intros n it b. cbn. destruct it; [|done]. destruct (Nat.eqb_spec (length b0) n); [|done]. by intros [= <-].
  - intros w it z. cbn -[Z.pow Z.ltb]. destruct it as [b|]; [|done]. destruct (Z.ltb_spec (le_to_Z b) (2 ^ w)); [|done].
    intros [= <-]. split; [apply le_to_Z_range|done].
Qed.

#[global] Instance toy_tree_ok : RlpTreeOk toy_tree.
Proof.
  constructor; try done.
  - intros z Hz. cbn. destruct (Z.eqb_spec z 0) as [->|Hnz]; [exists []; split; [done|simpl; lia]|]. eexists. split; [done|].
    rewrite length_Z_to_le. assert (Z.log2 z < 8) by (apply Z.log2_lt_pow2; lia). rewrite Z.div_small; [simpl; lia|].
    pose proof (Z.log2_nonneg z). lia.
  - intros l. by exists xc0, (concat (map enc_tree l) ++ [xc1]).
  - intros c t l. cbn. by destruct c.
  - by eexists.
  - intros b. cbn. destruct b as [|[] ?]; try done. by repeat case_match.
  - intros z z' Hz Hz' E. apply (f_equal le_to_Z) in E. unfold is_u64 in *. change U64_MOD with (256 ^ Z.of_nat 8) in *.
    cbn [encode_uint toy_tree] in E. rewrite !le_to_Z_to_le, !Z.mod_small in E; lia.
Qed.

Definition sample_tx : Transaction.t :=
  Transaction.EIP1559
    {| EIP1559Transaction.chain_id := 1; EIP1559Transaction.nonce := 300;
       EIP1559Transaction.max_priority_fee_per_gas := 0; EIP1559Transaction.max_fee_per_gas := 10 ^ 10;
       EIP1559Transaction.gas_limit := 21000; EIP1559Transaction.to := Exists (replicate 20 x0a);
       EIP1559Transaction.value := 2 ^ 70; EIP1559Transaction.data := [x01; xc0];
       EIP1559Transaction.access_list :=
         {| al_list := [{| al_address := replicate 20 x0b; storage_keys := [replicate 32 x0c; replicate 32 x0d] |}] |};
       EIP1559Transaction.y_parity := 1; EIP1559Transaction.r := 7; EIP1559Transaction.s := 2 ^ 255 |}.

Lemma sample_tx_wf : tx_wf sample_tx.
Proof.
  cbn -[Z.pow]. unfold is_u256, is_u64, U256_MOD, U64_MOD. split_and!; [|lia..|done|].
  - repeat constructor; (done || lia).
  - repeat constructor.
Qed.

Lemma execution_roundtrip_witness :
  Transaction.decode (H := toy_tree) (Transaction.encode (H := toy_tree) sample_tx) = Ok sample_tx.
Proof. apply (proj1 (execution_roundtrip (T := toy_tree))). exact sample_tx_wf. Defined.
