(* ===== verification/BlockBody.v ===== *)
(** * Block bodies and lists of receipts.

    [ethportal-api/src/types/execution/block_body.rs] and the [Receipts] of
    [receipts.rs]: their SSZ forms, the roots that a header commits to, and the checks
    against a header.  The offsets of [ethereum_ssz] are the class [VarSsz], the Merkle
    Patricia trie of [eth_trie] is the class [TrieLib]. *)

From stdpp Require Import gmap.
From S2P Require Import Prelude.
From S2P Require Import Distance.
From S2P Require Import ContentKey.
From S2P Require Import SszList.
From S2P Require Import Header.
From S2P Require Import Transaction.

(** ** The crates *)

Class VarSsz := {
  (** [SszEncoder] and [SszDecoder] of a container of parts of variable size *)
  container_join : list bytes -> bytes;
  container_split : nat -> bytes -> res SszDecodeError (list bytes);
  (** lists of byte strings; the decoder can have a limit *)
  list_join : list bytes -> bytes;
  list_split : option Z -> bytes -> res SszDecodeError (list bytes);
}.

Class TrieLib := {
  trie : Type;
  trie_new : trie;
  trie_insert : trie -> bytes -> bytes -> option trie;
  trie_root_hash : trie -> option bytes;
}.

(** The errors of the code: [anyhow] messages. *)
Inductive BodyError :=
| BodyDecodeError
| UnclesRootMismatch
| TransactionsRootMismatch
| NoWithdrawalsRoot
| WithdrawalsRootMismatch
| NoWithdrawals
| TrieError.

Definition SHANGHAI_TIMESTAMP : Z := 1681338455.
Definition MERGE_TIMESTAMP : Z := 1663224162.
Definition MAX_TRANSACTION_COUNT : Z := 16384.

(** ** Data *)

Record BlockBodyLegacy := { legacy_txs : list Transaction.t; legacy_uncles : list Header.t }.
Record BlockBodyMerge := { merge_txs : list Transaction.t }.
Record BlockBodyShanghai := { shanghai_txs : list Transaction.t; shanghai_withdrawals : list Withdrawal.t }.

(** ** Tries of numbered values *)

Section Tries.
Context `{RlpTree} `{TrieLib}.

(** The loops that insert each value under the RLP encoding of its index. *)
Fixpoint insert_numbered (t : trie) (index : Z) (values : list bytes) : option trie :=
  match values with
  | [] => Some t
  | v :: rest =>
      t ← trie_insert t (encode_uint index) v;
      insert_numbered t (index + 1) rest
  end.

Definition numbered_root (values : list bytes) : res BodyError bytes :=
  ok_or (t ← insert_numbered trie_new 0 values; trie_root_hash t) TrieError.
End Tries.

(** ** Uncles *)

Section Uncles.
Context `{RlpTree}.

Definition header_item (h : Header.t) : rlp_item := nested (Header.items (Header.rlp_append h)).
Definition header_of_item (it : rlp_item) : res DecoderError Header.t :=
  let? rlp := sub_items it in Header.decode rlp.

(** [rlp::encode_list], and [append_list] to a stream. *)
Definition encode_uncles (uncles : list Header.t) : bytes := enc_list (header_item <$> uncles).

(** [rlp::decode_list]: a panic when an item is not a header; what is not a list has no
    items. *)
Definition decode_uncles {E} (b : bytes) : res E (list Header.t) :=
  match res_all header_of_item (iter_bytes b) with
  | Ok uncles => Ok uncles
  | _ => Panic
  end.
End Uncles.

(** ** Codecs *)

Section Codecs.
Context `{RlpTree} `{VarSsz}.

(** [rlp::encode] of a withdrawal. *)
Definition encode_withdrawal (w : Withdrawal.t) : bytes := enc_list (Withdrawal.to_items w).

Definition decode_txs (txs : list bytes) : res SszDecodeError (list Transaction.t) :=
  map_err (fun _ => BytesInvalid) (res_all Transaction.decode txs).

Definition legacy_as_ssz (self : BlockBodyLegacy) : bytes :=
  let encoded_txs := Transaction.encode <$> legacy_txs self in
  let rlp_uncles := encode_uncles (legacy_uncles self) in
  container_join [list_join encoded_txs; rlp_uncles].

Definition merge_as_ssz (self : BlockBodyMerge) : bytes :=
  let encoded_txs := Transaction.encode <$> merge_txs self in
  let rlp_uncles := encode_uncles [] in
  container_join [list_join encoded_txs; rlp_uncles].

Definition shanghai_as_ssz (self : BlockBodyShanghai) : bytes :=
  let encoded_txs := Transaction.encode <$> shanghai_txs self in
  let rlp_uncles := encode_uncles [] in
  let encoded_withdrawals := encode_withdrawal <$> shanghai_withdrawals self in
  container_join [list_join encoded_txs; rlp_uncles; list_join encoded_withdrawals].

Definition legacy_from_ssz (b : bytes) : res SszDecodeError BlockBodyLegacy :=
  let? parts := container_split 2 b in
  match parts with
  | [txs; uncles] =>
      let? txs := list_split None txs in
      let? txs := decode_txs txs in
      let? uncles := decode_uncles uncles in
      Ok {| legacy_txs := txs; legacy_uncles := uncles |}
  | _ => Err BytesInvalid
  end.

Definition merge_from_ssz (b : bytes) : res SszDecodeError BlockBodyMerge :=
  let? parts := container_split 2 b in
  match parts with
  | [txs; uncles] =>
      let? txs := list_split None txs in
      let? txs := decode_txs txs in
      let? uncles := decode_uncles uncles in
      match (uncles : list Header.t) with
      | [] => Ok {| merge_txs := txs |}
      | _ => Err BytesInvalid
      end
  | _ => Err BytesInvalid
  end.

Definition shanghai_from_ssz (b : bytes) : res SszDecodeError BlockBodyShanghai :=
  let? parts := container_split 3 b in
  match parts with
  | [txs; uncles; withdrawals] =>
      let? txs := list_split None txs in
      let? withdrawals := list_split None withdrawals in
      let? txs := decode_txs txs in
      let? uncles := decode_uncles uncles in
      match (uncles : list Header.t) with
      | [] =>
          let? withdrawals :=
            map_err (fun _ => BytesInvalid) (res_all (Transaction.rlp_decode Withdrawal.of_items) withdrawals) in
          Ok {| shanghai_txs := txs; shanghai_withdrawals := withdrawals |}
      | _ => Err BytesInvalid
      end
  | _ => Err BytesInvalid
  end.
End Codecs.

Module BlockBody.
Inductive t :=
| Legacy (body : BlockBodyLegacy)
| Merge (body : BlockBodyMerge)
| Shanghai (body : BlockBodyShanghai).

Section Operations.
Context `{RlpTree} `{VarSsz} `{TrieLib}.

(** The derived encoding of the enum is that of its variants. *)
Definition as_ssz_bytes (self : t) : bytes :=
  match self with
  | Legacy body => legacy_as_ssz body
  | Merge body => merge_as_ssz body
  | Shanghai body => shanghai_as_ssz body
  end.

(** The decoders in turn. *)
Definition from_ssz_bytes (b : bytes) : res SszDecodeError t :=
  or_else (res_map Legacy (legacy_from_ssz b)) (
  or_else (res_map Merge (merge_from_ssz b)) (
  or_else (res_map Shanghai (shanghai_from_ssz b)) (Err BytesInvalid))).

Definition decode_with_timestamp (b : bytes) (timestamp : Z) : res BodyError t :=
  if SHANGHAI_TIMESTAMP <=? timestamp then
    let? v := map_err (fun _ => BodyDecodeError) (shanghai_from_ssz b) in Ok (Shanghai v)
  else if MERGE_TIMESTAMP <=? timestamp then
    let? v := map_err (fun _ => BodyDecodeError) (merge_from_ssz b) in Ok (Merge v)
  else
    let? v := map_err (fun _ => BodyDecodeError) (legacy_from_ssz b) in Ok (Legacy v).

Definition transactions (self : t) : list Transaction.t :=
  match self with
  | Legacy body => legacy_txs body
  | Merge body => merge_txs body
  | Shanghai body => shanghai_txs body
  end.

Definition uncles (self : t) : list Header.t :=
  match self with
  | Legacy body => legacy_uncles body
  | Merge _ => []
  | Shanghai _ => []
  end.

Definition withdrawals (self : t) : res BodyError (list Withdrawal.t) :=
  match self with
  | Shanghai body => Ok (shanghai_withdrawals body)
  | _ => Err NoWithdrawals
  end.

Definition transactions_root (self : t) : res BodyError bytes :=
  numbered_root (Transaction.encode <$> transactions self).

Definition uncles_root (self : t) : res BodyError bytes := Ok (keccak (encode_uncles (uncles self))).

Definition withdrawals_root (self : t) : res BodyError bytes :=
  let? ws := withdrawals self in
  numbered_root (encode_withdrawal <$> ws).

Definition validate_against_header (self : t) (header : Header.t) : res BodyError unit :=
  let? uncles_root := uncles_root self in
  if negb (bool_decide (uncles_root = Header.uncles_hash header)) then Err UnclesRootMismatch
  else
    let? txs_root := transactions_root self in
    if negb (bool_decide (txs_root = Header.transactions_root header)) then Err TransactionsRootMismatch
    else
      match self with
      | Shanghai _ =>
          let? actual := withdrawals_root self in
          let? expected := ok_or (Header.withdrawals_root header) NoWithdrawalsRoot in
          if negb (bool_decide (actual = expected)) then Err WithdrawalsRootMismatch else Ok tt
      | _ => Ok tt
      end.
End Operations.
End BlockBody.

(** ** Lists of receipts *)

Module Receipts.
Record t := { receipt_list : list Receipt.t }.

Section Operations.
Context `{RlpTree} `{VarSsz} `{TrieLib}.

Definition root (self : t) : res BodyError bytes := numbered_root (Receipt.encode <$> receipt_list self).

Definition as_ssz_bytes (self : t) : bytes := list_join (Receipt.encode <$> receipt_list self).

Definition from_ssz_bytes (b : bytes) : res SszDecodeError t :=
  let? encoded_receipts := list_split (Some MAX_TRANSACTION_COUNT) b in
  let? receipt_list := map_err (fun _ => BytesInvalid) (res_all Receipt.decode encoded_receipts) in
  Ok {| receipt_list := receipt_list |}.
End Operations.
End Receipts.

(** ** Laws of the crates *)

(** Containers and lists begin with the offset of their first part: four bytes for each
    part.  Decoding accepts exactly what the encoder makes, and does not panic. *)
Class VarSszOk (S : VarSsz) : Prop := {
  container_offset p ps : take 4 (container_join (p :: ps)) = Z_to_le 4 (4 * Z.of_nat (length (p :: ps)));
  container_sound n b ps : container_split n b = Ok ps -> length ps = n /\ b = container_join ps;
  container_complete p ps : Z.of_nat (length (container_join (p :: ps))) < U32_MOD ->
    container_split (length (p :: ps)) (container_join (p :: ps)) = Ok (p :: ps);
  container_total n b : container_split n b <> Panic;
  list_join_nil : list_join [] = [];
  list_sound m b l : list_split m b = Ok l ->
    b = list_join l /\ forall k, m = Some k -> Z.of_nat (length l) <= k;
  list_complete m l : Z.of_nat (length (list_join l)) < U32_MOD ->
    (forall k, m = Some k -> Z.of_nat (length l) <= k) -> list_split m (list_join l) = Ok l;
  list_total m b : list_split m b <> Panic;
}.

(** A trie stands for the map of its insertions (an empty value would delete).  Its root
    hash is computed from the encodings of its nodes, which refer to each other by their
    digests; so tries with one root hash have one map, unless a node of one and a node of
    the other collide. *)
Class TrieLibOk `{RlpLib} (T : TrieLib) := {
  trie_map : trie -> gmap bytes bytes;
  trie_nodes : trie -> list bytes;
  trie_map_new : trie_map trie_new = ∅;
  trie_map_insert t k v : v <> [] -> exists t', trie_insert t k v = Some t' /\ trie_map t' = <[k := v]> (trie_map t);
  trie_root_ok t : exists h, trie_root_hash t = Some h;
  trie_root_binding t t' h : trie_root_hash t = Some h -> trie_root_hash t' = Some h ->
    trie_map t = trie_map t' \/ collides keccak (list_prod (trie_nodes t) (trie_nodes t'));
}.

(** ** What roots commit to *)

Section Roots.
Context {R : RlpLib} {T : RlpTree R} `{!RlpTreeOk T} {M : TrieLib} `{TM : !TrieLibOk M}.

(** The nodes of the trie of a list of values, and the pairs of nodes of two such tries. *)
Definition numbered_nodes (vs : list bytes) : list bytes :=
  default [] (trie_nodes <$> insert_numbered trie_new 0 vs).

Definition root_pairs (vs vs' : list bytes) : list (bytes * bytes) :=
  list_prod (numbered_nodes vs) (numbered_nodes vs').

Lemma insert_numbered_spec vs : forall t i,
  Forall (fun v => v <> []) vs -> 0 <= i -> i + Z.of_nat (length vs) <= U64_MOD ->
  exists t', insert_numbered t i vs = Some t'
    /\ forall j, is_u64 j -> trie_map t' !! encode_uint j
        = if (i <=? j) && (j <? i + Z.of_nat (length vs)) then vs !! Z.to_nat (j - i) else trie_map t !! encode_uint j.
Proof.
  induction vs as [|v vs IH]; intros t i Hv Hi Hmax; simpl.
  { exists t. split; [done|]. intros j Hj. rewrite (proj2 (andb_false_iff _ _)); [done|].
    rewrite Z.leb_gt, Z.ltb_ge. lia. }
  apply Forall_cons in Hv as [Hv Hvs]. destruct (trie_map_insert t (encode_uint i) v Hv) as (t1 & E1 & M1).
  cbn [length] in Hmax. destruct (IH t1 (i + 1) Hvs) as (t' & E' & M'); [lia|lia|].
  exists t'. rewrite E1. split; [exact E'|]. intros j Hj. rewrite (M' j Hj), M1.
  destruct (decide (i = j)) as [->|Hne].
  - rewrite (proj2 (Z.leb_gt (j + 1) j)), Z.leb_refl, Z.sub_diag by lia. simpl.
    rewrite (proj2 (Z.ltb_lt _ _)) by lia. by rewrite lookup_insert_eq.
  - rewrite lookup_insert_ne.
    2: { intros E. apply encode_uint_inj in E; [lia| |done]. unfold is_u64 in *. lia. }
    destruct (Z.leb_spec (i + 1) j) as [Hle|Hgt].
    + rewrite (proj2 (Z.leb_le i j)) by lia. simpl.
      replace (i + 1 + Z.of_nat (length vs)) with (i + Z.of_nat (S (length vs))) by lia.
      destruct (j <? _) eqn:Elt; [|done].
      by replace (Z.to_nat (j - i)) with (S (Z.to_nat (j - (i + 1)))) by lia.
    + by rewrite (proj2 (Z.leb_gt i j)) by lia.
Qed.

(** Lists of values with one root are equal. *)
Lemma numbered_root_binding vs vs' h :
  Forall (fun v => v <> []) vs -> Forall (fun v => v <> []) vs' ->
  Z.of_nat (length vs) < U64_MOD -> Z.of_nat (length vs') < U64_MOD ->
  numbered_root vs = Ok h -> numbered_root vs' = Ok h -> vs = vs' \/ collides keccak (root_pairs vs vs').
Proof.
  unfold numbered_root, root_pairs, numbered_nodes. intros Hv Hv' Hl Hl'.
  destruct (insert_numbered_spec vs trie_new 0 Hv) as (t & -> & Ht); [lia|lia|].
  destruct (insert_numbered_spec vs' trie_new 0 Hv') as (t' & -> & Ht'); [lia|lia|]. simpl.
  destruct (trie_root_hash t) as [h1|] eqn:E; [|done]. destruct (trie_root_hash t') as [h2|] eqn:E'; [|done].
  simpl. intros [= ->] [= ->]. destruct (trie_root_binding t t' h E E') as [Hm|]; [|by right]. left.
  apply list_eq. intros n.
  assert (Hlook : forall us u, Z.of_nat (length us) < U64_MOD ->
            (forall j, is_u64 j -> trie_map u !! encode_uint j
              = if (0 <=? j) && (j <? 0 + Z.of_nat (length us)) then us !! Z.to_nat (j - 0)
                else trie_map trie_new !! encode_uint j) ->
            Z.of_nat n < U64_MOD -> us !! n = trie_map u !! encode_uint (Z.of_nat n)).
  { intros us u Hus Hu Hn. rewrite Hu by (unfold is_u64; lia). rewrite (proj2 (Z.leb_le 0 (Z.of_nat n))) by lia.
    replace (Z.to_nat (Z.of_nat n - 0)) with n by lia. rewrite andb_true_l, Z.add_0_l.
    destruct (Z.ltb_spec (Z.of_nat n) (Z.of_nat (length us))); [done|].
    rewrite trie_map_new, lookup_empty. apply lookup_ge_None. lia. }
  destruct (Z.lt_ge_cases (Z.of_nat n) U64_MOD) as [Hn|Hn].
  - rewrite (Hlook vs t), (Hlook vs' t') by done. by rewrite Hm.
  - rewrite !(proj2 (lookup_ge_None _ _)) by lia. done.
Qed.

Lemma numbered_root_total vs :
  Forall (fun v => v <> []) vs -> Z.of_nat (length vs) < U64_MOD -> exists h, numbered_root vs = Ok h.
Proof.
  intros Hv Hl. unfold numbered_root.
  destruct (insert_numbered_spec vs trie_new 0 Hv) as (t & -> & _); [lia|lia|]. simpl.
  destruct (trie_root_ok t) as [h ->]. by exists h.
Qed.
End Roots.

(** ** Bodies and headers *)

Section Bodies.
Context {R : RlpLib} `{!RlpLibOk R} {T : RlpTree R} `{!RlpTreeOk T} {S : VarSsz} `{!VarSszOk S}.

Definition uncle_wf (h : Header.t) : Prop := Header.wf h /\ Header.decoder_shape h.

(** Well-typed parts, fewer than 2^64 of each. *)
Definition body_wf (b : BlockBody.t) : Prop :=
  Forall tx_wf (BlockBody.transactions b) /\ Forall uncle_wf (BlockBody.uncles b)
  /\ Z.of_nat (length (BlockBody.transactions b)) < U64_MOD
  /\ forall ws, BlockBody.withdrawals b = Ok ws -> Forall withdrawal_wf ws /\ Z.of_nat (length ws) < U64_MOD.

Lemma fmap_nonempty {A} (f : A -> bytes) l : (forall a, f a <> []) -> Forall (fun v => v <> []) (f <$> l).
Proof. intros Hf. apply Forall_fmap, Forall_true. intros a. apply Hf. Qed.

Lemma enc_list_nonempty l : enc_list l <> [].
Proof. destruct (enc_list_head l) as (c & t & -> & _). done. Qed.

(** An encoding with a left inverse on well-typed values. *)
Lemma fmap_decode_inj {A B E} (f : A -> B) (g : B -> res E A) l l' :
  Forall (fun a => g (f a) = Ok a) l -> Forall (fun a => g (f a) = Ok a) l' -> f <$> l = f <$> l' -> l = l'.
Proof.
  intros Hl Hl' Heq. pose proof (res_all_roundtrip f g l Hl) as H1. rewrite Heq, (res_all_roundtrip f g l' Hl') in H1.
  congruence.
Qed.

Lemma header_item_roundtrip h : uncle_wf h -> header_of_item (header_item h) = Ok h.
Proof. intros [Hw Hs]. unfold header_of_item, header_item. rewrite sub_nested. by apply Header.header_decode_items. Qed.

Lemma uncles_roundtrip {E} us : Forall uncle_wf us -> decode_uncles (E := E) (encode_uncles us) = Ok us.
Proof.
  intros Hu. unfold decode_uncles, encode_uncles, iter_bytes. rewrite dec_enc_list, (res_all_roundtrip header_item); [done|].
  eapply Forall_impl; [exact Hu|]. apply header_item_roundtrip.
Qed.

(** The two strings that the roots of uncles are digests of. *)
Definition uncles_pairs (b b' : BlockBody.t) : list (bytes * bytes) :=
  [(encode_uncles (BlockBody.uncles b), encode_uncles (BlockBody.uncles b'))].

Lemma uncles_root_binding b b' h :
  body_wf b -> body_wf b' -> BlockBody.uncles_root b = Ok h -> BlockBody.uncles_root b' = Ok h ->
  BlockBody.uncles b = BlockBody.uncles b' \/ collides keccak (uncles_pairs b b').
Proof.
  intros (_ & Hu & _) (_ & Hu' & _) [= E] [= E'].
  destruct (collides_pair keccak (encode_uncles (BlockBody.uncles b)) (encode_uncles (BlockBody.uncles b')))
    as [Ee|]; [congruence| |by right].
  left. pose proof (uncles_roundtrip (E := unit) _ Hu) as H1. rewrite Ee, (uncles_roundtrip _ Hu') in H1. congruence.
Qed.

Context {M : TrieLib} {TM : TrieLibOk M}.

(** Lists of values whose encodings have one root are equal. *)
Lemma encoded_root_binding {A E} (f : A -> bytes) (g : bytes -> res E A) l l' h :
  (forall a, f a <> []) -> Forall (fun a => g (f a) = Ok a) l -> Forall (fun a => g (f a) = Ok a) l' ->
  Z.of_nat (length l) < U64_MOD -> Z.of_nat (length l') < U64_MOD ->
  numbered_root (f <$> l) = Ok h -> numbered_root (f <$> l') = Ok h ->
  l = l' \/ collides keccak (root_pairs (f <$> l) (f <$> l')).
Proof.
  intros Hf Hl Hl' Hn Hn' H1 H2.
  destruct (numbered_root_binding (f <$> l) (f <$> l') h) as [Heq|];
    [by apply fmap_nonempty..|by rewrite length_fmap|by rewrite length_fmap|done|done|left|by right].
  by eapply fmap_decode_inj.
Qed.

(** The nodes of the tries of the transactions, of the withdrawals and of the receipts. *)
Definition transactions_pairs (b b' : BlockBody.t) : list (bytes * bytes) :=
  root_pairs (Transaction.encode <$> BlockBody.transactions b) (Transaction.encode <$> BlockBody.transactions b').

Definition withdrawals_pairs (b b' : BlockBody.t) : list (bytes * bytes) :=
  match BlockBody.withdrawals b, BlockBody.withdrawals b' with
  | Ok ws, Ok ws' => root_pairs (encode_withdrawal <$> ws) (encode_withdrawal <$> ws')
  | _, _ => []
  end.

Definition receipts_pairs (rs rs' : Receipts.t) : list (bytes * bytes) :=
  root_pairs (Receipt.encode <$> Receipts.receipt_list rs) (Receipt.encode <$> Receipts.receipt_list rs').

(** Everything hashed for the roots of two bodies. *)
Definition body_pairs (b b' : BlockBody.t) : list (bytes * bytes) :=
  transactions_pairs b b' ++ uncles_pairs b b' ++ withdrawals_pairs b b'.

Lemma transactions_root_binding b b' h :
  body_wf b -> body_wf b' -> BlockBody.transactions_root b = Ok h -> BlockBody.transactions_root b' = Ok h ->
  BlockBody.transactions b = BlockBody.transactions b' \/ collides keccak (transactions_pairs b b').
Proof.
  intros (Ht & _ & Hl & _) (Ht' & _ & Hl' & _).
  apply (encoded_root_binding Transaction.encode Transaction.decode); try done; [apply tx_encode_nonempty|..];
    (eapply Forall_impl; [eassumption|]); apply tx_decode_encode.
Qed.

Lemma withdrawal_decode_encode w :
  withdrawal_wf w -> Transaction.rlp_decode Withdrawal.of_items (encode_withdrawal w) = Ok w.
Proof. intros Hw. unfold Transaction.rlp_decode, encode_withdrawal. by rewrite dec_enc_list, withdrawal_roundtrip. Qed.

Lemma withdrawals_root_binding b b' ws ws' h :
  body_wf b -> body_wf b' -> BlockBody.withdrawals b = Ok ws -> BlockBody.withdrawals b' = Ok ws' ->
  BlockBody.withdrawals_root b = Ok h -> BlockBody.withdrawals_root b' = Ok h ->
  ws = ws' \/ collides keccak (withdrawals_pairs b b').
Proof.
  intros (_ & _ & _ & Hw) (_ & _ & _ & Hw') E E'. destruct (Hw ws E) as [Hf Hl]. destruct (Hw' ws' E') as [Hf' Hl'].
  unfold BlockBody.withdrawals_root, withdrawals_pairs. rewrite E, E'.
  apply (encoded_root_binding encode_withdrawal (Transaction.rlp_decode Withdrawal.of_items)); try done;
    [intros; apply enc_list_nonempty|..]; (eapply Forall_impl; [eassumption|]); apply withdrawal_decode_encode.
Qed.

(** Well-typed receipts, fewer than 2^64. *)
Definition receipts_wf (rs : Receipts.t) : Prop :=
  Forall (receipt_wf ∘ Receipt.receipt) (Receipts.receipt_list rs)
  /\ Z.of_nat (length (Receipts.receipt_list rs)) < U64_MOD.

Lemma receipts_root_binding rs rs' h :
  Forall (receipt_wf ∘ Receipt.receipt) (Receipts.receipt_list rs) ->
  Forall (receipt_wf ∘ Receipt.receipt) (Receipts.receipt_list rs') ->
  Z.of_nat (length (Receipts.receipt_list rs)) < U64_MOD -> Z.of_nat (length (Receipts.receipt_list rs')) < U64_MOD ->
  Receipts.root rs = Ok h -> Receipts.root rs' = Ok h ->
  rs = rs' \/ collides keccak (receipts_pairs rs rs').
Proof.
  intros Hr Hr' Hl Hl' E E'.
  destruct (encoded_root_binding Receipt.encode Receipt.decode (Receipts.receipt_list rs) (Receipts.receipt_list rs') h)
    as [Heq|]; [apply receipt_encode_nonempty|..|done|done|done|done| |by right];
    try (eapply Forall_impl; [eassumption|]; intros r; apply receipt_decode_encode).
  left. destruct rs, rs'. simpl in *. by subst.
Qed.

(** The checks of [validate_against_header]. *)
Lemma validate_inv b h :
  BlockBody.validate_against_header b h = Ok tt ->
  BlockBody.uncles_root b = Ok (Header.uncles_hash h) /\ BlockBody.transactions_root b = Ok (Header.transactions_root h)
  /\ forall ws, BlockBody.withdrawals b = Ok ws ->
       exists r, Header.withdrawals_root h = Some r /\ BlockBody.withdrawals_root b = Ok r.
Proof.
  unfold BlockBody.validate_against_header. intros H.
  destruct (BlockBody.uncles_root b) as [u| |]; [|done..]. apply guard_ok in H as [Hu H].
  apply negb_false_iff, bool_decide_eq_true in Hu as ->.
  destruct (BlockBody.transactions_root b) as [t| |]; [|done..]. apply guard_ok in H as [Ht H].
  apply negb_false_iff, bool_decide_eq_true in Ht as ->. split_and!; [done..|].
  intros ws Hws. destruct b as [|b|b]; [done..|].
  destruct (BlockBody.withdrawals_root (BlockBody.Shanghai b)) as [a| |]; [|done..].
  destruct (Header.withdrawals_root h) as [r|]; [|done]. simpl in H. apply guard_ok in H as [Hr _].
  apply negb_false_iff, bool_decide_eq_true in Hr as ->. eauto.
Qed.

(** Bodies that a header is checked against. *)
Lemma bodies_agree b b' h :
  body_wf b -> body_wf b' ->
  BlockBody.validate_against_header b h = Ok tt -> BlockBody.validate_against_header b' h = Ok tt ->
  (BlockBody.transactions b = BlockBody.transactions b' /\ BlockBody.uncles b = BlockBody.uncles b'
   /\ forall ws ws', BlockBody.withdrawals b = Ok ws -> BlockBody.withdrawals b' = Ok ws' -> ws = ws')
  \/ collides keccak (body_pairs b b').
Proof.
  intros Hb Hb' (Hu & Ht & Hw)%validate_inv (Hu' & Ht' & Hw')%validate_inv. unfold body_pairs.
  destruct (transactions_root_binding b b' _ Hb Hb' Ht Ht') as [E1|]; [|auto with collide].
  destruct (uncles_root_binding b b' _ Hb Hb' Hu Hu') as [E2|]; [|auto with collide].
  destruct (BlockBody.withdrawals b) as [ws| |] eqn:Ew; [|left; split_and!; [done..|intros ? ? [=]]..].
  destruct (BlockBody.withdrawals b') as [ws'| |] eqn:Ew'; [|left; split_and!; [done..|intros ? ? _ [=]]..].
  destruct (Hw ws eq_refl) as (r & Hr & Er). destruct (Hw' ws' eq_refl) as (r' & Hr' & Er').
  rewrite Hr in Hr'. injection Hr' as <-.
  destruct (withdrawals_root_binding b b' ws ws' r Hb Hb' Ew Ew' Er Er') as [E3|]; [|auto with collide].
  left. split_and!; [done..|]. by intros ? ? [= <-] [= <-].
Qed.

(** C28: A header commits to one body and one list of receipts.  Two well-typed bodies
    that [validate_against_header] accepts for the same header have the same
    transactions, the same uncles and, where both have withdrawals, the same withdrawals;
    otherwise the two encodings of uncles, or a node of a trie of one body and a node of
    the corresponding trie of the other, are a collision of Keccak.  Two well-typed lists
    of receipts with the receipts root of the header are equal; otherwise a node of one
    trie of receipts and a node of the other collide. *)
Theorem body_commitment h :
  (forall b b', body_wf b -> body_wf b' ->
     BlockBody.validate_against_header b h = Ok tt -> BlockBody.validate_against_header b' h = Ok tt ->
     (BlockBody.transactions b = BlockBody.transactions b' /\ BlockBody.uncles b = BlockBody.uncles b'
      /\ forall ws ws', BlockBody.withdrawals b = Ok ws -> BlockBody.withdrawals b' = Ok ws' -> ws = ws')
     \/ collides keccak (body_pairs b b'))
  /\ (forall rs rs', receipts_wf rs -> receipts_wf rs' ->
     Receipts.root rs = Ok (Header.receipts_root h) -> Receipts.root rs' = Ok (Header.receipts_root h) ->
     rs = rs' \/ collides keccak (receipts_pairs rs rs')).
Proof.
  split; [intros b b'; apply bodies_agree|].
  intros rs rs' [Hr Hl] [Hr' Hl'] E E'. by apply (receipts_root_binding rs rs' (Header.receipts_root h)).
Qed.
End Bodies.

(** ** The SSZ forms *)

Section Ssz.
Context {R : RlpLib} `{!RlpLibOk R} {T : RlpTree R} `{!RlpTreeOk T} {S : VarSsz} `{!VarSszOk S}.

(** A container is not read as one with another number of parts. *)
Lemma container_arity n p ps :
  n <> 0%nat -> n <> length (p :: ps) -> Z.of_nat (length (p :: ps)) < 2 ^ 30 -> Z.of_nat n < 2 ^ 30 ->
  exists e, container_split n (container_join (p :: ps)) = Err e.
Proof.
  intros H0 Hn Hl Hl'. destruct (container_split n _) as [qs|e|] eqn:E; [|by eexists|by apply container_total in E].
  apply container_sound in E as [Hq Eq]. exfalso. destruct qs as [|q qs]; [by subst|].
  assert (Ho := container_offset p ps). rewrite Eq, container_offset, Hq in Ho.
  apply (f_equal le_to_Z) in Ho. rewrite !le_to_Z_to_le, !Z.mod_small in Ho; [lia|..];
    change (256 ^ Z.of_nat 4) with 4294967296; lia.
Qed.

Definition small (b : bytes) : Prop := Z.of_nat (length b) < U32_MOD.

Lemma decode_txs_ok txs : Forall tx_wf txs -> decode_txs (Transaction.encode <$> txs) = Ok txs.
Proof.
  intros Ht. unfold decode_txs. rewrite res_all_roundtrip; [done|]. eapply Forall_impl; [exact Ht|].
  apply tx_decode_encode.
Qed.

(** The parts that an encoding consists of. *)
Definition parts_of (b : BlockBody.t) : list bytes :=
  match b with
  | BlockBody.Legacy body => [list_join (Transaction.encode <$> legacy_txs body); encode_uncles (legacy_uncles body)]
  | BlockBody.Merge body => [list_join (Transaction.encode <$> merge_txs body); encode_uncles []]
  | BlockBody.Shanghai body =>
      [list_join (Transaction.encode <$> shanghai_txs body); encode_uncles [];
       list_join (encode_withdrawal <$> shanghai_withdrawals body)]
  end.

(** Encodings of less than 4 GiB. *)
Definition ssz_small (b : BlockBody.t) : Prop := small (BlockBody.as_ssz_bytes b) /\ Forall small (parts_of b).

(** The body that is read back: merge bodies come back as legacy ones. *)
Definition as_read (b : BlockBody.t) : BlockBody.t :=
  match b with
  | BlockBody.Merge body => BlockBody.Legacy {| legacy_txs := merge_txs body; legacy_uncles := [] |}
  | b => b
  end.

Lemma two_parts_ok p q : small (container_join [p; q]) -> container_split 2 (container_join [p; q]) = Ok [p; q].
Proof. apply (container_complete p [q]). Qed.
Lemma three_parts_ok p q r :
  small (container_join [p; q; r]) -> container_split 3 (container_join [p; q; r]) = Ok [p; q; r].
Proof. apply (container_complete p [q; r]). Qed.
Lemma list_read l : small (list_join l) -> list_split None (list_join l) = Ok l.
Proof. intros Hl. by apply list_complete. Qed.

Lemma shanghai_not_two p q r (n : nat) :
  n = 2%nat -> exists e, container_split n (container_join [p; q; r]) = Err e.
Proof. intros ->. by apply container_arity. Qed.

Lemma legacy_read body :
  Forall tx_wf (legacy_txs body) -> Forall uncle_wf (legacy_uncles body) -> ssz_small (BlockBody.Legacy body) ->
  legacy_from_ssz (legacy_as_ssz body) = Ok body.
Proof.
  intros Ht Hu [Hs Hp]. apply Forall_cons in Hp as [Hp _]. unfold legacy_from_ssz, legacy_as_ssz.
  rewrite two_parts_ok, list_read, decode_txs_ok, uncles_roundtrip by done. by destruct body.
Qed.

Lemma shanghai_read body :
  Forall tx_wf (shanghai_txs body) -> Forall withdrawal_wf (shanghai_withdrawals body) ->
  ssz_small (BlockBody.Shanghai body) -> shanghai_from_ssz (shanghai_as_ssz body) = Ok body.
Proof.
  intros Ht Hw [Hs Hp]. apply Forall_cons in Hp as [Hp1 Hp]. apply Forall_cons in Hp as [_ Hp].
  apply Forall_cons in Hp as [Hp2 _]. unfold shanghai_from_ssz, shanghai_as_ssz.
  rewrite three_parts_ok, list_read, list_read, decode_txs_ok, uncles_roundtrip by done.
  rewrite (res_all_roundtrip encode_withdrawal); [by destruct body|].
  eapply Forall_impl; [exact Hw|]. apply withdrawal_decode_encode.
Qed.

(** What is read back, without and with a timestamp. *)
Lemma body_ssz_read b :
  body_wf b -> ssz_small b ->
  BlockBody.from_ssz_bytes (BlockBody.as_ssz_bytes b) = Ok (as_read b)
  /\ forall timestamp,
       match b with
       | BlockBody.Legacy _ => timestamp < MERGE_TIMESTAMP
       | BlockBody.Merge _ => MERGE_TIMESTAMP <= timestamp < SHANGHAI_TIMESTAMP
       | BlockBody.Shanghai _ => SHANGHAI_TIMESTAMP <= timestamp
       end -> BlockBody.decode_with_timestamp (BlockBody.as_ssz_bytes b) timestamp = Ok b.
Proof.
  intros (Ht & Hu & _ & Hw) Hs. unfold BlockBody.from_ssz_bytes, BlockBody.decode_with_timestamp.
  unfold MERGE_TIMESTAMP, SHANGHAI_TIMESTAMP. destruct b as [body|body|body]; cbn [BlockBody.as_ssz_bytes as_read] in *.
  - rewrite legacy_read by done. split; [done|]. intros time Htime.
    rewrite (proj2 (Z.leb_gt _ _)), (proj2 (Z.leb_gt _ _)) by lia. done.
  - pose proof (legacy_read {| legacy_txs := merge_txs body; legacy_uncles := [] |} Ht (Forall_nil_2 _) Hs) as Hl.
    change (legacy_as_ssz _) with (merge_as_ssz body) in Hl. rewrite Hl. split; [done|]. intros time Htime.
    rewrite (proj2 (Z.leb_gt _ _)), (proj2 (Z.leb_le _ _)) by lia. destruct Hs as [Hs Hp].
    apply Forall_cons in Hp as [Hp _]. unfold merge_from_ssz, merge_as_ssz.
    rewrite two_parts_ok, list_read, decode_txs_ok, uncles_roundtrip by done. by destruct body.
  - destruct (Hw _ eq_refl) as [Hwf _]. rewrite shanghai_read by done. split.
    + unfold legacy_from_ssz, merge_from_ssz. unfold shanghai_as_ssz at 1 2.
      match goal with |- context [container_join [?p; ?q; ?r]] =>
        destruct (shanghai_not_two p q r 2 eq_refl) as [e ->] end. done.
    + intros time Htime. by rewrite (proj2 (Z.leb_le _ _)) by lia.
Qed.

Lemma body_ssz_decodes b :
  body_wf b -> ssz_small b -> BlockBody.from_ssz_bytes (BlockBody.as_ssz_bytes b) = Ok (as_read b).
Proof. intros Hb Hs. by destruct (body_ssz_read b Hb Hs). Qed.

(** Block bodies survive their encoding: what is read back has the transactions,
    uncles and withdrawals that were written, with the variant that the timestamp of the
    block selects; without a timestamp, merge bodies are read as legacy bodies without
    uncles and the others as themselves. *)
Theorem body_ssz_roundtrip b :
  body_wf b -> ssz_small b ->
  BlockBody.from_ssz_bytes (BlockBody.as_ssz_bytes b) = Ok (as_read b)
  /\ forall timestamp,
       match b with
       | BlockBody.Legacy _ => timestamp < MERGE_TIMESTAMP
       | BlockBody.Merge _ => MERGE_TIMESTAMP <= timestamp < SHANGHAI_TIMESTAMP
       | BlockBody.Shanghai _ => SHANGHAI_TIMESTAMP <= timestamp
       end -> BlockBody.decode_with_timestamp (BlockBody.as_ssz_bytes b) timestamp = Ok b.
Proof. apply body_ssz_read. Qed.

(** Receipts survive their encoding, up to the limit. *)
Lemma receipts_ssz_roundtrip rs :
  Forall (receipt_wf ∘ Receipt.receipt) (Receipts.receipt_list rs) ->
  Z.of_nat (length (Receipts.receipt_list rs)) <= MAX_TRANSACTION_COUNT -> small (Receipts.as_ssz_bytes rs) ->
  Receipts.from_ssz_bytes (Receipts.as_ssz_bytes rs) = Ok rs.
Proof.
  intros Hr Hl Hs. unfold Receipts.from_ssz_bytes, Receipts.as_ssz_bytes. rewrite list_complete; [|done|].
  - rewrite (res_all_roundtrip Receipt.encode); [by destruct rs|]. eapply Forall_impl; [exact Hr|].
    intros r. apply receipt_decode_encode.
  - intros k [= <-]. by rewrite length_fmap.
Qed.

(** A block body whose uncles are a list with an item that is not a header makes the
    decoder panic, though its transactions are valid: [rlp::decode_list] is meant for
    trusted data. *)
Theorem bad_uncles_panic txs l u timestamp :
  small (container_join [list_join txs; u]) -> small (list_join txs) -> decode_txs txs = Ok l ->
  List.Exists (fun it => is_ok (header_of_item it) = false) (iter_bytes u) -> timestamp < SHANGHAI_TIMESTAMP ->
  BlockBody.from_ssz_bytes (container_join [list_join txs; u]) = Panic
  /\ BlockBody.decode_with_timestamp (container_join [list_join txs; u]) timestamp = Panic.
Proof.
  intros Hs Hl Ht Hu Htime.
  assert (Hd : forall E, decode_uncles (E := E) u = Panic).
  { intros E. unfold decode_uncles. destruct (res_all header_of_item (iter_bytes u)) as [us| |] eqn:Er; [|done..].
    exfalso. revert us Er. induction Hu as [it its Hit|it its _ IH]; intros us Er; simpl in Er.
    - by destruct (header_of_item it).
    - destruct (header_of_item it); [|done..]. destruct (res_all header_of_item its); [|done..]. by eapply IH. }
  unfold BlockBody.from_ssz_bytes, BlockBody.decode_with_timestamp, legacy_from_ssz, merge_from_ssz.
  rewrite two_parts_ok, list_read, Ht, Hd by done. rewrite (proj2 (Z.leb_gt _ _)) by done.
  split; [done|]. by case_match.
Qed.
End Ssz.

(** ** The theorems at work *)

#[global] Instance toy_var_ssz : VarSsz := {|
  container_join := ssz_list_join;
  container_split n b :=
    match ssz_list_split None b with
    | Ok l => if (length l =? n)%nat then Ok l else Err BytesInvalid
    | r => r
    end;
  list_join := ssz_list_join;
  list_split := ssz_list_split;
|}.

#[global] Instance toy_var_ssz_ok : VarSszOk toy_var_ssz.
Proof.
  split; cbn [container_join container_split list_join list_split toy_var_ssz].
  - apply ssz_list_offset.
  - intros n b ps. destruct (ssz_list_split None b) as [l| |] eqn:E; [|done..].
    destruct (Nat.eqb_spec (length l) n); [|done]. intros [= <-]. by apply ssz_list_sound in E as [? _].
  - intros p ps Hs. rewrite ssz_list_complete by done. by rewrite Nat.eqb_refl.
  - intros n b. unfold ssz_list_split. destruct (_ && _); [|done]. by destruct (_ =? _)%nat.
  - done.
  - intros m b l [H1 H2]%ssz_list_sound. split; [done|]. intros k ->. by apply Z.leb_le.
  - intros m l Hs Hm. apply ssz_list_complete; [|done]. destruct m as [k|]; [|done]. by apply Z.leb_le, Hm.
  - intros m b. unfold ssz_list_split. by destruct (_ && _).
Qed.

(** A trie that hashes a listing of its entries. *)
Definition listing (m : gmap bytes bytes) : list bytes := map_to_list m ≫= fun e => [e.1; e.2].

Definition toy_trie `{RlpLib} : TrieLib := {|
  trie := gmap bytes bytes;
  trie_new := ∅;
  trie_insert t k v := Some (<[k := v]> t);
  trie_root_hash t := Some (keccak (concat (map toy_escape (listing t))));
|}.

Lemma pairs_inj (l l' : list (bytes * bytes)) :
  l ≫= (fun e => [e.1; e.2]) = l' ≫= (fun e => [e.1; e.2]) -> l = l'.
Proof.
  revert l'. induction l as [|[a b] l IH]; intros [|[a' b'] l']; try done.
  cbn. intros [= -> -> E]. by rewrite (IH l').
Qed.

#[global] Instance toy_trie_ok `{RlpLib} : TrieLibOk toy_trie.
Proof.
  refine (Build_TrieLibOk _ toy_trie (fun m : gmap bytes bytes => m)
    (fun m => [concat (map toy_escape (listing m))]) _ _ _ _).
  - done.
  - intros t k v _. by eexists.
  - intros t. by eexists.
  - intros t t' h [= <-] [= Ek].
    destruct (collides_pair keccak (concat (map toy_escape (listing t))) (concat (map toy_escape (listing t'))))
      as [E|]; [done|left|by right].
    apply (f_equal (fun b => toy_unescape b [] [])) in E. rewrite !toy_unescape_items in E.
    apply pairs_inj in E. apply (map_to_list_inj t t'). by rewrite E.
Defined.

#[local] Existing Instances toy_rlp_tree toy_rlp_tree_ok toy_trie.

Definition sample_withdrawal : Withdrawal.t :=
  {| Withdrawal.index := 5; Withdrawal.validator_index := 300; Withdrawal.address := replicate 20 x0e;
     Withdrawal.amount := 12000000 |}.
Definition sample_body : BlockBody.t :=
  BlockBody.Shanghai {| shanghai_txs := [sample_tx]; shanghai_withdrawals := [sample_withdrawal] |}.
Definition sample_merge : BlockBody.t := BlockBody.Merge {| merge_txs := [sample_tx] |}.

Lemma sample_body_wf : body_wf sample_body.
Proof.
  split; [apply Forall_singleton, sample_tx_wf|]. split; [constructor|]. split; [done|].
  intros ws [= <-]. split; [|done]. by repeat constructor.
Qed.
Lemma sample_merge_wf : body_wf sample_merge.
Proof. split; [apply Forall_singleton, sample_tx_wf|]. split; [constructor|]. split; [done|]. by intros ws [=]. Qed.

Definition ok_root (r : res BodyError bytes) : bytes := match r with Ok b => b | _ => [] end.

(** A header for a body. *)
Definition header_for (b : BlockBody.t) : Header.t := {|
  Header.parent_hash := []; Header.uncles_hash := ok_root (BlockBody.uncles_root b); Header.author := [];
  Header.state_root := []; Header.transactions_root := ok_root (BlockBody.transactions_root b);
  Header.receipts_root := []; Header.logs_bloom := []; Header.difficulty := 0; Header.number := 17034900;
  Header.gas_limit := 0; Header.gas_used := 0; Header.timestamp := 0; Header.extra_data := [];
  Header.mix_hash := None; Header.nonce := None; Header.base_fee_per_gas := None;
  Header.withdrawals_root := Some (ok_root (BlockBody.withdrawals_root b));
|}.

Lemma body_commitment_witness :
  BlockBody.validate_against_header sample_merge (header_for sample_body) = Ok tt
  /\ ~ collides keccak (body_pairs sample_body sample_merge)
  /\ BlockBody.transactions sample_body = BlockBody.transactions sample_merge.
Proof.
  assert (E : BlockBody.validate_against_header sample_merge (header_for sample_body) = Ok tt)
    by (vm_compute; reflexivity).
  assert (Hc : ~ collides keccak (body_pairs sample_body sample_merge))
    by (apply not_collides; vm_compute; reflexivity).
  split; [exact E|]. split; [exact Hc|].
  assert (E0 : BlockBody.validate_against_header sample_body (header_for sample_body) = Ok tt)
    by (vm_compute; reflexivity).
  destruct (proj1 (body_commitment (header_for sample_body)) sample_body sample_merge
              sample_body_wf sample_merge_wf E0 E) as [[H _]|H]; [exact H|destruct (Hc H)].
Defined.

Lemma body_ssz_roundtrip_witness :
  BlockBody.from_ssz_bytes (BlockBody.as_ssz_bytes sample_body) = Ok sample_body
  /\ BlockBody.decode_with_timestamp (BlockBody.as_ssz_bytes sample_body) 1681338500 = Ok sample_body.
Proof.
  assert (Hs : ssz_small sample_body) by (split; [|repeat constructor]; vm_compute; reflexivity).
  destruct (body_ssz_roundtrip sample_body sample_body_wf Hs) as [H1 H2]. split; [exact H1|].
  apply H2. vm_compute. discriminate.
Defined.

(** No transactions, and a list of one empty string for the uncles. *)
Lemma bad_uncles_panic_witness :
  BlockBody.from_ssz_bytes (container_join [list_join []; enc_list [enc_bytes []]]) = Panic.
Proof.
  refine (proj1 (bad_uncles_panic [] [] (enc_list [enc_bytes []]) 0 _ _ _ _ _)); [vm_compute; reflexivity..| |reflexivity].
  unfold iter_bytes. rewrite dec_enc_list. left. reflexivity.
Defined.
