(* ===== verification/ExecutionTyping.v ===== *)
(** * Execution data read from peers is well typed

    The decoders of [Header], [Transaction] and [BlockBody] run on bytes that peers
    choose.  A decoder is typed if all it accepts satisfies a predicate; the typing rules
    follow the shape of the decoders.  What is accepted is then in the domain of the round
    trips, so writing it and reading it again changes nothing. *)

From S2P Require Import Prelude.
From S2P Require Import Distance.
From S2P Require Import Header.
From S2P Require Import ContentKey.
From S2P Require Import Transaction.
From S2P Require Import BlockBody.

(** ** Typed results *)

Definition typed {E A} (P : A -> Prop) (r : res E A) : Prop := forall a, r = Ok a -> P a.

Create HintDb typed discriminated.

Lemma typed_ok {E A} (P : A -> Prop) a : P a -> typed P (Ok (E := E) a).
Proof. by intros H ? [= <-]. Qed.

Lemma typed_bind {E A B} (P : A -> Prop) (Q : B -> Prop) (r : res E A) (k : A -> res E B) :
  typed P r -> (forall a, P a -> typed Q (k a)) -> typed Q (let? x := r in k x).
Proof. intros Hr Hk b (a & Ha & Hb)%bind_ok. eapply Hk, Hb. by apply Hr. Qed.

Lemma typed_all {E A C} (P : A -> Prop) (f : C -> res E A) l :
  (forall c, typed P (f c)) -> typed (Forall P) (res_all f l).
Proof.
  intros Hf. induction l as [|c l IH]; simpl; [by apply typed_ok, Forall_nil|].
  eapply typed_bind; [apply Hf|]. intros a Ha. eapply typed_bind; [exact IH|]. intros l' Hl. by apply typed_ok, Forall_cons.
Qed.

Lemma typed_err {E F A} (P : A -> Prop) (f : F -> E) r : typed P r -> typed P (map_err f r).
Proof. intros Hr a. destruct r; [|done..]. intros [= <-]. by apply Hr. Qed.

Lemma typed_impl {E A} (P P' : A -> Prop) (r : res E A) : typed P r -> (forall a, P a -> P' a) -> typed P' r.
Proof. intros Hr HP a Ha. by apply HP, Hr. Qed.

Lemma typed_map {E A B} (P : B -> Prop) (f : A -> B) (r : res E A) :
  typed (fun a => P (f a)) r -> typed P (res_map f r).
Proof. intros Hr b. destruct r; [|done..]. intros [= <-]. by apply Hr. Qed.

Lemma typed_or_else {E F A} (P : A -> Prop) (r : res E A) (k : res F A) :
  typed P r -> typed P k -> typed P (or_else r k).
Proof. intros Hr Hk. destruct r as [x| |]; simpl; [by apply typed_ok, Hr|exact Hk|done]. Qed.

Lemma typed_any {E A} (r : res E A) : typed (fun _ => True) r.
Proof. by intros a _. Qed.

#[export] Hint Resolve typed_all typed_err : typed.

(** One [let?] after another, each result with the type that the rules find. *)
Ltac typed_steps := repeat (eapply typed_bind; [first [solve [eauto 6 with typed]|apply typed_any]|cbv beta; intros ? ?]).

(** ** The parts of RLP *)

Section Parts.
Context {R : RlpLib} `{!RlpTyped R} {T : RlpTree R}.

Lemma typed_fixed n it : typed (fun b => length b = n) (dec_fixed n it).
Proof. intros b. apply dec_fixed_length. Qed.

Lemma typed_uint w it : typed (fun z => 0 <= z < 2 ^ w) (dec_uint w it).
Proof. intros z. apply dec_uint_range. Qed.

Lemma typed_at {A} (P : A -> Prop) dec rlp i : (forall it, typed P (dec it)) -> typed P (Header.val_at dec rlp i).
Proof. intros Hd a. unfold Header.val_at. destruct (rlp !! i); [apply Hd|done]. Qed.

Lemma typed_list_at {A} (P : A -> Prop) dec rlp i :
  (forall it, typed P (dec it)) -> typed (Forall P) (list_at dec rlp i).
Proof. intros Hd. unfold list_at. apply typed_at. intros it. by apply typed_all. Qed.

#[local] Hint Resolve typed_fixed typed_uint typed_at typed_list_at : typed.

Lemma typed_to it : typed to_wf (to_of_item it).
Proof.
  unfold to_of_item. destruct (item_is_empty it); [by apply typed_ok|]. typed_steps. by apply typed_ok.
Qed.

Lemma typed_access_item it :
  typed (fun i => length (al_address i) = 20%nat /\ Forall (fun k => length k = 32%nat) (storage_keys i))
    (access_of_item it).
Proof. unfold access_of_item. typed_steps. by apply typed_ok. Qed.

#[local] Hint Resolve typed_access_item : typed.

Lemma typed_access it : typed access_wf (access_list_of_item it).
Proof. unfold access_list_of_item. typed_steps. by apply typed_ok. Qed.

#[local] Hint Resolve typed_to typed_access : typed.

(** ** Transactions, receipts, withdrawals, headers *)

Lemma typed_rlp_decode {A} (P : A -> Prop) of_items b :
  (forall rlp, typed P (of_items rlp)) -> typed P (Transaction.rlp_decode of_items b).
Proof. intros Ho. unfold Transaction.rlp_decode. typed_steps. apply Ho. Qed.

Lemma typed_legacy rlp : typed (fun tx => tx_wf (Transaction.Legacy tx)) (LegacyTransaction.of_items rlp).
Proof. unfold LegacyTransaction.of_items. typed_steps. apply typed_ok. cbn. by rewrite !Forall_cons. Qed.

Lemma typed_access_tx rlp : typed (fun tx => tx_wf (Transaction.AccessList tx)) (AccessListTransaction.of_items rlp).
Proof. unfold AccessListTransaction.of_items. typed_steps. apply typed_ok. cbn. by rewrite !Forall_cons. Qed.

Lemma typed_eip1559 rlp : typed (fun tx => tx_wf (Transaction.EIP1559 tx)) (EIP1559Transaction.of_items rlp).
Proof. unfold EIP1559Transaction.of_items. typed_steps. apply typed_ok. cbn. by rewrite !Forall_cons. Qed.

#[local] Hint Resolve typed_rlp_decode typed_legacy typed_access_tx typed_eip1559 : typed.

Lemma typed_tx b : typed tx_wf (Transaction.decode b).
Proof.
  unfold Transaction.decode. destruct b as [|b0 rest]; [done|]. destruct (TransactionId.try_from b0) as [[]|];
    simpl; [..|done]; typed_steps; by apply typed_ok.
Qed.

Lemma typed_log it : typed log_wf (log_of_item it).
Proof. unfold log_of_item. typed_steps. by apply typed_ok. Qed.

Definition outcome_wf (o : TransactionOutcome) : Prop :=
  match o with StateRoot h => length h = 32%nat | StatusCode c => is_u8 c end.

Lemma typed_outcome it : typed outcome_wf (outcome_of_item it).
Proof.
  unfold outcome_of_item. destruct (item_data it) as [d|]; [destruct (length d <=? 1)%nat|]; typed_steps; by apply typed_ok.
Qed.

#[local] Hint Resolve typed_log typed_outcome : typed.

Lemma typed_receipt_items rlp : typed receipt_wf (receipt_of_items rlp).
Proof. unfold receipt_of_items. destruct (_ =? _)%nat; [|done]. typed_steps. by apply typed_ok. Qed.

#[local] Hint Resolve typed_receipt_items : typed.

Lemma typed_receipt b : typed (fun r => receipt_wf (Receipt.receipt r)) (Receipt.decode b).
Proof.
  unfold Receipt.decode. destruct b as [|b0 rest]; [done|]. destruct (TransactionId.try_from b0) as [[]|];
    simpl; [..|done]; typed_steps; by apply typed_ok.
Qed.

Lemma typed_withdrawal rlp : typed withdrawal_wf (Withdrawal.of_items rlp).
Proof. unfold Withdrawal.of_items. typed_steps. by apply typed_ok. Qed.

(** A field that is read only from some block number on. *)
Lemma typed_since {A} (P : A -> Prop) (c : bool) (r : res DecoderError A) :
  typed P r ->
  typed (fun o => (forall a, o = Some a -> P a) /\ Header.is_some o = c)
    (if c then let? v := r in Ok (Some v) else Ok None).
Proof.
  intros Hr. destruct c; [|by apply typed_ok]. eapply typed_bind; [exact Hr|]. intros a Ha. apply typed_ok.
  split; [|done]. by intros ? [= <-].
Qed.

#[local] Hint Resolve typed_since : typed.

Lemma typed_header rlp : typed uncle_wf (Header.decode rlp).
Proof.
  unfold Header.decode. typed_steps. destruct_and!. apply typed_ok. split; [|done].
  constructor; try done; by intros ? [= <-].
Qed.
End Parts.

(** ** Bodies and lists of receipts *)

(** Well-typed parts, however many. *)
Definition body_typed (b : BlockBody.t) : Prop :=
  Forall tx_wf (BlockBody.transactions b) /\ Forall uncle_wf (BlockBody.uncles b)
  /\ forall ws, BlockBody.withdrawals b = Ok ws -> Forall withdrawal_wf ws.

#[export] Hint Resolve typed_tx typed_receipt typed_withdrawal typed_header typed_rlp_decode : typed.

Section Bodies.
Context {R : RlpLib} `{!RlpTyped R} {T : RlpTree R} {S : VarSsz}.

Lemma typed_txs txs : typed (Forall tx_wf) (decode_txs txs).
Proof. unfold decode_txs. eauto with typed. Qed.

Lemma typed_uncles {E} b : typed (E := E) (Forall uncle_wf) (decode_uncles b).
Proof.
  intros us. unfold decode_uncles. destruct (res_all _ _) eqn:Er; [|done..]. intros [= <-].
  eapply (typed_all uncle_wf header_of_item); [|exact Er]. intros it. unfold header_of_item.
  eapply typed_bind; [apply typed_any|]. intros rlp _. apply typed_header.
Qed.

#[local] Hint Resolve typed_txs typed_uncles : typed.

Lemma typed_legacy_body b : typed (fun x => body_typed (BlockBody.Legacy x)) (legacy_from_ssz b).
Proof.
  unfold legacy_from_ssz. typed_steps. destruct a as [|txs [|uncles [|]]]; try done. typed_steps. by apply typed_ok.
Qed.

Lemma typed_shanghai_body b : typed (fun x => body_typed (BlockBody.Shanghai x)) (shanghai_from_ssz b).
Proof.
  unfold shanghai_from_ssz. typed_steps. destruct a as [|txs [|uncles [|ws [|]]]]; try done. typed_steps.
  match goal with us : list Header.t |- _ => destruct us; [|done] end. typed_steps. apply typed_ok.
  split_and!; [done|by constructor|]. by intros ? [= <-].
Qed.

(** Legacy bodies are tried first, so that no body is read as a merge body. *)
Lemma merge_is_legacy b x : merge_from_ssz b = Ok x -> exists y, legacy_from_ssz b = Ok y.
Proof.
  unfold merge_from_ssz, legacy_from_ssz. destruct (container_split 2 b) as [[|txs [|uncles [|]]]| |]; try done.
  destruct (list_split None txs); [|done..]. destruct (decode_txs a); [|done..].
  destruct (decode_uncles (E := SszDecodeError) uncles); [|done..]. eauto.
Qed.

Lemma typed_body b :
  typed (fun x => body_typed x /\ match x with BlockBody.Merge _ => False | _ => True end) (BlockBody.from_ssz_bytes b).
Proof.
  unfold BlockBody.from_ssz_bytes. destruct (legacy_from_ssz b) as [x|e|] eqn:El; simpl; [| |done].
  - apply typed_ok. split; [by eapply typed_legacy_body|done].
  - destruct (merge_from_ssz b) as [x|e'|] eqn:Em; simpl; [| |done].
    { apply merge_is_legacy in Em as [y Hy]. congruence. }
    destruct (shanghai_from_ssz b) as [x|?|] eqn:Es; [|done..]. apply typed_ok.
    split; [by eapply typed_shanghai_body|done].
Qed.

Lemma typed_receipts b :
  typed (fun rs => Forall (receipt_wf ∘ Receipt.receipt) (Receipts.receipt_list rs)) (Receipts.from_ssz_bytes b).
Proof. unfold Receipts.from_ssz_bytes. typed_steps. by apply typed_ok. Qed.

Context `{!RlpLibOk R} `{!RlpTreeOk T} `{!VarSszOk S}.

Lemma body_stable b x :
  BlockBody.from_ssz_bytes b = Ok x -> ssz_small x -> BlockBody.from_ssz_bytes (BlockBody.as_ssz_bytes x) = Ok x.
Proof.
  intros [(Ht & Hu & Hw) Hm]%typed_body Hs. unfold BlockBody.from_ssz_bytes.
  destruct x as [x|x|x]; cbn [BlockBody.as_ssz_bytes] in *; [by rewrite legacy_read|done|].
  rewrite shanghai_read by auto. unfold legacy_from_ssz, merge_from_ssz. unfold shanghai_as_ssz at 1 2.
  match goal with |- context [container_join [?p; ?q; ?r]] =>
    destruct (shanghai_not_two p q r 2 eq_refl) as [e ->] end. done.
Qed.

(** C24: Whatever bytes a peer sends, an accepted transaction, receipt, header or body is
    well typed (hashes and addresses of their lengths, integers within their widths, the
    header fields that its block number requires), and writing it and reading it back
    changes nothing (for a body whose encoding fits into the offsets of SSZ). *)
Theorem decoded_values_typed b :
  typed (fun t => tx_wf t /\ Transaction.decode (Transaction.encode t) = Ok t) (Transaction.decode b)
  /\ typed (fun r => receipt_wf (Receipt.receipt r) /\ Receipt.decode (Receipt.encode r) = Ok r) (Receipt.decode b)
  /\ typed (fun h => uncle_wf h /\ Header.rlp_decode (Header.encode h) = Ok h) (Header.rlp_decode b)
  /\ typed (fun x => body_typed x
        /\ (ssz_small x -> BlockBody.from_ssz_bytes (BlockBody.as_ssz_bytes x) = Ok x)) (BlockBody.from_ssz_bytes b).
Proof.
  split_and!.
  - intros t Ht%typed_tx. split; [done|]. by apply tx_decode_encode.
  - intros r Hr%typed_receipt. split; [done|]. by apply receipt_decode_encode.
  - intros h Hh. assert (uncle_wf h) as [Hw Hc].
    { revert Hh. unfold Header.rlp_decode. destruct (dec_list b); [|done..]. apply typed_header. }
    split; [done|]. unfold Header.rlp_decode, Header.encode. rewrite dec_enc_list. by apply Header.header_decode_items.
  - intros x Hx. split; [by apply typed_body in Hx as [? _]|]. by eapply body_stable.
Qed.
End Bodies.

(** The theorem at work: an encoded transaction is accepted. *)
#[local] Existing Instances toy_rlp_tree toy_rlp_tree_ok.

Lemma decoded_values_typed_witness :
  Transaction.decode (Transaction.encode sample_tx) = Ok sample_tx /\ tx_wf sample_tx.
Proof.
  assert (E : Transaction.decode (Transaction.encode sample_tx) = Ok sample_tx) by (vm_compute; reflexivity).
  split; [exact E|]. exact (proj1 (proj1 (decoded_values_typed (S := toy_var_ssz) (Transaction.encode sample_tx)) sample_tx E)).
Defined.
