(* ===== verification/ExecutionJson.v ===== *)
(** * JSON of execution data

    Models how the bridge reads what execution clients answer: [serde_json] values, the
    derived and hand-written [Deserialize] implementations of
    [ethportal-api/src/types/execution/header.rs], [transaction.rs], [receipts.rs] and
    [consensus/withdrawal.rs], and [portal-bridge/src/types/full_header.rs].  The JSON
    forms of the types of [ethereum_types] (hashes, integers) are the class [SerdeTypes].

    A struct is read from an object by the names of its fields, or from an array by their
    positions, as [serde] does. *)

From Stdlib Require Import String.
From S2P Require Import Prelude.
From S2P Require Import Distance.
From S2P Require Import Hex.
From S2P Require Import Header.
From S2P Require Import ContentKey.
From S2P Require Import Accumulator.
From S2P Require Import Transaction.
From S2P Require Import BlockBody.
From S2P Require Import ExecutionTyping.

#[local] Open Scope list_scope.

(** A string literal. *)
Definition str (s : string) : bytes := list_byte_of_string s.
Arguments str _%_string_scope.

(** ** Numbers in strings *)

(** The value of a digit. *)
Definition digit_of (radix : Z) (c : byte) : option Z :=
  let c := byte_to_Z c in
  let d :=
    if (0x30 <=? c) && (c <=? 0x39) then c - 0x30
    else if (0x61 <=? c) && (c <=? 0x7a) then c - 0x61 + 10
    else if (0x41 <=? c) && (c <=? 0x5a) then c - 0x41 + 10
    else radix in
  if d <? radix then Some d else None.

Fixpoint digits_radix (radix w : Z) (s : bytes) (acc : Z) : option Z :=
  match s with
  | [] => Some acc
  | c :: s =>
      d ← digit_of radix c;
      if acc * radix + d <? 2 ^ w then digits_radix radix w s (acc * radix + d) else None
  end.

(** [from_str_radix] of an unsigned type of [w] bits: an optional plus, then digits. *)
Definition from_str_radix (w radix : Z) (s : bytes) : option Z :=
  match s with
  | [] | [x2b] | [x2d] => None
  | x2b :: s => digits_radix radix w s 0
  | s => digits_radix radix w s 0
  end.

(** Numbers as digits, for the statements: [n] digits of [z]. *)
Definition digit_char (d : Z) : byte := byte_of_Z (if d <? 10 then 0x30 + d else 0x57 + d).
Fixpoint print_digits (radix : Z) (n : nat) (z : Z) : bytes :=
  match n with
  | O => []
  | S n => print_digits radix n (z / radix) ++ [digit_char (z mod radix)]
  end.

Lemma digit_of_char radix d : 0 <= d < radix -> radix <= 36 -> digit_of radix (digit_char d) = Some d.
Proof.
  intros Hd Hr. unfold digit_of, digit_char. destruct (Z.ltb_spec d 10).
  - rewrite byte_to_of_Z, Z.mod_small by lia. rewrite !(proj2 (Z.leb_le _ _)) by lia. simpl.
    replace (0x30 + d - 0x30) with d by lia. by rewrite (proj2 (Z.ltb_lt _ _)) by lia.
  - rewrite byte_to_of_Z, Z.mod_small by lia. rewrite (proj2 (Z.leb_le 0x30 _)), (proj2 (Z.leb_gt _ 0x39)) by lia. simpl.
    rewrite !(proj2 (Z.leb_le _ _)) by lia. simpl.
    replace (0x57 + d - 0x61 + 10) with d by lia. by rewrite (proj2 (Z.ltb_lt _ _)) by lia.
Qed.

Lemma digits_radix_app radix w a b acc :
  digits_radix radix w (a ++ b) acc = (x ← digits_radix radix w a acc; digits_radix radix w b x).
Proof.
  revert acc. induction a as [|c a IH]; intros acc; simpl; [done|].
  destruct (digit_of radix c); simpl; [|done]. by case_match.
Qed.

Lemma digits_radix_print radix w n z :
  2 <= radix <= 36 -> 0 <= z < radix ^ Z.of_nat n -> z < 2 ^ w -> digits_radix radix w (print_digits radix n z) 0 = Some z.
Proof.
  intros Hr. revert z. induction n as [|n IH]; intros z Hz Hw; simpl; [simpl in Hz; f_equal; lia|].
  rewrite Nat2Z.inj_succ, Z.pow_succ_r in Hz by lia.
  pose proof (Z.mod_pos_bound z radix ltac:(lia)). pose proof (Z.div_mod z radix ltac:(lia)).
  rewrite digits_radix_app, IH; [|split; [apply Z.div_pos; lia|apply Z.div_lt_upper_bound; lia]|].
  - simpl. rewrite digit_of_char by lia. simpl. rewrite (proj2 (Z.ltb_lt _ _)) by lia. f_equal. lia.
  - assert (z / radix <= z); [|lia]. apply Z.div_le_upper_bound; nia.
Qed.

(** A number that begins with a digit has no sign. *)
Lemma from_str_radix_print radix w n z :
  2 <= radix <= 36 -> (0 < n)%nat -> 0 <= z < radix ^ Z.of_nat n -> z < 2 ^ w ->
  from_str_radix w radix (print_digits radix n z) = Some z.
Proof.
  intros Hr Hn Hz Hw. pose proof (digits_radix_print radix w n z Hr Hz Hw) as H.
  assert (Hc : exists c s, print_digits radix n z = c :: s /\ c <> x2b /\ c <> x2d).
  { clear -Hr Hn. revert z. induction n as [|[|n] IH]; intros z; [lia| |].
    - eexists _, _. split; [done|]. pose proof (Z.mod_pos_bound z radix ltac:(lia)).
      assert (digit_of radix (digit_char (z mod radix)) = Some (z mod radix)) as E by (apply digit_of_char; lia).
      assert (forall c, (c = x2b \/ c = x2d) -> digit_of radix c = None) as Hs.
      { intros c [->| ->]; unfold digit_of; cbn -[Z.ltb]; by rewrite Z.ltb_irrefl. }
      split; intros Heq; rewrite Hs in E by auto; done.
    - destruct (IH ltac:(lia) (z / radix)) as (c & s & E & Hc). exists c, (s ++ [digit_char (z mod radix)]).
      split; [|done]. change (print_digits radix (S (S n)) z) with (print_digits radix (S n) (z / radix) ++ [digit_char (z mod radix)]).
      by rewrite E. }
  destruct Hc as (c & s & E & H1 & H2). rewrite E in *. unfold from_str_radix. by destruct c; destruct s.
Qed.

(** ** Values *)

#[local] Unset Elimination Schemes.
Inductive Value :=
| Null
| Bool (b : bool)
| Number (z : Z)
| Str (s : bytes)
| Array (l : list Value)
| Object (o : list (bytes * Value)).
#[local] Set Elimination Schemes.

Inductive JsonError := InvalidType | InvalidLength | MissingField (name : bytes) | UnknownField (name : bytes) | Custom.

(** The first entry for a key. *)
Fixpoint assoc {A} (o : list (bytes * A)) (k : bytes) : option A :=
  match o with
  | [] => None
  | (k', v) :: o => if decide (k' = k) then Some v else assoc o k
  end.

(** [value["k"]]. *)
Definition index_key (v : Value) (k : bytes) : Value :=
  match v with
  | Object o => default Null (assoc o k)
  | _ => Null
  end.

(** [value["k"].take()] of a mutable value: a panic unless it is an object or null. *)
Definition take_key {E} (v : Value) (k : bytes) : res E Value :=
  match v with
  | Object _ | Null => Ok (index_key v k)
  | _ => Panic
  end.

(** [Map::extend] with one entry. *)
Fixpoint extend_one (o : list (bytes * Value)) (k : bytes) (v : Value) : list (bytes * Value) :=
  match o with
  | [] => [(k, v)]
  | (k', v') :: o => if decide (k' = k) then (k, v) :: o else (k', v') :: extend_one o k v
  end.

Definition str_of_value (v : Value) : res JsonError bytes :=
  match v with Str s => Ok s | _ => Err InvalidType end.

(** [Vec<T>] and [Option<T>]. *)
Definition vec_of_value {A} (dec : Value -> res JsonError A) (v : Value) : res JsonError (list A) :=
  match v with Array l => res_all dec l | _ => Err InvalidType end.
Definition option_of_value {A} (dec : Value -> res JsonError A) (v : Value) : res JsonError (option A) :=
  match v with
  | Null => Ok None
  | v => res_map Some (dec v)
  end.

(** ** Structs *)

Inductive fields := ByName (o : list (bytes * Value)) | ByPosition (l : list Value).

Definition struct_of (v : Value) : res JsonError fields :=
  match v with
  | Object o => Ok (ByName o)
  | Array l => Ok (ByPosition l)
  | _ => Err InvalidType
  end.

(** A field with what is taken when an object does not have it. *)
Definition field_or {A} (missing : res JsonError A) (fs : fields) (i : nat) (name : bytes)
    (dec : Value -> res JsonError A) : res JsonError A :=
  match fs with
  | ByName o => match assoc o name with Some v => dec v | None => missing end
  | ByPosition l => match l !! i with Some v => dec v | None => Err InvalidLength end
  end.

Definition field {A} (fs : fields) (i : nat) (name : bytes) (dec : Value -> res JsonError A) : res JsonError A :=
  field_or (Err (MissingField name)) fs i name dec.

(** An [Option] that an object does not have is [None]. *)
Definition option_field {A} (fs : fields) (i : nat) (name : bytes) (dec : Value -> res JsonError A)
    : res JsonError (option A) :=
  field_or (Ok None) fs i name (option_of_value dec).

(** No element is left over. *)
Definition finish {A} (fs : fields) (count : nat) (a : A) : res JsonError A :=
  match fs with
  | ByPosition l => if (count <? length l)%nat then Err InvalidLength else Ok a
  | ByName _ => Ok a
  end.

(** The entries of an object are read in its order: the first that fails decides. *)
Fixpoint scan (known : list (bytes * (Value -> res JsonError unit))) (o : list (bytes * Value)) : res JsonError unit :=
  match o with
  | [] => Ok tt
  | (k, v) :: o =>
      match assoc known k with
      | Some dec => let? _ := dec v in scan known o
      | None => scan known o
      end
  end.

(** ** Types of other crates *)

Class SerdeTypes := {
  (** a hash or a bloom filter of [n] bytes; an integer of [w] bits *)
  fixed_of_json : nat -> Value -> res JsonError bytes;
  uint_of_json : Z -> Value -> res JsonError Z;
}.

(** Their result types. *)
Class SerdeTyped (S : SerdeTypes) : Prop := {
  fixed_of_json_length : forall n v b, fixed_of_json n v = Ok b -> length b = n;
  uint_of_json_range : forall w v z, uint_of_json w v = Ok z -> 0 <= z < 2 ^ w;
}.

(** ** Headers *)

Section Headers.
Context `{X : HexLib} `{ST : SerdeTypes}.

Definition de_hex_to_vec_u8 (v : Value) : res JsonError bytes :=
  let? result := str_of_value v in
  map_err (fun _ => Custom) (hex_decode result).

Definition de_hex_to_u64 (v : Value) : res JsonError Z :=
  let? result := str_of_value v in
  let result := trim_0x result in
  ok_or (from_str_radix 64 16 result) Custom.

Definition header_of_json (v : Value) : res JsonError Header.t :=
  let? fs := struct_of v in
  let? parent_hash := field fs 0 (str "parentHash") (fixed_of_json 32) in
  let? uncles_hash := field fs 1 (str "sha3Uncles") (fixed_of_json 32) in
  let? author := field fs 2 (str "miner") (fixed_of_json 20) in
  let? state_root := field fs 3 (str "stateRoot") (fixed_of_json 32) in
  let? transactions_root := field fs 4 (str "transactionsRoot") (fixed_of_json 32) in
  let? receipts_root := field fs 5 (str "receiptsRoot") (fixed_of_json 32) in
  let? logs_bloom := field fs 6 (str "logsBloom") (fixed_of_json 256) in
  let? difficulty := field fs 7 (str "difficulty") (uint_of_json 256) in
  let? number := field fs 8 (str "number") de_hex_to_u64 in
  let? gas_limit := field fs 9 (str "gasLimit") (uint_of_json 256) in
  let? gas_used := field fs 10 (str "gasUsed") (uint_of_json 256) in
  let? timestamp := field fs 11 (str "timestamp") de_hex_to_u64 in
  let? extra_data := field fs 12 (str "extraData") de_hex_to_vec_u8 in
  let? mix_hash := option_field fs 13 (str "mixHash") (fixed_of_json 32) in
  let? nonce := option_field fs 14 (str "nonce") (fixed_of_json 8) in
  let? base_fee_per_gas := option_field fs 15 (str "baseFeePerGas") (uint_of_json 256) in
  let? withdrawals_root := option_field fs 16 (str "withdrawalsRoot") (fixed_of_json 32) in
  finish fs 17
    {| Header.parent_hash := parent_hash; Header.uncles_hash := uncles_hash; Header.author := author;
       Header.state_root := state_root; Header.transactions_root := transactions_root;
       Header.receipts_root := receipts_root; Header.logs_bloom := logs_bloom; Header.difficulty := difficulty;
       Header.number := number; Header.gas_limit := gas_limit; Header.gas_used := gas_used;
       Header.timestamp := timestamp; Header.extra_data := extra_data; Header.mix_hash := mix_hash;
       Header.nonce := nonce; Header.base_fee_per_gas := base_fee_per_gas;
       Header.withdrawals_root := withdrawals_root |}.

(** [TxHashes]: the hash of each transaction object. *)
Definition tx_hash_of_json (v : Value) : res JsonError bytes :=
  let? fs := struct_of v in
  let? hash := field fs 0 (str "hash") (fixed_of_json 32) in
  finish fs 1 hash.

Definition tx_hashes_of_json (v : Value) : res JsonError (list bytes) := vec_of_value tx_hash_of_json v.
End Headers.

(** ** Transactions *)

Section Transactions.
Context `{X : HexLib} `{ST : SerdeTypes}.

(** [ToAddress], on a string or null; an address that is not there is none. *)
Definition to_of_value (v : Value) : res JsonError ToAddress :=
  match v with
  | Null => map_err (fun _ => Custom) (to_of_json None)
  | Str s => map_err (fun _ => Custom) (to_of_json (Some s))
  | _ => Err InvalidType
  end.

Definition json_bytes_of_value (v : Value) : res JsonError bytes :=
  let? s := str_of_value v in
  map_err (fun _ => Custom) (json_bytes s).

Definition access_item_of_json (v : Value) : res JsonError AccessListItem :=
  let? fs := struct_of v in
  let? address := field fs 0 (str "address") (fixed_of_json 20) in
  let? storage_keys := field fs 1 (str "storageKeys") (vec_of_value (fixed_of_json 32)) in
  finish fs 2 {| al_address := address; storage_keys := storage_keys |}.

Definition forget {A} (dec : Value -> res JsonError A) (v : Value) : res JsonError unit :=
  res_map (fun _ => tt) (dec v).
Definition u256 : Value -> res JsonError Z := uint_of_json 256.
Definition u64 : Value -> res JsonError Z := uint_of_json 64.
Definition access_items : Value -> res JsonError (list AccessListItem) := vec_of_value access_item_of_json.

(** The names of the fields with their types. *)
Definition legacy_fields : list (bytes * (Value -> res JsonError unit)) :=
  [(str "nonce", forget u256); (str "gasPrice", forget u256); (str "gas", forget u256); (str "to", forget to_of_value);
   (str "value", forget u256); (str "input", forget json_bytes_of_value); (str "v", forget u64);
   (str "r", forget u256); (str "s", forget u256)].
Definition access_list_fields : list (bytes * (Value -> res JsonError unit)) :=
  (str "chainId", forget u256) :: (str "accessList", forget access_items) :: legacy_fields.
Definition eip1559_fields : list (bytes * (Value -> res JsonError unit)) :=
  [(str "chainId", forget u256); (str "accessList", forget access_items);
   (str "maxPriorityFeePerGas", forget u256); (str "maxFeePerGas", forget u256);
   (str "nonce", forget u256); (str "gas", forget u256); (str "to", forget to_of_value);
   (str "value", forget u256); (str "input", forget json_bytes_of_value); (str "v", forget u64);
   (str "r", forget u256); (str "s", forget u256)].

Definition to_field (o : list (bytes * Value)) : res JsonError ToAddress :=
  field_or (Ok Empty) (ByName o) 0 (str "to") to_of_value.
Definition named {A} (o : list (bytes * Value)) (name : bytes) (dec : Value -> res JsonError A) : res JsonError A :=
  field (ByName o) 0 name dec.

(** The helpers that [Transaction::deserialize] reads from an object. *)
Definition legacy_of_json (o : list (bytes * Value)) : res JsonError LegacyTransaction.t :=
  let? _ := scan legacy_fields o in
  let? nonce := named o (str "nonce") u256 in
  let? gas_price := named o (str "gasPrice") u256 in
  let? gas := named o (str "gas") u256 in
  let? to := to_field o in
  let? value := named o (str "value") u256 in
  let? data := named o (str "input") json_bytes_of_value in
  let? v := named o (str "v") u64 in
  let? r := named o (str "r") u256 in
  let? s := named o (str "s") u256 in
  Ok {| LegacyTransaction.nonce := nonce; LegacyTransaction.gas_price := gas_price; LegacyTransaction.gas := gas;
        LegacyTransaction.to := to; LegacyTransaction.value := value; LegacyTransaction.data := data;
        LegacyTransaction.v := v; LegacyTransaction.r := r; LegacyTransaction.s := s |}.

Definition access_list_of_json (o : list (bytes * Value)) : res JsonError AccessListTransaction.t :=
  let? _ := scan access_list_fields o in
  let? chain_id := named o (str "chainId") u256 in
  let? nonce := named o (str "nonce") u256 in
  let? gas_price := named o (str "gasPrice") u256 in
  let? gas_limit := named o (str "gas") u256 in
  let? to := to_field o in
  let? value := named o (str "value") u256 in
  let? data := named o (str "input") json_bytes_of_value in
  let? access_list := named o (str "accessList") access_items in
  let? y_parity := named o (str "v") u64 in
  let? r := named o (str "r") u256 in
  let? s := named o (str "s") u256 in
  Ok {| AccessListTransaction.chain_id := chain_id; AccessListTransaction.nonce := nonce;
        AccessListTransaction.gas_price := gas_price; AccessListTransaction.gas_limit := gas_limit;
        AccessListTransaction.to := to; AccessListTransaction.value := value; AccessListTransaction.data := data;
        AccessListTransaction.access_list := {| al_list := access_list |};
        AccessListTransaction.y_parity := y_parity; AccessListTransaction.r := r; AccessListTransaction.s := s |}.

Definition eip1559_of_json (o : list (bytes * Value)) : res JsonError EIP1559Transaction.t :=
  let? _ := scan eip1559_fields o in
  let? chain_id := named o (str "chainId") u256 in
  let? nonce := named o (str "nonce") u256 in
  let? max_priority_fee_per_gas := named o (str "maxPriorityFeePerGas") u256 in
  let? max_fee_per_gas := named o (str "maxFeePerGas") u256 in
  let? gas_limit := named o (str "gas") u256 in
  let? to := to_field o in
  let? value := named o (str "value") u256 in
  let? data := named o (str "input") json_bytes_of_value in
  let? access_list := named o (str "accessList") access_items in
  let? y_parity := named o (str "v") u64 in
  let? r := named o (str "r") u256 in
  let? s := named o (str "s") u256 in
  Ok {| EIP1559Transaction.chain_id := chain_id; EIP1559Transaction.nonce := nonce;
        EIP1559Transaction.max_priority_fee_per_gas := max_priority_fee_per_gas;
        EIP1559Transaction.max_fee_per_gas := max_fee_per_gas; EIP1559Transaction.gas_limit := gas_limit;
        EIP1559Transaction.to := to; EIP1559Transaction.value := value; EIP1559Transaction.data := data;
        EIP1559Transaction.access_list := {| al_list := access_list |};
        EIP1559Transaction.y_parity := y_parity; EIP1559Transaction.r := r; EIP1559Transaction.s := s |}.

(** [TransactionId::try_from(Value)]. *)
Definition tx_id_of_value (v : Value) : res JsonError TransactionId.t :=
  ok_or (tx_id_of_json (match v with Str s => Some s | _ => None end)) Custom.

(** [Transaction::deserialize]: the chain id is added under the name [chain_id]. *)
Definition transaction_of_json (obj : Value) : res JsonError Transaction.t :=
  let? tx_id := tx_id_of_value (index_key obj (str "type")) in
  match obj with
  | Object val =>
      let val := extend_one val (str "chain_id") (Str (str "0x1")) in
      match tx_id with
      | TransactionId.Legacy => res_map Transaction.Legacy (legacy_of_json val)
      | TransactionId.AccessList => res_map Transaction.AccessList (access_list_of_json val)
      | TransactionId.EIP1559 => res_map Transaction.EIP1559 (eip1559_of_json val)
      end
  | _ => Err Custom
  end.
End Transactions.

(** ** Receipts *)

Section Receipts.
Context `{X : HexLib} `{ST : SerdeTypes}.

(** [LogEntryHelper], and its conversion. *)
Definition log_of_json (v : Value) : res JsonError LogEntry :=
  let? fs := struct_of v in
  let? address := field fs 0 (str "address") (fixed_of_json 20) in
  let? topics := field fs 1 (str "topics") (vec_of_value (fixed_of_json 32)) in
  let? data := field fs 2 (str "data") json_bytes_of_value in
  finish fs 3 {| log_address := address; topics := topics; log_data := data |}.

Definition outcome_of_value (v : Value) : res JsonError TransactionOutcome :=
  let? s := str_of_value v in
  map_err (fun _ => Custom) (outcome_of_json s).

(** [LegacyReceiptHelper], and its conversion. *)
Definition legacy_receipt_of_json (v : Value) : res JsonError LegacyReceipt :=
  let? fs := struct_of v in
  let? cumulative_gas_used := field fs 0 (str "cumulativeGasUsed") (uint_of_json 256) in
  let? logs_bloom := field fs 1 (str "logsBloom") (fixed_of_json 256) in
  let? logs := field fs 2 (str "logs") (vec_of_value log_of_json) in
  let? outcome := field fs 3 (str "status") outcome_of_value in
  finish fs 4 {| cumulative_gas_used := cumulative_gas_used; log_bloom := logs_bloom; logs := logs; outcome := outcome |}.

Definition receipt_of_json (obj : Value) : res JsonError Receipt.t :=
  let? tx_id := tx_id_of_value (index_key obj (str "type")) in
  match tx_id with
  | TransactionId.Legacy => res_map Receipt.Legacy (legacy_receipt_of_json obj)
  | TransactionId.AccessList => res_map Receipt.AccessList (legacy_receipt_of_json obj)
  | TransactionId.EIP1559 => res_map Receipt.EIP1559 (legacy_receipt_of_json obj)
  end.

(** [Receipts::deserialize], of the responses of a batch. *)
Definition receipts_of_json (v : Value) : res JsonError Receipts.t :=
  let? receipt_list :=
    vec_of_value (fun val => let? result := take_key val (str "result") in receipt_of_json result) v in
  Ok {| Receipts.receipt_list := receipt_list |}.
End Receipts.

(** ** Withdrawals *)

Section Withdrawals.
Context `{ST : SerdeTypes}.

Definition string_to_u64 (v : Value) : res JsonError Z :=
  let? s := str_of_value v in
  ok_or (from_str_radix 64 16 (trim_0x s)) Custom.

Definition withdrawal_of_json (v : Value) : res JsonError Withdrawal.t :=
  let? fs := struct_of v in
  let? index := field fs 0 (str "index") string_to_u64 in
  let? validator_index := field fs 1 (str "validatorIndex") string_to_u64 in
  let? address := field fs 2 (str "address") (fixed_of_json 20) in
  let? amount := field fs 3 (str "amount") string_to_u64 in
  finish fs 4 {| Withdrawal.index := index; Withdrawal.validator_index := validator_index;
                 Withdrawal.address := address; Withdrawal.amount := amount |}.
End Withdrawals.

(** ** Blocks of a provider *)

Module FullHeader.
Record t := {
  header : Header.t;
  txs : list Transaction.t;
  tx_hashes : list bytes;
  uncles : list bytes;
  epoch_acc : option EpochAccumulator;
  withdrawals : option (list Withdrawal.t);
}.

Section Ops.
Context `{X : HexLib} `{ST : SerdeTypes}.

Definition try_from (val : Value) : res JsonError t :=
  let? header := header_of_json val in
  let? uncles := vec_of_value (fixed_of_json 32) (index_key val (str "uncles")) in
  let? tx_hashes := tx_hashes_of_json (index_key val (str "transactions")) in
  let? txs := vec_of_value transaction_of_json (index_key val (str "transactions")) in
  let? withdrawals :=
    match index_key val (str "withdrawals") with
    | Null => Ok None
    | v => option_of_value (vec_of_value withdrawal_of_json) v
    end in
  Ok {| header := header; txs := txs; tx_hashes := tx_hashes; uncles := uncles; epoch_acc := None;
        withdrawals := withdrawals |}.

(** [FullHeaderBatch::deserialize]. *)
Definition batch (v : Value) : res JsonError (list t) :=
  vec_of_value (fun val => let? result := take_key val (str "result") in try_from result) v.
End Ops.
End FullHeader.

(** ** Results are well typed *)

Lemma digit_of_range radix c d : 0 <= radix -> digit_of radix c = Some d -> 0 <= d < radix.
Proof.
  unfold digit_of. intros Hr. destruct (_ <? radix) eqn:E; [|done]. intros [= <-]. apply Z.ltb_lt in E. split; [|done].
  repeat case_match; try done; repeat match goal with H : _ && _ = true |- _ => apply andb_true_iff in H as [? ?] end; lia.
Qed.

Lemma digits_radix_range radix w s acc z :
  0 <= radix -> 0 <= acc < 2 ^ w -> digits_radix radix w s acc = Some z -> 0 <= z < 2 ^ w.
Proof.
  intros Hr. revert acc. induction s as [|c s IH]; intros acc Ha; simpl; [by intros [= <-]|].
  destruct (digit_of radix c) as [d|] eqn:Ed; [|done]. apply digit_of_range in Ed; [|done]. simpl.
  destruct (Z.ltb_spec (acc * radix + d) (2 ^ w)); [|done]. apply IH. nia.
Qed.

Lemma from_str_radix_range w radix s z :
  0 <= radix -> 0 <= w -> from_str_radix w radix s = Some z -> 0 <= z < 2 ^ w.
Proof.
  intros Hr Hw H. assert (exists s', digits_radix radix w s' 0 = Some z) as [s' Hs'].
  { unfold from_str_radix in H. destruct s as [|c s]; [done|]. destruct c; first [by eexists|destruct s; [done|by eexists]]. }
  apply (digits_radix_range radix w s' 0); [done| |exact Hs']. split; [done|]. by apply Z.pow_pos_nonneg.
Qed.

Section Typing.
Context {X : HexLib} {ST : SerdeTypes} `{!SerdeTyped ST}.

Lemma typed_json_fixed n v : typed (fun b => length b = n) (fixed_of_json n v).
Proof. intros b. apply fixed_of_json_length. Qed.

Lemma typed_json_uint w v : typed (fun z => 0 <= z < 2 ^ w) (uint_of_json w v).
Proof. intros z. apply uint_of_json_range. Qed.

Lemma typed_hex_u64 v : typed (fun z => 0 <= z < 2 ^ 64) (de_hex_to_u64 v).
Proof.
  unfold de_hex_to_u64. eapply typed_bind; [apply typed_any|]. intros s _ z.
  destruct (from_str_radix 64 16 (trim_0x s)) eqn:E; [|done]. intros [= <-]. by eapply from_str_radix_range in E.
Qed.

Lemma typed_string_u64 v : typed (fun z => 0 <= z < 2 ^ 64) (string_to_u64 v).
Proof. apply typed_hex_u64. Qed.

Lemma typed_vec {A} (P : A -> Prop) dec v : (forall v, typed P (dec v)) -> typed (Forall P) (vec_of_value dec v).
Proof. intros Hd. destruct v; try done. by apply typed_all. Qed.

Lemma typed_option {A} (P : A -> Prop) dec v :
  (forall v, typed P (dec v)) -> typed (fun o => forall a, o = Some a -> P a) (option_of_value dec v).
Proof.
  intros Hd. assert (typed (fun o => forall a, o = Some a -> P a) (res_map Some (dec v))).
  { apply typed_map. eapply typed_impl; [apply Hd|]. by intros a Ha ? [= <-]. }
  by destruct v; [apply typed_ok|..].
Qed.

Lemma typed_field_or {A} (P : A -> Prop) missing fs i name dec :
  typed P missing -> (forall v, typed P (dec v)) -> typed P (field_or missing fs i name dec).
Proof. intros Hm Hd. unfold field_or. repeat case_match; auto; done. Qed.

Lemma typed_field {A} (P : A -> Prop) fs i name dec : (forall v, typed P (dec v)) -> typed P (field fs i name dec).
Proof. intros Hd. by apply typed_field_or. Qed.

Lemma typed_option_field {A} (P : A -> Prop) fs i name dec :
  (forall v, typed P (dec v)) -> typed (fun o => forall a, o = Some a -> P a) (option_field fs i name dec).
Proof. intros Hd. apply typed_field_or; [by apply typed_ok|]. intros v. by apply typed_option. Qed.

Lemma typed_finish {A} (P : A -> Prop) fs n a : P a -> typed P (finish fs n a).
Proof. intros Ha. unfold finish. repeat case_match; [by apply typed_ok|done|by apply typed_ok]. Qed.

#[local] Hint Resolve typed_json_fixed typed_json_uint typed_hex_u64 typed_string_u64 typed_vec typed_field
  typed_option_field : typed.
Lemma typed_header_json v : typed Header.wf (header_of_json v).
Proof. unfold header_of_json. typed_steps. apply typed_finish. by constructor. Qed.

Lemma typed_tx_hash v : typed (fun b => length b = 32%nat) (tx_hash_of_json v).
Proof. unfold tx_hash_of_json. typed_steps. by apply typed_finish. Qed.

Lemma typed_to_value v : typed to_wf (to_of_value v).
Proof.
  destruct v; try done; [by apply typed_ok|]. unfold to_of_value. apply typed_err. unfold to_of_json.
  eapply typed_bind; [apply typed_any|]. intros b _. destruct (Nat.eqb_spec (length b) 20); [by apply typed_ok|done].
Qed.

Lemma typed_to_field o : typed to_wf (to_field o).
Proof. apply typed_field_or; [by apply typed_ok|apply typed_to_value]. Qed.

Lemma typed_json_access_item v :
  typed (fun i => length (al_address i) = 20%nat /\ Forall (fun k => length k = 32%nat) (storage_keys i))
    (access_item_of_json v).
Proof. unfold access_item_of_json. typed_steps. by apply typed_finish. Qed.

Lemma typed_access_items v :
  typed (Forall (fun i => length (al_address i) = 20%nat /\ Forall (fun k => length k = 32%nat) (storage_keys i)))
    (access_items v).
Proof. apply typed_vec, typed_json_access_item. Qed.

Lemma typed_u256 v : typed is_u256 (u256 v).
Proof. apply typed_json_uint. Qed.

Lemma typed_u64 v : typed is_u64 (u64 v).
Proof. apply typed_json_uint. Qed.

Lemma typed_named {A} (P : A -> Prop) o name dec : (forall v, typed P (dec v)) -> typed P (named o name dec).
Proof. apply typed_field. Qed.

#[local] Hint Resolve typed_tx_hash typed_to_field typed_access_items typed_u256 typed_u64 typed_named : typed.

Lemma typed_transaction_json v : typed tx_wf (transaction_of_json v).
Proof.
  unfold transaction_of_json. eapply typed_bind; [apply typed_any|]. intros id _. destruct v; try done.
  destruct id; apply typed_map; unfold legacy_of_json, access_list_of_json, eip1559_of_json; typed_steps; apply typed_ok;
    cbn; by rewrite !Forall_cons.
Qed.

Lemma typed_log_json v : typed log_wf (log_of_json v).
Proof. unfold log_of_json. typed_steps. by apply typed_finish. Qed.

Lemma digits_u8_range s acc z : 0 <= acc < 256 -> digits_u8 s acc = Some z -> is_u8 z.
Proof.
  revert acc. induction s as [|c s IH]; intros acc Ha; simpl; [by intros [= <-]|].
  destruct (_ && _) eqn:E; [|done]. apply andb_true_iff in E as [E E3%Z.ltb_lt].
  apply andb_true_iff in E as [E1%Z.leb_le E2%Z.leb_le]. apply IH. lia.
Qed.

Lemma parse_u8_range s z : parse_u8 s = Some z -> is_u8 z.
Proof.
  intros H. assert (exists s', digits_u8 s' 0 = Some z) as [s' Hs']; [|by eapply digits_u8_range in Hs'].
  unfold parse_u8 in H. destruct s as [|c s]; [done|]. destruct c; first [by eexists|destruct s; [done|by eexists]].
Qed.

Lemma typed_outcome_value v : typed outcome_wf (outcome_of_value v).
Proof.
  unfold outcome_of_value. eapply typed_bind; [apply typed_any|]. intros s _. apply typed_err. unfold outcome_of_json.
  destruct (_ =? 1)%nat.
  - intros o. destruct (parse_u8 _) eqn:E; [|done]. intros [= <-]. by eapply parse_u8_range.
  - destruct (_ =? 64)%nat; [|done]. eapply typed_bind; [apply typed_any|]. intros b _.
    destruct (Nat.eqb_spec (length b) 32); [by apply typed_ok|done].
Qed.

#[local] Hint Resolve typed_log_json typed_outcome_value : typed.

Lemma typed_receipt_json v : typed (receipt_wf ∘ Receipt.receipt) (receipt_of_json v).
Proof.
  unfold receipt_of_json. eapply typed_bind; [apply typed_any|]. intros id _.
  assert (typed receipt_wf (legacy_receipt_of_json v)).
  { unfold legacy_receipt_of_json. typed_steps. by apply typed_finish. }
  by destruct id; apply typed_map.
Qed.

Lemma typed_receipts_json v :
  typed (fun rs => Forall (receipt_wf ∘ Receipt.receipt) (Receipts.receipt_list rs)) (receipts_of_json v).
Proof.
  unfold receipts_of_json. eapply typed_bind; [|intros l Hl; by apply typed_ok].
  apply typed_vec. intros val. eapply typed_bind; [apply typed_any|]. intros result _. apply typed_receipt_json.
Qed.

Lemma typed_withdrawal_json v : typed withdrawal_wf (withdrawal_of_json v).
Proof. unfold withdrawal_of_json. typed_steps. by apply typed_finish. Qed.

Lemma res_all_length {E A B} (f : A -> res E B) l l' : res_all f l = Ok l' -> length l' = length l.
Proof.
  revert l'. induction l as [|a l IH]; intros l'; simpl; [by intros [= <-]|].
  destruct (f a); [|done..]. destruct (res_all f l) eqn:E'; [|done..]. intros [= <-]. simpl. f_equal. by apply IH.
Qed.

(** What the bridge reads of a block is well typed, and there are as many hashes as
    transactions. *)
Definition full_header_wf (fh : FullHeader.t) : Prop :=
  Header.wf (FullHeader.header fh) /\ Forall tx_wf (FullHeader.txs fh)
  /\ Forall (fun h => length h = 32%nat) (FullHeader.tx_hashes fh)
  /\ length (FullHeader.tx_hashes fh) = length (FullHeader.txs fh)
  /\ Forall (fun h => length h = 32%nat) (FullHeader.uncles fh)
  /\ FullHeader.epoch_acc fh = None
  /\ forall ws, FullHeader.withdrawals fh = Some ws -> Forall withdrawal_wf ws.

(** Whatever a provider answers, a block that is read is well typed: its header, its
    transactions and their hashes (as many as transactions), its uncles and its
    withdrawals; and so are receipts. *)
Theorem provider_data_typed v :
  typed full_header_wf (FullHeader.try_from v)
  /\ typed (fun rs => Forall (receipt_wf ∘ Receipt.receipt) (Receipts.receipt_list rs)) (receipts_of_json v).
Proof.
  split; [|apply typed_receipts_json]. unfold FullHeader.try_from.
  eapply typed_bind; [apply typed_header_json|]. intros h Hh.
  eapply typed_bind; [apply typed_vec, typed_json_fixed|]. intros us Hus.
  destruct (tx_hashes_of_json _) as [hs| |] eqn:Ehs; [|done..].
  destruct (vec_of_value transaction_of_json _) as [txs| |] eqn:Etx; [|done..].
  eapply (typed_bind (fun o => forall ws, o = Some ws -> Forall withdrawal_wf ws)).
  - destruct (index_key v (str "withdrawals")) eqn:E; [by apply typed_ok|..];
      apply typed_option; intros v'; apply typed_vec, typed_withdrawal_json.
  - intros ws Hws. apply typed_ok. split_and!; try done.
    + eapply typed_vec; [|exact Etx]. apply typed_transaction_json.
    + eapply typed_vec; [|exact Ehs]. apply typed_tx_hash.
    + simpl. unfold tx_hashes_of_json, vec_of_value in *. destruct (index_key v (str "transactions")); try done.
      apply res_all_length in Ehs, Etx. congruence.
Qed.

(** The chain id that is added to a transaction is not the one that is read: a typed
    transaction without a chain id of its own is refused. *)
Theorem injected_chain_id_unused o t :
  transaction_of_json (Object o) = Ok t ->
  match t with
  | Transaction.Legacy _ => True
  | _ => is_Some (assoc o (str "chainId"))
  end.
Proof.
  assert (Hext : forall v, assoc (extend_one o (str "chain_id") v) (str "chainId") = assoc o (str "chainId")).
  { intros v. induction o as [|[k v'] o IH]; simpl; [done|].
    destruct (decide (k = str "chain_id")) as [->|]; simpl; [done|]. by rewrite IH. }
  assert (Hn : forall v, is_Some (assoc o (str "chainId"))
     \/ named (extend_one o (str "chain_id") v) (str "chainId") u256 = Err (MissingField (str "chainId"))).
  { intros v. unfold named, field, field_or. rewrite Hext. destruct (assoc o (str "chainId")); eauto. }
  unfold transaction_of_json. destruct (tx_id_of_value _) as [id| |]; [|done..].
  destruct (Hn (Str (str "0x1"))) as [|Hm]; [by destruct t|].
  destruct id.
  - unfold eip1559_of_json. destruct (scan _ _); [|done..]. by rewrite Hm.
  - unfold access_list_of_json. destruct (scan _ _); [|done..]. by rewrite Hm.
  - destruct (legacy_of_json _); [|done..]. by intros [= <-].
Qed.
End Typing.

(** ** Transactions as clients write them *)

(** Hashes in hex; integers as the "quantities" of the JSON-RPC standard. *)
Class SerdeTypesOk `{X : HexLib} (S : SerdeTypes) := {
  quantity : Z -> bytes;
  fixed_of_hex : forall n b, length b = n -> fixed_of_json n (Str (hex_encode b)) = Ok b;
  uint_of_quantity : forall w z, w <= 256 -> 0 <= z < 2 ^ w -> uint_of_json w (Str (quantity z)) = Ok z;
}.

Section Format.
Context {X : HexLib} `{!HexLibOk X} {ST : SerdeTypes} `{SO : !SerdeTypesOk ST}.

Definition json_q (z : Z) : Value := Str (quantity z).
Definition json_h (b : bytes) : Value := Str (hex_encode b).
Definition json_to (t : ToAddress) : Value := match t with Empty => Null | Exists a => json_h a end.
Definition json_access (a : AccessList) : Value :=
  Array (map (fun i => Object [(str "address", json_h (al_address i));
                               (str "storageKeys", Array (map json_h (storage_keys i)))]) (al_list a)).

(** The transaction objects of [eth_getBlockByNumber], with some of the fields that are not
    read. *)
Definition rpc_transaction (hash : bytes) (t : Transaction.t) : Value :=
  Object ((str "hash", json_h hash) ::
  match t with
  | Transaction.Legacy tx =>
      let 'LegacyTransaction.Build_t nonce gas_price gas to value data v r s := tx in
      [(str "type", Str (str "0x0")); (str "nonce", json_q nonce); (str "gasPrice", json_q gas_price);
       (str "gas", json_q gas); (str "to", json_to to); (str "value", json_q value); (str "input", json_h data);
       (str "v", json_q v); (str "r", json_q r); (str "s", json_q s)]
  | Transaction.AccessList tx =>
      let 'AccessListTransaction.Build_t chain nonce gas_price gas to value data al y r s := tx in
      [(str "type", Str (str "0x1")); (str "chainId", json_q chain); (str "nonce", json_q nonce);
       (str "gasPrice", json_q gas_price); (str "gas", json_q gas); (str "to", json_to to);
       (str "value", json_q value); (str "input", json_h data); (str "accessList", json_access al);
       (str "v", json_q y); (str "r", json_q r); (str "s", json_q s)]
  | Transaction.EIP1559 tx =>
      let 'EIP1559Transaction.Build_t chain nonce prio fee gas to value data al y r s := tx in
      [(str "type", Str (str "0x2")); (str "chainId", json_q chain); (str "nonce", json_q nonce);
       (str "maxPriorityFeePerGas", json_q prio); (str "maxFeePerGas", json_q fee); (str "gas", json_q gas);
       (str "to", json_to to); (str "value", json_q value); (str "input", json_h data);
       (str "accessList", json_access al); (str "v", json_q y); (str "r", json_q r); (str "s", json_q s)]
  end).

Lemma u256_q z : is_u256 z -> u256 (json_q z) = Ok z.
Proof. by apply uint_of_quantity. Qed.
Lemma u64_q z : is_u64 z -> u64 (json_q z) = Ok z.
Proof. by apply uint_of_quantity. Qed.
Lemma bytes_h b : json_bytes_of_value (json_h b) = Ok b.
Proof. unfold json_bytes_of_value, json_h, json_bytes. simpl. by rewrite hex_decode_encode. Qed.
Lemma to_value_read t : to_wf t -> to_of_value (json_to t) = Ok t.
Proof.
  destruct t as [|a]; [done|]. intros Ha. simpl in *. unfold to_of_json. rewrite hex_decode_encode, Ha. done.
Qed.

Lemma vec_read {A} (f : A -> Value) (g : Value -> res JsonError A) l :
  Forall (fun a => g (f a) = Ok a) l -> vec_of_value g (Array (map f l)) = Ok l.
Proof. apply (res_all_roundtrip f g). Qed.

Lemma access_items_read a : access_wf a -> access_items (json_access a) = Ok (al_list a).
Proof.
  intros Ha. apply vec_read. eapply Forall_impl; [exact Ha|]. intros i [H1 H2]. unfold access_item_of_json.
  cbn [struct_of field field_or assoc]. rewrite decide_True by done. unfold json_h at 1. rewrite fixed_of_hex by done.
  rewrite decide_False, decide_True by (by vm_compute). rewrite vec_read; [by destruct i|].
  eapply Forall_impl; [exact H2|]. intros k Hk. by apply fixed_of_hex.
Qed.

Lemma assoc_elem {A} (o : list (bytes * A)) k v : assoc o k = Some v -> (k, v) ∈ o.
Proof.
  induction o as [|[k' v'] o IH]; simpl; [done|]. destruct (decide (k' = k)) as [->|]; [intros [= ->]; by left|].
  intros H. right. auto.
Qed.

Lemma elem_assoc {A} (o : list (bytes * A)) k v : NoDup o.*1 -> (k, v) ∈ o -> assoc o k = Some v.
Proof.
  induction o as [|[k' v'] o IH]; simpl; [by intros _ ?%not_elem_of_nil|].
  intros [Hk Hn]%NoDup_cons [[= <- <-]|He]%elem_of_cons; [by rewrite decide_True|].
  rewrite decide_False; [auto|]. intros ->. apply Hk, list_elem_of_fmap. by exists (k, v).
Qed.

(** An object without an invalid entry. *)
Lemma scan_ok known o :
  NoDup o.*1 ->
  Forall (fun '(k, dec) => match assoc o k with Some v => dec v = Ok tt | None => True end) known ->
  scan known o = Ok tt.
Proof.
  intros Hn Hk. assert (Hall : Forall (fun '(k, v) => forall dec, assoc known k = Some dec -> dec v = Ok tt) o).
  { apply Forall_forall. intros [k v] He dec Hd%assoc_elem. apply elem_assoc in He; [|done].
    rewrite Forall_forall in Hk. specialize (Hk _ Hd). simpl in Hk. by rewrite He in Hk. }
  clear Hn Hk. induction Hall as [|[k v] o Hv _ IH]; simpl; [done|].
  destruct (assoc known k) as [dec|]; [by rewrite Hv|done].
Qed.

Lemma entry_ok {A} o k (dec : Value -> res JsonError A) x a :
  assoc o k = Some x -> dec x = Ok a -> match assoc o k with Some v => forget dec v = Ok tt | None => True end.
Proof. intros -> E. unfold forget. by rewrite E. Qed.

Lemma named_read {A} o k (dec : Value -> res JsonError A) x a :
  assoc o k = Some x -> dec x = Ok a -> named o k dec = Ok a.
Proof. unfold named, field, field_or. by intros ->. Qed.

Lemma to_field_read o t : assoc o (str "to") = Some (json_to t) -> to_wf t -> to_field o = Ok t.
Proof. unfold to_field, field_or. intros -> Ht. by apply to_value_read. Qed.

Create HintDb json discriminated.
#[local] Hint Resolve u256_q u64_q bytes_h to_value_read access_items_read : json.

(** Reads the fields of an object with the keys of a format. *)
Ltac read_entries :=
  rewrite scan_ok;
  [|by apply (bool_decide_unpack _); vm_compute
   |repeat (apply Forall_cons; split; [eapply entry_ok; [reflexivity|solve [eauto with json]]|]); by apply Forall_nil].
Ltac read_fields := repeat (erewrite named_read; [|reflexivity|solve [eauto with json]]).
Ltac read_object := read_entries; read_fields; erewrite to_field_read; [|reflexivity|done]; read_fields.

(** Transactions are read from JSON as clients write them: of each type, the transaction
    that was written. *)
Theorem transaction_json_read hash t : tx_wf t -> transaction_of_json (rpc_transaction hash t) = Ok t.
Proof.
  intros Hw. assert (Hid : tx_id_of_value (index_key (rpc_transaction hash t) (str "type"))
    = Ok (match t with Transaction.Legacy _ => TransactionId.Legacy | Transaction.AccessList _ => TransactionId.AccessList
                     | Transaction.EIP1559 _ => TransactionId.EIP1559 end)) by (destruct t as [[]|[]|[]]; reflexivity).
  unfold transaction_of_json. rewrite Hid. clear Hid. unfold rpc_transaction.
  destruct t as [[]|[]|[]]; cbn [tx_wf] in Hw; rewrite ?Forall_cons in Hw; destruct_and!.
  - unfold legacy_of_json. by read_object.
  - unfold access_list_of_json. read_object. by destruct access_list.
  - unfold eip1559_of_json. read_object. by destruct access_list.
Qed.
End Format.

(** ** A concrete instance *)

#[local] Existing Instances toy_hex toy_hex_ok.

(** Hashes as hex, integers as hex numbers. *)
#[global] Instance toy_serde : SerdeTypes := {|
  fixed_of_json n v :=
    let? s := str_of_value v in
    let? b := map_err (fun _ => Custom) (hex_decode s) in
    if (length b =? n)%nat then Ok b else Err InvalidLength;
  uint_of_json w v :=
    let? s := str_of_value v in
    if 0 <=? w then ok_or (from_str_radix w 16 (trim_0x s)) Custom else Err Custom;
|}.

#[global] Instance toy_serde_typed : SerdeTyped toy_serde.
Proof.
  constructor; cbn.
  - intros n v b. destruct (str_of_value v); [|done..]. destruct (map_err _ _); [|done..].
    destruct (Nat.eqb_spec (length a0) n); [|done]. by intros [= <-].
  - intros w v z. destruct (str_of_value v); [|done..]. destruct (Z.leb_spec 0 w); [|done].
    destruct (from_str_radix w 16 _) eqn:E; [|done]. intros [= <-]. by eapply from_str_radix_range in E.
Qed.

Lemma trim_0x_prefixed s : trim_0x (str_0x ++ s) = trim_0x s.
Proof. reflexivity. Qed.

Lemma print_hex_digits n z : Forall is_hex_digit (print_digits 16 n z).
Proof.
  revert z. induction n as [|n IH]; intros z; [constructor|]. simpl. apply Forall_app. split; [apply IH|].
  apply Forall_singleton. unfold is_hex_digit, digit_char. pose proof (Z.mod_pos_bound z 16 ltac:(lia)).
  destruct (Z.ltb_spec (z mod 16) 10); rewrite byte_to_of_Z, Z.mod_small by lia; lia.
Qed.

#[global] Instance toy_serde_ok : SerdeTypesOk toy_serde.
Proof.
  refine {| quantity z := str_0x ++ print_digits 16 64 z |}; cbn [fixed_of_json uint_of_json toy_serde str_of_value].
  - intros n b <-. rewrite hex_decode_encode. simpl. by rewrite Nat.eqb_refl.
  - intros w z Hw Hz. assert (0 <= w) as Hw0 by (destruct (Z.lt_ge_cases w 0); [rewrite Z.pow_neg_r in Hz|]; lia).
    rewrite (proj2 (Z.leb_le 0 w) Hw0).
    rewrite trim_0x_prefixed, trim_0x_digits by apply print_hex_digits. rewrite from_str_radix_print; [done|lia|lia| |lia].
    split; [lia|]. assert (2 ^ w <= 2 ^ 256) by (apply Z.pow_le_mono_r; lia).
    change (16 ^ Z.of_nat 64) with (2 ^ 256). lia.
Defined.

Lemma transaction_json_read_witness :
  transaction_of_json (rpc_transaction (replicate 32 x07) sample_tx) = Ok sample_tx.
Proof. apply (transaction_json_read (replicate 32 x07) sample_tx sample_tx_wf). Defined.

(** A typed transaction without a chain id is refused, whatever is added. *)
Lemma injected_chain_id_unused_witness :
  is_Some (assoc (match rpc_transaction [] sample_tx with Object o => o | _ => [] end) (str "chainId"))
  /\ forall t, transaction_of_json (Object [(str "type", Str (str "0x2"))]) <> Ok t.
Proof.
  split.
  - assert (E : transaction_of_json (rpc_transaction [] sample_tx) = Ok sample_tx) by (vm_compute; reflexivity).
    exact (injected_chain_id_unused _ _ E).
  - intros t. vm_compute. discriminate.
Defined.
