(* ===== verification/BridgeGossip.v ===== *)
(** * The bridge: modes, gossip with retries, statistics

    Models [portal-bridge/src/types/mode.rs], [gossip.rs] and [stats.rs].  The portal
    clients that a bridge controls answer two requests, of the class [PortalClient]: to
    gossip content and report the peers, and to look content up. *)

From Stdlib Require Import String.
From stdpp Require Import sets relations.
From S2P Require Import Prelude.
From S2P Require Import Distance.
From S2P Require Import Hex.
From S2P Require Import ContentKey.
From S2P Require Import Query.
From S2P Require Import Wire.
From S2P Require Import QueryInfo.
From S2P Require Import Overlay.
From S2P Require Import Gossip.
From S2P Require Import ExecutionJson.

#[local] Open Scope list_scope.

(** ** Modes *)

Inductive ModeError :=
| MissingColon
| TypePrefix
| EpochNumber
| BlockNumber
| TwoNumbersExpected
| EndBeforeStart.

(** [str::split]: at each occurrence of a character. *)
Fixpoint split_on (c : byte) (s : bytes) : list bytes :=
  match s with
  | [] => [[]]
  | x :: s =>
      if decide (x = c) then [] :: split_on c s
      else match split_on c s with
           | w :: ws => (x :: w) :: ws
           | [] => [[x]]
           end
  end.

(** [str::find], and the parts around it. *)
Fixpoint split_first (c : byte) (s : bytes) : option (bytes * bytes) :=
  match s with
  | [] => None
  | x :: s =>
      if decide (x = c) then Some ([], s)
      else '(a, b) ← split_first c s; Some (x :: a, b)
  end.

Definition parse_u64 (s : bytes) : option Z := from_str_radix 64 10 s.

Module ModeType.
Inductive t := Epoch (n : Z) | Block (n : Z) | BlockRange (start_block end_block : Z).

(** Slicing off the first character and [expect] panic. *)
Definition from_str (s : bytes) : res ModeError t :=
  match get_to s 1 with
  | None => Panic
  | Some prefix =>
      let rest := drop 1 s in
      if decide (prefix = str "e") then
        let? epoch := ok_or (parse_u64 rest) EpochNumber in Ok (Epoch epoch)
      else if decide (prefix = str "b") then
        let? block := ok_or (parse_u64 rest) BlockNumber in Ok (Block block)
      else if decide (prefix = str "r") then
        let? range_vec := res_all (fun range_input => match parse_u64 range_input with Some n => Ok n | None => Panic end)
                            (split_on x2d rest) in
        match range_vec with
        | [start_block; end_block] =>
            if end_block <? start_block then Err EndBeforeStart else Ok (BlockRange start_block end_block)
        | _ => Err TwoNumbersExpected
        end
      else Err TypePrefix
  end.
End ModeType.

Module BridgeMode.
Inductive t :=
| Latest
| Backfill (m : ModeType.t)
| Single (m : ModeType.t)
| Test (path : bytes).

Definition from_str (s : bytes) : res ModeError t :=
  if decide (s = str "latest") then Ok Latest
  else
    let? (mode, val) := ok_or (split_first x3a s) MissingColon in
    if decide (mode = str "backfill") then let? m := ModeType.from_str val in Ok (Backfill m)
    else if decide (mode = str "single") then let? m := ModeType.from_str val in Ok (Single m)
    else if decide (mode = str "test") then Ok (Test val)
    else Err TypePrefix.
End BridgeMode.

(** ** Statistics *)

Module TraceGossipInfo.
Record t := { offered : list bytes; accepted : list bytes; transferred : list bytes }.
End TraceGossipInfo.

(** What the requests of one client amount to: the traces and the number of retries. *)
Abbreviation gossip_result := (option (list TraceGossipInfo.t * Z)).

Module ContentStats.
Section Stats.
Context `{T : EnrText}.

(** The hash sets of records, without duplicates. *)
Record t := {
  offered : list Enr;
  accepted : list Enr;
  transferred : list Enr;
  retries : Z;
  failures : Z;
}.

Definition default : t := {| offered := []; accepted := []; transferred := []; retries := 0; failures := 0 |}.

Definition insert (s : list Enr) (e : Enr) : list Enr := if decide (e ∈ s) then s else s ++ [e].

(** Records that do not parse panic. *)
Definition insert_all (s : list Enr) (texts : list bytes) : res Empty_set (list Enr) :=
  let? enrs := res_all (fun e => match enr_from_str e with Some e => Ok e | None => Panic end) texts in
  Ok (fold_left insert enrs s).

Fixpoint add_traces (stats : t) (traces : list TraceGossipInfo.t) : res Empty_set t :=
  match traces with
  | [] => Ok stats
  | trace :: rest =>
      let? o := insert_all (offered stats) (TraceGossipInfo.offered trace) in
      let? a := insert_all (accepted stats) (TraceGossipInfo.accepted trace) in
      let? x := insert_all (transferred stats) (TraceGossipInfo.transferred trace) in
      add_traces {| offered := o; accepted := a; transferred := x; retries := retries stats; failures := failures stats |} rest
  end.

Definition with_counts (stats : t) (r f : Z) : t :=
  {| offered := offered stats; accepted := accepted stats; transferred := transferred stats; retries := r; failures := f |}.

Fixpoint add_results (stats : t) (results : list gossip_result) : res Empty_set t :=
  match results with
  | [] => Ok stats
  | Some (traces, n) :: rest =>
      let? stats := add_traces (with_counts stats (wrap64 (retries stats + n)) (failures stats)) traces in
      add_results stats rest
  | None :: rest => add_results (with_counts stats (retries stats) (wrap64 (failures stats + 1))) rest
  end.

Definition from (results : list gossip_result) : res Empty_set t := add_results default results.
End Stats.
End ContentStats.

(** The statistics of a block and of a slot: those of the last gossip of each kind. *)
Module HistoryBlockStats.
Section Stats.
Context `{T : EnrText}.

Record t := {
  block_number : Z;
  header_with_proof : option ContentStats.t;
  block_body : option ContentStats.t;
  receipts : option ContentStats.t;
  epoch_accumulator : option ContentStats.t;
}.

Definition new (block_number : Z) : t :=
  {| block_number := block_number; header_with_proof := None; block_body := None; receipts := None;
     epoch_accumulator := None |}.

Definition update (self : t) (content_key : HistoryContentKey.t) (results : ContentStats.t) : t :=
  let '{| block_number := n; header_with_proof := h; block_body := b; receipts := r; epoch_accumulator := e |} := self in
  match content_key with
  | HistoryContentKey.BlockHeaderWithProof _ =>
      {| block_number := n; header_with_proof := Some results; block_body := b; receipts := r; epoch_accumulator := e |}
  | HistoryContentKey.BlockBody _ =>
      {| block_number := n; header_with_proof := h; block_body := Some results; receipts := r; epoch_accumulator := e |}
  | HistoryContentKey.BlockReceipts _ =>
      {| block_number := n; header_with_proof := h; block_body := b; receipts := Some results; epoch_accumulator := e |}
  | HistoryContentKey.EpochAccumulator _ =>
      {| block_number := n; header_with_proof := h; block_body := b; receipts := r; epoch_accumulator := Some results |}
  end.
End Stats.
End HistoryBlockStats.

Module BeaconSlotStats.
Section Stats.
Context `{T : EnrText}.

Record t := {
  slot_number : Z;
  bootstrap : option ContentStats.t;
  update_stats : option ContentStats.t;
  finality_update : option ContentStats.t;
  optimistic_update : option ContentStats.t;
}.

Definition new (slot_number : Z) : t :=
  {| slot_number := slot_number; bootstrap := None; update_stats := None; finality_update := None;
     optimistic_update := None |}.

Definition update (self : t) (content_key : BeaconContentKey.t) (results : ContentStats.t) : t :=
  let '{| slot_number := n; bootstrap := b; update_stats := u; finality_update := f; optimistic_update := o |} := self in
  match content_key with
  | BeaconContentKey.LightClientBootstrap _ =>
      {| slot_number := n; bootstrap := Some results; update_stats := u; finality_update := f; optimistic_update := o |}
  | BeaconContentKey.LightClientUpdatesByRange _ _ =>
      {| slot_number := n; bootstrap := b; update_stats := Some results; finality_update := f; optimistic_update := o |}
  | BeaconContentKey.LightClientFinalityUpdate _ =>
      {| slot_number := n; bootstrap := b; update_stats := u; finality_update := Some results; optimistic_update := o |}
  | BeaconContentKey.LightClientOptimisticUpdate _ =>
      {| slot_number := n; bootstrap := b; update_stats := u; finality_update := f; optimistic_update := Some results |}
  end.
End Stats.
End BeaconSlotStats.

(** ** Gossip with retries *)

(** A portal client: [trace_gossip] reports the peers or fails; [recursive_find_content]
    finds content or not. *)
Class PortalClient (W K V : Type) := {
  client : Type;
  trace_gossip : client -> K -> V -> W -> option TraceGossipInfo.t * W;
  content_present : client -> K -> W -> bool * W;
}.

Definition GOSSIP_RETRY_COUNT : Z := 3.

Section Rounds.
Context {W K V : Type} `{PC : PortalClient W K V}.

Definition was_transferred (r : option TraceGossipInfo.t) : bool :=
  match r with
  | Some trace => negb (bool_decide (TraceGossipInfo.transferred trace = []))
  | None => false
  end.

(** The loop, with [n] rounds left. *)
Fixpoint gossip_rounds (n : nat) (c : client) (content_key : K) (content_value : V) (retry_count : Z)
    (traces : list TraceGossipInfo.t) (w : W) : (list TraceGossipInfo.t * Z) * W :=
  match n with
  | O => ((traces, retry_count), w)
  | S n =>
      let '(result, w) := trace_gossip c content_key content_value w in
      let traces := traces ++ option_list result in
      if was_transferred result then ((traces, retry_count), w)
      else
        let '(found, w) := content_present c content_key w in
        if found : bool then ((traces, retry_count), w)
        else gossip_rounds n c content_key content_value (retry_count + 1) traces w
  end.

Definition content_trace_gossip (c : client) (content_key : K) (content_value : V) (w : W) : gossip_result * W :=
  let '(r, w) := gossip_rounds (Z.to_nat GOSSIP_RETRY_COUNT) c content_key content_value 0 [] w in
  (Some r, w).

(** One client after the other. *)
Fixpoint gossip_results (portal_clients : list client) (content_key : K) (content_value : V) (w : W)
    : list gossip_result * W :=
  match portal_clients with
  | [] => ([], w)
  | c :: rest =>
      let '(result, w) := content_trace_gossip c content_key content_value w in
      let '(results, w) := gossip_results rest content_key content_value w in
      (result :: results, w)
  end.
End Rounds.

Section Gossip.
Context {W V : Type} `{T : EnrText}.

Definition history_trace_gossip `{PC : PortalClient W HistoryContentKey.t V} (c : client)
    (content_key : HistoryContentKey.t) (content_value : V) (w : W) : gossip_result * W :=
  content_trace_gossip c content_key content_value w.

Definition beacon_trace_gossip `{PC : PortalClient W BeaconContentKey.t V} (c : client)
    (content_key : BeaconContentKey.t) (content_value : V) (w : W) : gossip_result * W :=
  content_trace_gossip c content_key content_value w.

Definition gossip_history_content `{PC : PortalClient W HistoryContentKey.t V} {E} (portal_clients : list client)
    (content_key : HistoryContentKey.t) (content_value : V) (block_stats : HistoryBlockStats.t)
    : SM W E HistoryBlockStats.t := fun w =>
  let '(results, w) := gossip_results portal_clients content_key content_value w in
  match ContentStats.from results with
  | Ok stats => (Ok (HistoryBlockStats.update block_stats content_key stats), w)
  | _ => (Panic, w)
  end.

Definition gossip_beacon_content `{PC : PortalClient W BeaconContentKey.t V} {E} (portal_clients : list client)
    (content_key : BeaconContentKey.t) (content_value : V) (slot_stats : BeaconSlotStats.t)
    : SM W E BeaconSlotStats.t := fun w =>
  let '(results, w) := gossip_results portal_clients content_key content_value w in
  match ContentStats.from results with
  | Ok stats => (Ok (BeaconSlotStats.update slot_stats content_key stats), w)
  | _ => (Panic, w)
  end.
End Gossip.

(** The error of a call, converted by [?]. *)
Definition with_err {S E F A} (f : E -> F) (m : SM S E A) : SM S F A := fun s =>
  let '(r, s) := m s in (map_err f r, s).

(** ** What a bridge gossips *)

Section Logic.
Context {W K V : Type} `{PC : PortalClient W K V} (env : W -> W -> Prop).

(** A step of a bridge that gossips only content with [P]: another effect, a lookup, or the
    gossip of such content. *)
Inductive gossip_step (P : K -> V -> Prop) (w w' : W) : Prop :=
| step_env : env w w' -> gossip_step P w w'
| step_lookup c k r : content_present c k w = (r, w') -> gossip_step P w w'
| step_gossip c k v r : P k v -> trace_gossip c k v w = (r, w') -> gossip_step P w w'.

(** A computation that gossips only content with [P], and whose results have [Q]. *)
Definition gossips (P : K -> V -> Prop) {E A} (m : SM W E A) (Q : A -> Prop) : Prop :=
  forall w r w', m w = (r, w') -> rtc (gossip_step P) w w' /\ forall a, r = Ok a -> Q a.

Lemma steps_mono (P P' : K -> V -> Prop) w w' :
  (forall k v, P k v -> P' k v) -> rtc (gossip_step P) w w' -> rtc (gossip_step P') w w'.
Proof. intros HP. apply rtc_subrel. intros x y []; [by apply step_env|by eapply step_lookup|eapply step_gossip; eauto]. Qed.

Lemma steps_env P w w' : rtc env w w' -> rtc (gossip_step P) w w'.
Proof. apply rtc_subrel. intros x y. apply step_env. Qed.

Section Rules.
Context (P : K -> V -> Prop).

Lemma gossips_bind {E A B} (m : SM W E A) (k : A -> SM W E B) Q S :
  gossips P m Q -> (forall a, Q a -> gossips P (k a) S) -> gossips P (bind m k) S.
Proof.
  intros Hm Hk w r w' H. unfold bind in H. destruct (m w) as [r1 w1] eqn:E1.
  destruct (Hm _ _ _ E1) as [Hw1 HQ]. destruct r1 as [a| |]; [|by injection H as <- <-..].
  destruct (Hk a (HQ a eq_refl) _ _ _ H) as [Hw2 HS]. split; [by etrans|done].
Qed.

Lemma gossips_ret {E A} (a : A) (Q : A -> Prop) : Q a -> gossips P (ret (E := E) a) Q.
Proof. intros HQ w r w' [= <- <-]. split; [done|]. by intros ? [= <-]. Qed.

Lemma gossips_lift {E A} (r : res E A) (Q : A -> Prop) : (forall a, r = Ok a -> Q a) -> gossips P (lift r) Q.
Proof. by intros HQ w r' w' [= <- <-]. Qed.

Lemma gossips_err {E F A} (f : E -> F) (m : SM W E A) Q : gossips P m Q -> gossips P (with_err f m) Q.
Proof.
  intros Hm w r w' H. unfold with_err in H. destruct (m w) as [r1 w1] eqn:E1.
  destruct (Hm _ _ _ E1) as [Hw1 HQ]. injection H as <- <-. split; [done|]. intros a Ha.
  apply HQ. by destruct r1; simplify_eq/=.
Qed.

Lemma gossips_post {E A} (m : SM W E A) (Q Q' : A -> Prop) :
  gossips P m Q -> (forall w a w', m w = (Ok a, w') -> Q' a) -> gossips P m Q'.
Proof. intros Hm HQ w r w' E1. destruct (Hm _ _ _ E1) as [? _]. split; [done|]. intros a ->. eauto. Qed.

(** A computation with other effects only gossips nothing. *)
Lemma gossips_env {E A} (m : SM W E A) :
  (forall w r w', m w = (r, w') -> rtc env w w') -> gossips P m (fun _ => True).
Proof. intros Hm w r w' H%Hm. split; [|done]. by apply steps_env. Qed.

Lemma rounds_steps n c k v retry traces w r w' :
  P k v -> gossip_rounds n c k v retry traces w = (r, w') -> rtc (gossip_step P) w w'.
Proof.
  intros HP. revert retry traces w. induction n as [|n IH]; intros retry traces w; simpl; [by intros [= <- <-]|].
  destruct (trace_gossip c k v w) as [t w1] eqn:E1. assert (S1 : rtc (gossip_step P) w w1) by (by eapply rtc_once, step_gossip).
  destruct (was_transferred t); [by intros [= <- <-]|].
  destruct (content_present c k w1) as [f w2] eqn:E2.
  assert (S2 : rtc (gossip_step P) w w2) by (etrans; [exact S1|by eapply rtc_once, step_lookup]).
  destruct f; [by intros [= <- <-]|]. intros H%IH. by etrans.
Qed.

Lemma results_steps clients k v w rs w' :
  P k v -> gossip_results clients k v w = (rs, w') -> rtc (gossip_step P) w w'.
Proof.
  intros HP. revert w rs w'. induction clients as [|c cs IH]; intros w rs w1; simpl; [by intros [= <- <-]|].
  unfold content_trace_gossip. destruct (gossip_rounds _ c k v 0 [] w) as [x w2] eqn:E1.
  destruct (gossip_results cs k v w2) as [xs w3] eqn:E2. intros [= <- <-]. etrans; [by eapply rounds_steps|by eapply IH].
Qed.
End Rules.
End Logic.

Lemma gossips_history_content {W V} `{T : EnrText} `{PC : PortalClient W HistoryContentKey.t V} env (P : _ -> V -> Prop) {F}
    clients k v stats :
  P k v -> gossips env P (E := F) (gossip_history_content clients k v stats) (fun _ => True).
Proof.
  intros HP w r w' H. split; [|done]. unfold gossip_history_content in H.
  destruct (gossip_results clients k v w) as [rs w1] eqn:Er. eapply results_steps in Er; [|done..].
  by destruct (ContentStats.from rs); injection H as <- <-.
Qed.

Lemma gossips_beacon_content {W V} `{T : EnrText} `{PC : PortalClient W BeaconContentKey.t V} env (P : _ -> V -> Prop) {F}
    clients k v stats :
  P k v -> gossips env P (E := F) (gossip_beacon_content clients k v stats) (fun _ => True).
Proof.
  intros HP w r w' H. split; [|done]. unfold gossip_beacon_content in H.
  destruct (gossip_results clients k v w) as [rs w1] eqn:Er. eapply results_steps in Er; [|done..].
  by destruct (ContentStats.from rs); injection H as <- <-.
Qed.

(** ** Properties of gossip *)

Section Properties.
Context {W K V : Type} `{PC : PortalClient W K V}.

(** What a number of rounds adds to the traces and the retries. *)
Lemma gossip_rounds_spec n c k v retry traces w traces' retry' w' :
  gossip_rounds n c k v retry traces w = ((traces', retry'), w') ->
  exists added, traces' = traces ++ added /\ (length added <= n)%nat /\ retry <= retry' <= retry + Z.of_nat n
    /\ Forall (fun t => TraceGossipInfo.transferred t = []) (removelast added)
    /\ (retry' < retry + Z.of_nat n ->
          (exists t, last added = Some t /\ TraceGossipInfo.transferred t <> [])
          \/ exists w1 w2, content_present c k w1 = (true, w2)).
Proof.
  revert retry traces w. induction n as [|n IH]; intros retry traces w; simpl.
  { intros [= <- <- <-]. exists []. rewrite app_nil_r. split_and!; try done; simpl; lia. }
  destruct (trace_gossip c k v w) as [r w1]. unfold was_transferred.
  destruct (match r with Some _ => _ | None => _ end) eqn:Et.
  { intros [= <- <- <-]. exists (option_list r). destruct r as [t|]; [|done]. simpl.
    apply negb_true_iff, bool_decide_eq_false in Et. split_and!; try done; try lia.
    intros _. left. by exists t. }
  destruct (content_present c k w1) as [[] w2] eqn:Ep.
  { intros [= <- <- <-]. exists (option_list r). destruct r; simpl; split_and!; try done; try lia; eauto. }
  intros (added & -> & Hl & Hr & Hf & Ht)%IH. exists (option_list r ++ added). rewrite app_assoc.
  destruct r as [t|]; simpl in *; [|split_and!; try done; try lia; intros; apply Ht; lia].
  apply negb_false_iff, bool_decide_eq_true in Et. destruct added as [|t' added].
  - simpl. split_and!; try done; try lia. intros Hlt. destruct Ht as [(t' & E' & _)|]; [lia|discriminate E'|by right].
  - split_and!; [done|simpl in *; lia|lia|lia|by constructor|]. intros Hlt. apply Ht. lia.
Qed.
End Properties.

(** Gossip is bounded and stops at the first success: at most three requests, of which
    only the last may have reached a peer, and fewer than three retries are reported only
    if a peer took the content or a lookup found it. *)
Theorem trace_gossip_bounded {W K V} `{PC : PortalClient W K V} c k v w traces retries w' :
  content_trace_gossip c k v w = (Some (traces, retries), w') ->
  (length traces <= 3)%nat /\ 0 <= retries <= 3
  /\ Forall (fun t => TraceGossipInfo.transferred t = []) (removelast traces)
  /\ (retries < 3 ->
        (exists t, last traces = Some t /\ TraceGossipInfo.transferred t <> [])
        \/ exists w1 w2, content_present c k w1 = (true, w2)).
Proof.
  unfold content_trace_gossip. destruct (gossip_rounds _ _ _ _ _ _ _) as [[ts rs] w1] eqn:E. intros [= <- <- <-].
  destruct (gossip_rounds_spec _ _ _ _ _ _ _ _ _ _ E) as (added & -> & Hl & Hr & Hf & Ht). simpl in *.
  change (Z.of_nat (Z.to_nat GOSSIP_RETRY_COUNT)) with 3 in *. split_and!; [done|lia|lia|done|]. intros. apply Ht. lia.
Qed.

(** ** Properties of statistics *)

Section StatsProperties.
Context `{T : EnrText}.

(** [s'] is [s] with the records of some texts. *)
Definition grows (s s' : list Enr) (texts : list bytes) : Prop :=
  (NoDup s -> NoDup s') /\ forall e, e ∈ s' <-> e ∈ s \/ exists x, x ∈ texts /\ enr_from_str x = Some e.

Lemma grows_refl s : grows s s [].
Proof. split; [done|]. set_solver. Qed.

Lemma grows_trans s s1 s2 t1 t2 : grows s s1 t1 -> grows s1 s2 t2 -> grows s s2 (t1 ++ t2).
Proof. intros [N1 M1] [N2 M2]. split; [auto|]. intros e. rewrite M2, M1. set_solver. Qed.

Lemma fold_insert_spec enrs s :
  (NoDup s -> NoDup (fold_left ContentStats.insert enrs s))
  /\ forall e, e ∈ fold_left ContentStats.insert enrs s <-> e ∈ s \/ e ∈ enrs.
Proof.
  revert s. induction enrs as [|x enrs IH]; intros s; simpl; [split; [done|set_solver]|].
  destruct (IH (ContentStats.insert s x)) as [Hn Hm]. unfold ContentStats.insert in *.
  destruct (decide (x ∈ s)) as [Hx|Hx]; (split; [intros Hs; apply Hn|intros e; rewrite Hm]); [done|set_solver| |set_solver].
  apply NoDup_app. split_and!; [done|set_solver|apply NoDup_singleton].
Qed.

Definition parses (x : bytes) : Prop := is_Some (enr_from_str x).

Lemma insert_all_ok s texts :
  Forall parses texts -> exists s', ContentStats.insert_all s texts = Ok s' /\ grows s s' texts.
Proof.
  intros Hp. unfold ContentStats.insert_all.
  assert (exists enrs, res_all (E := Empty_set) (fun e => match enr_from_str e with Some e => Ok e | None => Panic end) texts
            = Ok enrs /\ forall e, e ∈ enrs <-> exists x, x ∈ texts /\ enr_from_str x = Some e) as (enrs & -> & He).
  { induction Hp as [|x texts [e Hx] _ (enrs & Hr & He)]; simpl; [exists []; split; [done|set_solver]|].
    rewrite Hx, Hr. exists (e :: enrs). split; [done|]. intros e'. rewrite elem_of_cons, He. split.
    - intros [->|(y & Hy & Ey)]; [exists x|exists y]; (split; [set_solver|done]).
    - intros (y & [->|Hy]%elem_of_cons & Ey); [left; congruence|right; eauto]. }
  eexists. split; [done|]. destruct (fold_insert_spec enrs s) as [Hn Hm]. split; [done|]. intros e. by rewrite Hm, He.
Qed.

Definition trace_texts (t : TraceGossipInfo.t) : list bytes :=
  TraceGossipInfo.offered t ++ TraceGossipInfo.accepted t ++ TraceGossipInfo.transferred t.

(** [s'] is [s] with the records of some traces. *)
Record stats_grow (s s' : ContentStats.t) (traces : list TraceGossipInfo.t) : Prop := {
  grow_offered : grows (ContentStats.offered s) (ContentStats.offered s') (traces ≫= TraceGossipInfo.offered);
  grow_accepted : grows (ContentStats.accepted s) (ContentStats.accepted s') (traces ≫= TraceGossipInfo.accepted);
  grow_transferred : grows (ContentStats.transferred s) (ContentStats.transferred s') (traces ≫= TraceGossipInfo.transferred);
}.

Lemma stats_grow_trans s s1 s2 t1 t2 : stats_grow s s1 t1 -> stats_grow s1 s2 t2 -> stats_grow s s2 (t1 ++ t2).
Proof. intros [] []. constructor; rewrite bind_app; by eapply grows_trans. Qed.

Lemma add_traces_ok s traces :
  Forall (fun t => Forall parses (trace_texts t)) traces ->
  exists s', ContentStats.add_traces s traces = Ok s' /\ stats_grow s s' traces
    /\ ContentStats.retries s' = ContentStats.retries s /\ ContentStats.failures s' = ContentStats.failures s.
Proof.
  intros Hp. revert s. induction Hp as [|t traces Ht _ IH]; intros s; simpl.
  { exists s. split_and!; try done. constructor; apply grows_refl. }
  unfold trace_texts in Ht. apply Forall_app in Ht as [Ho [Ha Hx]%Forall_app].
  destruct (insert_all_ok (ContentStats.offered s) _ Ho) as (o & -> & Go).
  destruct (insert_all_ok (ContentStats.accepted s) _ Ha) as (a & -> & Ga).
  destruct (insert_all_ok (ContentStats.transferred s) _ Hx) as (x & -> & Gx).
  edestruct IH as (s' & -> & Hs' & Hr & Hf). exists s'. split_and!; [done| |by rewrite Hr|by rewrite Hf].
  change (t :: traces) with ([t] ++ traces). eapply stats_grow_trans; [|exact Hs'].
  constructor; simpl; by rewrite app_nil_r.
Qed.

(** The traces, retries and failures of several clients. *)
Definition result_traces (results : list gossip_result) : list TraceGossipInfo.t :=
  results ≫= (fun r => match r with Some (traces, _) => traces | None => [] end).
Definition result_retries (results : list gossip_result) : Z :=
  foldr (fun r acc => match r with Some (_, n) => n + acc | None => acc end) 0 results.
Definition result_failures (results : list gossip_result) : Z :=
  foldr (fun r acc => match r with Some _ => acc | None => 1 + acc end) 0 results.

Lemma add_results_ok s results :
  Forall (fun t => Forall parses (trace_texts t)) (result_traces results) ->
  is_u64 (ContentStats.retries s) -> is_u64 (ContentStats.failures s) ->
  exists s', ContentStats.add_results s results = Ok s' /\ stats_grow s s' (result_traces results)
    /\ ContentStats.retries s' = wrap64 (ContentStats.retries s + result_retries results)
    /\ ContentStats.failures s' = wrap64 (ContentStats.failures s + result_failures results).
Proof.
  revert s. induction results as [|r results IH]; intros s Hp Hr Hf; cbn [ContentStats.add_results].
  { exists s. split_and!; [done|constructor; apply grows_refl|cbn; rewrite Z.add_0_r; symmetry; by apply wrap64_small..]. }
  destruct r as [[traces n]|]; cbn in *; fold (result_traces results) in *.
  - apply Forall_app in Hp as [Hp1 Hp2].
    edestruct add_traces_ok as (s1 & -> & G1 & R1 & F1); [exact Hp1|].
    simpl in R1, F1. edestruct (IH s1) as (s' & -> & G & R & F); [done|rewrite R1; apply wrap64_range|by rewrite F1|].
    exists s'. split_and!; [done|by eapply stats_grow_trans in G; [|destruct G1; constructor]| |by rewrite F, F1].
    rewrite R, R1. unfold wrap64. rewrite Zplus_mod_idemp_l. f_equal. unfold result_retries. cbn. lia.
  - edestruct (IH (ContentStats.with_counts s (ContentStats.retries s) (wrap64 (ContentStats.failures s + 1))))
      as (s' & -> & G & R & F); [done|done|apply wrap64_range|].
    exists s'. split_and!; [done|by destruct G; constructor|done|]. rewrite F. simpl. unfold wrap64.
    rewrite Zplus_mod_idemp_l. f_equal. unfold result_failures. cbn. lia.
Qed.

Lemma new_texts (traces : list TraceGossipInfo.t) f (P : bytes -> Prop) :
  (exists x, x ∈ traces ≫= f /\ P x) <-> exists t x, t ∈ traces /\ x ∈ f t /\ P x.
Proof.
  split.
  - intros (x & (t & Hx & Ht)%list_elem_of_bind & HP). by exists t, x.
  - intros (t & x & Ht & Hx & HP). exists x. split; [|done]. apply list_elem_of_bind. by exists t.
Qed.

(** The statistics of a content: each record that some client reports as offered, accepted
    or transferred is counted once, retries are added up and failed clients counted. *)
Theorem content_stats_spec results :
  Forall (fun t => Forall parses (trace_texts t)) (result_traces results) ->
  exists s, ContentStats.from results = Ok s
    /\ NoDup (ContentStats.offered s) /\ NoDup (ContentStats.accepted s) /\ NoDup (ContentStats.transferred s)
    /\ (forall e, e ∈ ContentStats.offered s <->
          exists t x, t ∈ result_traces results /\ x ∈ TraceGossipInfo.offered t /\ enr_from_str x = Some e)
    /\ (forall e, e ∈ ContentStats.transferred s <->
          exists t x, t ∈ result_traces results /\ x ∈ TraceGossipInfo.transferred t /\ enr_from_str x = Some e)
    /\ ContentStats.retries s = wrap64 (result_retries results)
    /\ ContentStats.failures s = wrap64 (result_failures results).
Proof.
  intros Hp. destruct (add_results_ok ContentStats.default results Hp) as (s & Hs & [[N1 M1] [N2 _] [N3 M3]] & R & F); [done..|].
  exists s. simpl in *. split_and!; [done|by apply N1, NoDup_nil_2|by apply N2, NoDup_nil_2|by apply N3, NoDup_nil_2| | |done..].
  - intros e. rewrite M1, new_texts. split; [by intros [?%not_elem_of_nil|]|by right].
  - intros e. rewrite M3, new_texts. split; [by intros [?%not_elem_of_nil|]|by right].
Qed.
End StatsProperties.

(** ** Properties of modes *)

Lemma print_digits_ascii n z : Forall (fun c => 0x30 <= byte_to_Z c <= 0x39) (print_digits 10 n z).
Proof.
  revert z. induction n as [|n IH]; intros z; [constructor|]. simpl. apply Forall_app. split; [apply IH|].
  apply Forall_singleton. unfold digit_char. pose proof (Z.mod_pos_bound z 10 ltac:(lia)).
  rewrite (proj2 (Z.ltb_lt _ _)) by lia. rewrite byte_to_of_Z, Z.mod_small by lia. lia.
Qed.

Lemma get_to_first c s :
  Forall (fun c => 0x30 <= byte_to_Z c <= 0x39) s -> get_to (c :: s) 1 = Some [c].
Proof.
  intros Hs. unfold get_to, is_char_boundary. simpl. destruct Hs as [|d s Hd _]; [done|]. simpl.
  rewrite (proj2 (Z.leb_gt _ _)) by lia. done.
Qed.

Lemma split_on_none c s : Forall (fun x => x <> c) s -> split_on c s = [s].
Proof. induction 1 as [|x s Hx _ IH]; simpl; [done|]. by rewrite decide_False, IH. Qed.

Lemma split_on_app c a b : Forall (fun x => x <> c) a -> split_on c (a ++ c :: b) = a :: split_on c b.
Proof. induction 1 as [|x a Hx _ IH]; simpl; [by rewrite decide_True|]. by rewrite decide_False, IH. Qed.

Lemma digits_no_dash n z : Forall (fun x => x <> x2d) (print_digits 10 n z).
Proof. eapply Forall_impl; [apply print_digits_ascii|]. intros c Hc ->. change (byte_to_Z x2d) with 45 in Hc. lia. Qed.

(** A number with [n] digits. *)
Definition decimal (n : nat) (z : Z) : Prop := (0 < n)%nat /\ 0 <= z < 10 ^ Z.of_nat n /\ is_u64 z.

Lemma parse_u64_print n z : decimal n z -> parse_u64 (print_digits 10 n z) = Some z.
Proof. intros (Hn & Hz & Hu). apply from_str_radix_print; [lia|done|done|apply Hu]. Qed.

Lemma mode_type_number (c : byte) n z :
  decimal n z -> c = x62 \/ c = x65 ->
  ModeType.from_str (c :: print_digits 10 n z) = Ok (if decide (c = x62) then ModeType.Block z else ModeType.Epoch z).
Proof.
  intros Hd Hc. unfold ModeType.from_str. rewrite get_to_first by apply print_digits_ascii.
  change (drop 1 (c :: ?s)) with s. rewrite parse_u64_print by done. by destruct Hc as [->| ->].
Qed.

Lemma mode_type_range n a m b :
  decimal n a -> decimal m b -> a <= b ->
  ModeType.from_str (x72 :: print_digits 10 n a ++ x2d :: print_digits 10 m b) = Ok (ModeType.BlockRange a b).
Proof.
  intros Ha Hb Hab. unfold ModeType.from_str.
  assert (get_to (x72 :: print_digits 10 n a ++ x2d :: print_digits 10 m b) 1 = Some [x72]) as ->.
  { unfold get_to, is_char_boundary. simpl. pose proof (print_digits_ascii n a) as Hd.
    destruct (print_digits 10 n a) as [|c s]; simpl; [done|]. apply Forall_cons in Hd as [Hd _].
    by rewrite (proj2 (Z.leb_gt _ _)) by lia. }
  change (drop 1 (x72 :: ?s)) with s. rewrite split_on_app, split_on_none by apply digits_no_dash.
  cbn [res_all]. rewrite !parse_u64_print by done. by rewrite (proj2 (Z.ltb_ge b a)).
Qed.

(** The modes that are documented are understood, with any number that fits into 64 bits;
    an empty type and a range that does not consist of numbers panic. *)
Theorem modes_parse n z m b :
  decimal n z -> decimal m b -> z <= b ->
  let d := print_digits 10 n z in
  let d' := print_digits 10 m b in
  BridgeMode.from_str (str "latest") = Ok BridgeMode.Latest
  /\ BridgeMode.from_str (str "backfill:e" ++ d) = Ok (BridgeMode.Backfill (ModeType.Epoch z))
  /\ BridgeMode.from_str (str "backfill:b" ++ d) = Ok (BridgeMode.Backfill (ModeType.Block z))
  /\ BridgeMode.from_str (str "single:e" ++ d) = Ok (BridgeMode.Single (ModeType.Epoch z))
  /\ BridgeMode.from_str (str "single:b" ++ d) = Ok (BridgeMode.Single (ModeType.Block z))
  /\ BridgeMode.from_str (str "backfill:r" ++ d ++ str "-" ++ d') = Ok (BridgeMode.Backfill (ModeType.BlockRange z b))
  /\ BridgeMode.from_str (str "backfill:") = Panic
  /\ BridgeMode.from_str (str "single:rlatest") = Panic.
Proof.
  intros Hz Hb Hzb d d'. split_and!; [vm_compute; reflexivity| | | | | |vm_compute; reflexivity..].
  - change (BridgeMode.from_str (str "backfill:e" ++ d)) with (let? m := ModeType.from_str (x65 :: d) in Ok (BridgeMode.Backfill m)).
    unfold d. by rewrite mode_type_number by auto.
  - change (BridgeMode.from_str (str "backfill:b" ++ d)) with (let? m := ModeType.from_str (x62 :: d) in Ok (BridgeMode.Backfill m)).
    unfold d. by rewrite mode_type_number by auto.
  - change (BridgeMode.from_str (str "single:e" ++ d)) with (let? m := ModeType.from_str (x65 :: d) in Ok (BridgeMode.Single m)).
    unfold d. by rewrite mode_type_number by auto.
  - change (BridgeMode.from_str (str "single:b" ++ d)) with (let? m := ModeType.from_str (x62 :: d) in Ok (BridgeMode.Single m)).
    unfold d. by rewrite mode_type_number by auto.
  - change (BridgeMode.from_str (str "backfill:r" ++ d ++ str "-" ++ d'))
      with (let? m := ModeType.from_str (x72 :: d ++ x2d :: d') in Ok (BridgeMode.Backfill m)).
    unfold d, d'. by rewrite mode_type_range.
Qed.

Lemma modes_parse_witness :
  BridgeMode.from_str (str "backfill:b1000") = Ok (BridgeMode.Backfill (ModeType.Block 1000)).
Proof.
  assert (H : decimal 4 1000) by (split; [lia|split; [split; [lia|reflexivity]|split; [lia|reflexivity]]]).
  exact (proj1 (proj2 (proj2 (modes_parse 4 1000 4 1000 H H ltac:(lia))))).
Defined.
