(* ===== verification/ConsensusJson.v ===== *)
(** * JSON of light client data

    The JSON forms of the light client objects of [ethportal-api/src/types/consensus] and
    the [ConsensusRpc] over HTTP, [light-client/src/consensus/rpc/nimbus_rpc.rs].  Fields of
    an object are read in the order of the object, as the derived [Deserialize] does, since
    reading a signature can panic.  Types of other crates (hashes, bit vectors, vectors of
    fixed length, integers that may be strings, prefixed hex) are the classes [SerdeTypes]
    and [ConsensusSerde]; the HTTP client is [HttpGet]. *)

From Stdlib Require Import String.
From S2P Require Import Prelude.
From S2P Require Import Hex.
From S2P Require Import LightClientTypes.
From S2P Require Import ConsensusClient.
From S2P Require Import ChainOfTrust.
From S2P Require Import ExecutionTyping.
From S2P Require Import ExecutionJson.

#[local] Open Scope list_scope.

(** ** Types of other crates *)

Class ConsensusSerde := {
  (** [as_u64] *)
  as_u64 : Value -> res JsonError Z;
  (** [BitVector<N>] *)
  bits_of_json : nat -> Value -> res JsonError (list bool);
  (** [FixedVector<T, N>] *)
  vector_of_json {A} : nat -> (Value -> res JsonError A) -> Value -> res JsonError (list A);
  (** [FixedVector::from], for bytes: whatever the length *)
  vector_from : nat -> bytes -> bytes;
  (** [PrefixedHexVisitor] *)
  prefixed_hex : Value -> res JsonError bytes;
  (** [U256::from_dec_str] *)
  from_dec_str : bytes -> option Z;
}.

(** Their result types, and that what is well formed is read. *)
Class ConsensusSerdeOk `{X : HexLib} (S : ConsensusSerde) : Prop := {
  as_u64_range v z : as_u64 v = Ok z -> is_u64 z;
  vector_of_json_elements {A} n (dec : Value -> res JsonError A) v l :
    vector_of_json n dec v = Ok l -> Forall (fun a => exists v, dec v = Ok a) l;
  vector_from_length n b : length (vector_from n b) = n;
  vector_from_id n b : length b = n -> vector_from n b = b;
}.

(** ** Structs *)

(** [#[serde(deny_unknown_fields)]]: the entries in order, all of them known. *)
Fixpoint scan_strict (known : list (bytes * (Value -> res JsonError unit))) (o : list (bytes * Value)) : res JsonError unit :=
  match o with
  | [] => Ok tt
  | (k, v) :: o =>
      match assoc known k with
      | Some dec => let? _ := dec v in scan_strict known o
      | None => Err (UnknownField k)
      end
  end.

(** The fields of a struct, after the entries of an object have been read in order. *)
Definition struct_scanned (strict : bool) (known : list (bytes * (Value -> res JsonError unit))) (v : Value)
    : res JsonError fields :=
  let? fs := struct_of v in
  match fs with
  | ByName o => let? _ := (if strict then scan_strict known o else scan known o) in Ok fs
  | ByPosition _ => Ok fs
  end.

Section Types.
Context `{X : HexLib} `{ST : SerdeTypes} `{CS : ConsensusSerde}.

Definition h256 : Value -> res JsonError bytes := fixed_of_json 32.
Definition h160 : Value -> res JsonError bytes := fixed_of_json 20.

Definition beacon_header_of_json (v : Value) : res JsonError BeaconBlockHeader.t :=
  let? fs := struct_scanned false
    [(str "slot", forget as_u64); (str "proposer_index", forget as_u64); (str "parent_root", forget h256);
     (str "state_root", forget h256); (str "body_root", forget h256)] v in
  let? slot := field fs 0 (str "slot") as_u64 in
  let? proposer_index := field fs 1 (str "proposer_index") as_u64 in
  let? parent_root := field fs 2 (str "parent_root") h256 in
  let? state_root := field fs 3 (str "state_root") h256 in
  let? body_root := field fs 4 (str "body_root") h256 in
  finish fs 5 (BeaconBlockHeader.mk slot proposer_index parent_root state_root body_root).

(** [PubKey::deserialize]: bytes of any length are made 48 bytes. *)
Definition pubkey_of_json (v : Value) : res JsonError bytes :=
  let? result := str_of_value v in
  let? result := map_err (fun _ => Custom) (hex_decode result) in
  Ok (vector_from 48 result).

(** [BlsSignature::deserialize]: [copy_from_slice] panics unless there are 96 bytes. *)
Definition signature_of_json (v : Value) : res JsonError bytes :=
  let? result := str_of_value v in
  let? result := map_err (fun _ => Custom) (hex_decode result) in
  if (length result =? 96)%nat then Ok result else Panic.

Definition sync_committee_of_json (v : Value) : res JsonError SyncCommittee.t :=
  let? fs := struct_scanned false
    [(str "pubkeys", forget (vector_of_json 512 pubkey_of_json)); (str "aggregate_pubkey", forget pubkey_of_json)] v in
  let? pubkeys := field fs 0 (str "pubkeys") (vector_of_json 512 pubkey_of_json) in
  let? aggregate_pubkey := field fs 1 (str "aggregate_pubkey") pubkey_of_json in
  finish fs 2 (SyncCommittee.mk pubkeys aggregate_pubkey).

Definition sync_aggregate_of_json (v : Value) : res JsonError SyncAggregate :=
  let? fs := struct_scanned false
    [(str "sync_committee_bits", forget (bits_of_json 512)); (str "sync_committee_signature", forget signature_of_json)] v in
  let? bits := field fs 0 (str "sync_committee_bits") (bits_of_json 512) in
  let? signature := field fs 1 (str "sync_committee_signature") signature_of_json in
  finish fs 2 {| sync_committee_bits := bits; sync_committee_signature := signature |}.

(** [hex_fixed_vec], [hex_var_list] and [de_number_to_u256]. *)
Definition hex_fixed_vec (n : nat) (v : Value) : res JsonError bytes :=
  let? b := prefixed_hex v in
  if (length b =? n)%nat then Ok b else Err Custom.
Definition hex_var_list (n : nat) (v : Value) : res JsonError bytes :=
  let? b := prefixed_hex v in
  if (length b <=? n)%nat then Ok b else Err Custom.
Definition de_number_to_u256 (v : Value) : res JsonError Z :=
  match v with
  | Str s => ok_or (from_dec_str s) Custom
  | _ => Err Custom
  end.

(** Nothing that a payload header reads panics, so its entries need no order. *)
Definition payload_header_of_json (v : Value) : res JsonError ExecutionPayloadHeaderCapella :=
  let? fs := struct_of v in
  let? parent_hash := field fs 0 (str "parent_hash") h256 in
  let? fee_recipient := field fs 1 (str "fee_recipient") h160 in
  let? state_root := field fs 2 (str "state_root") h256 in
  let? receipts_root := field fs 3 (str "receipts_root") h256 in
  let? logs_bloom := field fs 4 (str "logs_bloom") (hex_fixed_vec 256) in
  let? prev_randao := field fs 5 (str "prev_randao") h256 in
  let? block_number := field fs 6 (str "block_number") as_u64 in
  let? gas_limit := field fs 7 (str "gas_limit") as_u64 in
  let? gas_used := field fs 8 (str "gas_used") as_u64 in
  let? timestamp := field fs 9 (str "timestamp") as_u64 in
  let? extra_data := field fs 10 (str "extra_data") (hex_var_list 32) in
  let? base_fee_per_gas := field fs 11 (str "base_fee_per_gas") de_number_to_u256 in
  let? block_hash := field fs 12 (str "block_hash") h256 in
  let? transactions_root := field fs 13 (str "transactions_root") h256 in
  let? withdrawals_root := field fs 14 (str "withdrawals_root") h256 in
  finish fs 15 {|
    payload_header := {|
      parent_hash := parent_hash; fee_recipient := fee_recipient; exec_state_root := state_root;
      receipts_root := receipts_root; logs_bloom := logs_bloom; prev_randao := prev_randao; block_number := block_number;
      gas_limit := gas_limit; gas_used := gas_used; timestamp := timestamp; extra_data := extra_data;
      base_fee_per_gas := base_fee_per_gas; exec_block_hash := block_hash; transactions_root := transactions_root |};
    withdrawals_root := withdrawals_root |}.

Definition lc_header_of_json (v : Value) : res JsonError LightClientHeaderCapella :=
  let? fs := struct_scanned true
    [(str "beacon", forget beacon_header_of_json); (str "execution", forget payload_header_of_json);
     (str "execution_branch", forget (vector_of_json 4 h256))] v in
  let? beacon := field fs 0 (str "beacon") beacon_header_of_json in
  let? execution := field fs 1 (str "execution") payload_header_of_json in
  let? execution_branch := field fs 2 (str "execution_branch") (vector_of_json 4 h256) in
  finish fs 3 {| beacon := beacon; execution := execution; execution_branch := execution_branch |}.

Definition bootstrap_of_json (v : Value) : res JsonError LightClientBootstrapCapella :=
  let? fs := struct_scanned true
    [(str "header", forget lc_header_of_json); (str "current_sync_committee", forget sync_committee_of_json);
     (str "current_sync_committee_branch", forget (vector_of_json 5 h256))] v in
  let? header := field fs 0 (str "header") lc_header_of_json in
  let? committee := field fs 1 (str "current_sync_committee") sync_committee_of_json in
  let? branch := field fs 2 (str "current_sync_committee_branch") (vector_of_json 5 h256) in
  finish fs 3 (LightClientBootstrap.mk header committee branch).

Definition update_of_json (v : Value) : res JsonError LightClientUpdateCapella :=
  let? fs := struct_scanned true
    [(str "attested_header", forget lc_header_of_json); (str "next_sync_committee", forget sync_committee_of_json);
     (str "next_sync_committee_branch", forget (vector_of_json 5 h256)); (str "finalized_header", forget lc_header_of_json);
     (str "finality_branch", forget (vector_of_json 6 h256)); (str "sync_aggregate", forget sync_aggregate_of_json);
     (str "signature_slot", forget as_u64)] v in
  let? attested_header := field fs 0 (str "attested_header") lc_header_of_json in
  let? next_sync_committee := field fs 1 (str "next_sync_committee") sync_committee_of_json in
  let? next_sync_committee_branch := field fs 2 (str "next_sync_committee_branch") (vector_of_json 5 h256) in
  let? finalized_header := field fs 3 (str "finalized_header") lc_header_of_json in
  let? finality_branch := field fs 4 (str "finality_branch") (vector_of_json 6 h256) in
  let? sync_aggregate := field fs 5 (str "sync_aggregate") sync_aggregate_of_json in
  let? signature_slot := field fs 6 (str "signature_slot") as_u64 in
  finish fs 7 (LightClientUpdate.mk attested_header next_sync_committee next_sync_committee_branch finalized_header
    finality_branch sync_aggregate signature_slot).

Definition finality_update_of_json (v : Value) : res JsonError LightClientFinalityUpdateCapella :=
  let? fs := struct_scanned true
    [(str "attested_header", forget lc_header_of_json); (str "finalized_header", forget lc_header_of_json);
     (str "finality_branch", forget (vector_of_json 6 h256)); (str "sync_aggregate", forget sync_aggregate_of_json);
     (str "signature_slot", forget as_u64)] v in
  let? attested_header := field fs 0 (str "attested_header") lc_header_of_json in
  let? finalized_header := field fs 1 (str "finalized_header") lc_header_of_json in
  let? finality_branch := field fs 2 (str "finality_branch") (vector_of_json 6 h256) in
  let? sync_aggregate := field fs 3 (str "sync_aggregate") sync_aggregate_of_json in
  let? signature_slot := field fs 4 (str "signature_slot") as_u64 in
  finish fs 5 (LightClientFinalityUpdate.mk attested_header finalized_header finality_branch sync_aggregate signature_slot).

Definition optimistic_update_of_json (v : Value) : res JsonError LightClientOptimisticUpdateCapella :=
  let? fs := struct_scanned true
    [(str "attested_header", forget lc_header_of_json); (str "sync_aggregate", forget sync_aggregate_of_json);
     (str "signature_slot", forget as_u64)] v in
  let? attested_header := field fs 0 (str "attested_header") lc_header_of_json in
  let? sync_aggregate := field fs 1 (str "sync_aggregate") sync_aggregate_of_json in
  let? signature_slot := field fs 2 (str "signature_slot") as_u64 in
  finish fs 3 (LightClientOptimisticUpdate.mk attested_header sync_aggregate signature_slot).
End Types.

(** ** The RPC over HTTP *)

(** [u64::to_string]: at most twenty digits. *)
Fixpoint show_digits (fuel : nat) (z : Z) : bytes :=
  match fuel with
  | O => []
  | S fuel => (if z <? 10 then [] else show_digits fuel (z / 10)) ++ [digit_char (z mod 10)]
  end.
Definition show_u64 (z : Z) : bytes := show_digits 20 z.

(** A request for a URL: the JSON of the response, unless the request fails or its body is
    not JSON; and the clock. *)
Class HttpGet (W : Type) := {
  http_get : bytes -> W -> option Value * W;
  http_clock : W -> Z * W;
}.

Module NimbusRpc.
Section Operations.
Context `{X : HexLib} `{ST : SerdeTypes} `{CS : ConsensusSerde} {W : Type} `{H : HttpGet W}.

Record t := { rpc : bytes }.

Definition new (rpc : bytes) : t := {| rpc := rpc |}.

(** Sends a request and reads the JSON of its response. *)
Definition request {A} (url : bytes) (dec : Value -> res JsonError A) (w : W) : res anyhow A * W :=
  let '(r, w) := http_get url w in
  (match r with Some v => map_err (fun _ => RpcFailed) (dec v) | None => Err RpcFailed end, w).

(** The structs with a single field that is read. *)
Definition data_of_json {A} (dec : Value -> res JsonError A) (v : Value) : res JsonError A :=
  let? fs := struct_of v in
  let? data := field fs 0 (str "data") dec in
  finish fs 1 data.

(** [u64_deserialize] of [consensus/types.rs], and [Spec]. *)
Definition u64_deserialize (v : Value) : res JsonError Z :=
  let? val := str_of_value v in
  ok_or (from_str_radix 64 10 val) Custom.
Definition spec_of_json (v : Value) : res JsonError Z :=
  let? fs := struct_of v in
  let? chain_id := field fs 0 (str "DEPOSIT_NETWORK_ID") u64_deserialize in
  finish fs 1 chain_id.

Definition get_bootstrap (self : t) (block_root : bytes) : W -> res anyhow LightClientBootstrapCapella * W :=
  let root_hex := hex_digits block_root in
  let req := rpc self ++ str "/eth/v1/beacon/light_client/bootstrap/0x" ++ root_hex in
  request req (data_of_json bootstrap_of_json).

Definition get_updates (self : t) (period count : Z) : W -> res anyhow (list LightClientUpdateCapella) * W :=
  let count := Z.min count MAX_REQUEST_LIGHT_CLIENT_UPDATES in
  let req := rpc self ++ str "/eth/v1/beacon/light_client/updates?start_period=" ++ show_u64 period
             ++ str "&count=" ++ show_u64 count in
  request req (vec_of_value (data_of_json update_of_json)).

Definition get_finality_update (self : t) : W -> res anyhow LightClientFinalityUpdateCapella * W :=
  request (rpc self ++ str "/eth/v1/beacon/light_client/finality_update") (data_of_json finality_update_of_json).

Definition get_optimistic_update (self : t) : W -> res anyhow LightClientOptimisticUpdateCapella * W :=
  request (rpc self ++ str "/eth/v1/beacon/light_client/optimistic_update") (data_of_json optimistic_update_of_json).

Definition chain_id (self : t) : W -> res anyhow Z * W :=
  request (rpc self ++ str "/eth/v1/config/spec") (data_of_json spec_of_json).

Definition nimbus_rpc (self : t) : ConsensusRpc W := {|
  rpc_name := str "nimbus";
  ConsensusClient.get_bootstrap := get_bootstrap self;
  ConsensusClient.get_updates := get_updates self;
  ConsensusClient.get_finality_update := get_finality_update self;
  ConsensusClient.get_optimistic_update := get_optimistic_update self;
  rpc_chain_id := chain_id self;
  clock := http_clock;
|}.
End Operations.
End NimbusRpc.

(** ** Light client data is well typed *)

Definition beacon_header_typed (h : BeaconBlockHeader.t) : Prop :=
  is_u64 (BeaconBlockHeader.slot h) /\ is_u64 (BeaconBlockHeader.proposer_index h)
  /\ length (BeaconBlockHeader.parent_root h) = 32%nat /\ length (BeaconBlockHeader.state_root h) = 32%nat
  /\ length (BeaconBlockHeader.body_root h) = 32%nat.

Definition branch_typed (branch : list bytes) : Prop := Forall (fun b => length b = 32%nat) branch.

Definition committee_typed (c : SyncCommittee.t) : Prop :=
  Forall (fun k => length k = 48%nat) (SyncCommittee.pubkeys c) /\ length (SyncCommittee.aggregate_pubkey c) = 48%nat.

Definition lc_header_typed (h : LightClientHeaderCapella) : Prop :=
  beacon_header_typed (beacon h) /\ branch_typed (execution_branch h).

Definition aggregate_typed (a : SyncAggregate) : Prop := length (sync_committee_signature a) = 96%nat.

Definition bootstrap_typed (b : LightClientBootstrapCapella) : Prop :=
  lc_header_typed (LightClientBootstrap.header b) /\ committee_typed (LightClientBootstrap.current_sync_committee b)
  /\ branch_typed (LightClientBootstrap.current_sync_committee_branch b).

Definition update_typed (u : LightClientUpdateCapella) : Prop :=
  lc_header_typed (LightClientUpdate.attested_header u) /\ committee_typed (LightClientUpdate.next_sync_committee u)
  /\ branch_typed (LightClientUpdate.next_sync_committee_branch u) /\ lc_header_typed (LightClientUpdate.finalized_header u)
  /\ branch_typed (LightClientUpdate.finality_branch u) /\ aggregate_typed (LightClientUpdate.sync_aggregate u)
  /\ is_u64 (LightClientUpdate.signature_slot u).

Definition finality_typed (u : LightClientFinalityUpdateCapella) : Prop :=
  lc_header_typed (LightClientFinalityUpdate.attested_header u) /\ lc_header_typed (LightClientFinalityUpdate.finalized_header u)
  /\ branch_typed (LightClientFinalityUpdate.finality_branch u) /\ aggregate_typed (LightClientFinalityUpdate.sync_aggregate u)
  /\ is_u64 (LightClientFinalityUpdate.signature_slot u).

Definition optimistic_typed (u : LightClientOptimisticUpdateCapella) : Prop :=
  lc_header_typed (LightClientOptimisticUpdate.attested_header u)
  /\ aggregate_typed (LightClientOptimisticUpdate.sync_aggregate u)
  /\ is_u64 (LightClientOptimisticUpdate.signature_slot u).

Section Typing.
Context {X : HexLib} {ST : SerdeTypes} `{!SerdeTyped ST} {CS : ConsensusSerde} `{!ConsensusSerdeOk CS}.

Lemma typed_h256 v : typed (fun b => length b = 32%nat) (h256 v).
Proof. apply typed_json_fixed. Qed.

Lemma typed_as_u64 v : typed is_u64 (as_u64 v).
Proof. intros z. apply as_u64_range. Qed.

Lemma typed_vector {A} (P : A -> Prop) n dec v : (forall v, typed P (dec v)) -> typed (Forall P) (vector_of_json n dec v).
Proof.
  intros Hd l Hl. apply vector_of_json_elements in Hl. eapply Forall_impl; [exact Hl|].
  intros a [v' Hv]. by eapply Hd.
Qed.

Lemma typed_pubkey v : typed (fun k => length k = 48%nat) (pubkey_of_json v).
Proof. unfold pubkey_of_json. typed_steps. apply typed_ok, vector_from_length. Qed.

Lemma typed_signature v : typed (fun k => length k = 96%nat) (signature_of_json v).
Proof. unfold signature_of_json. typed_steps. by destruct (Nat.eqb_spec (length a0) 96); [apply typed_ok|]. Qed.

#[local] Hint Resolve typed_h256 typed_as_u64 typed_vector typed_pubkey typed_signature typed_field : typed.

Lemma typed_beacon_header v : typed beacon_header_typed (beacon_header_of_json v).
Proof. unfold beacon_header_of_json. typed_steps. by apply typed_finish. Qed.

Lemma typed_committee v : typed committee_typed (sync_committee_of_json v).
Proof. unfold sync_committee_of_json. typed_steps. by apply typed_finish. Qed.

Lemma typed_aggregate v : typed aggregate_typed (sync_aggregate_of_json v).
Proof. unfold sync_aggregate_of_json. typed_steps. by apply typed_finish. Qed.

#[local] Hint Resolve typed_beacon_header typed_committee typed_aggregate : typed.

Lemma typed_lc_header v : typed lc_header_typed (lc_header_of_json v).
Proof. unfold lc_header_of_json. typed_steps. by apply typed_finish. Qed.

#[local] Hint Resolve typed_lc_header : typed.

Lemma typed_bootstrap v : typed bootstrap_typed (bootstrap_of_json v).
Proof. unfold bootstrap_of_json. typed_steps. by apply typed_finish. Qed.

Lemma typed_update v : typed update_typed (update_of_json v).
Proof. unfold update_of_json. typed_steps. by apply typed_finish. Qed.

Lemma typed_finality v : typed finality_typed (finality_update_of_json v).
Proof. unfold finality_update_of_json. typed_steps. by apply typed_finish. Qed.

Lemma typed_optimistic v : typed optimistic_typed (optimistic_update_of_json v).
Proof. unfold optimistic_update_of_json. typed_steps. by apply typed_finish. Qed.
End Typing.
#[export] Hint Resolve typed_bootstrap typed_update typed_finality typed_optimistic : typed.

(** ** Properties *)

(** A number is shown with as many digits as it has. *)
Lemma show_digits_print fuel z :
  0 <= z < 10 ^ Z.of_nat fuel -> (0 < fuel)%nat ->
  exists n, (0 < n)%nat /\ z < 10 ^ Z.of_nat n /\ show_digits fuel z = print_digits 10 n z.
Proof.
  revert z. induction fuel as [|fuel IH]; intros z Hz Hf; [lia|]. simpl. destruct (Z.ltb_spec z 10).
  { exists 1%nat. split_and!; [lia|simpl; lia|done]. }
  rewrite Nat2Z.inj_succ, Z.pow_succ_r in Hz by lia.
  destruct (IH (z / 10)) as (n & Hn & Hlt & ->).
  - split; [apply Z.div_pos; lia|apply Z.div_lt_upper_bound; lia].
  - destruct fuel; [simpl in Hz; lia|lia].
  - exists (S n). split_and!; [lia| |done]. rewrite Nat2Z.inj_succ, Z.pow_succ_r by lia.
    pose proof (Z.div_mod z 10 ltac:(lia)). pose proof (Z.mod_pos_bound z 10 ltac:(lia)). lia.
Qed.

(** Numbers in requests are read back by who gets them. *)
Lemma show_u64_roundtrip z : is_u64 z -> from_str_radix 64 10 (show_u64 z) = Some z.
Proof.
  intros Hz. assert (Hb : 2 ^ 64 < 10 ^ Z.of_nat 20) by reflexivity. unfold is_u64 in Hz.
  destruct (show_digits_print 20 z) as (n & Hn & Hlt & E); [unfold U64_MOD in Hz; lia|lia|].
  unfold show_u64. rewrite E. apply from_str_radix_print; [lia|done|lia|unfold U64_MOD in Hz; lia].
Qed.

Section Properties.
Context {X : HexLib} {ST : SerdeTypes} {CS : ConsensusSerde}.

(** A key of any length is read, and cut or filled to 48 bytes; a signature of another
    length than 96 bytes is a panic, and so is every update with one. *)
Theorem lengths_of_keys_and_signatures `{!HexLibOk X} key sig :
  pubkey_of_json (Str (hex_encode key)) = Ok (vector_from 48 key)
  /\ (length sig <> 96%nat ->
      signature_of_json (Str (hex_encode sig)) = Panic
      /\ forall bits aggregate slot, bits_of_json 512 bits = Ok aggregate ->
           optimistic_update_of_json
             (Object [(str "sync_aggregate", Object [(str "sync_committee_bits", bits);
                        (str "sync_committee_signature", Str (hex_encode sig))]); (str "signature_slot", slot)])
           = Panic).
Proof.
  assert (Hs : length sig <> 96%nat -> signature_of_json (Str (hex_encode sig)) = Panic).
  { intros H. unfold signature_of_json. simpl. rewrite hex_decode_encode. simpl. by destruct (Nat.eqb_spec (length sig) 96). }
  split; [unfold pubkey_of_json; simpl; by rewrite hex_decode_encode|]. intros H. split; [auto|].
  intros bits agg slot Hb. specialize (Hs H). unfold optimistic_update_of_json, struct_scanned. simpl.
  unfold forget at 1. unfold sync_aggregate_of_json, struct_scanned. simpl.
  unfold forget at 1. rewrite Hb. simpl. unfold forget at 1. by rewrite Hs.
Qed.

Context {W : Type} `{HG : HttpGet W} `{!SerdeTyped ST} `{!ConsensusSerdeOk CS}.

Lemma typed_data {A} (P : A -> Prop) dec v : (forall v, typed P (dec v)) -> typed P (NimbusRpc.data_of_json dec v).
Proof.
  intros Hd. unfold NimbusRpc.data_of_json. eapply typed_bind; [apply typed_any|]. intros fs _.
  eapply typed_bind; [by apply typed_field|]. intros a Ha. by apply typed_finish.
Qed.

(** What a request returns has the type of what is read. *)
Lemma request_typed {A} (P : A -> Prop) url dec w r w' :
  (forall v, typed P (dec v)) -> NimbusRpc.request url dec w = (Ok r, w') -> P r.
Proof.
  intros Hd. unfold NimbusRpc.request. destruct (http_get url w) as [[v|] w1]; intros [= E <-].
  by eapply typed_err in E; [|apply Hd].
Qed.

(** Whatever a provider answers over HTTP, the objects that the light client gets are well
    typed: 48-byte keys, 96-byte signatures, 32-byte roots and branches, 64-bit slots. *)
Theorem nimbus_data_typed (self : NimbusRpc.t) w w' :
  (forall root b, NimbusRpc.get_bootstrap self root w = (Ok b, w') -> bootstrap_typed b)
  /\ (forall period count us, NimbusRpc.get_updates self period count w = (Ok us, w') -> Forall update_typed us)
  /\ (forall u, NimbusRpc.get_finality_update self w = (Ok u, w') -> finality_typed u)
  /\ (forall u, NimbusRpc.get_optimistic_update self w = (Ok u, w') -> optimistic_typed u).
Proof.
  split_and!; intros *; apply request_typed; intros v; [..|]; try apply typed_vec; intros; apply typed_data; eauto with typed.
Qed.

(** So the RPC over HTTP is one that the light client's chain of trust holds for. *)
#[export] Instance nimbus_typed (self : NimbusRpc.t) : ConsensusRpcTyped W (R := NimbusRpc.nimbus_rpc self).
Proof.
  assert (Hu : forall u, update_typed u -> 0 <= slot_of (beacon (LightClientUpdate.finalized_header u))).
  { intros u (_ & _ & _ & [[[Hs _] _] _] & _). exact Hs. }
  split; intros *.
  - intros E. eapply (request_typed bootstrap_typed) in E as [[[[Hs _] _] _] _]; [exact Hs|].
    intros v. apply typed_data. eauto with typed.
  - intros E. eapply (request_typed (Forall update_typed)) in E; [by eapply Forall_impl|].
    intros v. apply typed_vec. intros v'. apply typed_data. eauto with typed.
  - intros E. eapply (request_typed finality_typed) in E as (_ & [[[Hs _] _] _] & _); [exact Hs|].
    intros v. apply typed_data. eauto with typed.
Qed.
End Properties.
