(* ===== verification/TableInfo.v ===== *)
(** * What a node shows of itself, as JSON.

    The routing table as the APIs render it: [RoutingTableInfo] of
    [ethportal-api/src/types/discv5.rs], [bucket_entries] and [routing_table_info] of
    [portalnet/src/overlay.rs], [node_info] of [portalnet/src/discovery.rs], and
    [bucket_entries_to_json] of [trin-history/src/utils.rs]; and the JSON of wire messages
    ([portal_wire.rs], [enr.rs]).  The buckets of the table of discv5 are the class
    [KBucketsIter], the entries of records [EnrInfo], JSON of the SSZ types [WireText]. *)

From Stdlib Require Import String.
From S2P Require Import Prelude.
From S2P Require Import Distance.
From S2P Require Import Hex.
From S2P Require Import FindContent.
From S2P Require Import Wire.
From S2P Require Import Overlay.
From S2P Require Import Gossip.
From S2P Require Import ExecutionJson.
From S2P Require Import ConsensusJson.

#[local] Open Scope list_scope.

(** ** Crates and the standard library *)

(** [KBucketsTable::buckets_iter], the entries of each bucket. *)
Class KBucketsIter `{KB : KBucketsTable} := { kb_buckets_iter : kb -> list (list (bytes * Node * NodeStatus)) }.

(** There are 256 buckets of at most 16 nodes; their entries are those of the table. *)
Class KBucketsIterOk `(KI : KBucketsIter) : Prop := {
  buckets_iter_concat k : concat (kb_buckets_iter k) = kb_buckets k;
  buckets_iter_length k : length (kb_buckets_iter k) = 256%nat;
  bucket_capacity k b : b ∈ kb_buckets_iter k -> (length b <= 16)%nat;
}.

(** The value of a record for the key "c", and its addresses as texts. *)
Class EnrInfo `{E : EnrLib} := {
  enr_client : Enr -> option bytes;
  enr_udp4_socket : Enr -> option bytes;
  enr_ip4 : Enr -> option bytes;
}.

(** [U256::from_ssz_bytes], with the text of its error; the JSON of a [BitList]. *)
Class WireText := {
  u256_from_ssz : bytes -> bytes + Z;
  bitlist_to_json : list bool -> Value;
}.

Definition continuation (c : byte) (lo hi : Z) : bool := (lo <=? byte_to_Z c) && (byte_to_Z c <=? hi).

(** [str::from_utf8] succeeds. *)
Fixpoint valid_utf8 (s : bytes) : bool :=
  match s with
  | [] => true
  | b :: s1 =>
      let b := byte_to_Z b in
      if b <? 0x80 then valid_utf8 s1
      else if b <? 0xc2 then false
      else
        match s1 with
        | [] => false
        | c1 :: s2 =>
            if b <? 0xe0 then continuation c1 0x80 0xbf && valid_utf8 s2
            else
              match s2 with
              | [] => false
              | c2 :: s3 =>
                  if b <? 0xf0 then
                    continuation c1 (if b =? 0xe0 then 0xa0 else 0x80) (if b =? 0xed then 0x9f else 0xbf)
                    && continuation c2 0x80 0xbf && valid_utf8 s3
                  else
                    match s3 with
                    | [] => false
                    | c3 :: s4 =>
                        (b <=? 0xf4)
                        && continuation c1 (if b =? 0xf0 then 0x90 else 0x80) (if b =? 0xf4 then 0x8f else 0xbf)
                        && continuation c2 0x80 0xbf && continuation c3 0x80 0xbf && valid_utf8 s4
                    end
              end
        end
  end.

(** [split(' ')]: at least one word, which may be empty. *)
Fixpoint words (s : bytes) : list bytes :=
  match s with
  | [] => [[]]
  | c :: s =>
      if decide (c = x20) then [] :: words s
      else match words s with w :: ws => (c :: w) :: ws | [] => [[c]] end
  end.

(** Decimal digits of a [U256], at most 78 of them; of an index. *)
Definition show_u256 (z : Z) : bytes := show_digits 78 z.

(** [n += 1] on a [u16]. *)
Definition succ_u16 (n : Z) : Z := (n + 1) mod 2 ^ 16.

(** ** Routing tables *)

Record RoutingTableInfo := { local_node_id : bytes; buckets : list (list bytes) }.

Record BucketEntry `{E : EnrLib} := {
  entry_id : bytes;
  entry_enr : Enr;
  entry_status : NodeStatus;
  entry_radius : Z;
  entry_client : option bytes;
}.

Module TableInfo.
Section Render.
Context `{X : HexLib} `{E : EnrLib} `{T : !EnrText} `{I : !EnrInfo} `{KB : !KBucketsTable} `{KI : !KBucketsIter}.

(** [From<discv5::kbucket::KBucketsTable>]. *)
Definition table_ids (table : kb) : list (list bytes) :=
  map (map (fun node : bytes * Node * NodeStatus => hex_encode node.1.1)) (kb_buckets_iter table).

Definition routing_table_info (local_enr : Enr) (kbuckets : kb) : RoutingTableInfo :=
  {| local_node_id := hex_encode (enr_node_id local_enr); buckets := table_ids kbuckets |}.

(** [node_info] of [discovery.rs]: the record is written and read again. *)
Definition node_info (local_enr : Enr) : res unit (Enr * bytes * option bytes) :=
  let? enr := ok_or (enr_from_str (to_base64 local_enr)) tt in
  Ok (enr, hex_encode (enr_node_id local_enr), Some (default (str "None") (enr_ip4 local_enr))).

(** Client information that is not UTF-8 is left out. *)
Definition client_info (enr : Enr) : option bytes :=
  match enr_client enr with
  | Some slice => if valid_utf8 slice then Some slice else None
  | None => None
  end.

Definition bucket_entry (node : bytes * Node * NodeStatus) : BucketEntry :=
  {| entry_id := node.1.1; entry_enr := node_enr node.1.2; entry_status := node.2;
     entry_radius := node_data_radius node.1.2; entry_client := client_info (node_enr node.1.2) |}.

(** The buckets that are not empty, with their index. *)
Definition bucket_entries (kbuckets : kb) : list (nat * list BucketEntry) :=
  map (fun ib => (ib.1, map bucket_entry ib.2))
    (filter (fun ib => (0 < length ib.2)%nat) (imap pair (kb_buckets_iter kbuckets))).

Definition expand_client_name (client_shorthand : bytes) : option bytes :=
  match words client_shorthand with
  | [] => None
  | shorthand :: rest =>
      let client_name :=
        if decide (shorthand = str "f") then Some (str "fluffy")
        else if decide (shorthand = str "t") then Some (str "trin")
        else if decide (shorthand = str "u") then Some (str "ultralight")
        else None in
      client_name ← client_name;
      Some (match rest with
            | version_string :: _ => client_name ++ [x20] ++ version_string
            | [] => client_name
            end)
  end.

(** The [Debug] form of a [ConnectionState]. *)
Definition state_text (s : ConnectionState) : bytes :=
  match s with Connected => str "Connected" | Disconnected => str "Disconnected" end.

(** The map of an entry. *)
Definition entry_map (e : BucketEntry) : list (bytes * Value) :=
  [(str "node_id", Str (hex_encode (entry_id e))); (str "enr", Str (to_base64 (entry_enr e)));
   (str "status", Str (state_text (status_state (entry_status e)))); (str "radius", Str (show_u256 (entry_radius e)))]
  ++ match entry_client e with
     | Some client_info =>
         [(str "client", Str (match expand_client_name client_info with Some name => name | None => client_info end))]
     | None => [(str "address", Str (default (str "None") (enr_udp4_socket (entry_enr e))))]
     end.

(** The counters while the entries of a bucket are rendered: all nodes, and those that are
    connected. *)
Fixpoint render_bucket (counts : Z * Z) (bucket : list BucketEntry) : Z * Z * list Value :=
  match bucket with
  | [] => (counts, [])
  | e :: bucket =>
      let node_count := succ_u16 counts.1 in
      let connected_count := if is_connected (entry_status e) then succ_u16 counts.2 else counts.2 in
      let r := render_bucket (node_count, connected_count) bucket in
      (r.1, Object (entry_map e) :: r.2)
  end.

Fixpoint render_buckets (counts : Z * Z) (entries : list (nat * list BucketEntry))
    : Z * Z * list (bytes * Value) :=
  match entries with
  | [] => (counts, [])
  | (index, bucket) :: entries =>
      let r := render_bucket counts bucket in
      let rest := render_buckets r.1 entries in
      (rest.1, (show_u64 (Z.of_nat index), Array r.2) :: rest.2)
  end.

Definition bucket_entries_to_json (entries : list (nat * list BucketEntry)) : Value :=
  let r := render_buckets (0, 0) entries in
  Object [(str "buckets", Object r.2);
          (str "numBuckets", Number (Z.of_nat (length r.2)));
          (str "numNodes", Number r.1.1);
          (str "numConnected", Number r.1.2)].
End Render.
End TableInfo.

(** ** Wire messages *)

Inductive ValidationError := NotAString | BadHex | BadPayload | InvalidEnr.

Module WireJson.
Section Json.
Context `{X : HexLib} `{E : EnrLib} `{T : !EnrText} `{W : WireLib} `{J : WireText}.

(** [ByteList::try_from] a vector: it is taken as [From] does. *)
Definition custom_payload_of_value (v : Value) : res ValidationError CustomPayload.t :=
  match v with
  | Str value =>
      match hex_decode value with
      | Ok payload => Ok (CustomPayload.mk (bytelist_from payload))
      | Err _ => Err BadHex
      | Panic => Panic
      end
  | _ => Err NotAString
  end.

Definition ssz_enr_of_value (v : Value) : res ValidationError Enr :=
  match v with
  | Str enr => ok_or (enr_from_str enr) InvalidEnr
  | _ => Err NotAString
  end.

Definition pong_to_value (val : Pong) : Value :=
  match u256_from_ssz (CustomPayload.payload (pong_custom_payload val)) with
  | inr data_radius =>
      Object [(str "enrSeq", Str (show_u64 (pong_enr_seq val))); (str "dataRadius", Str (show_u256 data_radius))]
  | inl msg => Str (str "Unable to ssz decode data radius!: " ++ msg)
  end.

Definition nodes_to_value (val : Nodes) : Value :=
  Object [(str "enrs", Array (map (fun enr => Str (to_base64 enr)) (enrs val))); (str "total", Number (total val))].

Definition content_to_value (self : Content) : Value :=
  match self with
  | ConnectionId val => Object [(str "connection_id", Number val)]
  | ContentBytes val => Object [(str "content", Str (hex_encode val))]
  | Enrs val => Object [(str "enrs", Array (map (fun enr => Str (to_base64 enr)) val))]
  end.

Definition accept_to_value (val : Accept) : Value :=
  Object [(str "connection_id", Str (show_u64 (u16_to_be (accept_connection_id val))));
          (str "content_keys", bitlist_to_json (accept_content_keys val))].

(** [Display for ProtocolId]. *)
Definition protocol_text (p : ProtocolId.t) : bytes :=
  match p with
  | ProtocolId.State => str "State"
  | ProtocolId.History => str "History"
  | ProtocolId.TransactionGossip => str "Transaction Gossip"
  | ProtocolId.CanonicalIndices => str "Canonical Indices"
  | ProtocolId.Beacon => str "Beacon"
  | ProtocolId.Utp => str "uTP"
  end.
End Json.
End WireJson.

(** ** Everything is shown, once *)

Module TableInfoCorrect.
Import TableInfo.
Section Correct.
Context `{X : HexLib} `{!HexLibOk X} `{E : EnrLib} `{T : !EnrText} `{!EnrTextOk} `{I : !EnrInfo}
  `{KB : !KBucketsTable} `{KI : !KBucketsIter} `{!KBucketsIterOk KI}.

Definition connected (l : list BucketEntry) : list BucketEntry := List.filter (fun e => is_connected (entry_status e)) l.

Lemma connected_length l : (length (connected l) <= length l)%nat.
Proof. induction l as [|e l IH]; [done|]. simpl. destruct (is_connected _); simpl; lia. Qed.

Definition rendered (b : list BucketEntry) : list Value := map (fun e => Object (entry_map e)) b.

Lemma render_bucket_ok b : forall n c, 0 <= c <= n -> n + Z.of_nat (length b) < 2 ^ 16 ->
  render_bucket (n, c) b = (n + Z.of_nat (length b), c + Z.of_nat (length (connected b)), rendered b).
Proof.
  induction b as [|e b IH]; intros n c Hc Hn; cbn [render_bucket rendered map length connected List.filter].
  { cbn. by rewrite !Z.add_0_r. }
  rewrite length_cons in Hn. unfold succ_u16. cbn [fst snd].
  rewrite (Z.mod_small (n + 1)) by lia. destruct (is_connected (entry_status e)).
  - rewrite (Z.mod_small (c + 1)) by lia. rewrite IH by lia. cbn [fst snd length].
    fold (connected b). rewrite !Nat2Z.inj_succ. do 2 f_equal; lia.
  - rewrite IH by lia. cbn [fst snd]. fold (connected b). rewrite Nat2Z.inj_succ. do 2 f_equal; lia.
Qed.

Definition all_entries (es : list (nat * list BucketEntry)) : list BucketEntry := concat (map snd es).

Lemma render_buckets_ok es : forall n c, 0 <= c <= n -> n + Z.of_nat (length (all_entries es)) < 2 ^ 16 ->
  render_buckets (n, c) es
  = (n + Z.of_nat (length (all_entries es)), c + Z.of_nat (length (connected (all_entries es))),
     map (fun ib => (show_u64 (Z.of_nat ib.1), Array (rendered ib.2))) es).
Proof.
  induction es as [|[i b] es IH]; intros n c Hc Hn; cbn [render_buckets map].
  { cbn. by rewrite !Z.add_0_r. }
  unfold all_entries in *. cbn [map concat snd fst] in *. rewrite length_app in Hn.
  pose proof (connected_length b). rewrite render_bucket_ok by lia. cbn [fst snd].
  rewrite IH by lia. cbn [fst snd]. unfold connected in *. rewrite List.filter_app, !length_app, !Nat2Z.inj_add.
  rewrite !Z.add_assoc. done.
Qed.

Lemma concat_nonempty {A} (l : list (nat * list A)) :
  concat (map snd (filter (fun ib => (0 < length ib.2)%nat) l)) = concat (map snd l).
Proof.
  induction l as [|[i [|a b]] l IH]; [done|..].
  - rewrite filter_cons_False by (simpl; lia). done.
  - rewrite filter_cons_True by (simpl; lia). cbn [map concat]. by rewrite IH.
Qed.

Lemma bucket_entries_all k : all_entries (bucket_entries k) = map bucket_entry (kb_buckets k).
Proof.
  unfold all_entries, bucket_entries. rewrite map_map. cbn [snd].
  assert (Hm : forall l : list (nat * list (bytes * Node * NodeStatus)),
    concat (map (fun ib => map bucket_entry ib.2) l) = map bucket_entry (concat (map snd l))).
  { induction l as [|[i b] l IH]; [done|]. cbn [map concat snd]. by rewrite map_app, IH. }
  rewrite Hm, concat_nonempty, <- buckets_iter_concat. do 2 f_equal. generalize (kb_buckets_iter k). intros l.
  assert (Hi : forall f : nat -> nat, map snd (imap (fun n x => (f n, x)) l) = l); [|apply (Hi (fun n => n))].
  induction l as [|b l IH]; intros f; [done|]. cbn. f_equal. apply (IH (fun n => f (S n))).
Qed.

Lemma concat_bound {A} (l : list (list A)) n : (forall b, b ∈ l -> (length b <= n)%nat) -> (length (concat l) <= length l * n)%nat.
Proof.
  induction l as [|b l IH]; intros Hb; [done|]. simpl. rewrite length_app.
  assert (length b <= n)%nat by (apply Hb; by left).
  assert (length (concat l) <= length l * n)%nat by (apply IH; intros; apply Hb; by right). lia.
Qed.

(** The JSON of the routing table: rendering never overflows its counters; it shows every
    node of the table exactly once, in the bucket where it is, and counts all nodes and
    those that are connected. *)
Theorem table_json_complete k :
  let nodes := map bucket_entry (kb_buckets k) in
  bucket_entries_to_json (bucket_entries k)
  = Object [(str "buckets", Object (map (fun ib => (show_u64 (Z.of_nat ib.1), Array (rendered ib.2))) (bucket_entries k)));
            (str "numBuckets", Number (Z.of_nat (length (bucket_entries k))));
            (str "numNodes", Number (Z.of_nat (length nodes)));
            (str "numConnected", Number (Z.of_nat (length (connected nodes))))]
  /\ concat (map snd (bucket_entries k)) = nodes.
Proof.
  intros nodes. assert (Hn : all_entries (bucket_entries k) = nodes) by apply bucket_entries_all.
  split; [|exact Hn]. unfold bucket_entries_to_json.
  assert (Hl : (length nodes <= 256 * 16)%nat).
  { unfold nodes. rewrite length_map, <- buckets_iter_concat, <- (buckets_iter_length k). apply concat_bound, bucket_capacity. }
  rewrite render_buckets_ok; [|lia|rewrite Hn; change (2 ^ 16) with 65536; lia].
  cbn [fst snd]. by rewrite Hn, length_map.
Qed.

Lemma hex_ids (b : list (bytes * Node * NodeStatus)) :
  res_all hex_decode (map (fun node => hex_encode node.1.1) b) = Ok (map (fun node => node.1.1) b).
Proof. induction b as [|x b IH]; [done|]. cbn [map res_all]. by rewrite hex_decode_encode, IH. Qed.

(** [RoutingTableInfo] has the id of the local node and of every node, by bucket; ids are
    read back from it. *)
Theorem routing_table_complete local_enr k :
  let info := routing_table_info local_enr k in
  hex_decode (local_node_id info) = Ok (enr_node_id local_enr)
  /\ length (buckets info) = 256%nat
  /\ res_all hex_decode (concat (buckets info)) = Ok (map (fun node => node.1.1) (kb_buckets k)).
Proof.
  intros info. unfold info, routing_table_info, table_ids. cbn [local_node_id buckets].
  split_and!; [apply hex_decode_encode|by rewrite length_map, buckets_iter_length|].
  rewrite <- concat_map, buckets_iter_concat. apply hex_ids.
Qed.
End Correct.
End TableInfoCorrect.

(** The JSON of the two messages with a connection id: the bytes of the id are swapped on
    the wire; ACCEPT shows the id of the connection, CONTENT the swapped one. *)
Theorem connection_id_json `{X : HexLib} `{E : EnrLib} `{T : !EnrText} `{J : WireText} cid bits :
  0 <= cid < 2 ^ 16 ->
  index_key (WireJson.accept_to_value {| accept_connection_id := u16_to_be cid; accept_content_keys := bits |})
    (str "connection_id") = Str (show_u64 cid)
  /\ index_key (WireJson.content_to_value (ConnectionId (u16_to_be cid))) (str "connection_id")
     = Number (256 * (cid mod 256) + cid / 256).
Proof.
  intros Hc. split.
  - cbn -[str u16_to_be show_u64]. rewrite decide_True by done. cbn -[u16_to_be show_u64].
    change (u16_to_be (u16_to_be cid)) with (FindContent.u16_from_be (u16_to_be cid)).
    by rewrite OverlayService.u16_swap.
  - cbn -[str u16_to_be]. rewrite decide_True by done. by rewrite <- OverlayService.u16_to_be_eq.
Qed.
