(* ===== verification/Metrics.v ===== *)
(** * Metrics.

    [trin-metrics/src/]: the labels of counters ([labels.rs]), the counters of messages,
    uTP transfers and validations that the networks share ([overlay.rs]), and the gauges of
    storage ([storage.rs]), with the summaries that nodes log; and what the tasks of
    [portalnet/src/overlay_service.rs] and the history storage report.  A counter of the
    [prometheus] crate is a map from label values to a number that is zero at first; counters
    are 64-bit unsigned, gauges 64-bit signed, both wrapping.  Floating-point numbers are the class [F64]. *)

From Stdlib Require Import String.
From stdpp Require Import gmap.
From S2P Require Import Prelude.
From S2P Require Import Distance.
From S2P Require Import Hex.
From S2P Require Import ContentKey.
From S2P Require Import FindContent.
From S2P Require Import ContentStore.
From S2P Require Import HistoryStorage.
From S2P Require Import Wire.
From S2P Require Import Payload.
From S2P Require Import Overlay.
From S2P Require Import Gossip.
From S2P Require Import OverlayContent.
From S2P Require Import ExecutionJson.
From S2P Require Import ConsensusJson.
From S2P Require Import TableInfo.

#[local] Open Scope list_scope.

(** ** Labels *)

Inductive ProtocolLabel := LState | LHistory | LTransactionGossip | LCanonicalIndices | LBeacon | LUtp.
Inductive MessageDirectionLabel := Sent | Received.
Inductive MessageLabel := LPing | LFindNodes | LFindContent | LOffer | LPong | LNodes | LContent | LAccept.
Inductive UtpDirectionLabel := Inbound | Outbound.
Inductive UtpOutcomeLabel := Success | FailedConnection | FailedDataTx | FailedShutdown.

#[global] Instance direction_eq_dec : EqDecision MessageDirectionLabel.
Proof. solve_decision. Defined.
#[global] Instance message_label_eq_dec : EqDecision MessageLabel.
Proof. solve_decision. Defined.
#[global] Instance utp_direction_eq_dec : EqDecision UtpDirectionLabel.
Proof. solve_decision. Defined.
#[global] Instance utp_outcome_eq_dec : EqDecision UtpOutcomeLabel.
Proof. solve_decision. Defined.

Module Labels.
Definition protocol (label : ProtocolLabel) : bytes :=
  match label with
  | LState => str "state"
  | LHistory => str "history"
  | LTransactionGossip => str "transaction_gossip"
  | LCanonicalIndices => str "canonical_indices"
  | LBeacon => str "beacon"
  | LUtp => str "utp"
  end.
Definition message_direction (label : MessageDirectionLabel) : bytes :=
  match label with Sent => str "sent" | Received => str "received" end.
Definition message (label : MessageLabel) : bytes :=
  match label with
  | LPing => str "ping"
  | LFindNodes => str "find_nodes"
  | LFindContent => str "find_content"
  | LOffer => str "offer"
  | LPong => str "pong"
  | LNodes => str "nodes"
  | LContent => str "content"
  | LAccept => str "accept"
  end.
Definition utp_direction (label : UtpDirectionLabel) : bytes :=
  match label with Outbound => str "outbound" | Inbound => str "inbound" end.
Definition utp_outcome (label : UtpOutcomeLabel) : bytes :=
  match label with
  | Success => str "success"
  | FailedConnection => str "failed connection"
  | FailedDataTx => str "failed data tx"
  | FailedShutdown => str "failed shutdown"
  end.

Definition of_request `{E : EnrLib} (request : Request.t) : MessageLabel :=
  match request with
  | Request.Ping _ => LPing
  | Request.FindNodes _ => LFindNodes
  | Request.FindContent _ => LFindContent
  | Request.Offer _ | Request.PopulatedOffer _ | Request.PopulatedOfferWithResult _ => LOffer
  end.
Definition of_response `{E : EnrLib} (response : Response.t) : MessageLabel :=
  match response with
  | Response.Pong _ => LPong
  | Response.Nodes _ => LNodes
  | Response.Content _ => LContent
  | Response.Accept _ => LAccept
  end.
Definition of_protocol (protocol : ProtocolId.t) : ProtocolLabel :=
  match protocol with
  | ProtocolId.State => LState
  | ProtocolId.History => LHistory
  | ProtocolId.TransactionGossip => LTransactionGossip
  | ProtocolId.CanonicalIndices => LCanonicalIndices
  | ProtocolId.Beacon => LBeacon
  | ProtocolId.Utp => LUtp
  end.
End Labels.

(** [bool::to_string]. *)
Definition bool_text (b : bool) : bytes := if b then str "true" else str "false".

(** ** Counters and gauges *)

Abbreviation CounterVec := (gmap (list bytes) Z) (only parsing).
Definition wrap_i64 (z : Z) : Z := (z + 2 ^ 63) mod U64_MOD - 2 ^ 63.

Definition value_of (c : CounterVec) (labels : list bytes) : Z := default 0 (c !! labels).
Definition inc (c : CounterVec) (labels : list bytes) : CounterVec := <[labels := wrap64 (value_of c labels + 1)]> c.
Definition gauge_inc (c : CounterVec) (labels : list bytes) : CounterVec :=
  <[labels := wrap_i64 (value_of c labels + 1)]> c.
Definition gauge_dec (c : CounterVec) (labels : list bytes) : CounterVec :=
  <[labels := wrap_i64 (value_of c labels - 1)]> c.

(** ** Overlay metrics *)

Module OverlayMetrics.
Record t := mk {
  message_total : CounterVec;
  utp_outcome_total : CounterVec;
  utp_active_gauge : CounterVec;
  validation_total : CounterVec;
}.

Definition new : t := mk ∅ ∅ ∅ ∅.

Section Reporter.
(** [OverlayMetricsReporter]: the protocol of a network, and the metrics, which all networks
    share. *)
Context `{E : EnrLib} (protocol : bytes).
Implicit Types (m : t).

Definition message_total_by_labels m (direction : MessageDirectionLabel) (message_name : MessageLabel) : Z :=
  value_of (message_total m) [protocol; Labels.message_direction direction; Labels.message message_name].

Definition increment_message_total m (direction : MessageDirectionLabel) (message : MessageLabel) : t :=
  mk (inc (message_total m) [protocol; Labels.message_direction direction; Labels.message message])
    (utp_outcome_total m) (utp_active_gauge m) (validation_total m).

Definition report_outbound_request m (request : Request.t) : t :=
  increment_message_total m Sent (Labels.of_request request).
Definition report_inbound_request m (request : Request.t) : t :=
  increment_message_total m Received (Labels.of_request request).
Definition report_outbound_response m (response : Response.t) : t :=
  increment_message_total m Sent (Labels.of_response response).
Definition report_inbound_response m (response : Response.t) : t :=
  increment_message_total m Received (Labels.of_response response).

(** The gauge [as u64]. *)
Definition utp_active_streams m (direction : UtpDirectionLabel) : Z :=
  wrap64 (value_of (utp_active_gauge m) [protocol; Labels.utp_direction direction]).
Definition utp_outcomes m (direction : UtpDirectionLabel) (outcome : UtpOutcomeLabel) : Z :=
  value_of (utp_outcome_total m) [protocol; Labels.utp_direction direction; Labels.utp_outcome outcome].

Definition report_utp_active_inc m (direction : UtpDirectionLabel) : t :=
  mk (message_total m) (utp_outcome_total m)
    (gauge_inc (utp_active_gauge m) [protocol; Labels.utp_direction direction]) (validation_total m).
Definition report_utp_active_dec m (direction : UtpDirectionLabel) : t :=
  mk (message_total m) (utp_outcome_total m)
    (gauge_dec (utp_active_gauge m) [protocol; Labels.utp_direction direction]) (validation_total m).
Definition report_utp_outcome m (direction : UtpDirectionLabel) (outcome : UtpOutcomeLabel) : t :=
  report_utp_active_dec
    (mk (message_total m)
       (inc (utp_outcome_total m) [protocol; Labels.utp_direction direction; Labels.utp_outcome outcome])
       (utp_active_gauge m) (validation_total m))
    direction.

Definition validation_total_by_outcome m (outcome : bool) : Z :=
  value_of (validation_total m) [protocol; bool_text outcome].
Definition report_validation m (success : bool) : t :=
  mk (message_total m) (utp_outcome_total m) (utp_active_gauge m)
    (inc (validation_total m) [protocol; bool_text success]).

(** *** Summaries *)

Definition sum_u64 (l : list Z) : Z := foldl (fun acc z => wrap64 (acc + z)) 0 l.

(** [{} ({}/{})]: a total and its inbound and outbound parts. *)
Definition total_text (total inbound outbound : Z) : bytes :=
  show_u64 total ++ str " (" ++ show_u64 inbound ++ str "/" ++ show_u64 outbound ++ str ")".

Definition get_utp_summary m : bytes :=
  let inbound_success := utp_outcomes m Inbound Success in
  let inbound_failed_connection := utp_outcomes m Inbound FailedConnection in
  let inbound_failed_data_tx := utp_outcomes m Inbound FailedDataTx in
  let inbound_failed_shutdown := utp_outcomes m Inbound FailedShutdown in
  let outbound_success := utp_outcomes m Outbound Success in
  let outbound_failed_connection := utp_outcomes m Outbound FailedConnection in
  let outbound_failed_data_tx := utp_outcomes m Outbound FailedDataTx in
  let outbound_failed_shutdown := utp_outcomes m Outbound FailedShutdown in
  let active_inbound := utp_active_streams m Inbound in
  let active_outbound := utp_active_streams m Outbound in
  let active := sum_u64 [active_inbound; active_outbound] in
  let success := sum_u64 [inbound_success; outbound_success] in
  let failed := sum_u64 [inbound_failed_connection; outbound_failed_connection; inbound_failed_data_tx;
    outbound_failed_data_tx; inbound_failed_shutdown; outbound_failed_shutdown] in
  let inbound_failed := sum_u64 [inbound_failed_connection; inbound_failed_data_tx; inbound_failed_shutdown] in
  let outbound_failed := sum_u64 [outbound_failed_connection; outbound_failed_data_tx; outbound_failed_shutdown] in
  let failed_connection := sum_u64 [inbound_failed_connection; outbound_failed_connection] in
  let failed_data_tx := sum_u64 [inbound_failed_data_tx; outbound_failed_data_tx] in
  let failed_shutdown := sum_u64 [inbound_failed_shutdown; outbound_failed_shutdown] in
  str "(in/out): active=" ++ total_text active active_inbound active_outbound
  ++ str ", success=" ++ total_text success inbound_success outbound_success
  ++ str ", failed=" ++ total_text failed inbound_failed outbound_failed
  ++ str " failed_connection=" ++ total_text failed_connection inbound_failed_connection outbound_failed_connection
  ++ str ", failed_data_tx=" ++ total_text failed_data_tx inbound_failed_data_tx outbound_failed_data_tx
  ++ str ", failed_shutdown=" ++ total_text failed_shutdown inbound_failed_shutdown outbound_failed_shutdown.

Definition ratio_text (a b : Z) : bytes := show_u64 a ++ str "/" ++ show_u64 b.

Definition get_message_summary m : bytes :=
  let successful_validations := validation_total_by_outcome m true in
  let failed_validations := validation_total_by_outcome m false in
  let validations := sum_u64 [successful_validations; failed_validations] in
  str "offers=" ++ ratio_text (message_total_by_labels m Received LAccept) (message_total_by_labels m Sent LOffer)
  ++ str ", accepts=" ++ ratio_text (message_total_by_labels m Sent LAccept) (message_total_by_labels m Received LOffer)
  ++ str ", validations=" ++ ratio_text successful_validations validations.
End Reporter.
End OverlayMetrics.

(** ** What tasks report *)

Module Reports.
Import OverlayMetrics.

Section Tasks.
(** The metrics of the tasks that the service spawns, given how uTP goes. *)
Context `{E : EnrLib} (protocol : bytes).
Implicit Types (m : t).

(** [send_utp_content]: the number of bytes written, and whether the stream closed. *)
Definition send_utp_content m (content : bytes) (write : option Z) (close : bool) : t * bool :=
  match write with
  | Some write_size =>
      if negb (write_size =? Z.of_nat (length content)) then (report_utp_outcome protocol m Outbound FailedDataTx, false)
      else if close then (report_utp_outcome protocol m Outbound Success, true)
      else (report_utp_outcome protocol m Outbound FailedShutdown, false)
  | None => (report_utp_outcome protocol m Outbound FailedDataTx, false)
  end.

(** Content that a peer serves by way of a connection id. *)
Definition fetch_task m (connected read : bool) : t :=
  let m := report_utp_active_inc protocol m Inbound in
  if negb connected then report_utp_outcome protocol m Inbound FailedConnection
  else if negb read then report_utp_outcome protocol m Inbound FailedDataTx
  else report_utp_outcome protocol m Inbound Success.

(** Content that is served by way of a connection id. *)
Definition serve_task m (accepted : bool) (content : bytes) (write : option Z) (close : bool) : t :=
  let m := report_utp_active_inc protocol m Outbound in
  if negb accepted then report_utp_outcome protocol m Outbound FailedConnection
  else (send_utp_content m content write close).1.

(** The transfer of an offer that was accepted here. *)
Definition receive_task m (accepted read : bool) : t :=
  let m := report_utp_active_inc protocol m Inbound in
  if negb accepted then report_utp_outcome protocol m Inbound FailedConnection
  else if negb read then report_utp_outcome protocol m Inbound FailedDataTx
  else report_utp_outcome protocol m Inbound Success.

(** The transfer of an offer that a peer accepted; the task ends when there is no payload. *)
Definition offer_task m (connected : bool) (payload : res OfferError bytes) (write : option Z) (close : bool) : t :=
  let m := report_utp_active_inc protocol m Outbound in
  if negb connected then report_utp_outcome protocol m Outbound FailedConnection
  else
    match payload with
    | Ok payload => (send_utp_content m payload write close).1
    | _ => m
    end.
End Tasks.

(** ** Counting *)

Section Counting.
Context `{E : EnrLib}.
Implicit Types (m : t).

(** A report of some network. *)
Inductive report :=
| OutboundRequest (r : Request.t)
| InboundRequest (r : Request.t)
| OutboundResponse (r : Response.t)
| InboundResponse (r : Response.t)
| ActiveInc (d : UtpDirectionLabel)
| Outcome (d : UtpDirectionLabel) (o : UtpOutcomeLabel)
| Validated (success : bool).

Definition apply (protocol : bytes) (r : report) m : t :=
  match r with
  | OutboundRequest r => report_outbound_request protocol m r
  | InboundRequest r => report_inbound_request protocol m r
  | OutboundResponse r => report_outbound_response protocol m r
  | InboundResponse r => report_inbound_response protocol m r
  | ActiveInc d => report_utp_active_inc protocol m d
  | Outcome d o => report_utp_outcome protocol m d o
  | Validated b => report_validation protocol m b
  end.

Definition run (l : list (bytes * report)) m : t := foldl (fun m pr => apply pr.1 pr.2 m) m l.

(** What a report is counted as. *)
Definition as_message (r : report) : option (MessageDirectionLabel * MessageLabel) :=
  match r with
  | OutboundRequest r => Some (Sent, Labels.of_request r)
  | InboundRequest r => Some (Received, Labels.of_request r)
  | OutboundResponse r => Some (Sent, Labels.of_response r)
  | InboundResponse r => Some (Received, Labels.of_response r)
  | _ => None
  end.
Definition as_outcome (r : report) : option (UtpDirectionLabel * UtpOutcomeLabel) :=
  match r with Outcome d o => Some (d, o) | _ => None end.
Definition as_start (r : report) : option UtpDirectionLabel := match r with ActiveInc d => Some d | _ => None end.
Definition as_end (r : report) : option UtpDirectionLabel := match r with Outcome d _ => Some d | _ => None end.
Definition as_validation (r : report) : option bool := match r with Validated b => Some b | _ => None end.

(** How often a network reported something. *)
Definition times {A} `{EqDecision A} (view : report -> option A) (p : bytes) (a : A) (l : list (bytes * report)) : Z :=
  foldr (fun pr n => (if decide (pr.1 = p /\ view pr.2 = Some a) then 1 else 0) + n) 0 l.

Lemma times_nonneg {A} `{EqDecision A} (view : report -> option A) p a l : 0 <= times view p a l <= Z.of_nat (length l).
Proof. induction l as [|pr l IH]; simpl; [lia|]. unfold times in *. destruct (decide _); lia. Qed.

#[local] Instance direction_inj : Inj (=) (=) Labels.message_direction.
Proof. by intros [] []. Qed.
#[local] Instance message_inj : Inj (=) (=) Labels.message.
Proof. by intros [] []. Qed.
#[local] Instance utp_direction_inj : Inj (=) (=) Labels.utp_direction.
Proof. by intros [] []. Qed.
#[local] Instance utp_outcome_inj : Inj (=) (=) Labels.utp_outcome.
Proof. by intros [] []. Qed.
#[local] Instance bool_text_inj : Inj (=) (=) bool_text.
Proof. by intros [] []. Qed.

Lemma value_insert c k k' z : value_of (<[k := z]> c) k' = if decide (k = k') then z else value_of c k'.
Proof. unfold value_of. rewrite lookup_insert. by case_decide. Qed.

(** Label values tell networks and labels apart. *)
Lemma labels_inj {A B} (f : A -> bytes) (g : B -> bytes) `{!Inj (=) (=) f} `{!Inj (=) (=) g} q p a a' b b' :
  [q; f a; g b] = [p; f a'; g b'] <-> q = p /\ Some (a, b) = Some (a', b').
Proof. split; [by intros [= -> ->%(inj f) ->%(inj g)]|by intros [-> [= -> ->]]]. Qed.
Lemma labels_inj2 {A} (f : A -> bytes) `{!Inj (=) (=) f} q p a a' : [q; f a] = [p; f a'] <-> q = p /\ Some a = Some a'.
Proof. split; [by intros [= -> ->%(inj f)]|by intros [-> [= ->]]]. Qed.

(** What one report does to the reading of each counter. *)
Definition hits {A} `{EqDecision A} (view : report -> option A) (p : bytes) (a : A) (pr : bytes * report) : bool :=
  bool_decide (pr.1 = p /\ view pr.2 = Some a).

Lemma times_snoc {A} `{EqDecision A} (view : report -> option A) p a l pr :
  times view p a (l ++ [pr]) = times view p a l + if hits view p a pr then 1 else 0.
Proof.
  unfold times, hits. induction l as [|x l IH]; simpl; [|rewrite IH; lia].
  by destruct (decide _) as [Hd|Hd]; [rewrite bool_decide_eq_true_2|rewrite bool_decide_eq_false_2].
Qed.

Ltac reading inj_lemma :=
  cbn [apply fst snd]; unfold report_outbound_request, report_inbound_request, report_outbound_response,
    report_inbound_response, increment_message_total, report_utp_outcome, report_utp_active_inc, report_utp_active_dec,
    report_validation, inc, gauge_inc, gauge_dec, hits;
  cbn [message_total utp_outcome_total utp_active_gauge validation_total fst snd as_message as_outcome as_start as_end as_validation];
  rewrite ?value_insert;
  match goal with
  | |- context [@decide ?P ?D] =>
      destruct (@decide P D) as [H|H];
      [ rewrite bool_decide_eq_true_2 by (apply inj_lemma in H; exact H); rewrite H; reflexivity
      | rewrite bool_decide_eq_false_2 by (intros H'; apply H, inj_lemma, H'); reflexivity ]
  | |- context [@bool_decide ?P _] => by rewrite bool_decide_eq_false_2 by naive_solver
  end.

Lemma apply_message pr m p d x :
  message_total_by_labels p (apply pr.1 pr.2 m) d x
  = if hits as_message p (d, x) pr then wrap64 (message_total_by_labels p m d x + 1)
    else message_total_by_labels p m d x.
Proof.
  destruct pr as [q r]. unfold message_total_by_labels.
  destruct r; reading (labels_inj Labels.message_direction Labels.message).
Qed.

Lemma apply_outcome pr m p d o :
  utp_outcomes p (apply pr.1 pr.2 m) d o
  = if hits as_outcome p (d, o) pr then wrap64 (utp_outcomes p m d o + 1) else utp_outcomes p m d o.
Proof. destruct pr as [q r]. unfold utp_outcomes.
  destruct r; reading (labels_inj Labels.utp_direction Labels.utp_outcome). Qed.

Lemma apply_validation pr m p b :
  validation_total_by_outcome p (apply pr.1 pr.2 m) b
  = if hits as_validation p b pr then wrap64 (validation_total_by_outcome p m b + 1) else validation_total_by_outcome p m b.
Proof. destruct pr as [q r]. unfold validation_total_by_outcome.
  destruct r; reading (labels_inj2 bool_text). Qed.

Definition active p m d : Z := value_of (utp_active_gauge m) [p; Labels.utp_direction d].

Lemma apply_active pr m p d :
  active p (apply pr.1 pr.2 m) d
  = if hits as_start p d pr then wrap_i64 (active p m d + 1)
    else if hits as_end p d pr then wrap_i64 (active p m d - 1) else active p m d.
Proof.
  destruct pr as [q r]. unfold active.
  assert (Hf : forall A (v : report -> option A) `{EqDecision A} a, v r = None -> hits v p a (q, r) = false).
  { intros A v ? a Hv. apply bool_decide_eq_false_2. simpl. rewrite Hv. naive_solver. }
  destruct r; rewrite ?(Hf _ as_start) by done; try (rewrite (Hf _ as_end) by done);
    try reflexivity; reading (labels_inj2 Labels.utp_direction).
Qed.

Lemma wrap64_below z : 0 <= z < 2 ^ 63 -> wrap64 z = z.
Proof. intros Hz. apply Z.mod_small. unfold U64_MOD. lia. Qed.
Lemma wrap_i64_small z : - 2 ^ 63 <= z < 2 ^ 63 -> wrap_i64 z = z.
Proof. intros Hz. unfold wrap_i64. rewrite Z.mod_small by (unfold U64_MOD; lia). lia. Qed.

(** Every counter shows how often its network reported what it counts, whatever the others
    report; the gauge of streams, how many more started than ended. *)
Record counted (l : list (bytes * report)) m : Prop := {
  counted_message p d x : message_total_by_labels p m d x = times as_message p (d, x) l;
  counted_outcome p d o : utp_outcomes p m d o = times as_outcome p (d, o) l;
  counted_active p d : active p m d = times as_start p d l - times as_end p d l;
  counted_validation p b : validation_total_by_outcome p m b = times as_validation p b l;
}.

Lemma run_snoc l pr m : run (l ++ [pr]) m = apply pr.1 pr.2 (run l m).
Proof. unfold run. by rewrite foldl_app. Qed.

Lemma run_counted l : Z.of_nat (length l) < 2 ^ 63 -> counted l (run l new).
Proof.
  induction l as [|pr l IH] using rev_ind; intros Hl; [by split|]. rewrite length_app in Hl. simpl in Hl.
  destruct (IH ltac:(lia)) as [H1 H2 H3 H4]. rewrite run_snoc.
  split; intros p; intros; rewrite ?apply_message, ?apply_outcome, ?apply_active, ?apply_validation, ?times_snoc,
    ?H1, ?H2, ?H3, ?H4.
  - pose proof (times_nonneg as_message p (d, x) l). destruct (hits _ _ _ _); [rewrite wrap64_below|]; lia.
  - pose proof (times_nonneg as_outcome p (d, o) l). destruct (hits _ _ _ _); [rewrite wrap64_below|]; lia.
  - pose proof (times_nonneg as_start p d l). pose proof (times_nonneg as_end p d l).
    destruct (hits as_start p d pr) eqn:Es.
    + assert (Ee : hits as_end p d pr = false).
      { apply bool_decide_eq_true in Es as [_ Es]. apply bool_decide_eq_false. intros [_ Ee]. by destruct pr.2. }
      rewrite Ee, wrap_i64_small; lia.
    + destruct (hits as_end p d pr); [rewrite wrap_i64_small|]; lia.
  - pose proof (times_nonneg as_validation p b l). destruct (hits _ _ _ _); [rewrite wrap64_below|]; lia.
Qed.

Lemma sum_u64_is l z : Forall (fun z => 0 <= z) l -> foldr Z.add 0 l = z -> z < U64_MOD -> sum_u64 l = z.
Proof.
  assert (H : forall l a, Forall (fun z => 0 <= z) l -> 0 <= a -> a + foldr Z.add 0 l < U64_MOD ->
    foldl (fun acc z => wrap64 (acc + z)) a l = a + foldr Z.add 0 l).
  { clear l. induction l as [|x l IH]; intros a Hl Ha Hs; simpl in *; [lia|]. apply Forall_cons in Hl as [Hx Hl].
    assert (Hr : 0 <= foldr Z.add 0 l) by (clear - Hl; induction Hl; simpl; lia).
    replace (wrap64 (a + x)) with (a + x) by (symmetry; apply Z.mod_small; lia). rewrite IH by (done || lia). lia. }
  intros Hl <- Hs. unfold sum_u64. rewrite (H l 0); [lia|done|lia|lia].
Qed.

Ltac summed := first [repeat constructor; lia | simpl; unfold U64_MOD; lia].

(** The summaries that a node logs show what its network reported, as long as no transfer
    ended that had not started: the streams that are active, how transfers ended, the
    answers to offers, and the validations. *)
Theorem summaries_faithful l p :
  Z.of_nat (length l) < 2 ^ 60 ->
  (forall d, times as_end p d l <= times as_start p d l) ->
  let active d := times as_start p d l - times as_end p d l in
  let ended d o := times as_outcome p (d, o) l in
  let failed d := ended d FailedConnection + ended d FailedDataTx + ended d FailedShutdown in
  let both (f : UtpDirectionLabel -> Z) := total_text (f Inbound + f Outbound) (f Inbound) (f Outbound) in
  let messages d x := times as_message p (d, x) l in
  let validated b := times as_validation p b l in
  get_utp_summary p (run l new)
  = str "(in/out): active=" ++ both active ++ str ", success=" ++ both (fun d => ended d Success)
      ++ str ", failed=" ++ both failed ++ str " failed_connection=" ++ both (fun d => ended d FailedConnection)
      ++ str ", failed_data_tx=" ++ both (fun d => ended d FailedDataTx)
      ++ str ", failed_shutdown=" ++ both (fun d => ended d FailedShutdown)
  /\ get_message_summary p (run l new)
     = str "offers=" ++ ratio_text (messages Received LAccept) (messages Sent LOffer)
         ++ str ", accepts=" ++ ratio_text (messages Sent LAccept) (messages Received LOffer)
         ++ str ", validations=" ++ ratio_text (validated true) (validated true + validated false).
Proof.
  intros Hl Hends active' ended failed both messages validated.
  destruct (run_counted l ltac:(lia)) as [H1 H2 H3 H4].
  assert (Ha : forall d, utp_active_streams p (run l new) d = active' d).
  { intros d. unfold utp_active_streams. fold (active p (run l new) d). rewrite H3. pose proof (Hends d).
    pose proof (times_nonneg as_start p d l). pose proof (times_nonneg as_end p d l). unfold active'. apply wrap64_below. lia. }
  assert (Hb : forall d o, 0 <= ended d o < 2 ^ 60).
  { intros d o. pose proof (times_nonneg as_outcome p (d, o) l). unfold ended. lia. }
  assert (Hact : forall d, 0 <= active' d < 2 ^ 60).
  { intros d. pose proof (Hends d). pose proof (times_nonneg as_start p d l). pose proof (times_nonneg as_end p d l).
    unfold active'. lia. }
  assert (Hv : forall b, 0 <= validated b < 2 ^ 60).
  { intros b. pose proof (times_nonneg as_validation p b l). unfold validated. lia. }
  split.
  - assert (H2' : forall d o, utp_outcomes p (run l new) d o = ended d o) by (intros; apply H2).
    unfold get_utp_summary. rewrite !Ha, !H2'.
    unfold both, failed. clearbody active' ended.
    pose proof (Hact Inbound). pose proof (Hact Outbound).
    pose proof (Hb Inbound Success). pose proof (Hb Inbound FailedConnection).
    pose proof (Hb Inbound FailedDataTx). pose proof (Hb Inbound FailedShutdown).
    pose proof (Hb Outbound Success). pose proof (Hb Outbound FailedConnection).
    pose proof (Hb Outbound FailedDataTx). pose proof (Hb Outbound FailedShutdown).
    set (all_failed := fun d => ended d FailedConnection + ended d FailedDataTx + ended d FailedShutdown).
    rewrite (sum_u64_is _ (active' Inbound + active' Outbound)) by summed.
    rewrite (sum_u64_is _ (ended Inbound Success + ended Outbound Success)) by summed.
    rewrite (sum_u64_is _ (all_failed Inbound + all_failed Outbound)) by (unfold all_failed; summed).
    rewrite (sum_u64_is _ (all_failed Inbound)), (sum_u64_is _ (all_failed Outbound)) by (unfold all_failed; summed).
    rewrite (sum_u64_is _ (ended Inbound FailedConnection + ended Outbound FailedConnection)) by summed.
    rewrite (sum_u64_is _ (ended Inbound FailedDataTx + ended Outbound FailedDataTx)) by summed.
    rewrite (sum_u64_is _ (ended Inbound FailedShutdown + ended Outbound FailedShutdown)) by summed.
    reflexivity.
  - unfold get_message_summary. rewrite !H1, !H4. fold messages.
    pose proof (Hv true). pose proof (Hv false). unfold validated in *.
    by rewrite (sum_u64_is _ (times as_validation p true l + times as_validation p false l)) by summed.
Qed.

(** ** Transfers *)

(** A task that ran to its end, with how uTP went. *)
Inductive task :=
| Fetch (connected read : bool)
| Serve (accepted : bool) (content : bytes) (write : option Z) (close : bool)
| Receive (accepted read : bool)
| SendOffer (connected : bool) (payload : res OfferError bytes) (write : option Z) (close : bool).

Definition run_task (protocol : bytes) m (k : task) : t :=
  match k with
  | Fetch connected read => fetch_task protocol m connected read
  | Serve accepted content write close => serve_task protocol m accepted content write close
  | Receive accepted read => receive_task protocol m accepted read
  | SendOffer connected payload write close => offer_task protocol m connected payload write close
  end.

Definition task_direction (k : task) : UtpDirectionLabel :=
  match k with Fetch _ _ | Receive _ _ => Inbound | Serve _ _ _ _ | SendOffer _ _ _ _ => Outbound end.

(** A connection was made for an offer whose content is not there any more. *)
Definition unfilled (k : task) : bool :=
  match k with SendOffer true payload _ _ => negb (is_ok payload) | _ => false end.

Lemma send_reports p m content write close :
  exists o, (send_utp_content p m content write close).1 = run [(p, Outcome Outbound o)] m.
Proof.
  destruct write as [n|]; cbn; [|by exists FailedDataTx]. unfold send_utp_content.
  destruct (negb _); [by exists FailedDataTx|]. destruct close; [by exists Success|by exists FailedShutdown].
Qed.

(** A task reports the start of a transfer and one end of it, an offer without content
    only the start. *)
Lemma task_reports p m k :
  exists o, run_task p m k
  = run (if unfilled k then [(p, ActiveInc (task_direction k))]
         else [(p, ActiveInc (task_direction k)); (p, Outcome (task_direction k) o)]) m.
Proof.
  destruct k as [[] []|[] content write close|[] []|[] [payload|e|] write close]; cbn [run_task unfilled is_ok negb task_direction];
    try (unfold fetch_task, receive_task, serve_task, offer_task; cbn [negb];
         first [by exists Success | by exists FailedDataTx | by exists FailedConnection]).
  - unfold serve_task; cbn [negb]. destruct (send_reports p (report_utp_active_inc p m Outbound) content write close) as [o ->].
    by exists o.
  - unfold offer_task; cbn [negb]. destruct (send_reports p (report_utp_active_inc p m Outbound) payload write close) as [o ->].
    by exists o.
Qed.

Definition run_tasks (l : list (bytes * task)) m : t := foldl (fun m pk => run_task pk.1 m pk.2) m l.

Definition unfilled_offers (p : bytes) (l : list (bytes * task)) : Z :=
  foldr (fun pk n => (if decide (pk.1 = p) then Z.b2z (unfilled pk.2) else 0) + n) 0 l.

Lemma times_app {A} `{EqDecision A} (view : report -> option A) p a l1 l2 :
  times view p a (l1 ++ l2) = times view p a l1 + times view p a l2.
Proof. unfold times. induction l1 as [|x l1 IH]; [done|]. cbn [app foldr]. rewrite IH. lia. Qed.

Lemma tasks_reports l m : exists rs, run_tasks l m = run rs m /\ Z.of_nat (length rs) <= 2 * Z.of_nat (length l)
  /\ forall p d, times as_start p d rs - times as_end p d rs
    = if decide (d = Outbound) then unfilled_offers p l else 0.
Proof.
  revert m. induction l as [|[q k] l IH]; intros m.
  { exists []. split_and!; [done|done|]. intros p d. by destruct (decide _). }
  unfold run_tasks. cbn [foldl fst snd]. destruct (task_reports q m k) as [o Ek]. rewrite Ek. fold (run_tasks l).
  set (rs0 := if unfilled k then _ else _) in *. destruct (IH (run rs0 m)) as (rs & Hrun & Hlen & Hc).
  exists (rs0 ++ rs). split_and!.
  - unfold run in *. by rewrite foldl_app.
  - rewrite length_app. cbn [length]. assert (length rs0 <= 2)%nat by (unfold rs0; destruct (unfilled k); simpl; lia). lia.
  - intros p d. rewrite !times_app. specialize (Hc p d). cbn [unfilled_offers foldr fst snd].
    fold (unfilled_offers p l).
    assert (H0 : times as_start p d rs0 - times as_end p d rs0
      = if decide (d = Outbound) then if decide (q = p) then Z.b2z (unfilled k) else 0 else 0).
    { unfold rs0, times. destruct (unfilled k) eqn:Eu; cbn [foldr fst snd as_start as_end];
        destruct k as [| | |[]]; try discriminate Eu; cbn [task_direction] in *; repeat case_decide; naive_solver. }
    destruct (decide (d = Outbound)); lia.
Qed.

(** When all transfers of a network have ended, its gauge of inbound streams is back at
    zero, but the one of outbound streams stays at the number of offers that a peer accepted
    and whose content was not there any more when it was to be sent. *)
Theorem finished_transfers l p :
  Z.of_nat (length l) < 2 ^ 60 ->
  active p (run_tasks l new) Inbound = 0 /\ active p (run_tasks l new) Outbound = unfilled_offers p l.
Proof.
  intros Hl. destruct (tasks_reports l new) as (rs & -> & Hlen & Hc).
  pose proof (counted_active _ _ (run_counted rs ltac:(lia))) as Ha. rewrite !Ha, !Hc. done.
Qed.

End Counting.

(** Content that was evicted between the offer and its acceptance. *)
Lemma evicted_content_unfilled `{E : EnrLib} `{CK : OverlayContentKey} {St : Type} `{CS : !ContentStore St}
    `{LB : Leb128} (st : St) key_bytes key cid write close :
  key_try_from key_bytes = Ok key -> store_get st key = Ok None ->
  unfilled (SendOffer true (OverlayContent.offer_payload st
    {| accept_connection_id := cid; accept_content_keys := [true] |}
    (Request.Offer {| content_keys := [key_bytes] |})) write close) = true.
Proof. intros Hk Hg. cbn [unfilled]. unfold OverlayContent.offer_payload, OverlayContent.provide_requested_content.
  cbn [content_keys res_all accept_content_keys]. rewrite Hk. cbn [map_err zip zip_with OverlayContent.provide_items].
  by rewrite Hg. Qed.
End Reports.

(** The networks of a node report under different names. *)
Lemma protocol_text_inj : Inj (=) (=) WireJson.protocol_text.
Proof. by intros [] []. Qed.

(** ** Storage metrics *)

(** The numbers of type [f64]: conversion, literals (an integer and its decimals), division,
    multiplication, comparison, and the texts of [{:.n}] and [{}]. *)
Class F64 := {
  f64 : Type;
  f64_of_Z : Z -> f64;
  f64_literal : Z -> nat -> f64;
  f64_div : f64 -> f64 -> f64;
  f64_mul : f64 -> f64 -> f64;
  f64_ge : f64 -> f64 -> bool;
  f64_fixed : nat -> f64 -> bytes;
  f64_show : f64 -> bytes;
}.

(** A decimal number that may be negative. *)
Definition show_i64 (z : Z) : bytes := if z <? 0 then str "-" ++ show_u64 (- z) else show_u64 z.

Module StorageMetrics.
Section Reporter.
Context `{F : F64}.

Record t := mk {
  content_storage_usage_bytes : gmap bytes f64;
  total_storage_usage_bytes : gmap bytes f64;
  storage_capacity_bytes : gmap bytes f64;
  radius_ratio : gmap bytes f64;
  entry_count : gmap (list bytes) Z;
}.

Definition BYTES_IN_MB_F64 : f64 := f64_mul (f64_literal 10000 1) (f64_literal 10000 1).

Definition new : t := mk ∅ ∅ ∅ ∅ ∅.
Definition gauge (g : gmap bytes f64) (protocol : bytes) : f64 := default (f64_of_Z 0) (g !! protocol).

Context (protocol : bytes).
Implicit Types (m : t).

Definition report_content_data_storage_bytes m (b : f64) : t :=
  mk (<[protocol := b]> (content_storage_usage_bytes m)) (total_storage_usage_bytes m) (storage_capacity_bytes m)
    (radius_ratio m) (entry_count m).
Definition report_total_storage_usage_bytes m (b : f64) : t :=
  mk (content_storage_usage_bytes m) (<[protocol := b]> (total_storage_usage_bytes m)) (storage_capacity_bytes m)
    (radius_ratio m) (entry_count m).
Definition report_storage_capacity_bytes m (b : f64) : t :=
  mk (content_storage_usage_bytes m) (total_storage_usage_bytes m) (<[protocol := b]> (storage_capacity_bytes m))
    (radius_ratio m) (entry_count m).

(** [U256::byte] and [u32::from_be_bytes]. *)
Definition u256_byte (z : Z) (i : Z) : Z := Z.land (Z.shiftr z (8 * i)) 255.
Definition u32_from_be_bytes (l : list Z) : Z := foldl (fun acc b => 256 * acc + b) 0 l.

Definition radius_int (radius : Z) : Z :=
  let radius_high_bytes := [u256_byte radius 31; u256_byte radius 30; u256_byte radius 29; u256_byte radius 28] in
  u32_from_be_bytes radius_high_bytes.
Definition report_radius m (radius : Z) : t :=
  let coverage_ratio := f64_div (f64_of_Z (radius_int radius)) (f64_of_Z (U32_MOD - 1)) in
  mk (content_storage_usage_bytes m) (total_storage_usage_bytes m) (storage_capacity_bytes m)
    (<[protocol := coverage_ratio]> (radius_ratio m)) (entry_count m).

Definition set_entry_count m (c : gmap (list bytes) Z) : t :=
  mk (content_storage_usage_bytes m) (total_storage_usage_bytes m) (storage_capacity_bytes m) (radius_ratio m) c.
Definition report_entry_count m (count : Z) : res Empty_set t :=
  if count <? 2 ^ 63 then Ok (set_entry_count m (<[[protocol] := count]> (entry_count m))) else Panic.
Definition increase_entry_count m : t := set_entry_count m (gauge_inc (entry_count m) [protocol]).
Definition decrease_entry_count m : t := set_entry_count m (gauge_dec (entry_count m) [protocol]).

Definition precision_for_percentage (percent : f64) : nat :=
  if f64_ge percent (f64_literal 100 1) then 0
  else if f64_ge percent (f64_literal 10 1) then 1
  else if f64_ge percent (f64_literal 1 1) then 2
  else if f64_ge percent (f64_literal 1 2) then 3
  else 4.

Definition get_summary m : bytes :=
  let radius_percent := f64_mul (gauge (radius_ratio m) protocol) (f64_literal 1000 1) in
  str "radius=" ++ f64_fixed (precision_for_percentage radius_percent) radius_percent
  ++ str "% content=" ++ f64_fixed 1 (f64_div (gauge (content_storage_usage_bytes m) protocol) BYTES_IN_MB_F64)
  ++ str "/" ++ f64_show (f64_div (gauge (storage_capacity_bytes m) protocol) BYTES_IN_MB_F64)
  ++ str "mb #=" ++ show_i64 (value_of (entry_count m) [protocol])
  ++ str " disk=" ++ f64_fixed 1 (f64_div (gauge (total_storage_usage_bytes m) protocol) BYTES_IN_MB_F64) ++ str "mb".
End Reporter.
End StorageMetrics.

(** What the history storage reports of its entries: one more when it has inserted content,
    one less for each that it evicts. *)
Module HistoryReports.
Import HistoryStorage.
Section History.
Context `{F : F64} (protocol : bytes).
Context `{SQ : SqlLib} `{X : HexLib} `{KS : HistoryContentKey.HistoryKeySsz} `{HL : HashLib}.
Implicit Types (self : HistoryStorage.t) (m : StorageMetrics.t).

Definition evict_report m : StorageMetrics.t := StorageMetrics.decrease_entry_count protocol m.

Fixpoint prune_reports (fuel : nat) self (farthest_content_id : option bytes) m : StorageMetrics.t :=
  if negb (capacity_reached self) then m
  else
    match fuel, farthest_content_id with
    | S fuel, Some id_to_remove =>
        match does_eviction_cause_under_capacity self id_to_remove with
        | Ok false =>
            let self := evict self id_to_remove in
            let m := evict_report m in
            match find_farthest_content_id self with
            | Ok None => prune_reports fuel (set_radius self Distance_ZERO) farthest_content_id m
            | Ok (Some farthest) =>
                prune_reports fuel (set_radius self (distance_to_content_id self farthest)) (Some farthest) m
            | _ => m
            end
        | _ => m
        end
    | _, _ => m
    end.

Definition store_reports self (key : HistoryContentKey.t) (value : bytes) m : StorageMetrics.t :=
  let content_id := HistoryContentKey.content_id key in
  if radius self <? distance_to_content_id self content_id then m
  else
    let content_key := trim_0x (hex_encode (HistoryContentKey.into key)) in
    match db_insert self content_id content_key value with
    | Ok self =>
        let m := StorageMetrics.increase_entry_count protocol m in
        match find_farthest_content_id self with
        | Ok farthest => prune_reports (S (length (db self))) self farthest m
        | _ => m
        end
    | _ => m
    end.

Definition entries m : Z := value_of (StorageMetrics.entry_count m) [protocol].

Lemma evict_entries e m : entries m < 2 ^ 63 -> - 2 ^ 63 <= entries m - Z.of_nat e ->
  entries (Nat.iter e evict_report m) = entries m - Z.of_nat e.
Proof.
  induction e as [|e IH]; intros H1 H2; simpl; [lia|].
  set (m' := Nat.iter e evict_report m) in *. specialize (IH H1 ltac:(lia)).
  unfold entries, evict_report, StorageMetrics.decrease_entry_count, gauge_dec. cbn [StorageMetrics.entry_count StorageMetrics.set_entry_count].
  rewrite Reports.value_insert, decide_True by done. fold (entries m'). fold (entries m).
  rewrite Reports.wrap_i64_small; lia.
Qed.

(** A pruning that ends well reports as many evictions as it counts. *)
Lemma prune_reports_count fuel : forall self farthest k self' n m,
  prune_loop fuel self farthest k = Some (self', Ok n) ->
  exists e, n = k + Z.of_nat e /\ prune_reports fuel self farthest m = Nat.iter e evict_report m.
Proof.
  induction fuel as [|fuel IH]; intros self farthest k self' n m; cbn [prune_loop prune_reports];
    destruct (negb _); try done; try (intros [= _ ->]; exists 0%nat; split; [lia|done]).
  destruct farthest as [id|]; [|done].
  destruct (does_eviction_cause_under_capacity _ _) as [[]| |]; [intros [= _ ->]; exists 0%nat; split; [lia|done]| |done..].
  destruct (find_farthest_content_id _) as [[far|]| |]; [| |done..];
    intros [e [-> ->]]%(IH _ _ _ _ _ (evict_report m)); exists (S e); (split; [lia|]); symmetry; apply Nat.iter_succ_r.
Qed.

Context `{!SqlLibOk SQ} `{!HexLibOk X} `{!HashLibOk HL}.

Lemma insert_length row l :
  length (insert_or_ignore row l) = (length l + if existsb (fun r => bool_decide (content_id_long r = content_id_long row)) l then 0 else 1)%nat.
Proof. unfold insert_or_ignore. destruct (existsb _ l); [lia|]. rewrite length_app. simpl. lia. Qed.

Lemma stored_before self key :
  existsb (fun r => bool_decide (content_id_long r = HistoryContentKey.content_id key)) (db self)
  = match get self key with Ok None => false | _ => true end.
Proof.
  pose proof (get_none self key) as Hg. destruct (existsb _ _) eqn:E.
  - destruct (get self key) as [[]| |]; try done. exfalso. apply existsb_exists in E as (r & Hr & E).
    apply bool_decide_eq_true in E. destruct Hg as [Hg _]. specialize (Hg eq_refl).
    assert (Hin : r ∈ rows_by_id (db self) (HistoryContentKey.content_id key)).
    { apply list_elem_of_filter. split; [done|by apply list_elem_of_In]. }
    rewrite Hg in Hin. by apply elem_of_nil in Hin.
  - destruct Hg as [_ Hg]. rewrite Hg; [done|]. apply filter_none. intros r Hr Hid.
    assert (existsb (fun r => bool_decide (content_id_long r = HistoryContentKey.content_id key)) (db self) = true); [|congruence].
    apply existsb_exists. exists r. split; [by apply list_elem_of_In|by apply bool_decide_eq_true].
Qed.

(** Storing content within the radius: the number of entries that is shown is right as long
    as only new content is stored; storing content that is there already, which the table
    ignores, shows one entry too many. *)
Theorem history_entries_reported self disk key value self' r m :
  storage_inv self -> total_of (db self) + Z.of_nat (length value) < U64_MOD ->
  distance_to_content_id self (HistoryContentKey.content_id key) <= radius self ->
  entries m = total_entry_count self -> Z.of_nat (length (db self)) < 2 ^ 62 ->
  store self disk key value = Some (self', r) ->
  entries (store_reports self key value m)
  = total_entry_count self' + match get self key with Ok None => 0 | _ => 1 end.
Proof.
  intros Hinv Htot Hin Hent Hlen Hstore. unfold store_reports.
  rewrite (proj2 (Z.ltb_ge _ _)) by lia. rewrite db_insert_spec. set (row := new_row self key value).
  destruct (insert_ok self row Hinv (new_row_ok self key value) eq_refl Htot Hin) as [[H1 _] _].
  set (s1 := set_db self (insert_or_ignore row (db self))) in *.
  destruct (prune_db_ok s1 H1) as (s2 & removed & Hp & H2 & _ & Hpr).
  assert (s2 = self') as ->.
  { unfold store in Hstore. rewrite (proj2 (Z.ltb_ge _ _)) in Hstore by lia. rewrite db_insert_spec in Hstore.
    fold row in Hstore. fold s1 in Hstore. rewrite Hp in Hstore. by injection Hstore. }
  assert (Hcount : Z.of_nat (length (db s1)) = Z.of_nat (length removed) + Z.of_nat (length (db self'))).
  { destruct (capacity_reached s1); [|by destruct Hpr as [-> ->]]. destruct Hpr as (Hperm & _).
    rewrite Hperm, length_app. lia. }
  unfold total_entry_count in *. rewrite own_rows_all in Hent by apply Hinv. rewrite own_rows_all by done.
  cbn [db s1 set_db] in Hcount. rewrite insert_length in Hcount.
  pose proof (stored_before self key) as Hnew. cbn [content_id_long row new_row] in Hcount. rewrite Hnew in Hcount.
  unfold prune_db in Hp. destruct (find_farthest_content_id s1) as [far| |]; [|done..].
  destruct (prune_reports_count _ _ _ _ _ _ (StorageMetrics.increase_entry_count protocol m) Hp) as (e & He & ->).
  assert (Hi : entries (StorageMetrics.increase_entry_count protocol m) = entries m + 1).
  { unfold entries at 1, StorageMetrics.increase_entry_count, gauge_inc.
    cbn [StorageMetrics.entry_count StorageMetrics.set_entry_count]. rewrite Reports.value_insert, decide_True by done.
    fold (entries m). rewrite Reports.wrap_i64_small; lia. }
  clear Hnew. destruct (get self key) as [[]| |]; cbv iota in Hcount; rewrite evict_entries; lia.
Qed.
End History.
End HistoryReports.

(** The part of the key space that the radius is reported to cover is the leading 32 bits of
    the radius. *)
Lemma radius_int_spec radius : is_u256 radius -> StorageMetrics.radius_int radius = Z.shiftr radius 224.
Proof.
  intros Hr. unfold StorageMetrics.radius_int, StorageMetrics.u32_from_be_bytes, StorageMetrics.u256_byte.
  change 255 with (Z.ones 8). rewrite !Z.land_ones by lia. cbn [foldl]. unfold is_u256, U256_MOD in Hr.
  rewrite !Z.shiftr_div_pow2 by lia.
  assert (H1 : radius / 2 ^ (8 * 31) = radius / 2 ^ 224 / 2 ^ 24) by (rewrite Z.div_div by lia; done).
  assert (H2 : radius / 2 ^ (8 * 30) = radius / 2 ^ 224 / 2 ^ 16) by (rewrite Z.div_div by lia; done).
  assert (H3 : radius / 2 ^ (8 * 29) = radius / 2 ^ 224 / 2 ^ 8) by (rewrite Z.div_div by lia; done).
  change (8 * 28) with 224. rewrite H1, H2, H3.
  assert (Hq : 0 <= radius / 2 ^ 224 < 2 ^ 32).
  { split; [apply Z.div_pos; lia|]. apply Z.div_lt_upper_bound; lia. }
  set (q := radius / 2 ^ 224) in *. clearbody q. clear H1 H2 H3 Hr.
  change (2 ^ 24) with 16777216. change (2 ^ 16) with 65536. change (2 ^ 8) with 256. change (2 ^ 32) with 4294967296 in Hq.
  Z.div_mod_to_equations. lia.
Qed.
