(* ===== verification/HistoryValidation.v ===== *)
(** * History content and its validation.

    The SSZ form of [HeaderWithProof] ([execution/header.rs]), the values of the history
    network ([content_value/history.rs]), the header oracle ([trin-validation/src/oracle.rs])
    and the validator of the history network ([trin-history/src/validation.rs]).  What the
    oracle receives from the history network during one call is the class [HeaderNetwork];
    other calls can meet other answers. *)

From stdpp Require Import gmap.
From S2P Require Import Prelude.
From S2P Require Import Distance.
From S2P Require Import Merkle.
From S2P Require Import Header.
From S2P Require Import Hex.
From S2P Require Import Accumulator.
From S2P Require Import ContentKey.
From S2P Require Import SszList.
From S2P Require Import BeaconValue.
From S2P Require Import Transaction.
From S2P Require Import BlockBody.
From S2P Require Import ExecutionTyping.

(** ** Headers with proofs *)

Section HeaderSsz.
Context `{RlpTree} `{VarSsz}.

(** Pieces of 32 bytes; the last must be complete. *)
Fixpoint chunks32 (fuel : nat) (b : bytes) : res SszDecodeError (list H256) :=
  match fuel, b with
  | _, [] => Ok []
  | O, _ => Err BytesInvalid
  | S fuel, _ =>
      if (length b <? 32)%nat then Err BytesInvalid
      else
        let? rest := chunks32 fuel (drop 32 b) in
        Ok (take 32 b :: rest)
  end.

Definition accumulator_proof_from_ssz (b : bytes) : res SszDecodeError BlockHeaderProof :=
  let? vec := chunks32 (length b) b in
  if (length vec =? 15)%nat then Ok (AccumulatorProof vec) else Err BytesInvalid.

(** [SszNone]: only no bytes. *)
Definition none_from_ssz (b : bytes) : res SszDecodeError BlockHeaderProof :=
  match b with [] => Ok ProofNone | _ => Err BytesInvalid end.

(** The derived union: a selector, then the variant. *)
Definition proof_as_ssz (p : BlockHeaderProof) : bytes :=
  match p with
  | ProofNone => [x00]
  | AccumulatorProof proof => x01 :: concat proof
  end.

Definition proof_from_ssz (b : bytes) : res SszDecodeError BlockHeaderProof :=
  match b with
  | x00 :: body => none_from_ssz body
  | x01 :: body => accumulator_proof_from_ssz body
  | _ => Err BytesInvalid
  end.

(** [ByteList] keeps at most 2048 bytes. *)
Definition byte_list (b : bytes) : bytes := take 2048 b.

Definition hwp_as_ssz (self : HeaderWithProof) : bytes :=
  let header := byte_list (Header.encode (hwp_header self)) in
  container_join [header; proof_as_ssz (hwp_proof self)].

Definition hwp_from_ssz (b : bytes) : res SszDecodeError HeaderWithProof :=
  let? parts := container_split 2 b in
  match parts with
  | [header_rlp; proof] =>
      let? proof := proof_from_ssz proof in
      let? header := map_err (fun _ => BytesInvalid) (Header.rlp_decode header_rlp) in
      Ok {| hwp_header := header; hwp_proof := proof |}
  | _ => Err BytesInvalid
  end.
End HeaderSsz.

(** ** Content values *)

Class EpochEncoding := { epoch_acc_as_ssz : EpochAccumulator -> bytes }.

Module HistoryContentValue.
Inductive t :=
| BlockHeaderWithProof (v : HeaderWithProof)
| BlockBody (v : BlockBody.t)
| Receipts (v : Receipts.t)
| EpochAccumulator (v : Accumulator.EpochAccumulator).

Section Operations.
Context `{RlpTree} `{VarSsz} `{EpochLib} `{EpochEncoding} `{HexLib}.

Definition encode (self : t) : bytes :=
  match self with
  | BlockHeaderWithProof value => hwp_as_ssz value
  | BlockBody value => BlockBody.as_ssz_bytes value
  | Receipts value => Receipts.as_ssz_bytes value
  | EpochAccumulator value => epoch_acc_as_ssz value
  end.

(** The decoders in turn. *)
Definition try_decoders {E} (buf : bytes) (otherwise : res E t) : res E t :=
  or_else (res_map BlockHeaderWithProof (hwp_from_ssz buf)) (
  or_else (res_map BlockBody (BlockBody.from_ssz_bytes buf)) (
  or_else (res_map Receipts (Receipts.from_ssz_bytes buf)) (
  match epoch_acc_from_ssz buf with
  | Some value => Ok (EpochAccumulator value)
  | None => otherwise
  end))).

Definition decode (buf : bytes) : res ContentValueError t :=
  if decide (buf = CONTENT_ABSENT) then Err DecodeAbsentContent
  else try_decoders buf (Err (UnknownContent (hex_encode buf))).

(** JSON: the hex string of the encoding. *)
Definition serialize (self : t) : bytes := hex_encode (encode self).

Definition deserialize (s : bytes) : res BeaconContentValue.json_error t :=
  let? content_bytes := map_err BeaconContentValue.HexError (hex_decode s) in
  try_decoders content_bytes (Err (BeaconContentValue.ValueError (UnknownContent s))).
End Operations.
End HistoryContentValue.

Module PossibleHistoryContentValue.
Inductive t :=
| ContentPresent (v : HistoryContentValue.t)
| ContentAbsent.

Section Operations.
Context `{RlpTree} `{VarSsz} `{EpochLib} `{EpochEncoding} `{HexLib}.

Definition serialize (self : t) : bytes :=
  match self with
  | ContentPresent content => HistoryContentValue.serialize content
  | ContentAbsent => CONTENT_ABSENT
  end.

Definition deserialize (s : bytes) : res BeaconContentValue.json_error t :=
  if decide (s = CONTENT_ABSENT) then Ok ContentAbsent
  else res_map ContentPresent (HistoryContentValue.deserialize s).
End Operations.
End PossibleHistoryContentValue.

(** ** The header oracle *)

(** What the channel to the history network delivers for a header: its JSON is one of the
    variants of [ContentInfo], or none. *)
Inductive header_reply :=
| HeaderSendFailed
| HeaderNoResponse
| HeaderRequestError
| HeaderBadJson
| HeaderConnectionId
| HeaderEnrs
| HeaderContent (content : bytes).

(** What comes back over [history_jsonrpc_tx] during one call: for [RecursiveFindContent]
    of a header (read as [ContentInfo]), and of an epoch accumulator (read as a string). *)
Class HeaderNetwork := {
  find_header : HistoryContentKey.t -> header_reply;
  find_epoch : epoch_channel;
}.

Inductive ValidationError :=
| HeaderEncoding
| InvalidHeaderHash
| HeaderProof (e : AccError)
| BodyEncoding
| OracleUnavailable
| OracleError
| InvalidUnclesRoot
| InvalidTransactionsRoot
| RootError (e : BodyError)
| ReceiptsEncoding
| InvalidReceiptsRoot
| EpochEncodingError
| InvalidEpochRoot
| EpochNotInMaster.

Module HeaderOracle.
(** Whether the history and the beacon network are attached, and the accumulator. *)
Record t := mk { history_jsonrpc_tx : bool; beacon_jsonrpc_tx : bool; master_acc : MasterAccumulator.t }.

Section Operations.
Context `{Eth2Hashing} `{RlpTree} `{VarSsz} `{EpochLib} `{EpochEncoding} `{HexLib} `{HN : HeaderNetwork}.

Definition new (master_acc : MasterAccumulator.t) : t := mk false false master_acc.

Definition get_hash_at_height (self : t) (block_number : Z) : res ValidationError H256 :=
  if history_jsonrpc_tx self then
    map_err HeaderProof (MasterAccumulator.lookup_premerge_hash_by_number (master_acc self) block_number find_epoch)
  else Err OracleUnavailable.

Definition recursive_find_header_with_proof (self : t) (block_hash : H256) : res ValidationError HeaderWithProof :=
  if history_jsonrpc_tx self then
    match find_header (HistoryContentKey.BlockHeaderWithProof block_hash) with
    | HeaderContent content =>
        let? content := map_err (fun _ => OracleError) (PossibleHistoryContentValue.deserialize content) in
        match content with
        | PossibleHistoryContentValue.ContentPresent (HistoryContentValue.BlockHeaderWithProof content) => Ok content
        | _ => Err OracleError
        end
    | _ => Err OracleError
    end
  else Err OracleUnavailable.
End Operations.
End HeaderOracle.

(** ** The validator *)

Module ChainHistoryValidator.
Section Operations.
Context `{Eth2Hashing} `{RlpTree} `{VarSsz} `{TrieLib} `{EpochLib} `{EpochEncoding} `{HexLib} `{HN : HeaderNetwork}.

Definition validate_header (self : HeaderOracle.t) (block_hash : H256) (content : bytes) : res ValidationError unit :=
  let? header_with_proof := map_err (fun _ => HeaderEncoding) (hwp_from_ssz content) in
  let header_hash := Header.hash (hwp_header header_with_proof) in
  if negb (bool_decide (header_hash = block_hash)) then Err InvalidHeaderHash
  else
    map_err HeaderProof
      (MasterAccumulator.validate_header_with_proof (HeaderOracle.master_acc self) header_with_proof).

Definition validate_body (self : HeaderOracle.t) (block_hash : H256) (content : bytes) : res ValidationError unit :=
  let? block_body := map_err (fun _ => BodyEncoding) (BlockBody.from_ssz_bytes content) in
  let? hwp := HeaderOracle.recursive_find_header_with_proof self block_hash in
  let trusted_header := hwp_header hwp in
  let? actual_uncles_root := map_err RootError (BlockBody.uncles_root block_body) in
  if negb (bool_decide (actual_uncles_root = Header.uncles_hash trusted_header)) then Err InvalidUnclesRoot
  else
    let? actual_txs_root := map_err RootError (BlockBody.transactions_root block_body) in
    if negb (bool_decide (actual_txs_root = Header.transactions_root trusted_header))
    then Err InvalidTransactionsRoot
    else Ok tt.

Definition validate_receipts (self : HeaderOracle.t) (block_hash : H256) (content : bytes)
    : res ValidationError unit :=
  let? receipts := map_err (fun _ => ReceiptsEncoding) (Receipts.from_ssz_bytes content) in
  let? hwp := HeaderOracle.recursive_find_header_with_proof self block_hash in
  let trusted_header := hwp_header hwp in
  let? actual_receipts_root := map_err RootError (Receipts.root receipts) in
  if negb (bool_decide (actual_receipts_root = Header.receipts_root trusted_header)) then Err InvalidReceiptsRoot
  else Ok tt.

Definition validate_epoch (self : HeaderOracle.t) (epoch_hash : H256) (content : bytes) : res ValidationError unit :=
  let? epoch_acc := ok_or (epoch_acc_from_ssz content) EpochEncodingError in
  let tree_hash_root := tree_hash_root epoch_acc in
  if negb (bool_decide (epoch_hash = tree_hash_root)) then Err InvalidEpochRoot
  else if negb (bool_decide (tree_hash_root ∈ MasterAccumulator.historical_epochs (HeaderOracle.master_acc self)))
  then Err EpochNotInMaster
  else Ok tt.

Definition validate_content (self : HeaderOracle.t) (content_key : HistoryContentKey.t) (content : bytes)
    : res ValidationError unit :=
  match content_key with
  | HistoryContentKey.BlockHeaderWithProof block_hash => validate_header self block_hash content
  | HistoryContentKey.BlockBody block_hash => validate_body self block_hash content
  | HistoryContentKey.BlockReceipts block_hash => validate_receipts self block_hash content
  | HistoryContentKey.EpochAccumulator epoch_hash => validate_epoch self epoch_hash content
  end.
End Operations.
End ChainHistoryValidator.

(** ** Round trips *)

Section Values.
Context {R : RlpLib} `{!RlpLibOk R} {T : RlpTree R} `{!RlpTreeOk T} {S : VarSsz} `{!VarSszOk S}
  `{X : HexLib} `{!HexLibOk X} `{EL : EpochLib} `{EE : EpochEncoding}.

(** Whole pieces are read back; what is read consists of pieces of 32 bytes. *)
Lemma chunks32_concat proof : forall fuel,
  Forall is_b32 proof -> (length proof <= fuel)%nat -> chunks32 fuel (concat proof) = Ok proof.
Proof.
  induction proof as [|h proof IH]; intros fuel Hp Hf; [by destruct fuel|].
  apply Forall_cons in Hp as [Hh Hp]. unfold is_b32 in Hh. destruct fuel as [|fuel]; [simpl in Hf; lia|].
  cbn [concat]. destruct h as [|c h]; [done|]. cbn [chunks32 app].
  change (c :: h ++ concat proof) with ((c :: h) ++ concat proof).
  rewrite (proj2 (Nat.ltb_ge _ _)) by (rewrite length_app; lia).
  rewrite drop_app_length', take_app_length' by done. rewrite IH; [done|done|]. simpl in Hf. lia.
Qed.

Lemma chunks32_b32 fuel : forall b l, chunks32 fuel b = Ok l -> Forall is_b32 l.
Proof.
  induction fuel as [|fuel IH]; intros [|c b] l; simpl; [by intros [= <-]|done|by intros [= <-]|].
  destruct (Nat.ltb_spec (Datatypes.S (length b)) 32) as [|Hl]; [done|].
  destruct (chunks32 fuel _) as [rest| |] eqn:E; [|done..]. intros [= <-].
  apply Forall_cons. split; [|by eapply IH]. unfold is_b32. simpl. rewrite length_take. lia.
Qed.

Lemma proof_roundtrip p : proof_wf p -> proof_from_ssz (proof_as_ssz p) = Ok p.
Proof.
  destruct p as [|proof]; [done|]. intros [Hl Hp]. simpl. unfold accumulator_proof_from_ssz.
  rewrite chunks32_concat; [by rewrite Hl| done|].
  clear Hl. induction Hp as [|h proof Hh _ IH]; simpl; [lia|]. rewrite length_app. unfold is_b32 in Hh. lia.
Qed.

Lemma proof_from_ssz_wf b p : proof_from_ssz b = Ok p -> proof_wf p.
Proof.
  destruct b as [|[] b]; try done; cbn [proof_from_ssz].
  - destruct b; [by intros [= <-]|done].
  - unfold accumulator_proof_from_ssz. destruct (chunks32 _ b) as [l| |] eqn:E; [|done..].
    destruct (Nat.eqb_spec (length l) 15); [|done]. intros [= <-]. split; [done|]. by eapply chunks32_b32.
Qed.

(** A header that fits into its field. *)
Definition hwp_wf (v : HeaderWithProof) : Prop :=
  Header.wf (hwp_header v) /\ Header.decoder_shape (hwp_header v) /\ proof_wf (hwp_proof v)
  /\ (length (Header.encode (hwp_header v)) <= 2048)%nat /\ small (hwp_as_ssz v).

Lemma hwp_roundtrip v : hwp_wf v -> hwp_from_ssz (hwp_as_ssz v) = Ok v.
Proof.
  intros (Hw & Hc & Hp & Hl & Hs). unfold hwp_from_ssz. unfold hwp_as_ssz, byte_list in *.
  rewrite take_ge in * by done. rewrite two_parts_ok, proof_roundtrip by done.
  unfold Header.rlp_decode, Header.encode. rewrite dec_enc_list, Header.header_decode_items by done. by destruct v.
Qed.

(** A list is not the proof of a header. *)
Lemma proof_rejects_list l : exists e, proof_from_ssz (enc_list l) = Err e.
Proof.
  destruct (enc_list_head l) as (c & t & -> & Hc). exists BytesInvalid.
  destruct c; try reflexivity; exfalso; by apply Hc.
Qed.

Lemma hwp_rejects_body b : ssz_small b -> exists e, hwp_from_ssz (BlockBody.as_ssz_bytes b) = Err e.
Proof.
  intros [Hs _]. unfold hwp_from_ssz. destruct b as [body|body|body]; cbn [BlockBody.as_ssz_bytes] in *.
  - unfold legacy_as_ssz in *. rewrite two_parts_ok by done.
    destruct (proof_rejects_list (header_item <$> legacy_uncles body)) as [e E]. unfold encode_uncles. rewrite E. by eexists.
  - unfold merge_as_ssz in *. rewrite two_parts_ok by done.
    destruct (proof_rejects_list (header_item <$> [])) as [e E]. unfold encode_uncles. rewrite E. by eexists.
  - unfold shanghai_as_ssz.
    match goal with |- context [container_join [?p; ?q; ?r]] =>
      destruct (shanghai_not_two p q r 2 eq_refl) as [e ->] end. by eexists.
Qed.

(** Values that the decoders before their own refuse. *)
Definition value_ok (v : HistoryContentValue.t) : Prop :=
  match v with
  | HistoryContentValue.BlockHeaderWithProof v => hwp_wf v
  | HistoryContentValue.BlockBody b => body_wf b /\ ssz_small b
  | HistoryContentValue.Receipts rs =>
      Forall (receipt_wf ∘ Receipt.receipt) (Receipts.receipt_list rs)
      /\ Z.of_nat (length (Receipts.receipt_list rs)) <= MAX_TRANSACTION_COUNT /\ small (Receipts.as_ssz_bytes rs)
      /\ (exists e, hwp_from_ssz (Receipts.as_ssz_bytes rs) = Err e)
      /\ (exists e, BlockBody.from_ssz_bytes (Receipts.as_ssz_bytes rs) = Err e)
  | HistoryContentValue.EpochAccumulator acc =>
      epoch_acc_from_ssz (epoch_acc_as_ssz acc) = Some acc
      /\ (exists e, hwp_from_ssz (epoch_acc_as_ssz acc) = Err e)
      /\ (exists e, BlockBody.from_ssz_bytes (epoch_acc_as_ssz acc) = Err e)
      /\ (exists e, Receipts.from_ssz_bytes (epoch_acc_as_ssz acc) = Err e)
  end.

(** What is read back: merge bodies as legacy ones. *)
Definition value_read (v : HistoryContentValue.t) : HistoryContentValue.t :=
  match v with
  | HistoryContentValue.BlockBody b => HistoryContentValue.BlockBody (as_read b)
  | v => v
  end.

Lemma history_decoders {E} v (otherwise : res E HistoryContentValue.t) :
  value_ok v -> HistoryContentValue.try_decoders (HistoryContentValue.encode v) otherwise = Ok (value_read v).
Proof.
  intros Hv. unfold HistoryContentValue.try_decoders. destruct v as [v|b|rs|acc]; cbn [HistoryContentValue.encode value_ok] in *.
  - by rewrite hwp_roundtrip.
  - destruct Hv as [Hb Hs]. destruct (hwp_rejects_body b Hs) as [e ->]. simpl.
    by rewrite (body_ssz_decodes b Hb Hs).
  - destruct Hv as (Hr & Hl & Hs & [e1 ->] & [e2 ->]). simpl. by rewrite receipts_ssz_roundtrip.
  - destruct Hv as (Ha & [e1 ->] & [e2 ->] & [e3 ->]). simpl. by rewrite Ha.
Qed.

End Values.

(** ** What validation establishes *)

Section Validation.
Context {EH : Eth2Hashing} `{!Eth2HashingOk EH} {R : RlpLib} `{!RlpLibOk R} `{!RlpTyped R} {T : RlpTree R} `{!RlpTreeOk T}
  {S : VarSsz} `{!VarSszOk S} {M : TrieLib} {TM : TrieLibOk M} `{X : HexLib}
  {EL : EpochLib} `{!EpochLibOk EL} `{EE : EpochEncoding} `{HN : HeaderNetwork}.
Implicit Types (self : HeaderOracle.t).
Import ChainHistoryValidator.

Lemma hwp_from_ssz_wf b v : hwp_from_ssz b = Ok v -> proof_wf (hwp_proof v).
Proof.
  unfold hwp_from_ssz. destruct (container_split 2 b) as [[|p [|q [|]]]| |]; try done.
  destruct (proof_from_ssz q) as [proof| |] eqn:E; [|done..]. destruct (map_err _ _); [|done..]. intros [= <-].
  by eapply proof_from_ssz_wf.
Qed.

Lemma map_err_ok {E F A} (f : E -> F) (r : res E A) a : map_err f r = Ok a <-> r = Ok a.
Proof. by destruct r; split; intros; simplify_eq/=. Qed.

Lemma header_valid_inv self h content :
  validate_header self h content = Ok tt ->
  exists v, hwp_from_ssz content = Ok v /\ Header.hash (hwp_header v) = h
    /\ MasterAccumulator.validate_header_with_proof (HeaderOracle.master_acc self) v = Ok tt.
Proof.
  unfold validate_header. intros H. apply bind_ok in H as (v & Hv%map_err_ok & H).
  apply guard_ok in H as [Hh%negb_false_iff%bool_decide_eq_true H]. apply map_err_ok in H. eauto.
Qed.

Lemma body_valid_inv self h content :
  validate_body self h content = Ok tt ->
  exists b v, BlockBody.from_ssz_bytes content = Ok b /\ HeaderOracle.recursive_find_header_with_proof self h = Ok v
    /\ BlockBody.uncles_root b = Ok (Header.uncles_hash (hwp_header v))
    /\ BlockBody.transactions_root b = Ok (Header.transactions_root (hwp_header v)).
Proof.
  unfold validate_body. intros H. apply bind_ok in H as (b & Hb%map_err_ok & H).
  apply bind_ok in H as (v & Hv & H). apply bind_ok in H as (u & Hu%map_err_ok & H).
  apply guard_ok in H as [->%negb_false_iff%bool_decide_eq_true H].
  apply bind_ok in H as (t & Ht%map_err_ok & H).
  apply guard_ok in H as [->%negb_false_iff%bool_decide_eq_true H]. eauto 10.
Qed.

Lemma receipts_valid_inv self h content :
  validate_receipts self h content = Ok tt ->
  exists rs v, Receipts.from_ssz_bytes content = Ok rs /\ HeaderOracle.recursive_find_header_with_proof self h = Ok v
    /\ Receipts.root rs = Ok (Header.receipts_root (hwp_header v)).
Proof.
  unfold validate_receipts. intros H. apply bind_ok in H as (rs & Hr%map_err_ok & H).
  apply bind_ok in H as (v & Hv & H). apply bind_ok in H as (r & Hroot%map_err_ok & H).
  apply guard_ok in H as [->%negb_false_iff%bool_decide_eq_true H]. eauto 10.
Qed.

Lemma epoch_valid_inv self h content :
  validate_epoch self h content = Ok tt ->
  exists acc, epoch_acc_from_ssz content = Some acc /\ tree_hash_root acc = h
    /\ h ∈ MasterAccumulator.historical_epochs (HeaderOracle.master_acc self).
Proof.
  unfold validate_epoch. destruct (epoch_acc_from_ssz content) as [acc|]; [|done]. simpl. intros H.
  apply guard_ok in H as [->%negb_false_iff%bool_decide_eq_true H].
  apply guard_ok in H as [Hin%negb_false_iff%bool_decide_eq_true H]. eauto.
Qed.

(** C21: Accepted headers are canonical, accepted epochs recorded.  A header that the
    validator accepts for a block hash has this hash, and up to the merge it is the block
    that the complete epoch accumulator recorded in the master accumulator lists at its
    number, unless one of the 15 pairs of strings hashed by the verification of its proof
    and by the tree of that epoch is a collision ([header_pairs]); after the merge it comes
    without a proof and nothing else is checked.  An epoch accumulator that is accepted has
    the root of the key, which the master accumulator contains.  A body or a list of
    receipts has the roots in the header that the oracle was answered for the block
    hash. *)
Theorem history_validation_sound self key content :
  validate_content self key content = Ok tt ->
  match key with
  | HistoryContentKey.BlockHeaderWithProof h =>
      exists v, hwp_from_ssz content = Ok v /\ Header.hash (hwp_header v) = h
        /\ let n := Header.number (hwp_header v) in
           (n <= MERGE_BLOCK_NUMBER -> 0 <= n -> forall acc record,
              Z.of_nat (length acc) = EPOCH_SIZE -> Forall record_wf acc ->
              MasterAccumulator.historical_epochs (HeaderOracle.master_acc self) !! Z.to_nat (n / EPOCH_SIZE)
                = Some (tree_hash_root acc) ->
              acc !! Z.to_nat (n mod EPOCH_SIZE) = Some record ->
              exists proof, hwp_proof v = AccumulatorProof proof
                /\ (h = block_hash record
                    \/ collides eth2_hash (MasterAccumulator.header_pairs (hwp_header v) proof acc)))
           /\ (MERGE_BLOCK_NUMBER < n -> hwp_proof v = ProofNone)
  | HistoryContentKey.EpochAccumulator h =>
      exists acc, epoch_acc_from_ssz content = Some acc /\ tree_hash_root acc = h
        /\ h ∈ MasterAccumulator.historical_epochs (HeaderOracle.master_acc self)
  | HistoryContentKey.BlockBody h =>
      exists b v, BlockBody.from_ssz_bytes content = Ok b /\ HeaderOracle.recursive_find_header_with_proof self h = Ok v
        /\ BlockBody.uncles_root b = Ok (Header.uncles_hash (hwp_header v))
        /\ BlockBody.transactions_root b = Ok (Header.transactions_root (hwp_header v))
  | HistoryContentKey.BlockReceipts h =>
      exists rs v, Receipts.from_ssz_bytes content = Ok rs
        /\ HeaderOracle.recursive_find_header_with_proof self h = Ok v
        /\ Receipts.root rs = Ok (Header.receipts_root (hwp_header v))
  end.
Proof.
  destruct key as [h|h|h|h]; cbn [validate_content];
    [|apply body_valid_inv|apply receipts_valid_inv|apply epoch_valid_inv].
  intros (v & Hv & Hh & Hm)%header_valid_inv. exists v. split; [done|]. split; [done|]. cbv zeta.
  pose proof (hwp_from_ssz_wf _ _ Hv) as Hp. destruct v as [header proof]. simpl in *. split.
  - intros Hn H0 acc record Hlen Hwf He Hr. destruct proof as [|proof].
    + unfold MasterAccumulator.validate_header_with_proof in Hm. simpl in Hm. by rewrite (proj2 (Z.leb_le _ _) Hn) in Hm.
    + exists proof. split; [done|]. rewrite <- Hh.
      by eapply (MasterAccumulator.accepted_header_canonical (HeaderOracle.master_acc self) header proof acc).
  - intros Hn. destruct proof as [|proof]; [done|].
    unfold MasterAccumulator.validate_header_with_proof in Hm. simpl in Hm. by rewrite (proj2 (Z.ltb_lt _ _) Hn) in Hm.
Qed.

(** Two contents that stand for the same value, up to its encoding. *)
Definition same_content (key : HistoryContentKey.t) (c c' : bytes) : Prop :=
  match key with
  | HistoryContentKey.BlockHeaderWithProof _ =>
      exists v v', hwp_from_ssz c = Ok v /\ hwp_from_ssz c' = Ok v'
        /\ hwp_header v = hwp_header v'
  | HistoryContentKey.BlockBody _ =>
      exists b b', BlockBody.from_ssz_bytes c = Ok b /\ BlockBody.from_ssz_bytes c' = Ok b'
        /\ BlockBody.transactions b = BlockBody.transactions b' /\ BlockBody.uncles b = BlockBody.uncles b'
  | HistoryContentKey.BlockReceipts _ =>
      exists rs rs', Receipts.from_ssz_bytes c = Ok rs /\ Receipts.from_ssz_bytes c' = Ok rs'
        /\ rs = rs'
  | HistoryContentKey.EpochAccumulator _ =>
      exists acc acc', epoch_acc_from_ssz c = Some acc /\ epoch_acc_from_ssz c' = Some acc'
        /\ tree_hash_root acc = tree_hash_root acc'
  end.

(** Contents with fewer than 2^64 transactions or receipts. *)
Definition countable (c : bytes) : Prop :=
  (forall b, BlockBody.from_ssz_bytes c = Ok b -> Z.of_nat (length (BlockBody.transactions b)) < U64_MOD)
  /\ (forall rs, Receipts.from_ssz_bytes c = Ok rs -> Z.of_nat (length (Receipts.receipt_list rs)) < U64_MOD).

Lemma hwp_header_typed b v : hwp_from_ssz b = Ok v -> uncle_wf (hwp_header v).
Proof.
  unfold hwp_from_ssz. destruct (container_split 2 b) as [[|p [|q [|]]]| |]; try done.
  destruct (proof_from_ssz q); [|done..]. destruct (map_err _ _) as [h| |] eqn:E; [|done..]. intros [= <-].
  apply map_err_ok in E. revert E. unfold Header.rlp_decode. destruct (dec_list p); [|done..]. apply typed_header.
Qed.

(** Headers, transactions, receipts: what is well typed is determined by its encoding. *)
Lemma header_encode_inj h h' : uncle_wf h -> uncle_wf h' -> Header.encode h = Header.encode h' -> h = h'.
Proof.
  intros [Hw Hc] [Hw' Hc'] E. unfold Header.encode in E. apply (f_equal dec_list) in E. rewrite !dec_enc_list in E.
  injection E as E. pose proof (Header.header_decode_items h Hw Hc) as H1. rewrite E, Header.header_decode_items in H1 by done.
  congruence.
Qed.

Lemma txs_encode_inj l l' :
  Forall tx_wf l -> Forall tx_wf l' -> Transaction.encode <$> l = Transaction.encode <$> l' -> l = l'.
Proof.
  intros Hl Hl'. apply (fmap_decode_inj _ Transaction.decode);
    (eapply Forall_impl; [eassumption|]); intros t; apply tx_decode_encode.
Qed.

Lemma receipts_encode_inj l l' :
  Forall (receipt_wf ∘ Receipt.receipt) l -> Forall (receipt_wf ∘ Receipt.receipt) l' ->
  Receipt.encode <$> l = Receipt.encode <$> l' -> l = l'.
Proof.
  intros Hl Hl'. apply (fmap_decode_inj _ Receipt.decode);
    (eapply Forall_impl; [eassumption|]); intros r; apply receipt_decode_encode.
Qed.

Lemma uncles_encode_inj l l' :
  Forall uncle_wf l -> Forall uncle_wf l' -> encode_uncles l = encode_uncles l' -> l = l'.
Proof.
  intros Hl Hl' E. pose proof (uncles_roundtrip (E := unit) l Hl) as H. rewrite E, uncles_roundtrip in H by done.
  congruence.
Qed.

(** A header that the oracle finds is well typed. *)
Lemma found_header_typed self h v :
  HeaderOracle.recursive_find_header_with_proof self h = Ok v -> uncle_wf (hwp_header v).
Proof.
  unfold HeaderOracle.recursive_find_header_with_proof. destruct (HeaderOracle.history_jsonrpc_tx self); [|done].
  destruct (find_header _) as [| | | | | |content]; try done. unfold PossibleHistoryContentValue.deserialize.
  destruct (decide _); [done|]. unfold HistoryContentValue.deserialize.
  destruct (hex_decode content) as [c| |]; [|done..]. cbn [map_err]. unfold HistoryContentValue.try_decoders.
  destruct (hwp_from_ssz c) as [v'| |] eqn:Hc; cbn.
  - intros [= ->]. by eapply hwp_header_typed.
  - destruct (BlockBody.from_ssz_bytes c); cbn; [done| |done]. destruct (Receipts.from_ssz_bytes c); cbn; [done| |done].
    by destruct (epoch_acc_from_ssz c).
  - done.
Qed.
End Validation.

(** ** Two validations *)

Section Unique.
Context {EH : Eth2Hashing} `{!Eth2HashingOk EH} {R : RlpLib} `{!RlpLibOk R} `{!RlpTyped R} {T : RlpTree R} `{!RlpTreeOk T}
  {S : VarSsz} `{!VarSszOk S} {M : TrieLib} {TM : TrieLibOk M} `{X : HexLib}
  {EL : EpochLib} `{!EpochLibOk EL} `{EE : EpochEncoding}.
Implicit Types (self : HeaderOracle.t).
Import ChainHistoryValidator.

(** The header of the block [h] that the oracle is answered by the network [HN]. *)
Definition header_answered (HN : HeaderNetwork) self (h : H256) : res ValidationError HeaderWithProof :=
  HeaderOracle.recursive_find_header_with_proof self h.

(** The network answers for a block hash with no header but that of this block. *)
Definition answers_block (HN : HeaderNetwork) self (h : H256) : Prop :=
  forall v, header_answered HN self h = Ok v -> Header.hash (hwp_header v) = h.

Definition key_block (key : HistoryContentKey.t) : option H256 :=
  match key with
  | HistoryContentKey.BlockBody h | HistoryContentKey.BlockReceipts h => Some h
  | _ => None
  end.

(** The strings that are hashed when two contents are validated for one key: the headers
    themselves, or the headers that the two networks answered and what the roots of the
    contents are computed from. *)
Definition headers_pair (v v' : HeaderWithProof) : list (bytes * bytes) :=
  [(Header.encode (hwp_header v), Header.encode (hwp_header v'))].

Definition ok_pairs {E E' A A'} (f : A -> A' -> list (bytes * bytes)) (r : res E A) (r' : res E' A') : list (bytes * bytes) :=
  match r, r' with Ok a, Ok a' => f a a' | _, _ => [] end.

Definition content_pairs (HN HN' : HeaderNetwork) self (key : HistoryContentKey.t) (c c' : bytes)
    : list (bytes * bytes) :=
  match key with
  | HistoryContentKey.BlockHeaderWithProof _ => ok_pairs headers_pair (hwp_from_ssz c) (hwp_from_ssz c')
  | HistoryContentKey.BlockBody h =>
      ok_pairs headers_pair (header_answered HN self h) (header_answered HN' self h)
      ++ ok_pairs (fun b b' => transactions_pairs b b' ++ uncles_pairs b b')
           (BlockBody.from_ssz_bytes c) (BlockBody.from_ssz_bytes c')
  | HistoryContentKey.BlockReceipts h =>
      ok_pairs headers_pair (header_answered HN self h) (header_answered HN' self h)
      ++ ok_pairs receipts_pairs (Receipts.from_ssz_bytes c) (Receipts.from_ssz_bytes c')
  | HistoryContentKey.EpochAccumulator _ => []
  end.

Lemma same_header h h' : uncle_wf h -> uncle_wf h' -> Header.hash h = Header.hash h' ->
  h = h' \/ collides keccak [(Header.encode h, Header.encode h')].
Proof. intros Hw Hw' [E|]%collides_pair; [left|by right]. by apply header_encode_inj. Qed.

(** Two networks that answer for a block with its header answer with the same header. *)
Lemma answers_agree HN HN' self h v v' :
  answers_block HN self h -> answers_block HN' self h ->
  header_answered HN self h = Ok v -> header_answered HN' self h = Ok v' ->
  hwp_header v = hwp_header v'
  \/ collides keccak (ok_pairs headers_pair (header_answered HN self h) (header_answered HN' self h)).
Proof.
  intros H H' E E'. pose proof (found_header_typed (HN := HN) _ _ _ E). pose proof (found_header_typed (HN := HN') _ _ _ E').
  rewrite E, E'. apply same_header; [done..|].
  by rewrite (H _ E), (H' _ E').
Qed.

(** C9: A key determines its content.  Take two contents that the validator accepts for
    the same key, at different times, so that the oracle may be answered by different
    networks, as long as what they answer for the block hash of the key is a header with
    this hash.  Then the contents hold the same header, bodies with the same transactions
    and uncles, the same receipts, or epochs with the same root; otherwise one of the named
    pairs of strings is a collision of Keccak: the two headers (of the contents, or the two
    that were answered), the two encodings of uncles, or nodes of the two tries of
    transactions or of receipts. *)
Theorem validated_content_unique (HN HN' : HeaderNetwork) self key c c' :
  countable c -> countable c' ->
  (forall h, key_block key = Some h -> answers_block HN self h /\ answers_block HN' self h) ->
  validate_content (HN := HN) self key c = Ok tt -> validate_content (HN := HN') self key c' = Ok tt ->
  same_content key c c' \/ collides keccak (content_pairs HN HN' self key c c').
Proof.
  intros [Hb Hr] [Hb' Hr'] Hnet. destruct key as [h|h|h|h]; cbn [validate_content same_content content_pairs key_block] in *.
  - intros (v & Hv & Hh & _)%header_valid_inv (v' & Hv' & Hh' & _)%header_valid_inv. rewrite Hv, Hv'.
    destruct (same_header (hwp_header v) (hwp_header v')) as [E|]; [by eapply hwp_header_typed..|congruence| |by right].
    left. by exists v, v'.
  - intros (b & v & Eb & Ev & Hu & Ht)%body_valid_inv (b' & v' & Eb' & Ev' & Hu' & Ht')%body_valid_inv.
    destruct (Hnet h eq_refl) as [Hn Hn'].
    destruct (answers_agree HN HN' self h v v' Hn Hn' Ev Ev') as [Hhd|]; [|auto with collide].
    rewrite Hhd in Hu, Ht. rewrite Eb, Eb'. cbn [ok_pairs].
    destruct (typed_body _ _ Eb) as [(Wt & Wu & _) _], (typed_body _ _ Eb') as [(Wt' & Wu' & _) _].
    destruct (numbered_root_binding _ _ _ (fmap_nonempty _ (BlockBody.transactions b) tx_encode_nonempty)
                (fmap_nonempty _ (BlockBody.transactions b') tx_encode_nonempty)
                ltac:(rewrite length_fmap; auto) ltac:(rewrite length_fmap; auto) Ht Ht') as [Et|]; [|auto with collide].
    injection Hu as Hu. injection Hu' as Hu'.
    destruct (collides_pair keccak (encode_uncles (BlockBody.uncles b)) (encode_uncles (BlockBody.uncles b')));
      [congruence|left|auto with collide].
    exists b, b'. split_and!; [done..|by apply txs_encode_inj|by apply uncles_encode_inj].
  - intros (rs & v & Er & Ev & Ht)%receipts_valid_inv (rs' & v' & Er' & Ev' & Ht')%receipts_valid_inv.
    destruct (Hnet h eq_refl) as [Hn Hn'].
    destruct (answers_agree HN HN' self h v v' Hn Hn' Ev Ev') as [Hhd|]; [|auto with collide].
    rewrite Hhd in Ht. rewrite Er, Er'. cbn [ok_pairs].
    destruct (numbered_root_binding _ _ _ (fmap_nonempty _ (Receipts.receipt_list rs) receipt_encode_nonempty)
                (fmap_nonempty _ (Receipts.receipt_list rs') receipt_encode_nonempty)
                ltac:(rewrite length_fmap; auto) ltac:(rewrite length_fmap; auto) Ht Ht') as [Et|]; [|auto with collide].
    left. exists rs, rs'. split_and!; [done..|]. apply receipts_encode_inj in Et; [|by eapply typed_receipts..].
    destruct rs, rs'. by f_equal.
  - intros (acc & Ha & Eh & _)%epoch_valid_inv (acc' & Ha' & Eh' & _)%epoch_valid_inv.
    left. exists acc, acc'. split_and!; [done..|congruence].
Qed.

Context {HN : HeaderNetwork}.

(** Withdrawals are not validated: where the validator accepts a Shanghai body, it
    accepts the body with any other withdrawals as well, although the header commits to
    them. *)
Theorem withdrawals_unchecked self h txs ws ws' :
  let body ws := BlockBody.Shanghai {| shanghai_txs := txs; shanghai_withdrawals := ws |} in
  body_wf (body ws) -> body_wf (body ws') -> ssz_small (body ws) -> ssz_small (body ws') ->
  validate_content self (HistoryContentKey.BlockBody h) (BlockBody.as_ssz_bytes (body ws)) = Ok tt ->
  validate_content self (HistoryContentKey.BlockBody h) (BlockBody.as_ssz_bytes (body ws')) = Ok tt.
Proof.
  intros body Hw Hw' Hs Hs'. cbn [validate_content]. unfold validate_body.
  rewrite (body_ssz_decodes (body ws)), (body_ssz_decodes (body ws')) by done. done.
Qed.
End Unique.

(** ** The theorems at work *)

#[local] Existing Instances toy_rlp_tree toy_rlp_tree_ok toy_trie toy_hex toy_hex_ok.

Section AtWork.
#[local] Instance work_hashing : Eth2Hashing := toy_hashing.
#[local] Instance work_hashing_ok : Eth2HashingOk work_hashing := toy_hashing_ok.
#[local] Instance work_epochs : EpochLib := toy_epoch_lib 4.
#[local] Instance work_epochs_ok : EpochLibOk work_epochs := toy_epoch_lib_ok 4.
#[local] Instance work_epoch_encoding : EpochEncoding := {| epoch_acc_as_ssz _ := [] |}.

(** A header after Shanghai that commits to the sample body. *)
Definition trusted_header : Header.t := {|
  Header.parent_hash := replicate 32 x01; Header.uncles_hash := ok_root (BlockBody.uncles_root sample_body);
  Header.author := replicate 20 x03; Header.state_root := replicate 32 x04;
  Header.transactions_root := ok_root (BlockBody.transactions_root sample_body);
  Header.receipts_root := replicate 32 x06; Header.logs_bloom := replicate 256 x00; Header.difficulty := 0;
  Header.number := 17034900; Header.gas_limit := 30000000; Header.gas_used := 21000; Header.timestamp := 1681338851;
  Header.extra_data := []; Header.mix_hash := Some (replicate 32 x07); Header.nonce := Some (replicate 8 x00);
  Header.base_fee_per_gas := Some 7; Header.withdrawals_root := Some (ok_root (BlockBody.withdrawals_root sample_body))
|}.
Definition trusted_hwp : HeaderWithProof := {| hwp_header := trusted_header; hwp_proof := ProofNone |}.

#[local] Instance work_network : HeaderNetwork :=
  {| find_header _ := HeaderContent (hex_encode (hwp_as_ssz trusted_hwp)); find_epoch _ := RpcValue None |}.

Definition work_oracle : HeaderOracle.t :=
  HeaderOracle.mk true false (MasterAccumulator.Build_t []).
Definition trusted_hash : H256 := Header.hash trusted_header.


(** Block 5 with its proof, for a master accumulator that records its epoch. *)
Definition early_record : HeaderRecord :=
  {| block_hash := Header.hash early_header; total_difficulty := 85857402880 |}.
Definition early_epoch : EpochAccumulator := replicate full_epoch early_record.
Definition early_master : MasterAccumulator.t := {| MasterAccumulator.historical_epochs := [tree_hash_root early_epoch] |}.

Lemma early_epoch_wf : Forall record_wf early_epoch.
Proof. apply Forall_replicate. split; [apply keccak_length|]. split; [discriminate | reflexivity]. Qed.

Lemma early_epoch_length : Z.of_nat (length early_epoch) = EPOCH_SIZE.
Proof. unfold early_epoch. rewrite length_replicate. unfold full_epoch. rewrite Z2Nat.id; [reflexivity | lia]. Qed.

Lemma early_epoch_lookup : early_epoch !! Z.to_nat (Header.number early_header mod EPOCH_SIZE) = Some early_record.
Proof. apply lookup_replicate. split; [done|]. unfold full_epoch. change (Z.to_nat (Header.number early_header mod EPOCH_SIZE)) with 5%nat. lia. Qed.

Definition early_proof : list H256 :=
  reverse (MerkleTree.spec_path 14 (MasterAccumulator.record_leaves early_epoch)
             (Header.number early_header mod EPOCH_SIZE * 2)) ++ [MasterAccumulator.epoch_size_leaf].
Definition early_hwp : HeaderWithProof := {| hwp_header := early_header; hwp_proof := AccumulatorProof early_proof |}.
Definition early_oracle : HeaderOracle.t := HeaderOracle.mk true false early_master.
Definition early_hash : H256 := Header.hash early_header.

Lemma early_proof_wf : proof_wf (AccumulatorProof early_proof).
Proof. apply MasterAccumulator.constructed_proof_wf, early_epoch_wf. Qed.

Lemma early_leaf :
  MerkleTree.spec_leaf 14 (MasterAccumulator.record_leaves early_epoch)
    (Header.number early_header mod EPOCH_SIZE * 2) = Header.hash early_header.
Proof.
  apply (MasterAccumulator.construct_proof_ok early_header early_epoch early_record);
    [discriminate | apply early_epoch_wf | exact early_epoch_lookup | reflexivity].
Qed.

Lemma length_concat_b32 (l : list H256) : Forall is_b32 l -> length (concat l) = (32 * length l)%nat.
Proof. induction 1 as [|h l Hh _ IH]; [done|]. cbn [concat length]. rewrite length_app, IH. unfold is_b32 in Hh. lia. Qed.

Lemma early_hwp_wf : hwp_wf early_hwp.
Proof.
  destruct early_proof_wf as [Hl Hb]. split_and!; [| | |vm_compute; lia|].
  - constructor; try (simpl; lia); try done; intros v [= <-]; simpl; done || lia.
  - repeat split.
  - exact early_proof_wf.
  - unfold small, hwp_as_ssz. cbn [container_join toy_var_ssz hwp_header hwp_proof early_hwp proof_as_ssz].
    unfold ssz_list_join. rewrite length_app, length_list_offsets. cbn [concat length].
    rewrite !length_app. cbn [length]. rewrite (length_concat_b32 _ Hb), Hl.
    replace (length (byte_list (Header.encode early_header))) with 993%nat by (vm_compute; reflexivity).
    reflexivity.
Qed.

Lemma early_proof_accepted : MasterAccumulator.validate_header_with_proof early_master early_hwp = Ok tt.
Proof.
  unfold early_hwp, early_proof.
  apply (MasterAccumulator.constructed_proof_accepted early_master early_header early_epoch early_record).
  - split; discriminate.
  - exact early_epoch_length.
  - apply early_epoch_wf.
  - reflexivity.
  - exact early_epoch_lookup.
  - reflexivity.
Qed.

Lemma early_header_accepted :
  ChainHistoryValidator.validate_content early_oracle (HistoryContentKey.BlockHeaderWithProof early_hash)
    (hwp_as_ssz early_hwp) = Ok tt.
Proof.
  cbn [ChainHistoryValidator.validate_content]. unfold ChainHistoryValidator.validate_header.
  rewrite (hwp_roundtrip early_hwp early_hwp_wf). cbn [map_err].
  change (HeaderOracle.master_acc early_oracle) with early_master. rewrite early_proof_accepted.
  by rewrite bool_decide_eq_true_2.
Qed.

Lemma history_validation_sound_witness :
  (early_hash = block_hash early_record)
  /\ ChainHistoryValidator.validate_content work_oracle (HistoryContentKey.BlockBody trusted_hash)
    (BlockBody.as_ssz_bytes sample_body) = Ok tt
  /\ exists b v, BlockBody.from_ssz_bytes (BlockBody.as_ssz_bytes sample_body) = Ok b
     /\ HeaderOracle.recursive_find_header_with_proof work_oracle trusted_hash = Ok v
     /\ BlockBody.transactions_root b = Ok (Header.transactions_root (hwp_header v)).
Proof.
  split.
  - destruct (history_validation_sound early_oracle (HistoryContentKey.BlockHeaderWithProof early_hash) _ early_header_accepted)
      as (v & Hv & _ & Hn & _).
    rewrite (hwp_roundtrip _ early_hwp_wf) in Hv. injection Hv as <-.
    destruct (Hn ltac:(discriminate) ltac:(discriminate) early_epoch early_record early_epoch_length
                early_epoch_wf) as (proof & Hp & [E|E]);
      [reflexivity | exact early_epoch_lookup | exact E |].
    injection Hp as <-. destruct (MasterAccumulator.constructed_pairs_ok early_header early_epoch early_leaf E).
  - assert (E : ChainHistoryValidator.validate_content work_oracle (HistoryContentKey.BlockBody trusted_hash)
                  (BlockBody.as_ssz_bytes sample_body) = Ok tt) by (vm_compute; reflexivity).
    split; [exact E|].
    destruct (history_validation_sound work_oracle (HistoryContentKey.BlockBody trusted_hash) _ E)
      as (b & v & Hb & Hv & _ & Ht). exists b, v. split; [exact Hb|]. split; [exact Hv|exact Ht].
Defined.

(** The sample body with other withdrawals, and its contents. *)
Definition forged_withdrawals : list Withdrawal.t := [sample_withdrawal; sample_withdrawal].
Definition forged_body : BlockBody.t :=
  BlockBody.Shanghai {| shanghai_txs := [sample_tx]; shanghai_withdrawals := forged_withdrawals |}.

Lemma forged_body_wf : body_wf forged_body.
Proof.
  split; [apply Forall_singleton, sample_tx_wf|]. split; [constructor|]. split; [done|].
  intros ws [= <-]. split; [|done]. by repeat constructor.
Qed.

Lemma withdrawals_unchecked_witness :
  ChainHistoryValidator.validate_content work_oracle (HistoryContentKey.BlockBody trusted_hash)
    (BlockBody.as_ssz_bytes forged_body) = Ok tt
  /\ BlockBody.validate_against_header forged_body trusted_header = Err WithdrawalsRootMismatch.
Proof.
  split; [|vm_compute; reflexivity].
  apply (withdrawals_unchecked work_oracle trusted_hash [sample_tx] [sample_withdrawal] forged_withdrawals).
  - exact sample_body_wf.
  - exact forged_body_wf.
  - split; [|repeat constructor]; vm_compute; reflexivity.
  - split; [|repeat constructor]; vm_compute; reflexivity.
  - vm_compute. reflexivity.
Defined.

(** Another network, which answers with the header in another [HeaderWithProof]. *)
Definition other_network : HeaderNetwork :=
  {| find_header _ := HeaderContent (hex_encode (hwp_as_ssz
       {| hwp_header := trusted_header; hwp_proof := AccumulatorProof (replicate 15 (replicate 32 x00)) |}));
     find_epoch _ := NoResponse |}.

Lemma validated_content_unique_witness :
  let c := BlockBody.as_ssz_bytes sample_body in
  let c' := BlockBody.as_ssz_bytes sample_merge in
  let key := HistoryContentKey.BlockBody trusted_hash in
  ~ collides keccak (content_pairs work_network other_network work_oracle key c c')
  /\ same_content key c c'.
Proof.
  intros c c' key.
  assert (Hc : ~ collides keccak (content_pairs work_network other_network work_oracle key c c'))
    by (apply not_collides; vm_compute; reflexivity).
  split; [exact Hc|].
  destruct (validated_content_unique work_network other_network work_oracle key c c') as [H|H];
    [| | |vm_compute; reflexivity|vm_compute; reflexivity|exact H|destruct (Hc H)].
  - assert (E1 : BlockBody.from_ssz_bytes c = Ok sample_body) by (vm_compute; reflexivity).
    assert (E2 : Receipts.from_ssz_bytes c = Err BytesInvalid) by (vm_compute; reflexivity).
    split; [intros b Hb; rewrite E1 in Hb; injection Hb as <-; reflexivity|intros rs Hr; by rewrite E2 in Hr].
  - assert (E1 : BlockBody.from_ssz_bytes c' = Ok (as_read sample_merge)) by (vm_compute; reflexivity).
    assert (E2 : Receipts.from_ssz_bytes c' = Err BytesInvalid) by (vm_compute; reflexivity).
    split; [intros b Hb; rewrite E1 in Hb; injection Hb as <-; reflexivity|intros rs Hr; by rewrite E2 in Hr].
  - intros h [= <-].
    assert (E1 : header_answered work_network work_oracle trusted_hash = Ok trusted_hwp) by (vm_compute; reflexivity).
    assert (E2 : header_answered other_network work_oracle trusted_hash
      = Ok {| hwp_header := trusted_header; hwp_proof := AccumulatorProof (replicate 15 (replicate 32 x00)) |})
      by (vm_compute; reflexivity).
    split; intros v Hv; [rewrite E1 in Hv|rewrite E2 in Hv]; injection Hv as <-; reflexivity.
Defined.
End AtWork.
