(* ===== verification/ConsensusSsz.v ===== *)
(** * SSZ codecs of the consensus types.

    [ethportal-api/src/types/consensus/]: the codecs written out for public keys, signatures,
    deposit proofs and proofs of historical summaries ([pubkey.rs], [signature.rs],
    [proof.rs], [header_proof.rs]), and those that [ssz_derive] makes of the declarations of
    [header.rs], [header_proof.rs] and the parts of fixed size of [body.rs].  A container
    hands every field exactly the bytes that the field's type asks for, so that the decoders
    that panic on other lengths do not; historical summaries, whose proof asks for too few,
    are never read. *)

From S2P Require Import Prelude.
From S2P Require Import Distance.
From S2P Require Import Merkle.
From S2P Require Import Hex.
From S2P Require Import ContentKey.
From S2P Require Import SszList.
From S2P Require Import Wire.
From S2P Require Import LightClientTypes.
From S2P Require Import BeaconValue.
From S2P Require Import Transaction.
From S2P Require Import BlockBody.
From S2P Require Import ExecutionTyping.
From S2P Require Import ExecutionJson.
From S2P Require Import ConsensusJson.
From S2P Require Import HistoryValidation.
From S2P Require Import WireSsz.

(** A type of fixed size: the length it registers with a decoder, and its codec. *)
Record FixedCodec (A : Type) := {
  ssz_fixed_len : nat;
  as_ssz : A -> bytes;
  from_ssz : bytes -> res SszDecodeError A;
}.
#[global] Arguments ssz_fixed_len {A}.
#[global] Arguments as_ssz {A}.
#[global] Arguments from_ssz {A}.

(** What a container relies on: a value takes the registered length and is read back from
    it, and bytes of that length do not make the decoder panic. *)
Class codec_ok {A} (c : FixedCodec A) (wf : A -> Prop) : Prop := {
  codec_length a : wf a -> length (as_ssz c a) = ssz_fixed_len c;
  codec_read a : wf a -> from_ssz c (as_ssz c a) = Ok a;
  codec_safe b : length b = ssz_fixed_len c -> from_ssz c b <> Panic;
}.

Module ConsensusSsz.

(** ** Types *)

Record Eth1Data := { deposit_root : bytes; deposit_count : Z; block_hash : bytes }.
Record Checkpoint := { checkpoint_epoch : Z; root : bytes }.
Record AttestationData := {
  slot : Z;
  index : Z;
  beacon_block_root : bytes;
  source : Checkpoint;
  target : Checkpoint;
}.
Record VoluntaryExit := { exit_epoch : Z; validator_index : Z }.
Record SignedVoluntaryExit := { exit_message : VoluntaryExit; exit_signature : bytes }.
Record DepositData := {
  pubkey : bytes;
  withdrawal_credentials : bytes;
  amount : Z;
  deposit_signature : bytes;
}.
Record Deposit := { proof : list H256; data : DepositData }.
Record SignedBeaconBlockHeader := { message : BeaconBlockHeader.t; signature : bytes }.
Record ProposerSlashing := { signed_header_1 : SignedBeaconBlockHeader; signed_header_2 : SignedBeaconBlockHeader }.

Section Codecs.
Context `{SL : SszLib} `{CS : ConsensusSerde}.

Definition u64_ssz : FixedCodec Z := {|
  ssz_fixed_len := 8;
  as_ssz z := uint_as_ssz 8 z;
  from_ssz b := ok_or (uint_from_ssz 8 b) BytesInvalid;
|}.
Definition h256_ssz : FixedCodec H256 := {|
  ssz_fixed_len := 32;
  as_ssz h := h;
  from_ssz b := if (length b =? 32)%nat then Ok b else Err BytesInvalid;
|}.

(** [PubKey]: bytes of any length are made 48. *)
Definition pubkey_from_ssz (b : bytes) : res SszDecodeError bytes := Ok (vector_from 48 b).
Definition pubkey_ssz : FixedCodec bytes :=
  {| ssz_fixed_len := 48; as_ssz key := key; from_ssz := pubkey_from_ssz |}.

(** [BlsSignature]: [copy_from_slice] panics unless the lengths agree. *)
Definition signature_from_ssz (b : bytes) : res SszDecodeError bytes :=
  if (length b =? 96)%nat then Ok b else Panic.
Definition signature_ssz : FixedCodec bytes :=
  {| ssz_fixed_len := 96; as_ssz s := s; from_ssz := signature_from_ssz |}.

(** [Proof]: the bytes in pieces of 32, of which the last may be short, each made a hash;
    the hashes are written over an array of zeros, and one beyond its end is a panic. *)
Fixpoint pieces (fuel : nat) (b : bytes) : list bytes :=
  match fuel, b with
  | _, [] | O, _ => []
  | S fuel, _ => take 32 b :: pieces fuel (drop 32 b)
  end.
Definition H256_zero : H256 := replicate 32 x00.
Fixpoint proof_loop (proof : list H256) (i : nat) (decoded : list H256) : res SszDecodeError (list H256) :=
  match decoded with
  | [] => Ok proof
  | val :: decoded =>
      if (i <? length proof)%nat then proof_loop (<[i := val]> proof) (S i) decoded else Panic
  end.
Definition proof_from_ssz33 (b : bytes) : res SszDecodeError (list H256) :=
  let? decoded := res_all from_slice (pieces (length b) b) in
  proof_loop (replicate 33 H256_zero) 0 decoded.
Definition proof_ssz : FixedCodec (list H256) :=
  {| ssz_fixed_len := 33 * 32; as_ssz proof := concat proof; from_ssz := proof_from_ssz33 |}.

(** Derived codecs of containers of fixed size. *)
Definition eth1_data_ssz : FixedCodec Eth1Data := {|
  ssz_fixed_len := 72;
  as_ssz v := fields_join [FixedField (as_ssz h256_ssz (deposit_root v));
    FixedField (as_ssz u64_ssz (deposit_count v)); FixedField (as_ssz h256_ssz (block_hash v))];
  from_ssz b :=
    match fields_split [Some 32%nat; Some 8%nat; Some 32%nat] b with
    | Some [b1; b2; b3] =>
        let? deposit_root := from_ssz h256_ssz b1 in
        let? deposit_count := from_ssz u64_ssz b2 in
        let? block_hash := from_ssz h256_ssz b3 in
        Ok {| deposit_root := deposit_root; deposit_count := deposit_count; block_hash := block_hash |}
    | _ => Err BytesInvalid
    end;
|}.

Definition checkpoint_ssz : FixedCodec Checkpoint := {|
  ssz_fixed_len := 40;
  as_ssz v := fields_join [FixedField (as_ssz u64_ssz (checkpoint_epoch v)); FixedField (as_ssz h256_ssz (root v))];
  from_ssz b :=
    match fields_split [Some 8%nat; Some 32%nat] b with
    | Some [b1; b2] =>
        let? epoch := from_ssz u64_ssz b1 in
        let? root := from_ssz h256_ssz b2 in
        Ok {| checkpoint_epoch := epoch; root := root |}
    | _ => Err BytesInvalid
    end;
|}.

Definition attestation_data_ssz : FixedCodec AttestationData := {|
  ssz_fixed_len := 128;
  as_ssz v := fields_join [FixedField (as_ssz u64_ssz (slot v)); FixedField (as_ssz u64_ssz (index v));
    FixedField (as_ssz h256_ssz (beacon_block_root v)); FixedField (as_ssz checkpoint_ssz (source v));
    FixedField (as_ssz checkpoint_ssz (target v))];
  from_ssz b :=
    match fields_split [Some 8%nat; Some 8%nat; Some 32%nat; Some 40%nat; Some 40%nat] b with
    | Some [b1; b2; b3; b4; b5] =>
        let? slot := from_ssz u64_ssz b1 in
        let? index := from_ssz u64_ssz b2 in
        let? beacon_block_root := from_ssz h256_ssz b3 in
        let? source := from_ssz checkpoint_ssz b4 in
        let? target := from_ssz checkpoint_ssz b5 in
        Ok {| slot := slot; index := index; beacon_block_root := beacon_block_root; source := source; target := target |}
    | _ => Err BytesInvalid
    end;
|}.

Definition voluntary_exit_ssz : FixedCodec VoluntaryExit := {|
  ssz_fixed_len := 16;
  as_ssz v := fields_join [FixedField (as_ssz u64_ssz (exit_epoch v)); FixedField (as_ssz u64_ssz (validator_index v))];
  from_ssz b :=
    match fields_split [Some 8%nat; Some 8%nat] b with
    | Some [b1; b2] =>
        let? epoch := from_ssz u64_ssz b1 in
        let? validator_index := from_ssz u64_ssz b2 in
        Ok {| exit_epoch := epoch; validator_index := validator_index |}
    | _ => Err BytesInvalid
    end;
|}.

Definition signed_voluntary_exit_ssz : FixedCodec SignedVoluntaryExit := {|
  ssz_fixed_len := 112;
  as_ssz v := fields_join [FixedField (as_ssz voluntary_exit_ssz (exit_message v));
    FixedField (as_ssz signature_ssz (exit_signature v))];
  from_ssz b :=
    match fields_split [Some 16%nat; Some 96%nat] b with
    | Some [b1; b2] =>
        let? message := from_ssz voluntary_exit_ssz b1 in
        let? signature := from_ssz signature_ssz b2 in
        Ok {| exit_message := message; exit_signature := signature |}
    | _ => Err BytesInvalid
    end;
|}.

Definition deposit_data_ssz : FixedCodec DepositData := {|
  ssz_fixed_len := 184;
  as_ssz v := fields_join [FixedField (as_ssz pubkey_ssz (pubkey v));
    FixedField (as_ssz h256_ssz (withdrawal_credentials v)); FixedField (as_ssz u64_ssz (amount v));
    FixedField (as_ssz signature_ssz (deposit_signature v))];
  from_ssz b :=
    match fields_split [Some 48%nat; Some 32%nat; Some 8%nat; Some 96%nat] b with
    | Some [b1; b2; b3; b4] =>
        let? pubkey := from_ssz pubkey_ssz b1 in
        let? withdrawal_credentials := from_ssz h256_ssz b2 in
        let? amount := from_ssz u64_ssz b3 in
        let? signature := from_ssz signature_ssz b4 in
        Ok {| pubkey := pubkey; withdrawal_credentials := withdrawal_credentials; amount := amount;
              deposit_signature := signature |}
    | _ => Err BytesInvalid
    end;
|}.

Definition deposit_ssz : FixedCodec Deposit := {|
  ssz_fixed_len := 1240;
  as_ssz v := fields_join [FixedField (as_ssz proof_ssz (proof v)); FixedField (as_ssz deposit_data_ssz (data v))];
  from_ssz b :=
    match fields_split [Some 1056%nat; Some 184%nat] b with
    | Some [b1; b2] =>
        let? proof := from_ssz proof_ssz b1 in
        let? data := from_ssz deposit_data_ssz b2 in
        Ok {| proof := proof; data := data |}
    | _ => Err BytesInvalid
    end;
|}.

Definition beacon_block_header_ssz : FixedCodec BeaconBlockHeader.t := {|
  ssz_fixed_len := 112;
  as_ssz v := fields_join [FixedField (as_ssz u64_ssz (BeaconBlockHeader.slot v));
    FixedField (as_ssz u64_ssz (BeaconBlockHeader.proposer_index v));
    FixedField (as_ssz h256_ssz (BeaconBlockHeader.parent_root v));
    FixedField (as_ssz h256_ssz (BeaconBlockHeader.state_root v));
    FixedField (as_ssz h256_ssz (BeaconBlockHeader.body_root v))];
  from_ssz b :=
    match fields_split [Some 8%nat; Some 8%nat; Some 32%nat; Some 32%nat; Some 32%nat] b with
    | Some [b1; b2; b3; b4; b5] =>
        let? slot := from_ssz u64_ssz b1 in
        let? proposer_index := from_ssz u64_ssz b2 in
        let? parent_root := from_ssz h256_ssz b3 in
        let? state_root := from_ssz h256_ssz b4 in
        let? body_root := from_ssz h256_ssz b5 in
        Ok (BeaconBlockHeader.mk slot proposer_index parent_root state_root body_root)
    | _ => Err BytesInvalid
    end;
|}.

Definition signed_header_ssz : FixedCodec SignedBeaconBlockHeader := {|
  ssz_fixed_len := 208;
  as_ssz v := fields_join [FixedField (as_ssz beacon_block_header_ssz (message v));
    FixedField (as_ssz signature_ssz (signature v))];
  from_ssz b :=
    match fields_split [Some 112%nat; Some 96%nat] b with
    | Some [b1; b2] =>
        let? message := from_ssz beacon_block_header_ssz b1 in
        let? signature := from_ssz signature_ssz b2 in
        Ok {| message := message; signature := signature |}
    | _ => Err BytesInvalid
    end;
|}.

Definition proposer_slashing_ssz : FixedCodec ProposerSlashing := {|
  ssz_fixed_len := 416;
  as_ssz v := fields_join [FixedField (as_ssz signed_header_ssz (signed_header_1 v));
    FixedField (as_ssz signed_header_ssz (signed_header_2 v))];
  from_ssz b :=
    match fields_split [Some 208%nat; Some 208%nat] b with
    | Some [b1; b2] =>
        let? signed_header_1 := from_ssz signed_header_ssz b1 in
        let? signed_header_2 := from_ssz signed_header_ssz b2 in
        Ok {| signed_header_1 := signed_header_1; signed_header_2 := signed_header_2 |}
    | _ => Err BytesInvalid
    end;
|}.

Definition historical_summary_ssz : FixedCodec HistoricalSummary := {|
  ssz_fixed_len := 64;
  as_ssz v := fields_join [FixedField (as_ssz h256_ssz (block_summary_root v));
    FixedField (as_ssz h256_ssz (state_summary_root v))];
  from_ssz b :=
    match fields_split [Some 32%nat; Some 32%nat] b with
    | Some [b1; b2] =>
        let? block_summary_root := from_ssz h256_ssz b1 in
        let? state_summary_root := from_ssz h256_ssz b2 in
        Ok {| block_summary_root := block_summary_root; state_summary_root := state_summary_root |}
    | _ => Err BytesInvalid
    end;
|}.

(** ** Historical summaries *)

(** [HistoricalSummariesProof].  [Encode] registers 160 bytes; [Decode] leaves
    [ssz_fixed_len] at the default of the trait, the length of an offset. *)
Definition summaries_proof_as_ssz (proof : list H256) : bytes :=
  fields_join (map (fun h => FixedField (as_ssz h256_ssz h)) proof).
Definition summaries_proof_encoded_len : nat := 32 * 5.
Definition summaries_proof_from_ssz (b : bytes) : res SszDecodeError (list H256) :=
  let? vec := chunks32 (length b) b in
  if (length vec =? 5)%nat then Ok vec else Err BytesInvalid.
Definition summaries_proof_decoded_len : nat := Z.to_nat BYTES_PER_LENGTH_OFFSET.

(** [VariableList<HistoricalSummary, U16777216>]: the items in a row, pieces of 64 bytes. *)
Definition HISTORICAL_SUMMARIES_LIMIT : Z := 16777216.
Fixpoint pieces64 (fuel : nat) (b : bytes) : list bytes :=
  match fuel, b with
  | _, [] | O, _ => []
  | S fuel, _ => take 64 b :: pieces64 fuel (drop 64 b)
  end.
Definition summaries_list_as_ssz (l : list HistoricalSummary) : bytes :=
  concat (map (as_ssz historical_summary_ssz) l).
Definition summaries_list_from_ssz (b : bytes) : res SszDecodeError (list HistoricalSummary) :=
  if Z.of_nat (length b) / 64 >? HISTORICAL_SUMMARIES_LIMIT then Err BytesInvalid
  else res_all (from_ssz historical_summary_ssz) (pieces64 (length b) b).

Definition summaries_as_ssz (v : HistoricalSummariesWithProof) : bytes :=
  fields_join [FixedField (as_ssz u64_ssz (summaries_epoch v));
    VariableField (summaries_list_as_ssz (historical_summaries v));
    FixedField (summaries_proof_as_ssz (summaries_proof v))].
Definition summaries_from_ssz (b : bytes) : res SszDecodeError HistoricalSummariesWithProof :=
  match fields_split [Some 8%nat; None; Some summaries_proof_decoded_len] b with
  | Some [b1; b2; b3] =>
      let? epoch := from_ssz u64_ssz b1 in
      let? historical_summaries := summaries_list_from_ssz b2 in
      let? proof := summaries_proof_from_ssz b3 in
      Ok {| summaries_epoch := epoch; historical_summaries := historical_summaries; summaries_proof := proof |}
  | _ => Err BytesInvalid
  end.
Definition summaries_codec : Codec HistoricalSummariesWithProof :=
  {| to_ssz := summaries_as_ssz; of_ssz := summaries_from_ssz |}.
End Codecs.

(** ** Containers of fixed size *)

Definition is_bytes (n : nat) (b : bytes) : Prop := length b = n.
Definition eth1_data_wf (v : Eth1Data) : Prop :=
  is_b32 (deposit_root v) /\ is_u64 (deposit_count v) /\ is_b32 (block_hash v).
Definition checkpoint_wf (v : Checkpoint) : Prop := is_u64 (checkpoint_epoch v) /\ is_b32 (root v).
Definition attestation_data_wf (v : AttestationData) : Prop :=
  is_u64 (slot v) /\ is_u64 (index v) /\ is_b32 (beacon_block_root v) /\ checkpoint_wf (source v) /\ checkpoint_wf (target v).
Definition voluntary_exit_wf (v : VoluntaryExit) : Prop := is_u64 (exit_epoch v) /\ is_u64 (validator_index v).
Definition signed_voluntary_exit_wf (v : SignedVoluntaryExit) : Prop :=
  voluntary_exit_wf (exit_message v) /\ is_bytes 96 (exit_signature v).
Definition deposit_data_wf (v : DepositData) : Prop :=
  is_bytes 48 (pubkey v) /\ is_b32 (withdrawal_credentials v) /\ is_u64 (amount v) /\ is_bytes 96 (deposit_signature v).
Definition hashes_wf (n : nat) (l : list H256) : Prop := length l = n /\ Forall is_b32 l.
Definition deposit_wf (v : Deposit) : Prop := hashes_wf 33 (proof v) /\ deposit_data_wf (data v).
Definition beacon_block_header_wf (v : BeaconBlockHeader.t) : Prop :=
  is_u64 (BeaconBlockHeader.slot v) /\ is_u64 (BeaconBlockHeader.proposer_index v)
  /\ is_b32 (BeaconBlockHeader.parent_root v) /\ is_b32 (BeaconBlockHeader.state_root v)
  /\ is_b32 (BeaconBlockHeader.body_root v).
Definition signed_header_wf (v : SignedBeaconBlockHeader) : Prop :=
  beacon_block_header_wf (message v) /\ is_bytes 96 (signature v).
Definition proposer_slashing_wf (v : ProposerSlashing) : Prop :=
  signed_header_wf (signed_header_1 v) /\ signed_header_wf (signed_header_2 v).
Definition historical_summary_wf (v : HistoricalSummary) : Prop :=
  is_b32 (block_summary_root v) /\ is_b32 (state_summary_root v).

Section Correct.
Context {SL : SszLib} `{!SszLibOk SL} `{X : HexLib} {CS : ConsensusSerde} `{!ConsensusSerdeOk CS}.

(** Fields of fixed size in a row: read back, and nothing else is read. *)
Definition all_fixed (fs : list field) : bool :=
  forallb (fun f => match f with FixedField _ => true | VariableField _ => false end) fs.

Lemma fixed_length fs : all_fixed fs = true -> length (fields_join fs) = length (concat (map field_bytes fs)).
Proof.
  intros Hf. rewrite fields_join_spec. apply Nat2Z.inj. rewrite container_length.
  induction fs as [|[b|b] fs IH]; [done| |done]. simpl in *. rewrite length_app. rewrite IH by done. lia.
Qed.

Lemma fixed_sound ns b bs : fields_split (map Some ns) b = Some bs -> map length bs = ns.
Proof.
  intros (fs & Hl & <- & _)%fields_sound. revert ns Hl.
  induction fs as [|[f|f] fs IH]; intros [|n ns]; try done. cbn. intros [= <- Hl]. f_equal. by apply IH.
Qed.

(** The codec of a container from those of its fields. *)
Ltac field_length c a :=
  let H := fresh "Hlen" in
  eassert (length (as_ssz c a) = ssz_fixed_len c) as H by (eapply codec_length; eassumption);
  rewrite H; clear H.
Ltac field_read c a :=
  let H := fresh "Hread" in
  eassert (from_ssz c (as_ssz c a) = Ok a) as H by (eapply codec_read; eassumption);
  rewrite H; clear H.
Ltac field_lengths :=
  repeat match goal with |- context [length (as_ssz ?c ?a)] => field_length c a end.
Ltac container_length :=
  cbn [as_ssz ssz_fixed_len]; rewrite fixed_length by done; cbn [map field_bytes concat];
  rewrite !length_app; field_lengths; reflexivity.
Ltac container_read :=
  match goal with |- context [fields_split ?l (fields_join ?fs)] =>
    let H := fresh "Hsplit" in
    assert (fields_split l (fields_join fs) = Some (map field_bytes fs)) as H;
    [ replace l with (map field_layout fs) by (cbn [map field_layout]; field_lengths; reflexivity);
      apply fields_read; rewrite fixed_length by done; cbn [map field_bytes concat]; rewrite !length_app; field_lengths;
      reflexivity
    | rewrite H; clear H; cbn [map field_bytes];
      repeat (match goal with |- context [from_ssz ?c (as_ssz ?c ?a)] => field_read c a end; cbv beta iota) ]
  end.
Ltac container_safe ns :=
  let E := fresh "E" in
  match goal with |- context [fields_split ?l ?b] =>
    destruct (fields_split l b) as [bs|] eqn:E; [|discriminate];
    cbv beta iota;
    apply (fixed_sound ns) in E;
    repeat (destruct bs as [|? bs]; cbn [map] in E; [discriminate E|]);
    destruct bs; cbn [map] in E; [|discriminate E];
    injection E; intros;
    repeat match goal with |- context [from_ssz ?c ?b] =>
      let H := fresh "Hsafe" in
      eassert (from_ssz c b <> Panic) as H by (eapply codec_safe; assumption);
      destruct (from_ssz c b); [clear H; cbv beta iota|discriminate|contradiction]
    end; discriminate
  end.

Tactic Notation "container_ok" reference(codec) reference(wf) constr(ns) :=
  split; unfold codec; cbn [from_ssz as_ssz ssz_fixed_len]; unfold wf;
  [ intros v Hv; destruct_and? Hv; container_length
  | intros v Hv; destruct_and? Hv; container_read; destruct v; reflexivity
  | intros b _; container_safe ns ].

#[global] Instance u64_ok : codec_ok u64_ssz is_u64.
Proof.
  split; cbn.
  - intros z _. apply WireSsz.length_uint.
  - intros z Hz. rewrite WireSsz.uint_read; [done|]. exact Hz.
  - intros b Hb. by rewrite uint_from_ssz_spec.
Qed.
#[global] Instance h256_ok : codec_ok h256_ssz is_b32.
Proof.
  split; cbn; [done| |].
  - intros h Hh. unfold is_b32 in Hh. by rewrite Hh.
  - intros b ->. done.
Qed.
#[global] Instance pubkey_ok : codec_ok pubkey_ssz (is_bytes 48).
Proof. split; cbn; [done| |done]. intros key Hk. unfold pubkey_from_ssz. by rewrite vector_from_id. Qed.
#[global] Instance signature_ok : codec_ok signature_ssz (is_bytes 96).
Proof.
  unfold is_bytes. split; cbn; unfold signature_from_ssz; [done| |]; intros s Hs; by rewrite Hs.
Qed.

(** Pieces of 32 bytes, and the array they are written over. *)
Lemma pieces_concat l : forall fuel, Forall is_b32 l -> (length l <= fuel)%nat -> pieces fuel (concat l) = l.
Proof.
  induction l as [|h l IH]; intros fuel Hl Hf; [by destruct fuel|].
  apply Forall_cons in Hl as [Hh Hl]. unfold is_b32 in Hh. destruct fuel as [|fuel]; [simpl in Hf; lia|].
  cbn [concat]. destruct h as [|c h]; [done|]. cbn [pieces app]. rewrite !app_comm_cons.
  rewrite drop_app_length', take_app_length' by done. rewrite IH; [done|done|]. simpl in Hf. lia.
Qed.

Lemma from_slice_all l : Forall is_b32 l -> res_all (from_slice (E := SszDecodeError)) l = Ok l.
Proof.
  induction 1 as [|h l Hh _ IH]; [done|]. cbn [res_all]. unfold from_slice at 1. unfold is_b32 in Hh.
  by rewrite Hh, IH.
Qed.

Lemma proof_loop_spec decoded : forall d rest, length rest = length decoded ->
  proof_loop (d ++ rest) (length d) decoded = Ok (d ++ decoded).
Proof.
  induction decoded as [|h decoded IH]; intros d [|r rest] Hl; try discriminate; [done|].
  cbn [proof_loop]. rewrite (proj2 (Nat.ltb_lt _ _)) by (rewrite length_app; simpl; lia).
  rewrite insert_app_r_alt, Nat.sub_diag by lia. cbn [insert list_insert].
  specialize (IH (d ++ [h]) rest). rewrite length_app, Nat.add_1_r, <- !app_assoc in IH. apply IH. by injection Hl.
Qed.

Lemma proof_loop_panic decoded : forall proof i, (length proof < i + length decoded)%nat -> (i <= length proof)%nat ->
  proof_loop proof i decoded = Panic.
Proof.
  induction decoded as [|h decoded IH]; intros proof i Hl Hi; simpl in *; [lia|].
  destruct (Nat.ltb_spec i (length proof)); [|done]. apply IH; rewrite length_insert; lia.
Qed.

Lemma length_concat_hashes l : Forall is_b32 l -> length (concat l) = (32 * length l)%nat.
Proof.
  induction 1 as [|h l Hh _ IH]; [done|]. cbn [concat length]. rewrite length_app, IH. unfold is_b32 in Hh. lia.
Qed.

Lemma pieces_b32 n : forall fuel b, length b = (32 * n)%nat -> (n <= fuel)%nat ->
  length (pieces fuel b) = n /\ Forall is_b32 (pieces fuel b).
Proof.
  induction n as [|n IH]; intros fuel b Hb Hf.
  - destruct b; [|simpl in Hb; lia]. by destruct fuel.
  - destruct fuel as [|fuel]; [lia|]. destruct b as [|c b]; [simpl in Hb; lia|]. cbn [pieces].
    destruct (IH fuel (drop 32 (c :: b))) as [H1 H2]; [rewrite length_drop; lia|lia|].
    cbn [length]. split; [by rewrite H1|]. apply Forall_cons. split; [|done].
    unfold is_b32. rewrite length_take. lia.
Qed.

#[global] Instance proof_ok : codec_ok proof_ssz (hashes_wf 33).
Proof.
  assert (Hp : forall b l, pieces (length b) b = l -> hashes_wf 33 l -> proof_from_ssz33 b = Ok l).
  { intros b l Hl [Hn Hb]. unfold proof_from_ssz33. rewrite Hl, from_slice_all by done.
    apply (proof_loop_spec l []). by rewrite Hn. }
  split; cbn [proof_ssz from_ssz as_ssz ssz_fixed_len].
  - intros l [Hn Hb]. rewrite length_concat_hashes by done. lia.
  - intros l [Hn Hb]. apply Hp; [|done]. apply pieces_concat; [done|]. rewrite length_concat_hashes by done. lia.
  - intros b Hb. rewrite (Hp b (pieces (length b) b)); [done|done|]. apply pieces_b32; lia.
Qed.

#[global] Instance checkpoint_ok : codec_ok checkpoint_ssz checkpoint_wf.
Proof. container_ok checkpoint_ssz checkpoint_wf ([8; 32]%nat). Qed.
#[global] Instance eth1_data_ok : codec_ok eth1_data_ssz eth1_data_wf.
Proof. container_ok eth1_data_ssz eth1_data_wf ([32; 8; 32]%nat). Qed.
#[global] Instance attestation_data_ok : codec_ok attestation_data_ssz attestation_data_wf.
Proof. container_ok attestation_data_ssz attestation_data_wf ([8; 8; 32; 40; 40]%nat). Qed.
#[global] Instance voluntary_exit_ok : codec_ok voluntary_exit_ssz voluntary_exit_wf.
Proof. container_ok voluntary_exit_ssz voluntary_exit_wf ([8; 8]%nat). Qed.
#[global] Instance signed_voluntary_exit_ok : codec_ok signed_voluntary_exit_ssz signed_voluntary_exit_wf.
Proof. container_ok signed_voluntary_exit_ssz signed_voluntary_exit_wf ([16; 96]%nat). Qed.
#[global] Instance deposit_data_ok : codec_ok deposit_data_ssz deposit_data_wf.
Proof. container_ok deposit_data_ssz deposit_data_wf ([48; 32; 8; 96]%nat). Qed.
#[global] Instance deposit_ok : codec_ok deposit_ssz deposit_wf.
Proof. container_ok deposit_ssz deposit_wf ([1056; 184]%nat). Qed.
#[global] Instance beacon_block_header_ok : codec_ok beacon_block_header_ssz beacon_block_header_wf.
Proof. container_ok beacon_block_header_ssz beacon_block_header_wf ([8; 8; 32; 32; 32]%nat). Qed.
#[global] Instance signed_header_ok : codec_ok signed_header_ssz signed_header_wf.
Proof. container_ok signed_header_ssz signed_header_wf ([112; 96]%nat). Qed.
#[global] Instance proposer_slashing_ok : codec_ok proposer_slashing_ssz proposer_slashing_wf.
Proof. container_ok proposer_slashing_ssz proposer_slashing_wf ([208; 208]%nat). Qed.
#[global] Instance historical_summary_ok : codec_ok historical_summary_ssz historical_summary_wf.
Proof. container_ok historical_summary_ssz historical_summary_wf ([32; 32]%nat). Qed.
(** Deposits: a value takes 1240 bytes and is read back, and no bytes whatever make the
    decoder panic, although those of the proof and the signature panic on a wrong length. *)
Theorem deposit_codec_total :
  codec_ok deposit_ssz deposit_wf /\ (forall b, from_ssz deposit_ssz b <> Panic)
  /\ (forall b, length b <> 96%nat -> signature_from_ssz b = Panic)
  /\ (forall b n, (33 < n)%nat -> length b = (32 * n)%nat -> proof_from_ssz33 b = Panic).
Proof.
  split; [apply _|]. split; [|split].
  - intros b. unfold deposit_ssz. cbn [from_ssz]. container_safe [1056; 184]%nat.
  - intros b Hb. unfold signature_from_ssz. by rewrite (proj2 (Nat.eqb_neq _ _)).
  - intros b n Hn Hb. unfold proof_from_ssz33. destruct (pieces_b32 n (length b) b) as [Hl Hp]; [done|lia|].
    rewrite from_slice_all by done. apply proof_loop_panic; [|lia]. rewrite Hl. exact Hn.
Qed.

(** ** Historical summaries *)

Lemma summaries_proof_length proof : hashes_wf 5 proof ->
  length (summaries_proof_as_ssz proof) = summaries_proof_encoded_len.
Proof.
  intros [Hn Hb]. unfold summaries_proof_as_ssz. rewrite fixed_length by (clear; by induction proof).
  rewrite map_map. cbn [field_bytes as_ssz h256_ssz]. rewrite map_id, length_concat_hashes, Hn by done. done.
Qed.

(** The proof on its own is read back from the 160 bytes it is written to. *)
Lemma summaries_proof_read proof : hashes_wf 5 proof ->
  summaries_proof_from_ssz (summaries_proof_as_ssz proof) = Ok proof.
Proof.
  intros [Hn Hb].
  assert (Hc : summaries_proof_as_ssz proof = concat proof).
  { unfold summaries_proof_as_ssz. rewrite fields_join_spec. unfold container_bytes.
    generalize (Z.of_nat (heads_length (map field_layout (map (fun h => FixedField (as_ssz h256_ssz h)) proof)))).
    intros z. clear. induction proof as [|h proof IH]; [done|]. cbn in *. rewrite <- app_assoc. f_equal. exact IH. }
  unfold summaries_proof_from_ssz. rewrite Hc, chunks32_concat; [by rewrite Hn|done|]. rewrite length_concat_hashes by done. lia.
Qed.

Lemma summaries_list_safe b : summaries_list_from_ssz b <> Panic.
Proof.
  unfold summaries_list_from_ssz. destruct (_ >? _); [done|]. induction (pieces64 (length b) b) as [|x l IH]; [done|].
  cbn [res_all]. assert (Hx : from_ssz historical_summary_ssz x <> Panic).
  { unfold historical_summary_ssz. cbn [from_ssz]. container_safe [32; 32]%nat. }
  destruct (from_ssz historical_summary_ssz x); [|done..]. by destruct (res_all _ l).
Qed.

(** What the derived decoder hands to the proof is too short for it: no bytes decode. *)
Lemma summaries_never_read b : summaries_from_ssz b = Err BytesInvalid.
Proof.
  unfold summaries_from_ssz. destruct (fields_split _ b) as [bs|] eqn:E; [|done].
  apply fields_sound in E as (fs & Hl & <- & _).
  destruct fs as [|[b1|b1] [|[b2|b2] [|[b3|b3] [|]]]]; try done. cbn [map field_layout field_bytes] in *.
  injection Hl as H1 H3. assert (Hu : from_ssz u64_ssz b1 <> Panic) by by apply codec_safe.
  destruct (from_ssz u64_ssz b1) as [epoch|[]|]; [|done..].
  pose proof (summaries_list_safe b2) as Hs. destruct (summaries_list_from_ssz b2) as [l|[]|]; [|done..].
  unfold summaries_proof_from_ssz. rewrite H3. change summaries_proof_decoded_len with 4%nat in *.
  destruct b3 as [|c b3]; [done|]. cbn [chunks32]. by rewrite (proj2 (Nat.ltb_lt _ _)) by (rewrite H3; lia).
Qed.
End Correct.

(** The decoder of historical summaries with their proof, derived from the declaration,
    fails on every input, its own encodings included, whatever they hold: a beacon content
    value is never decoded to historical summaries, whether from bytes or from JSON. *)
Theorem historical_summaries_unreadable `{SL : SszLib} `{!SszLibOk SL} `{X : HexLib} `{CS : ConsensusSerde}
    `{!ConsensusSerdeOk CS} `{B : BeaconSsz} :
  summaries = summaries_codec ->
  (forall v, of_ssz summaries (to_ssz summaries v) = Err BytesInvalid)
  /\ (forall v, hashes_wf 5 (summaries_proof v) -> (** its proof alone is read back *)
      summaries_proof_from_ssz (summaries_proof_as_ssz (summaries_proof v)) = Ok (summaries_proof v))
  /\ (forall b v, BeaconContentValue.decode b <> Ok (BeaconContentValue.HistoricalSummaries v))
  /\ (forall s v, BeaconContentValue.deserialize s <> Ok (BeaconContentValue.HistoricalSummaries v)).
Proof.
  intros Hc. assert (Hn : forall b, of_ssz summaries b = Err BytesInvalid).
  { intros b. rewrite Hc. apply summaries_never_read. }
  assert (Ht : forall E b (k : res E BeaconContentValue.t) v, k <> Ok (BeaconContentValue.HistoricalSummaries v) ->
    BeaconContentValue.try_decoders b k <> Ok (BeaconContentValue.HistoricalSummaries v)).
  { intros E b k v Hk. unfold BeaconContentValue.try_decoders. rewrite Hn. cbn [res_map or_else].
    repeat match goal with |- context [or_else (res_map _ ?r) _] => destruct r; cbn [res_map or_else]; try done end. }
  split; [|split; [|split]].
  - intros v. apply Hn.
  - intros v. apply summaries_proof_read.
  - intros b v. by apply Ht.
  - intros s v. unfold BeaconContentValue.deserialize. destruct (hex_decode s); cbn; [|done..]. by apply Ht.
Qed.
End ConsensusSsz.
