(* ===== verification/HistoryBridge.v ===== *)
(** * The history bridge

    Models [portal-bridge/src/api/execution.rs] and [portal-bridge/src/bridge/history.rs]:
    the requests to an execution client, and the bridge that turns its answers into
    content, validates it and gossips it.  The HTTP client and the files are the class
    [BridgeHost]; portal clients are those of [BridgeGossip].  Tasks that the bridge spawns
    are the results of its launch functions; [spawn_serve_full_block] is what becomes of
    such a task, whose errors are dropped.  The requests of several batches, which run at the same time, are sent one after the other;
    waiting is left out. *)

From Stdlib Require Import String.
From stdpp Require Import relations.
From S2P Require Import Prelude.
From S2P Require Import Distance.
From S2P Require Import Merkle.
From S2P Require Import Header.
From S2P Require Import Hex.
From S2P Require Import Accumulator.
From S2P Require Import ContentKey.
From S2P Require Import Wire.
From S2P Require Import Gossip.
From S2P Require Import Transaction.
From S2P Require Import BlockBody.
From S2P Require Import ExecutionTyping.
From S2P Require Import ExecutionJson.
From S2P Require Import HistoryValidation.
From S2P Require Import BridgeGossip.

#[local] Open Scope list_scope.

(** ** Requests *)

Record JsonRequest := { method : bytes; params : list Value; id : Z }.

(** A response: whether its status is a success, and its body if that is a JSON array. *)
Record HttpReply := { is_success : bool; reply_body : option (list Value) }.

Class BridgeHost (W : Type) := {
  http_run : list JsonRequest -> W -> option HttpReply * W;
  read_file : bytes -> W -> option bytes * W;
}.

Inductive ApiError :=
| RequestFailed
| InvalidBatch
| InvalidJson (e : JsonError)
| NoLatestBlock
| UncleNotFound
| OneHeaderExpected (n : nat).

(** [slice::chunks]. *)
Fixpoint chunks_fuel {A} (fuel n : nat) (l : list A) : list (list A) :=
  match fuel, l with
  | _, [] => []
  | O, _ => []
  | S fuel, l => take n l :: chunks_fuel fuel n (drop n l)
  end.
Definition chunks {A} (n : nat) (l : list A) : list (list A) := chunks_fuel (length l) n l.

(** [format!("0x{:01X}")]. *)
Definition upper_char (d : Z) : byte := byte_of_Z (if d <? 10 then 0x30 + d else 0x37 + d).
Fixpoint upper_digits (n : nat) (z : Z) : bytes :=
  match n with
  | O => []
  | S n => upper_digits n (z / 16) ++ [upper_char (z mod 16)]
  end.
Definition format_height (height : Z) : bytes := str_0x ++ upper_digits (Z.to_nat (Z.log2 height / 4 + 1)) height.

Module ExecutionApi.
Definition BATCH_LIMIT : nat := 100.
Definition RETRY_ATTEMPTS : nat := 3.

Section Api.
Context {W : Type} `{BH : BridgeHost W} `{X : HexLib} `{ST : SerdeTypes}.

(** [Retry::handle]: until a response is a success. *)
Fixpoint retry (attempts : nat) (req : list JsonRequest) (w : W) : option HttpReply * W :=
  match attempts with
  | O => (None, w)
  | S attempts =>
      match http_run req w with
      | (Some val, w) => if is_success val then (Some val, w) else retry attempts req w
      | (None, w) => retry attempts req w
      end
  end.

Definition send_batch_request (requests : list JsonRequest) : SM W ApiError (list Value) := fun w =>
  match retry RETRY_ATTEMPTS requests w with
  | (Some val, w) => (ok_or (reply_body val) InvalidBatch, w)
  | (None, w) => (Err RequestFailed, w)
  end.

(** All batches are sent; then the first error counts. *)
Fixpoint send_all (batches : list (list JsonRequest)) : W -> list (res ApiError (list Value)) * W := fun w =>
  match batches with
  | [] => ([], w)
  | b :: rest =>
      let '(r, w) := send_batch_request b w in
      let '(rs, w) := send_all rest w in
      (r :: rs, w)
  end.

Definition batch_requests (obj : list JsonRequest) : SM W ApiError (list Value) := fun w =>
  let '(rs, w) := send_all (chunks BATCH_LIMIT obj) w in
  (res_map (@concat Value) (res_all (fun r => r) rs), w).

Definition hash_requests (name : string) (more : list Value) (hashes : list bytes) : list JsonRequest :=
  imap (fun i h => {| method := str name; params := Str (hex_encode h) :: more; id := Z.of_nat i mod 2 ^ 32 |}) hashes.

Definition get_trusted_receipts (tx_hashes : list bytes) : SM W ApiError Receipts.t :=
  do response <- batch_requests (hash_requests "eth_getTransactionReceipt" [] tx_hashes);
  lift (map_err InvalidJson (receipts_of_json (Array response))).

Definition get_latest_block_number : SM W ApiError Z :=
  do response <- batch_requests
    [{| method := str "eth_getBlockByNumber"; params := [Str (str "latest"); Bool false]; id := 1 |}];
  do first <- lift (index response 0);
  do result <- lift (ok_or (match first with Object o => assoc o (str "result") | _ => None end) NoLatestBlock);
  do header <- lift (map_err InvalidJson (header_of_json result));
  ret (Header.number header).

(** The header is read from the response itself, not from its result. *)
Definition uncle_of_response (response : Value) : res ApiError Header.t :=
  match index_key response (str "result") with
  | Object _ => map_err InvalidJson (header_of_json response)
  | _ => Err UncleNotFound
  end.

Definition get_trusted_uncles (hashes : list bytes) : SM W ApiError (list Header.t) :=
  do response <- batch_requests (hash_requests "eth_getBlockByHash" [Bool false] hashes);
  lift (res_all uncle_of_response response).

Definition get_header (height : Z) : SM W ApiError FullHeader.t :=
  do response <- batch_requests
    [{| method := str "eth_getBlockByNumber"; params := [Str (format_height height); Bool true];
        id := height mod 2 ^ 32 |}];
  do headers <- lift (map_err InvalidJson (FullHeader.batch (Array response)));
  match headers with
  | [h] => ret h
  | _ => lift (Err (OneHeaderExpected (length headers)))
  end.
End Api.
End ExecutionApi.

(** ** The bridge *)

Inductive BridgeError :=
| Api (e : ApiError)
| EpochAccExpected
| HeaderHashMismatch
| ProofError (e : AccError)
| EpochNotFound
| EpochInvalid
| ReceiptsRootMismatch
| RootFailed (e : BodyError)
| BlockHasUncles
| WithdrawalsExpected.

Module HistoryBridge.
Section Bridge.
Context {W : Type} `{BH : BridgeHost W} `{X : HexLib} `{ST : SerdeTypes}.
Context {EH : Eth2Hashing} {R : RlpLib} {RT : RlpTree R} {VS : VarSsz} {TL : TrieLib} {EL : EpochLib} {EE : EpochEncoding}.
Context {EN : EnrLib} {ET : EnrText} {PC : PortalClient W HistoryContentKey.t HistoryContentValue.t}.

Record t := {
  mode : BridgeMode.t;
  portal_clients : list client;
  header_oracle : HeaderOracle.t;
  epoch_acc_path : bytes;
}.

Definition construct_proof (header : Header.t) (epoch_acc : EpochAccumulator) : res AccError HeaderWithProof :=
  let? proof := MasterAccumulator.construct_proof header epoch_acc in
  Ok {| hwp_header := header; hwp_proof := AccumulatorProof proof |}.

Definition with_epoch_acc (full_header : FullHeader.t) (epoch_acc : option EpochAccumulator) : FullHeader.t :=
  {| FullHeader.header := FullHeader.header full_header; FullHeader.txs := FullHeader.txs full_header;
     FullHeader.tx_hashes := FullHeader.tx_hashes full_header; FullHeader.uncles := FullHeader.uncles full_header;
     FullHeader.epoch_acc := epoch_acc; FullHeader.withdrawals := FullHeader.withdrawals full_header |}.

(** The content for a header: with a proof if there is an accumulator. *)
Definition header_value (full_header : FullHeader.t) : res BridgeError HistoryContentValue.t :=
  let header := FullHeader.header full_header in
  match FullHeader.epoch_acc full_header with
  | Some epoch_acc =>
      let header_index := Header.number header mod EPOCH_SIZE in
      let? header_record := index epoch_acc header_index in
      if negb (bool_decide (block_hash header_record = Header.hash header)) then Err HeaderHashMismatch
      else
        let? header_with_proof := map_err ProofError (construct_proof header epoch_acc) in
        Ok (HistoryContentValue.BlockHeaderWithProof header_with_proof)
  | None =>
      Ok (HistoryContentValue.BlockHeaderWithProof {| hwp_header := header; hwp_proof := ProofNone |})
  end.

Definition gossip_header (full_header : FullHeader.t) (portal_clients : list client) (block_stats : HistoryBlockStats.t)
    : SM W BridgeError HistoryBlockStats.t :=
  let header := FullHeader.header full_header in
  if (Header.number header <? MERGE_BLOCK_NUMBER) && negb (Header.is_some (FullHeader.epoch_acc full_header))
  then lift (Err EpochAccExpected)
  else
    let content_key := HistoryContentKey.BlockHeaderWithProof (Header.hash header) in
    do content_value <- lift (header_value full_header);
    gossip_history_content portal_clients content_key content_value block_stats.

(** The name of the file of an epoch. *)
Definition epoch_file (self : t) (epoch_hash : bytes) : bytes :=
  epoch_acc_path self ++ str "/bridge_content/0x03" ++ trim_0x (hex_encode epoch_hash) ++ str ".portalcontent".

Definition get_epoch_acc (self : t) (epoch_index : Z) : SM W BridgeError EpochAccumulator :=
  do epoch_hash <- lift (index (MasterAccumulator.historical_epochs (HeaderOracle.master_acc (header_oracle self))) epoch_index);
  do file <- (fun w => let '(r, w) := read_file (epoch_file self epoch_hash) w in (ok_or r EpochNotFound, w));
  do local_epoch_acc <- lift (ok_or (epoch_acc_from_ssz file) EpochInvalid);
  let content_key := HistoryContentKey.EpochAccumulator epoch_hash in
  let content_value := HistoryContentValue.EpochAccumulator local_epoch_acc in
  do _ <- gossip_history_content (portal_clients self) content_key content_value
            (HistoryBlockStats.new (wrap64 (epoch_index * EPOCH_SIZE)));
  ret local_epoch_acc.

Definition construct_and_gossip_receipt (full_header : FullHeader.t) (portal_clients : list client)
    (block_stats : HistoryBlockStats.t) : SM W BridgeError HistoryBlockStats.t :=
  do receipts <-
    match FullHeader.txs full_header with
    | [] => ret {| Receipts.receipt_list := [] |}
    | _ => with_err Api (ExecutionApi.get_trusted_receipts (FullHeader.tx_hashes full_header))
    end;
  do receipts_root <- lift (map_err RootFailed (Receipts.root receipts));
  if negb (bool_decide (receipts_root = Header.receipts_root (FullHeader.header full_header)))
  then lift (Err ReceiptsRootMismatch)
  else
    let content_key := HistoryContentKey.BlockReceipts (Header.hash (FullHeader.header full_header)) in
    gossip_history_content portal_clients content_key (HistoryContentValue.Receipts receipts) block_stats.

(** The body of a block, by its time. *)
Definition construct_body (full_header : FullHeader.t) : SM W BridgeError BlockBody.t :=
  let txs := FullHeader.txs full_header in
  let timestamp := Header.timestamp (FullHeader.header full_header) in
  if SHANGHAI_TIMESTAMP <? timestamp then
    match FullHeader.uncles full_header with
    | [] =>
        do withdrawals <- lift (ok_or (FullHeader.withdrawals full_header) WithdrawalsExpected);
        ret (BlockBody.Shanghai {| shanghai_txs := txs; shanghai_withdrawals := withdrawals |})
    | _ => lift (Err BlockHasUncles)
    end
  else if MERGE_TIMESTAMP <? timestamp then
    match FullHeader.uncles full_header with
    | [] => ret (BlockBody.Merge {| merge_txs := txs |})
    | _ => lift (Err BlockHasUncles)
    end
  else
    do uncles <-
      match FullHeader.uncles full_header with
      | [] => ret []
      | hashes => with_err Api (ExecutionApi.get_trusted_uncles hashes)
      end;
    ret (BlockBody.Legacy {| legacy_txs := txs; legacy_uncles := uncles |}).

Definition construct_and_gossip_block_body (full_header : FullHeader.t) (portal_clients : list client)
    (block_stats : HistoryBlockStats.t) : SM W BridgeError HistoryBlockStats.t :=
  do block_body <- construct_body full_header;
  do _ <- lift (map_err RootFailed (BlockBody.validate_against_header block_body (FullHeader.header full_header)));
  let content_key := HistoryContentKey.BlockBody (Header.hash (FullHeader.header full_header)) in
  gossip_history_content portal_clients content_key (HistoryContentValue.BlockBody block_body) block_stats.

Definition serve_full_block (height : Z) (epoch_acc : option EpochAccumulator) (portal_clients : list client)
    : SM W BridgeError HistoryBlockStats.t :=
  do full_header <- with_err Api (ExecutionApi.get_header height);
  let number := Header.number (FullHeader.header full_header) in
  let full_header := if number <=? MERGE_BLOCK_NUMBER then with_epoch_acc full_header epoch_acc else full_header in
  let block_stats := HistoryBlockStats.new number in
  do block_stats <- gossip_header full_header portal_clients block_stats;
  do block_stats <- construct_and_gossip_block_body full_header portal_clients block_stats;
  construct_and_gossip_receipt full_header portal_clients block_stats.

(** *** Launching *)

(** A task that serves a block. *)
Record task := { task_height : Z; task_acc : option EpochAccumulator }.

(** [spawn_serve_full_block]: what the task leaves of the world.  The result of
    [serve_full_block] is dropped, an error or a panic as well (the permit for the number
    of tasks and the time limit, which cuts a task short, are left out). *)
Definition spawn_serve_full_block (t : task) (portal_clients : list client) (w : W) : W :=
  (serve_full_block (task_height t) (task_acc t) portal_clients w).2.

(** One round of [launch_latest]: the next block index, and the blocks to serve. *)
Definition latest_round (block_index : Z) : SM W BridgeError (Z * list Z) :=
  do latest <- attempt (with_err Api ExecutionApi.get_latest_block_number);
  match latest with
  | Ok latest_block =>
      if block_index <? latest_block then
        let end_ := wrap64 (latest_block + 1) in
        ret (end_, seqZ block_index (end_ - block_index))
      else ret (block_index, [])
  | _ => ret (block_index, [])
  end.

Fixpoint latest_rounds (rounds : nat) (block_index : Z) : SM W BridgeError (Z * list Z) :=
  match rounds with
  | O => ret (block_index, [])
  | S rounds =>
      do (block_index, heights) <- latest_round block_index;
      do (block_index, more) <- latest_rounds rounds block_index;
      ret (block_index, heights ++ more)
  end.

(** The tasks that the first rounds of the loop spawn. *)
Definition launch_latest (rounds : nat) : SM W BridgeError (list task) := fun w =>
  match ExecutionApi.get_latest_block_number w with
  | (Ok block_index, w) =>
      (do (_, heights) <- latest_rounds rounds block_index;
       ret (map (fun h => {| task_height := h; task_acc := None |}) heights)) w
  | (_, w) => (Panic, w)
  end.

(** The range of blocks of a mode. *)
Definition backfill_range (mode : BridgeMode.t) (latest_block : Z) : res BridgeError (Z * Z) :=
  let? (is_single_mode, mode_type) :=
    match mode with
    | BridgeMode.Backfill val => Ok (false, val)
    | BridgeMode.Single val => Ok (true, val)
    | _ => Panic
    end in
  let '(start_block, end_block) :=
    match mode_type with
    | ModeType.Epoch epoch_number =>
        (wrap64 (epoch_number * EPOCH_SIZE),
         if is_single_mode : bool then wrap64 (wrap64 (epoch_number + 1) * EPOCH_SIZE) else latest_block)
    | ModeType.Block block => (block, if is_single_mode then wrap64 (block + 1) else latest_block)
    | ModeType.BlockRange start_block end_block => (start_block, wrap64 (end_block + 1))
    end in
  let end_block := if latest_block <? end_block then latest_block else end_block in
  if latest_block <? start_block then Panic else Ok (start_block, end_block).

(** The loop over the range, which keeps the index and the accumulator of an epoch. *)
Fixpoint backfill_loop (self : t) (heights : list Z) (current_epoch_index : Z) (epoch_acc : option EpochAccumulator)
    : SM W BridgeError (list task) :=
  match heights with
  | [] => ret []
  | height :: rest =>
      let spawn current_epoch_index epoch_acc :=
        do tasks <- backfill_loop self rest current_epoch_index epoch_acc;
        ret ({| task_height := height; task_acc := epoch_acc |} :: tasks) in
      if (height <=? MERGE_BLOCK_NUMBER) && negb (current_epoch_index =? height / EPOCH_SIZE) then
        let current_epoch_index := height / EPOCH_SIZE in
        do r <- attempt (get_epoch_acc self current_epoch_index);
        match r with
        | Ok val => spawn current_epoch_index (Some val)
        | _ => backfill_loop self rest current_epoch_index epoch_acc
        end
      else if MERGE_BLOCK_NUMBER <? height then spawn current_epoch_index None
      else spawn current_epoch_index epoch_acc
  end.

Definition launch_backfill (self : t) : SM W BridgeError (list task) := fun w =>
  match ExecutionApi.get_latest_block_number w with
  | (Ok latest_block, w) =>
      (do (start_block, end_block) <- lift (backfill_range (mode self) latest_block);
       backfill_loop self (seqZ start_block (end_block - start_block)) (U64_MOD - 1) None) w
  | (_, w) => (Panic, w)
  end.

(** Test assets: every key with its value, all for block 0. *)
Fixpoint launch_test (self : t) (assets : list (HistoryContentKey.t * HistoryContentValue.t))
    (block_stats : HistoryBlockStats.t) : SM W BridgeError HistoryBlockStats.t :=
  match assets with
  | [] => ret block_stats
  | (content_key, content_value) :: rest =>
      do block_stats <- gossip_history_content (portal_clients self) content_key content_value block_stats;
      launch_test self rest block_stats
  end.

(** [launch], for so many rounds of the latest mode; [assets] are those of the test file. *)
Definition launch (self : t) (rounds : nat) (assets : list (HistoryContentKey.t * HistoryContentValue.t))
    : SM W BridgeError (list task) :=
  match mode self with
  | BridgeMode.Test _ => do _ <- launch_test self assets (HistoryBlockStats.new 0); ret []
  | BridgeMode.Latest => launch_latest rounds
  | _ => launch_backfill self
  end.
End Bridge.
End HistoryBridge.

(** ** The blocks that are served *)

Section Launch.
Context {W : Type} `{BH : BridgeHost W} `{X : HexLib} `{ST : SerdeTypes}.
Context {EH : Eth2Hashing} {R : RlpLib} {RT : RlpTree R} {VS : VarSsz} {TL : TrieLib} {EL : EpochLib} {EE : EpochEncoding}.
Context {EN : EnrLib} {ET : EnrText} {PC : PortalClient W HistoryContentKey.t HistoryContentValue.t}.
Implicit Types (self : HistoryBridge.t).
Import HistoryBridge.

Lemma seqZ_join a m n : 0 <= m -> 0 <= n -> seqZ a m ++ seqZ (a + m) n = seqZ a (m + n).
Proof. intros Hm Hn. by rewrite seqZ_app. Qed.

(** The numbers that a provider reports to so many polls. *)
Fixpoint polls (rounds : nat) (w : W) : list Z :=
  match rounds with
  | O => []
  | S rounds =>
      match ExecutionApi.get_latest_block_number w with
      | (Ok n, w) => n :: polls rounds w
      | (Err _, w) => polls rounds w
      | (Panic, _) => []
      end
  end.

(** The loop serves the blocks from its index up to the last but one or the last that is
    reported, and ends at the one after. *)
Lemma latest_rounds_ok rounds i w j hs w' :
  Forall (fun n => 0 <= n < U64_MOD - 1) (polls rounds w) -> latest_rounds rounds i w = (Ok (j, hs), w') ->
  i <= j /\ hs = seqZ i (j - i) /\ Forall (fun n => n <= j) (polls rounds w)
  /\ (j = i \/ List.Exists (fun n => j = n + 1) (polls rounds w)).
Proof.
  revert i w j hs w'. induction rounds as [|rounds IH]; intros i w j hs w' Hn; simpl in *.
  { revert Hn. intros _ [= <- <- <-]. rewrite Z.sub_diag. split_and!; [lia|done|constructor|by left]. }
  unfold bind, latest_round, bind, attempt, with_err.
  destruct (ExecutionApi.get_latest_block_number w) as [[n|e|] w1] eqn:E1; simpl; [| |done].
  - apply Forall_cons in Hn as [Hb Hn]. destruct (Z.ltb_spec i n).
    + rewrite wrap64_small by (unfold is_u64; lia). unfold ret.
      destruct (latest_rounds rounds (n + 1) w1) as [[[j' more]| |] w4] eqn:E2; [|done..]. intros [= <- <- <-].
      destruct (IH _ _ _ _ _ Hn E2) as (H1 & -> & H3 & H4). split_and!; [lia| |constructor; [lia|done]|].
      * replace (n + 1) with (i + (n + 1 - i)) at 2 by lia. rewrite seqZ_join by lia. f_equal. lia.
      * right. destruct H4 as [->|H4]; [by left|by right].
    + unfold ret. destruct (latest_rounds rounds i w1) as [[[j' more]| |] w4] eqn:E2; [|done..]. intros [= <- <- <-].
      destruct (IH _ _ _ _ _ Hn E2) as (H1 & -> & H3 & H4). split_and!; [done|done|constructor; [lia|done]|].
      destruct H4 as [->|H4]; [by left|right; by right].
  - unfold ret. destruct (latest_rounds rounds i w1) as [[[j' more]| |] w4] eqn:E2; [|done..]. intros [= <- <- <-]. by eapply IH.
Qed.

(** The other effects of serving a block are requests to the provider. *)
Definition requested (w w' : W) : Prop := exists req r, http_run req w = (r, w').

Lemma batch_requested reqs w r w' : ExecutionApi.batch_requests reqs w = (r, w') -> rtc requested w w'.
Proof.
  intros H. unfold ExecutionApi.batch_requests in H.
  destruct (ExecutionApi.send_all _ w) as [rs w1] eqn:Er. injection H as _ <-. clear r.
  revert w rs w1 Er. induction (chunks ExecutionApi.BATCH_LIMIT reqs) as [|b bs IH]; intros w rs w1; simpl; [by intros [= <- <-]|].
  destruct (ExecutionApi.send_batch_request b w) as [r w2] eqn:E1. destruct (ExecutionApi.send_all bs w2) as [rs' w3] eqn:E2.
  intros [= <- <-]. etrans; [|by eapply IH]. unfold ExecutionApi.send_batch_request in E1.
  assert (Hr : forall n w r w', ExecutionApi.retry n b w = (r, w') -> rtc requested w w').
  { induction n as [|n IHn]; intros w0 r0 w4; simpl; [by intros [= <- <-]|].
    destruct (http_run b w0) as [[v|] w5] eqn:Eh; (assert (requested w0 w5) by (by eexists _, _)).
    - destruct (is_success v); [by intros [= <- <-]; apply rtc_once|intros; eapply rtc_l; eauto].
    - intros; eapply rtc_l; eauto. }
  destruct (ExecutionApi.retry _ b w) as [o w4] eqn:E3. apply Hr in E3. by destruct o; injection E1 as <- <-.
Qed.

(** A task whose provider does not deliver the header only makes requests. *)
Lemma task_given_up t clients w e w' :
  ExecutionApi.get_header (task_height t) w = (Err e, w') ->
  spawn_serve_full_block t clients w = w' /\ rtc requested w w'.
Proof.
  intros E. split.
  - unfold spawn_serve_full_block, serve_full_block, bind at 1, with_err. by rewrite E.
  - unfold ExecutionApi.get_header, bind in E. destruct (ExecutionApi.batch_requests _ w) as [r w1] eqn:Eb.
    apply batch_requested in Eb. destruct r as [l| |]; [|by injection E as _ <-|done].
    unfold lift, ret in E. destruct (map_err InvalidJson _) as [hs| |]; [|by injection E as _ <-|done].
    destruct hs as [|h [|h' hs]]; by injection E as _ <-.
Qed.

(** C26: The bridge of the latest blocks tries each block exactly once.  It spawns one task
    for each block, in order and without gaps, from the block that was the latest at the
    start on, also when polls fail; by the time a number has been reported, every block
    below it has its task, while none above all reported numbers has.  (The block that is
    reported itself may wait for the next one: the loop compares with the first block that
    it has not served.)  If the provider does not deliver the header of a block when its
    task runs, the task gossips nothing, it leaves nothing behind but requests to the
    provider, and since no other task has this height, the block is not tried again. *)
Theorem latest_blocks_tried_once rounds w first w1 tasks w' :
  Forall (fun n => 0 <= n < U64_MOD - 1) (polls rounds w1) ->
  ExecutionApi.get_latest_block_number w = (Ok first, w1) -> launch_latest rounds w = (Ok tasks, w') ->
  (exists count, map task_height tasks = seqZ first count)
  /\ (forall h n, first <= h < n -> n ∈ polls rounds w1 -> {| task_height := h; task_acc := None |} ∈ tasks)
  /\ (forall t, t ∈ tasks -> task_acc t = None /\ exists n, n ∈ polls rounds w1 /\ task_height t <= n)
  /\ (forall l1 t l2 clients w2 e w3, tasks = l1 ++ t :: l2 ->
      ExecutionApi.get_header (task_height t) w2 = (Err e, w3) ->
      spawn_serve_full_block t clients w2 = w3 /\ rtc requested w2 w3
      /\ forall t', t' ∈ l1 ++ l2 -> task_height t' <> task_height t).
Proof.
  intros Hn E. unfold launch_latest. rewrite E. clear E. unfold bind at 1.
  destruct (latest_rounds rounds first w1) as [r w2] eqn:Er. destruct r as [[j hs]| |]; [|done..].
  intros [= <- <-]. destruct (latest_rounds_ok _ _ _ _ _ _ Hn Er) as (Hj & -> & Hall & Hlast).
  assert (Hmap : map task_height (map (fun h => {| task_height := h; task_acc := None |}) (seqZ first (j - first)))
    = seqZ first (j - first)) by (rewrite map_map; apply map_id).
  split_and!.
  - by exists (j - first).
  - intros h n Hh Hin. rewrite Forall_forall in Hall. specialize (Hall _ Hin). apply list_elem_of_fmap.
    exists h. split; [done|]. apply elem_of_seqZ. lia.
  - intros t (h & -> & Hh)%list_elem_of_fmap. split; [done|]. apply elem_of_seqZ in Hh. cbn.
    destruct Hlast as [->|(n & Hin & ->)%Exists_exists]; [lia|]. exists n. split; [done|lia].
  - intros l1 t l2 clients w3 e w4 Hsplit Hget. destruct (task_given_up t clients w3 e w4 Hget) as [H1 H2].
    split_and!; [done..|]. intros t' Ht' Heq. rewrite Hsplit, map_app in Hmap. cbn [map] in Hmap.
    assert (Hnd : NoDup (map task_height l1 ++ task_height t :: map task_height l2)) by (rewrite Hmap; apply NoDup_seqZ).
    rewrite <- Permutation_middle in Hnd. apply NoDup_cons in Hnd as [Hni _]. apply Hni. rewrite <- map_app, <- Heq.
    by apply list_elem_of_fmap_2.
Qed.

(** The range of a mode ends before the latest block: the latest block itself is not
    served, even when it is the block that is asked for. *)
Theorem backfill_range_spec latest b e :
  0 <= b <= latest -> 0 <= e < U64_MOD - 1 -> latest < U64_MOD - 1 ->
  backfill_range (BridgeMode.Single (ModeType.Block b)) latest = Ok (b, Z.min (b + 1) latest)
  /\ backfill_range (BridgeMode.Backfill (ModeType.Block b)) latest = Ok (b, latest)
  /\ backfill_range (BridgeMode.Backfill (ModeType.BlockRange b e)) latest = Ok (b, Z.min (e + 1) latest)
  /\ backfill_range (BridgeMode.Single (ModeType.Block latest)) latest = Ok (latest, latest).
Proof.
  intros Hb He Hl. unfold backfill_range. rewrite !wrap64_small by (unfold is_u64; lia).
  rewrite !(proj2 (Z.ltb_ge latest b)) by lia. rewrite (Z.ltb_irrefl latest), (proj2 (Z.ltb_lt latest (latest + 1))) by lia.
  split_and!; [|done| |done]; repeat case_match; f_equal; f_equal;
    repeat match goal with H : (_ <? _) = true |- _ => apply Z.ltb_lt in H | H : (_ <? _) = false |- _ => apply Z.ltb_ge in H end; lia.
Qed.

(** The accumulator for a block, by epoch. *)
Definition acc_for (accs : Z -> EpochAccumulator) (h : Z) : option EpochAccumulator :=
  if h <=? MERGE_BLOCK_NUMBER then Some (accs (h / EPOCH_SIZE)) else None.

Lemma backfill_loop_ok self accs n : forall a cur acc w,
  0 <= a ->
  (forall e w, 0 <= e <= MERGE_BLOCK_NUMBER / EPOCH_SIZE -> exists w', get_epoch_acc self e w = (Ok (accs e), w')) ->
  (a <= MERGE_BLOCK_NUMBER -> cur = a / EPOCH_SIZE -> acc = Some (accs cur)) ->
  exists w', backfill_loop self (seqZ a (Z.of_nat n)) cur acc w
    = (Ok (map (fun h => {| task_height := h; task_acc := acc_for accs h |}) (seqZ a (Z.of_nat n))), w').
Proof.
  induction n as [|n IH]; intros a cur acc w Ha Hacc Hinv; [by eexists|].
  rewrite seqZ_cons by lia. replace (Z.pred (Z.of_nat (S n))) with (Z.of_nat n) by lia. cbn [backfill_loop map].
  unfold acc_for at 1. destruct (Z.leb_spec a MERGE_BLOCK_NUMBER) as [Hm|Hm]; cbn [andb].
  - destruct (Z.eqb_spec cur (a / EPOCH_SIZE)) as [Hc|Hc]; cbn [negb].
    + rewrite (proj2 (Z.ltb_ge _ _)) by lia. rewrite (Hinv Hm Hc). unfold bind.
      edestruct (IH (Z.succ a) cur (Some (accs cur)) w) as [w' ->]; [lia|done|congruence|].
      eexists. rewrite Hc. done.
    + unfold bind, attempt. edestruct (Hacc (a / EPOCH_SIZE) w) as [w1 ->].
      { split; [apply Z.div_pos; [lia|reflexivity]|by apply Z.div_le_mono]. }
      edestruct (IH (Z.succ a) (a / EPOCH_SIZE) (Some (accs (a / EPOCH_SIZE))) w1) as [w' ->]; [lia|done|congruence|].
      eexists. done.
  - rewrite (proj2 (Z.ltb_lt _ _)) by lia. unfold bind.
    edestruct (IH (Z.succ a) cur None w) as [w' ->]; [lia|done|lia|]. eexists. done.
Qed.

(** Backfilling serves the whole range once and in order, each block up to the merge with
    the accumulator of its epoch, if the files of the epochs are there. *)
Theorem backfill_complete self accs w latest w1 a b :
  (forall e w, 0 <= e <= MERGE_BLOCK_NUMBER / EPOCH_SIZE -> exists w', get_epoch_acc self e w = (Ok (accs e), w')) ->
  ExecutionApi.get_latest_block_number w = (Ok latest, w1) ->
  backfill_range (mode self) latest = Ok (a, b) -> 0 <= a <= b ->
  exists w', launch_backfill self w
    = (Ok (map (fun h => {| task_height := h; task_acc := acc_for accs h |}) (seqZ a (b - a))), w').
Proof.
  intros Hacc E Hr Hab. unfold launch_backfill. rewrite E, Hr. unfold bind, lift.
  destruct (backfill_loop_ok self accs (Z.to_nat (b - a)) a (U64_MOD - 1) None w1) as [w' Hw]; [lia|done| |].
  - intros Hm Hc. exfalso. assert (a / EPOCH_SIZE <= MERGE_BLOCK_NUMBER / EPOCH_SIZE) as H by (by apply Z.div_le_mono).
    rewrite <- Hc in H. vm_compute in H. by apply H.
  - rewrite Z2Nat.id in Hw by lia. exists w'. exact Hw.
Qed.

(** If the accumulator of an epoch is not found, only the first block of the range in this
    epoch is skipped: the others are served with the accumulator that was there before,
    that of another epoch or none. *)
Theorem backfill_stale_accumulator self epoch n : forall a cur acc w,
  (forall w, exists e w', get_epoch_acc self epoch w = (Err e, w')) ->
  0 <= a -> a + Z.of_nat n <= MERGE_BLOCK_NUMBER -> cur <> epoch ->
  Forall (fun h => h / EPOCH_SIZE = epoch) (seqZ a (Z.of_nat (S n))) ->
  exists w', backfill_loop self (seqZ a (Z.of_nat (S n))) cur acc w
    = (Ok (map (fun h => {| task_height := h; task_acc := acc |}) (seqZ (a + 1) (Z.of_nat n))), w').
Proof.
  intros a cur acc w Hfail Ha Hm Hcur. rewrite seqZ_cons by lia.
  replace (Z.pred (Z.of_nat (S n))) with (Z.of_nat n) by lia. intros [Hh Hrest]%Forall_cons. cbn [backfill_loop].
  rewrite (proj2 (Z.leb_le _ _)), (proj2 (Z.eqb_neq cur _)) by (congruence || lia). cbn [andb negb]. rewrite Hh.
  unfold bind, attempt. destruct (Hfail w) as (e & w1 & ->).
  assert (Hgo : forall m b w, b + Z.of_nat m <= MERGE_BLOCK_NUMBER + 1 ->
    Forall (fun h => h / EPOCH_SIZE = epoch) (seqZ b (Z.of_nat m)) ->
    exists w', backfill_loop self (seqZ b (Z.of_nat m)) epoch acc w
      = (Ok (map (fun h => {| task_height := h; task_acc := acc |}) (seqZ b (Z.of_nat m))), w')).
  { clear. induction m as [|m IH]; intros b w Hb Hf; [by eexists|]. rewrite seqZ_cons in Hf |- * by lia.
    replace (Z.pred (Z.of_nat (S m))) with (Z.of_nat m) in Hf |- * by lia. apply Forall_cons in Hf as [Hb1 Hf].
    cbn [backfill_loop map]. rewrite Hb1, Z.eqb_refl, andb_false_r, (proj2 (Z.ltb_ge _ _)) by lia. unfold bind.
    destruct (IH (Z.succ b) w) as [w' ->]; [lia|done|]. by eexists. }
  apply Hgo; [lia|done].
Qed.

(** The first block of Shanghai has the time of the fork, so its body is made without the
    withdrawals that the block has. *)
Theorem shanghai_first_block full_header w :
  Header.timestamp (FullHeader.header full_header) = SHANGHAI_TIMESTAMP -> FullHeader.uncles full_header = [] ->
  construct_body full_header w = (Ok (BlockBody.Merge {| merge_txs := FullHeader.txs full_header |}), w).
Proof. intros Ht Hu. unfold construct_body. by rewrite Ht, Hu. Qed.

(** The last block before the merge is gossiped without a proof when there is no
    accumulator, and refused by every validator. *)
Theorem merge_block_unproved full_header clients stats w master :
  Header.number (FullHeader.header full_header) = MERGE_BLOCK_NUMBER -> FullHeader.epoch_acc full_header = None ->
  let v := {| hwp_header := FullHeader.header full_header; hwp_proof := ProofNone |} in
  gossip_header full_header clients stats w
  = gossip_history_content clients (HistoryContentKey.BlockHeaderWithProof (Header.hash (FullHeader.header full_header)))
      (HistoryContentValue.BlockHeaderWithProof v) stats w
  /\ MasterAccumulator.validate_header_with_proof master v = Err MissingProofPreMerge.
Proof.
  intros Hn Ha v. unfold gossip_header, header_value, MasterAccumulator.validate_header_with_proof. rewrite Hn, Ha.
  rewrite Z.ltb_irrefl. split; [done|]. simpl. by rewrite Hn, Z.leb_refl.
Qed.

(** ** Uncles *)

(** A response of JSON-RPC: an object, with an id and a result, not a block itself. *)
Definition rpc_response (v : Value) : Prop := exists o, v = Object o /\ assoc o (str "parentHash") = None.

Lemma uncle_unreadable v : rpc_response v -> exists e, ExecutionApi.uncle_of_response v = Err e.
Proof.
  intros (o & -> & Hp). unfold ExecutionApi.uncle_of_response.
  assert (header_of_json (Object o) = Err (MissingField (str "parentHash"))) as ->.
  { unfold header_of_json, field, field_or. cbn [struct_of]. by rewrite Hp. }
  case_match; eauto.
Qed.

Lemma send_batch_responses reqs w l w' :
  (forall req w r w', http_run req w = (Some r, w') -> forall l, reply_body r = Some l -> Forall rpc_response l) ->
  ExecutionApi.send_batch_request reqs w = (Ok l, w') -> Forall rpc_response l.
Proof.
  intros Hh. unfold ExecutionApi.send_batch_request.
  assert (Hr : forall n w r w', ExecutionApi.retry n reqs w = (Some r, w') -> forall l, reply_body r = Some l -> Forall rpc_response l).
  { induction n as [|n IH]; intros w0 r w1; simpl; [done|]. destruct (http_run reqs w0) as [[v|] w2] eqn:E; [|apply IH].
    destruct (is_success v); [|apply IH]. intros [= <- <-]. by eapply Hh. }
  destruct (ExecutionApi.retry _ _ _) as [[v|] w2] eqn:E; [|done]. destruct (reply_body v) eqn:Eb; [|done].
  intros [= <- <-]. by eapply Hr.
Qed.

Lemma batch_responses reqs w l w' :
  (forall req w r w', http_run req w = (Some r, w') -> forall l, reply_body r = Some l -> Forall rpc_response l) ->
  ExecutionApi.batch_requests reqs w = (Ok l, w') -> Forall rpc_response l.
Proof.
  intros Hh. unfold ExecutionApi.batch_requests.
  assert (Hs : forall bs w rs w', ExecutionApi.send_all bs w = (rs, w') ->
     Forall (fun r => forall l, r = Ok l -> Forall rpc_response l) rs).
  { induction bs as [|b bs IH]; intros w0 rs w1; simpl; [intros [= <- <-]; constructor|].
    destruct (ExecutionApi.send_batch_request b w0) as [r w2] eqn:E1.
    destruct (ExecutionApi.send_all bs w2) as [rs' w3] eqn:E2. intros [= <- <-]. constructor; [|by eapply IH].
    intros l0 ->. by eapply send_batch_responses. }
  destruct (ExecutionApi.send_all _ w) as [rs w1] eqn:E. specialize (Hs _ _ _ _ E). intros [= El <-].
  clear E. revert l El. induction Hs as [|r rs Hr _ IH]; intros l; simpl; [by intros [= <-]|].
  destruct r as [x| |]; [|done..]. destruct (res_all _ rs) as [ls| |]; [|done..]. intros [= <-]. simpl.
  apply Forall_app. split; [by apply Hr|]. by apply IH.
Qed.

(** Bodies of blocks with uncles are never served: the bridge reads the headers of uncles
    from the responses instead of from their results, so that none is read, and without
    them the body does not match its header. *)
Theorem uncles_never_served full_header clients stats w r w' :
  (forall req w r w', http_run req w = (Some r, w') -> forall l, reply_body r = Some l -> Forall rpc_response l) ->
  FullHeader.uncles full_header <> [] -> Header.timestamp (FullHeader.header full_header) <= MERGE_TIMESTAMP ->
  Header.uncles_hash (FullHeader.header full_header) <> keccak (encode_uncles []) ->
  construct_and_gossip_block_body full_header clients stats w = (r, w') -> forall s, r <> Ok s.
Proof.
  intros Hh Hu Ht Hroot. unfold construct_and_gossip_block_body, construct_body.
  rewrite (proj2 (Z.ltb_ge _ _)) by (etrans; [exact Ht|done]). rewrite (proj2 (Z.ltb_ge _ _)) by done.
  destruct (FullHeader.uncles full_header) as [|u us]; [done|]. unfold bind, with_err, ExecutionApi.get_trusted_uncles, bind.
  destruct (ExecutionApi.batch_requests _ w) as [[l| |] w1] eqn:E; [|by intros [= <- <-]..].
  apply batch_responses in E; [|done]. unfold lift. destruct l as [|v l].
  - unfold ret, BlockBody.validate_against_header, BlockBody.uncles_root. cbn.
    rewrite bool_decide_eq_false_2; [by intros [= <- <-]|]. intros Heq. apply Hroot. by rewrite <- Heq.
  - apply Forall_cons in E as [[e He]%uncle_unreadable _]. cbn [res_all]. rewrite He. by intros [= <- <-].
Qed.
End Launch.

(** ** What is gossiped is valid *)

Section Valid.
Context {W : Type} `{BH : BridgeHost W} {X : HexLib} {ST : SerdeTypes}.
Context {EH : Eth2Hashing} `{!Eth2HashingOk EH} {R : RlpLib} `{!RlpLibOk R} `{!RlpTyped R} {RT : RlpTree R} `{!RlpTreeOk RT}.
Context {VS : VarSsz} `{!VarSszOk VS} {TL : TrieLib} {EL : EpochLib} `{!EpochLibOk EL} {EE : EpochEncoding}.
Context {EN : EnrLib} {ET : EnrText} {PC : PortalClient W HistoryContentKey.t HistoryContentValue.t}.
Import HistoryBridge.

Lemma gossips_batch P reqs : gossips requested P (ExecutionApi.batch_requests reqs) (fun _ => True).
Proof. apply gossips_env. intros w r w'. apply batch_requested. Qed.

(** The block that a key is for. *)
Definition block_of (k : HistoryContentKey.t) : option H256 :=
  match k with
  | HistoryContentKey.BlockHeaderWithProof h | HistoryContentKey.BlockBody h | HistoryContentKey.BlockReceipts h => Some h
  | HistoryContentKey.EpochAccumulator _ => None
  end.

(** Content that the validator of every node accepts, if it can be encoded.  It is made for
    one of the headers [provided], with the hash in the key.  Where the validator needs a
    header of the block, the node's oracle is answered with one of that hash: the same, or
    the two headers are a collision. *)
Definition accepted (provided : Header.t -> Prop) (master : MasterAccumulator.t)
    (k : HistoryContentKey.t) (v : HistoryContentValue.t) : Prop :=
  exists header, provided header /\ block_of k = Some (Header.hash header) /\
  forall (HN : HeaderNetwork) oracle,
  HeaderOracle.master_acc oracle = master -> value_ok v ->
  match key_block k with
  | None => ChainHistoryValidator.validate_content oracle k (HistoryContentValue.encode v) = Ok tt
  | Some h => forall hv, header_answered HN oracle h = Ok hv -> Header.hash (hwp_header hv) = h ->
      ChainHistoryValidator.validate_content oracle k (HistoryContentValue.encode v) = Ok tt
      \/ collides keccak [(Header.encode (hwp_header hv), Header.encode header)]
  end.

Context (provided : Header.t -> Prop).

Lemma header_accepted master header proof :
  provided header ->
  MasterAccumulator.validate_header_with_proof master {| hwp_header := header; hwp_proof := proof |} = Ok tt ->
  accepted provided master (HistoryContentKey.BlockHeaderWithProof (Header.hash header))
    (HistoryContentValue.BlockHeaderWithProof {| hwp_header := header; hwp_proof := proof |}).
Proof.
  intros Hp Hv. exists header. split_and!; [done..|]. intros HN oracle <- Hok. cbn. unfold ChainHistoryValidator.validate_header.
  rewrite hwp_roundtrip by done. cbn [map_err hwp_header]. rewrite bool_decide_eq_true_2 by done. cbn [negb]. by rewrite Hv.
Qed.

Lemma body_accepted master header b :
  provided header -> uncle_wf header -> BlockBody.validate_against_header b header = Ok tt ->
  accepted provided master (HistoryContentKey.BlockBody (Header.hash header)) (HistoryContentValue.BlockBody b).
Proof.
  intros Hp Hw Hv. exists header. split_and!; [done..|]. intros HN oracle _ [Hb Hs]. cbn [key_block]. intros hv Hfind Hhash.
  destruct (same_header _ _ (found_header_typed _ _ _ Hfind) Hw Hhash) as [Heq|]; [left|by right].
  unfold header_answered in Hfind. cbn.
  unfold ChainHistoryValidator.validate_body. rewrite body_ssz_decodes by done. cbn [map_err]. rewrite Hfind, Heq.
  unfold BlockBody.validate_against_header in Hv.
  assert (BlockBody.uncles_root (as_read b) = BlockBody.uncles_root b) as -> by (by destruct b).
  assert (BlockBody.transactions_root (as_read b) = BlockBody.transactions_root b) as -> by (by destruct b).
  destruct (BlockBody.uncles_root b) as [u| |]; [|done..]. cbn in *. apply guard_ok in Hv as [-> Hv].
  destruct (BlockBody.transactions_root b) as [t| |]; [|done..]. cbn in *. by apply guard_ok in Hv as [-> _].
Qed.

Lemma receipts_accepted master header rs :
  provided header -> uncle_wf header -> Receipts.root rs = Ok (Header.receipts_root header) ->
  accepted provided master (HistoryContentKey.BlockReceipts (Header.hash header)) (HistoryContentValue.Receipts rs).
Proof.
  intros Hp Hw Hv. exists header. split_and!; [done..|]. intros HN oracle _ (H1 & H2 & H3 & _). cbn [key_block].
  intros hv Hfind Hhash.
  destruct (same_header _ _ (found_header_typed _ _ _ Hfind) Hw Hhash) as [Heq|]; [left|by right].
  unfold header_answered in Hfind. cbn.
  unfold ChainHistoryValidator.validate_receipts. rewrite receipts_ssz_roundtrip by done. cbn [map_err].
  rewrite Hfind, Heq, Hv. cbn. by rewrite bool_decide_eq_true_2.
Qed.
(** *** A block *)

Lemma try_from_no_acc v : typed (fun fh => FullHeader.epoch_acc fh = None) (FullHeader.try_from v).
Proof.
  unfold FullHeader.try_from. do 5 (eapply typed_bind; [apply typed_any|intros ? _]). by apply typed_ok.
Qed.

Lemma get_header_no_acc height w fh w' :
  ExecutionApi.get_header height w = (Ok fh, w') -> FullHeader.epoch_acc fh = None.
Proof.
  unfold ExecutionApi.get_header, bind. destruct (ExecutionApi.batch_requests _ w) as [[l| |] w1]; [|done..].
  unfold lift. destruct (map_err InvalidJson _) as [hs| |] eqn:E; [|done..]. apply map_err_ok in E.
  destruct hs as [|h [|? ?]]; [done| |done]. intros [= <- <-].
  assert (typed (Forall (fun fh => FullHeader.epoch_acc fh = None)) (FullHeader.batch (Array l))) as Ht.
  { apply typed_vec. intros val. eapply typed_bind; [apply typed_any|]. intros res _. apply try_from_no_acc. }
  by specialize (Ht _ E); apply Forall_inv in Ht.
Qed.

(** An accumulator for a block: complete, and recorded for its epoch. *)
Definition acc_ok (master : MasterAccumulator.t) (height : Z) (acc : EpochAccumulator) : Prop :=
  Z.of_nat (length acc) = EPOCH_SIZE /\ Forall record_wf acc
  /\ MasterAccumulator.historical_epochs master !! Z.to_nat (height / EPOCH_SIZE) = Some (tree_hash_root acc).

Lemma header_value_accepted master fh v :
  provided (FullHeader.header fh) -> 0 <= Header.number (FullHeader.header fh) ->
  match FullHeader.epoch_acc fh with
  | Some acc => Header.number (FullHeader.header fh) <= MERGE_BLOCK_NUMBER
      /\ acc_ok master (Header.number (FullHeader.header fh)) acc
  | None => MERGE_BLOCK_NUMBER < Header.number (FullHeader.header fh)
  end ->
  header_value fh = Ok v ->
  accepted provided master (HistoryContentKey.BlockHeaderWithProof (Header.hash (FullHeader.header fh))) v.
Proof.
  intros Hp Hn Hacc. unfold header_value. destruct (FullHeader.epoch_acc fh) as [acc|].
  - destruct Hacc as (Hm & Hl & Hwf & Hroot). intros (r & Hr & H)%bind_ok.
    apply guard_ok in H as [Hh%negb_false_iff%bool_decide_eq_true H].
    assert (acc !! Z.to_nat (Header.number (FullHeader.header fh) mod EPOCH_SIZE) = Some r) as Hlk.
    { unfold index in Hr. destruct (_ <? 0); [done|]. by destruct (acc !! _) eqn:E; simplify_eq/=. }
    destruct (MasterAccumulator.construct_proof_ok (FullHeader.header fh) acc r Hn Hwf Hlk Hh) as [Hc _].
    pose proof (MasterAccumulator.constructed_proof_accepted master (FullHeader.header fh) acc r (conj Hn Hm) Hl Hwf Hroot Hlk Hh) as Hv.
    revert Hc Hv. generalize (reverse (MerkleTree.spec_path 14 (MasterAccumulator.record_leaves acc)
      (Header.number (FullHeader.header fh) mod EPOCH_SIZE * 2)) ++ [MasterAccumulator.epoch_size_leaf]).
    intros proof Hc Hv. unfold construct_proof in H. rewrite Hc in H. injection H as <-. by apply header_accepted.
  - intros [= <-]. apply header_accepted; [done|]. unfold MasterAccumulator.validate_header_with_proof. cbn.
    by rewrite (proj2 (Z.leb_gt _ _)).
Qed.

Lemma gossips_construct_body P fh : gossips requested P (construct_body fh) (fun _ => True).
Proof.
  unfold construct_body. destruct (SHANGHAI_TIMESTAMP <? _); [|destruct (MERGE_TIMESTAMP <? _)].
  - destruct (FullHeader.uncles fh); [|by apply gossips_lift].
    eapply (gossips_bind _ _ _ _ (fun _ => True)); [by apply gossips_lift|]. intros ? _. by apply gossips_ret.
  - destruct (FullHeader.uncles fh); [by apply gossips_ret|by apply gossips_lift].
  - eapply (gossips_bind _ _ _ _ (fun _ => True)); [|intros ? _; by apply gossips_ret].
    destruct (FullHeader.uncles fh); [by apply gossips_ret|].
    apply gossips_err. eapply gossips_bind; [apply gossips_batch|]. intros ? _. by apply gossips_lift.
Qed.

End Valid.

Section Served.
Context {W : Type} `{BH : BridgeHost W} {X : HexLib} {ST : SerdeTypes}.
Context {EH : Eth2Hashing} `{!Eth2HashingOk EH} {R : RlpLib} `{!RlpLibOk R} `{!RlpTyped R} {RT : RlpTree R} `{!RlpTreeOk RT}.
Context {VS : VarSsz} `{!VarSszOk VS} {TL : TrieLib} {EL : EpochLib} `{!EpochLibOk EL} {EE : EpochEncoding}.
Context {EN : EnrLib} {ET : EnrText} {PC : PortalClient W HistoryContentKey.t HistoryContentValue.t}.
Import HistoryBridge.

(** The headers that the provider may deliver for a height. *)
Definition delivered_for (height : Z) (header : Header.t) : Prop :=
  exists w fh w', ExecutionApi.get_header height w = (Ok fh, w') /\ FullHeader.header fh = header.

End Served.

(** ** A bridge at work *)

#[local] Existing Instances toy_rlp_tree toy_rlp_tree_ok toy_trie toy_hex toy_hex_ok work_hashing work_hashing_ok
  work_epochs work_epochs_ok work_epoch_encoding.

Section AtWork.
(** An empty block between the merge and Shanghai, and its JSON form. *)
Definition empty_body : BlockBody.t := BlockBody.Merge {| merge_txs := [] |}.
Definition demo_header (n : Z) : Header.t := {|
  Header.parent_hash := replicate 32 x01; Header.uncles_hash := ok_root (BlockBody.uncles_root empty_body);
  Header.author := replicate 20 x03; Header.state_root := replicate 32 x04;
  Header.transactions_root := ok_root (BlockBody.transactions_root empty_body);
  Header.receipts_root := ok_root (Receipts.root {| Receipts.receipt_list := [] |});
  Header.logs_bloom := replicate 256 x00; Header.difficulty := 0;
  Header.number := n; Header.gas_limit := 30000000; Header.gas_used := 0; Header.timestamp := 1680000000;
  Header.extra_data := []; Header.mix_hash := Some (replicate 32 x07); Header.nonce := Some (replicate 8 x00);
  Header.base_fee_per_gas := Some 7; Header.withdrawals_root := None
|}.

Definition demo_block (n : Z) : Value :=
  let h := demo_header n in
  Object [(str "parentHash", json_h (Header.parent_hash h)); (str "sha3Uncles", json_h (Header.uncles_hash h));
    (str "miner", json_h (Header.author h)); (str "stateRoot", json_h (Header.state_root h));
    (str "transactionsRoot", json_h (Header.transactions_root h)); (str "receiptsRoot", json_h (Header.receipts_root h));
    (str "logsBloom", json_h (Header.logs_bloom h)); (str "difficulty", json_q (Header.difficulty h));
    (str "number", json_q n); (str "gasLimit", json_q (Header.gas_limit h)); (str "gasUsed", json_q (Header.gas_used h));
    (str "timestamp", json_q (Header.timestamp h)); (str "extraData", json_h (Header.extra_data h));
    (str "mixHash", json_h (replicate 32 x07)); (str "nonce", json_h (replicate 8 x00)); (str "baseFeePerGas", json_q 7);
    (str "uncles", Array []); (str "transactions", Array [])].

(** A provider that reports the next of some numbers as the latest and has every block; and
    a client that keeps what it is given. *)
Record demo := { gossiped : list (HistoryContentKey.t * HistoryContentValue.t); numbers : list Z }.

Definition demo_reply (v : Value) : option HttpReply :=
  Some {| is_success := true; reply_body := Some [Object [(str "id", Number 1); (str "result", v)]] |}.

#[local] Instance demo_host : BridgeHost demo := {|
  http_run req w :=
    match req with
    | [{| params := Str height :: _ |}] =>
        if decide (height = str "latest") then
          match numbers w with
          | n :: rest => (demo_reply (demo_block n), {| gossiped := gossiped w; numbers := rest |})
          | [] => (None, w)
          end
        else match from_str_radix 64 16 (trim_0x height) with
             | Some n => (demo_reply (demo_block n), w)
             | None => (None, w)
             end
    | _ => (None, w)
    end;
  read_file _ w := (None, w);
|}.

#[local] Instance demo_client : PortalClient demo HistoryContentKey.t HistoryContentValue.t := {|
  client := unit;
  trace_gossip _ k v w :=
    (Some {| TraceGossipInfo.offered := [[x01]]; TraceGossipInfo.accepted := [[x01]]; TraceGossipInfo.transferred := [[x01]] |},
     {| gossiped := gossiped w ++ [(k, v)]; numbers := numbers w |});
  content_present _ _ w := (false, w);
|}.

Definition demo_start (ns : list Z) : demo := {| gossiped := []; numbers := ns |}.
Definition demo_height : Z := 16900000.
Definition demo_full : FullHeader.t :=
  {| FullHeader.header := demo_header demo_height; FullHeader.txs := []; FullHeader.tx_hashes := [];
     FullHeader.uncles := []; FullHeader.epoch_acc := None; FullHeader.withdrawals := None |}.

Lemma demo_get_header w : ExecutionApi.get_header demo_height w = (Ok demo_full, w).
Proof. vm_compute. reflexivity. Qed.

Lemma demo_header_wf : uncle_wf (demo_header demo_height).
Proof.
  split; [|repeat split; try discriminate; intros _; discriminate].
  constructor; try (intros ? [= <-]); first [split; [discriminate|reflexivity]|reflexivity|vm_compute; reflexivity].
Qed.

Lemma demo_steps P w w' :
  rtc (gossip_step requested P) w w' -> Forall (fun '(k, v) => P k v) (gossiped w) -> Forall (fun '(k, v) => P k v) (gossiped w').
Proof.
  induction 1 as [|w w1 w2 Hs _ IH]; [done|]. intros Hw. apply IH. destruct Hs as [(req & r & E)|c k r E|c k v r HP E].
  - revert E. cbn. repeat case_match; intros [= <- <-]; exact Hw.
  - by injection E as <- <-.
  - injection E as <- <-. apply Forall_app. split; [exact Hw|]. by apply Forall_singleton.
Qed.


(** Polls that report 16900002, then 16900003, then 16900004: block 16900003 is served with
    the poll after the one that reports it. *)
Lemma latest_blocks_tried_once_witness :
  let w := demo_start [16900000; 16900002; 16900003; 16900004] in
  exists tasks w', HistoryBridge.launch_latest 3 w = (Ok tasks, w')
    /\ map HistoryBridge.task_height tasks = seqZ 16900000 5
    /\ {| HistoryBridge.task_height := 16900003; HistoryBridge.task_acc := None |} ∈ tasks.
Proof.
  eexists _, _. split; [vm_compute; reflexivity|]. split; [reflexivity|].
  edestruct (latest_blocks_tried_once 3 (demo_start [16900000; 16900002; 16900003; 16900004]) 16900000
    (demo_start [16900002; 16900003; 16900004])) as (_ & H & _ & _).
  4: apply (H 16900003 16900004); [lia|].
  2,3: vm_compute; reflexivity.
  - apply (bool_decide_unpack _). vm_compute. exact I.
  - apply (bool_decide_unpack _). vm_compute. exact I.
Defined.
End AtWork.
