(* ===== verification/BeaconBridge.v ===== *)
(** * The beacon bridge

    Models [portal-bridge/src/api/consensus.rs], [portal-bridge/src/bridge/beacon.rs] and
    the slot arithmetic of [portal-bridge/src/utils.rs]: in every slot the bridge asks a
    consensus client for the latest light client data and gossips what is new.  Requests
    and the clock are the class [HttpGet], portal clients those of [BridgeGossip].  The four
    tasks of a round, which run at the same time, run one after the other; each works on
    its own part of the state and of the statistics.  Waiting is left out. *)

From Stdlib Require Import String.
From stdpp Require Import relations.
From S2P Require Import Prelude.
From S2P Require Import Distance.
From S2P Require Import Hex.
From S2P Require Import ContentKey.
From S2P Require Import Wire.
From S2P Require Import ContentStore.
From S2P Require Import OverlayContent.
From S2P Require Import Gossip.
From S2P Require Import LightClientTypes.
From S2P Require Import BeaconValue.
From S2P Require Import BeaconStorage.
From S2P Require Import ExecutionTyping.
From S2P Require Import ExecutionJson.
From S2P Require Import BridgeGossip.
From S2P Require Import ConsensusJson.

#[local] Open Scope list_scope.

Inductive BeaconBridgeError :=
| ConsensusRequestFailed
| ConsensusJsonError (e : JsonError)
| InvalidRoot
| ClockWentBackwards
| FinalityUnwound.

(** ** Slots *)

Module BridgeUtils.
Definition BEACON_GENESIS_TIME : Z := 1606824023.

(** [now] is in seconds since the epoch; subtracting durations panics below zero. *)
Definition expected_current_slot {E} (genesis_time now : Z) : res E Z :=
  if now <? genesis_time then Panic else Ok ((now - genesis_time) / 12).

Definition slot_timestamp (slot genesis_time : Z) : Z := wrap64 (wrap64 (slot * 12) + genesis_time).

(** In seconds; the conversion to [i64] wraps. *)
Definition duration_until_next_update {E} (genesis_time now : Z) : res E Z :=
  let? current_slot := expected_current_slot genesis_time now in
  let next_slot := wrap64 (current_slot + 1) in
  let next_slot_timestamp := slot_timestamp next_slot genesis_time in
  let time_to_next_slot := wrap64 (next_slot_timestamp - now) in
  let next_update := wrap64 (time_to_next_slot + 4) in
  Ok (if next_update <? 2 ^ 63 then next_update else next_update - 2 ^ 64).
End BridgeUtils.

(** ** Requests *)

(** [value[i]]. *)
Definition index_nth (v : Value) (i : nat) : Value :=
  match v with
  | Array l => default Null (l !! i)
  | _ => Null
  end.

Module ConsensusApi.
Section Api.
Context {W : Type} `{H : HttpGet W}.

(** A request, and the JSON of its response. *)
Definition request (endpoint : bytes) : SM W BeaconBridgeError Value := fun w =>
  let '(r, w) := http_get endpoint w in (ok_or r ConsensusRequestFailed, w).

Definition get_lc_bootstrap (block_root : bytes) : SM W BeaconBridgeError Value :=
  request (str "/eth/v1/beacon/light_client/bootstrap/" ++ block_root).

Definition get_beacon_block_root (block_id : bytes) : SM W BeaconBridgeError Value :=
  request (str "/eth/v1/beacon/blocks/" ++ block_id ++ str "/root").

Definition get_lc_updates (start_period count : Z) : SM W BeaconBridgeError Value :=
  request (str "/eth/v1/beacon/light_client/updates?start_period=" ++ show_u64 start_period
           ++ str "&count=" ++ show_u64 count).

Definition get_lc_optimistic_update : SM W BeaconBridgeError Value :=
  request (str "/eth/v1/beacon/light_client/optimistic_update").

Definition get_lc_finality_update : SM W BeaconBridgeError Value :=
  request (str "/eth/v1/beacon/light_client/finality_update").
End Api.
End ConsensusApi.

(** ** The bridge *)

(** [From] for the values of the Capella fork. *)
Definition from_bootstrap (b : LightClientBootstrapCapella) : ForkVersionedLightClientBootstrap :=
  Build_ForkVersioned ForkName.Capella (LightClientBootstrap.Capella b).
Definition from_optimistic (u : LightClientOptimisticUpdateCapella) : ForkVersionedLightClientOptimisticUpdate :=
  Build_ForkVersioned ForkName.Capella (LightClientOptimisticUpdate.Capella u).
Definition from_finality (u : LightClientFinalityUpdateCapella) : ForkVersionedLightClientFinalityUpdate :=
  Build_ForkVersioned ForkName.Capella (LightClientFinalityUpdate.Capella u).

Module BeaconBridge.
Section Bridge.
Context {W : Type} `{H : HttpGet W} `{X : HexLib} `{ST : SerdeTypes} `{CS : ConsensusSerde}.
Context {EN : EnrLib} {ET : EnrText} {PC : PortalClient W BeaconContentKey.t BeaconContentValue.t}.

Definition SLOTS_PER_PERIOD : Z := 32 * 256.

Record t := { mode : BridgeMode.t; portal_clients : list client }.

(** What the bridge knows: the period, the finalized root and the finalized slot. *)
Record state := { current_period : Z; finalized_block_root : bytes; finalized_slot : Z }.

Definition json {A} (dec : Value -> res JsonError A) (v : Value) : SM W BeaconBridgeError A :=
  lift (map_err ConsensusJsonError (dec v)).

Definition serve_light_client_bootstrap (portal_clients : list client) (finalized_block_root : bytes)
    (slot_stats : BeaconSlotStats.t) : SM W BeaconBridgeError (bytes * BeaconSlotStats.t) :=
  do response <- ConsensusApi.get_beacon_block_root (str "finalized");
  do latest_finalized_block_root <- json str_of_value (index_key (index_key response (str "data")) (str "root"));
  if decide (finalized_block_root = latest_finalized_block_root) then ret (latest_finalized_block_root, slot_stats)
  else
    do result <- ConsensusApi.get_lc_bootstrap latest_finalized_block_root;
    do bootstrap <- json bootstrap_of_json (index_key result (str "data"));
    let content_value := BeaconContentValue.Bootstrap (from_bootstrap bootstrap) in
    do block_hash <- lift (map_err (fun _ => InvalidRoot) (hex_decode latest_finalized_block_root));
    if (length block_hash =? 32)%nat then
      do slot_stats <- gossip_beacon_content portal_clients (BeaconContentKey.LightClientBootstrap block_hash)
                         content_value slot_stats;
      ret (latest_finalized_block_root, slot_stats)
    else lift (Err InvalidRoot).

Definition now : SM W BeaconBridgeError Z := fun w => let '(t, w) := http_clock w in (Ok t, w).

Definition serve_light_client_update (portal_clients : list client) (current_period : Z) (slot_stats : BeaconSlotStats.t)
    : SM W BeaconBridgeError (Z * BeaconSlotStats.t) :=
  do now <- now;
  do slot <- lift (BridgeUtils.expected_current_slot BridgeUtils.BEACON_GENESIS_TIME now);
  let expected_current_period := slot / SLOTS_PER_PERIOD in
  if expected_current_period =? current_period then ret (current_period, slot_stats)
  else if expected_current_period <? current_period then lift (Err ClockWentBackwards)
  else
    do data <- ConsensusApi.get_lc_updates expected_current_period 1;
    do update <- json update_of_json (index_key (index_nth data 0) (str "data"));
    let finalized_header_period :=
      BeaconBlockHeader.slot (beacon (LightClientUpdate.finalized_header update)) / SLOTS_PER_PERIOD in
    if negb (finalized_header_period =? expected_current_period) then ret (current_period, slot_stats)
    else
      let fork_versioned_update := Build_ForkVersioned ForkName.Capella (LightClientUpdate.Capella update) in
      let content_value := BeaconContentValue.UpdatesByRange [fork_versioned_update] in
      let content_key := BeaconContentKey.LightClientUpdatesByRange expected_current_period 1 in
      do slot_stats <- gossip_beacon_content portal_clients content_key content_value slot_stats;
      ret (expected_current_period, slot_stats).

Definition serve_light_client_optimistic_update (portal_clients : list client) (slot_stats : BeaconSlotStats.t)
    : SM W BeaconBridgeError BeaconSlotStats.t :=
  do data <- ConsensusApi.get_lc_optimistic_update;
  do update <- json optimistic_update_of_json (index_key data (str "data"));
  let content_key := BeaconContentKey.LightClientOptimisticUpdate (LightClientOptimisticUpdate.signature_slot update) in
  let content_value := BeaconContentValue.OptimisticUpdate (from_optimistic update) in
  gossip_beacon_content portal_clients content_key content_value slot_stats.

Definition serve_light_client_finality_update (portal_clients : list client) (finalized_slot : Z)
    (slot_stats : BeaconSlotStats.t) : SM W BeaconBridgeError (Z * BeaconSlotStats.t) :=
  do data <- ConsensusApi.get_lc_finality_update;
  do update <- json finality_update_of_json (index_key data (str "data"));
  let new_finalized_slot := BeaconBlockHeader.slot (beacon (LightClientFinalityUpdate.finalized_header update)) in
  if new_finalized_slot =? finalized_slot then ret (finalized_slot, slot_stats)
  else if new_finalized_slot <? finalized_slot then lift (Err FinalityUnwound)
  else
    let content_key := BeaconContentKey.LightClientFinalityUpdate new_finalized_slot in
    let content_value := BeaconContentValue.FinalityUpdate (from_finality update) in
    do slot_stats <- gossip_beacon_content portal_clients content_key content_value slot_stats;
    ret (new_finalized_slot, slot_stats).

(** A task whose error keeps the value it started with. *)
Definition or_keep {A} (m : SM W BeaconBridgeError A) (old : A) : SM W BeaconBridgeError A := fun w =>
  match m w with
  | (Err _, w) => (Ok old, w)
  | r => r
  end.

Definition serve_latest (portal_clients : list client) (st : state) : SM W BeaconBridgeError (state * BeaconSlotStats.t) :=
  let slot_stats := BeaconSlotStats.new (finalized_slot st) in
  do (new_finalized_block_root, slot_stats) <-
    or_keep (serve_light_client_bootstrap portal_clients (finalized_block_root st) slot_stats) (finalized_block_root st, slot_stats);
  do (new_period, slot_stats) <-
    or_keep (serve_light_client_update portal_clients (current_period st) slot_stats) (current_period st, slot_stats);
  do (new_finalized_slot, slot_stats) <-
    or_keep (serve_light_client_finality_update portal_clients (finalized_slot st) slot_stats) (finalized_slot st, slot_stats);
  do slot_stats <- or_keep (serve_light_client_optimistic_update portal_clients slot_stats) slot_stats;
  ret ({| current_period := new_period; finalized_block_root := new_finalized_block_root;
          finalized_slot := new_finalized_slot |}, slot_stats).

(** The first round and so many rounds of the loop: the states after each. *)
Fixpoint serve_rounds (portal_clients : list client) (rounds : nat) (st : state) : SM W BeaconBridgeError (list state) :=
  match rounds with
  | O => ret []
  | S rounds =>
      do (st, _) <- serve_latest portal_clients st;
      do more <- serve_rounds portal_clients rounds st;
      ret (st :: more)
  end.

Definition initial : state := {| current_period := 0; finalized_block_root := []; finalized_slot := 0 |}.

Definition launch_latest (self : t) (rounds : nat) : SM W BeaconBridgeError (list state) :=
  serve_rounds (portal_clients self) (S rounds) initial.

(** Test assets, all for slot 0. *)
Fixpoint launch_test (self : t) (assets : list (BeaconContentKey.t * BeaconContentValue.t)) (slot_stats : BeaconSlotStats.t)
    : SM W BeaconBridgeError BeaconSlotStats.t :=
  match assets with
  | [] => ret slot_stats
  | (content_key, content_value) :: rest =>
      do slot_stats <- gossip_beacon_content (portal_clients self) content_key content_value slot_stats;
      launch_test self rest slot_stats
  end.

Definition launch (self : t) (rounds : nat) (assets : list (BeaconContentKey.t * BeaconContentValue.t))
    : SM W BeaconBridgeError (list state) :=
  match mode self with
  | BridgeMode.Latest => launch_latest self rounds
  | BridgeMode.Test _ => do _ <- launch_test self assets (BeaconSlotStats.new 0); ret []
  | _ => lift Panic
  end.
End Bridge.
End BeaconBridge.

(** ** Slots and updates *)

(** The next update is due four seconds into the next slot, 5 to 16 seconds from now. *)
Theorem next_update_spec {E} genesis now :
  0 <= genesis <= now -> now < 2 ^ 62 ->
  exists slot d, BridgeUtils.expected_current_slot (E := E) genesis now = Ok slot
    /\ BridgeUtils.duration_until_next_update (E := E) genesis now = Ok d /\ 5 <= d <= 16
    /\ BridgeUtils.expected_current_slot (E := E) genesis (now + d) = Ok (slot + 1)
    /\ (now + d - genesis) mod 12 = 4.
Proof.
  intros Hg Hn. pose proof (Z.div_mod (now - genesis) 12 ltac:(lia)) as Hdm.
  pose proof (Z.mod_pos_bound (now - genesis) 12 ltac:(lia)) as Hm. set (s := (now - genesis) / 12) in *.
  assert (Hs : 0 <= s <= now) by lia.
  assert (Hd : now + (12 - (now - genesis) mod 12 + 4) - genesis = 4 + (s + 1) * 12) by lia.
  assert (He : BridgeUtils.expected_current_slot (E := E) genesis now = Ok s).
  { unfold BridgeUtils.expected_current_slot. by destruct (Z.ltb_spec now genesis); [lia|]. }
  exists s, (12 - (now - genesis) mod 12 + 4). split_and!; [done| |lia|lia| |].
  - unfold BridgeUtils.duration_until_next_update. rewrite He. unfold BridgeUtils.slot_timestamp.
    rewrite (wrap64_small (s + 1)), (wrap64_small ((s + 1) * 12)) by (unfold is_u64, U64_MOD; lia).
    rewrite (wrap64_small ((s + 1) * 12 + genesis)), (wrap64_small ((s + 1) * 12 + genesis - now)) by (unfold is_u64, U64_MOD; lia).
    rewrite wrap64_small by (unfold is_u64, U64_MOD; lia).
    destruct (Z.ltb_spec ((s + 1) * 12 + genesis - now + 4) (2 ^ 63)); [f_equal|]; lia.
  - unfold BridgeUtils.expected_current_slot. destruct (Z.ltb_spec (now + (12 - (now - genesis) mod 12 + 4)) genesis); [lia|].
    by rewrite Hd, Z.div_add by lia.
  - by rewrite Hd, Z_mod_plus_full.
Qed.

(** ** What a round gossips *)

Section Rounds.
Context {W : Type} `{HG : HttpGet W} {X : HexLib} {ST : SerdeTypes} `{!SerdeTyped ST} {CS : ConsensusSerde} `{!ConsensusSerdeOk CS}.
Context {EN : EnrLib} {ET : EnrText} {PC : PortalClient W BeaconContentKey.t BeaconContentValue.t}.
Import BeaconBridge.

(** The other effects: requests, and reading the clock. *)
Definition asked (w w' : W) : Prop := (exists url r, http_get url w = (r, w')) \/ exists t, http_clock w = (t, w').

Abbreviation finalized_of_update u := (BeaconBlockHeader.slot (beacon (LightClientUpdate.finalized_header u))).
Abbreviation finalized_of_finality u := (BeaconBlockHeader.slot (beacon (LightClientFinalityUpdate.finalized_header u))).

(** Content that is new in [st']: of a root, a period or a slot that [st] did not have; the
    key is that of the value. *)
Definition fresh (st st' : state) (k : BeaconContentKey.t) (v : BeaconContentValue.t) : Prop :=
  match k with
  | BeaconContentKey.LightClientBootstrap hash =>
      finalized_block_root st <> finalized_block_root st' /\ hex_decode (finalized_block_root st') = Ok hash
      /\ length hash = 32%nat /\ exists b, v = BeaconContentValue.Bootstrap (from_bootstrap b) /\ bootstrap_typed b
  | BeaconContentKey.LightClientUpdatesByRange start count =>
      current_period st < start /\ start = current_period st' /\ count = 1
      /\ exists u, v = BeaconContentValue.UpdatesByRange [Build_ForkVersioned ForkName.Capella (LightClientUpdate.Capella u)]
         /\ update_typed u /\ finalized_of_update u / SLOTS_PER_PERIOD = start
  | BeaconContentKey.LightClientFinalityUpdate slot =>
      finalized_slot st < slot /\ slot = finalized_slot st'
      /\ exists u, v = BeaconContentValue.FinalityUpdate (from_finality u) /\ finality_typed u /\ finalized_of_finality u = slot
  | BeaconContentKey.LightClientOptimisticUpdate slot =>
      exists u, v = BeaconContentValue.OptimisticUpdate (from_optimistic u) /\ optimistic_typed u
      /\ LightClientOptimisticUpdate.signature_slot u = slot
  end.

Lemma request_steps url w r w' : ConsensusApi.request url w = (r, w') -> rtc asked w w'.
Proof.
  unfold ConsensusApi.request. destruct (http_get url w) as [o w1] eqn:E. intros [= _ <-]. apply rtc_once. left. eauto.
Qed.

Lemma gossips_request (P : _ -> BeaconContentValue.t -> Prop) url : gossips asked P (ConsensusApi.request url) (fun _ => True).
Proof. apply gossips_env. apply request_steps. Qed.

Lemma gossips_json (P : _ -> BeaconContentValue.t -> Prop) {A} (Q : A -> Prop) dec v : typed Q (dec v) -> gossips asked P (json dec v) Q.
Proof. intros Hd. apply gossips_lift. by apply typed_err. Qed.

(** The steps of a task, given what it returns. *)
Definition serves {A} (m : SM W BeaconBridgeError A) (P : A -> BeaconContentKey.t -> BeaconContentValue.t -> Prop)
    (Q : A -> Prop) : Prop :=
  forall w r w', m w = (r, w') ->
    match r with
    | Ok a => rtc (gossip_step asked (P a)) w w' /\ Q a
    | Err _ => rtc (gossip_step asked (fun _ _ => False)) w w'
    | Panic => True
    end.

Abbreviation nothing := (fun (_ : BeaconContentKey.t) (_ : BeaconContentValue.t) => False).

Lemma silent_steps (P : _ -> BeaconContentValue.t -> Prop) w w' : rtc (gossip_step asked nothing) w w' -> rtc (gossip_step asked P) w w'.
Proof. by apply steps_mono. Qed.

Lemma serves_ret {A} a (P : A -> _) (Q : A -> Prop) : Q a -> serves (ret a) P Q.
Proof. intros HQ w r w' [= <- <-]. done. Qed.

Lemma serves_err {A} e (P : A -> _) Q : serves (lift (Err e)) P Q.
Proof. intros w r w' [= <- <-]. done. Qed.

Lemma serves_silent {A B} (m : SM W BeaconBridgeError A) R (k : A -> SM W BeaconBridgeError B) (P : B -> _) Q :
  gossips asked nothing m R -> (forall a, R a -> serves (k a) P Q) -> serves (bind m k) P Q.
Proof.
  intros Hm Hk w r w' H. unfold bind in H. destruct (m w) as [r1 w1] eqn:E.
  destruct (Hm _ _ _ E) as [Hs HR]. destruct r1 as [a| |]; [|by injection H as <- <-..].
  specialize (Hk a (HR a eq_refl) _ _ _ H). destruct r as [b| |]; [|by etrans|done].
  destruct Hk as [Hs2 HQ]. split; [|done]. etrans; [by apply silent_steps|exact Hs2].
Qed.

Lemma serves_gossip {B} clients key v stats (f : BeaconSlotStats.t -> B) (P : B -> _) (Q : B -> Prop) :
  (forall stats, P (f stats) key v /\ Q (f stats)) ->
  serves (do stats <- gossip_beacon_content clients key v stats; ret (f stats)) P Q.
Proof.
  intros HP w r w' H. unfold bind in H. destruct (gossip_beacon_content clients key v stats w) as [r1 w1] eqn:E.
  destruct r1 as [s| |].
  - injection H as <- <-. destruct (HP s) as [HP1 HQ]. split; [|done].
    by apply (gossips_beacon_content asked (P (f s)) (F := BeaconBridgeError)) in E as [? _].
  - exfalso. unfold gossip_beacon_content in E. destruct (gossip_results _ _ _ _). by destruct (ContentStats.from _).
  - by injection H as <- <-.
Qed.

Lemma silent_request url : gossips asked nothing (ConsensusApi.request url) (fun _ => True).
Proof. apply gossips_request. Qed.

Lemma silent_json {A} (Q : A -> Prop) dec v : typed Q (dec v) -> gossips asked nothing (json dec v) Q.
Proof. apply gossips_json. Qed.

Lemma silent_lift {A} (r : res BeaconBridgeError A) : gossips asked nothing (lift r) (fun a => r = Ok a).
Proof. by apply gossips_lift. Qed.

Lemma silent_now : gossips asked nothing now (fun _ => True).
Proof.
  apply gossips_env. intros w r w'. unfold now. destruct (http_clock w) as [t w1] eqn:E. intros [= _ <-].
  apply rtc_once. right. eauto.
Qed.

(** A new finalized root is that of the bootstrap that is gossiped. *)
Lemma bootstrap_serves clients root stats :
  serves (serve_light_client_bootstrap clients root stats)
    (fun '(root', _) k v => root <> root' /\ exists hash b, k = BeaconContentKey.LightClientBootstrap hash
       /\ hex_decode root' = Ok hash /\ length hash = 32%nat /\ v = BeaconContentValue.Bootstrap (from_bootstrap b) /\ bootstrap_typed b)
    (fun _ => True).
Proof.
  unfold serve_light_client_bootstrap. eapply serves_silent; [apply silent_request|]. intros resp _.
  eapply serves_silent; [apply silent_json, typed_any|]. intros root' _.
  destruct (decide (root = root')) as [->|Hne]; [by apply serves_ret|].
  eapply serves_silent; [apply silent_request|]. intros res _.
  eapply serves_silent; [apply silent_json, typed_bootstrap|]. intros b Hb.
  eapply serves_silent; [apply silent_lift|]. intros hash Hh.
  destruct (Nat.eqb_spec (length hash) 32); [|apply serves_err]. apply serves_gossip. intros s. split; [|done].
  split; [done|]. exists hash, b. split_and!; try done. by destruct (hex_decode root'); simplify_eq/=.
Qed.

(** The period advances to that of the update that is gossiped. *)
Lemma update_serves clients period stats :
  serves (serve_light_client_update clients period stats)
    (fun '(period', _) k v => period < period' /\ k = BeaconContentKey.LightClientUpdatesByRange period' 1
       /\ exists u, v = BeaconContentValue.UpdatesByRange [Build_ForkVersioned ForkName.Capella (LightClientUpdate.Capella u)]
            /\ update_typed u /\ finalized_of_update u / SLOTS_PER_PERIOD = period')
    (fun '(period', _) => period <= period').
Proof.
  unfold serve_light_client_update. eapply serves_silent; [apply silent_now|]. intros t _.
  eapply serves_silent; [apply silent_lift|]. intros slot _. set (p := slot / SLOTS_PER_PERIOD).
  destruct (Z.eqb_spec p period); [by apply serves_ret|]. destruct (Z.ltb_spec p period); [apply serves_err|].
  eapply serves_silent; [apply silent_request|]. intros data _.
  eapply serves_silent; [apply silent_json, typed_update|]. intros u Hu.
  destruct (Z.eqb_spec (finalized_of_update u / SLOTS_PER_PERIOD) p); [|by apply serves_ret].
  apply serves_gossip. intros s. split; [|lia]. split_and!; [lia|done|]. by exists u.
Qed.

(** The finalized slot advances to that of the finality update that is gossiped. *)
Lemma finality_serves clients slot stats :
  serves (serve_light_client_finality_update clients slot stats)
    (fun '(slot', _) k v => slot < slot' /\ k = BeaconContentKey.LightClientFinalityUpdate slot'
       /\ exists u, v = BeaconContentValue.FinalityUpdate (from_finality u) /\ finality_typed u /\ finalized_of_finality u = slot')
    (fun '(slot', _) => slot <= slot').
Proof.
  unfold serve_light_client_finality_update. eapply serves_silent; [apply silent_request|]. intros data _.
  eapply serves_silent; [apply silent_json, typed_finality|]. intros u Hu.
  destruct (Z.eqb_spec (finalized_of_finality u) slot); [by apply serves_ret|].
  destruct (Z.ltb_spec (finalized_of_finality u) slot); [apply serves_err|].
  apply serves_gossip. intros s. split; [|lia]. split_and!; [lia|done|]. by exists u.
Qed.

Lemma optimistic_serves clients stats :
  serves (serve_light_client_optimistic_update clients stats)
    (fun _ k v => exists u, k = BeaconContentKey.LightClientOptimisticUpdate (LightClientOptimisticUpdate.signature_slot u)
       /\ v = BeaconContentValue.OptimisticUpdate (from_optimistic u) /\ optimistic_typed u)
    (fun _ => True).
Proof.
  unfold serve_light_client_optimistic_update. eapply serves_silent; [apply silent_request|]. intros data _.
  eapply serves_silent; [apply silent_json, typed_optimistic|]. intros u Hu.
  intros w r w' E. eapply (serves_gossip _ _ _ _ (fun s => s)); [|unfold bind; rewrite E; by destruct r].
  intros s. split; [|done]. by exists u.
Qed.

(** A task with its fallback, inside of a round. *)
Lemma keep_ok {A} (m : SM W BeaconBridgeError A) old (P : A -> _) Q w a w' :
  serves m P Q -> Q old -> or_keep m old w = (Ok a, w') -> rtc (gossip_step asked (P a)) w w' /\ Q a.
Proof.
  intros Hm Ho. unfold or_keep. destruct (m w) as [r w1] eqn:E. specialize (Hm _ _ _ E).
  destruct r; intros [= <- <-]; [done|]. split; [by apply silent_steps|done].
Qed.

Lemma bind_ok_inv {S E A B} (m : SM S E A) (k : A -> SM S E B) s b s' :
  bind m k s = (Ok b, s') -> exists a s1, m s = (Ok a, s1) /\ k a s1 = (Ok b, s').
Proof. unfold bind. destruct (m s) as [[a| |] s1]; [|done..]. intros H. by exists a, s1. Qed.

(** A round gossips what is new and nothing else. *)
Lemma round_fresh clients st w st' stats w' :
  serve_latest clients st w = (Ok (st', stats), w') ->
  current_period st <= current_period st' /\ finalized_slot st <= finalized_slot st'
  /\ rtc (gossip_step asked (fresh st st')) w w'.
Proof.
  unfold serve_latest. intros ([root s1] & w1 & E1 & H)%bind_ok_inv. apply bind_ok_inv in H as ([p s2] & w2 & E2 & H).
  apply bind_ok_inv in H as ([sl s3] & w3 & E3 & H). apply bind_ok_inv in H as (s4 & w4 & E4 & H). injection H as <- <- <-.
  destruct (keep_ok _ _ _ _ _ _ _ (bootstrap_serves _ _ _) I E1) as [S1 _].
  eapply keep_ok in E2 as [S2 Hp]; [|apply update_serves|apply Z.le_refl].
  eapply keep_ok in E3 as [S3 Hs]; [|apply finality_serves|apply Z.le_refl].
  destruct (keep_ok _ _ _ _ _ _ _ (optimistic_serves _ _) I E4) as [S4 _].
  split_and!; [done..|]. etrans; [|etrans; [|etrans]]; (eapply steps_mono; [|first [exact S1|exact S2|exact S3|exact S4]]); cbn.
  - intros k v (Hne & hash & b & -> & ?). cbn. naive_solver.
  - intros k v (? & -> & u & ?). cbn. naive_solver.
  - intros k v (? & -> & u & ?). cbn. naive_solver.
  - intros k v (u & -> & ?). cbn. naive_solver.
Qed.

(** Content that is new in some state of a run, compared to the one before. *)
Definition fresh_at (l : list state) (i : nat) (k : BeaconContentKey.t) (v : BeaconContentValue.t) : Prop :=
  exists st st', l !! i = Some st /\ l !! S i = Some st' /\ fresh st st' k v.

Lemma rounds_fresh clients rounds st w sts w' :
  serve_rounds clients rounds st w = (Ok sts, w') ->
  (forall i a b, (st :: sts) !! i = Some a -> (st :: sts) !! S i = Some b ->
     current_period a <= current_period b /\ finalized_slot a <= finalized_slot b)
  /\ rtc (gossip_step asked (fun k v => exists i, fresh_at (st :: sts) i k v)) w w'.
Proof.
  revert st w sts. induction rounds as [|rounds IH]; intros st w sts; simpl.
  { intros [= <- <-]. split; [|done]. intros i a b _. by rewrite lookup_nil. }
  intros ([st1 stats] & w1 & E1 & H)%bind_ok_inv. apply bind_ok_inv in H as (more & w2 & E2 & H).
  injection H as <- <-. destruct (round_fresh _ _ _ _ _ _ E1) as (Hp & Hs & S1). destruct (IH _ _ _ E2) as [Hm S2]. split.
  - intros [|i] a b; simpl; [by intros [= <-] [= <-]|]. intros Ha Hb. by apply (Hm i).
  - etrans; [eapply steps_mono, S1|eapply steps_mono, S2].
    + intros k v Hf. exists 0%nat, st, st1. done.
    + intros k v (i & a & b & Ha & Hb & Hf). by exists (S i), a, b.
Qed.

Lemma ascending {A} (f : A -> Z) (l : list A) :
  (forall i a b, l !! i = Some a -> l !! S i = Some b -> f a <= f b) ->
  forall i j a b, (i <= j)%nat -> l !! i = Some a -> l !! j = Some b -> f a <= f b.
Proof.
  intros Hl i j a b Hij Ha. revert b. induction Hij as [|j Hij IH]; intros b Hb; [simplify_eq; lia|].
  destruct (lookup_lt_is_Some_2 l j) as [c Hc]; [apply lookup_lt_Some in Hb; lia|]. etrans; [by apply IH|by eapply Hl].
Qed.

Definition once_only (k : BeaconContentKey.t) : Prop :=
  match k with
  | BeaconContentKey.LightClientUpdatesByRange _ _ | BeaconContentKey.LightClientFinalityUpdate _ => True
  | _ => False
  end.

(** C27: The beacon bridge gossips what is new, once.  Through all its rounds, whatever the
    consensus client answers and whatever fails, its period and its finalized slot never go
    back; all content that is gossiped is well typed, is gossiped under its own key, and is
    of a root, period or slot that the bridge did not have before the round and has after
    it, or the latest optimistic update; so an update and a finality update are not
    gossiped by two rounds. *)
Theorem beacon_bridge_fresh self rounds w sts w' :
  launch_latest self rounds w = (Ok sts, w') ->
  let l := initial :: sts in
  (forall i j a b, (i <= j)%nat -> l !! i = Some a -> l !! j = Some b ->
     current_period a <= current_period b /\ finalized_slot a <= finalized_slot b)
  /\ rtc (gossip_step asked (fun k v => exists i, fresh_at l i k v)) w w'
  /\ (forall i j k v v', once_only k -> fresh_at l i k v -> fresh_at l j k v' -> i = j).
Proof.
  intros H. destruct (rounds_fresh _ _ _ _ _ _ H) as [Hm Hs]. cbn zeta. generalize dependent (initial :: sts). intros l Hm Hs.
  assert (Hp := ascending current_period l (fun i a b Ha Hb => proj1 (Hm i a b Ha Hb))).
  assert (Hf := ascending finalized_slot l (fun i a b Ha Hb => proj2 (Hm i a b Ha Hb))).
  split_and!; [intros; split; eauto|done|].
  assert (Hlt : forall i j k v v', once_only k -> fresh_at l i k v -> fresh_at l j k v' -> (i < j)%nat -> False).
  { intros i j k v v' Hk (a & b & Ha & Hb & F1) (c & d & Hc & Hd & F2) Hij.
    pose proof (Hp (S i) j b c ltac:(lia) Hb Hc). pose proof (Hf (S i) j b c ltac:(lia) Hb Hc).
    destruct k; try done; cbn in F1, F2; lia. }
  intros i j k v v' Hk F1 F2. destruct (lt_eq_lt_dec i j) as [[?|?]|?]; [exfalso; eauto|done|exfalso; eauto].
Qed.
End Rounds.

(** ** From the bridge to a node *)

Section Served.
Context `{HL : HashLib} {X : HexLib} `{!HexLibOk X} {S : BeaconSsz} `{!BeaconSszOk S} {U : U64Ssz} `{!U64SszOk U}.
Import BeaconBridge.

Abbreviation bget := (BeaconStorage.get (CK := BeaconContentKey.overlay_key)).
Abbreviation bstore := (BeaconStorage.store (CK := BeaconContentKey.overlay_key)).

(** A node that does not have the content yet. *)
Definition absent (k : BeaconContentKey.t) (node : BeaconStorage.t) : Prop :=
  match k with
  | BeaconContentKey.LightClientBootstrap _ => bget node k = Ok None
  | BeaconContentKey.LightClientUpdatesByRange start _ => BeaconStorage.lc_update node !! start = None
  | _ => True
  end.

Lemma fresh_key_wf st st' k v : fresh st st' k v -> BeaconContentKey.wf k.
Proof.
  destruct k as [h|start count|slot|slot]; cbn.
  - intros (_ & _ & Hh & _). exact Hh.
  - intros (_ & _ & -> & u & _ & Hu & <-). destruct Hu as (_ & _ & _ & [[[Hs0 Hs1] _] _] & _).
    split; [|by split]. split; [by apply Z.div_pos|]. apply Z.div_lt_upper_bound; [done|].
    unfold SLOTS_PER_PERIOD, U64_MOD in *. lia.
  - intros (_ & _ & u & _ & Hu & <-). destruct Hu as (_ & [[Hs _] _] & _). exact Hs.
  - intros (u & _ & (_ & _ & Hs) & <-). exact Hs.
Qed.

(** What the bridge gossips, nodes can serve: content that is new to the bridge is
    accepted by the storage of a node that does not have it, and the node then answers a
    request for its key with exactly that content. *)
Theorem bridged_content_served st st' k v node :
  fresh st st' k v -> value_ok v -> absent k node ->
  exists node', bstore node (Ok 0) k (BeaconContentValue.encode v) = (node', Ok tt)
    /\ bget node' k = Ok (Some (BeaconContentValue.encode v)).
Proof.
  intros Hf Hv Ha. apply store_then_get; [by eapply fresh_key_wf|].
  pose proof (fresh_key_wf _ _ _ _ Hf) as Hk. destruct k as [h|start count|slot|slot]; cbn in Hf; unfold stored_value.
  - exact Ha.
  - destruct Hf as (_ & _ & -> & u & -> & Hu & Hs). destruct Hv as (_ & Hl & Hlen & Hvs). eexists.
    split_and!; [by apply range_roundtrip|done|done|done|done| |].
    + destruct Hu as (_ & _ & _ & [[[Hr0 Hr1] _] _] & _).
      assert (start < 2 ^ 62); [|lia]. rewrite <- Hs. apply Z.div_lt_upper_bound; [done|].
      unfold SLOTS_PER_PERIOD, U64_MOD in *. lia.
    + intros p Hp. by assert (p = start) as -> by lia.
  - destruct Hf as (_ & _ & u & -> & _ & Hs). exists u. split_and!; [by apply versioned_roundtrip|done|lia].
  - destruct Hf as (u & -> & _ & Hs). exists (from_optimistic u). split_and!; [|done|exact Hs].
    unfold optimistic_decode. cbn [BeaconContentValue.encode]. unfold optimistic_encode. by rewrite versioned_roundtrip.
Qed.
End Served.

(** ** A bridge at work *)

#[local] Existing Instances toy_hex toy_hex_ok toy_serde toy_serde_typed toy_u64_ssz toy_u64_ssz_ok toy_hashes.

Section AtWork.
#[local] Instance toy_consensus_serde : ConsensusSerde := {|
  as_u64 v := match v with Number z => if (0 <=? z) && (z <? U64_MOD) then Ok z else Err InvalidType | _ => Err InvalidType end;
  bits_of_json _ _ := Ok [];
  vector_of_json _ _ dec := vec_of_value dec;
  vector_from n b := take n (b ++ replicate n x00);
  prefixed_hex v := let? s := str_of_value v in map_err (fun _ => Custom) (hex_decode s);
  from_dec_str := from_str_radix 256 10;
|}.

#[local] Instance toy_consensus_serde_ok : ConsensusSerdeOk toy_consensus_serde.
Proof.
  split.
  - intros [| |n| | |] z; cbn; try done. destruct (Z.leb_spec 0 n); [|done]. destruct (Z.ltb_spec n U64_MOD); [|done]. by intros [= <-].
  - intros A n dec v l H. eapply (typed_vec (fun a => exists v, dec v = Ok a)); [|exact H]. intros v' a. eauto.
  - intros n b. cbn. rewrite length_take, length_app, length_replicate. lia.
  - intros n b <-. cbn. by rewrite take_app_length.
Qed.

Definition z32 : bytes := replicate 32 x00.
Definition j32 : Value := json_h z32.

Definition json_beacon (slot : Z) : Value :=
  Object [(str "slot", Number slot); (str "proposer_index", Number 0); (str "parent_root", j32); (str "state_root", j32);
          (str "body_root", j32)].
Definition json_execution : Value :=
  Object [(str "parent_hash", j32); (str "fee_recipient", json_h (replicate 20 x00)); (str "state_root", j32);
    (str "receipts_root", j32); (str "logs_bloom", json_h (replicate 256 x00)); (str "prev_randao", j32);
    (str "block_number", Number 1); (str "gas_limit", Number 2); (str "gas_used", Number 3); (str "timestamp", Number 4);
    (str "extra_data", json_h []); (str "base_fee_per_gas", Str (str "5")); (str "block_hash", j32);
    (str "transactions_root", j32); (str "withdrawals_root", j32)].
Definition json_lc_header (slot : Z) : Value :=
  Object [(str "beacon", json_beacon slot); (str "execution", json_execution); (str "execution_branch", Array [j32])].
Definition json_committee : Value :=
  Object [(str "pubkeys", Array []); (str "aggregate_pubkey", json_h (replicate 48 x07))].
Definition json_aggregate : Value :=
  Object [(str "sync_committee_bits", Null); (str "sync_committee_signature", json_h (replicate 96 x08))].

(** A consensus client whose finalized slot is 8192 * 100, at a time in period 100; the
    content that is gossiped is kept. *)
Record demo := { beacon_gossip : list (BeaconContentKey.t * BeaconContentValue.t) }.

Definition demo_finalized : Z := 819200.
Definition demo_json (url : bytes) : option Value :=
  if decide (url = str "/eth/v1/beacon/blocks/" ++ str "finalized" ++ str "/root")
  then Some (Object [(str "data", Object [(str "root", j32)])])
  else if decide (url = str "/eth/v1/beacon/light_client/finality_update")
  then Some (Object [(str "data", Object [(str "attested_header", json_lc_header 819300);
                                          (str "finalized_header", json_lc_header demo_finalized);
                                          (str "finality_branch", Array []); (str "sync_aggregate", json_aggregate);
                                          (str "signature_slot", Number 819301)])])
  else if decide (url = str "/eth/v1/beacon/light_client/optimistic_update")
  then Some (Object [(str "data", Object [(str "attested_header", json_lc_header 819300); (str "sync_aggregate", json_aggregate);
                                          (str "signature_slot", Number 819301)])])
  else if decide (url = str "/eth/v1/beacon/light_client/updates?start_period=100&count=1")
  then Some (Array [Object [(str "data", Object [(str "attested_header", json_lc_header 819300);
                                          (str "next_sync_committee", json_committee); (str "next_sync_committee_branch", Array []);
                                          (str "finalized_header", json_lc_header demo_finalized);
                                          (str "finality_branch", Array []); (str "sync_aggregate", json_aggregate);
                                          (str "signature_slot", Number 819301)])]])
  else Some (Object [(str "data", Object [(str "header", json_lc_header demo_finalized);
                                          (str "current_sync_committee", json_committee);
                                          (str "current_sync_committee_branch", Array [])])]).

#[local] Instance demo_http : HttpGet demo := {|
  http_get url w := (demo_json url, w);
  http_clock w := (1606824023 + 12 * 819305, w);
|}.

#[local] Instance demo_client : PortalClient demo BeaconContentKey.t BeaconContentValue.t := {|
  client := unit;
  trace_gossip _ k v w :=
    (Some {| TraceGossipInfo.offered := [[x01]]; TraceGossipInfo.accepted := [[x01]]; TraceGossipInfo.transferred := [[x01]] |},
     {| beacon_gossip := beacon_gossip w ++ [(k, v)] |});
  content_present _ _ w := (false, w);
|}.

Definition demo_bridge : BeaconBridge.t := {| BeaconBridge.mode := BridgeMode.Latest; BeaconBridge.portal_clients := [tt] |}.
Definition demo_state : BeaconBridge.state :=
  {| BeaconBridge.current_period := 100; BeaconBridge.finalized_block_root := hex_encode z32;
     BeaconBridge.finalized_slot := demo_finalized |}.

(** The first round gossips everything, the second only the optimistic update again. *)
Lemma beacon_bridge_fresh_witness :
  exists w', BeaconBridge.launch_latest demo_bridge 1 {| beacon_gossip := [] |} = (Ok [demo_state; demo_state], w')
    /\ map fst (beacon_gossip w') =
       [BeaconContentKey.LightClientBootstrap z32; BeaconContentKey.LightClientUpdatesByRange 100 1;
        BeaconContentKey.LightClientFinalityUpdate demo_finalized;
        BeaconContentKey.LightClientOptimisticUpdate 819301; BeaconContentKey.LightClientOptimisticUpdate 819301]
    /\ rtc (gossip_step asked (fun k v => exists i, fresh_at [BeaconBridge.initial; demo_state; demo_state] i k v))
         {| beacon_gossip := [] |} w'.
Proof.
  eexists. split; [vm_compute; reflexivity|]. split; [vm_compute; reflexivity|].
  eapply (beacon_bridge_fresh demo_bridge 1). vm_compute. reflexivity.
Defined.

(** SSZ with the bytes of these slots for the finality updates. *)
Definition lc_header_at (slot : Z) : LightClientHeaderCapella :=
  {| beacon := BeaconBlockHeader.mk slot 0 z32 z32 z32; execution := no_execution; execution_branch := [z32] |}.
Definition typed_finality_at (slot : Z) : LightClientFinalityUpdateCapella :=
  LightClientFinalityUpdate.mk (lc_header_at slot) (lc_header_at slot) []
    {| sync_committee_bits := []; sync_committee_signature := replicate 96 x08 |} slot.

#[local] Instance demo_ssz : BeaconSsz :=
  toy_ssz (toy_codec 24788 (fun b => BeaconBlockHeader.slot (beacon (LightClientBootstrap.header b))) bootstrap_at)
    (toy_codec 25152 LightClientUpdate.signature_slot update_at)
    (toy_codec 368 LightClientFinalityUpdate.signature_slot typed_finality_at)
    (toy_codec 172 LightClientOptimisticUpdate.signature_slot optimistic_at).

#[local] Instance demo_ssz_ok : BeaconSszOk demo_ssz.
Proof. apply toy_ssz_ok. Qed.

Definition demo_value : BeaconContentValue.t := BeaconContentValue.FinalityUpdate (from_finality (typed_finality_at demo_finalized)).

Lemma bridged_content_served_witness :
  exists node, BeaconStorage.store (CK := BeaconContentKey.overlay_key) empty_beacon_storage (Ok 0)
                 (BeaconContentKey.LightClientFinalityUpdate demo_finalized) (BeaconContentValue.encode demo_value) = (node, Ok tt)
    /\ BeaconStorage.get (CK := BeaconContentKey.overlay_key) node (BeaconContentKey.LightClientFinalityUpdate demo_finalized)
       = Ok (Some (BeaconContentValue.encode demo_value)).
Proof.
  apply (bridged_content_served BeaconBridge.initial demo_state).
  - cbn. split; [reflexivity|]. split; [reflexivity|]. eexists. split; [reflexivity|].
    split; [|reflexivity]. unfold finality_typed, lc_header_typed, beacon_header_typed, branch_typed, aggregate_typed, is_u64.
    split_and!; try (vm_compute; congruence); by repeat constructor.
  - reflexivity.
  - exact I.
Defined.
End AtWork.
