(* ===== verification/Config.v ===== *)
(** * Configuration

    Models [ethportal-api/src/types/cli.rs] and [bootnodes.rs], the configuration of a node,
    and [portal-bridge/src/cli.rs], [types/network.rs], [client_handles.rs] and the keys of
    [utils.rs], the configuration of the bridge and of the nodes that it launches.  Command
    lines are parsed by the crate [clap]: its result is the input here.  URLs, socket
    addresses, hashes in text and private keys are the classes [UrlLib], [HashText] and
    [KeyLib]. *)

From Stdlib Require Import String.
From stdpp Require Import sets.
From S2P Require Import Prelude.
From S2P Require Import Distance.
From S2P Require Import Hex.
From S2P Require Import Query.
From S2P Require Import Wire.
From S2P Require Import Gossip.
From S2P Require Import LightClientTypes.
From S2P Require Import ExecutionJson.
From S2P Require Import BridgeGossip.
From S2P Require Import ConsensusJson.

#[local] Open Scope list_scope.

(** ** Text of other crates *)

Class UrlLib := {
  Url : Type;
  url_parse : bytes -> option Url;
  url_as_str : Url -> bytes;
  host_str : Url -> option bytes;
  url_port : Url -> option Z;
  (** [SocketAddr::from_str] *)
  SocketAddr : Type;
  socket_addr_parse : bytes -> option SocketAddr;
}.

(** A URL begins with the letter of a scheme; a socket address with a digit or a bracket. *)
Definition is_letter (c : byte) : Prop := 0x61 <= byte_to_Z c <= 0x7a.
Class UrlLibOk (U : UrlLib) : Prop := {
  url_scheme u : exists c rest, url_as_str u = c :: rest /\ is_letter c;
  url_reparse u : url_parse (url_as_str u) = Some u;
  socket_addr_head s a : socket_addr_parse s = Some a -> exists c rest, s = c :: rest /\ ~ is_letter c;
}.

Class HashText := { h256_from_str : bytes -> option bytes }.
Class HashTextOk `{X : HexLib} (T : HashText) : Prop := {
  h256_hex b : length b = 32%nat -> h256_from_str (hex_encode b) = Some b;
}.

(** [split] at commas and [join] with them. *)
Definition COMMA : byte := x2c.
Fixpoint join (sep : byte) (l : list bytes) : bytes :=
  match l with
  | [] => []
  | [x] => x
  | x :: l => x ++ sep :: join sep l
  end.

(** ** Boot nodes *)

Section Bootnodes.
Context `{T : EnrText}.

Record Bootnode := { bootnode_enr : Enr; alias : bytes }.

Definition default_texts : list (bytes * bytes) :=
  [(str "enr:-Jy4QIs2pCyiKna9YWnAF0zgf7bT0GzlAGoF8MEKFJOExmtofBIqzm71zDvmzRiiLkxaEJcs_Amr7XIhLI74k1rtlXICY5Z0IDAuMS4xLWFscGhhLjEtMTEwZjUwgmlkgnY0gmlwhKEjVaWJc2VjcDI1NmsxoQLSC_nhF1iRwsCw0n3J4jRjqoaRxtKgsEe5a-Dz7y0JloN1ZHCCIyg",
    str "trin-ams3-1");
   (str "enr:-Jy4QKSLYMpku9F0Ebk84zhIhwTkmn80UnYvE4Z4sOcLukASIcofrGdXVLAUPVHh8oPCfnEOZm1W1gcAxB9kV2FJywkCY5Z0IDAuMS4xLWFscGhhLjEtMTEwZjUwgmlkgnY0gmlwhJO2oc6Jc2VjcDI1NmsxoQLMSGVlxXL62N3sPtaV-n_TbZFCEM5AR7RDyIwOadbQK4N1ZHCCIyg",
    str "trin-nyc1-1");
   (str "enr:-Jy4QH4_H4cW--ejWDl_W7ngXw2m31MM2GT8_1ZgECnfWxMzZTiZKvHDgkmwUS_l2aqHHU54Q7hcFSPz6VGzkUjOqkcCY5Z0IDAuMS4xLWFscGhhLjEtMTEwZjUwgmlkgnY0gmlwhJ31OTWJc2VjcDI1NmsxoQPC0eRkjRajDiETr_DRa5N5VJRm-ttCWDoO1QAMMCg5pIN1ZHCCIyg",
    str "trin-sgp1-1");
   (str "enr:-IS4QGUtAA29qeT3cWVr8lmJfySmkceR2wp6oFQtvO_uMe7KWaK_qd1UQvd93MJKXhMnubSsTQPJ6KkbIu0ywjvNdNEBgmlkgnY0gmlwhMIhKO6Jc2VjcDI1NmsxoQJ508pIqRqsjsvmUQfYGvaUFTxfsELPso_62FKDqlxI24N1ZHCCI40",
    str "fluffy-1");
   (str "enr:-IS4QNaaoQuHGReAMJKoDd6DbQKMbQ4Mked3Gi3GRatwgRVVPXynPlO_-gJKRF_ZSuJr3wyHfwMHyJDbd6q1xZQVZ2kBgmlkgnY0gmlwhMIhKO6Jc2VjcDI1NmsxoQM2kBHT5s_Uh4gsNiOclQDvLK4kPpoQucge3mtbuLuUGYN1ZHCCI44",
    str "fluffy-2");
   (str "enr:-IS4QBdIjs6S1ZkvlahSkuYNq5QW3DbD-UDcrm1l81f2PPjnNjb_NDa4B5x4olHCXtx0d2ZeZBHQyoHyNnuVZ-P1GVkBgmlkgnY0gmlwhMIhKO-Jc2VjcDI1NmsxoQOO3gFuaCAyQKscaiNLC9HfLbVzFdIerESFlOGcEuKWH4N1ZHCCI40",
    str "fluffy-3");
   (str "enr:-IS4QM731tV0CvQXLTDcZNvgFyhhpAjYDKU5XLbM7sZ1WEzIRq4zsakgrv3KO3qyOYZ8jFBK-VzENF8o-vnykuQ99iABgmlkgnY0gmlwhMIhKO-Jc2VjcDI1NmsxoQMTq6Cdx3HmL3Q9sitavcPHPbYKyEibKPKvyVyOlNF8J4N1ZHCCI44",
    str "fluffy-4");
   (str "enr:-IS4QFV_wTNknw7qiCGAbHf6LxB-xPQCktyrCEZX-b-7PikMOIKkBg-frHRBkfwhI3XaYo_T-HxBYmOOQGNwThkBBHYDgmlkgnY0gmlwhKRc9_OJc2VjcDI1NmsxoQKHPt5CQ0D66ueTtSUqwGjfhscU_LiwS28QvJ0GgJFd-YN1ZHCCE4k",
    str "ultralight-1");
   (str "enr:-IS4QDpUz2hQBNt0DECFm8Zy58Hi59PF_7sw780X3qA0vzJEB2IEd5RtVdPUYZUbeg4f0LMradgwpyIhYUeSxz2Tfa8DgmlkgnY0gmlwhKRc9_OJc2VjcDI1NmsxoQJd4NAVKOXfbdxyjSOUJzmA4rjtg43EDeEJu1f8YRhb_4N1ZHCCE4o",
    str "ultralight-2");
   (str "enr:-IS4QGG6moBhLW1oXz84NaKEHaRcim64qzFn1hAG80yQyVGNLoKqzJe887kEjthr7rJCNlt6vdVMKMNoUC9OCeNK-EMDgmlkgnY0gmlwhKRc9-KJc2VjcDI1NmsxoQLJhXByb3LmxHQaqgLDtIGUmpANXaBbFw3ybZWzGqb9-IN1ZHCCE4k",
    str "ultralight-3");
   (str "enr:-IS4QA5hpJikeDFf1DD1_Le6_ylgrLGpdwn3SRaneGu9hY2HUI7peHep0f28UUMzbC0PvlWjN8zSfnqMG07WVcCyBhADgmlkgnY0gmlwhKRc9-KJc2VjcDI1NmsxoQJMpHmGj1xSP1O-Mffk_jYIHVcg6tY5_CjmWVg1gJEsPIN1ZHCCE4o",
    str "ultralight-4")].

(** [DEFAULT_BOOTNODES]: a text that does not parse is a panic. *)
Definition DEFAULT_BOOTNODES : res unit (list Bootnode) :=
  res_all (fun '(text, alias) =>
    match enr_from_str text with Some enr => Ok {| bootnode_enr := enr; alias := alias |} | None => Panic end) default_texts.

Inductive Bootnodes := DefaultNodes | NoNodes | CustomNodes (l : list Bootnode).

(** A default node keeps its name. *)
Definition bootnode_from (defaults : list Bootnode) (enr : Enr) : Bootnode :=
  match List.find (fun b => bool_decide (bootnode_enr b = enr)) defaults with
  | Some bootnode => bootnode
  | None => {| bootnode_enr := enr; alias := str "custom" |}
  end.

Definition bootnode_enrs (self : Bootnodes) : res unit (list Enr) :=
  match self with
  | DefaultNodes => let? defaults := DEFAULT_BOOTNODES in Ok (map bootnode_enr defaults)
  | NoNodes => Ok []
  | CustomNodes bootnodes => Ok (map bootnode_enr bootnodes)
  end.

Definition bootnodes_from_str (s : bytes) : res unit Bootnodes :=
  if decide (s = str "default") then Ok DefaultNodes
  else if decide (s = str "none") then Ok NoNodes
  else
    let? enrs := res_all (fun x => ok_or (enr_from_str x) tt) (split_on COMMA s) in
    let? defaults := DEFAULT_BOOTNODES in
    Ok (CustomNodes (map (bootnode_from defaults) enrs)).
End Bootnodes.

(** ** The configuration of a node *)

Inductive Web3TransportType := HTTP | IPC.

Definition transport_to_string (t : Web3TransportType) : bytes :=
  match t with HTTP => str "http" | IPC => str "ipc" end.

Definition transport_from_str (s : bytes) : res unit Web3TransportType :=
  if decide (s = str "http") then Ok HTTP else if decide (s = str "ipc") then Ok IPC else Err tt.

Definition DEFAULT_WEB3_IPC_PATH : bytes := str "/tmp/trin-jsonrpc.ipc".
Definition DEFAULT_WEB3_HTTP_ADDRESS : bytes := str "http://127.0.0.1:8545/".
Definition DEFAULT_WEB3_HTTP_PORT : Z := 8545.
Definition DEFAULT_WEB3_WS_PORT : Z := 8546.
Definition DEFAULT_DISCOVERY_PORT : Z := 9009.
Definition DEFAULT_SUBNETWORKS : bytes := str "history".
Definition DEFAULT_STORAGE_CAPACITY_MB : bytes := str "100".
Definition DEFAULT_MASTER_ACC_PATH : bytes := str "validation_assets/merge_macc.bin".

Inductive ArgumentConflict := IpcPathWithHttp | HttpAddressWithIpc | WsWithIpc.

Module TrinConfig.
Section Config.
Context `{U : UrlLib} `{T : EnrText}.

Record t := {
  web3_transport : Web3TransportType;
  web3_http_address : Url;
  web3_ipc_path : bytes;
  discovery_port : Z;
  bootnodes : Bootnodes;
  external_addr : option SocketAddr;
  no_stun : bool;
  no_upnp : bool;
  private_key : option bytes;
  trusted_block_root : option bytes;
  networks : list bytes;
  mb : Z;
  enable_metrics_with_url : option SocketAddr;
  ephemeral : bool;
  master_acc_path : bytes;
  disable_poke : bool;
  ws : bool;
  ws_port : Z;
}.

(** [Default]: parsing static texts is expected to work. *)
Definition default_config : res unit t :=
  match transport_from_str (str "ipc"), url_parse DEFAULT_WEB3_HTTP_ADDRESS, from_str_radix 32 10 DEFAULT_STORAGE_CAPACITY_MB with
  | Ok transport, Some address, Some mb =>
      Ok {| web3_transport := transport; web3_http_address := address; web3_ipc_path := DEFAULT_WEB3_IPC_PATH;
            discovery_port := DEFAULT_DISCOVERY_PORT; bootnodes := DefaultNodes; external_addr := None;
            no_stun := false; no_upnp := false; private_key := None; trusted_block_root := None;
            networks := split_on COMMA DEFAULT_SUBNETWORKS; mb := mb; enable_metrics_with_url := None;
            ephemeral := false; master_acc_path := DEFAULT_MASTER_ACC_PATH; disable_poke := false; ws := false;
            ws_port := DEFAULT_WEB3_WS_PORT |}
  | _, _, _ => Panic
  end.

(** [new_from], after the arguments have been parsed. *)
Definition new_from (config : t) : res ArgumentConflict t :=
  match web3_transport config with
  | HTTP =>
      if decide (web3_ipc_path config = DEFAULT_WEB3_IPC_PATH) then Ok config else Err IpcPathWithHttp
  | IPC =>
      if decide (url_as_str (web3_http_address config) = DEFAULT_WEB3_HTTP_ADDRESS) then
        if ws config then Err WsWithIpc else Ok config
      else Err HttpAddressWithIpc
  end.

(** The endpoint that [Display] shows. *)
Definition json_rpc_url (self : t) : bytes :=
  match web3_transport self with
  | HTTP => url_as_str (web3_http_address self)
  | IPC => web3_ipc_path self
  end.
End Config.
End TrinConfig.

Inductive ArgError := BadLength (n : nat) | HexError | NoHexPrefix | NodeCount.

Definition check_private_key_length `{T : HashText} (private_key : bytes) : res ArgError bytes :=
  if (length private_key =? 66)%nat then ok_or (h256_from_str private_key) HexError
  else Err (BadLength (length private_key)).

Definition check_trusted_block_root (trusted_root : bytes) : res ArgError bytes :=
  if negb (bool_decide (take 2 trusted_root = str_0x)) then Err NoHexPrefix
  else if (length trusted_root =? 66)%nat then Ok trusted_root
  else Err (BadLength (length trusted_root)).

(** ** The configuration of the bridge *)

Module NetworkKind.
Inductive t := Beacon | History | State.

Definition to_string (self : t) : bytes :=
  match self with Beacon => str "beacon" | History => str "history" | State => str "state" end.

Definition from_str (s : bytes) : res unit t :=
  if decide (s = str "beacon") then Ok Beacon
  else if decide (s = str "history") then Ok History
  else if decide (s = str "state") then Ok State
  else Err tt.
End NetworkKind.

Definition MAX_NODE_COUNT : Z := 16.

Definition check_node_count (val : bytes) : res ArgError Z :=
  let? node_count := ok_or (from_str_radix 8 10 val) NodeCount in
  if (0 <? node_count) && (node_count <=? MAX_NODE_COUNT) then Ok node_count else Err NodeCount.

Section BridgeConfig.
Context `{U : UrlLib}.

Inductive Provider := PandaOps | ProviderUrl (url : Url) | ProviderTest.

Definition provider_from_str (s : bytes) : res unit Provider :=
  if decide (s = str "pandaops") then Ok PandaOps
  else if decide (s = str "test") then Ok ProviderTest
  else match url_parse s with Some url => Ok (ProviderUrl url) | None => Err tt end.

Definition provider_to_string (p : Provider) : bytes :=
  match p with
  | PandaOps => str "pandaops"
  | ProviderTest => str "test"
  | ProviderUrl url => url_as_str url
  end.

Inductive ClientType := Fluffy | Trin.

Definition client_type_from_str (s : bytes) : res unit ClientType :=
  if decide (s = str "fluffy") then Ok Fluffy else if decide (s = str "trin") then Ok Trin else Err tt.

Record BridgeConfig := {
  node_count : Z;
  executable_path : bytes;
  bridge_mode : BridgeMode.t;
  bridge_epoch_acc_path : bytes;
  network : list NetworkKind.t;
  metrics_url : option Url;
  bridge_bootnodes : bytes;
  external_ip : option bytes;
  client_type : ClientType;
  root_private_key : option bytes;
  el_provider : Provider;
  cl_provider : Provider;
}.

(** A process: its program and its arguments. *)
Record Command := { program : bytes; args : list bytes }.

Inductive HandleError := InvalidMetricsAddress | InvalidMetricsPort.

(** [stunned] is the external address that STUN reports, if it does. *)
Definition fluffy_handle (stunned : option bytes) (private_key : bytes) (rpc_port udp_port : Z) (config : BridgeConfig)
    : res HandleError Command :=
  match stunned with
  | None => Panic
  | Some ip =>
      let args := [str "--storage-capacity:0"; str "--rpc"; str "--rpc-port:" ++ show_u64 rpc_port;
                   str "--udp-port:" ++ show_u64 udp_port; str "--nat:extip:" ++ ip; str "--netkey-unsafe:" ++ private_key] in
      let? metrics :=
        match metrics_url config with
        | Some url =>
            let? address := ok_or (host_str url) InvalidMetricsAddress in
            let? port := ok_or (url_port url) InvalidMetricsPort in
            Ok [str "--metrics"; str "--metrics-address:" ++ address; str "--metrics-port:" ++ show_u64 port]
        | None => Ok []
        end in
      let bootstrap :=
        if decide (bridge_bootnodes config = str "default") then []
        else split_on COMMA (bridge_bootnodes config) ≫= (fun enr => [str "--bootstrap-node"; enr]) in
      let external := match external_ip config with Some ip => [str "--nat:extip:" ++ ip] | None => [] end in
      Ok {| program := executable_path config; args := args ++ metrics ++ bootstrap ++ external |}
  end.

Definition trin_handle (private_key : bytes) (rpc_port udp_port : Z) (config : BridgeConfig) : res HandleError Command :=
  let networks := join COMMA (map NetworkKind.to_string (network config)) in
  let args := [str "--ephemeral"; str "--mb"; str "0"; str "--web3-transport"; str "http"; str "--networks"; networks;
               str "--unsafe-private-key"; private_key;
               str "--web3-http-address"; str "http://127.0.0.1:" ++ show_u64 rpc_port;
               str "--discovery-port"; show_u64 udp_port; str "--bootnodes"; bridge_bootnodes config] in
  let external :=
    match external_ip config with
    | Some ip => [str "--external-address"; ip ++ x3a :: show_u64 udp_port]
    | None => []
    end in
  let metrics :=
    match metrics_url config with
    | Some url => [str "--enable-metrics-with-url"; url_as_str url]
    | None => []
    end in
  Ok {| program := executable_path config; args := args ++ external ++ metrics |}.

Definition build_handle (stunned : option bytes) (self : ClientType) (private_key : bytes) (rpc_port udp_port : Z)
    (config : BridgeConfig) : res HandleError Command :=
  match self with
  | Fluffy => fluffy_handle stunned private_key rpc_port udp_port config
  | Trin => trin_handle private_key rpc_port udp_port config
  end.

(** The loop of [main]: a node for each key, on ports next to each other ([u16]). *)
Definition wrap16 (z : Z) : Z := z mod 2 ^ 16.
Definition launch_nodes (stunned : option bytes) (config : BridgeConfig) (private_keys : list bytes)
    : list (res HandleError Command * bytes) :=
  imap (fun i key =>
    let web3_http_port := wrap16 (DEFAULT_WEB3_HTTP_PORT + Z.of_nat i mod 2 ^ 16) in
    let discovery_port := wrap16 (DEFAULT_DISCOVERY_PORT + Z.of_nat i mod 2 ^ 16) in
    (build_handle stunned (client_type config) key web3_http_port discovery_port config,
     str "http://127.0.0.1:" ++ show_u64 web3_http_port)) private_keys.
End BridgeConfig.

(** ** Spaced keys *)

(** Private keys: those of the generator, in encoded form and with their node ids. *)
Class KeyGen (W : Type) := {
  CombinedKey : Type;
  generate_secp256k1 : W -> CombinedKey * W;
  secp256k1_from_bytes : bytes -> option CombinedKey;
  key_encode : CombinedKey -> bytes;
  key_node_id : CombinedKey -> bytes;
}.

Class KeyGenOk (W : Type) `{K : KeyGen W} : Prop := {
  key_encode_length k : length (key_encode k) = 32%nat;
  key_node_id_length k : length (key_node_id k) = 32%nat;
}.

Section SpacedKeys.
Context `{X : HexLib} {W : Type} `{K : KeyGen W}.

Definition first_byte (k : CombinedKey) : Z := match key_node_id k with b :: _ => byte_to_Z b | [] => 0 end.

Fixpoint spaced_prefixes (n : nat) (count root_prefix : Z) : list Z :=
  match n with
  | O => []
  | S n =>
      let prefix := (root_prefix + 255 / count) mod 256 in
      prefix :: spaced_prefixes n count prefix
  end.

(** The loop that draws keys until one has the prefix: [None] when the fuel is used up. *)
Fixpoint draw (fuel : nat) (prefix : Z) (w : W) : option (CombinedKey * W) :=
  match fuel with
  | O => None
  | S fuel =>
      let '(key, w) := generate_secp256k1 w in
      if first_byte key =? prefix then Some (key, w) else draw fuel prefix w
  end.

Fixpoint draw_all (fuel : nat) (prefixes : list Z) (w : W) : option (list CombinedKey * W) :=
  match prefixes with
  | [] => Some ([], w)
  | prefix :: rest =>
      '(key, w) ← draw fuel prefix w;
      '(keys, w) ← draw_all fuel rest w;
      Some (key :: keys, w)
  end.

Definition spaced_keys (fuel : nat) (count : Z) (root_private_key : option bytes) (w : W)
    : res unit (option (list CombinedKey) * W) :=
  let? (root, w) :=
    match root_private_key with
    | Some key => match secp256k1_from_bytes key with Some k => Ok (k, w) | None => Panic end
    | None => Ok (generate_secp256k1 w)
    end in
  match draw_all fuel (spaced_prefixes (Z.to_nat (count - 1)) count (first_byte root)) w with
  | Some (keys, w) => Ok (Some (root :: keys), w)
  | None => Ok (None, w)
  end.

Definition generate_spaced_private_keys (fuel : nat) (count : Z) (root_private_key : option bytes) (w : W)
    : res unit (option (list bytes) * W) :=
  let? (keys, w) := spaced_keys fuel count root_private_key w in
  Ok (option_map (map (fun k => hex_encode (key_encode k))) keys, w).
End SpacedKeys.

(** ** Properties of spaced keys *)

Lemma spaced_prefixes_lookup n count root i p :
  0 < count -> spaced_prefixes n count root !! i = Some p -> p = (root + (Z.of_nat i + 1) * (255 / count)) mod 256.
Proof.
  intros Hc. revert root i. induction n as [|n IH]; intros root [|i]; simpl; [done..| |].
  - intros [= <-]. f_equal. lia.
  - intros ->%IH. rewrite Zplus_mod_idemp_l. f_equal. lia.
Qed.

Lemma spaced_prefixes_length n count root : length (spaced_prefixes n count root) = n.
Proof. revert root. induction n as [|n IH]; intros root; simpl; [done|by rewrite IH]. Qed.

Section Spread.
Context {W : Type} `{K : KeyGen W}.

Lemma draw_prefix fuel prefix w k w' : draw fuel prefix w = Some (k, w') -> first_byte k = prefix.
Proof.
  revert w. induction fuel as [|fuel IH]; intros w; simpl; [done|]. destruct (generate_secp256k1 w) as [key w1].
  destruct (Z.eqb_spec (first_byte key) prefix); [by intros [= <- <-]|apply IH].
Qed.

Lemma draw_all_prefixes fuel prefixes w ks w' :
  draw_all fuel prefixes w = Some (ks, w') -> map first_byte ks = prefixes.
Proof.
  revert w ks. induction prefixes as [|p ps IH]; intros w ks; simpl; [by intros [= <- <-]|].
  destruct (draw fuel p w) as [[k w1]|] eqn:E1; [|done]. simpl. destruct (draw_all fuel ps w1) as [[ks' w2]|] eqn:E2; [|done].
  intros [= <- <-]. simpl. by rewrite (draw_prefix _ _ _ _ _ E1), (IH _ _ E2).
Qed.

(** The distance around the ring of first bytes. *)
Definition gap (a b : Z) : Z := (b - a) mod 256.

(** As many keys as asked for, the root's first if it is given; and any two node ids are at
    least the 255th part of the ring apart, in both directions. *)
Lemma spaced_keys_spread fuel count root w ks w' :
  1 <= count <= 255 -> spaced_keys fuel count root w = Ok (Some ks, w') ->
  Z.of_nat (length ks) = count
  /\ (forall r k, root = Some r -> head ks = Some k -> secp256k1_from_bytes r = Some k)
  /\ forall i j a b, (i < j)%nat -> ks !! i = Some a -> ks !! j = Some b ->
       255 / count <= gap (first_byte a) (first_byte b) /\ 255 / count <= gap (first_byte b) (first_byte a).
Proof.
  intros Hc. unfold spaced_keys.
  destruct (match root with Some _ => _ | None => _ end) as [[r w1]| |] eqn:Er; [|done..]. simpl.
  destruct (draw_all _ _ w1) as [[keys w2]|] eqn:Ed; [|done]. intros [= <- <-]. apply draw_all_prefixes in Ed.
  set (step := 255 / count) in *.
  assert (Hstep : 1 <= step /\ count * step <= 255).
  { subst step. split; [apply Z.div_le_lower_bound; lia|apply Z.mul_div_le; lia]. }
  assert (Hlen : length keys = Z.to_nat (count - 1)) by (by rewrite <- (length_map first_byte), Ed, spaced_prefixes_length).
  split_and!.
  - simpl. lia.
  - intros r0 k -> [= <-]. destruct (secp256k1_from_bytes r0); by simplify_eq/=.
  - assert (Hat : forall i k, (r :: keys) !! i = Some k -> (first_byte k - (first_byte r + Z.of_nat i * step)) mod 256 = 0).
    { intros [|i] k; simpl.
      { intros [= <-]. by replace (_ - _) with 0 by lia. }
      intros Hk.
      assert (Hp : spaced_prefixes (Z.to_nat (count - 1)) count (first_byte r) !! i = Some (first_byte k))
        by (rewrite <- Ed, list_lookup_fmap, Hk; done).
      apply spaced_prefixes_lookup in Hp as ->; [|lia]. fold step. rewrite Zminus_mod_idemp_l.
      replace (_ - _) with 0; [done|lia]. }
    intros i j a b Hij Ha Hb. assert (Hj : (j < Z.to_nat count)%nat) by (apply lookup_lt_Some in Hb; simpl in Hb; lia).
    assert (Hd : step <= (Z.of_nat j - Z.of_nat i) * step <= 255 - step) by nia.
    assert (H1 : gap (first_byte a) (first_byte b) = (Z.of_nat j - Z.of_nat i) * step).
    { unfold gap. apply Hat in Ha, Hb. rewrite <- (Z.mod_small ((Z.of_nat j - Z.of_nat i) * step) 256) by lia.
      apply Z.mod_divide in Ha as [x Hx], Hb as [y Hy]; [|done..].
      replace (first_byte b - first_byte a) with ((Z.of_nat j - Z.of_nat i) * step + (y - x) * 256) by lia.
      by rewrite Z_mod_plus_full. }
    split; [lia|]. unfold gap in *. replace (first_byte a - first_byte b) with (- (first_byte b - first_byte a)) by lia.
    rewrite Z_mod_nz_opp_full by lia. lia.
Qed.

(** The first keys that the generator yields. *)
Fixpoint draws (n : nat) (w : W) : list CombinedKey :=
  match n with
  | O => []
  | S n => let '(key, w) := generate_secp256k1 w in key :: draws n w
  end.

Lemma draw_found fuel prefix w :
  Exists (fun k => first_byte k = prefix) (draws fuel w) -> is_Some (draw fuel prefix w).
Proof.
  revert w. induction fuel as [|fuel IH]; intros w; simpl; [by intros ?%Exists_nil|].
  destruct (generate_secp256k1 w) as [key w1]. intros [H|H]%Exists_cons.
  - rewrite H, Z.eqb_refl. by eexists.
  - destruct (first_byte key =? prefix); [by eexists|by apply IH].
Qed.

Lemma draw_all_found fuel prefixes w :
  (forall w p, p ∈ prefixes -> Exists (fun k => first_byte k = p) (draws fuel w)) -> is_Some (draw_all fuel prefixes w).
Proof.
  revert w. induction prefixes as [|p ps IH]; intros w Hf; simpl; [by eexists|].
  destruct (draw_found fuel p w) as [[k w1] ->]; [by apply Hf, list_elem_of_here|]. simpl.
  destruct (IH w1) as [[ks w2] ->]; [|by eexists]. intros w0 q Hq. apply Hf. by right.
Qed.

(** The keys of the bridge's nodes are found, and spread over the ring.  If the generator
    yields every first byte within some number of draws, so many draws per key are enough;
    and then there are as many keys as asked for (1 to 255), the given root key first, and
    the first bytes of any two node ids are at least 255 / count apart in both directions,
    so that no two nodes share a region. *)
Theorem spaced_keys_found fuel count root w :
  1 <= count <= 255 ->
  (forall w p, 0 <= p < 256 -> Exists (fun k => first_byte k = p) (draws fuel w)) ->
  (forall r, root = Some r -> is_Some (secp256k1_from_bytes r)) ->
  exists ks w', spaced_keys fuel count root w = Ok (Some ks, w')
    /\ Z.of_nat (length ks) = count
    /\ (forall r k, root = Some r -> head ks = Some k -> secp256k1_from_bytes r = Some k)
    /\ forall i j a b, (i < j)%nat -> ks !! i = Some a -> ks !! j = Some b ->
         255 / count <= gap (first_byte a) (first_byte b) /\ 255 / count <= gap (first_byte b) (first_byte a).
Proof.
  intros Hc Hf Hr.
  assert (exists ks w', spaced_keys fuel count root w = Ok (Some ks, w')) as (ks & w' & E).
  { unfold spaced_keys.
    assert (exists k w1, match root with
                         | Some key => match secp256k1_from_bytes key with Some k => Ok (k, w) | None => Panic end
                         | None => Ok (E := unit) (generate_secp256k1 w) end = Ok (k, w1)) as (k & w1 & ->).
    { destruct root as [r|]; [|by destruct (generate_secp256k1 w); eexists _, _].
      destruct (Hr r eq_refl) as [k ->]. by eexists _, _. }
    simpl. edestruct (draw_all_found fuel) as [[ks w2] ->]; [|by eexists _, _].
    intros w0 p Hp. apply Hf. apply list_elem_of_lookup in Hp as [i Hi].
    apply spaced_prefixes_lookup in Hi as ->; [|lia]. apply Z.mod_pos_bound. lia. }
  exists ks, w'. split; [done|]. by eapply spaced_keys_spread.
Qed.
End Spread.

(** ** Properties of arguments *)

(** The value of a flag; [--ephemeral] has none. *)
Fixpoint arg_of (flag : bytes) (args : list bytes) : option bytes :=
  match args with
  | [] => None
  | f :: rest =>
      if decide (f = str "--ephemeral") then arg_of flag rest
      else match rest with
           | [] => None
           | v :: rest => if decide (f = flag) then Some v else arg_of flag rest
           end
  end.

Lemma split_join l :
  l <> [] -> Forall (Forall (fun c => c <> COMMA)) l -> split_on COMMA (join COMMA l) = l.
Proof.
  intros Hl H. induction H as [|x l Hx H IH]; [done|]. destruct l as [|y l]; [by apply split_on_none|].
  change (join COMMA (x :: y :: l)) with (x ++ COMMA :: join COMMA (y :: l)). rewrite split_on_app by done. by rewrite IH.
Qed.

Section Arguments.
Context {U : UrlLib} `{!UrlLibOk U} {X : HexLib} `{!HexLibOk X} {HT : HashText} `{!HashTextOk HT}.

Lemma key_argument_ok key : length key = 32%nat -> check_private_key_length (hex_encode key) = Ok key.
Proof.
  intros Hk. unfold check_private_key_length.
  assert (length (hex_encode key) = 66%nat) as ->.
  { unfold hex_encode. rewrite length_app, hex_digits_length, Hk. done. }
  simpl. by rewrite h256_hex.
Qed.

(** The nodes that the bridge launches get what they are meant to get, but no metrics: a
    [trin] process is given the key, the networks, its ports and the boot nodes in the form
    that its own parsers read; but the URL for metrics is not the socket address that is
    expected there, so that with metrics no process starts. *)
Theorem trin_arguments key rpc_port udp_port config cmd :
  length key = 32%nat -> is_u64 udp_port -> network config <> [] ->
  trin_handle (hex_encode key) rpc_port udp_port config = Ok cmd ->
  (exists k, arg_of (str "--unsafe-private-key") (args cmd) = Some k /\ check_private_key_length k = Ok key)
  /\ (exists n, arg_of (str "--networks") (args cmd) = Some n
        /\ res_all NetworkKind.from_str (split_on COMMA n) = Ok (network config))
  /\ (exists p, arg_of (str "--discovery-port") (args cmd) = Some p /\ from_str_radix 64 10 p = Some udp_port)
  /\ (exists t, arg_of (str "--web3-transport") (args cmd) = Some t /\ transport_from_str t = Ok HTTP)
  /\ arg_of (str "--bootnodes") (args cmd) = Some (bridge_bootnodes config)
  /\ forall url, metrics_url config = Some url ->
       exists m, m ∈ args cmd /\ m = url_as_str url /\ socket_addr_parse m = None.
Proof.
  intros Hk Hu Hn. unfold trin_handle. intros [= <-]. cbn [args app].
  assert (Hnone : forall url, socket_addr_parse (url_as_str url) = None).
  { intros url. destruct (socket_addr_parse _) eqn:E; [|done]. apply socket_addr_head in E as (c & rest & E & Hc).
    destruct (url_scheme url) as (c' & rest' & E' & Hc'). congruence. }
  split_and!.
  - eexists. split; [reflexivity|by apply key_argument_ok].
  - eexists. split; [reflexivity|]. rewrite split_join.
    + clear Hn. induction (network config) as [|n l IH]; [done|]. simpl. assert (NetworkKind.from_str (NetworkKind.to_string n) = Ok n) as ->
        by (by destruct n). simpl. by rewrite IH.
    + by destruct (network config).
    + apply Forall_fmap, Forall_true. intros []; cbn; repeat constructor; done.
  - eexists. split; [reflexivity|by apply show_u64_roundtrip].
  - eexists. split; reflexivity.
  - reflexivity.
  - intros url ->. exists (url_as_str url). split_and!; [|done|apply Hnone].
    do 15 right. apply elem_of_app. right. apply list_elem_of_further, list_elem_of_here.
Qed.

(** Providers, kinds of networks and transports are read as they are written, except for a
    URL that is the name of a provider. *)
Theorem names_roundtrip p n t :
  (forall url, p = ProviderUrl url -> url_as_str url <> str "pandaops" /\ url_as_str url <> str "test") ->
  provider_from_str (provider_to_string p) = Ok p
  /\ NetworkKind.from_str (NetworkKind.to_string n) = Ok n /\ transport_from_str (transport_to_string t) = Ok t.
Proof.
  intros Hp. split_and!; [|by destruct n|by destruct t]. destruct p as [|url|]; [done| |done]. simpl. unfold provider_from_str.
  destruct (Hp url eq_refl) as [H1 H2]. by rewrite !decide_False, url_reparse by done.
Qed.

(** A node count is accepted if it is a number from 1 to 16. *)
Lemma node_count_range s n : check_node_count s = Ok n -> 1 <= n <= 16.
Proof.
  unfold check_node_count. destruct (from_str_radix 8 10 s) as [m|]; [|done]. simpl.
  destruct (_ && _) eqn:E; [|done]. intros [= <-]. apply andb_true_iff in E as [?%Z.ltb_lt ?%Z.leb_le]. unfold MAX_NODE_COUNT in *. lia.
Qed.

(** A trusted block root is checked for its prefix and its length only: what is accepted
    need not be hex, and the light client panics on it when it is built. *)
Theorem trusted_root_not_hex digits :
  length digits = 64%nat -> check_trusted_block_root (str_0x ++ digits) = Ok (str_0x ++ digits).
Proof. intros H. unfold check_trusted_block_root. simpl. by rewrite H. Qed.
End Arguments.

(** Boot nodes that are given as records are the ones that are used, in their order. *)
Theorem bootnodes_roundtrip `{T : EnrText} `{!EnrTextOk} (enrs : list Enr) defaults :
  enrs <> [] -> DEFAULT_BOOTNODES = Ok defaults ->
  Forall (fun e => Forall (fun c => c <> COMMA) (to_base64 e)) enrs ->
  (forall word, word ∈ [str "default"; str "none"] -> join COMMA (map to_base64 enrs) <> word) ->
  exists b, bootnodes_from_str (join COMMA (map to_base64 enrs)) = Ok b /\ bootnode_enrs b = Ok enrs.
Proof.
  intros Hne Hd Hc Hw. unfold bootnodes_from_str. rewrite !decide_False by (apply Hw; set_solver).
  rewrite split_join; [|by destruct enrs|by apply Forall_fmap].
  assert (res_all (fun x => ok_or (enr_from_str x) tt) (map to_base64 enrs) = Ok enrs) as ->.
  { clear Hne Hd Hc Hw. induction enrs as [|e l IH]; [done|]. simpl. rewrite from_str_to_base64. simpl. by rewrite IH. }
  simpl. rewrite Hd. simpl. eexists. split; [done|]. simpl. f_equal. rewrite map_map.
  transitivity (map (fun e => e) enrs); [|apply map_id]. apply map_ext. intros e. unfold bootnode_from.
  destruct (List.find _ defaults) as [b|] eqn:Ef; [|done]. apply List.find_some in Ef as [_ Ef]. by apply bool_decide_eq_true in Ef.
Qed.

(** The transport decides which endpoint may be given: the other one has its default, and
    websockets need HTTP. *)
Theorem new_from_spec `{U : UrlLib} `{T : EnrText} (config : TrinConfig.t) :
  TrinConfig.new_from config = Ok config
  <-> match TrinConfig.web3_transport config with
      | HTTP => TrinConfig.web3_ipc_path config = DEFAULT_WEB3_IPC_PATH
      | IPC => url_as_str (TrinConfig.web3_http_address config) = DEFAULT_WEB3_HTTP_ADDRESS /\ TrinConfig.ws config = false
      end.
Proof.
  unfold TrinConfig.new_from. destruct (TrinConfig.web3_transport config).
  - by destruct (decide _).
  - destruct (decide _); [|naive_solver]. destruct (TrinConfig.ws config); naive_solver.
Qed.

(** ** Keys at work *)

Section AtWork.
(** Keys that are counted, whose node ids begin with their last byte. *)
#[local] Instance count_keys : KeyGen Z := {|
  CombinedKey := Z;
  generate_secp256k1 w := (w, w + 1);
  secp256k1_from_bytes b := Some (le_to_Z b);
  key_encode k := Z_to_le 32 k;
  key_node_id k := byte_of_Z (k mod 256) :: replicate 31 x00;
|}.

Lemma count_first_byte (k : Z) : first_byte (k : CombinedKey) = k mod 256.
Proof. unfold first_byte. cbn. rewrite byte_to_of_Z, Z.mod_mod; lia. Qed.

Lemma count_draws n (w : Z) : draws n w = seqZ w (Z.of_nat n).
Proof.
  revert w. induction n as [|n IH]; intros w; [done|]. rewrite Nat2Z.inj_succ, seqZ_cons by lia. simpl. rewrite IH.
  f_equal. f_equal; lia.
Qed.

Lemma count_fair (w : Z) p : 0 <= p < 256 -> Exists (fun k => first_byte k = p) (draws 256 w).
Proof.
  intros Hp. apply Exists_exists. exists (w + (p - w) mod 256). pose proof (Z.mod_pos_bound (p - w) 256 ltac:(lia)). split.
  - rewrite count_draws. apply elem_of_seqZ. lia.
  - rewrite count_first_byte, Zplus_mod_idemp_r. replace (w + (p - w)) with p by lia. by apply Z.mod_small.
Qed.

(** Four nodes. *)
Lemma spaced_keys_found_witness :
  exists ks w', spaced_keys 256 4 None (1000 : Z) = Ok (Some ks, w')
    /\ map first_byte ks = [232; 39; 102; 165] /\ Z.of_nat (length ks) = 4.
Proof.
  destruct (spaced_keys_found 256 4 None (1000 : Z)) as (ks & w' & E & Hl & _); [lia|apply count_fair|done|].
  exists ks, w'. split; [exact E|]. split; [|exact Hl]. vm_compute in E. injection E as <- <-. reflexivity.
Defined.
End AtWork.
