(* ===== verification/DataDir.v ===== *)
(** * The data directory of a node

    Models [portalnet/src/utils/db.rs]: the directory of the program, the private key that is
    kept in it, and the directory of a node.  The file system and the environment are
    [FileHost]; keys are those of [KeyGen]. *)

From Stdlib Require Import String.
From stdpp Require Import gmap sets.
From S2P Require Import Prelude.
From S2P Require Import Distance.
From S2P Require Import Hex.
From S2P Require Import Wire.
From S2P Require Import Config.

#[local] Open Scope list_scope.

(** [std::fs], [std::env], [TempDir] and [ProjectDirs]; writing and creating may fail. *)
Class FileHost (W : Type) := {
  fs_exists : bytes -> W -> bool;
  fs_read : bytes -> W -> option bytes;
  fs_write : bytes -> bytes -> W -> bool * W;
  fs_create_dir_all : bytes -> W -> bool * W;
  temp_base : W -> bytes;
  new_temp_dir : bytes -> W -> option bytes * W;
  env_var : W -> option bytes;
  env_set : bytes -> W -> W;
  data_local_dir : option bytes;
}.

(** What was written is there; creating directories leaves files as they are. *)
Class FileHostOk (W : Type) `{F : FileHost W} : Prop := {
  fs_write_read p b w w' : fs_write p b w = (true, w') -> fs_exists p w' = true /\ fs_read p w' = Some b;
  fs_create_keeps p q w : fs_exists q (fs_create_dir_all p w).2 = fs_exists q w
    /\ fs_read q (fs_create_dir_all p w).2 = fs_read q w;
}.

(** A key and its bytes. *)
Class KeyBytesOk (W : Type) `{K : KeyGen W} : Prop := {
  key_of_encoding k : secp256k1_from_bytes (key_encode k) = Some k;
  encoding_of_key b k : secp256k1_from_bytes b = Some k -> key_encode k = b;
}.

Module DataDir.
Section Ops.
Context `{X : HexLib} {W : Type} `{K : KeyGen W} `{F : FileHost W}.

Inductive DirError := IoFailed | NoDefaultDir | BadHex (e : ByteUtilsError) | BadPrivateKey.

Abbreviation M A := (SM W DirError A).

Definition TRIN_DATA_DIR : bytes := ProtocolId.str "trin".
Definition UNSAFE_PRIVATE_KEY_FILE_NAME : bytes := ProtocolId.str "unsafe_private_key.hex".

(** [join] with a relative name. *)
Definition path_join (p name : bytes) : bytes :=
  match last p with
  | None => name
  | Some c => if decide (c = x2f) then p ++ name else p ++ x2f :: name
  end.

Definition create_dir_all (p : bytes) : M unit := fun w =>
  let '(ok, w) := fs_create_dir_all p w in (if ok then Ok tt else Err IoFailed, w).

Definition setup_temp_dir : M bytes := fun w =>
  let os_temp := path_join (temp_base w) TRIN_DATA_DIR in
  match create_dir_all os_temp w with
  | (Ok _, w) =>
      match new_temp_dir os_temp w with
      | (Some temp_dir, w) => (Ok temp_dir, env_set temp_dir w)
      | (None, w) => (Err IoFailed, w)
      end
  | (Err e, w) => (Err e, w)
  | (Panic, w) => (Panic, w)
  end.

Definition get_default_data_dir : res DirError bytes := ok_or data_local_dir NoDefaultDir.

Definition configure_trin_data_dir (ephemeral : bool) : M bytes := fun w =>
  if ephemeral then setup_temp_dir w
  else
    (do trin_data_dir <- lift (match env_var w with Some val => Ok val | None => get_default_data_dir end);
     do _ <- create_dir_all trin_data_dir;
     ret trin_data_dir) w.

(** The first eight characters of the node id in text. *)
Definition get_node_data_dir (trin_data_dir node_id : bytes) : bytes :=
  path_join trin_data_dir (ProtocolId.str "trin_" ++ take 8 (hex_encode node_id)).

Definition get_application_private_key (trin_data_dir : bytes) : M CombinedKey := fun w =>
  let file := path_join trin_data_dir UNSAFE_PRIVATE_KEY_FILE_NAME in
  let '(written, w) :=
    if negb (fs_exists file w) then
      let '(pk, w) := generate_secp256k1 w in fs_write file (hex_encode (key_encode pk)) w
    else (true, w) in
  if written then
    match fs_read file w with
    | Some private_key =>
        (let? private_key := map_err BadHex (hex_decode private_key) in
         ok_or (secp256k1_from_bytes private_key) BadPrivateKey, w)
    | None => (Err IoFailed, w)
    end
  else (Err IoFailed, w).

Definition configure_node_data_dir (trin_data_dir : bytes) (private_key : option bytes) : M (bytes * bytes) :=
  do pk <- match private_key with
           | Some val => lift (ok_or (secp256k1_from_bytes val) BadPrivateKey)
           | None => get_application_private_key trin_data_dir
           end;
  let node_data_dir := get_node_data_dir trin_data_dir (key_node_id pk) in
  do _ <- create_dir_all node_data_dir;
  ret (node_data_dir, key_encode pk).
End Ops.

Section Correct.
Context `{X : HexLib} `{!HexLibOk X} {W : Type} `{K : KeyGen W} `{F : FileHost W} `{!FileHostOk W} `{!KeyBytesOk W}.

Definition key_file (dir : bytes) : bytes := path_join dir UNSAFE_PRIVATE_KEY_FILE_NAME.

(** The file holds the key. *)
Definition holds_key (dir : bytes) (pk : CombinedKey) (w : W) : Prop :=
  fs_exists (key_file dir) w = true
  /\ exists s, fs_read (key_file dir) w = Some s /\ hex_decode s = Ok (key_encode pk).

Lemma application_key dir w pk w' :
  get_application_private_key dir w = (Ok pk, w') -> holds_key dir pk w'.
Proof.
  unfold get_application_private_key, holds_key. fold (key_file dir).
  destruct (fs_exists (key_file dir) w) eqn:He; cbn [negb].
  - destruct (fs_read (key_file dir) w) as [s|] eqn:Hr; [|done].
    destruct (hex_decode s) as [b| |] eqn:Hd; cbn; [|done..]. destruct (secp256k1_from_bytes b) as [k|] eqn:Hk; [|done].
    intros [= <- <-]. split; [done|]. exists s. split; [done|]. by rewrite (encoding_of_key _ _ Hk).
  - destruct (generate_secp256k1 w) as [k w1]. destruct (fs_write _ _ w1) as [[] w2] eqn:Hw; [|done].
    apply fs_write_read in Hw as [He' Hr']. rewrite Hr'. rewrite hex_decode_encode. cbn. rewrite key_of_encoding. cbn.
    intros [= <- <-]. split; [done|]. eexists. split; [done|]. apply hex_decode_encode.
Qed.

Lemma application_key_again dir w pk : holds_key dir pk w -> get_application_private_key dir w = (Ok pk, w).
Proof.
  intros (He & s & Hr & Hd). unfold get_application_private_key. fold (key_file dir). rewrite He. cbn [negb].
  rewrite Hr, Hd. cbn. by rewrite key_of_encoding.
Qed.

(** The identity of a node is stable: once a run without a private key of the user has set
    up the directory, every later run that finds the key file as it was left uses the same
    key and the same directory, unless the directory cannot be created. *)
Theorem node_identity_stable dir w node_dir key w' later :
  configure_node_data_dir dir None w = (Ok (node_dir, key), w') ->
  fs_exists (key_file dir) later = fs_exists (key_file dir) w' ->
  fs_read (key_file dir) later = fs_read (key_file dir) w' ->
  (configure_node_data_dir dir None later).1 = Ok (node_dir, key)
  \/ (configure_node_data_dir dir None later).1 = Err IoFailed.
Proof.
  unfold configure_node_data_dir, bind. destruct (get_application_private_key dir w) as [[pk| |] w1] eqn:Hk; [|done..].
  apply application_key in Hk. unfold create_dir_all.
  pose proof (fs_create_keeps (get_node_data_dir dir (key_node_id pk)) (key_file dir) w1) as Hc.
  destruct (fs_create_dir_all _ w1) as [[] w2]; [|done]. cbn in Hc |- *. intros [= <- <- <-] He Hr.
  assert (Hl : holds_key dir pk later).
  { destruct Hk as (He1 & s & Hr1 & Hd). destruct Hc as [Hc1 Hc2]. split; [congruence|]. exists s. split; [congruence|done]. }
  rewrite (application_key_again _ _ _ Hl). destruct (fs_create_dir_all _ later) as [[] w3]; [by left|by right].
Qed.

(** A key of the user is used as it is. *)
Theorem user_key_used dir val w node_dir key w' :
  configure_node_data_dir dir (Some val) w = (Ok (node_dir, key), w') ->
  key = val /\ exists pk, secp256k1_from_bytes val = Some pk /\ node_dir = get_node_data_dir dir (key_node_id pk).
Proof.
  unfold configure_node_data_dir, bind, lift. destruct (secp256k1_from_bytes val) as [pk|] eqn:Hk; cbn; [|done].
  unfold create_dir_all. destruct (fs_create_dir_all _ w) as [[] w1]; [|done]. cbn. intros [= <- <- _].
  split; [by apply encoding_of_key|by exists pk].
Qed.
End Correct.

(** The name of a node's directory depends on three bytes of its id only, since the first two
    of the eight characters are the prefix; digits are those of the bytes in turn. *)
Theorem node_dir_three_bytes `{X : HexLib} `{!HexLibOk X} dir (p a b : bytes) :
  (forall x y, hex_digits (x ++ y) = hex_digits x ++ hex_digits y) ->
  length p = 3%nat -> get_node_data_dir dir (p ++ a) = get_node_data_dir dir (p ++ b).
Proof.
  intros Hd Hp. unfold get_node_data_dir. do 2 f_equal. unfold hex_encode. rewrite !Hd.
  pose proof (hex_digits_length p) as Hl. change str_0x with ([x30; x78] : bytes). cbn [app take].
  do 2 f_equal. rewrite !take_app_le by lia. done.
Qed.
End DataDir.

(** ** The theorem at work *)

#[local] Existing Instances toy_hex toy_hex_ok.

Section AtWork.

(** The files, and the number of keys that were drawn; keys are 32 bytes. *)
#[local] Instance file_keys : KeyGen (gmap bytes bytes * Z) := {|
  CombinedKey := bytes;
  generate_secp256k1 w := (Z_to_be 32 w.2, (w.1, w.2 + 1));
  secp256k1_from_bytes b := Some b;
  key_encode k := k;
  key_node_id k := k;
|}.
#[local] Instance file_keys_ok : KeyBytesOk (gmap bytes bytes * Z).
Proof. split; [done|]. by intros b k [= ->]. Qed.

#[local] Instance map_files : FileHost (gmap bytes bytes * Z) := {|
  fs_exists p w := bool_decide (is_Some (w.1 !! p));
  fs_read p w := w.1 !! p;
  fs_write p b w := (true, (<[p := b]> w.1, w.2));
  fs_create_dir_all _ w := (true, w);
  temp_base _ := [x2f];
  new_temp_dir p w := (Some p, w);
  env_var _ := None;
  env_set _ w := w;
  data_local_dir := Some [x2f];
|}.
#[local] Instance map_files_ok : FileHostOk (gmap bytes bytes * Z).
Proof.
  split; [|done]. intros p b w w' [= <-]. cbn. rewrite lookup_insert, decide_True by done.
  split; [|done]. apply bool_decide_eq_true_2. eauto.
Qed.

(** Two runs: the second finds the key of the first, although other keys would be drawn. *)
Definition first_run := DataDir.configure_node_data_dir [x2f] None ((∅, 7) : gmap bytes bytes * Z).

Lemma node_identity_stable_witness :
  exists node_dir key, first_run.1 = Ok (node_dir, key)
  /\ (DataDir.configure_node_data_dir [x2f] None (first_run.2.1, 9)).1 = Ok (node_dir, key).
Proof.
  assert (Hr : exists x, first_run.1 = Ok x) by (eexists; vm_compute; reflexivity).
  destruct Hr as [[node_dir key] Hr]. exists node_dir, key. split; [exact Hr|].
  destruct (DataDir.node_identity_stable [x2f] ((∅, 7) : gmap bytes bytes * Z) node_dir key first_run.2 (first_run.2.1, 9))
    as [H|H]; [|reflexivity|reflexivity|exact H|].
  - rewrite <- Hr. apply surjective_pairing.
  - vm_compute in H. discriminate H.
Defined.
End AtWork.
