(* ===== verification/Networks.v ===== *)
(** * Building the networks of a node.

    From the configuration of a node to running overlay services:
    [PortalnetConfig] of [portalnet/src/config.rs], [OverlayConfig] and
    [OverlayProtocol::new] of [portalnet/src/overlay.rs], [PortalStorageConfig] of
    [trin-storage/src/lib.rs], and [HistoryNetwork::new], [BeaconNetwork::new] and
    [StateNetwork::new] with the functions that initialize the networks
    ([trin-history], [trin-beacon] and [trin-state], [network.rs] and [lib.rs]), in the
    order of [run_trin].  The storage of the state network, whose operations are not
    implemented, is here as well.  [KBucketsTable::new] of [discv5] is the class
    [KBucketsNew]; the generation of a random key is an argument. *)

From stdpp Require Import gmap relations.
From S2P Require Import Prelude.
From S2P Require Import Distance.
From S2P Require Import Hex.
From S2P Require Import ContentKey.
From S2P Require Import Query.
From S2P Require Import Wire.
From S2P Require Import ContentStore.
From S2P Require Import HistoryStorage.
From S2P Require Import Overlay.
From S2P Require Import OverlayQuery.
From S2P Require Import Gossip.
From S2P Require Import OverlayContent.
From S2P Require Import OverlayLoop.
From S2P Require Import OverlayAnswers.
From S2P Require Import BeaconValue.
From S2P Require Import BeaconStorage.
From S2P Require Import Accumulator.
From S2P Require Import HistoryValidation.
From S2P Require Import Config.

(** ** Configuration *)

(** The capacity of a bucket of discv5. *)
Definition MAX_NODES_PER_BUCKET : Z := 16.
Definition NODE_ADDR_CACHE_CAPACITY : Z := MAX_NODES_PER_BUCKET * 32.

Module PortalnetConfig.
Section Config.
Context `{U : UrlLib} `{T : EnrText}.

Record t := mk {
  external_addr : option SocketAddr;
  private_key : bytes;
  listen_port : Z;
  bootnodes : Bootnodes;
  data_radius : Z;
  internal_ip : bool;
  no_stun : bool;
  no_upnp : bool;
  node_addr_cache_capacity : Z;
  disable_poke : bool;
  trusted_block_root : option bytes;
}.

(** [Default], with the random key. *)
Definition default (random : bytes) : t :=
  mk None random 4242 DefaultNodes Distance_MAX false false false NODE_ADDR_CACHE_CAPACITY false None.

Definition new (random : bytes) (trin_config : TrinConfig.t) (private_key : bytes) : t :=
  let d := default random in
  {| external_addr := TrinConfig.external_addr trin_config;
     private_key := private_key;
     listen_port := TrinConfig.discovery_port trin_config;
     no_stun := TrinConfig.no_stun trin_config;
     no_upnp := TrinConfig.no_upnp trin_config;
     bootnodes := TrinConfig.bootnodes trin_config;
     disable_poke := TrinConfig.disable_poke trin_config;
     trusted_block_root := TrinConfig.trusted_block_root trin_config;
     data_radius := data_radius d; internal_ip := internal_ip d;
     node_addr_cache_capacity := node_addr_cache_capacity d |}.
End Config.
End PortalnetConfig.

(** Durations are in seconds; the filters of the table are never set. *)
Module OverlayConfig.
Section Config.
Context `{E : EnrLib}.

Record t := mk {
  bootnode_enrs : list Enr;
  bucket_pending_timeout : Z;
  max_incoming_per_bucket : Z;
  ping_queue_interval : option Z;
  query_parallelism : Z;
  query_timeout : Z;
  query_peer_timeout : Z;
  query_num_results : Z;
  findnodes_query_distances_per_peer : Z;
  disable_poke : bool;
}.

Definition default : t := {|
  bootnode_enrs := [];
  bucket_pending_timeout := 60;
  max_incoming_per_bucket := 16;
  ping_queue_interval := None;
  query_parallelism := 3;
  query_peer_timeout := 2;
  query_timeout := 60;
  query_num_results := MAX_NODES_PER_BUCKET;
  findnodes_query_distances_per_peer := 3;
  disable_poke := false;
|}.
End Config.
End OverlayConfig.

(** The part of [PortalStorageConfig] that storages use, with the contents of the tables to
    which its connection pool leads. *)
Module PortalStorageConfig.
Record t := mk {
  storage_capacity_mb : Z;
  node_id : bytes;
  content_data : list Row;
  lc_update : gmap Z bytes;
}.

(** [new]: the tables are created unless the file has them; [None] if it cannot be opened. *)
Definition new (storage_capacity_mb : Z) (node_id : bytes) (setup_sql : option (list Row * gmap Z bytes)) : option t :=
  '(rows, updates) ← setup_sql; Some (mk storage_capacity_mb node_id rows updates).
End PortalStorageConfig.

(** ** The storage of the state network *)

Module StateStorage.
Record t := mk { node_id : bytes; storage_capacity_in_bytes : Z; radius : Z; network : ProtocolId.t }.

Definition new (config : PortalStorageConfig.t) (protocol : ProtocolId.t) : t :=
  mk (PortalStorageConfig.node_id config) (wrap64 (PortalStorageConfig.storage_capacity_mb config * (1000 * 1000)))
    Distance_MAX protocol.

(** The operations of [ContentStore] are [unimplemented!()]. *)
Section Operations.
Context `{CK : OverlayContentKey}.

Definition get (self : t) (key : ContentKey) : res ContentStoreError (option bytes) := Panic.
Definition put (self : t) (key : ContentKey) (value : bytes) : t * res ContentStoreError unit := (self, Panic).
Definition is_key_within_radius_and_unavailable (self : t) (key : ContentKey)
    : res ContentStoreError ShouldWeStoreContent := Panic.
Definition get_radius (self : t) : res Empty_set Z := Panic.
End Operations.
End StateStorage.

(** [StateValidator::validate_content]. *)
Definition state_validate_content {K} (key : K) (content : bytes) : res unit unit := Ok tt.

(** ** Networks *)

(** [KBucketsTable::new]: of the local node, with the timeout of pending nodes and the
    number of incoming nodes in a bucket. *)
Class KBucketsNew `{KB : KBucketsTable} := { kb_new : bytes -> Z -> Z -> kb }.

(** What networks share: the record of the local node, the cache of node addresses, and the
    uTP socket, which draws a connection id on each call. *)
Record Host `{E : EnrLib} := {
  host_enr : Enr;
  host_cached : bytes -> option Enr;
  host_cids : nat -> Enr -> Z;
}.

Inductive StartError := StorageFailed (e : ContentStoreError) | ServiceClosed.

Module Networks.
Section Overlay.
Context `{E : EnrLib} `{CK : OverlayContentKey} `{KB : !KBucketsTable} `{KN : !KBucketsNew} `{KL : KeyLib bytes}
  {St : Type} (rand : nat -> Z).

(** [OverlayProtocol::new]: the service is spawned on a new routing table.  [targets] are
    the random ids of its first lookups. *)
Definition overlay_new (config : OverlayConfig.t) (host : Host) (st : St) (targets : list bytes)
    : OverlayLoop.t (St := St) :=
  let kbuckets := kb_new (enr_node_id (host_enr host)) (OverlayConfig.bucket_pending_timeout config)
                    (OverlayConfig.max_incoming_per_bucket config) in
  OverlayLoop.spawn rand (host_enr host) (host_cached host) (host_cids host) st kbuckets
    (OverlayConfig.bootnode_enrs config) (OverlayConfig.query_timeout config)
    (OverlayConfig.query_peer_timeout config) (OverlayConfig.query_parallelism config)
    (OverlayConfig.query_num_results config) (OverlayConfig.findnodes_query_distances_per_peer config)
    (OverlayConfig.disable_poke config) targets.

(** [event_stream]: a channel is opened for the stream, and the answer awaited. *)
Definition event_stream (overlay : OverlayLoop.t (St := St)) : OverlayLoop.t (St := St) :=
  OverlayLoop.open rand overlay OverlayLoop.ForEvents.
End Overlay.

Section Build.
Context `{U : UrlLib} `{E : EnrLib} `{T : !EnrText} `{KB : !KBucketsTable} `{KN : !KBucketsNew} `{KL : KeyLib bytes}
  (rand : nat -> Z).

(** The fields that networks set; all others are the default ones. *)
Definition overlay_config (enrs : list Enr) (poke : bool) : OverlayConfig.t :=
  let d := OverlayConfig.default in
  {| OverlayConfig.bootnode_enrs := enrs;
     OverlayConfig.disable_poke := poke;
     OverlayConfig.bucket_pending_timeout := OverlayConfig.bucket_pending_timeout d;
     OverlayConfig.max_incoming_per_bucket := OverlayConfig.max_incoming_per_bucket d;
     OverlayConfig.ping_queue_interval := OverlayConfig.ping_queue_interval d;
     OverlayConfig.query_parallelism := OverlayConfig.query_parallelism d;
     OverlayConfig.query_timeout := OverlayConfig.query_timeout d;
     OverlayConfig.query_peer_timeout := OverlayConfig.query_peer_timeout d;
     OverlayConfig.query_num_results := OverlayConfig.query_num_results d;
     OverlayConfig.findnodes_query_distances_per_peer := OverlayConfig.findnodes_query_distances_per_peer d |}.

(** Records of boot nodes that do not parse are a panic. *)
Definition bootnodes_of (portal_config : PortalnetConfig.t) : res StartError (list Enr) :=
  match bootnode_enrs (PortalnetConfig.bootnodes portal_config) with Ok enrs => Ok enrs | _ => Panic end.

(** [HistoryNetwork::new].  Opening the storage prunes it, whose loop always ends, and
    reads the size of the directory, [disk]. *)
Definition history_network_new `{SQ : SqlLib} `{CK : OverlayContentKey} (disk : res ContentStoreError Z) (host : Host)
    (storage_config : PortalStorageConfig.t) (portal_config : PortalnetConfig.t) (targets : list bytes)
    : option (res StartError (OverlayLoop.t (St := HistoryStorage.t))) :=
  match bootnodes_of portal_config with
  | Ok bootnode_enrs =>
      let config := overlay_config bootnode_enrs (PortalnetConfig.disable_poke portal_config) in
      '(storage, r) ← HistoryStorage.new (PortalStorageConfig.node_id storage_config)
        (PortalStorageConfig.storage_capacity_mb storage_config) (PortalStorageConfig.content_data storage_config)
        ProtocolId.History disk;
      Some (let? _ := map_err StorageFailed r in Ok (overlay_new rand config host storage targets))
  | Err e => Some (Err e)
  | Panic => Some Panic
  end.

(** [BeaconNetwork::new]: with the root from which the light client is started, by a task
    of its own, if there is one.  [disk] is the size of the directory, which is reported. *)
Definition beacon_network_new `{CK : OverlayContentKey} (disk : res ContentStoreError Z) (host : Host)
    (storage_config : PortalStorageConfig.t) (portal_config : PortalnetConfig.t) (targets : list bytes)
    : res StartError (OverlayLoop.t (St := BeaconStorage.t) * option bytes) :=
  let? bootnode_enrs := bootnodes_of portal_config in
  let config := overlay_config bootnode_enrs (OverlayConfig.disable_poke OverlayConfig.default) in
  let? storage := map_err StorageFailed (BeaconStorage.new (PortalStorageConfig.storage_capacity_mb storage_config)
    (PortalStorageConfig.content_data storage_config) (PortalStorageConfig.lc_update storage_config) disk) in
  Ok (overlay_new rand config host storage targets, PortalnetConfig.trusted_block_root portal_config).

(** [StateNetwork::new]. *)
Definition state_network_new `{CK : OverlayContentKey} (host : Host)
    (storage_config : PortalStorageConfig.t) (portal_config : PortalnetConfig.t) (targets : list bytes)
    : res StartError (OverlayLoop.t (St := StateStorage.t)) :=
  let storage := StateStorage.new storage_config ProtocolId.State in
  let? bootnode_enrs := bootnodes_of portal_config in
  let config := overlay_config bootnode_enrs (OverlayConfig.disable_poke OverlayConfig.default) in
  Ok (overlay_new rand config host storage targets).

(** [initialize_history_network], and those of the other networks: the oracle gets the
    channel for requests to the network, the network is built, and the stream of its
    events requested; then its tasks are spawned. *)
Definition initialize_history_network `{SQ : SqlLib} `{CK : OverlayContentKey} (disk : res ContentStoreError Z)
    (oracle : HeaderOracle.t) (host : Host)
    (storage_config : PortalStorageConfig.t) (portal_config : PortalnetConfig.t) (targets : list bytes)
    : HeaderOracle.t * option (res StartError (OverlayLoop.t (St := HistoryStorage.t))) :=
  let oracle := HeaderOracle.mk true (HeaderOracle.beacon_jsonrpc_tx oracle) (HeaderOracle.master_acc oracle) in
  (oracle,
   res_map (event_stream rand) <$> history_network_new disk host storage_config portal_config targets).

Definition initialize_beacon_network `{CK : OverlayContentKey} (disk : res ContentStoreError Z)
    (oracle : HeaderOracle.t) (host : Host)
    (storage_config : PortalStorageConfig.t) (portal_config : PortalnetConfig.t) (targets : list bytes)
    : HeaderOracle.t * res StartError (OverlayLoop.t (St := BeaconStorage.t) * option bytes) :=
  let oracle := HeaderOracle.mk (HeaderOracle.history_jsonrpc_tx oracle) true (HeaderOracle.master_acc oracle) in
  (oracle,
   res_map (fun n => (event_stream rand n.1, n.2)) (beacon_network_new disk host storage_config portal_config targets)).

Definition initialize_state_network `{CK : OverlayContentKey} (host : Host)
    (storage_config : PortalStorageConfig.t) (portal_config : PortalnetConfig.t) (targets : list bytes)
    : res StartError (OverlayLoop.t (St := StateStorage.t)) :=
  res_map (event_stream rand) (state_network_new host storage_config portal_config targets).
End Build.

(** ** Networks start *)

Section Started.
Context `{U : UrlLib} `{E : EnrLib} `{T : !EnrText} `{KB : !KBucketsTable} `{KN : !KBucketsNew} `{KL : KeyLib bytes}
  (rand : nat -> Z).

Lemma overlay_new_started `{CK : OverlayContentKey} {St} config host (st : St) targets :
  length targets = Z.to_nat EXPECTED_NON_EMPTY_BUCKETS ->
  OverlayAnswers.started rand (overlay_new rand config host st targets).
Proof. apply OverlayAnswers.started_spawn. Qed.

(** A history network that was built is the overlay on the rows of the database, less those
    that were pruned. *)
Lemma history_network_built `{SQ : SqlLib} `{CK : OverlayContentKey} disk host storage_config portal_config targets self :
  history_network_new rand disk host storage_config portal_config targets = Some (Ok self) ->
  exists enrs st, bootnode_enrs (PortalnetConfig.bootnodes portal_config) = Ok enrs
    /\ self = overlay_new rand (overlay_config enrs (PortalnetConfig.disable_poke portal_config)) host st targets
    /\ forall row, row ∈ HistoryStorage.db st -> row ∈ PortalStorageConfig.content_data storage_config.
Proof.
  unfold history_network_new, bootnodes_of. destruct (bootnode_enrs _) as [enrs| |]; [|done..].
  destruct (HistoryStorage.new _ _ _ _ _) as [[st r]|] eqn:En; [|done]. cbn. destruct r as [[]| |]; [|done..]. intros [= <-].
  exists enrs, st. split_and!; [done..|]. revert En. unfold HistoryStorage.new.
  destruct (_ =? 0); [destruct (_ =? 0); intros [= <- _]; done|].
  destruct (HistoryStorage.prune_db _) as [[st' r]|] eqn:Ep; [|done]. intros [= -> _].
  apply HistoryStorage.prune_db_rows in Ep as [Hr _]. exact Hr.
Qed.

(** Poking is set when the service is spawned. *)
Lemma overlay_new_poke `{CK : OverlayContentKey} {St} config host (st : St) targets :
  OverlayService.disable_poke (OverlayLoop.service (overlay_new rand config host st targets)) = OverlayConfig.disable_poke config.
Proof.
  unfold overlay_new, OverlayLoop.spawn. set (s := OverlayService.mk _ _ _ _ _ _ _ _ _ _ _ _ _ _).
  destruct (OverlayAnswers.settle_opened rand (OverlayLoop.mk s [] ∅ [] [] [] [] [] 0 [])
    (OverlayQuery.initialize_routing_table s (OverlayConfig.bootnode_enrs config) targets)) as [_ ->].
  cbn [OverlayLoop.clear_effects OverlayService.disable_poke]. unfold OverlayQuery.initialize_routing_table, OverlayQuery.add_bootnodes.
  assert (Hi : forall (s1 : OverlayService.t St) target,
    OverlayService.disable_poke (OverlayQuery.init_find_nodes_query s1 target None).1 = OverlayService.disable_poke s1).
  { intros s1 target. unfold OverlayQuery.init_find_nodes_query. by destruct (OverlayQuery.closest_connected_nodes _ _ _). }
  assert (Hf : forall {A} (f : OverlayService.t St -> A -> OverlayService.t St) l s1,
    (forall s x, OverlayService.disable_poke (f s x) = OverlayService.disable_poke s) ->
    OverlayService.disable_poke (fold_left f l s1) = OverlayService.disable_poke s1).
  { intros A f l. induction l as [|x l IH]; intros s1 H; [done|]. simpl. by rewrite IH, H. }
  rewrite Hf by (intros; apply Hi). rewrite Hi, Hf; [done|].
  intros s1 enr. unfold OverlayQuery.add_bootnode. by repeat case_match.
Qed.

(** Only the history network heeds the option that disables poking. *)
Theorem poke_option_ignored `{SQ : SqlLib} `{CK : OverlayContentKey} disk host storage_config portal_config targets :
  (forall self, history_network_new rand disk host storage_config portal_config targets = Some (Ok self) ->
     OverlayService.disable_poke (OverlayLoop.service self) = PortalnetConfig.disable_poke portal_config)
  /\ (forall self root, beacon_network_new rand disk host storage_config portal_config targets = Ok (self, root) ->
      OverlayService.disable_poke (OverlayLoop.service self) = false)
  /\ (forall self, state_network_new rand host storage_config portal_config targets = Ok self ->
      OverlayService.disable_poke (OverlayLoop.service self) = false).
Proof.
  split_and!.
  - intros self (enrs & st & _ & -> & _)%history_network_built. by rewrite overlay_new_poke.
  - intros self root. unfold beacon_network_new. destruct (bootnodes_of _); [|done..]. cbn.
    destruct (BeaconStorage.new _ _ _ _); [|done..]. intros [= <- _]. by rewrite overlay_new_poke.
  - intros self. unfold state_network_new. destruct (bootnodes_of _); [|done..]. intros [= <-]. by rewrite overlay_new_poke.
Qed.

(** The settings of lookups are those that their state machines need. *)
Lemma overlay_config_ok enrs poke :
  Query.config_ok {| parallelism := OverlayConfig.query_parallelism (overlay_config enrs poke);
    num_results := OverlayConfig.query_num_results (overlay_config enrs poke);
    peer_timeout := OverlayConfig.query_peer_timeout (overlay_config enrs poke) |}.
Proof. by split_and!. Qed.
End Started.
End Networks.
