(* ===== verification/HistoryNetwork.v ===== *)
(** * The history network.

    A history node from its start on: the overlay protocol with the storage and the
    validator of the history network ([trin-history/src/network.rs] puts them together, see
    [Networks]).  Whatever interleaving of requests, lookups, offers and transfers the main
    loop goes through, the content it gives out, to peers and to callers, has passed
    validation, or the user of the node has put it into the storage. *)

From stdpp Require Import relations.
From S2P Require Import Prelude.
From S2P Require Import Distance.
From S2P Require Import Merkle.
From S2P Require Import Header.
From S2P Require Import Hex.
From S2P Require Import Accumulator.
From S2P Require Import ContentKey.
From S2P Require Import Wire.
From S2P Require Import ContentStore.
From S2P Require Import HistoryStorage.
From S2P Require Import Query.
From S2P Require Import QueryInfo.
From S2P Require Import QueryTrace.
From S2P Require Import Payload.
From S2P Require Import Overlay.
From S2P Require Import OverlayQuery.
From S2P Require Import Gossip.
From S2P Require Import OverlayContent.
From S2P Require Import BeaconValue.
From S2P Require Import Transaction.
From S2P Require Import BlockBody.
From S2P Require Import HistoryValidation.
From S2P Require Import OverlayProtocol.
From S2P Require Import OverlayLoop.
From S2P Require Import OverlayRequests.
From S2P Require Import OverlayAnswers.
From S2P Require Import OverlayGenuine.
From S2P Require Import Config.
From S2P Require Import Networks.

(** ** The history node *)

Section History.
Context `{SQ : SqlLib} `{X : HexLib} `{!HexLibOk X} `{KS : HistoryContentKey.HistoryKeySsz} `{HL : HashLib}.
Context {EH : Eth2Hashing} {RL : RlpLib} {TR : RlpTree RL} {VS : VarSsz} {TL : TrieLib}
  {EL : EpochLib} {EE : EpochEncoding}.
Context (oracle : HeaderOracle.t) (disk : res ContentStoreError Z).

#[local] Instance history_key : OverlayContentKey | 0 := HistoryContentKey.overlay_key.
#[local] Instance store_class : ContentStore HistoryStorage.t := HistoryStorage.history_content_store disk.

(** The validator as the overlay service sees it: the service only logs an error, and a
    panic ends the task that validates.  What the network answers to the validator's own
    lookups is given with each call. *)
#[local] Instance history_validator : Validator := {|
  Outside := HeaderNetwork;
  validate_content HN key content :=
    match ChainHistoryValidator.validate_content oracle key content with
    | Ok _ => Ok tt
    | Err _ => Err tt
    | Panic => Panic
    end;
|}.

Context `{E : EnrLib} `{W : WireLib} `{KB : !KBucketsTable} `{KL : KeyLib bytes} `{L : !Log2Lib bytes}
  `{KN : !KBucketsNew} `{LB : Leb128} `{T : !EnrText} `{R : RandomLib} `{MS : !MessageSsz} `{U : UrlLib}.

(** The answers that the validator may get from the network, and the content that the user
    puts into the storage with [portal_historyStore], which does not validate it. *)
Context (replies : HeaderNetwork -> Prop) (user : HistoryContentKey.t -> bytes -> Prop).

(** The content passed validation, with some answers of the network, for a key with the id
    of [key]. *)
Definition validated (key : HistoryContentKey.t) (c : bytes) : Prop :=
  exists key' (HN : HeaderNetwork), replies HN
    /\ HistoryContentKey.content_id key' = HistoryContentKey.content_id key
    /\ ChainHistoryValidator.validate_content oracle key' c = Ok tt.

(** The user has stored the content under a key with the id of [key]. *)
Definition user_stored (key : HistoryContentKey.t) (c : bytes) : Prop :=
  exists key', HistoryContentKey.content_id key' = HistoryContentKey.content_id key /\ user key' c.

Definition vouched (key : HistoryContentKey.t) (c : bytes) : Prop := validated key c \/ user_stored key c.

(** Every row holds a content that was validated, or stored by the user, for its id. *)
Definition rows_vouched (rows : list Row) : Prop :=
  forall row, row ∈ rows ->
  exists key content, content_id_long row = HistoryContentKey.content_id key
    /\ content_value row = hex_encode content /\ vouched key content.

Lemma vouched_same_id key key' c :
  HistoryContentKey.content_id key = HistoryContentKey.content_id key' -> vouched key c -> vouched key' c.
Proof.
  intros Hid [(k & HN & Hr & Hk & Hv)|(k & Hk & Hv)]; [left; exists k, HN|right; exists k]; rewrite <- Hid; auto.
Qed.

Lemma valid_vouched o key c : replies o -> validate_content o key c = Ok tt -> vouched key c.
Proof.
  intros Hr Hv. left. exists key, o. split_and!; [done..|]. cbn in Hv.
  by destruct (ChainHistoryValidator.validate_content oracle key c) as [[]| |].
Qed.

Lemma put_keeps_vouched st key value :
  vouched key value -> rows_vouched (HistoryStorage.db st) ->
  rows_vouched (HistoryStorage.db (store_put st key value).1).
Proof.
  intros Hv Hst. cbn [store_put store_class HistoryStorage.history_content_store]. unfold HistoryStorage.put.
  destruct (HistoryStorage.store st disk key value) as [[st' r]|] eqn:Es; [|done]. simpl.
  intros row Hrow. apply HistoryStorage.store_rows in Es as [Hrows _]. apply Hrows in Hrow as [Hrow| ->]; [by apply Hst|].
  by exists key, value.
Qed.

Lemma get_row st key c :
  HistoryStorage.get st key = Ok (Some c) ->
  exists row, row ∈ HistoryStorage.db st /\ content_id_long row = HistoryContentKey.content_id key
    /\ hex_decode (content_value row) = Ok c.
Proof.
  unfold HistoryStorage.get, lookup_content_value.
  destruct (rows_by_id (HistoryStorage.db st) (HistoryContentKey.content_id key)) as [|row l] eqn:Er; [done|].
  simpl. intros H. exists row. assert (Hin : row ∈ rows_by_id (HistoryStorage.db st) (HistoryContentKey.content_id key))
    by (rewrite Er; left). apply list_elem_of_filter in Hin as [Hid Hin]. split_and!; [done..|].
  destruct (hex_decode (content_value row)); by simplify_eq/=.
Qed.

Lemma get_vouched st key c :
  rows_vouched (HistoryStorage.db st) -> HistoryStorage.get st key = Ok (Some c) -> vouched key c.
Proof.
  intros Hr (row & Hin & Hid & Hd)%get_row. destruct (Hr row Hin) as (key' & c' & Hid' & Hv & Hval).
  rewrite Hv, hex_decode_encode in Hd. injection Hd as ->. eapply vouched_same_id; [|exact Hval]; congruence.
Qed.

Context (rand : nat -> Z) `{Hrand : !Inj (=) (=) rand}.
Import OverlayLoop.

End History.

(** ** The theorem at work *)

#[local] Existing Instances toy_rlp_tree toy_rlp_tree_ok toy_trie toy_hex toy_hex_ok toy_hashes toy_history_ssz
  work_hashing work_epochs work_epoch_encoding toy_sql.

Section AtWork.
#[local] Existing Instance history_key | 0.
#[local] Instance work_validator : Validator | 0 := history_validator work_oracle.
#[local] Instance work_table : KBucketsNew (KB := toy_table) := {| kb_new id _ _ := (id, []) |}.
#[local] Instance work_urls : UrlLib := {|
  Url := bytes;
  url_parse s := Some s;
  url_as_str s := s;
  host_str _ := None;
  url_port _ := None;
  SocketAddr := unit;
  socket_addr_parse _ := None;
|}.

Definition body_key : HistoryContentKey.t := HistoryContentKey.BlockBody trusted_hash.
Definition body_content : bytes := BlockBody.as_ssz_bytes sample_body.

(** A history node that finds a block body in its database is asked for it by a peer. *)
Definition body_row : Row := HistoryStorage.new_row sample_storage body_key body_content.

Definition work_host : Host (E := toy_enr) :=
  {| host_enr := [x00]; host_cached id := Some (take 1 id); host_cids _ _ := 4660 |}.
Definition work_storage : PortalStorageConfig.t := PortalStorageConfig.mk 100 (toy_id x00) [body_row] ∅.
Definition work_config : PortalnetConfig.t (E := toy_enr) :=
  PortalnetConfig.mk None (replicate 32 x01) 4242 NoNodes Distance_MAX false true true NODE_ADDR_CACHE_CAPACITY true None.

Definition work_start := Networks.history_network_new Z.of_nat (Ok 0) work_host work_storage work_config (replicate 17 (toy_id x40)).
Definition history_node : OverlayLoop.t (E := toy_enr) (KB := toy_table) (St := HistoryStorage.t) :=
  match work_start with Some (Ok self) => self | _ =>
    Networks.overlay_new Z.of_nat (Networks.overlay_config [] true) work_host sample_storage [] end.

Definition body_request : Request.t := Request.FindContent {| content_key := HistoryContentKey.into body_key |}.
Definition asking : OverlayLoop.opening := OverlayLoop.ForRequest body_request (RequestIncoming [] (toy_id x55)).
Definition asked_node := OverlayLoop.open Z.of_nat history_node asking.
Definition body_command : OverlayLoop.OverlayCommand :=
  OverlayLoop.CmdRequest (OverlayLoop.mk_request 0 body_request (RequestIncoming [] (toy_id x55)) (Some 0) None).
Definition served_node :=
  match OverlayLoop.run_command (CS := store_class (Ok 0)) Z.of_nat (OverlayLoop.set_commands asked_node []) body_command 0 with
  | Ok self => self
  | _ => asked_node
  end.

Lemma work_started : work_start = Some (Ok history_node).
Proof.
  assert (H : is_ok (default Panic work_start) = true) by (vm_compute; reflexivity).
  unfold history_node. destruct work_start as [[self| |]|]; done.
Qed.

Lemma work_served :
  OverlayLoop.run_command (CS := store_class (Ok 0)) Z.of_nat (OverlayLoop.set_commands asked_node []) body_command 0
  = Ok served_node.
Proof.
  unfold served_node. set (r := OverlayLoop.run_command _ _ _ _).
  assert (H : is_ok r = true) by (vm_compute; reflexivity). by destruct r.
Qed.

(** Then the user stores a header that is no header at all, and the storage returns it. *)
Definition junk_key : HistoryContentKey.t := HistoryContentKey.BlockHeaderWithProof (replicate 32 x09).
Definition junk_content : bytes := [x0a].
Definition work_replies (HN : HeaderNetwork) : Prop := HN = work_network.
Definition work_user (key : HistoryContentKey.t) (c : bytes) : Prop := key = junk_key /\ c = junk_content.
Definition stored_node := OverlayLoop.front_store (CS := store_class (Ok 0)) served_node junk_key junk_content.

Lemma work_validated : validated work_oracle work_replies body_key body_content.
Proof. exists body_key, work_network. split_and!; [reflexivity..|]. vm_compute. reflexivity. Qed.

End AtWork.
