(* ===== verification/NetworkRpc.v ===== *)
(** * The request handlers of the networks.

    [trin-history/src/jsonrpc.rs] and [trin-beacon/src/jsonrpc.rs] handle the JSON-RPC
    requests for a network.  The two files differ in their types only, which the class
    [NetworkContent] provides; the handlers are functions of the world of
    [OverlayProtocol].  Responses are kept as values before [json!] turns them into JSON;
    the content of a lookup passes through the JSON form of content values in the handler
    itself, and so it does here.  The header oracle asks the history network through these
    handlers: [rpc_header_network]. *)

From stdpp Require Import gmap sets.
From S2P Require Import Prelude.
From S2P Require Import Distance.
From S2P Require Import Merkle.
From S2P Require Import Header.
From S2P Require Import Hex.
From S2P Require Import Accumulator.
From S2P Require Import ContentKey.
From S2P Require Import Query.
From S2P Require Import FindContent.
From S2P Require Import Wire.
From S2P Require Import QueryTrace.
From S2P Require Import QueryInfo.
From S2P Require Import ContentStore.
From S2P Require Import HistoryStorage.
From S2P Require Import HistoryPaging.
From S2P Require Import Overlay.
From S2P Require Import Gossip.
From S2P Require Import OverlayContent.
From S2P Require Import OverlayProtocol.
From S2P Require Import BeaconValue.
From S2P Require Import BeaconStorage.
From S2P Require Import Transaction.
From S2P Require Import BlockBody.
From S2P Require Import ExecutionTyping.
From S2P Require Import HistoryValidation.

(** The content values of a network, with their JSON form, and the pages of its store. *)
Class NetworkContent (St : Type) := {
  Value : Type;
  value_encode : Value -> bytes;
  Possible : Type;
  possible_from_json : bytes -> res BeaconContentValue.json_error Possible;
  Page : Type;
  store_paginate : St -> Z -> Z -> res ContentStoreError Page;
}.

(** [HistoryEndpoint] and [BeaconEndpoint]. *)
Inductive Endpoint `{E : EnrLib} `{CK : OverlayContentKey} {St} `{NC : NetworkContent St} :=
| AddEnr (enr : Enr)
| DataRadius
| DeleteEnr (node_id : bytes)
| FindContentFrom (enr : Enr) (key : ContentKey)
| FindNodesFrom (enr : Enr) (distances : list Z)
| GetEnr (node_id : bytes)
| LocalContent (key : ContentKey)
| LookupEnr (node_id : bytes)
| GossipContent (key : ContentKey) (value : Value)
| TraceGossip (key : ContentKey) (value : Value)
| OfferTo (enr : Enr) (key : ContentKey) (value : option Value)
| PingNode (enr : Enr)
| RecursiveFindContent (key : ContentKey)
| TraceRecursiveFindContent (key : ContentKey)
| StoreContent (key : ContentKey) (value : Value)
| RoutingTableInfo
| PaginateLocalContentKeys (offset limit : Z)
| RecursiveFindNodes (node_id : bytes).

(** What the handlers answer. *)
Inductive rpc_value `{E : EnrLib} `{KB : !KBucketsTable} {St} `{NC : NetworkContent St} :=
| RpcBool (b : bool)
| RpcNumber (z : Z)
| RpcString (s : bytes)
| RpcStoreError (e : ContentStoreError)
| RpcContentInfo (content : Possible) (utp_transfer : bool)
| RpcTraceContentInfo (content : Possible) (utp_transfer : bool) (trace : QueryTrace.t)
| RpcContent (content : bytes) (utp_transfer : bool)
| RpcContentEnrs (enrs : list Enr)
| RpcEnr (enr : Enr)
| RpcEnrs (enrs : list Enr)
| RpcAccept (content_keys : list bool)
| RpcPong (enr_seq data_radius : Z)
| RpcGossip (g : GossipResult)
| RpcPage (p : Page)
| RpcRoutingTable (local_node_id : bytes) (buckets : kb).

(** The errors, as strings in the code. *)
Inductive RpcError :=
| OverlayFailed (e : OverlayRequestError)
| DatabaseFailed (e : ContentStoreError)
| ConnectionIdReturned (id : Z)
| TraceMissing
| BadContent (e : BeaconContentValue.json_error).

Module NetworkRpc.
Section Ops.
Context `{E : EnrLib} `{WL : WireLib} `{CK : OverlayContentKey} `{KB : !KBucketsTable} `{KL : KeyLib bytes}
  `{X : HexLib} {St World : Type} `{CS : !ContentStore St} `{V : !Validator} `{T : !EnrText} `{R : RandomLib}
  `{OW : !OverlayWorld St World} `{NC : !NetworkContent St}.

Abbreviation M A := (SM World RpcError A).

(** A method of the overlay protocol. *)
Definition on_overlay {A} (m : SM World OverlayRequestError A) : M A := fun w =>
  let '(r, w) := m w in (map_err OverlayFailed r, w).

Definition with_store {A} (f : St -> res ContentStoreError A) : M (res ContentStoreError A) := fun w =>
  match f (w_store w) with
  | Panic => (Panic, w)
  | r => (Ok r, w)
  end.

(** The content as a string. *)
Definition content_response_string (content : option bytes) : bytes :=
  match content with
  | Some b => hex_encode b
  | None => CONTENT_ABSENT
  end.

(** The local content with its trace, which reads the clock twice, or a lookup. *)
Definition find_anywhere (now now' : Z) (content_key : ContentKey) (is_trace : bool)
    : M (option bytes * bool * option QueryTrace.t) :=
  do found <- with_store (fun st => store_get st content_key);
  match found with
  | Ok (Some val) =>
      do local <- on_overlay OverlayProtocol.local_enr;
      let trace := QueryTrace.new local (content_id content_key) now in
      let trace := QueryTrace.node_responded_with_content trace local now' in
      ret (Some val, false, if is_trace then Some trace else None)
  | _ => on_overlay (OverlayProtocol.lookup_content content_key is_trace)
  end.

Definition recursive_find_content (now now' : Z) (content_key : ContentKey) (is_trace : bool) : M rpc_value :=
  do (possible_content_bytes, utp_transfer, trace) <- find_anywhere now now' content_key is_trace;
  let s := content_response_string possible_content_bytes in
  if negb is_trace then
    do content <- lift (map_err BadContent (possible_from_json s));
    ret (RpcContentInfo content utp_transfer)
  else
    match trace with
    | Some trace =>
        do content <- lift (map_err BadContent (possible_from_json s));
        ret (RpcTraceContentInfo content utp_transfer trace)
    | None => lift (Err TraceMissing)
    end.

Definition local_content (content_key : ContentKey) : M rpc_value :=
  do found <- with_store (fun st => store_get st content_key);
  match found with
  | Ok val => ret (RpcString (content_response_string val))
  | Err e => lift (Err (DatabaseFailed e))
  | Panic => lift Panic
  end.

Definition paginate_local_content_keys (offset limit : Z) : M rpc_value :=
  do page <- with_store (fun st => store_paginate st offset limit);
  match page with
  | Ok val => ret (RpcPage val)
  | Err e => lift (Err (DatabaseFailed e))
  | Panic => lift Panic
  end.

Definition store (content_key : ContentKey) (content_value : Value) : M rpc_value := fun w =>
  let data := value_encode content_value in
  let '(st, r) := store_put (w_store w) content_key data in
  let w := w_set_store st w in
  match r with
  | Ok _ => (Ok (RpcBool true), w)
  | Err e => (Ok (RpcStoreError e), w)
  | Panic => (Panic, w)
  end.

Definition add_enr (enr : Enr) : M rpc_value :=
  do _ <- on_overlay (OverlayProtocol.add_enr enr); ret (RpcBool true).

Definition get_enr (node_id : bytes) : M rpc_value :=
  do enr <- on_overlay (OverlayProtocol.get_enr node_id); ret (RpcEnr enr).

Definition delete_enr (node_id : bytes) : M rpc_value :=
  do is_deleted <- on_overlay (OverlayProtocol.delete_enr node_id); ret (RpcBool is_deleted).

Definition lookup_enr (node_id : bytes) : M rpc_value :=
  do enr <- on_overlay (OverlayProtocol.lookup_enr node_id); ret (RpcEnr enr).

Definition find_content (outside : Outside) (enr : Enr) (content_key : ContentKey) : M rpc_value :=
  do (content, utp_transfer) <- on_overlay (OverlayProtocol.send_find_content outside enr (key_to_bytes content_key));
  match content with
  | ConnectionId id => lift (Err (ConnectionIdReturned id))
  | ContentBytes content => ret (RpcContent (hex_encode content) utp_transfer)
  | Enrs enrs => ret (RpcContentEnrs enrs)
  end.

Definition find_nodes (enr : Enr) (distances : list Z) : M rpc_value :=
  do nodes <- on_overlay (OverlayProtocol.send_find_nodes enr distances); ret (RpcEnrs (enrs nodes)).

Definition gossip (order : list bytes) (content_key : ContentKey) (content_value : Value) : M rpc_value :=
  let data := value_encode content_value in
  do n <- on_overlay (OverlayProtocol.propagate_gossip [(content_key, data)] order); ret (RpcNumber n).

Definition gossip_trace (content_key : ContentKey) (content_value : Value) : M rpc_value :=
  let data := value_encode content_value in
  do g <- on_overlay (OverlayProtocol.propagate_gossip_trace content_key data); ret (RpcGossip g).

Definition offer (enr : Enr) (content_key : ContentKey) (content_value : option Value) : M rpc_value :=
  match content_value with
  | Some content_value =>
      let content_value := value_encode content_value in
      do accept <- on_overlay (OverlayProtocol.send_populated_offer enr (key_to_bytes content_key) content_value);
      ret (RpcAccept (accept_content_keys accept))
  | None =>
      do accept <- on_overlay (OverlayProtocol.send_offer [key_to_bytes content_key] enr);
      ret (RpcAccept (accept_content_keys accept))
  end.

(** [enr_seq as u32]; the payload is read as a radius, or panics. *)
Definition ping (enr : Enr) : M rpc_value :=
  do pong <- on_overlay (OverlayProtocol.send_ping enr);
  match CustomPayload.to_distance (pong_custom_payload pong) with
  | Ok radius => ret (RpcPong (pong_enr_seq pong mod U32_MOD) radius)
  | Err e => match e with end
  | Panic => lift Panic
  end.

Definition recursive_find_nodes (node_id : bytes) : M rpc_value :=
  do nodes <- on_overlay (OverlayProtocol.lookup_node node_id); ret (RpcEnrs nodes).

(** The response that is sent for an endpoint; none after a panic.  [outside] is what the
    validator is answered meanwhile. *)
Definition complete_request (outside : Outside) (now now' : Z) (order : list bytes) (endpoint : Endpoint) : M rpc_value :=
  match endpoint with
  | LocalContent content_key => local_content content_key
  | PaginateLocalContentKeys offset limit => paginate_local_content_keys offset limit
  | StoreContent content_key content_value => store content_key content_value
  | RecursiveFindContent content_key => recursive_find_content now now' content_key false
  | TraceRecursiveFindContent content_key => recursive_find_content now now' content_key true
  | AddEnr enr => add_enr enr
  | DataRadius => do radius <- on_overlay OverlayProtocol.data_radius; ret (RpcNumber radius)
  | DeleteEnr node_id => delete_enr node_id
  | FindContentFrom enr content_key => find_content outside enr content_key
  | FindNodesFrom enr distances => find_nodes enr distances
  | GetEnr node_id => get_enr node_id
  | GossipContent content_key content_value => gossip order content_key content_value
  | TraceGossip content_key content_value => gossip_trace content_key content_value
  | LookupEnr node_id => lookup_enr node_id
  | OfferTo enr content_key content_value => offer enr content_key content_value
  | PingNode enr => ping enr
  | RoutingTableInfo =>
      do local <- on_overlay OverlayProtocol.local_enr;
      do buckets <- on_overlay (OverlayProtocol.reads w_kbuckets);
      ret (RpcRoutingTable (hex_encode (enr_node_id local)) buckets)
  | RecursiveFindNodes node_id => recursive_find_nodes node_id
  end.

(** The error for a response with a connection id is never given: streams have been read by
    then.  Content in the answer is valid for the key. *)
Theorem rpc_find_content_valid outside enr content_key (w w' : World) r :
  key_try_from (key_to_bytes content_key) = Ok content_key ->
  find_content outside enr content_key w = (r, w') ->
  (forall id, r <> Err (ConnectionIdReturned id))
  /\ forall s utp, r = Ok (RpcContent s utp) -> exists c, s = hex_encode c /\ validate_content outside content_key c = Ok tt.
Proof.
  intros Hk. unfold find_content, bind, on_overlay.
  destruct (OverlayProtocol.send_find_content outside enr _ w) as [[[content utp]|e|] w1] eqn:Hs; cbn.
  - apply OverlayProtocol.find_content_checked in Hs as (key & Hk' & Hc). rewrite Hk in Hk'. injection Hk' as <-.
    destruct content as [id|c|l]; [done| |]; intros [= <- <-]; (split; [done|]).
    + intros s u [= <- <-]. by exists c.
    + done.
  - intros [= <- <-]. done.
  - intros [= <- <-]. done.
Qed.
End Ops.
End NetworkRpc.

(** ** The two networks *)

Definition history_content `{SQ : SqlLib} `{X : HexLib} `{KS : HistoryContentKey.HistoryKeySsz} `{HL : HashLib}
    `{TR : RlpTree} `{VS : VarSsz} `{EL : EpochLib} `{EE : EpochEncoding} : NetworkContent HistoryStorage.t := {|
  Value := HistoryContentValue.t;
  value_encode := HistoryContentValue.encode;
  Possible := PossibleHistoryContentValue.t;
  possible_from_json := PossibleHistoryContentValue.deserialize;
  Page := PaginateLocalContentInfo;
  store_paginate := HistoryPaging.paginate;
|}.

Definition beacon_content `{S : BeaconSsz} `{X : HexLib} : NetworkContent BeaconStorage.t := {|
  Value := BeaconContentValue.t;
  value_encode := BeaconContentValue.encode;
  Possible := PossibleBeaconContentValue.t;
  possible_from_json := PossibleBeaconContentValue.deserialize;
  Page := unit;
  store_paginate st offset limit := BeaconStorage.paginate st offset limit;
|}.

(** The handlers of the beacon network are those of the history network at its types, apart
    from gossip, with or without a trace in one function. *)
Module BeaconRpc.
Section Ops.
Context `{E : EnrLib} `{WL : WireLib} `{HL : HashLib} `{U : U64Ssz} `{X : HexLib} `{KB : !KBucketsTable} `{KL : KeyLib bytes}
  `{S : BeaconSsz} `{T : !EnrText} `{R : RandomLib} {World : Type}.
#[local] Instance beacon_key : OverlayContentKey | 0 := BeaconContentKey.overlay_key.
#[local] Instance beacon_rpc_content : NetworkContent BeaconStorage.t | 0 := beacon_content.
Context `{CS : !ContentStore BeaconStorage.t} `{V : !Validator} `{OW : !OverlayWorld BeaconStorage.t World}.

Abbreviation M A := (SM World RpcError A).

Definition recursive_find_content : Z -> Z -> BeaconContentKey.t -> bool -> M rpc_value := NetworkRpc.recursive_find_content.
Definition local_content : BeaconContentKey.t -> M rpc_value := NetworkRpc.local_content.
Definition paginate_local_content_keys : Z -> Z -> M rpc_value := NetworkRpc.paginate_local_content_keys.
Definition store : BeaconContentKey.t -> BeaconContentValue.t -> M rpc_value := NetworkRpc.store.
Definition add_enr : Enr -> M rpc_value := NetworkRpc.add_enr.
Definition get_enr : bytes -> M rpc_value := NetworkRpc.get_enr.
Definition delete_enr : bytes -> M rpc_value := NetworkRpc.delete_enr.
Definition lookup_enr : bytes -> M rpc_value := NetworkRpc.lookup_enr.
Definition find_content : Outside -> Enr -> BeaconContentKey.t -> M rpc_value := NetworkRpc.find_content.
Definition find_nodes : Enr -> list Z -> M rpc_value := NetworkRpc.find_nodes.
Definition offer : Enr -> BeaconContentKey.t -> option BeaconContentValue.t -> M rpc_value := NetworkRpc.offer.
Definition ping : Enr -> M rpc_value := NetworkRpc.ping.
Definition recursive_find_nodes : bytes -> M rpc_value := NetworkRpc.recursive_find_nodes.

Definition gossip (order : list bytes) (content_key : BeaconContentKey.t) (content_value : BeaconContentValue.t)
    (is_trace : bool) : M rpc_value :=
  let data := BeaconContentValue.encode content_value in
  if is_trace then
    do g <- NetworkRpc.on_overlay (OverlayProtocol.propagate_gossip_trace content_key data); ret (RpcGossip g)
  else
    do n <- NetworkRpc.on_overlay (OverlayProtocol.propagate_gossip [(content_key, data)] order); ret (RpcNumber n).

Definition complete_request (outside : Outside) (now now' : Z) (order : list bytes) (endpoint : Endpoint) : M rpc_value :=
  match endpoint with
  | LocalContent content_key => local_content content_key
  | PaginateLocalContentKeys offset limit => paginate_local_content_keys offset limit
  | StoreContent content_key content_value => store content_key content_value
  | RecursiveFindContent content_key => recursive_find_content now now' content_key false
  | TraceRecursiveFindContent content_key => recursive_find_content now now' content_key true
  | AddEnr enr => add_enr enr
  | DataRadius => do radius <- NetworkRpc.on_overlay OverlayProtocol.data_radius; ret (RpcNumber radius)
  | DeleteEnr node_id => delete_enr node_id
  | FindContentFrom enr content_key => find_content outside enr content_key
  | FindNodesFrom enr distances => find_nodes enr distances
  | GetEnr node_id => get_enr node_id
  | GossipContent content_key content_value => gossip order content_key content_value false
  | TraceGossip content_key content_value => gossip order content_key content_value true
  | LookupEnr node_id => lookup_enr node_id
  | OfferTo enr content_key content_value => offer enr content_key content_value
  | PingNode enr => ping enr
  | RoutingTableInfo =>
      do local <- NetworkRpc.on_overlay OverlayProtocol.local_enr;
      do buckets <- NetworkRpc.on_overlay (OverlayProtocol.reads w_kbuckets);
      ret (RpcRoutingTable (hex_encode (enr_node_id local)) buckets)
  | RecursiveFindNodes node_id => recursive_find_nodes node_id
  end.

(** It is the handler of the history network at the types of the beacon network. *)
Lemma beacon_handler_same outside now now' order endpoint (w : World) :
  complete_request outside now now' order endpoint w = NetworkRpc.complete_request outside now now' order endpoint w.
Proof. by destruct endpoint. Qed.
End Ops.
End BeaconRpc.

(** ** The headers of the oracle *)

Section Oracle.
Context `{SQ : SqlLib} `{X : HexLib} `{!HexLibOk X} `{KS : HistoryContentKey.HistoryKeySsz} `{HL : HashLib}.
Context {EH : Eth2Hashing} {RL : RlpLib} `{!RlpLibOk RL} `{!RlpTyped RL} {TR : RlpTree RL} `{!RlpTreeOk TR} {VS : VarSsz} `{!VarSszOk VS}
  {TL : TrieLib} {EL : EpochLib} {EE : EpochEncoding}.
Context (oracle : HeaderOracle.t) (replies : HeaderNetwork -> Prop) (disk : res ContentStoreError Z) (now now' : Z).

#[local] Instance oracle_key : OverlayContentKey | 0 := HistoryContentKey.overlay_key.
#[local] Instance oracle_store : ContentStore HistoryStorage.t | 0 := HistoryStorage.history_content_store disk.
#[local] Instance oracle_content : NetworkContent HistoryStorage.t | 0 := history_content.

Context `{E : EnrLib} `{KB : !KBucketsTable} {World : Type} `{OW : !OverlayWorld HistoryStorage.t World}.
Implicit Types (w : World).

(** What the oracle receives from the handler when the world is [w]: the JSON of the
    answer, which is read as a content for a header and as a string for an epoch
    accumulator, or nothing after a panic. *)
Definition rpc_header_network w : HeaderNetwork := {|
  find_header key :=
    match (NetworkRpc.recursive_find_content now now' key false w).1 with
    | Ok (RpcContentInfo content _) => HeaderContent (PossibleHistoryContentValue.serialize content)
    | Ok _ => HeaderBadJson
    | Err _ => HeaderRequestError
    | Panic => HeaderNoResponse
    end;
  find_epoch epoch_hash :=
    match (NetworkRpc.recursive_find_content now now' (HistoryContentKey.EpochAccumulator epoch_hash) false w).1 with
    | Ok (RpcString s) => RpcValue (Some s)
    | Ok _ => RpcValue None
    | Err _ => Accumulator.RpcError
    | Panic => NoResponse
    end;
|}.

(** What the storage or a lookup gives for a key. *)
Definition content_source w (key : HistoryContentKey.t) (c : bytes) : Prop :=
  HistoryStorage.get (w_store w) key = Ok (Some c)
  \/ exists utp t w', w_find_content key false w = (Some (Some c, utp, t), w').

(** Content that passed validation, with some answers of the network, for a key with the id
    of [key]. *)
Definition delivered (key : HistoryContentKey.t) (c : bytes) : Prop :=
  exists key' (HN : HeaderNetwork), replies HN
    /\ HistoryContentKey.content_id key' = HistoryContentKey.content_id key
    /\ ChainHistoryValidator.validate_content oracle key' c = Ok tt.

(** The content given for the key is the valid content of another key with the same id. *)
Definition ids_collide w (key : HistoryContentKey.t) : Prop :=
  exists c key' (HN : HeaderNetwork), content_source w key c /\ replies HN /\ key' <> key
    /\ HistoryContentKey.content_id key' = HistoryContentKey.content_id key
    /\ ChainHistoryValidator.validate_content oracle key' c = Ok tt.

Lemma delivered_valid w key c :
  content_source w key c -> delivered key c ->
  (exists HN : HeaderNetwork, replies HN /\ ChainHistoryValidator.validate_content oracle key c = Ok tt) \/ ids_collide w key.
Proof.
  intros Hc (key' & HN & Hr & Hid & Hv). destruct (decide (key' = key)) as [->|Hne]; [by left; exists HN|].
  right. by exists c, key', HN.
Qed.

(** A header that belongs to a block. *)
Definition header_of (h : H256) (v : HeaderWithProof) : Prop :=
  Header.hash (hwp_header v) = h
  /\ MasterAccumulator.validate_header_with_proof (HeaderOracle.master_acc oracle) v = Ok tt.

Lemma delivered_header w h c :
  content_source w (HistoryContentKey.BlockHeaderWithProof h) c -> delivered (HistoryContentKey.BlockHeaderWithProof h) c ->
  (exists v, hwp_from_ssz c = Ok v /\ header_of h v) \/ ids_collide w (HistoryContentKey.BlockHeaderWithProof h).
Proof.
  intros Hc [(HN & _ & Hv)|]%(delivered_valid w); [left| by right|done].
  apply header_valid_inv in Hv as (v & Hd & Hh & Hp). by exists v.
Qed.

(** What the handler makes of the content of a header. *)
Lemma header_from_json c v p :
  hwp_from_ssz c = Ok v -> PossibleHistoryContentValue.deserialize (hex_encode c) = Ok p ->
  p = PossibleHistoryContentValue.ContentAbsent
  \/ p = PossibleHistoryContentValue.ContentPresent (HistoryContentValue.BlockHeaderWithProof v).
Proof.
  intros Hv. unfold PossibleHistoryContentValue.deserialize. case_decide; [intros [= <-]; by left|].
  unfold HistoryContentValue.deserialize. rewrite hex_decode_encode. simpl.
  unfold HistoryContentValue.try_decoders. rewrite Hv. simpl. intros [= <-]. by right.
Qed.

(** A header that is read back from its JSON form. *)
Lemma header_reread v v' :
  (let? content := map_err (fun _ => OracleError) (PossibleHistoryContentValue.deserialize
     (PossibleHistoryContentValue.serialize
        (PossibleHistoryContentValue.ContentPresent (HistoryContentValue.BlockHeaderWithProof v)))) in
   match content with
   | PossibleHistoryContentValue.ContentPresent (HistoryContentValue.BlockHeaderWithProof content) => Ok content
   | _ => Err OracleError
   end) = Ok v' ->
  hwp_from_ssz (hwp_as_ssz v) = Ok v'.
Proof.
  unfold PossibleHistoryContentValue.deserialize, PossibleHistoryContentValue.serialize.
  unfold HistoryContentValue.serialize. cbn [HistoryContentValue.encode]. case_decide; [done|].
  unfold HistoryContentValue.deserialize. rewrite hex_decode_encode. cbn [map_err].
  unfold HistoryContentValue.try_decoders.
  destruct (hwp_from_ssz (hwp_as_ssz v)) as [v1| |]; cbn; [by intros [= <-]| |done].
  destruct (BlockBody.from_ssz_bytes _) as [b| |]; cbn; [done| |done].
  destruct (Receipts.from_ssz_bytes _) as [rs| |]; cbn; [done| |done].
  by destruct (epoch_acc_from_ssz _).
Qed.

(** The content that the handler turns into an answer. *)
Lemma find_anywhere_source key w b utp t w' :
  NetworkRpc.find_anywhere now now' key false w = (Ok (Some b, utp, t), w') ->
  HistoryStorage.get (w_store w) key = Ok (Some b)
  \/ exists w1, w_find_content key false w = (Some (Some b, utp, t), w1).
Proof.
  assert (Hl : NetworkRpc.on_overlay (OverlayProtocol.lookup_content key false) w = (Ok (Some b, utp, t), w') ->
    exists w1, w_find_content key false w = (Some (Some b, utp, t), w1)).
  { unfold NetworkRpc.on_overlay, OverlayProtocol.lookup_content.
    destruct (w_find_content key false w) as [[[[c u] t0]|] w1]; cbn; intros; simplify_eq. by eexists. }
  unfold NetworkRpc.find_anywhere, NetworkRpc.with_store, bind.
  cbn [store_get oracle_store HistoryStorage.history_content_store].
  destruct (HistoryStorage.get (w_store w) key) as [[c|]| |]; [|by right; auto..|done].
  unfold NetworkRpc.on_overlay. cbn. intros [= -> <- <- <-]. by left.
Qed.

Lemma found_content key w p utp w' :
  NetworkRpc.recursive_find_content now now' key false w = (Ok (RpcContentInfo p utp), w') ->
  exists c, PossibleHistoryContentValue.deserialize (NetworkRpc.content_response_string c) = Ok p
    /\ forall b, c = Some b -> HistoryStorage.get (w_store w) key = Ok (Some b)
         \/ exists t w1, w_find_content key false w = (Some (Some b, utp, t), w1).
Proof.
  unfold NetworkRpc.recursive_find_content, bind.
  destruct (NetworkRpc.find_anywhere now now' key false w) as [[[[c u] t]| |] w1] eqn:Hf; [|done..].
  cbn [negb]. unfold lift. cbn [possible_from_json oracle_content history_content].
  destruct (PossibleHistoryContentValue.deserialize (NetworkRpc.content_response_string c)) as [p'| |] eqn:Hd; [|done..].
  cbn. intros [= -> -> ->]. exists c. split; [done|]. intros b ->.
  apply find_anywhere_source in Hf as [|[w2 Hw]]; [by left|right; eauto].
Qed.

(** A lookup without a trace answers with content. *)
Lemma lookup_answer key w r w' :
  NetworkRpc.recursive_find_content now now' key false w = (Ok r, w') -> exists p utp, r = RpcContentInfo p utp.
Proof.
  unfold NetworkRpc.recursive_find_content, bind.
  destruct (NetworkRpc.find_anywhere _ _ _ _ _) as [[[[c u] t]| |] w1]; [|done..]. cbn [negb]. unfold lift.
  destruct (map_err _ _); [|done..]. intros [= <- _]. eauto.
Qed.

(** The handler answers [RecursiveFindContent] with an object, and the accumulator takes
    strings only: a node finds no epoch accumulator in its own network.  So it never makes
    the proof of a header, and never finds the hash of a block by its number. *)
Theorem own_epochs_unreadable w master header n :
  let HN := rpc_header_network w in
  (forall proof, MasterAccumulator.generate_proof master header find_epoch <> Ok proof)
  /\ (forall h, HeaderOracle.get_hash_at_height oracle n <> Ok h).
Proof.
  assert (Htx : forall h s, @find_epoch (rpc_header_network w) h <> RpcValue (Some s)).
  { intros h s. cbn. destruct (NetworkRpc.recursive_find_content _ _ _ _ _) as [[r| |] w1] eqn:Hr; [|done..].
    destruct (lookup_answer _ _ _ _ Hr) as (p & utp & ->). done. }
  intros HN. split; [by apply MasterAccumulator.no_string_no_proof|]. intros h. unfold HeaderOracle.get_hash_at_height.
  destruct (HeaderOracle.history_jsonrpc_tx oracle); [|done]. intros H%map_err_ok. by eapply MasterAccumulator.no_string_no_hash.
Qed.

(** C7: The headers against which bodies and receipts are validated are headers of their
    blocks.  Suppose that the content which the storage and the lookups of a history node
    deliver for the key of a header has passed validation (for a key with that id).  Then a
    header that its oracle gets through the request handlers is the re-encoded form of a
    header with the block's hash that the accumulator accepts, and it is that header
    itself if its encoding fits into its field; or what was delivered for the key is the
    valid content of another key with the same id. *)
Theorem trusted_header_genuine w h v' :
  (forall c, content_source w (HistoryContentKey.BlockHeaderWithProof h) c ->
     delivered (HistoryContentKey.BlockHeaderWithProof h) c) ->
  HeaderOracle.recursive_find_header_with_proof (HN := rpc_header_network w) oracle h = Ok v' ->
  (exists v, header_of h v /\ hwp_from_ssz (hwp_as_ssz v) = Ok v'
     /\ ((length (Header.encode (hwp_header v)) <= 2048)%nat -> small (hwp_as_ssz v) -> v' = v))
  \/ ids_collide w (HistoryContentKey.BlockHeaderWithProof h).
Proof.
  intros Hsrc. unfold HeaderOracle.recursive_find_header_with_proof.
  destruct (HeaderOracle.history_jsonrpc_tx oracle); [|done]. cbn [find_header rpc_header_network].
  destruct (NetworkRpc.recursive_find_content _ _ _ _ _) as [r w1] eqn:Hr. cbn [fst].
  destruct r as [[| | | |p utp| | | | | | | | | |]| |]; try done.
  apply found_content in Hr as (c & Hd & Hc).
  destruct c as [c|]; [|cbn in Hd; unfold PossibleHistoryContentValue.deserialize in Hd; rewrite decide_True in Hd by done; by injection Hd as <-].
  assert (Hcs : content_source w (HistoryContentKey.BlockHeaderWithProof h) c).
  { destruct (Hc c eq_refl) as [|(t & w2 & Hw)]; [by left|right; eauto]. }
  destruct (delivered_header _ _ _ Hcs (Hsrc _ Hcs)) as [(v & Hv & Hof)|]; [|by right].
  intros H. left. exists v. split; [done|].
  cbn [NetworkRpc.content_response_string] in Hd.
  destruct (header_from_json c v p Hv Hd) as [->| ->]; [done|].
  assert (Hre : hwp_from_ssz (hwp_as_ssz v) = Ok v').
  { by apply header_reread. }
  split; [done|]. intros Hl Hs. rewrite hwp_roundtrip in Hre; [by injection Hre|].
  destruct (hwp_header_typed _ _ Hv). split_and!; [done|done|by eapply hwp_from_ssz_wf|done..].
Qed.
End Oracle.

(** ** The theorem at work *)

#[local] Existing Instances toy_rlp_tree toy_rlp_tree_ok toy_trie toy_hex toy_hex_ok toy_hashes toy_history_ssz
  work_hashing work_epochs work_epoch_encoding toy_sql.

Section AtWork.
#[local] Instance rpc_key : OverlayContentKey | 0 := HistoryContentKey.overlay_key.

(** A world that is a storage. *)
#[local] Instance storage_world {CK : OverlayContentKey} : OverlayWorld (E := toy_enr) (CK := CK) (KB := toy_table) HistoryStorage.t HistoryStorage.t := {|
  w_local_enr _ := ([x00] : @Enr toy_enr);
  w_kbuckets _ := (toy_id x00, []);
  w_set_kbuckets _ w := w;
  w_store w := w;
  w_set_store st _ := st;
  w_find_enr _ _ := None;
  w_discovery_enrs _ := [];
  w_request _ _ w := (None, w);
  w_command _ _ w := w;
  w_find_node _ w := (None, w);
  w_find_content _ _ w := (None, w);
  w_traced_offer _ _ w := (OfferNotSent, w);
  w_utp_read _ _ _ w := (None, w);
|}.

Definition header_key : HistoryContentKey.t := HistoryContentKey.BlockHeaderWithProof trusted_hash.
Definition header_content : bytes := hwp_as_ssz trusted_hwp.

(** The storage after the header was stored. *)
Definition header_storage : HistoryStorage.t :=
  match HistoryStorage.store sample_storage (Ok 0) header_key header_content with
  | Some (st, _) => st
  | None => sample_storage
  end.

Lemma header_stored : HistoryStorage.get header_storage header_key = Ok (Some header_content).
Proof. vm_compute. reflexivity. Qed.

(** The validator is asked nothing for a header. *)
Definition any_network (HN : HeaderNetwork) : Prop := True.

Lemma stored_source (w : HistoryStorage.t) (key : HistoryContentKey.t) c :
  content_source w key c -> HistoryStorage.get w key = Ok (Some c).
Proof. intros [Hc|(utp & t & w' & Hc)]; [exact Hc|discriminate Hc]. Qed.

Lemma header_stored_valid c :
  content_source header_storage header_key c -> delivered work_oracle any_network header_key c.
Proof.
  intros Hc%stored_source. rewrite header_stored in Hc. injection Hc as <-. exists header_key, work_network.
  split_and!; [exact I|reflexivity|]. vm_compute. reflexivity.
Qed.

Lemma header_found :
  HeaderOracle.recursive_find_header_with_proof (HN := rpc_header_network (Ok 0) 0 0 header_storage) work_oracle trusted_hash
  = Ok trusted_hwp.
Proof. vm_compute. reflexivity. Qed.

Lemma trusted_header_genuine_witness :
  HeaderOracle.recursive_find_header_with_proof (HN := rpc_header_network (Ok 0) 0 0 header_storage) work_oracle trusted_hash
    = Ok trusted_hwp
  /\ ((exists v, header_of work_oracle trusted_hash v /\ hwp_from_ssz (hwp_as_ssz v) = Ok trusted_hwp)
      \/ ids_collide work_oracle any_network header_storage header_key).
Proof.
  split; [exact header_found|].
  destruct (trusted_header_genuine work_oracle any_network (Ok 0) 0 0 header_storage trusted_hash trusted_hwp header_stored_valid)
    as [(v & H1 & H2 & _)|H].
  - exact header_found.
  - left. exists v. split; [exact H1|exact H2].
  - right. exact H.
Defined.
End AtWork.
