(* ===== verification/EthRpc.v ===== *)
(** * The Ethereum API: blocks by their hash.

    [rpc/src/eth_rpc.rs] with [rpc/src/fetch.rs], [rpc/src/errors.rs] and the header of a
    reply, from [ethportal-api/src/types/execution/header.rs].  A block is put together from
    the header and the body that the handlers of the history network find. *)

From stdpp Require Import gmap sets.
From S2P Require Import Prelude.
From S2P Require Import Distance.
From S2P Require Import Merkle.
From S2P Require Import Header.
From S2P Require Import Hex.
From S2P Require Import Accumulator.
From S2P Require Import ContentKey.
From S2P Require Import Query.
From S2P Require Import Wire.
From S2P Require Import QueryTrace.
From S2P Require Import ContentStore.
From S2P Require Import HistoryStorage.
From S2P Require Import Overlay.
From S2P Require Import Gossip.
From S2P Require Import OverlayContent.
From S2P Require Import OverlayProtocol.
From S2P Require Import BeaconValue.
From S2P Require Import Transaction.
From S2P Require Import BlockBody.
From S2P Require Import ExecutionTyping.
From S2P Require Import HistoryValidation.
From S2P Require Import HistoryNetwork.
From S2P Require Import NetworkRpc.

(** ** Errors *)

Inductive RpcServeError := RpcMessage | MethodNotFound.

(** The code of the JSON-RPC error. *)
Definition error_code (e : RpcServeError) : Z :=
  match e with RpcMessage => -32099 | MethodNotFound => -32601 end.

(** [Discv5Api], the methods that are not implemented. *)
Inductive Discv5Method := UpdateNodeInfo | AddEnrMethod | GetEnrMethod | DeleteEnrMethod | LookupEnrMethod.
Definition discv5_method (m : Discv5Method) : res RpcServeError unit := Err MethodNotFound.

(** ** The block of a reply *)

Definition u256_to_uint256 (u256 : Z) : Z := be_to_Z (Z_to_be 32 u256).
Definition u64_to_uint256 (val : Z) : Z := be_to_Z (replicate 24 x00 ++ Z_to_be 8 val).

Record RpcHeader := {
  rh_parent_hash : bytes;
  rh_uncles_hash : bytes;
  rh_miner : bytes;
  rh_state_root : bytes;
  rh_transactions_root : bytes;
  rh_receipts_root : bytes;
  rh_logs_bloom : bytes;
  rh_difficulty : Z;
  rh_number : option Z;
  rh_gas_limit : Z;
  rh_gas_used : Z;
  rh_timestamp : Z;
  rh_extra_data : bytes;
  rh_mix_hash : bytes;
  rh_nonce : option bytes;
  rh_base_fee_per_gas : option Z;
  rh_withdrawals_root : option bytes;
  rh_hash : option bytes;
}.

(** [From<Header> for RpcHeader]; the fields of later forks are never there. *)
Definition rpc_header `{RlpLib} (header : Header.t) : RpcHeader := {|
  rh_parent_hash := Header.parent_hash header;
  rh_uncles_hash := Header.uncles_hash header;
  rh_miner := Header.author header;
  rh_state_root := Header.state_root header;
  rh_transactions_root := Header.transactions_root header;
  rh_receipts_root := Header.receipts_root header;
  rh_logs_bloom := Header.logs_bloom header;
  rh_difficulty := u256_to_uint256 (Header.difficulty header);
  rh_number := Some (u64_to_uint256 (Header.number header));
  rh_gas_limit := u256_to_uint256 (Header.gas_limit header);
  rh_gas_used := u256_to_uint256 (Header.gas_used header);
  rh_timestamp := u64_to_uint256 (Header.timestamp header);
  rh_extra_data := Header.extra_data header;
  rh_mix_hash := default (replicate 32 x00) (Header.mix_hash header);
  rh_nonce := Header.nonce header;
  rh_base_fee_per_gas := u256_to_uint256 <$> Header.base_fee_per_gas header;
  rh_withdrawals_root := Header.withdrawals_root header;
  rh_hash := Some (Header.hash header);
|}.

(** [reth_rpc_types::Block], with the hashes of its transactions. *)
Record Block := {
  block_header : RpcHeader;
  block_transactions : list bytes;
  block_uncles : list bytes;
  block_withdrawals : option (list Withdrawal.t);
}.

Definition CHAIN_ID : Z := 1.

Module EthApi.

Section Ops.
Context `{SQ : SqlLib} `{X : HexLib} `{KS : HistoryContentKey.HistoryKeySsz} `{HL : HashLib}.
Context {RL : RlpLib} {TR : RlpTree RL} {VS : VarSsz} {EL : EpochLib} {EE : EpochEncoding}.
Context (disk : res ContentStoreError Z) (now now' : Z).

#[local] Instance eth_key : OverlayContentKey | 0 := HistoryContentKey.overlay_key.
#[local] Instance eth_store : ContentStore HistoryStorage.t | 0 := HistoryStorage.history_content_store disk.
#[local] Instance eth_content : NetworkContent HistoryStorage.t | 0 := history_content.

Context `{E : EnrLib} `{WL : WireLib} `{KB : !KBucketsTable} `{KL : KeyLib bytes} `{V : !Validator}
  `{T : !EnrText} `{R : RandomLib} {World : Type} `{OW : !OverlayWorld HistoryStorage.t World}.
Context (outside : Outside).

Abbreviation M A := (SM World RpcServeError A).

(** The handler answers over a channel, which is closed without an answer if it panics. *)
Definition proxy_query_to_history_subnet (endpoint : Endpoint) : M rpc_value := fun w =>
  match NetworkRpc.complete_request outside now now' [] endpoint w with
  | (Ok result, w) => (Ok result, w)
  | (Err _, w) | (Panic, w) => (Err RpcMessage, w)
  end.

(** The field "content" of the JSON form of the answer, if it is a string. *)
Definition content_field (v : rpc_value) : option bytes :=
  match v with
  | RpcContentInfo content _ | RpcTraceContentInfo content _ _ => Some (PossibleHistoryContentValue.serialize content)
  | RpcContent content _ => Some content
  | _ => None
  end.

Definition find_content_by_hash (content_key : HistoryContentKey.t) : M HistoryContentValue.t :=
  do result <- proxy_query_to_history_subnet (RecursiveFindContent content_key);
  match content_field result with
  | None => lift (Err RpcMessage)
  | Some content =>
      if decide (content = CONTENT_ABSENT) then lift (Err RpcMessage)
      else
        match hex_decode content with
        | Ok content => lift (map_err (fun _ => RpcMessage) (HistoryContentValue.decode content))
        | _ => lift Panic
        end
  end.

Definition find_header_by_hash (block_hash : H256) : M Header.t :=
  do header <- find_content_by_hash (HistoryContentKey.BlockHeaderWithProof block_hash);
  match header with
  | HistoryContentValue.BlockHeaderWithProof h => ret (hwp_header h)
  | _ => lift (Err RpcMessage)
  end.

Definition find_block_body_by_hash (block_hash : H256) : M BlockBody.t :=
  do body <- find_content_by_hash (HistoryContentKey.BlockBody block_hash);
  match body with
  | HistoryContentValue.BlockBody body => ret body
  | _ => lift (Err RpcMessage)
  end.

Definition chain_id : Z := CHAIN_ID.

Definition get_block_by_hash (block_hash : H256) (hydrated_transactions : bool) : M Block :=
  if hydrated_transactions then lift (Err RpcMessage)
  else
    do header <- find_header_by_hash block_hash;
    do body <- find_block_body_by_hash block_hash;
    let transactions := BlockBody.transactions body in
    ret {| block_header := rpc_header header;
           block_transactions := map Transaction.hash transactions;
           block_uncles := [];
           block_withdrawals := None |}.
End Ops.
End EthApi.

(** ** The numbers of a reply *)

Lemma u256_kept x : is_u256 x -> u256_to_uint256 x = x.
Proof. intros Hx. unfold u256_to_uint256. apply be_to_Z_to_be. exact Hx. Qed.

Lemma u64_kept x : 0 <= x < U64_MOD -> u64_to_uint256 x = x.
Proof.
  intros Hx. unfold u64_to_uint256. rewrite be_to_Z_app, be_to_Z_to_be by exact Hx.
  by vm_compute (be_to_Z (replicate 24 x00)).
Qed.

Definition numbers_kept (hd : Header.t) (r : RpcHeader) : Prop :=
  rh_difficulty r = Header.difficulty hd /\ rh_number r = Some (Header.number hd)
  /\ rh_gas_limit r = Header.gas_limit hd /\ rh_gas_used r = Header.gas_used hd
  /\ rh_timestamp r = Header.timestamp hd /\ rh_base_fee_per_gas r = Header.base_fee_per_gas hd.

Lemma rpc_header_numbers `{RlpLib} hd : Header.wf hd -> numbers_kept hd (rpc_header hd).
Proof.
  intros Hw. pose proof (Header.wf_base_fee _ Hw) as Hfee. destruct Hw. unfold numbers_kept, rpc_header.
  cbn [rh_difficulty rh_number rh_gas_limit rh_gas_used rh_timestamp rh_base_fee_per_gas].
  rewrite !u256_kept, !u64_kept by done. split_and!; try done.
  destruct (Header.base_fee_per_gas hd) as [z|]; [|done]. simpl. rewrite u256_kept; [done|]. by apply Hfee.
Qed.

(** ** Blocks are genuine *)

Section Genuine.
Context `{SQ : SqlLib} `{X : HexLib} `{!HexLibOk X} `{KS : HistoryContentKey.HistoryKeySsz} `{HL : HashLib}.
Context {EH : Eth2Hashing} {RL : RlpLib} `{!RlpLibOk RL} `{!RlpTyped RL} {TR : RlpTree RL} `{!RlpTreeOk TR}
  {VS : VarSsz} `{!VarSszOk VS} {TL : TrieLib} {EL : EpochLib} {EE : EpochEncoding}.
Context (oracle : HeaderOracle.t) (replies : HeaderNetwork -> Prop) (disk : res ContentStoreError Z) (now now' : Z).

#[local] Instance block_key : OverlayContentKey | 0 := HistoryContentKey.overlay_key.
#[local] Instance block_store : ContentStore HistoryStorage.t | 0 := HistoryStorage.history_content_store disk.
#[local] Instance block_content : NetworkContent HistoryStorage.t | 0 := history_content.

Context `{E : EnrLib} `{WL : WireLib} `{KB : !KBucketsTable} `{KL : KeyLib bytes} `{V : !Validator}
  `{T : !EnrText} `{R : RandomLib} {World : Type} `{OW : !OverlayWorld HistoryStorage.t World}.
Context (outside : Outside).
Implicit Types (w : World).

(** Content whose value can be encoded again: a header that fits into its field, a body of
    less than 4 GiB. *)
Definition reencodes (c : bytes) : Prop :=
  (forall v, hwp_from_ssz c = Ok v -> (length (Header.encode (hwp_header v)) <= 2048)%nat /\ small (hwp_as_ssz v))
  /\ (forall b, BlockBody.from_ssz_bytes c = Ok b -> ssz_small b).

Definition sound_source w (key : HistoryContentKey.t) : Prop :=
  forall c, content_source w key c -> delivered oracle replies key c /\ reencodes c.

(** The content passes through the JSON of the handler and is decoded twice. *)
Lemma content_twice key w v' w' :
  EthApi.find_content_by_hash disk now now' outside key w = (Ok v', w') ->
  exists c v, content_source w key c
    /\ HistoryContentValue.deserialize (hex_encode c) = Ok v
    /\ HistoryContentValue.decode (HistoryContentValue.encode v) = Ok v'.
Proof.
  unfold EthApi.find_content_by_hash, EthApi.proxy_query_to_history_subnet, bind.
  cbn [NetworkRpc.complete_request].
  destruct (NetworkRpc.recursive_find_content _ _ _ _ _) as [r w1] eqn:Hr. destruct r as [r| |]; [|done..].
  destruct (lookup_answer _ _ _ _ _ _ _ Hr) as (p & utp & ->). apply found_content in Hr as (c & Hd & Hc).
  cbn [EthApi.content_field]. case_decide as Ha; [done|].
  destruct p as [v|]; [|done]. cbn [PossibleHistoryContentValue.serialize].
  unfold HistoryContentValue.serialize. rewrite hex_decode_encode. unfold lift. intros H.
  destruct (HistoryContentValue.decode (HistoryContentValue.encode v)) as [v1| |] eqn:Hv; [|done..].
  injection H as <- <-. unfold PossibleHistoryContentValue.deserialize in Hd. case_decide; [done|].
  destruct c as [c|]; [|done]. exists c, v. split_and!; [|by destruct (HistoryContentValue.deserialize _); simplify_eq/=|done].
  destruct (Hc c eq_refl) as [|(t & w2 & Hw)]; [by left|right; eauto].
Qed.

(** The decoders, read backwards: content that is a header is read as one, content that is
    a body as a body unless it is a header too. *)
Lemma deserialized_header c v0 v :
  hwp_from_ssz c = Ok v0 -> HistoryContentValue.deserialize (hex_encode c) = Ok v ->
  v = HistoryContentValue.BlockHeaderWithProof v0.
Proof.
  unfold HistoryContentValue.deserialize, HistoryContentValue.try_decoders. rewrite hex_decode_encode.
  cbn [map_err]. intros -> [= <-]. done.
Qed.

Lemma deserialized_body c b v :
  BlockBody.from_ssz_bytes c = Ok b -> HistoryContentValue.deserialize (hex_encode c) = Ok v ->
  (exists v0, v = HistoryContentValue.BlockHeaderWithProof v0 /\ hwp_from_ssz c = Ok v0)
  \/ v = HistoryContentValue.BlockBody b.
Proof.
  unfold HistoryContentValue.deserialize, HistoryContentValue.try_decoders. rewrite hex_decode_encode.
  cbn [map_err]. intros ->. destruct (hwp_from_ssz c) as [v1| |]; cbn; intros [= <-]; eauto.
Qed.

Lemma header_again c v v' :
  hwp_from_ssz c = Ok v -> reencodes c ->
  HistoryContentValue.decode (HistoryContentValue.encode (HistoryContentValue.BlockHeaderWithProof v)) = Ok v' ->
  v' = HistoryContentValue.BlockHeaderWithProof v.
Proof.
  intros Hv [[Hl Hs]%(fun H => H v Hv) _]. unfold HistoryContentValue.decode. case_decide; [done|].
  cbn [HistoryContentValue.encode]. unfold HistoryContentValue.try_decoders. rewrite hwp_roundtrip.
  - by intros [= <-].
  - destruct (hwp_header_typed _ _ Hv). split_and!; [done|done|by eapply hwp_from_ssz_wf|done..].
Qed.

Lemma body_again c b v' :
  BlockBody.from_ssz_bytes c = Ok b -> reencodes c ->
  HistoryContentValue.decode (HistoryContentValue.encode (HistoryContentValue.BlockBody b)) = Ok v' ->
  v' = HistoryContentValue.BlockBody b.
Proof.
  intros Hb [_ Hs%(fun H => H b Hb)]. unfold HistoryContentValue.decode. case_decide; [done|].
  cbn [HistoryContentValue.encode]. unfold HistoryContentValue.try_decoders.
  destruct (hwp_rejects_body b Hs) as [e ->]. cbn. rewrite (body_stable c) by done. by intros [= <-].
Qed.

Lemma header_found_genuine h w hd w' :
  sound_source w (HistoryContentKey.BlockHeaderWithProof h) ->
  EthApi.find_header_by_hash disk now now' outside h w = (Ok hd, w') ->
  (exists v, header_of oracle h v /\ hd = hwp_header v /\ uncle_wf hd)
  \/ ids_collide oracle replies w (HistoryContentKey.BlockHeaderWithProof h).
Proof.
  intros Hsrc. unfold EthApi.find_header_by_hash, bind.
  destruct (EthApi.find_content_by_hash _ _ _ _ _ _) as [[v'| |] w1] eqn:Hf; [|done..].
  apply content_twice in Hf as (c & v & Hc & Hj & Hv'). destruct (Hsrc c Hc) as [Hd Hre].
  destruct (delivered_header _ _ _ _ _ Hc Hd) as [(v0 & Hv0 & Hof)|]; [|by right].
  apply (deserialized_header _ v0) in Hj as ->; [|done].
  apply (header_again c) in Hv' as ->; [|done..]. cbn. intros [= <- _]. left. exists v0.
  split_and!; [done..|]. by eapply hwp_header_typed.
Qed.

Lemma body_found_genuine h w b w' :
  sound_source w (HistoryContentKey.BlockBody h) ->
  EthApi.find_block_body_by_hash disk now now' outside h w = (Ok b, w') ->
  (exists HN v, replies HN /\ header_answered HN oracle h = Ok v
     /\ BlockBody.transactions_root b = Ok (Header.transactions_root (hwp_header v)))
  \/ ids_collide oracle replies w (HistoryContentKey.BlockBody h).
Proof.
  intros Hsrc. unfold EthApi.find_block_body_by_hash, bind.
  destruct (EthApi.find_content_by_hash _ _ _ _ _ _) as [[v'| |] w1] eqn:Hf; [|done..].
  apply content_twice in Hf as (c & v & Hc & Hj & Hv'). destruct (Hsrc c Hc) as [Hd Hre].
  destruct (delivered_valid _ _ _ _ _ Hc Hd) as [(HN & Hr & Hval)|]; [|by right].
  apply body_valid_inv in Hval as (b0 & v0 & Hb0 & Ho & _ & Ht).
  destruct v' as [|b'| |]; [done| |done..]. cbn. intros [= -> _]. left. exists HN, v0. split_and!; [done..|].
  destruct (deserialized_body _ _ _ Hb0 Hj) as [(v1 & -> & Hv1)| ->].
  - by apply (header_again c) in Hv'.
  - apply (body_again c) in Hv'; [|done..]. by injection Hv' as ->.
Qed.

(** Two headers, the one of the reply and one that the network answered to the validator of
    the body, are a collision. *)
Definition headers_collide (h : H256) (v : HeaderWithProof) : Prop :=
  exists HN v0, replies HN /\ header_answered HN oracle h = Ok v0
    /\ collides keccak [(Header.encode (hwp_header v), Header.encode (hwp_header v0))].

(** C22: A block that the Ethereum API returns is a block of the chain.  Suppose that the
    content the storage and the lookups give for the header and the body of a block has
    passed validation and can be encoded again, and that whatever header the network
    answers to the validator of the body has the block's hash.  Then the reply has the
    header with that hash which the accumulator accepts, its numbers unchanged, and neither
    uncles nor withdrawals; its transactions are those that this header commits to, unless
    the header and one that the network answered are a collision of Keccak.  The only other
    case is that what was given for the key of the header, or of the body, is the valid
    content of another key with the same id. *)
Theorem eth_block_genuine w h block w' :
  let w1 := (EthApi.find_header_by_hash disk now now' outside h w).2 in
  sound_source w (HistoryContentKey.BlockHeaderWithProof h) ->
  sound_source w1 (HistoryContentKey.BlockBody h) ->
  (forall HN, replies HN -> answers_block HN oracle h) ->
  EthApi.get_block_by_hash disk now now' outside h false w = (Ok block, w') ->
  (exists v b, header_of oracle h v
     /\ block_header block = rpc_header (hwp_header v) /\ rh_hash (block_header block) = Some h
     /\ numbers_kept (hwp_header v) (block_header block)
     /\ block_transactions block = map Transaction.hash (BlockBody.transactions b)
     /\ block_uncles block = [] /\ block_withdrawals block = None
     /\ (BlockBody.transactions_root b = Ok (Header.transactions_root (hwp_header v)) \/ headers_collide h v))
  \/ ids_collide oracle replies w (HistoryContentKey.BlockHeaderWithProof h)
  \/ ids_collide oracle replies w1 (HistoryContentKey.BlockBody h).
Proof.
  intros w1 Hs Hs' Ho. subst w1. unfold EthApi.get_block_by_hash, bind.
  destruct (EthApi.find_header_by_hash _ _ _ _ _ _) as [[hd| |] w1] eqn:Hh; [|done..]. cbn [snd] in *.
  destruct (EthApi.find_block_body_by_hash _ _ _ _ _ _) as [[b| |] w2] eqn:Hb; [|done..]. cbn. intros [= <- _].
  apply header_found_genuine in Hh as [(v & Hof & -> & Hty)|]; [|by auto|done].
  apply body_found_genuine in Hb as [(HN & v0 & Hr & Hv0 & Hroot)|]; [left|by auto|done].
  exists v, b. cbn [block_header]. split_and!; [done|done|cbn; f_equal; apply Hof|apply rpc_header_numbers, Hty|done..|].
  destruct (same_header (hwp_header v) (hwp_header v0)) as [Heq|Hc]; [done|by eapply found_header_typed| | |].
  - rewrite (Ho _ Hr _ Hv0). apply Hof.
  - left. by rewrite Heq.
  - right. by exists HN, v0.
Qed.
End Genuine.

(** ** The theorem at work *)

#[local] Existing Instances toy_rlp_tree toy_rlp_tree_ok toy_trie toy_hex toy_hex_ok toy_hashes toy_history_ssz
  work_hashing work_epochs work_epoch_encoding toy_sql storage_world.

Section AtWork.
(** Ids that tell the keys of a header and of a body apart. *)
#[local] Instance prefix_hashes : HashLib | 0 := {|
  sha256 b := take 32 (b ++ replicate 32 x00); keccak256 b := take 32 (b ++ replicate 32 x00) |}.

#[local] Instance eth_work_key : OverlayContentKey | 0 := HistoryContentKey.overlay_key.
#[local] Instance eth_validator : Validator | 0 := history_validator work_oracle.

(** A node that has stored the header and the body of a block. *)
Definition stored_in (st : HistoryStorage.t) (key : HistoryContentKey.t) (c : bytes) : HistoryStorage.t :=
  match HistoryStorage.store st (Ok 0) key c with Some (st, _) => st | None => st end.

Definition block_storage : HistoryStorage.t :=
  stored_in (stored_in (HistoryStorage.mk (replicate 32 x00) 100000 Distance_MAX [] ProtocolId.History)
               header_key header_content) body_key body_content.

Definition the_network (HN : HeaderNetwork) : Prop := HN = work_network.

Lemma block_stored_sound w (key : HistoryContentKey.t) c0 :
  HistoryStorage.get w key = Ok (Some c0) ->
  ChainHistoryValidator.validate_content (HN := work_network) work_oracle key c0 = Ok tt -> reencodes c0 ->
  sound_source work_oracle the_network (OW := storage_world) w key.
Proof.
  intros Hg Hv Hr c [Hc|(utp & t & w' & Hc)]; [|discriminate Hc]. cbn [w_store storage_world] in Hc.
  rewrite Hg in Hc. injection Hc as <-. split; [|exact Hr].
  exists key, work_network. split_and!; [reflexivity..|exact Hv].
Qed.

Lemma header_reencodes : reencodes header_content.
Proof.
  assert (Hh : hwp_from_ssz header_content = Ok trusted_hwp) by (vm_compute; reflexivity).
  assert (Hb : forall b, BlockBody.from_ssz_bytes header_content <> Ok b) by (intros b; vm_compute; discriminate).
  unfold reencodes. split; [|intros b E; destruct (Hb b E)]. intros v. rewrite Hh. intros [= <-]. split.
  - apply Nat.leb_le. vm_compute. reflexivity.
  - vm_compute. reflexivity.
Qed.

Lemma body_reencodes : reencodes body_content.
Proof.
  assert (Hb : BlockBody.from_ssz_bytes body_content = Ok sample_body) by (vm_compute; reflexivity).
  assert (Hh : forall v, hwp_from_ssz body_content <> Ok v) by (intros v; vm_compute; discriminate).
  unfold reencodes. split; [intros v E; destruct (Hh v E)|]. intros b. rewrite Hb. intros [= <-].
  split; [|repeat constructor]; vm_compute; reflexivity.
Qed.

Definition served : res RpcServeError Block * HistoryStorage.t :=
  EthApi.get_block_by_hash (Ok 0) 0 0 work_network trusted_hash false block_storage.

Definition served_block : Block :=
  {| block_header := rpc_header trusted_header; block_transactions := map Transaction.hash (BlockBody.transactions sample_body);
     block_uncles := []; block_withdrawals := None |}.

Lemma eth_block_genuine_witness :
  served.1 = Ok served_block
  /\ ((exists v b, header_of work_oracle trusted_hash v
        /\ block_transactions served_block = map Transaction.hash (BlockBody.transactions b)
        /\ (BlockBody.transactions_root b = Ok (Header.transactions_root (hwp_header v))
            \/ headers_collide work_oracle the_network trusted_hash v))
      \/ ids_collide work_oracle the_network block_storage header_key
      \/ ids_collide work_oracle the_network block_storage body_key).
Proof.
  assert (E : served.1 = Ok served_block) by (vm_compute; reflexivity).
  split; [exact E|].
  assert (Ew : (EthApi.find_header_by_hash (Ok 0) 0 0 work_network trusted_hash block_storage).2 = block_storage)
    by (vm_compute; reflexivity).
  destruct (eth_block_genuine (V := eth_validator) work_oracle the_network (Ok 0) 0 0 work_network block_storage trusted_hash served_block served.2)
    as [(v & b & H1 & _ & _ & _ & H3 & _ & _ & H2)|[H|H]].
  - apply (block_stored_sound _ _ header_content); [vm_compute; reflexivity|vm_compute; reflexivity|exact header_reencodes].
  - apply (block_stored_sound _ _ body_content); [vm_compute; reflexivity|vm_compute; reflexivity|exact body_reencodes].
  - intros HN -> v Hv. apply (f_equal (fun r => match r with Ok v => Header.hash (hwp_header v) | _ => [] end)) in Hv.
    rewrite <- Hv. vm_compute. reflexivity.
  - rewrite <- E. unfold served. apply surjective_pairing.
  - left. exists v, b. split; [exact H1|]. split; [exact H3|exact H2].
  - right. left. exact H.
  - right. right. rewrite <- Ew. exact H.
Defined.
End AtWork.
