(* ===== verification/NetworkApi.v ===== *)
(** * The JSON-RPC methods of the networks

    Models [rpc/src/history_rpc.rs] and [beacon_rpc.rs]: a method sends its arguments as an
    endpoint to the network and reads the JSON of the answer as the type that it returns, with
    [from_value] of [serde.rs].  The codecs of both networks for content are [ContentJson];
    values of other types are read as they were written, if they are of the type. *)

From stdpp Require Import gmap sets.
From S2P Require Import Prelude.
From S2P Require Import Distance.
From S2P Require Import Merkle.
From S2P Require Import Header.
From S2P Require Import Hex.
From S2P Require Import Accumulator.
From S2P Require Import ContentKey.
From S2P Require Import Query.
From S2P Require Import Wire.
From S2P Require Import QueryTrace.
From S2P Require Import ContentStore.
From S2P Require Import HistoryStorage.
From S2P Require Import Overlay.
From S2P Require Import Gossip.
From S2P Require Import OverlayContent.
From S2P Require Import OverlayProtocol.
From S2P Require Import BeaconValue.
From S2P Require Import BeaconStorage.
From S2P Require Import Transaction.
From S2P Require Import BlockBody.
From S2P Require Import HistoryValidation.
From S2P Require Import NetworkRpc.
From S2P Require Import EthRpc.

(** The JSON of content values, and of content that may be absent. *)
Class ContentJson (St : Type) `{NC : NetworkContent St} := {
  possible_to_json : Possible -> bytes;
  value_from_json : bytes -> res BeaconContentValue.json_error Value;
  content_present : Value -> Possible;
  content_absent : Possible;
}.

(** [ContentInfo]. *)
Inductive ContentInfo `{E : EnrLib} {St} `{NC : NetworkContent St} :=
| InfoConnectionId (id : Z)
| InfoContent (content : Possible) (utp_transfer : bool)
| InfoEnrs (enrs : list Enr).

Module NetworkApi.
Section Ops.
Context `{E : EnrLib} `{WL : WireLib} `{CK : OverlayContentKey} `{X : HexLib} `{KB : !KBucketsTable} `{KL : KeyLib bytes}
  {St World : Type} `{CS : !ContentStore St} `{NC : !NetworkContent St} `{CJ : !ContentJson St} `{V : !Validator}
  `{T : !EnrText} `{R : RandomLib} `{OW : !OverlayWorld St World}.

(** The handler of the network. *)
Context (handler : Endpoint -> SM World RpcError rpc_value).

Abbreviation M A := (SM World RpcServeError A).

Definition proxy_query (endpoint : Endpoint) : M rpc_value := fun w =>
  match handler endpoint w with
  | (Ok result, w) => (Ok result, w)
  | (Err _, w) | (Panic, w) => (Err RpcMessage, w)
  end.

(** *** Reading answers *)

Definition as_bool (v : rpc_value) : res RpcServeError bool :=
  match v with RpcBool b => Ok b | _ => Err RpcMessage end.
Definition as_u32 (v : rpc_value) : res RpcServeError Z :=
  match v with RpcNumber n => if (0 <=? n) && (n <? U32_MOD) then Ok n else Err RpcMessage | _ => Err RpcMessage end.
Definition as_radius (v : rpc_value) : res RpcServeError Z :=
  match v with RpcNumber n => Ok n | _ => Err RpcMessage end.
Definition as_enr (v : rpc_value) : res RpcServeError Enr :=
  match v with RpcEnr enr => ok_or (enr_from_str (to_base64 enr)) RpcMessage | _ => Err RpcMessage end.
Definition as_enrs (v : rpc_value) : res RpcServeError (list Enr) :=
  match v with
  | RpcEnrs enrs => res_all (fun enr => ok_or (enr_from_str (to_base64 enr)) RpcMessage) enrs
  | _ => Err RpcMessage
  end.
Definition as_pong (v : rpc_value) : res RpcServeError (Z * Z) :=
  match v with RpcPong enr_seq data_radius => Ok (enr_seq, data_radius) | _ => Err RpcMessage end.
Definition as_table (v : rpc_value) : res RpcServeError (bytes * kb) :=
  match v with RpcRoutingTable local_node_id buckets => Ok (local_node_id, buckets) | _ => Err RpcMessage end.
Definition as_possible (s : bytes) : res RpcServeError Possible := map_err (fun _ => RpcMessage) (possible_from_json s).
Definition as_content_info (v : rpc_value) : res RpcServeError ContentInfo :=
  match v with
  | RpcContentInfo content utp_transfer =>
      let? content := as_possible (possible_to_json content) in Ok (InfoContent content utp_transfer)
  | RpcContent content utp_transfer => let? content := as_possible content in Ok (InfoContent content utp_transfer)
  | RpcContentEnrs enrs => let? enrs := as_enrs (RpcEnrs enrs) in Ok (InfoEnrs enrs)
  | _ => Err RpcMessage
  end.
Definition as_trace_info (v : rpc_value) : res RpcServeError (Possible * bool * QueryTrace.t) :=
  match v with
  | RpcTraceContentInfo content utp_transfer trace =>
      let? content := as_possible (possible_to_json content) in Ok (content, utp_transfer, trace)
  | _ => Err RpcMessage
  end.
Definition as_page (v : rpc_value) : res RpcServeError Page :=
  match v with RpcPage p => Ok p | _ => Err RpcMessage end.
Definition as_gossip (v : rpc_value) : res RpcServeError GossipResult :=
  match v with RpcGossip g => Ok g | _ => Err RpcMessage end.
Definition as_accept (v : rpc_value) : res RpcServeError (list bool) :=
  match v with RpcAccept content_keys => Ok content_keys | _ => Err RpcMessage end.

(** [result == "0x"]. *)
Definition is_absent (v : rpc_value) : bool :=
  match v with RpcString s => bool_decide (s = CONTENT_ABSENT) | _ => false end.

(** *** The methods *)

Definition forward {A} (endpoint : Endpoint) (from_value : rpc_value -> res RpcServeError A) : M A :=
  do result <- proxy_query endpoint;
  lift (from_value result).

Definition routing_table_info : M (bytes * kb) := forward RoutingTableInfo as_table.
Definition radius : M Z := forward DataRadius as_radius.
Definition add_enr (enr : Enr) : M bool := forward (AddEnr enr) as_bool.
Definition get_enr (node_id : bytes) : M Enr := forward (GetEnr node_id) as_enr.
Definition delete_enr (node_id : bytes) : M bool := forward (DeleteEnr node_id) as_bool.
Definition lookup_enr (node_id : bytes) : M Enr := forward (LookupEnr node_id) as_enr.
Definition ping (enr : Enr) : M (Z * Z) := forward (PingNode enr) as_pong.
Definition find_nodes (enr : Enr) (distances : list Z) : M (list Enr) := forward (FindNodesFrom enr distances) as_enrs.
Definition recursive_find_nodes (node_id : bytes) : M (list Enr) := forward (RecursiveFindNodes node_id) as_enrs.
Definition find_content (enr : Enr) (content_key : ContentKey) : M ContentInfo :=
  forward (FindContentFrom enr content_key) as_content_info.
Definition recursive_find_content (content_key : ContentKey) : M ContentInfo :=
  do result <- proxy_query (RecursiveFindContent content_key);
  if is_absent result then ret (InfoContent content_absent false) else lift (as_content_info result).
Definition trace_recursive_find_content (content_key : ContentKey) : M (Possible * bool * QueryTrace.t) :=
  forward (TraceRecursiveFindContent content_key) as_trace_info.
Definition paginate_local_content_keys (offset limit : Z) : M Page := forward (PaginateLocalContentKeys offset limit) as_page.
Definition gossip (content_key : ContentKey) (content_value : Value) : M Z :=
  forward (GossipContent content_key content_value) as_u32.
Definition trace_gossip (content_key : ContentKey) (content_value : Value) : M GossipResult :=
  forward (TraceGossip content_key content_value) as_gossip.
Definition offer (enr : Enr) (content_key : ContentKey) (content_value : option Value) : M (list bool) :=
  forward (OfferTo enr content_key content_value) as_accept.
Definition store (content_key : ContentKey) (content_value : Value) : M bool :=
  forward (StoreContent content_key content_value) as_bool.
Definition local_content (content_key : ContentKey) : M Possible :=
  do result <- proxy_query (LocalContent content_key);
  if is_absent result then ret content_absent
  else
    match result with
    | RpcString s => lift (let? v := map_err (fun _ => RpcMessage) (value_from_json s) in Ok (content_present v))
    | _ => lift (Err RpcMessage)
    end.
End Ops.

(** ** Answers are of the type that is read *)

Section Shapes.
Context `{E : EnrLib} `{WL : WireLib} `{CK : OverlayContentKey} `{X : HexLib} `{KB : !KBucketsTable} `{KL : KeyLib bytes}
  {St World : Type} `{CS : !ContentStore St} `{NC : !NetworkContent St} `{CJ : !ContentJson St} `{V : !Validator}
  `{T : !EnrText} `{!EnrTextOk} `{R : RandomLib} `{OW : !OverlayWorld St World}.
Context (outside : Outside) (now now' : Z) (order : list bytes).

Abbreviation handler := (NetworkRpc.complete_request outside now now' order (OW := OW)).

(** Whenever the network answers, the method returns what [P] relates to the answer. *)
Definition returns {A} (m : SM World RpcServeError A) (e : Endpoint) (P : rpc_value -> A -> Prop) : Prop :=
  forall w r w', handler e w = (Ok r, w') -> exists a, m w = (Ok a, w') /\ P r a.

Lemma forward_returns {A} e (from_value : rpc_value -> res RpcServeError A) (P : rpc_value -> A -> Prop) :
  (forall w r w', handler e w = (Ok r, w') -> exists a, from_value r = Ok a /\ P r a) ->
  returns (forward handler e from_value) e P.
Proof.
  intros Hf w r w' Hr. destruct (Hf w r w' Hr) as (a & Ha & HP). exists a. split; [|done].
  unfold forward, proxy_query, bind, lift. by rewrite Hr, Ha.
Qed.

(** Without an answer, the method fails. *)
Lemma forward_fails {A} e (from_value : rpc_value -> res RpcServeError A) w :
  (forall r, (handler e w).1 <> Ok r) -> (forward handler e from_value w).1 = Err RpcMessage.
Proof.
  intros Hr. unfold forward, proxy_query, bind. destruct (handler e w) as [[r| |] w']; [by destruct (Hr r)|done..].
Qed.

Lemma on_overlay_then {A} (m : SM World OverlayRequestError A) (f : A -> rpc_value) w r w' :
  bind (NetworkRpc.on_overlay m) (fun a => ret (f a)) w = (Ok r, w') -> exists a, r = f a.
Proof. unfold bind, NetworkRpc.on_overlay. destruct (m w) as [[a| |] w1]; cbn; intros [= <- _]; eauto. Qed.

Lemma records_read (l : list Enr) :
  res_all (fun enr => ok_or (enr_from_str (to_base64 enr)) RpcMessage) l = Ok l.
Proof. induction l as [|e l IH]; cbn; [done|]. rewrite from_str_to_base64. cbn. by rewrite IH. Qed.

(** The methods read every answer of the handlers as the type that they return: records,
    flags, radii, tables, responses and pages are returned as the handler gave them, and the
    error of a storage, which is answered as a text, is an error of the method. *)
Theorem methods_read_answers :
  (forall enr, returns (add_enr handler enr) (AddEnr enr) (fun r b => r = RpcBool b))
  /\ (forall id, returns (delete_enr handler id) (DeleteEnr id) (fun r b => r = RpcBool b))
  /\ (forall id, returns (get_enr handler id) (GetEnr id) (fun r e => r = RpcEnr e))
  /\ (forall id, returns (lookup_enr handler id) (LookupEnr id) (fun r e => r = RpcEnr e))
  /\ (forall enr, returns (ping handler enr) (PingNode enr) (fun r a => r = RpcPong a.1 a.2))
  /\ (forall enr ds, returns (find_nodes handler enr ds) (FindNodesFrom enr ds) (fun r l => r = RpcEnrs l))
  /\ (forall id, returns (recursive_find_nodes handler id) (RecursiveFindNodes id) (fun r l => r = RpcEnrs l))
  /\ returns (radius handler) DataRadius (fun r d => r = RpcNumber d)
  /\ returns (routing_table_info handler) RoutingTableInfo (fun r a => r = RpcRoutingTable a.1 a.2)
  /\ (forall offset limit, returns (paginate_local_content_keys handler offset limit)
        (PaginateLocalContentKeys offset limit) (fun r p => r = RpcPage p))
  /\ (forall key v, returns (trace_gossip handler key v) (TraceGossip key v) (fun r g => r = RpcGossip g))
  /\ (forall enr key v, returns (offer handler enr key v) (OfferTo enr key v) (fun r l => r = RpcAccept l))
  /\ (forall key v w r w', handler (StoreContent key v) w = (Ok r, w') ->
        r = RpcBool true /\ store handler key v w = (Ok true, w')
        \/ exists e, r = RpcStoreError e /\ store handler key v w = (Err RpcMessage, w')).
Proof.
  split_and!.
  - intros enr. apply forward_returns. intros w r w' (a & ->)%on_overlay_then. by exists true.
  - intros id. apply forward_returns. intros w r w' (b & ->)%on_overlay_then. by exists b.
  - intros id. apply forward_returns. intros w r w' (e & ->)%on_overlay_then. exists e. cbn. by rewrite from_str_to_base64.
  - intros id. apply forward_returns. intros w r w' (e & ->)%on_overlay_then. exists e. cbn. by rewrite from_str_to_base64.
  - intros enr. apply forward_returns. cbn [NetworkRpc.complete_request]. unfold NetworkRpc.ping, bind, NetworkRpc.on_overlay.
    intros w r w'. destruct (OverlayProtocol.send_ping enr w) as [[p| |] w1]; cbn; [|done..].
    destruct (CustomPayload.to_distance _) as [d|[]|]; [|done]. intros [= <- _]. by eexists (_, _).
  - intros enr ds. apply forward_returns. intros w r w' (l & ->)%on_overlay_then. eexists. cbn. by rewrite records_read.
  - intros id. apply forward_returns. intros w r w' (l & ->)%on_overlay_then. eexists. cbn. by rewrite records_read.
  - apply forward_returns. intros w r w' (d & ->)%on_overlay_then. by exists d.
  - apply forward_returns. cbn [NetworkRpc.complete_request]. unfold bind at 1, NetworkRpc.on_overlay.
    intros w r w'. destruct (OverlayProtocol.local_enr w) as [[l| |] w1]; cbn; [|done..]. intros [= <- _]. by eexists (_, _).
  - intros offset limit. apply forward_returns. cbn [NetworkRpc.complete_request]. intros w r w'.
    unfold NetworkRpc.paginate_local_content_keys, NetworkRpc.with_store, bind.
    destruct (store_paginate _ _ _) as [p| |]; cbn; [|done..]. intros [= <- _]. by exists p.
  - intros key v. apply forward_returns. intros w r w' (g & ->)%on_overlay_then. by exists g.
  - intros enr key v. apply forward_returns. cbn [NetworkRpc.complete_request]. unfold NetworkRpc.offer.
    destruct v; intros w r w' (l & ->)%on_overlay_then; by eexists.
  - intros key v w r w' Hr. unfold store, forward, proxy_query, bind, lift. rewrite Hr. revert Hr.
    cbn [NetworkRpc.complete_request]. unfold NetworkRpc.store.
    destruct (store_put _ _ _) as [st [x|e|]]; intros [= <- _]; eauto.
Qed.
End Shapes.
End NetworkApi.

(** ** Content of the history network *)

Section HistoryApi.
Context `{SQ : SqlLib} `{X : HexLib} `{!HexLibOk X} `{KS : HistoryContentKey.HistoryKeySsz} `{HL : HashLib}.
Context {RL : RlpLib} `{!RlpLibOk RL} `{!RlpTyped RL} {TR : RlpTree RL} `{!RlpTreeOk TR} {VS : VarSsz} `{!VarSszOk VS}
  {EL : EpochLib} {EE : EpochEncoding}.
Context (disk : res ContentStoreError Z) (now now' : Z) (order : list bytes).

#[local] Instance api_key : OverlayContentKey | 0 := HistoryContentKey.overlay_key.
#[local] Instance api_store : ContentStore HistoryStorage.t | 0 := HistoryStorage.history_content_store disk.
#[local] Instance api_content : NetworkContent HistoryStorage.t | 0 := history_content.

#[local] Instance history_json : ContentJson HistoryStorage.t | 0 := {|
  possible_to_json := PossibleHistoryContentValue.serialize : Possible -> bytes;
  value_from_json := HistoryContentValue.deserialize : bytes -> res _ Value;
  content_present := PossibleHistoryContentValue.ContentPresent : Value -> Possible;
  content_absent := PossibleHistoryContentValue.ContentAbsent : Possible;
|}.

Context `{E : EnrLib} `{WL : WireLib} `{KB : !KBucketsTable} `{KL : KeyLib bytes} `{V : !Validator}
  `{T : !EnrText} `{R : RandomLib} {World : Type} `{OW : !OverlayWorld HistoryStorage.t World}.
Context (outside : Outside).
Implicit Types (w : World).

Abbreviation handler := (NetworkRpc.complete_request outside now now' order (OW := OW)).

(** The local content of a key is the value that was stored for it. *)
Theorem local_content_value w (key : HistoryContentKey.t) v :
  value_ok v -> HistoryContentValue.encode v <> [] ->
  HistoryStorage.get (w_store w) key = Ok (Some (HistoryContentValue.encode v)) ->
  NetworkApi.local_content handler key w = (Ok (PossibleHistoryContentValue.ContentPresent (value_read v) : Possible), w).
Proof.
  intros Hv Hne Hg. unfold NetworkApi.local_content, NetworkApi.proxy_query, bind.
  cbn [NetworkRpc.complete_request]. unfold NetworkRpc.local_content, NetworkRpc.with_store, bind.
  cbn [store_get api_store HistoryStorage.history_content_store]. rewrite Hg. cbn [ret lift NetworkRpc.content_response_string].
  unfold NetworkApi.is_absent. rewrite bool_decide_eq_false_2.
  - cbn [lift value_from_json history_json]. unfold HistoryContentValue.deserialize, lift. rewrite hex_decode_encode. cbn [map_err].
    by rewrite history_decoders.
  - unfold CONTENT_ABSENT, hex_encode. intros E'. apply (f_equal length) in E'. rewrite length_app, hex_digits_length in E'.
    destruct (HistoryContentValue.encode v); [done|simpl in E'; lia].
Qed.
End HistoryApi.

(** ** The methods of the beacon network *)

Module BeaconNetworkApi.
Section Ops.
Context `{E : EnrLib} `{WL : WireLib} `{HL : HashLib} `{U : U64Ssz} `{X : HexLib} `{KB : !KBucketsTable} `{KL : KeyLib bytes}
  `{S : BeaconSsz} `{T : !EnrText} `{R : RandomLib} {World : Type}.
#[local] Instance beacon_api_key : OverlayContentKey | 0 := BeaconContentKey.overlay_key.
#[local] Instance beacon_api_content : NetworkContent BeaconStorage.t | 0 := beacon_content.
#[local] Instance beacon_json : ContentJson BeaconStorage.t | 0 := {|
  possible_to_json := PossibleBeaconContentValue.serialize : Possible -> bytes;
  value_from_json := BeaconContentValue.deserialize : bytes -> res _ Value;
  content_present := PossibleBeaconContentValue.ContentPresent : Value -> Possible;
  content_absent := PossibleBeaconContentValue.ContentAbsent : Possible;
|}.
Context `{CS : !ContentStore BeaconStorage.t} `{V : !Validator} `{OW : !OverlayWorld BeaconStorage.t World}.
Context (outside : Outside) (now now' : Z) (order : list bytes).

Abbreviation M A := (SM World RpcServeError A).
Abbreviation handler := (BeaconRpc.complete_request outside now now' order (OW := OW)).

Definition proxy_query_to_beacon_subnet : Endpoint -> M rpc_value := NetworkApi.proxy_query handler.
Definition routing_table_info : M (bytes * kb) := NetworkApi.routing_table_info handler.
Definition radius : M Z := NetworkApi.radius handler.
Definition add_enr : Enr -> M bool := NetworkApi.add_enr handler.
Definition get_enr : bytes -> M Enr := NetworkApi.get_enr handler.
Definition delete_enr : bytes -> M bool := NetworkApi.delete_enr handler.
Definition lookup_enr : bytes -> M Enr := NetworkApi.lookup_enr handler.
Definition ping : Enr -> M (Z * Z) := NetworkApi.ping handler.
Definition find_nodes : Enr -> list Z -> M (list Enr) := NetworkApi.find_nodes handler.
Definition recursive_find_nodes : bytes -> M (list Enr) := NetworkApi.recursive_find_nodes handler.
Definition find_content : Enr -> BeaconContentKey.t -> M ContentInfo := NetworkApi.find_content handler.
Definition recursive_find_content : BeaconContentKey.t -> M ContentInfo := NetworkApi.recursive_find_content handler.
Definition trace_recursive_find_content : BeaconContentKey.t -> M (PossibleBeaconContentValue.t * bool * QueryTrace.t) :=
  NetworkApi.trace_recursive_find_content handler.
Definition paginate_local_content_keys : Z -> Z -> M Page := NetworkApi.paginate_local_content_keys handler.
Definition gossip : BeaconContentKey.t -> BeaconContentValue.t -> M Z := NetworkApi.gossip handler.
Definition trace_gossip : BeaconContentKey.t -> BeaconContentValue.t -> M GossipResult := NetworkApi.trace_gossip handler.
Definition offer : Enr -> BeaconContentKey.t -> option BeaconContentValue.t -> M (list bool) := NetworkApi.offer handler.
Definition store : BeaconContentKey.t -> BeaconContentValue.t -> M bool := NetworkApi.store handler.
Definition local_content : BeaconContentKey.t -> M PossibleBeaconContentValue.t := NetworkApi.local_content handler.
End Ops.
End BeaconNetworkApi.
