(* ===== verification/RpcServer.v ===== *)
(** * The JSON-RPC servers

    Models [rpc/src/builder.rs], which methods are served over which transport,
    [rpc/src/rpc_server.rs] and [cors.rs], the servers for HTTP, WebSocket and IPC, the errors
    of [errors.rs], [launch_jsonrpc_server] of [rpc/src/lib.rs], and the part of [run_trin] in
    [src/lib.rs] that starts the networks and the server.  Sets of methods are those of the
    crate [jsonrpsee], by the class [RpcMethods]; binding addresses is [ServerHost]. *)

From Stdlib Require Import String.
From stdpp Require Import gmap sets.
From S2P Require Import Prelude.
From S2P Require Import Query.
From S2P Require Import Wire.
From S2P Require Import Gossip.
From S2P Require Import Config.
From S2P Require Import Discovery.

#[local] Open Scope list_scope.

(** ** Modules *)

Module PortalRpcModule.
Inductive t := Beacon | Discv5 | Eth | History | Web3.

#[global] Instance module_eq : EqDecision t.
Proof. solve_decision. Defined.

Definition to_nat (m : t) : nat :=
  match m with Beacon => 0 | Discv5 => 1 | Eth => 2 | History => 3 | Web3 => 4 end.
Definition of_nat (n : nat) : option t :=
  match n with
  | 0 => Some Beacon | 1 => Some Discv5 | 2 => Some Eth | 3 => Some History | 4 => Some Web3
  | _ => None
  end%nat.

#[global] Program Instance module_countable : Countable t := inj_countable to_nat of_nat _.
Next Obligation. by intros []. Qed.

Definition VARIANTS : list bytes := map ProtocolId.str ["beacon"; "discv5"; "eth"; "history"; "web3"]%string.

Definition from_str (s : bytes) : option t :=
  if decide (s = ProtocolId.str "beacon") then Some Beacon
  else if decide (s = ProtocolId.str "discv5") then Some Discv5
  else if decide (s = ProtocolId.str "eth") then Some Eth
  else if decide (s = ProtocolId.str "history") then Some History
  else if decide (s = ProtocolId.str "web3") then Some Web3
  else None.

Definition methods_of (namespace : string) (names : list string) : list string :=
  map (fun n => namespace ++ "_" ++ n)%string names.

(** The methods that the traits of the APIs declare. *)
Definition network_methods (network : string) : list string :=
  methods_of "portal" (map (fun n => network ++ n)%string
    ["RoutingTableInfo"; "Radius"; "AddEnr"; "GetEnr"; "DeleteEnr"; "LookupEnr"; "Ping"; "FindNodes";
     "RecursiveFindNodes"; "FindContent"; "RecursiveFindContent"; "TraceRecursiveFindContent";
     "PaginateLocalContentKeys"; "Gossip"; "TraceGossip"; "Offer"; "Store"; "LocalContent"]%string).
Definition history_methods : list string := network_methods "history".
Definition beacon_methods : list string := network_methods "beacon".
Definition discv5_methods : list string :=
  methods_of "discv5" ["nodeInfo"; "updateNodeInfo"; "routingTableInfo"; "addEnr"; "getEnr"; "deleteEnr"; "lookupEnr"]%string.
Definition eth_methods : list string := methods_of "eth" ["chainId"; "getBlockByHash"]%string.
Definition web3_methods : list string := methods_of "web3" ["clientVersion"]%string.

Definition api_methods (m : t) : list string :=
  match m with
  | Beacon => beacon_methods
  | Discv5 => discv5_methods
  | Eth => eth_methods
  | History => history_methods
  | Web3 => web3_methods
  end.
End PortalRpcModule.

(** The implementations of the traits, with the channels they send to. *)
Inductive Api :=
| Discv5Api
| EthApi (history_tx : Z)
| HistoryNetworkApi (history_tx : Z)
| BeaconNetworkApi (beacon_tx : Z)
| Web3Api.

Definition api_module (a : Api) : PortalRpcModule.t :=
  match a with
  | Discv5Api => PortalRpcModule.Discv5
  | EthApi _ => PortalRpcModule.Eth
  | HistoryNetworkApi _ => PortalRpcModule.History
  | BeaconNetworkApi _ => PortalRpcModule.Beacon
  | Web3Api => PortalRpcModule.Web3
  end.

(** Sets of methods: [RpcModule::new], [merge] and [into_rpc] of [jsonrpsee]; what a method
    does is the API that a call of it reaches. *)
Class RpcMethods := {
  Methods : Type;
  no_methods : Methods;
  merge : Methods -> Methods -> option Methods;
  into_rpc : Api -> Methods;
  call : Methods -> string -> option Api;
}.

(** Merging fails if a method is there already; otherwise both sets are there.  The methods of
    an API are those that its trait declares. *)
Class RpcMethodsOk (M : RpcMethods) : Prop := {
  call_none n : call no_methods n = None;
  call_into_rpc a n : call (into_rpc a) n = if decide (n ∈ PortalRpcModule.api_methods (api_module a)) then Some a else None;
  merge_spec a b :
    match merge a b with
    | Some c => (forall n, call a n = None \/ call b n = None)
        /\ forall n, call c n = match call a n with Some x => Some x | None => call b n end
    | None => exists n, is_Some (call a n) /\ is_Some (call b n)
    end;
}.

Module RpcModuleSelection.
Inductive t := All | Standard | Selection (l : list PortalRpcModule.t).

Definition STANDARD_MODULES : list PortalRpcModule.t :=
  [PortalRpcModule.Beacon; PortalRpcModule.Discv5; PortalRpcModule.Eth; PortalRpcModule.History; PortalRpcModule.Web3].

Definition try_from_selection (selection : list bytes) : option t :=
  match mapM PortalRpcModule.from_str selection with Some l => Some (Selection l) | None => None end.

Definition is_empty (self : t) : bool := match self with Selection [] => true | _ => false end.

(** [expect] for the selection of all modules. *)
Definition all_modules : res Empty_set (list PortalRpcModule.t) :=
  match try_from_selection PortalRpcModule.VARIANTS with
  | Some (Selection l) => Ok l
  | Some Standard => Ok STANDARD_MODULES
  | _ => Panic
  end.

Definition into_selection (self : t) : res Empty_set (list PortalRpcModule.t) :=
  match self with
  | All => all_modules
  | Selection s => Ok s
  | Standard => Ok STANDARD_MODULES
  end.

Definition iter_selection (self : t) : res Empty_set (list PortalRpcModule.t) :=
  match self with
  | All => all_modules
  | Standard => Ok STANDARD_MODULES
  | Selection s => Ok s
  end.

Definition are_identical (http ws : option t) : res Empty_set bool :=
  match http, ws with
  | Some http, Some ws =>
      let? http := iter_selection http in
      let? ws := iter_selection ws in
      Ok (bool_decide (list_to_set http =@{gset PortalRpcModule.t} list_to_set ws))
  | Some http, None => Ok (is_empty http)
  | None, Some ws => Ok (is_empty ws)
  | None, None => Ok true
  end.
End RpcModuleSelection.

Inductive WsHttpSamePortError :=
| ConflictingCorsDomains (http_cors_domains ws_cors_domains : option (list Z))
| ConflictingModules (http_modules ws_modules : list PortalRpcModule.t).

Module TransportRpcModuleConfig.
Record t := mk { http : option RpcModuleSelection.t; ws : option RpcModuleSelection.t; ipc : option RpcModuleSelection.t }.

Definition default : t := mk None None None.
Definition with_http (self : t) (s : RpcModuleSelection.t) : t := mk (Some s) (ws self) (ipc self).
Definition with_ws (self : t) (s : RpcModuleSelection.t) : t := mk (http self) (Some s) (ipc self).
Definition with_ipc (self : t) (s : RpcModuleSelection.t) : t := mk (http self) (ws self) (Some s).

Definition is_empty (self : t) : bool :=
  match http self, ws self, ipc self with None, None, None => true | _, _, _ => false end.

(** The modules of a transport, none without a selection. *)
Definition selected (s : option RpcModuleSelection.t) : res Empty_set (list PortalRpcModule.t) :=
  match s with Some s => RpcModuleSelection.into_selection s | None => Ok [] end.

Definition ensure_ws_http_identical (self : t) : res WsHttpSamePortError unit :=
  match RpcModuleSelection.are_identical (http self) (ws self) with
  | Ok true => Ok tt
  | Ok false =>
      match selected (http self), selected (ws self) with
      | Ok http_modules, Ok ws_modules => Err (ConflictingModules http_modules ws_modules)
      | _, _ => Panic
      end
  | _ => Panic
  end.
End TransportRpcModuleConfig.

(** ** Installing the methods *)

Module RpcModuleBuilder.
Section Ops.
Context `{J : RpcMethods}.

Record t := mk {
  modules : gmap PortalRpcModule.t Methods;
  history_tx : option Z;
  beacon_tx : option Z;
  state_tx : option Z;
}.

Definition new : t := mk ∅ None None None.
Definition maybe_with_history (self : t) tx : t := mk (modules self) tx (beacon_tx self) (state_tx self).
Definition maybe_with_beacon (self : t) tx : t := mk (modules self) (history_tx self) tx (state_tx self).
Definition maybe_with_state (self : t) tx : t := mk (modules self) (history_tx self) (beacon_tx self) tx.

(** A network that is not there is a panic. *)
Definition api_for (self : t) (namespace : PortalRpcModule.t) : res Empty_set Api :=
  match namespace with
  | PortalRpcModule.Discv5 => Ok Discv5Api
  | PortalRpcModule.Eth => match history_tx self with Some tx => Ok (EthApi tx) | None => Panic end
  | PortalRpcModule.History => match history_tx self with Some tx => Ok (HistoryNetworkApi tx) | None => Panic end
  | PortalRpcModule.Beacon => match beacon_tx self with Some tx => Ok (BeaconNetworkApi tx) | None => Panic end
  | PortalRpcModule.Web3 => Ok Web3Api
  end.

Fixpoint portal_methods (self : t) (namespaces : list PortalRpcModule.t) : res Empty_set (t * list Methods) :=
  match namespaces with
  | [] => Ok (self, [])
  | namespace :: namespaces =>
      let? e :=
        match modules self !! namespace with
        | Some methods => Ok (self, methods)
        | None =>
            let? api := api_for self namespace in
            Ok (mk (<[namespace := into_rpc api]> (modules self)) (history_tx self) (beacon_tx self) (state_tx self),
                into_rpc api)
        end in
      let? r := portal_methods e.1 namespaces in
      Ok (r.1, e.2 :: r.2)
  end.

(** Methods that are there already are a panic. *)
Fixpoint merge_all (module : Methods) (all_methods : list Methods) : res Empty_set Methods :=
  match all_methods with
  | [] => Ok module
  | methods :: all_methods =>
      match merge module methods with Some module => merge_all module all_methods | None => Panic end
  end.

Definition module_for (self : t) (config : RpcModuleSelection.t) : res Empty_set (t * Methods) :=
  let? selection := RpcModuleSelection.iter_selection config in
  let? r := portal_methods self selection in
  let? module := merge_all no_methods r.2 in
  Ok (r.1, module).

Definition maybe_module (self : t) (config : option RpcModuleSelection.t) : res Empty_set (t * option Methods) :=
  match config with
  | None => Ok (self, None)
  | Some config => let? r := module_for self config in Ok (r.1, Some r.2)
  end.

(** [TransportRpcModules]. *)
Record TransportRpcModules := mk_modules {
  config : TransportRpcModuleConfig.t;
  http : option Methods;
  ws : option Methods;
  ipc : option Methods;
}.

Definition build (self : t) (module_config : TransportRpcModuleConfig.t) : res Empty_set TransportRpcModules :=
  if TransportRpcModuleConfig.is_empty module_config then Ok (mk_modules TransportRpcModuleConfig.default None None None)
  else
    let? h := maybe_module self (TransportRpcModuleConfig.http module_config) in
    let? w := maybe_module h.1 (TransportRpcModuleConfig.ws module_config) in
    let? i := maybe_module w.1 (TransportRpcModuleConfig.ipc module_config) in
    Ok (mk_modules module_config h.2 w.2 i.2).
End Ops.
End RpcModuleBuilder.

(** ** Cross-origin requests *)

Module Cors.

(** Text is a list of Unicode scalar values; [trim] removes white space at both ends. *)
Definition is_whitespace (c : Z) : bool :=
  ((9 <=? c) && (c <=? 13)) || (c =? 32) || (c =? 0x85) || (c =? 0xa0) || (c =? 0x1680)
  || ((0x2000 <=? c) && (c <=? 0x200a)) || (c =? 0x2028) || (c =? 0x2029) || (c =? 0x202f) || (c =? 0x205f) || (c =? 0x3000).

Fixpoint trim_start (s : list Z) : list Z :=
  match s with
  | [] => []
  | c :: s' => if is_whitespace c then trim_start s' else s
  end.
Definition trim (s : list Z) : list Z := reverse (trim_start (reverse (trim_start s))).

Fixpoint split (sep : Z) (s : list Z) : list (list Z) :=
  match s with
  | [] => [[]]
  | c :: s =>
      if c =? sep then [] :: split sep s
      else match split sep s with part :: parts => (c :: part) :: parts | [] => [[c]] end
  end.

Definition STAR : list Z := [42].

Inductive CorsDomainError := InvalidHeader (domain : list Z) | WildCardNotAllowed (input : list Z).

(** The origins that are allowed; methods and headers are the same in both cases. *)
Inductive CorsLayer := AnyOrigin | Origins (l : list (list Z)).

(** [header_value]: the text is a value of a header. *)
Definition create_cors_layer (header_value : list Z -> bool) (http_cors_domains : list Z)
    : res CorsDomainError CorsLayer :=
  if decide (trim http_cors_domains = STAR) then Ok AnyOrigin
  else
    let domains := split 44 http_cors_domains in
    if decide (STAR ∈ domains) then Err (WildCardNotAllowed http_cors_domains)
    else
      let? origins := res_all (fun domain => if header_value domain then Ok domain else Err (InvalidHeader domain)) domains in
      Ok (Origins origins).
End Cors.

(** ** The servers *)

#[global] Instance socket_addr_eq : EqDecision SocketAddr.
Proof. solve_decision. Defined.

(** [SocketAddr::V4(SocketAddrV4::new(Ipv4Addr::UNSPECIFIED, port))]. *)
Definition unspecified (port : Z) : SocketAddr := {| ip := V4 0; port := port |}.

Inductive ServerKind := KHttp (a : SocketAddr) | KWS (a : SocketAddr) | KWsHttp (a : SocketAddr).

(** What a [ServerBuilder] is restricted to. *)
Inductive ServerBuilder := Unrestricted | HttpOnly | WsOnly.

Inductive JsonRpseeError := Transport (addr_in_use : bool) | OtherJsonRpsee.

Inductive ServerError :=
| RpcErrorOf (e : JsonRpseeError)
| AddressAlreadyInUse (kind : ServerKind)
| SamePort (e : WsHttpSamePortError)
| CustomCors (e : Cors.CorsDomainError)
| IpcFailed.

Definition from_jsonrpsee_error (err : JsonRpseeError) (kind : ServerKind) : ServerError :=
  match err with
  | Transport true => AddressAlreadyInUse kind
  | Transport false => RpcErrorOf (Transport false)
  | OtherJsonRpsee => RpcErrorOf OtherJsonRpsee
  end.

(** A server that is bound to an address, and one that serves methods. *)
Record Server := { srv_builder : ServerBuilder; srv_cors : option Cors.CorsLayer; srv_addr : SocketAddr }.

Record ServerHandle `{J : RpcMethods} := { h_server : Server; h_module : Methods }.

Record IpcHandle `{J : RpcMethods} := { ipc_path : bytes; ipc_module : Methods }.

(** The operating system: binding an address gives the local one, which may be asked for in
    vain; IPC; and the values of headers. *)
Class ServerHost (W : Type) := {
  bind_addr : ServerBuilder -> option Cors.CorsLayer -> SocketAddr -> W -> (JsonRpseeError + SocketAddr) * W;
  local_addr_fails : SocketAddr -> W -> bool;
  ipc_build : bytes -> bool;
  ipc_start : bytes -> W -> bool * W;
  header_value : list Z -> bool;
}.

Module WsHttpServerKind.
Section Ops.
Context {W : Type} `{H : ServerHost W}.

Definition build (builder : ServerBuilder) (socket_addr : SocketAddr) (cors_domains : option (list Z))
    (server_kind : ServerKind) : SM W ServerError (Server * SocketAddr) :=
  do cors <- lift (match cors_domains with
                   | Some domains => let? c := map_err CustomCors (Cors.create_cors_layer header_value domains) in Ok (Some c)
                   | None => Ok None
                   end);
  fun w =>
    match bind_addr builder cors socket_addr w with
    | (inr addr, w) =>
        if local_addr_fails addr w then (Err (RpcErrorOf OtherJsonRpsee), w)
        else (Ok ({| srv_builder := builder; srv_cors := cors; srv_addr := addr |}, addr), w)
    | (inl err, w) => (Err (from_jsonrpsee_error err server_kind), w)
    end.

Definition start `{J : RpcMethods} (self : Server) (module : Methods) : ServerHandle :=
  {| h_server := self; h_module := module |}.
End Ops.
End WsHttpServerKind.

Inductive WsHttpServers :=
| OnSamePort (both : Server)
| DifferentPort (http ws : option Server).

Record WsHttpServer := mk_ws_http {
  http_local_addr : option SocketAddr;
  ws_local_addr : option SocketAddr;
  server : WsHttpServers;
}.

Module WsHttp.
Section Ops.
Context `{J : RpcMethods}.

Definition start (self : WsHttpServers) (http_module ws_module : option Methods) (config : TransportRpcModuleConfig.t)
    : res ServerError (option ServerHandle * option ServerHandle) :=
  match self with
  | OnSamePort both =>
      let? _ := map_err SamePort (TransportRpcModuleConfig.ensure_ws_http_identical config) in
      match match http_module with Some m => Some m | None => ws_module end with
      | Some module => let handle := WsHttpServerKind.start both module in Ok (Some handle, Some handle)
      | None => Ok (None, None)
      end
  | DifferentPort http ws =>
      let run s m :=
        match s, m with Some server, Some module => Some (WsHttpServerKind.start server module) | _, _ => None end in
      Ok (run http http_module, run ws ws_module)
  end.
End Ops.
End WsHttp.

Module RpcServerConfig.
Section Ops.
Context {W : Type} `{H : ServerHost W} `{J : RpcMethods}.

Record t := mk {
  http_server_config : option ServerBuilder;
  http_cors_domains : option (list Z);
  http_addr : option SocketAddr;
  ws_server_config : option ServerBuilder;
  ws_cors_domains : option (list Z);
  ws_addr : option SocketAddr;
  ipc_server_config : bool;
  ipc_endpoint : option bytes;
}.

Definition default : t := mk None None None None None None false None.

Definition with_http (self : t) (config : ServerBuilder) : t :=
  mk (Some config) (http_cors_domains self) (http_addr self) (ws_server_config self) (ws_cors_domains self) (ws_addr self)
    (ipc_server_config self) (ipc_endpoint self).
Definition with_http_cors (self : t) (cors_domain : option (list Z)) : t :=
  mk (http_server_config self) cors_domain (http_addr self) (ws_server_config self) (ws_cors_domains self) (ws_addr self)
    (ipc_server_config self) (ipc_endpoint self).
Definition with_http_address (self : t) (addr : SocketAddr) : t :=
  mk (http_server_config self) (http_cors_domains self) (Some addr) (ws_server_config self) (ws_cors_domains self) (ws_addr self)
    (ipc_server_config self) (ipc_endpoint self).
Definition with_ws (self : t) (config : ServerBuilder) : t :=
  mk (http_server_config self) (http_cors_domains self) (http_addr self) (Some config) (ws_cors_domains self) (ws_addr self)
    (ipc_server_config self) (ipc_endpoint self).
Definition with_ws_cors (self : t) (cors_domain : option (list Z)) : t :=
  mk (http_server_config self) (http_cors_domains self) (http_addr self) (ws_server_config self) cors_domain (ws_addr self)
    (ipc_server_config self) (ipc_endpoint self).
Definition with_cors (self : t) (cors_domain : option (list Z)) : t :=
  with_ws_cors (with_http_cors self cors_domain) cors_domain.
Definition with_ws_address (self : t) (addr : SocketAddr) : t :=
  mk (http_server_config self) (http_cors_domains self) (http_addr self) (ws_server_config self) (ws_cors_domains self) (Some addr)
    (ipc_server_config self) (ipc_endpoint self).
Definition with_ipc (self : t) : t :=
  mk (http_server_config self) (http_cors_domains self) (http_addr self) (ws_server_config self) (ws_cors_domains self) (ws_addr self)
    true (ipc_endpoint self).
Definition with_ipc_endpoint (self : t) (path : bytes) : t :=
  mk (http_server_config self) (http_cors_domains self) (http_addr self) (ws_server_config self) (ws_cors_domains self) (ws_addr self)
    (ipc_server_config self) (Some path).

Definition has_server (self : t) : bool :=
  match http_server_config self, ws_server_config self, ipc_server_config self with None, None, false => false | _, _, _ => true end.

(** The domains of a server for both. *)
Definition common_cors (ws_cors http_cors : option (list Z)) : res ServerError (option (list Z)) :=
  match ws_cors, http_cors with
  | Some ws_cors, Some http_cors =>
      if decide (Cors.trim ws_cors = Cors.trim http_cors) then Ok (Some ws_cors)
      else Err (SamePort (ConflictingCorsDomains (Some http_cors) (Some ws_cors)))
  | None, Some cors => Ok (Some cors)
  | Some cors, None => Ok (Some cors)
  | None, None => Ok None
  end.

(** One of the servers, if it is configured; [restricted] is its builder with [ws_only] or
    [http_only]. *)
Definition build_one (config : option ServerBuilder) (restricted : ServerBuilder) (addr : SocketAddr)
    (cors : option (list Z)) (kind : ServerKind) : SM W ServerError (option SocketAddr * option Server) :=
  match config with
  | Some _ => do (server, addr) <- WsHttpServerKind.build restricted addr cors kind; ret (Some addr, Some server)
  | None => ret (None, None)
  end.

Definition http_socket_addr (self : t) : SocketAddr :=
  match http_addr self with Some a => a | None => unspecified DEFAULT_WEB3_HTTP_PORT end.
Definition ws_socket_addr (self : t) : SocketAddr :=
  match ws_addr self with Some a => a | None => unspecified DEFAULT_WEB3_WS_PORT end.

Definition build_ws_http (self : t) : SM W ServerError WsHttpServer :=
  match bool_decide (http_addr self = ws_addr self), http_server_config self, ws_server_config self with
  | true, Some builder, Some _ =>
      do cors <- lift (common_cors (ws_cors_domains self) (http_cors_domains self));
      do (server, addr) <- WsHttpServerKind.build builder (http_socket_addr self) cors (KWsHttp (http_socket_addr self));
      ret (mk_ws_http (Some addr) (Some addr) (OnSamePort server))
  | _, http_config, ws_config =>
      do ws <- build_one ws_config WsOnly (ws_socket_addr self) (ws_cors_domains self) (KWS (ws_socket_addr self));
      do http <- build_one http_config HttpOnly (http_socket_addr self) (http_cors_domains self) (KHttp (http_socket_addr self));
      ret (mk_ws_http http.1 ws.1 (DifferentPort http.2 ws.2))
  end.

(** [RpcServer]: the servers, and the endpoint of the IPC server. *)
Record RpcServer := { ws_http : WsHttpServer; ipc_server : option bytes }.

Definition build (self : t) : SM W ServerError RpcServer :=
  do ws_http <- build_ws_http self;
  if ipc_server_config self then
    let path := match ipc_endpoint self with Some p => p | None => DEFAULT_WEB3_IPC_PATH end in
    if ipc_build path then ret {| ws_http := ws_http; ipc_server := Some path |} else lift (Err IpcFailed)
  else ret {| ws_http := ws_http; ipc_server := None |}.

(** [RpcServerHandle]. *)
Record RpcServerHandle := mk_handle {
  handle_http_addr : option SocketAddr;
  handle_ws_addr : option SocketAddr;
  handle_http : option ServerHandle;
  handle_ws : option ServerHandle;
  handle_ipc : option IpcHandle;
}.

(** [RpcServer::start]. *)
Definition start_server (self : RpcServer) (modules : RpcModuleBuilder.TransportRpcModules) : SM W ServerError RpcServerHandle :=
  let ws_http := ws_http self in
  do (http, ws) <- lift (WsHttp.start (server ws_http) (RpcModuleBuilder.http modules) (RpcModuleBuilder.ws modules)
                           (RpcModuleBuilder.config modules));
  match ipc_server self, RpcModuleBuilder.ipc modules with
  | Some path, Some module => fun w =>
      match ipc_start path w with
      | (true, w) =>
          (Ok (mk_handle (http_local_addr ws_http) (ws_local_addr ws_http) http ws
                 (Some {| ipc_path := path; ipc_module := module |})), w)
      | (false, w) => (Err IpcFailed, w)
      end
  | _, _ => ret (mk_handle (http_local_addr ws_http) (ws_local_addr ws_http) http ws None)
  end.

Definition start (self : t) (modules : RpcModuleBuilder.TransportRpcModules) : SM W ServerError RpcServerHandle :=
  do server <- build self;
  start_server server modules.
End Ops.
End RpcServerConfig.

(** ** Launching *)

Definition HISTORY_NETWORK : bytes := ProtocolId.str "history".
Definition STATE_NETWORK : bytes := ProtocolId.str "state".
Definition BEACON_NETWORK : bytes := ProtocolId.str "beacon".

(** [socket_addrs] of URLs, and whether a path is text. *)
Class AddressText `{U : UrlLib} := {
  socket_addrs : Url -> option (list SocketAddr);
  path_text : bytes -> bool;
}.

Section Launch.
Context {W : Type} `{H : ServerHost W} `{J : RpcMethods} `{A : AddressText} `{T : EnrText}.

(** The modules of the networks; another name is a panic. *)
Fixpoint network_modules (networks : list bytes) : res Empty_set (list PortalRpcModule.t) :=
  match networks with
  | [] => Ok []
  | network :: networks =>
      let? here :=
        if decide (network = HISTORY_NETWORK) then Ok [PortalRpcModule.History; PortalRpcModule.Eth]
        else if decide (network = STATE_NETWORK) then Ok []
        else if decide (network = BEACON_NETWORK) then Ok [PortalRpcModule.Beacon]
        else Panic in
      let? rest := network_modules networks in
      Ok (here ++ rest)
  end.

Definition expect {E A} (r : res Empty_set A) : res E A :=
  match r with Ok a => Ok a | Err e => match e with end | Panic => Panic end.

Definition launch_jsonrpc_server (config : TrinConfig.t) (history_handler state_handler beacon_handler : option Z)
    : SM W ServerError RpcServerConfig.RpcServerHandle :=
  do networks <- lift (expect (network_modules (TrinConfig.networks config)));
  let modules := RpcModuleSelection.Selection ([PortalRpcModule.Discv5; PortalRpcModule.Web3] ++ networks) in
  let builder :=
    RpcModuleBuilder.maybe_with_state (RpcModuleBuilder.maybe_with_beacon
      (RpcModuleBuilder.maybe_with_history RpcModuleBuilder.new history_handler) beacon_handler) state_handler in
  match TrinConfig.web3_transport config with
  | IPC =>
      let transport := TransportRpcModuleConfig.with_ipc TransportRpcModuleConfig.default modules in
      do transport_modules <- lift (expect (RpcModuleBuilder.build builder transport));
      if path_text (TrinConfig.web3_ipc_path config) then
        RpcServerConfig.start (RpcServerConfig.with_ipc
          (RpcServerConfig.with_ipc_endpoint RpcServerConfig.default (TrinConfig.web3_ipc_path config))) transport_modules
      else lift Panic
  | HTTP =>
      let transport :=
        if TrinConfig.ws config then TransportRpcModuleConfig.with_ws TransportRpcModuleConfig.default modules
        else TransportRpcModuleConfig.default in
      let transport := TransportRpcModuleConfig.with_http transport modules in
      do transport_modules <- lift (expect (RpcModuleBuilder.build builder transport));
      match socket_addrs (TrinConfig.web3_http_address config) with
      | Some (addr :: _) =>
          let rpc_server_config :=
            RpcServerConfig.with_http (RpcServerConfig.with_http_address RpcServerConfig.default addr) Unrestricted in
          let rpc_server_config :=
            if TrinConfig.ws config then
              RpcServerConfig.with_ws (RpcServerConfig.with_ws_address rpc_server_config
                (unspecified (TrinConfig.ws_port config))) Unrestricted
            else rpc_server_config in
          RpcServerConfig.start rpc_server_config transport_modules
      | _ => lift Panic
      end
  end.

Inductive RunError := NetworkFailed | ServerFailed (e : ServerError).

(** Starting a network, which may fail or panic, gives the channel [tx] for its requests. *)
Definition start_network (init : SM W RunError unit) (tx : Z) (name : bytes) (networks : list bytes)
    : SM W RunError (option Z) :=
  if decide (name ∈ networks) then do _ <- init; ret (Some tx) else ret None.

(** The networks and the servers in [run_trin]. *)
Definition run_trin (init_state init_beacon init_history : SM W RunError unit) (state_tx beacon_tx history_tx : Z)
    (config : TrinConfig.t) : SM W RunError RpcServerConfig.RpcServerHandle :=
  do state_jsonrpc_tx <- start_network init_state state_tx STATE_NETWORK (TrinConfig.networks config);
  do beacon_jsonrpc_tx <- start_network init_beacon beacon_tx BEACON_NETWORK (TrinConfig.networks config);
  do history_jsonrpc_tx <- start_network init_history history_tx HISTORY_NETWORK (TrinConfig.networks config);
  fun w =>
    let '(r, w) := launch_jsonrpc_server config history_jsonrpc_tx state_jsonrpc_tx beacon_jsonrpc_tx w in
    (map_err ServerFailed r, w).
End Launch.

(** ** What is served *)

(** No method is declared twice. *)
Lemma methods_distinct m m' n :
  n ∈ PortalRpcModule.api_methods m -> n ∈ PortalRpcModule.api_methods m' -> m = m'.
Proof.
  intros H1 H2. destruct (decide (m = m')) as [|Hne]; [done|exfalso].
  assert (Hd : Forall (fun x => x ∉ PortalRpcModule.api_methods m') (PortalRpcModule.api_methods m)).
  { apply (bool_decide_eq_true _). destruct m, m'; try done; vm_compute; reflexivity. }
  by apply (proj1 (Forall_forall _ _) Hd n H1).
Qed.

Section Served.
Context `{J : RpcMethods} `{!RpcMethodsOk J}.
Implicit Types (self : RpcModuleBuilder.t) (apis : list Api).

(** The API that answers a method. *)
Definition answering apis (n : string) : option Api :=
  List.find (fun a => bool_decide (n ∈ PortalRpcModule.api_methods (api_module a))) apis.

Lemma answering_module apis n a : answering apis n = Some a -> a ∈ apis /\ n ∈ PortalRpcModule.api_methods (api_module a).
Proof.
  intros Hf. apply List.find_some in Hf as [Hin Hn%bool_decide_eq_true]. split; [by apply list_elem_of_In|done].
Qed.

Lemma answering_none apis n : answering apis n = None -> forall a, a ∈ apis -> n ∉ PortalRpcModule.api_methods (api_module a).
Proof.
  intros Hf a Ha Hn. apply list_elem_of_In in Ha. pose proof (List.find_none _ _ Hf a Ha) as Hb. cbv beta in Hb.
  by apply bool_decide_eq_false in Hb.
Qed.

(** APIs of different modules are merged without a conflict. *)
Lemma merge_all_distinct apis : forall module,
  NoDup (api_module <$> apis) ->
  (forall n a, is_Some (call module n) -> a ∈ apis -> n ∉ PortalRpcModule.api_methods (api_module a)) ->
  exists c, RpcModuleBuilder.merge_all module (into_rpc <$> apis) = Ok c
    /\ forall n, call c n = match call module n with Some x => Some x | None => answering apis n end.
Proof.
  induction apis as [|a apis IH]; intros module Hnd Hdis; cbn [fmap list_fmap RpcModuleBuilder.merge_all].
  { exists module. split; [done|]. intros n. by destruct (call module n). }
  apply NoDup_cons in Hnd as [Hna Hnd]. pose proof (merge_spec module (into_rpc a)) as Hm.
  destruct (merge module (into_rpc a)) as [c|].
  - destruct Hm as [_ Hc].
    assert (Hcn : forall n, call c n = match call module n with Some x => Some x | None =>
              if decide (n ∈ PortalRpcModule.api_methods (api_module a)) then Some a else None end).
    { intros n. by rewrite Hc, call_into_rpc. }
    destruct (IH c Hnd) as (c' & Hm' & Hc').
    { intros n b Hs Hb Hn. rewrite Hcn in Hs. destruct (call module n) eqn:Hcm.
      - apply (Hdis n b); [by rewrite Hcm|by right|done].
      - destruct (decide _) as [Ha|]; [|by destruct Hs]. apply Hna. rewrite (methods_distinct _ _ _ Ha Hn).
        by apply list_elem_of_fmap_2. }
    exists c'. split; [done|]. intros n. rewrite Hc', Hcn. destruct (call module n); [done|].
    unfold answering. cbn [List.find]. case_decide; case_bool_decide; done.
  - destruct Hm as (n & Hs & [x Hx]). rewrite call_into_rpc in Hx. case_decide as Hn; [|done].
    exfalso. apply (Hdis n a); [done|by left|done].
Qed.

(** An API whose methods are there already is a conflict. *)
Lemma merge_all_conflict apis a : forall module,
  (forall n, n ∈ PortalRpcModule.api_methods (api_module a) -> is_Some (call module n)) ->
  a ∈ apis -> RpcModuleBuilder.merge_all module (into_rpc <$> apis) = Panic.
Proof.
  induction apis as [|b apis IH]; intros module Hs Ha; [by apply elem_of_nil in Ha|].
  cbn [fmap list_fmap RpcModuleBuilder.merge_all].
  pose proof (merge_spec module (into_rpc b)) as Hm. destruct (merge module (into_rpc b)) as [c|]; [|done].
  destruct Hm as [Hd Hc]. apply elem_of_cons in Ha as [->|Ha].
  - assert (exists n, n ∈ PortalRpcModule.api_methods (api_module b)) as [n Hn].
    { destruct (api_module b); eexists; apply list_elem_of_In; by left. }
    destruct (Hs n Hn) as [x Hx]. destruct (Hd n) as [E|E]; [congruence|]. rewrite call_into_rpc in E.
    by rewrite decide_True in E.
  - apply IH; [|done]. intros n Hn. destruct (Hs n Hn) as [x Hx]. rewrite Hc, Hx. by exists x.
Qed.

Lemma merge_all_twice p a q : forall module,
  a ∈ q -> RpcModuleBuilder.merge_all module (into_rpc <$> (p ++ a :: q)) = Panic.
Proof.
  induction p as [|b p IH]; intros module Ha; cbn [app fmap list_fmap RpcModuleBuilder.merge_all].
  - pose proof (merge_spec module (into_rpc a)) as Hm. destruct (merge module (into_rpc a)) as [c|]; [|done].
    apply (merge_all_conflict q a); [|done]. intros n Hn. destruct Hm as [_ ->].
    destruct (call module n); [by eexists|]. rewrite call_into_rpc, decide_True by done. by eexists.
  - destruct (merge module (into_rpc b)); [by apply IH|done].
Qed.

(** The methods that the builder keeps are those of its APIs. *)
Definition kept_apis self : Prop :=
  forall m methods, RpcModuleBuilder.modules self !! m = Some methods ->
    exists a, RpcModuleBuilder.api_for self m = Ok a /\ methods = into_rpc a.

Lemma portal_methods_apis l apis : forall self,
  kept_apis self -> Forall2 (fun m a => RpcModuleBuilder.api_for self m = Ok a) l apis ->
  exists self', RpcModuleBuilder.portal_methods self l = Ok (self', into_rpc <$> apis)
    /\ kept_apis self' /\ forall m, RpcModuleBuilder.api_for self' m = RpcModuleBuilder.api_for self m.
Proof.
  revert apis. induction l as [|m l IH]; intros apis self Hk Hl.
  { apply Forall2_nil_inv_l in Hl as ->. by exists self. }
  apply Forall2_cons_inv_l in Hl as (a & apis' & Ha & Hl & ->). cbn [RpcModuleBuilder.portal_methods fmap list_fmap].
  destruct (RpcModuleBuilder.modules self !! m) as [methods|] eqn:Hm.
  - destruct (Hk _ _ Hm) as (a' & Ha' & ->). rewrite Ha in Ha'. injection Ha' as <-. cbn [fst snd].
    destruct (IH apis' self Hk Hl) as (self' & -> & ? & ?). exists self'. by split_and!.
  - rewrite Ha. cbn [fst snd].
    set (self1 := RpcModuleBuilder.mk _ _ _ _).
    assert (Hsame : forall m, RpcModuleBuilder.api_for self1 m = RpcModuleBuilder.api_for self m) by by intros [].
    destruct (IH apis' self1) as (self' & -> & Hk' & Heq).
    + intros m' methods Hm'. rewrite Hsame. subst self1. cbn in Hm'. apply lookup_insert_Some in Hm' as [[<- <-]|[_ Hm']]; eauto.
    + eapply Forall2_impl; [exact Hl|]. intros ? ? <-. by rewrite Hsame.
    + exists self'. split_and!; [done|done|]. intros m'. by rewrite Heq.
Qed.

(** A selection of different modules whose networks are there is installed. *)
Lemma module_for_served self l apis :
  kept_apis self -> NoDup l -> Forall2 (fun m a => RpcModuleBuilder.api_for self m = Ok a) l apis ->
  exists self' c, RpcModuleBuilder.module_for self (RpcModuleSelection.Selection l) = Ok (self', c)
    /\ (forall n, call c n = answering apis n)
    /\ kept_apis self' /\ forall m, RpcModuleBuilder.api_for self' m = RpcModuleBuilder.api_for self m.
Proof.
  intros Hk Hnd Hl. unfold RpcModuleBuilder.module_for. cbn [RpcModuleSelection.iter_selection].
  destruct (portal_methods_apis l apis self Hk Hl) as (self' & -> & Hk' & Heq). cbn [snd].
  destruct (merge_all_distinct apis no_methods) as (c & -> & Hc).
  - replace (api_module <$> apis) with l; [done|]. clear -Hl. induction Hl as [|m a l apis Hm _ IH]; [done|].
    cbn [fmap list_fmap]. rewrite IH. f_equal. unfold RpcModuleBuilder.api_for in Hm.
    destruct (RpcModuleBuilder.history_tx self), (RpcModuleBuilder.beacon_tx self), m; try done; by injection Hm as <-.
  - intros n a [x Hx]. by rewrite call_none in Hx.
  - exists self', c. split_and!; [done| |done|done]. intros n. by rewrite Hc, call_none.
Qed.

(** The methods of a transport. *)
Definition installed apis (s : option RpcModuleSelection.t) (m : option Methods) : Prop :=
  match s, m with
  | None, None => True
  | Some _, Some c => forall n, call c n = answering apis n
  | _, _ => False
  end.

Lemma maybe_module_installed self l apis s :
  kept_apis self -> NoDup l -> Forall2 (fun m a => RpcModuleBuilder.api_for self m = Ok a) l apis ->
  s = None \/ s = Some (RpcModuleSelection.Selection l) ->
  exists self' m, RpcModuleBuilder.maybe_module self s = Ok (self', m) /\ installed apis s m
    /\ kept_apis self' /\ Forall2 (fun m a => RpcModuleBuilder.api_for self' m = Ok a) l apis.
Proof.
  intros Hk Hnd Hl [->| ->]; cbn [RpcModuleBuilder.maybe_module]; [by exists self, None|].
  destruct (module_for_served self l apis Hk Hnd Hl) as (self' & c & -> & Hc & Hk' & Heq). exists self', (Some c).
  split_and!; [done|done|done|]. eapply Forall2_impl; [exact Hl|]. intros m a <-. apply Heq.
Qed.

Lemma build_installed self tc l apis :
  kept_apis self -> NoDup l -> Forall2 (fun m a => RpcModuleBuilder.api_for self m = Ok a) l apis ->
  Forall (fun s => s = None \/ s = Some (RpcModuleSelection.Selection l))
    [TransportRpcModuleConfig.http tc; TransportRpcModuleConfig.ws tc; TransportRpcModuleConfig.ipc tc] ->
  exists tm, RpcModuleBuilder.build self tc = Ok tm /\ RpcModuleBuilder.config tm = tc
    /\ installed apis (TransportRpcModuleConfig.http tc) (RpcModuleBuilder.http tm)
    /\ installed apis (TransportRpcModuleConfig.ws tc) (RpcModuleBuilder.ws tm)
    /\ installed apis (TransportRpcModuleConfig.ipc tc) (RpcModuleBuilder.ipc tm).
Proof.
  intros Hk Hnd Hl Hs. unfold RpcModuleBuilder.build. destruct (TransportRpcModuleConfig.is_empty tc) eqn:He.
  { destruct tc as [[|] [|] [|]]; try done. by eexists. }
  apply Forall_cons in Hs as [H1 Hs]. apply Forall_cons in Hs as [H2 Hs]. apply Forall_cons in Hs as [H3 _].
  destruct (maybe_module_installed self l apis _ Hk Hnd Hl H1) as (s1 & m1 & -> & I1 & Hk1 & Hl1). cbn [fst snd].
  destruct (maybe_module_installed s1 l apis _ Hk1 Hnd Hl1 H2) as (s2 & m2 & -> & I2 & Hk2 & Hl2). cbn [fst snd].
  destruct (maybe_module_installed s2 l apis _ Hk2 Hnd Hl2 H3) as (s3 & m3 & -> & I3 & _ & _). by eexists.
Qed.
End Served.

(** ** The whole launch *)

Section LaunchOk.
Context {W : Type} `{H : ServerHost W} `{J : RpcMethods} `{!RpcMethodsOk J} `{A : AddressText} `{T : EnrText}.

Definition known_network (n : bytes) : Prop := n = HISTORY_NETWORK \/ n = STATE_NETWORK \/ n = BEACON_NETWORK.

(** The APIs of the networks of a node, and of the node. *)
Definition apis_of (history_tx beacon_tx : Z) (n : bytes) : list Api :=
  if decide (n = HISTORY_NETWORK) then [HistoryNetworkApi history_tx; EthApi history_tx]
  else if decide (n = BEACON_NETWORK) then [BeaconNetworkApi beacon_tx]
  else [].
Definition node_apis (history_tx beacon_tx : Z) (networks : list bytes) : list Api :=
  Discv5Api :: Web3Api :: (networks ≫= apis_of history_tx beacon_tx).

Lemma network_modules_known ht bt networks :
  Forall known_network networks ->
  network_modules networks = Ok (api_module <$> (networks ≫= apis_of ht bt)).
Proof.
  induction 1 as [|n networks Hn _ IH]; [done|]. cbn [network_modules mbind list_bind]. rewrite IH.
  by destruct Hn as [->|[->| ->]].
Qed.

(** A module belongs to one network. *)
Lemma api_network ht bt n a :
  known_network n -> a ∈ apis_of ht bt n ->
  n = match api_module a with PortalRpcModule.Beacon => BEACON_NETWORK | _ => HISTORY_NETWORK end.
Proof. intros [->|[->| ->]]; cbn; intros Ha; set_solver. Qed.

Lemma network_apis_kind ht bt n a :
  a ∈ apis_of ht bt n -> a = HistoryNetworkApi ht \/ a = EthApi ht \/ a = BeaconNetworkApi bt.
Proof. unfold apis_of. do 2 (case_decide; [set_solver|]). set_solver. Qed.

Lemma network_modules_nodup ht bt networks :
  Forall known_network networks -> NoDup networks -> NoDup (api_module <$> (networks ≫= apis_of ht bt)).
Proof.
  intros Hk Hnd. induction Hnd as [|n networks Hn Hnd IH]; [constructor|]. apply Forall_cons in Hk as [Hkn Hk].
  cbn [mbind list_bind]. rewrite fmap_app. apply NoDup_app. split_and!; [| |by apply IH].
  - destruct Hkn as [->|[->| ->]]; cbn; repeat constructor; set_solver.
  - intros m (a & -> & Ha)%list_elem_of_fmap (a' & Hm & Ha')%list_elem_of_fmap.
    apply list_elem_of_bind in Ha' as (n' & Ha' & Hn'). apply Hn.
    rewrite (api_network ht bt n a), Hm, <- (api_network ht bt n' a'); [done| |done..].
    by apply (proj1 (Forall_forall _ _) Hk).
Qed.

Lemma node_modules_nodup ht bt networks :
  Forall known_network networks -> NoDup networks -> NoDup (api_module <$> node_apis ht bt networks).
Proof.
  intros Hk Hnd. cbn [node_apis fmap list_fmap].
  assert (Hout : forall m, m ∈ api_module <$> (networks ≫= apis_of ht bt) ->
    m <> PortalRpcModule.Discv5 /\ m <> PortalRpcModule.Web3).
  { intros m (a & -> & (n & Ha & _)%list_elem_of_bind)%list_elem_of_fmap.
    by apply network_apis_kind in Ha as [->|[->| ->]]. }
  apply NoDup_cons. split; [set_solver|]. apply NoDup_cons. split; [set_solver|]. by apply network_modules_nodup.
Qed.

(** The networks of a node are started before the servers. *)
Lemma node_apis_there ht bt networks self :
  (HISTORY_NETWORK ∈ networks -> RpcModuleBuilder.history_tx self = Some ht) ->
  (BEACON_NETWORK ∈ networks -> RpcModuleBuilder.beacon_tx self = Some bt) ->
  Forall2 (fun m a => RpcModuleBuilder.api_for self m = Ok a) (api_module <$> node_apis ht bt networks) (node_apis ht bt networks).
Proof.
  intros Hh Hb. apply Forall2_fmap_l, Forall_Forall2_diag, Forall_forall. intros a Ha. cbn beta.
  apply elem_of_cons in Ha as [->|Ha]; [done|]. apply elem_of_cons in Ha as [->|Ha]; [done|].
  apply list_elem_of_bind in Ha as (n & Ha & Hn). unfold apis_of in Ha.
  case_decide as E1; [|case_decide as E2; [|by apply elem_of_nil in Ha]]; subst n.
  - specialize (Hh Hn). apply elem_of_cons in Ha as [->|Ha]; [cbn; by rewrite Hh|].
    apply list_elem_of_singleton in Ha as ->. cbn. by rewrite Hh.
  - apply list_elem_of_singleton in Ha as ->. cbn. by rewrite (Hb Hn).
Qed.

Lemma kind_build builder addr kind (w : W) :
  (exists srv local w', WsHttpServerKind.build builder addr None kind w = (Ok (srv, local), w'))
  \/ exists e w', WsHttpServerKind.build builder addr None kind w = (Err e, w').
Proof.
  unfold WsHttpServerKind.build, bind, lift.
  destruct (bind_addr builder None addr w) as [[e|local] w']; [by right; eexists _, _|].
  destruct (local_addr_fails local w'); [by right; eexists _, _|by left; eexists _, _, _].
Qed.

(** An outcome that is no panic and satisfies a postcondition if it is no error. *)
Definition outcome {F B} (P : B -> Prop) (r : res F B) : Prop :=
  match r with Ok b => P b | Err _ => True | Panic => False end.

Lemma bind_outcome {F B C} (P : B -> Prop) (Q : C -> Prop) (m : SM W F B) (k : B -> SM W F C) w :
  outcome P (m w).1 -> (forall b w', P b -> outcome Q (k b w').1) -> outcome Q (bind m k w).1.
Proof. unfold bind. destruct (m w) as [[b| |] w']; cbn; auto. Qed.

Lemma build_one_outcome config builder addr kind (w : W) :
  outcome (fun r => is_Some r.2 <-> is_Some config) (RpcServerConfig.build_one config builder addr None kind w).1.
Proof.
  destruct config as [cfg|]; cbn; [|by split]. unfold bind.
  destruct (kind_build builder addr kind w) as [(srv & local & w' & ->)|(e & w' & ->)]; cbn; [|done].
  by split; intros; eexists.
Qed.

(** Without domains, the servers that are configured are built. *)
Definition as_configured (c : RpcServerConfig.t) (s : WsHttpServers) : Prop :=
  match s with
  | OnSamePort _ => is_Some (RpcServerConfig.http_server_config c) /\ is_Some (RpcServerConfig.ws_server_config c)
  | DifferentPort http ws =>
      (is_Some http <-> is_Some (RpcServerConfig.http_server_config c))
      /\ (is_Some ws <-> is_Some (RpcServerConfig.ws_server_config c))
  end.

Lemma build_ws_http_outcome (c : RpcServerConfig.t) (w : W) :
  RpcServerConfig.http_cors_domains c = None -> RpcServerConfig.ws_cors_domains c = None ->
  outcome (fun s => as_configured c (server s)) (RpcServerConfig.build_ws_http c w).1.
Proof.
  intros Hh Hw. unfold RpcServerConfig.build_ws_http. rewrite Hh, Hw.
  assert (Hd : outcome (fun s => as_configured c (server s)) ((
      do ws <- RpcServerConfig.build_one (RpcServerConfig.ws_server_config c) WsOnly (RpcServerConfig.ws_socket_addr c) None
                 (KWS (RpcServerConfig.ws_socket_addr c));
      do http <- RpcServerConfig.build_one (RpcServerConfig.http_server_config c) HttpOnly (RpcServerConfig.http_socket_addr c) None
                   (KHttp (RpcServerConfig.http_socket_addr c));
      ret (mk_ws_http http.1 ws.1 (DifferentPort http.2 ws.2))) w).1).
  { eapply bind_outcome; [apply build_one_outcome|]. intros rw w1 Hrw.
    eapply bind_outcome; [apply build_one_outcome|]. by intros rh w2 Hrh. }
  case_bool_decide; [|exact Hd]. destruct (RpcServerConfig.http_server_config c) as [b|] eqn:Eh; [|exact Hd].
  destruct (RpcServerConfig.ws_server_config c) as [b'|] eqn:Ew; [|exact Hd].
  cbn [RpcServerConfig.common_cors]. unfold bind, lift.
  destruct (kind_build b (RpcServerConfig.http_socket_addr c) (KWsHttp (RpcServerConfig.http_socket_addr c)) w)
    as [(srv & local & w' & ->)|(e & w' & ->)]; cbn; [|done]. rewrite Eh, Ew. eauto.
Qed.

(** What is configured is there. *)
Definition handles {B C} (config : option C) (o : option B) (P : B -> Prop) : Prop :=
  match config with Some _ => exists b, o = Some b /\ P b | None => o = None end.

Definition served_by apis (m : Methods) : Prop := forall n, call m n = answering apis n.

Definition handle_serves apis (tc : TransportRpcModuleConfig.t) (path : bytes) (h : RpcServerConfig.RpcServerHandle) : Prop :=
  handles (TransportRpcModuleConfig.http tc) (RpcServerConfig.handle_http h) (fun x => served_by apis (h_module x))
  /\ handles (TransportRpcModuleConfig.ws tc) (RpcServerConfig.handle_ws h) (fun x => served_by apis (h_module x))
  /\ handles (TransportRpcModuleConfig.ipc tc) (RpcServerConfig.handle_ipc h)
       (fun x => ipc_path x = path /\ served_by apis (ipc_module x)).

(** The servers of a configuration are those of the modules. *)
Record matching (c : RpcServerConfig.t) (tc : TransportRpcModuleConfig.t) (path : bytes) : Prop := {
  match_http_cors : RpcServerConfig.http_cors_domains c = None;
  match_ws_cors : RpcServerConfig.ws_cors_domains c = None;
  match_http : is_Some (RpcServerConfig.http_server_config c) <-> is_Some (TransportRpcModuleConfig.http tc);
  match_ws : is_Some (RpcServerConfig.ws_server_config c) <-> is_Some (TransportRpcModuleConfig.ws tc);
  match_ipc : RpcServerConfig.ipc_server_config c = true <-> is_Some (TransportRpcModuleConfig.ipc tc);
  match_path : RpcServerConfig.ipc_endpoint c = Some path \/ RpcServerConfig.ipc_server_config c = false;
  match_same : is_Some (TransportRpcModuleConfig.http tc) -> is_Some (TransportRpcModuleConfig.ws tc) ->
    TransportRpcModuleConfig.ensure_ws_http_identical tc = Ok tt;
}.

Lemma ws_http_started apis c tc path s hm wm :
  matching c tc path -> as_configured c s ->
  installed apis (TransportRpcModuleConfig.http tc) hm -> installed apis (TransportRpcModuleConfig.ws tc) wm ->
  exists h w, WsHttp.start s hm wm tc = Ok (h, w)
    /\ handles (TransportRpcModuleConfig.http tc) h (fun x => served_by apis (h_module x))
    /\ handles (TransportRpcModuleConfig.ws tc) w (fun x => served_by apis (h_module x)).
Proof.
  intros [_ _ Hh Hw _ _ Hsame] Hs Ih Iw. destruct s as [both|http ws]; cbn [WsHttp.start as_configured] in *.
  - rewrite <- Hh, <- Hw in Hsame. rewrite Hsame by apply Hs. cbn [map_err].
    destruct Hs as [Hs1%Hh Hs2%Hw]. destruct (TransportRpcModuleConfig.http tc) as [sh|]; [|by destruct Hs1].
    destruct (TransportRpcModuleConfig.ws tc) as [sw|]; [|by destruct Hs2].
    destruct hm as [hm|]; [|done]. eexists _, _. split; [done|]. split; by eexists.
  - destruct Hs as [H1 H2]. rewrite Hh in H1. rewrite Hw in H2. eexists _, _. split; [done|].
    destruct (TransportRpcModuleConfig.http tc), (TransportRpcModuleConfig.ws tc), http, ws, hm, wm; cbn in *;
      try done; try (by destruct (proj2 H1 ltac:(eauto))); try (by destruct (proj2 H2 ltac:(eauto)));
      try (by destruct (proj1 H1 ltac:(eauto))); try (by destruct (proj1 H2 ltac:(eauto))); split; eauto.
Qed.

Lemma start_outcome apis c tm path (w : W) :
  matching c (RpcModuleBuilder.config tm) path ->
  installed apis (TransportRpcModuleConfig.http (RpcModuleBuilder.config tm)) (RpcModuleBuilder.http tm) ->
  installed apis (TransportRpcModuleConfig.ws (RpcModuleBuilder.config tm)) (RpcModuleBuilder.ws tm) ->
  installed apis (TransportRpcModuleConfig.ipc (RpcModuleBuilder.config tm)) (RpcModuleBuilder.ipc tm) ->
  outcome (handle_serves apis (RpcModuleBuilder.config tm) path) (RpcServerConfig.start c tm w).1.
Proof.
  intros Hm Ih Iw Ii. unfold RpcServerConfig.start.
  eapply (bind_outcome (fun s => as_configured c (server (RpcServerConfig.ws_http s))
     /\ RpcServerConfig.ipc_server s = if RpcServerConfig.ipc_server_config c then Some path else None)).
  - unfold RpcServerConfig.build.
    eapply bind_outcome; [apply build_ws_http_outcome; apply Hm|]. intros s w' Hs.
    destruct (match_path _ _ _ Hm) as [-> | ->]; [|done].
    destruct (RpcServerConfig.ipc_server_config c); [|done]. by destruct (ipc_build path).
  - intros s w' [Hs Hi]. unfold RpcServerConfig.start_server, bind at 1, lift.
    destruct (ws_http_started apis c _ path _ _ _ Hm Hs Ih Iw) as (h & wh & -> & Hh & Hw).
    rewrite Hi. pose proof (match_ipc _ _ _ Hm) as Hipc. unfold handle_serves.
    destruct (TransportRpcModuleConfig.ipc (RpcModuleBuilder.config tm)) as [si|] eqn:Ei.
    + rewrite (proj2 Hipc) by done. destruct (RpcModuleBuilder.ipc tm) as [mi|]; [|done].
      destruct (ipc_start path w') as [[] w2]; cbn; [|done]. split_and!; [done|done|by eexists].
    + destruct (RpcServerConfig.ipc_server_config c); [by destruct (proj1 Hipc eq_refl)|]. done.
Qed.

(** Presence of concrete options and flags. *)
Ltac is_some_iff := by cbn; split; intros Hx; try (destruct Hx; discriminate); eauto.

Lemma same_selection l ipc :
  TransportRpcModuleConfig.ensure_ws_http_identical
    (TransportRpcModuleConfig.mk (Some (RpcModuleSelection.Selection l)) (Some (RpcModuleSelection.Selection l)) ipc) = Ok tt.
Proof. unfold TransportRpcModuleConfig.ensure_ws_http_identical. cbn. by rewrite bool_decide_eq_true_2. Qed.

(** The configuration of the transports of a node. *)
Definition node_transports (config : TrinConfig.t) (l : list PortalRpcModule.t) : TransportRpcModuleConfig.t :=
  let s := Some (RpcModuleSelection.Selection l) in
  match TrinConfig.web3_transport config with
  | IPC => TransportRpcModuleConfig.mk None None s
  | HTTP => TransportRpcModuleConfig.mk s (if TrinConfig.ws config then s else None) None
  end.

Lemma node_transports_selection config l :
  Forall (fun s => s = None \/ s = Some (RpcModuleSelection.Selection l))
    [TransportRpcModuleConfig.http (node_transports config l); TransportRpcModuleConfig.ws (node_transports config l);
     TransportRpcModuleConfig.ipc (node_transports config l)].
Proof.
  unfold node_transports. destruct (TrinConfig.web3_transport config), (TrinConfig.ws config); cbn;
    repeat apply Forall_cons_2; auto.
Qed.

(** Addresses that can be used. *)
Definition addressed (config : TrinConfig.t) : Prop :=
  match TrinConfig.web3_transport config with
  | IPC => path_text (TrinConfig.web3_ipc_path config) = true
  | HTTP => exists addr rest, socket_addrs (TrinConfig.web3_http_address config) = Some (addr :: rest)
  end.

Lemma launch_outcome config ht bt hh sh bh (w : W) :
  let networks := TrinConfig.networks config in
  let apis := node_apis ht bt networks in
  Forall known_network networks -> NoDup networks -> addressed config ->
  (HISTORY_NETWORK ∈ networks -> hh = Some ht) -> (BEACON_NETWORK ∈ networks -> bh = Some bt) ->
  outcome (handle_serves apis (node_transports config (api_module <$> apis)) (TrinConfig.web3_ipc_path config))
    (launch_jsonrpc_server config hh sh bh w).1.
Proof.
  intros networks apis Hk Hnd Ha Hh Hb. unfold launch_jsonrpc_server.
  rewrite (network_modules_known ht bt (TrinConfig.networks config) Hk). unfold bind at 1, lift at 1. cbn [expect].
  change ([PortalRpcModule.Discv5; PortalRpcModule.Web3] ++ _) with (api_module <$> apis).
  set (self := RpcModuleBuilder.maybe_with_state _ _).
  assert (Hkept : kept_apis self) by (intros m methods Hm; cbn in Hm; by rewrite lookup_empty in Hm).
  destruct (build_installed self (node_transports config (api_module <$> apis)) (api_module <$> apis) apis Hkept)
    as (tm & Hbuild & Hcfg & I1 & I2 & I3).
  { by apply node_modules_nodup. }
  { by apply node_apis_there. }
  { apply node_transports_selection. }
  revert Hbuild Hcfg I1 I2 I3 Ha. unfold node_transports, addressed.
  destruct (TrinConfig.web3_transport config).
  - intros Hbuild Hcfg I1 I2 I3 (addr & rest & Haddr).
    assert (Heq : TransportRpcModuleConfig.with_http (if TrinConfig.ws config
        then TransportRpcModuleConfig.with_ws TransportRpcModuleConfig.default (RpcModuleSelection.Selection (api_module <$> apis))
        else TransportRpcModuleConfig.default) (RpcModuleSelection.Selection (api_module <$> apis))
      = RpcModuleBuilder.config tm).
    { rewrite Hcfg. by destruct (TrinConfig.ws config). }
    rewrite Heq. rewrite <- Hcfg in *. rewrite Hbuild. unfold bind, lift. cbn [expect]. rewrite Haddr.
    apply start_outcome; [|done..]. rewrite Hcfg.
    destruct (TrinConfig.ws config); (split; try done; try is_some_iff; [by right|]);
      intros _ [x Hx]; [apply same_selection|discriminate Hx].
  - intros Hbuild Hcfg I1 I2 I3 Hp. rewrite Hp.
    change (TransportRpcModuleConfig.with_ipc _ _) with
      (TransportRpcModuleConfig.mk None None (Some (RpcModuleSelection.Selection (api_module <$> apis)))).
    rewrite <- Hcfg in *. rewrite Hbuild. unfold bind, lift. cbn [expect]. apply start_outcome; [|done..].
    rewrite Hcfg. split; try done; try is_some_iff. by left.
Qed.

(** A network of the node panics when it is started. *)
Definition start_panics (init : SM W RunError unit) (name : bytes) (networks : list bytes) (w : W) : Prop :=
  name ∈ networks /\ (init w).1 = Panic.

Lemma start_network_spec init tx name networks (w : W) :
  match (start_network init tx name networks w).1 with
  | Ok o => o = if decide (name ∈ networks) then Some tx else None
  | Err _ => True
  | Panic => start_panics init name networks w
  end.
Proof.
  unfold start_network. case_decide; [|done]. unfold bind. unfold start_panics.
  by destruct (init w) as [[| |] w'].
Qed.

(** C36: A node serves the methods of its networks.  For networks that are known and listed
    once, and an address or a path that can be used, [run_trin] does not panic while it
    starts the networks and the servers, unless one of these networks itself panics when it
    is started; and unless it fails, every transport that is configured (IPC, or HTTP with
    or without WebSocket) is there and answers exactly the methods of [discv5] and [web3],
    those of [portal_history] and [eth] if the history network is among the networks, and
    those of [portal_beacon] if the beacon network is, each over the channel of its
    network. *)
Theorem node_serves_networks init_state init_beacon init_history st bt ht config (w : W) :
  let networks := TrinConfig.networks config in
  let apis := node_apis ht bt networks in
  let w1 := (start_network init_state st STATE_NETWORK networks w).2 in
  let w2 := (start_network init_beacon bt BEACON_NETWORK networks w1).2 in
  Forall known_network networks -> NoDup networks -> addressed config ->
  match (run_trin init_state init_beacon init_history st bt ht config w).1 with
  | Ok handle => handle_serves apis (node_transports config (api_module <$> apis)) (TrinConfig.web3_ipc_path config) handle
  | Err _ => True
  | Panic => start_panics init_state STATE_NETWORK networks w \/ start_panics init_beacon BEACON_NETWORK networks w1
      \/ start_panics init_history HISTORY_NETWORK networks w2
  end.
Proof.
  intros networks apis w1 w2 Hk Hnd Ha. subst w1 w2. unfold run_trin, bind.
  pose proof (start_network_spec init_state st STATE_NETWORK networks w) as H1. fold networks.
  destruct (start_network init_state _ _ _ w) as [[so| |] w1]; cbn [fst snd] in *; [|done|by auto]. clear H1.
  pose proof (start_network_spec init_beacon bt BEACON_NETWORK networks w1) as H2.
  destruct (start_network init_beacon _ _ _ w1) as [[bo| |] w2]; cbn [fst snd] in *; [|done|by auto].
  pose proof (start_network_spec init_history ht HISTORY_NETWORK networks w2) as H3.
  destruct (start_network init_history _ _ _ w2) as [[ho| |] w3]; cbn [fst snd] in *; [|done|by auto]. subst bo ho.
  pose proof (launch_outcome config ht bt (if decide (HISTORY_NETWORK ∈ networks) then Some ht else None) so
    (if decide (BEACON_NETWORK ∈ networks) then Some bt else None) w3 Hk Hnd Ha) as Hl.
  destruct (launch_jsonrpc_server _ _ _ _ _) as [r w4]. cbn [fst] in *.
  assert (Hr : outcome (handle_serves apis (node_transports config (api_module <$> apis)) (TrinConfig.web3_ipc_path config)) r).
  { apply Hl; intros; by rewrite decide_True. }
  by destruct r.
Qed.

Lemma api_of_listed ht bt n : n = HISTORY_NETWORK \/ n = BEACON_NETWORK -> exists a rest, apis_of ht bt n = a :: rest.
Proof. intros [->| ->]; cbn; eauto. Qed.

Lemma node_apis_twice ht bt n l1 l2 l3 :
  n = HISTORY_NETWORK \/ n = BEACON_NETWORK ->
  exists p a q, node_apis ht bt (l1 ++ n :: l2 ++ n :: l3) = p ++ a :: q /\ a ∈ q.
Proof.
  intros (a & rest & Ha)%(api_of_listed ht bt).
  exists (Discv5Api :: Web3Api :: (l1 ≫= apis_of ht bt)), a, (rest ++ (l2 ≫= apis_of ht bt) ++ (a :: rest) ++ (l3 ≫= apis_of ht bt)).
  split; [|set_solver]. unfold node_apis. rewrite bind_app, bind_cons, bind_app, bind_cons, Ha.
  cbn [app]. by rewrite <- ?app_assoc.
Qed.

Lemma build_twice (self : RpcModuleBuilder.t) config p a q :
  kept_apis self -> a ∈ q ->
  Forall2 (fun m a => RpcModuleBuilder.api_for self m = Ok a) (api_module <$> (p ++ a :: q)) (p ++ a :: q) ->
  RpcModuleBuilder.build self (node_transports config (api_module <$> (p ++ a :: q))) = Panic.
Proof.
  intros Hk Ha Hl.
  assert (Hm : RpcModuleBuilder.module_for self (RpcModuleSelection.Selection (api_module <$> (p ++ a :: q))) = Panic).
  { unfold RpcModuleBuilder.module_for. cbn [RpcModuleSelection.iter_selection].
    destruct (portal_methods_apis _ _ self Hk Hl) as (self' & -> & _ & _). cbn [snd]. by rewrite merge_all_twice. }
  unfold node_transports, RpcModuleBuilder.build.
  destruct (TrinConfig.web3_transport config); cbn [TransportRpcModuleConfig.is_empty TransportRpcModuleConfig.http
    TransportRpcModuleConfig.ws TransportRpcModuleConfig.ipc RpcModuleBuilder.maybe_module fst]; by rewrite Hm.
Qed.

(** A network that is listed twice is a panic: its methods conflict with themselves. *)
Theorem repeated_network_panics config n l1 l2 l3 ht bt sh (w : W) :
  TrinConfig.networks config = l1 ++ n :: l2 ++ n :: l3 -> Forall known_network (TrinConfig.networks config) ->
  n = HISTORY_NETWORK \/ n = BEACON_NETWORK ->
  (launch_jsonrpc_server config (Some ht) sh (Some bt) w).1 = Panic.
Proof.
  intros Hn Hk Hwhich. unfold launch_jsonrpc_server. rewrite (network_modules_known ht bt _ Hk).
  unfold bind at 1, lift at 1. cbn [expect].
  change ([PortalRpcModule.Discv5; PortalRpcModule.Web3] ++ _) with (api_module <$> node_apis ht bt (TrinConfig.networks config)).
  rewrite Hn. destruct (node_apis_twice ht bt n l1 l2 l3 Hwhich) as (p & a & q & Heq & Ha).
  set (self := RpcModuleBuilder.maybe_with_state _ _).
  assert (Hkept : kept_apis self) by (intros m methods Hm; cbn in Hm; by rewrite lookup_empty in Hm).
  pose proof (node_apis_there ht bt (l1 ++ n :: l2 ++ n :: l3) self ltac:(done) ltac:(done)) as Hl.
  rewrite Heq in *. pose proof (build_twice self config p a q Hkept Ha Hl) as Hb. unfold node_transports in Hb.
  destruct (TrinConfig.web3_transport config).
  - unfold bind at 1, lift at 1.
    match goal with |- context [RpcModuleBuilder.build self ?tc] => replace (RpcModuleBuilder.build self tc) with
      (Panic : res Empty_set RpcModuleBuilder.TransportRpcModules); [done|rewrite <- Hb; by destruct (TrinConfig.ws config)] end.
  - change (TransportRpcModuleConfig.with_ipc _ _) with
      (TransportRpcModuleConfig.mk None None (Some (RpcModuleSelection.Selection (api_module <$> (p ++ a :: q))))).
    unfold bind at 1, lift at 1. by rewrite Hb.
Qed.
End LaunchOk.

(** ** Servers on one port *)

Section SamePort.
Context {W : Type} `{H : ServerHost W} `{J : RpcMethods}.

(** A server for both is started only if both have the same modules. *)
Theorem same_port_modules both hm wm http ws ipc r :
  WsHttp.start (OnSamePort both) hm wm
    (TransportRpcModuleConfig.mk (Some (RpcModuleSelection.Selection http)) (Some (RpcModuleSelection.Selection ws)) ipc) = Ok r
  <-> (forall m, m ∈ http <-> m ∈ ws)
      /\ r = match hm, wm with
             | Some m, _ | None, Some m => (Some (WsHttpServerKind.start both m), Some (WsHttpServerKind.start both m))
             | None, None => (None, None)
             end.
Proof.
  cbn [WsHttp.start]. unfold TransportRpcModuleConfig.ensure_ws_http_identical.
  cbn [TransportRpcModuleConfig.http TransportRpcModuleConfig.ws RpcModuleSelection.are_identical
       RpcModuleSelection.iter_selection].
  assert (Hset : list_to_set http =@{gset PortalRpcModule.t} list_to_set ws <-> forall m, m ∈ http <-> m ∈ ws) by set_solver.
  case_bool_decide as E; cbn.
  - rewrite <- Hset. destruct hm, wm; naive_solver.
  - split; [done|]. intros [E' _]. by apply Hset in E'.
Qed.

(** Two servers without addresses are combined, at the port of HTTP, although the default port
    of WebSocket is another one. *)
Theorem default_addresses_combined cfg cfg' (w : W) s w' :
  let c := RpcServerConfig.with_ws (RpcServerConfig.with_http RpcServerConfig.default cfg) cfg' in
  RpcServerConfig.build_ws_http c w = (Ok s, w') ->
  RpcServerConfig.ws_socket_addr c <> RpcServerConfig.http_socket_addr c
  /\ exists both addr, server s = OnSamePort both /\ ws_local_addr s = Some addr
     /\ (bind_addr cfg None (RpcServerConfig.http_socket_addr c) w).1 = inr addr.
Proof.
  intros c. assert (Hc : RpcServerConfig.build_ws_http c w
    = (do (server, addr) <- WsHttpServerKind.build cfg (RpcServerConfig.http_socket_addr c) None
          (KWsHttp (RpcServerConfig.http_socket_addr c));
       ret (mk_ws_http (Some addr) (Some addr) (OnSamePort server))) w).
  { unfold RpcServerConfig.build_ws_http. by rewrite bool_decide_eq_true_2. }
  rewrite Hc. unfold WsHttpServerKind.build, bind, lift.
  destruct (bind_addr cfg None _ w) as [[e|addr] w1] eqn:Hb; [done|]. destruct (local_addr_fails addr w1); [done|].
  cbn. intros [= <- _]. split; [by intros E%(f_equal port)|]. eexists _, addr. split; [done|]. split; [done|]. done.
Qed.
End SamePort.

(** ** Origins *)

(** A wildcard stands alone, up to white space around it; otherwise the origins are the parts
    between commas, white space included. *)
Theorem cors_layer_spec hv (s : list Z) layer :
  Cors.create_cors_layer hv s = Ok layer <->
  (Cors.trim s = Cors.STAR /\ layer = Cors.AnyOrigin)
  \/ (Cors.trim s <> Cors.STAR /\ ~ (Cors.STAR ∈ Cors.split 44 s) /\ Forall (fun d => hv d = true) (Cors.split 44 s)
      /\ layer = Cors.Origins (Cors.split 44 s)).
Proof.
  unfold Cors.create_cors_layer. case_decide as E1; [naive_solver|]. case_decide as E2; [naive_solver|].
  assert (Hall : forall l, match res_all (fun d => if hv d then Ok d else Err (Cors.InvalidHeader d)) l with
      | Ok l' => l' = l /\ Forall (fun d => hv d = true) l | Err _ => ~ Forall (fun d => hv d = true) l | Panic => False end).
  { induction l as [|d l IH]; cbn; [by split|]. destruct (hv d) eqn:Hd.
    - destruct (res_all _ l) as [l'|e|]; [destruct IH as [-> IH]; split; [done|by constructor]| |done].
      intros Hf. apply IH. by inversion Hf.
    - intros Hf. inversion Hf. congruence. }
  specialize (Hall (Cors.split 44 s)). destruct (res_all _ _) as [l'|e|]; [destruct Hall as [-> Hall]|..|done]; naive_solver.
Qed.

(** A wildcard after a space passes as an origin. *)
Example spaced_wildcard_passes :
  Cors.create_cors_layer (fun _ => true) [97; 44; 32; 42] = Ok (Cors.Origins [[97]; [32; 42]]).
Proof. reflexivity. Qed.

(** ** The theorem at work *)

Section AtWork.

(** Sets of methods as lists of APIs. *)
#[local] Instance list_methods : RpcMethods := {|
  Methods := list Api;
  no_methods := [];
  merge a b := if decide (Exists (fun x => api_module x ∈ api_module <$> b) a) then None else Some (a ++ b);
  into_rpc a := [a];
  call := answering;
|}.

Lemma answering_app a b n :
  answering (a ++ b) n = match answering a n with Some x => Some x | None => answering b n end.
Proof. induction a as [|x a IH]; [done|]. cbn. unfold answering in *. by case_bool_decide. Qed.

Lemma answering_some a x n :
  x ∈ a -> n ∈ PortalRpcModule.api_methods (api_module x) -> is_Some (answering a n).
Proof. intros Hx Hn. destruct (answering a n) eqn:E; [by eexists|]. by destruct (answering_none _ _ E x Hx). Qed.

#[local] Instance list_methods_ok : RpcMethodsOk list_methods.
Proof.
  split; [done| |].
  - intros a n. cbn. unfold answering. cbn. case_bool_decide; by case_decide.
  - intros a b. cbn. case_decide as E.
    + apply Exists_exists in E as (x & Hx & (y & Hxy & Hy)%list_elem_of_fmap).
      assert (exists n, n ∈ PortalRpcModule.api_methods (api_module x)) as [n Hn].
      { destruct (api_module x); eexists; apply list_elem_of_In; by left. }
      exists n. split; [by eapply answering_some|]. eapply answering_some; [exact Hy|]. by rewrite <- Hxy.
    + split; [|intros n; apply answering_app]. intros n. destruct (answering a n) as [x|] eqn:Ha; [|by left]. right.
      destruct (answering b n) as [y|] eqn:Hb; [|done]. exfalso. apply E.
      apply answering_module in Ha as [Hx Hnx]. apply answering_module in Hb as [Hy Hny]. apply Exists_exists. exists x.
      split; [done|]. rewrite (methods_distinct _ _ _ Hnx Hny). by apply list_elem_of_fmap_2.
Qed.

(** Every address can be bound. *)
#[local] Instance free_host : ServerHost unit := {|
  bind_addr _ _ addr w := (inr addr, w);
  local_addr_fails _ _ := false;
  ipc_build _ := true;
  ipc_start _ w := (true, w);
  header_value _ := true;
|}.

#[local] Instance text_urls : UrlLib := {|
  Url := bytes;
  url_parse s := Some s;
  url_as_str s := s;
  host_str _ := None;
  url_port _ := None;
  Config.SocketAddr := unit;
  socket_addr_parse _ := None;
|}.

#[local] Instance local_addresses : AddressText := {|
  socket_addrs _ := Some [{| ip := V4 0x7f000001; port := DEFAULT_WEB3_HTTP_PORT |}];
  path_text _ := true;
|}.

(** A node with both networks, over HTTP and WebSocket. *)
Definition served_config : TrinConfig.t (E := toy_enr) := {|
  TrinConfig.web3_transport := HTTP; TrinConfig.web3_http_address := DEFAULT_WEB3_HTTP_ADDRESS;
  TrinConfig.web3_ipc_path := DEFAULT_WEB3_IPC_PATH; TrinConfig.discovery_port := DEFAULT_DISCOVERY_PORT;
  TrinConfig.bootnodes := NoNodes; TrinConfig.external_addr := None; TrinConfig.no_stun := true; TrinConfig.no_upnp := true;
  TrinConfig.private_key := None; TrinConfig.trusted_block_root := None;
  TrinConfig.networks := [HISTORY_NETWORK; BEACON_NETWORK]; TrinConfig.mb := 100;
  TrinConfig.enable_metrics_with_url := None; TrinConfig.ephemeral := true;
  TrinConfig.master_acc_path := DEFAULT_MASTER_ACC_PATH; TrinConfig.disable_poke := false; TrinConfig.ws := true;
  TrinConfig.ws_port := DEFAULT_WEB3_WS_PORT |}.

Definition started_node : res RunError RpcServerConfig.RpcServerHandle * unit :=
  run_trin (ret tt) (ret tt) (ret tt) 1 2 3 served_config tt.

Definition ws_answer (n : string) : option Api :=
  match started_node.1 with
  | Ok handle => match RpcServerConfig.handle_ws handle with Some h => call (h_module h) n | None => None end
  | _ => None
  end.

Lemma node_serves_networks_witness :
  ws_answer "eth_getBlockByHash" = Some (EthApi 3) /\ ws_answer "portal_beaconPing" = Some (BeaconNetworkApi 2)
  /\ exists handle, started_node.1 = Ok handle
     /\ handle_serves (node_apis 3 2 [HISTORY_NETWORK; BEACON_NETWORK])
          (node_transports served_config (api_module <$> node_apis 3 2 [HISTORY_NETWORK; BEACON_NETWORK])) DEFAULT_WEB3_IPC_PATH handle.
Proof.
  split; [vm_compute; reflexivity|]. split; [vm_compute; reflexivity|].
  pose proof (node_serves_networks (ret tt) (ret tt) (ret tt) 1 2 3 served_config tt) as Ht.
  cbv zeta in Ht. fold started_node in Ht.
  assert (E : exists handle, started_node.1 = Ok handle) by (eexists; vm_compute; reflexivity).
  destruct E as [handle E]. exists handle. split; [exact E|]. rewrite E in Ht. apply Ht.
  - apply Forall_cons. split; [left; reflexivity|]. apply Forall_cons. split; [right; right; reflexivity|]. apply Forall_nil_2.
  - apply (bool_decide_eq_true _). vm_compute. reflexivity.
  - eexists _, _. reflexivity.
Defined.
End AtWork.
